(* ===== verification/_CoqProject ===== *)
-Q . S2P
Prelude.v
Arrays.v
Physmem.v
Kmem.v
Allocator.v
Heap.v
Store.v
LinkedList.v
QueueModel.v
GenericTree.v
Paging.v
UserSpace.v
KernelHeap.v
KString.v
Kstdio.v
MemoryManager.v
Libc.v
LibcNum.v
Libm.v
LibmSpec.v
LibcFloat.v
Text.v
Calc.v
CalcSpec.v
CalcLine.v
Pci.v
Interrupts.v
KState.v
KernelMachine.v
Pit.v
Process.v
Scheduler.v
Elf.v
ElfSpec.v
Loader.v
LoaderSpec.v
Bootstrap.v
Syscall.v
Scalls.v
Stdio.v
StdioSpec.v
StdioOut.v
UserHeap.v
Start.v
Bmp.v
Shell.v
Programs.v
Vga.v
Vesa.v
Keyboard.v
Fs.v
Boot.v
Vfs.v
VfsSpec.v
VfsMount.v
Devfs.v
Devices.v
Serial.v
Tarfs.v
TarfsSpec.v
Gtty.v
GttySpec.v
GttyVesa.v
GttyInput.v
