(* ===== verification/Prelude.v ===== *)
(** * DBOS: a verification development

    DBOS is a 32-bit x86 operating system in C: a kernel with physical and
    virtual memory management, a heap, processes with copy-on-write cloning and
    a round-robin scheduler, system calls, device drivers and file systems, and
    a small C library for its user programs.  This library models the kernel's
    core, its drivers and its user programs, and proves what they promise.  Every
    definition is translated from the function of the same name under [src/];
    every theorem is about these definitions.

    ** How C is modelled

    - An integer of width [w] is a [Z]; operations that can leave the width are
      wrapped by [u8], [u16], [u32], [i32].  Bit fields are [bf_get], [bf_set].
    - Stateful code is a command [cmd S A]: it returns a value and a new state,
      faults (an access the code has no right to make: NULL, a freed object, an
      index outside an array), or hangs (the bound of a loop was exhausted).
      [wp c Q s] is total correctness: [c] returns from [s] and [Q] holds.
    - Loops whose length depends on memory take fuel.  Chains and trees use one
      step per object of the store, strings one per byte of memory, kernel
      mapping one per page of the address space; the theorems show that this
      fuel is never exhausted on well-formed data.
    - Byte memory is [Kmem.mem] (bytes by address); small heap objects are the
      store of [Store] (objects by address), allocated through the interface
      [Allocator]; port writes are traces; code addresses and assembly stubs are
      parameters.

    ** The files

    - [Prelude]: integers, bit fields, commands, [wp] and its rules, tactics.
      [Arrays]: bounds-checked arrays.
    - [Physmem] ([memory_phys.c]): frames with reference counts.  The state is
      well-formed after initialisation and after every sequence of operations;
      allocation returns the first free frame and never one in use.
    - [Kmem] (the block functions of [kstdio.c]): [memset] and [memcpy].
    - [Allocator]: what clients rely on from [kern_malloc] and [kern_free].
    - [Heap] ([memory_heap.c], [libraries/alloc.c]): first fit with splitting and
      growth over byte memory, against an abstract list of blocks; discharges
      [Allocator].  Pages come from the interface [PageSupply].
    - [Store]: heap objects and doubly linked chains.  [LinkedList]
      ([linked_list.c], and [liblist.c] as [Liblist]), [QueueModel] ([queue.c]):
      refinement of sequences and bounded queues for any run of operations.
      [GenericTree] ([generic_tree.c]): creation, search, destruction.
    - [Paging] ([memory_paging.c]): page tables in physical memory, the temporary
      window, mapping and look-up, cloning, tear-down, the page-fault handler.
      Setting an entry and reading it back agree and leave other pages alone; a
      write fault on a shared page gives the process a private copy.
    - [KernelHeap]: the heap on paging; booting it establishes [Allocator].
    - [KString] ([string.c]), [Kstdio] ([kstdio.c], [logging.c]), [Libc]
      ([libc/string.c], parts of [libc/stdlib.c]): strings, numbers, printing.
    - [Interrupts]: [Gdt] ([gdt.c]) and [Idt] ([idt.c], [isr.c],
      [interrupts.c]): descriptor tables, handler installation, dispatch and
      acknowledgement.
    - [KState]: the kernel state above the heap, the interface [Paged], access to
      processes and register frames.  [KernelMachine]: the kernel heap over
      paging as an instance of [Paged].  [Pit] ([pit.c]): timer routines.
    - [Process] ([process.c], [scheduler.c], [fpu.c]): definitions.  [Scheduler]:
      a preemption saves and restores the right context, rotation is fair.
    - [Syscall] ([syscall.c]): the calls and the dispatcher.
    - [Vga] ([vga.c]), [Keyboard] ([keyboard.c]): devices.
    - [UserSpace]: the user part of an address space as a map from pages to
      frames and contents.  [Elf] ([elf.c]), [Loader] ([loader.c]): definitions;
      [ElfSpec]: every segment of a well-formed executable is in the address
      space, its bytes from the file and the rest zero; [LoaderSpec]: what a
      program finds when it starts, from its saved registers on; [Bootstrap] ([libraries/bootstrap.c]): the
      arguments of [main] are the strings the loader was given.
    - [Fs]: the state of the file-system layer.  [Vfs] ([vfs.c], [path.c]):
      definitions; [VfsSpec], [VfsMount]: paths as lists of names, look-up and
      mounting against a tree of named nodes.  [Devfs] ([devfs.c], [initrd.c]):
      device files and the RAM disk.  [Tarfs] ([tarfs.c]) and [TarfsSpec]: the
      archive, from a path to the bytes of a file.
    - [Vesa] ([vesa.c]): pixels.  [Gtty] ([gtty.c]): the terminal; [GttySpec]:
      the character screen shows the last lines of an unbounded tape;
      [GttyVesa]: glyphs and text on the frame buffer; [GttyInput]: the line a
      program reads is the line that was typed.
    - [LibcNum]: decimal text; [itoa] and [atoi] are inverse.  [Scalls]
      ([scalls.c], [unistd.c], [ioctl.c], [wait.c]): the stubs user programs
      call; each reaches the handler of [Syscall] with its arguments in order.
    - [Stdio] ([stdio.c]): files, formatted input and output.  [StdioSpec]: what
      [sprintf] writes is the expansion of its format, [sscanf] reads back what
      was printed; [StdioOut]: what [printf] sends to a file is that expansion.
    - [Calc] ([userland/calc.c]): the calculator over an interface [Num] of
      arithmetic; [CalcSpec]: its parser agrees with a grammar and an independent
      evaluator; [CalcLine]: from the line typed to the line printed.
    - [Text]: string constants as bytes.  [Pci] ([pci.c]): the device list; what a
      scan of the bus finds is what a configuration space of bytes holds.
    - [Boot] ([multiboot.c], [mboot_modules.c]): the command line of the boot
      loader, cut into parameters; looking a key up returns the value given.
    - [UserHeap] ([stdlib.c]): [malloc] and [free] behind an interface that [Heap]
      discharges.  [Bmp] ([libbmp.c]): bitmaps, a picture read is turned the right
      way up.  [Shell] ([userland/shell.c]): from a line typed to the arguments of
      the system call that starts a program.
    - [MemoryManager] ([memory_manager.c]): memory set-up at boot; an object within
      a page of physical memory is copied to the heap byte for byte.
    - [Devices]: drivers enter the device file system.  [Serial] ([serial.c]): the
      serial line; writing to its file puts the bytes out on the port, in order,
      after the line is set up once.
    - [Libm] ([libraries/libm]): the mathematical functions over an interface of
      double arithmetic.  [LibmSpec]: [trunc] cuts the fraction off; the functions
      run on the floats of the standard library.
    - [Programs] ([init.c], [ls.c], [ps.c], [bmpview.c]): the other user programs;
      an image is shown in the middle of the screen.
    - [LibcFloat] ([string.c]): the printing of doubles; in exact arithmetic the
      digits written are those of the number.  [Start] ([bootstrap.c],
      [stdlib.c]): a whole program run, from the words the kernel left to [main]
      and the exit.

    ** How the parts interact

    [Heap] calls paging for pages through [PageSupply]; [KernelHeap] supplies
    [set_page_table_entry] on frames of [Physmem].  Lists, queues and trees call
    the heap through [Allocator].  The scheduler keeps processes in two queues
    and a list, switches page directories through [Paged], and is called from
    the timer, which the interrupt dispatcher calls; the dispatcher's state
    [Idt.istate] contains the kernel state as its [world].
    File-system nodes call each other through records of operations, one per
    kind of node; the ELF loader reads a file the way [TarfsSpec] proves the
    archive does, and stores it through the page tables of [Paging]; the
    terminal draws through a record of display operations that [Vga] and [Vesa]
    supply.  A user program reaches the kernel through [trap], a parameter of
    [Scalls] whose requests the dispatcher of [Syscall] serves one by one;
    [Stdio] is built on these stubs, and the calculator is generic in [Num].

    ** What the theorems show

    Contracts of each component (functional behaviour, invariants, refinement of
    an abstract specification, frame conditions), liveness of the scheduler,
    round trips (mapping, mounting, printing and parsing), bounds of device
    access.  [runs I c] says that [c] returns from every state in [I], into [I];
    the hint database [runs] proves it for the ELF loader on damaged files.
    Where the code does not do what it means to, a theorem states what it does
    instead (aliased and wrapping frame counters, lost acknowledgements and dead
    processes, the timer's divisor, searches that stop early).

    Specifications do not share the code they judge.  Numbers in printed text are
    the digits of [LibcNum.low_digits] and [StdioSpec.hexadecimal]; the
    calculator's grammar has an evaluator of its own ([CalcSpec.v_expr]) and the
    printed result a number format of its own; a scan of the bus is stated over
    a byte-wise configuration space and the decoding of an address
    ([Pci.config_address]); a path is resolved over named trees
    ([VfsSpec.descend]).  Exceptions, where code and specification share a
    table: the cell encoding [Vga.paint] and the glyphs of the font.

    A theorem's conditions are in its comment.  The recurring ones exclude what
    the code does not check: the first request to an empty heap, an insertion
    behind the head of an empty list, more than 256 ready processes, arguments
    longer than the shell's buffers, rows of a bitmap that need padding.

    ** Bounds and simplifications

    - The translation cache is not modelled, and paging reads entries without
      checking their present bit.
    - The heap theorems hold while the heap stays below [HEAP_TOP]; [Allocator]
      is stated for requests of at most [SMALL] bytes, which all kernel objects
      but kernel stacks satisfy.  A run of operations states how many
      allocations it needs as the room of [store_ok].
    - An allocator also has a zone its blocks never touch (where a program's
      static data lives) and ignores a NULL argument of [kern_free]; the bytes of
      live blocks and of the zone survive every call.
    - The scheduler theorems are proved against [Paged].  Its instances are the
      kernel heap over paging ([KernelMachine]), for page directories of which
      none is a page table of another, and a small machine for examples.
    - The entry of the window page at 0xC0000000 is a register of the paging
      state, not a word of the kernel's page table, so statements about mapped
      addresses leave that page out.  The bytes of the heap are a memory of
      their own, not read through the page tables.  String and block contents
      are kept apart from block headers, so a write one byte behind a block
      ([strdup]) is not seen to hit the next header.
    - Path, name and archive loops take one step of fuel per byte of memory or
      per object of the store; the loops of the ELF loader one per program
      header and per page of the segment, which [Elf.elf_load_ends] shows to be
      enough where a segment's bytes in the file fit its pages.
    - The calculator's theorem is about lines of at most 31 characters, the size
      of its buffer, and its parser takes fuel from the number of tokens.
    - The series of [Libm] take as much fuel as the caller gives: whether they end
      depends on the arithmetic.  Device polls and the loops of the user programs
      over a list or over answers of the kernel are bounded by an argument.
    - [Libm] and the printing of doubles are over interfaces of arithmetic; the
      one of [Libm] has the floats of the standard library as an instance.
    - Interrupts do not occur inside a command: the kernel runs with them off.

    ** Not modelled

    [kmain] and [init_devices], which call the initialisers one after the other,
    each of them modelled over its own state; [initialise_keyboard] and
    [initialise_gtty]; [strtod] with an end pointer; [getopt] (third-party code),
    the build tool and assembly; [ide.c] is one comment, and the database of PCI
    names is data. *)
From stdpp Require Import base numbers gmap list.

#[global] Set Default Goal Selector "!".
#[global] Open Scope Z_scope.

(** * Machine integers

    A C integer of width [w] is a [Z]; every C operation that can leave the
    width is followed by one of these wrap functions. *)

Definition u8 (x : Z) : Z := x mod 2 ^ 8.
Definition u16 (x : Z) : Z := x mod 2 ^ 16.
Definition u32 (x : Z) : Z := x mod 2 ^ 32.

(** Conversion of a 32-bit pattern to [int]. *)
Definition i32 (x : Z) : Z := (x + 2 ^ 31) mod 2 ^ 32 - 2 ^ 31.

Definition is_u32 (x : Z) : Prop := 0 <= x < 2 ^ 32.

#[global] Instance is_u32_dec x : Decision (is_u32 x).
Proof. unfold is_u32. apply _. Defined.

(** [zdm] closes linear goals with [/] and [mod] by constants. *)
Ltac zdm := Z.div_mod_to_equations; lia.

Lemma u8_range x : 0 <= u8 x < 256.
Proof. unfold u8. zdm. Qed.
Lemma u16_range x : 0 <= u16 x < 65536.
Proof. unfold u16. zdm. Qed.
Lemma u32_range x : is_u32 (u32 x).
Proof. unfold is_u32, u32. zdm. Qed.
Lemma i32_range x : - 2 ^ 31 <= i32 x < 2 ^ 31.
Proof. unfold i32. zdm. Qed.

Lemma u8_small x : 0 <= x < 256 -> u8 x = x.
Proof. intros. apply Z.mod_small. lia. Qed.
Lemma u16_small x : 0 <= x < 65536 -> u16 x = x.
Proof. intros. apply Z.mod_small. lia. Qed.
Lemma u32_small x : 0 <= x < 2 ^ 32 -> u32 x = x.
Proof. intros. apply Z.mod_small. lia. Qed.
Lemma i32_small x : - 2 ^ 31 <= x < 2 ^ 31 -> i32 x = x.
Proof. intros. unfold i32. rewrite Z.mod_small; lia. Qed.
Lemma u32_i32 x : u32 (i32 x) = u32 x.
Proof. unfold u32, i32. zdm. Qed.
Lemma u32_idemp x : u32 (u32 x) = u32 x.
Proof. unfold u32. apply Z.mod_mod. lia. Qed.

Create HintDb dbos.
#[export] Hint Resolve u32_range u8_range u16_range i32_range : dbos.
Create Rewrite HintDb wraps.
#[export] Hint Rewrite u8_small u16_small u32_small i32_small using (cbn; lia) : wraps.

(** [unwrap] removes the wrap functions that provably do nothing. *)
Ltac unwrap := autorewrite with wraps.
Ltac unwrap_all := autorewrite with wraps in *.

(** * Bit fields

    [bf_get lo w x] reads the [w]-bit field of [x] at bit [lo];
    [bf_set lo w x v] is the C assignment to it (only the low [w] bits of [v]
    are stored). *)

Definition bf_get (lo w x : Z) : Z := Z.land (Z.shiftr x lo) (Z.ones w).
Definition bf_set (lo w x v : Z) : Z :=
  Z.lor (Z.land x (Z.lnot (Z.shiftl (Z.ones w) lo)))
        (Z.shiftl (Z.land v (Z.ones w)) lo).

(** A field put below bits shifted out of its way is a sum. *)
Lemma lor_add a b n : 0 <= n -> 0 <= b < 2 ^ n -> Z.lor (Z.shiftl a n) b = a * 2 ^ n + b.
Proof.
  intros Hn Hb. rewrite <- Z.shiftl_mul_pow2 by done. symmetry. apply Z.add_nocarry_lor, Z.bits_inj'. intros k Hk.
  rewrite Z.land_spec, Z.bits_0, Z.shiftl_spec by done.
  destruct (decide (k < n)); [by rewrite Z.testbit_neg_r by lia|].
  rewrite <- (Z.mod_small b (2 ^ n)) by done. rewrite Z.mod_pow2_bits_high by lia. apply andb_false_r.
Qed.

Lemma bf_get_alt lo w x : 0 <= lo -> 0 <= w -> bf_get lo w x = (x / 2 ^ lo) mod 2 ^ w.
Proof. intros. unfold bf_get. by rewrite Z.land_ones, Z.shiftr_div_pow2. Qed.

Lemma bf_get_range lo w x : 0 <= lo -> 0 <= w -> 0 <= bf_get lo w x < 2 ^ w.
Proof. intros. rewrite bf_get_alt by done. apply Z.mod_pos_bound. lia. Qed.

Lemma bf_set_testbit lo w x v i :
  0 <= lo -> 0 <= w -> 0 <= i ->
  Z.testbit (bf_set lo w x v) i =
  if decide (lo <= i < lo + w) then Z.testbit v (i - lo) else Z.testbit x i.
Proof.
  intros Hlo Hw Hi. unfold bf_set.
  rewrite Z.lor_spec, Z.land_spec, Z.lnot_spec, !Z.shiftl_spec by done.
  case_decide as Hin.
  - rewrite Z.land_spec, !Z.ones_spec_low by lia.
    by rewrite andb_false_r, andb_true_r.
  - destruct (decide (i < lo)) as [Hlt | Hge].
    + rewrite !(Z.testbit_neg_r _ (i - lo)) by lia.
      cbn. by rewrite andb_true_r, orb_false_r.
    + rewrite Z.land_spec, !Z.ones_spec_high by lia.
      by rewrite andb_true_r, andb_false_r, orb_false_r.
Qed.

Lemma bf_get_testbit lo w x i :
  0 <= lo -> 0 <= w -> 0 <= i ->
  Z.testbit (bf_get lo w x) i = (i <? w) && Z.testbit x (i + lo).
Proof.
  intros. unfold bf_get. rewrite Z.land_spec, Z.shiftr_spec by done.
  destruct (Z.ltb_spec i w).
  - rewrite Z.ones_spec_low by lia. by rewrite andb_true_r.
  - rewrite Z.ones_spec_high by lia. by rewrite andb_false_r.
Qed.

Lemma bf_get_set_same lo w x v :
  0 <= lo -> 0 <= w -> bf_get lo w (bf_set lo w x v) = v mod 2 ^ w.
Proof.
  intros. rewrite <- Z.land_ones by done. apply Z.bits_inj'. intros i Hi.
  rewrite bf_get_testbit, bf_set_testbit, Z.land_spec by lia.
  destruct (Z.ltb_spec i w).
  - rewrite decide_True by lia. rewrite Z.ones_spec_low, andb_true_r by lia.
    cbn. f_equal. lia.
  - by rewrite Z.ones_spec_high, andb_false_r by lia.
Qed.

Lemma bf_get_set_other lo w lo' w' x v :
  0 <= lo -> 0 <= w -> 0 <= lo' -> 0 <= w' ->
  lo + w <= lo' \/ lo' + w' <= lo ->
  bf_get lo w (bf_set lo' w' x v) = bf_get lo w x.
Proof.
  intros. apply Z.bits_inj'. intros i Hi.
  rewrite !bf_get_testbit, bf_set_testbit by lia.
  destruct (Z.ltb_spec i w); [|done]. by rewrite decide_False by lia.
Qed.

Lemma bf_set_u32 lo w x v :
  0 <= lo -> 0 <= w -> lo + w <= 32 -> is_u32 x -> is_u32 (bf_set lo w x v).
Proof.
  unfold is_u32. intros Hlo Hw Hle Hx.
  enough (bf_set lo w x v = bf_set lo w x v mod 2 ^ 32) as ->
    by (apply Z.mod_pos_bound; lia).
  rewrite <- Z.land_ones by lia. apply Z.bits_inj'. intros i Hi.
  rewrite Z.land_spec, !bf_set_testbit by lia.
  destruct (decide (i < 32)) as [Hlt | Hge].
  - by rewrite Z.ones_spec_low, andb_true_r by lia.
  - rewrite Z.ones_spec_high, andb_false_r, decide_False by lia.
    rewrite <- (Z.mod_small x (2 ^ 32)) by lia.
    apply Z.mod_pow2_bits_high. lia.
Qed.

(** * Outcomes and commands

    [Fault] is an access the C code has no right to make (NULL, a freed or
    never allocated object, an index outside an array); [Hang] marks a loop
    whose bound was exhausted.  Both are excluded by [wp]. *)

Inductive outcome (A : Type) : Type :=
| Ret (a : A)
| Fault
| Hang.
Arguments Ret {A} a.
Arguments Fault {A}.
Arguments Hang {A}.

Definition cmd (S A : Type) : Type := S -> outcome (A * S).

Definition ret {S A} (a : A) : cmd S A := fun s => Ret (a, s).
Definition fault {S A} : cmd S A := fun _ => Fault.
Definition hang {S A} : cmd S A := fun _ => Hang.
Definition bind {S A B} (c : cmd S A) (k : A -> cmd S B) : cmd S B :=
  fun s => match c s with
           | Ret (a, s') => k a s'
           | Fault => Fault
           | Hang => Hang
           end.
Definition gets {S A} (f : S -> A) : cmd S A := fun s => Ret (f s, s).
Definition modify {S} (f : S -> S) : cmd S unit := fun s => Ret (tt, f s).
Definition of_option {S A} (o : option A) : cmd S A :=
  match o with Some a => ret a | None => fault end.

Declare Scope cmd_scope.
Delimit Scope cmd_scope with cmd.
Notation "x <- c ;; k" := (bind c (fun x => k))
  (at level 100, c at next level, right associativity) : cmd_scope.
Notation "c ;;; k" := (bind c (fun _ => k))
  (at level 100, right associativity) : cmd_scope.
Notation "'when' b 'do' c" := (if b then c else ret tt)
  (at level 99, b at level 98, c at level 99) : cmd_scope.
#[global] Open Scope cmd_scope.

(** Total correctness: [c] started in [s] returns, and [Q] holds of the result. *)
Definition wp {S A} (c : cmd S A) (Q : A -> S -> Prop) (s : S) : Prop :=
  match c s with Ret (a, s') => Q a s' | _ => False end.

Section wp_rules.
Context {S A B : Type}.
Implicit Types (c : cmd S A) (k : A -> cmd S B) (s : S).

Lemma wp_ret (a : A) (Q : A -> S -> Prop) s : Q a s -> wp (ret a) Q s.
Proof. done. Qed.

Lemma wp_bind c k Q s : wp c (fun a s' => wp (k a) Q s') s -> wp (bind c k) Q s.
Proof. unfold wp, bind. by destruct (c s) as [[a s'] | |]. Qed.

Lemma wp_mono c (Q Q' : A -> S -> Prop) s :
  wp c Q s -> (forall a s', Q a s' -> Q' a s') -> wp c Q' s.
Proof. unfold wp. destruct (c s) as [[a s'] | |]; eauto. Qed.

Lemma wp_gets (f : S -> A) (Q : A -> S -> Prop) s : Q (f s) s -> wp (gets f) Q s.
Proof. done. Qed.

Lemma wp_modify (f : S -> S) (Q : unit -> S -> Prop) s : Q tt (f s) -> wp (modify f) Q s.
Proof. done. Qed.

Lemma wp_Ret c (Q : A -> S -> Prop) s a s' : c s = Ret (a, s') -> Q a s' -> wp c Q s.
Proof. unfold wp. by intros ->. Qed.

Lemma wp_inv c (Q : A -> S -> Prop) s :
  wp c Q s -> exists a s', c s = Ret (a, s') /\ Q a s'.
Proof. unfold wp. destruct (c s) as [[a s'] | |]; [eauto | done | done]. Qed.
End wp_rules.

Lemma wp_bind_inv {S A B} (c : cmd S A) (k : A -> cmd S B) (Q : B -> S -> Prop) s :
  wp (bind c k) Q s -> wp c (fun a s' => wp (k a) Q s') s.
Proof. unfold wp, bind. by destruct (c s) as [[a s'] | |]. Qed.

(** Two commands in a row whose result a third ignores or uses. *)
Lemma wp_bind_then {S A B C} (c1 : cmd S A) (c2 : A -> cmd S B) (k : B -> cmd S C) (Q : C -> S -> Prop) s :
  wp (a <- c1 ;; c2 a) (fun b s' => wp (k b) Q s') s -> wp (a <- c1 ;; b <- c2 a ;; k b) Q s.
Proof.
  unfold wp, bind. destruct (c1 s) as [[a s1]| |]; [|done|done]. by destruct (c2 a s1) as [[b s2]| |].
Qed.

(** Three statements in a row. *)
Lemma wp_three {S A} (c1 c2 c3 : cmd S unit) (k : cmd S A) (Q : A -> S -> Prop) s :
  wp (c1 ;;; c2 ;;; c3) (fun _ s' => wp k Q s') s -> wp (c1 ;;; c2 ;;; c3 ;;; k) Q s.
Proof.
  unfold wp, bind. destruct (c1 s) as [[[] s1]| |]; [|done|done].
  destruct (c2 s1) as [[[] s2]| |]; [|done|done]. by destruct (c3 s2) as [[[] s3]| |].
Qed.

(** Three commands in a row, the last of which sees the results of both. *)
Lemma wp_assoc3 {S A B C E} (c1 : cmd S A) (c2 : A -> cmd S B) (c3 : A -> B -> cmd S C)
    (k : A -> B -> C -> cmd S E) (Q : E -> S -> Prop) s :
  wp (a <- c1 ;; b <- c2 a ;; c <- c3 a b ;; ret (a, b, c)) (fun r s' => wp (k r.1.1 r.1.2 r.2) Q s') s ->
  wp (a <- c1 ;; b <- c2 a ;; c <- c3 a b ;; k a b c) Q s.
Proof.
  unfold wp, bind, ret. destruct (c1 s) as [[a s1]| |]; [|done|done].
  destruct (c2 a s1) as [[b s2]| |]; [|done|done]. by destruct (c3 a b s2) as [[c s3]| |].
Qed.

(** Counted loops: [for_ n i body] runs [body i], ..., [body (i + n - 1)]. *)
Fixpoint for_ {S} (n : nat) (i : Z) (body : Z -> cmd S unit) : cmd S unit :=
  match n with
  | O => ret tt
  | Datatypes.S n' => body i ;;; for_ n' (i + 1) body
  end.

Lemma wp_for {S} (I : Z -> S -> Prop) body n i (s : S) :
  I i s ->
  (forall j t, i <= j < i + Z.of_nat n -> I j t -> wp (body j) (fun _ => I (j + 1)) t) ->
  wp (for_ n i body) (fun _ => I (i + Z.of_nat n)) s.
Proof.
  revert i s. induction n as [|n IH]; intros i s HI Hb; cbn [for_].
  - apply wp_ret. by rewrite Z.add_0_r.
  - apply wp_bind. eapply wp_mono.
    { apply Hb; [lia | done]. }
    intros [] t HIt.
    replace (i + Z.of_nat (Datatypes.S n)) with ((i + 1) + Z.of_nat n) by lia.
    apply IH; [done|]. intros j u Hj. apply Hb. lia.
Qed.

(** From every state that satisfies [I], [c] returns, and into such a state: no
    loop in it runs for ever and no access in it faults. *)
Definition runs {S A} (I : S -> Prop) (c : cmd S A) : Prop := forall s, I s -> wp c (fun _ s' => I s') s.

Section runs_rules.
Context {S A B : Type} (I : S -> Prop).
Lemma runs_ret (a : A) : runs I (ret a).
Proof. intros s Hs. by apply wp_ret. Qed.
Lemma runs_gets (f : S -> A) : runs I (gets f).
Proof. intros s Hs. by apply wp_gets. Qed.
Lemma runs_modify (f : S -> S) : (forall s, I s -> I (f s)) -> runs I (modify f).
Proof. intros Hf s Hs. by apply wp_modify, Hf. Qed.
Lemma runs_bind (c : cmd S A) (k : A -> cmd S B) : runs I c -> (forall a, runs I (k a)) -> runs I (bind c k).
Proof. intros Hc Hk s Hs. apply wp_bind. eapply wp_mono; [by apply Hc|]. intros a s'. apply Hk. Qed.
End runs_rules.

Create HintDb runs.
#[export] Hint Resolve runs_ret runs_gets : runs.

(** [runs_tac] follows the code; the database [runs] knows the calls. *)
Ltac runs_tac :=
  repeat first
    [ solve [eauto with runs]
    | match goal with |- runs _ (bind _ _) => apply runs_bind; [|intros ?] end
    | match goal with |- runs _ (modify _) => by apply runs_modify end
    | match goal with |- runs _ (match ?o with _ => _ end) => destruct o end ].

(** [case_bool] splits on the boolean tests of Z found in the goal. *)
Ltac case_zbool :=
  match goal with
  | |- context [Z.eqb ?a ?b] => destruct (Z.eqb_spec a b)
  | |- context [Z.ltb ?a ?b] => destruct (Z.ltb_spec a b)
  | |- context [Z.leb ?a ?b] => destruct (Z.leb_spec a b)
  end.
