(* ===== verification/Arrays.v ===== *)
(** C arrays of fixed length: an index outside the array is a [Fault]. *)
From stdpp Require Import base numbers gmap list.
From S2P Require Import Prelude.

Section arrays.
Context {T : Type}.
Implicit Types (a : list T) (i : Z) (x : T).

Definition arr_get a i : option T := if 0 <=? i then a !! Z.to_nat i else None.
Definition arr_set a i x : option (list T) :=
  if (0 <=? i) && (i <? Z.of_nat (length a)) then Some (<[Z.to_nat i := x]> a) else None.

Lemma arr_get_Some a i : 0 <= i < Z.of_nat (length a) -> exists x, arr_get a i = Some x.
Proof.
  intros Hi. unfold arr_get. rewrite (proj2 (Z.leb_le 0 i)) by lia.
  apply lookup_lt_is_Some. lia.
Qed.

Lemma arr_get_range a i x : arr_get a i = Some x -> 0 <= i < Z.of_nat (length a).
Proof.
  unfold arr_get. destruct (Z.leb_spec 0 i); [|done]. intros Hx%lookup_lt_Some. lia.
Qed.

Lemma arr_set_Some a i x :
  0 <= i < Z.of_nat (length a) -> arr_set a i x = Some (<[Z.to_nat i := x]> a).
Proof.
  intros Hi. unfold arr_set. by rewrite (proj2 (Z.leb_le 0 i)), (proj2 (Z.ltb_lt _ _)) by lia.
Qed.

Lemma arr_set_range a i x a' : arr_set a i x = Some a' -> 0 <= i < Z.of_nat (length a).
Proof.
  unfold arr_set. destruct (Z.leb_spec 0 i); [|done].
  destruct (Z.ltb_spec i (Z.of_nat (length a))); [lia|done].
Qed.

Lemma arr_set_length a i x a' : arr_set a i x = Some a' -> length a' = length a.
Proof.
  intros Hs. pose proof (arr_set_range _ _ _ _ Hs) as Hr. rewrite arr_set_Some in Hs by done.
  injection Hs as <-. apply length_insert.
Qed.

Lemma arr_get_set_eq a i x a' : arr_set a i x = Some a' -> arr_get a' i = Some x.
Proof.
  intros Hs. pose proof (arr_set_range _ _ _ _ Hs) as Hr. rewrite arr_set_Some in Hs by done.
  injection Hs as <-. unfold arr_get. rewrite (proj2 (Z.leb_le 0 i)) by lia.
  apply list_lookup_insert_eq. lia.
Qed.

Lemma arr_get_set_ne a i j x a' : arr_set a i x = Some a' -> i <> j -> arr_get a' j = arr_get a j.
Proof.
  intros Hs Hij. pose proof (arr_set_range _ _ _ _ Hs) as Hr. rewrite arr_set_Some in Hs by done.
  injection Hs as <-. unfold arr_get. destruct (Z.leb_spec 0 j); [|done].
  apply list_lookup_insert_ne. lia.
Qed.
End arrays.

(** An array whose [n] cells are given by [f]. *)
Definition array_is {T} (n : Z) (a : list T) (f : Z -> T) : Prop :=
  Z.of_nat (length a) = n /\ forall j, 0 <= j < n -> arr_get a j = Some (f j).

Lemma array_set {T} n (a : list T) f g i x :
  array_is n a f -> 0 <= i < n -> g i = x -> (forall j, j <> i -> g j = f j) ->
  exists a', arr_set a i x = Some a' /\ array_is n a' g.
Proof.
  intros [Hn Hf] Hi Hg Ho. pose proof (arr_set_Some a i x ltac:(lia)) as Hs. eexists; split; [done|].
  split; [by rewrite (arr_set_length _ _ _ _ Hs)|]. intros j Hj. destruct (decide (j = i)) as [->|Hne].
  - rewrite (arr_get_set_eq _ _ _ _ Hs). by rewrite Hg.
  - rewrite (arr_get_set_ne _ _ _ _ _ Hs) by done. by rewrite Hf, Ho.
Qed.

Lemma array_ext {T} n (a : list T) f g :
  array_is n a f -> (forall j, 0 <= j < n -> f j = g j) -> array_is n a g.
Proof. intros [Hn Hf] Hg. split; [done|]. intros j Hj. by rewrite Hf, Hg. Qed.

Lemma array_replicate {T} n (x : T) : 0 <= n -> array_is n (replicate (Z.to_nat n) x) (fun _ => x).
Proof.
  intros Hn. split; [by rewrite length_replicate, Z2Nat.id|]. intros j Hj. unfold arr_get.
  rewrite (proj2 (Z.leb_le 0 j)) by lia. apply lookup_replicate_2. lia.
Qed.
