(* ===== verification/Physmem.v ===== *)
(** The physical frame allocator, [kernel/memory/memory_phys.c].

    State: the globals of the file.  The reference-count array that
    [allocations] points to is the list [refc]; a [palloc_t *] into it is an
    index, and an index outside the list is a [Fault].  [free_list] is kept
    with its by-value copies exactly as the C code handles them. *)
From stdpp Require Import base numbers gmap list.
From S2P Require Import Prelude.

Definition PAGE_BYTE_LEN : Z := 4096.
Definition MEM_PHYS_FREE_MAX : Z := 256.
Definition KERN_VMA : Z := 0xC0000000.
Definition MG_SIZE : Z := 0x400 * 0x400.

(** [fpalloc_t]: [None] is the NULL [allocation] pointer. *)
Record fpalloc := Fpalloc { fp_allocation : option Z; fp_address : Z }.

(** The two fields of [multiboot_info_t] the allocator reads (in KiB). *)
Record mboot_mem := MbootMem { memory_lower : Z; memory_upper : Z }.

Record phys := Phys {
  total_usable_lower : Z;
  total_usable_lower_pages : Z;
  total_usable_upper : Z;
  total_usable_upper_pages : Z;
  total_usable_bytes : Z;
  total_usable_pages : Z;
  allocations_size : Z;
  allocations : Z;            (* the pointer value *)
  refc : list Z;              (* the [palloc_t] bytes it points to *)
  free_list : list fpalloc
}.

Definition set_refc (f : list Z -> list Z) (s : phys) : phys :=
  Phys s.(total_usable_lower) s.(total_usable_lower_pages) s.(total_usable_upper)
       s.(total_usable_upper_pages) s.(total_usable_bytes) s.(total_usable_pages)
       s.(allocations_size) s.(allocations) (f s.(refc)) s.(free_list).
Definition set_free_list (f : list fpalloc -> list fpalloc) (s : phys) : phys :=
  Phys s.(total_usable_lower) s.(total_usable_lower_pages) s.(total_usable_upper)
       s.(total_usable_upper_pages) s.(total_usable_bytes) s.(total_usable_pages)
       s.(allocations_size) s.(allocations) s.(refc) (f s.(free_list)).

(** ** Address arithmetic *)

Definition align_to (addr alignment : Z) : Z :=
  if addr mod alignment =? 0 then addr
  else if negb (addr =? 0) then u32 (alignment * (addr / alignment))
  else 0.

Definition align_page (addr : Z) : Z := align_to addr PAGE_BYTE_LEN.

Definition virtual_to_physical (addr : Z) : Z := u32 (u32 (addr - KERN_VMA) + MG_SIZE).
Definition physical_to_virtual (addr : Z) : Z := u32 (u32 (addr + KERN_VMA) - MG_SIZE).

(** [-1] when the address is in the hole between the two memory ranges. *)
Definition alloc_phys_addr_to_index (s : phys) (p_addr : Z) : Z :=
  if p_addr <? s.(total_usable_lower) then i32 (p_addr / 0x1000)
  else if 0x100000 <=? p_addr then
    i32 (i32 s.(total_usable_lower_pages) + i32 (u32 (p_addr - 0x100000) / 0x1000))
  else -1.

Definition alloc_phys_index_to_addr (s : phys) (index : Z) : Z :=
  if index <? i32 s.(total_usable_lower_pages) then u32 (index * 0x1000)
  else u32 (u32 (u32 (index - s.(total_usable_lower_pages)) * 0x1000) + 0x100000).

(** ** The [palloc_t] array *)

Definition palloc_read (i : Z) : cmd phys Z :=
  s <- gets refc ;; if 0 <=? i then of_option (s !! Z.to_nat i) else fault.
Definition palloc_write (i v : Z) : cmd phys unit :=
  palloc_read i ;;; modify (set_refc <[Z.to_nat i := u8 v]>).

Definition alloc_phys_get_alloc (p_addr : Z) : cmd phys (option Z) :=
  s <- gets id ;;
  let index := alloc_phys_addr_to_index s (align_page p_addr) in
  ret (if negb (index =? -1) then Some index else None).

Definition alloc_phys_increase_refcount (addr : Z) : cmd phys unit :=
  p <- alloc_phys_get_alloc addr ;;
  match p with
  | None => ret tt
  | Some i => rc <- palloc_read i ;; when 1 <=? rc do palloc_write i (rc + 1)
  end.

Definition alloc_phys_decrease_refcount (addr : Z) : cmd phys unit :=
  p <- alloc_phys_get_alloc addr ;;
  match p with
  | None => ret tt
  | Some i => rc <- palloc_read i ;; when 0 <? rc do palloc_write i (rc - 1)
  end.

Definition alloc_phys_get_refcount (addr : Z) : cmd phys Z :=
  p <- alloc_phys_get_alloc addr ;;
  match p with
  | None => ret (-1)
  | Some i => palloc_read i
  end.

Definition alloc_phys_addr (p_addr : Z) : cmd phys Z :=
  p <- alloc_phys_get_alloc p_addr ;;
  match p with
  | None => ret 0
  | Some i =>
      rc <- palloc_read i ;;
      if rc =? 0 then palloc_write i 1 ;;; ret (align_page p_addr) else ret 0
  end.

(** The loop of [alloc_phys_free] copies each [free_list] entry into the local
    [fp] and assigns to the copy, so the array is only read. *)
Fixpoint free_list_scan (entries : list fpalloc) (allocation : option Z) (addr : Z)
    : option fpalloc :=
  match entries with
  | [] => None
  | fp :: rest =>
      match fp.(fp_allocation) with
      | None => Some (Fpalloc allocation addr)
      | Some _ => free_list_scan rest allocation addr
      end
  end.

Definition alloc_phys_free (addr : Z) : cmd phys unit :=
  p <- alloc_phys_get_alloc addr ;;
  match p with
  | None => ret tt
  | Some i =>
      palloc_write i 0 ;;;
      fl <- gets free_list ;;
      let _fp := free_list_scan fl (Some i) addr in
      ret tt
  end.

(** The first loop of [alloc_phys_page], from entry [i] on. *)
Fixpoint free_list_take (n : nat) (i : Z) : cmd phys (option Z) :=
  match n with
  | O => ret None
  | S n' =>
      fl <- gets free_list ;;
      fp <- of_option (fl !! Z.to_nat i) ;;
      match fp.(fp_allocation) with
      | None => free_list_take n' (i + 1)
      | Some a =>
          palloc_write a 1 ;;;
          modify (set_free_list <[Z.to_nat i := Fpalloc None 0]>) ;;;
          ret (Some fp.(fp_address))
      end
  end.

(** Its second loop: the first frame whose reference count is zero. *)
Fixpoint first_free_frame (n : nat) (i : Z) : cmd phys Z :=
  match n with
  | O => ret 0
  | S n' =>
      rc <- palloc_read i ;;
      if rc =? 0 then
        palloc_write i 1 ;;; gets (fun s => alloc_phys_index_to_addr s i)
      else first_free_frame n' (i + 1)
  end.

Definition alloc_phys_page : cmd phys Z :=
  r <- free_list_take (Z.to_nat MEM_PHYS_FREE_MAX) 0 ;;
  match r with
  | Some addr => ret addr
  | None =>
      pages <- gets total_usable_pages ;;
      first_free_frame (Z.to_nat (i32 pages)) 0
  end.

Definition alloc_phys_set_allocations_address (addr : Z) : cmd phys unit :=
  modify (fun s =>
    Phys s.(total_usable_lower) s.(total_usable_lower_pages) s.(total_usable_upper)
         s.(total_usable_upper_pages) s.(total_usable_bytes) s.(total_usable_pages)
         s.(allocations_size) addr s.(refc) s.(free_list)).
Definition alloc_phys_get_allocations_address : cmd phys Z := gets allocations.
Definition alloc_phys_get_allocations_size : cmd phys Z := gets (fun s => i32 s.(allocations_size)).

(** [for(; addr < limit; addr += 0x1000) alloc_phys_addr(addr);] *)
Fixpoint alloc_range (fuel : nat) (addr limit : Z) : cmd phys unit :=
  if addr <? limit then
    match fuel with
    | O => hang
    | S fuel' => alloc_phys_addr addr ;;; alloc_range fuel' (u32 (addr + 0x1000)) limit
    end
  else ret tt.

(** The globals before [init_phys_memory] runs. *)
Definition phys_boot : phys :=
  Phys 0 0 0 0 0 0 0 0 [] (replicate (Z.to_nat MEM_PHYS_FREE_MAX) (Fpalloc None 0)).

Definition init_phys_memory (mboot : mboot_mem) (last_mod_end_addr : Z) : cmd phys unit :=
  let lower := u32 (mboot.(memory_lower) * 1024) in
  let upper := u32 (mboot.(memory_upper) * 1024) in
  let pages := u32 (upper / 4096 + lower / 4096) in
  let allocs := u32 (align_page last_mod_end_addr + 0x1000) in
  let size := u32 (pages * 1) in
  modify (fun s =>
    Phys lower (lower / 4096) upper (upper / 4096) (u32 (lower + upper)) pages
         size allocs (replicate (Z.to_nat size) 0) s.(free_list)) ;;;
  alloc_range (Z.to_nat (size / 0x1000 + 1)) allocs (u32 (allocs + size)).

(** * Well-formedness *)

(** The memory layout [init_phys_memory] computes, for a machine whose lower
    memory ends below 1 MiB and whose upper memory ends below 4 GiB. *)
Record phys_cfg (s : phys) : Prop := {
  cfg_lower : 0 <= s.(total_usable_lower) <= 0x100000;
  cfg_lower_pages : s.(total_usable_lower_pages) = s.(total_usable_lower) / 4096;
  cfg_upper : 0 <= s.(total_usable_upper) <= 2 ^ 32 - 0x100000;
  cfg_upper_pages : s.(total_usable_upper_pages) = s.(total_usable_upper) / 4096;
  cfg_pages : s.(total_usable_pages) =
              s.(total_usable_upper_pages) + s.(total_usable_lower_pages)
}.

Record phys_wf (s : phys) : Prop := {
  wf_cfg : phys_cfg s;
  wf_len : Z.of_nat (length s.(refc)) = s.(total_usable_pages);
  wf_counts : Forall (fun c => 0 <= c < 256) s.(refc);
  wf_free_len : length s.(free_list) = Z.to_nat MEM_PHYS_FREE_MAX;
  wf_free_null : Forall (fun fp => fp.(fp_allocation) = None) s.(free_list)
}.

Ltac cfg_facts H :=
  pose proof (cfg_lower _ H); pose proof (cfg_lower_pages _ H);
  pose proof (cfg_upper _ H); pose proof (cfg_upper_pages _ H);
  pose proof (cfg_pages _ H).

(** A page address the allocator keeps a count for: page-aligned and inside
    the page-rounded part of one of the two ranges. *)
Definition tracked (s : phys) (a : Z) : Prop :=
  a mod 4096 = 0 /\
  (0 <= a < s.(total_usable_lower_pages) * 4096 \/
   0x100000 <= a < 0x100000 + s.(total_usable_upper_pages) * 4096).

#[global] Instance tracked_dec s a : Decision (tracked s a).
Proof. unfold tracked. apply _. Defined.

(** ** Alignment *)

Lemma align_to_spec a k :
  0 <= a < 2 ^ 32 -> 0 < k -> align_to a k = k * (a / k).
Proof.
  intros Ha Hk. unfold align_to. pose proof (Z.div_mod a k ltac:(lia)).
  pose proof (Z.mod_pos_bound a k Hk).
  assert (0 <= a / k) by (apply Z.div_pos; lia).
  case_zbool; [nia|]. case_zbool; cbn.
  - subst. rewrite Zmod_0_l in *. lia.
  - rewrite u32_small; [done|nia].
Qed.

Lemma align_page_spec a : is_u32 a -> align_page a = 4096 * (a / 4096).
Proof. intros. unfold align_page, PAGE_BYTE_LEN. by apply align_to_spec. Qed.

Lemma align_page_u32 a : is_u32 a -> is_u32 (align_page a).
Proof. intros H. rewrite align_page_spec by done. unfold is_u32 in *. zdm. Qed.

Lemma align_page_aligned a : is_u32 a -> align_page a mod 4096 = 0.
Proof. intros H. rewrite align_page_spec by done. zdm. Qed.

Lemma align_page_id a : is_u32 a -> a mod 4096 = 0 -> align_page a = a.
Proof. intros H Hm. rewrite align_page_spec by done. zdm. Qed.

Lemma align_page_idemp a : is_u32 a -> align_page (align_page a) = align_page a.
Proof. intros H. apply align_page_id; auto using align_page_u32, align_page_aligned. Qed.

(** ** Index arithmetic *)

Lemma index_to_addr_spec s i :
  phys_cfg s -> 0 <= i < s.(total_usable_pages) ->
  alloc_phys_index_to_addr s i =
  if decide (i < s.(total_usable_lower_pages)) then i * 4096
  else (i - s.(total_usable_lower_pages)) * 4096 + 0x100000.
Proof.
  intros H Hi. cfg_facts H. unfold alloc_phys_index_to_addr.
  rewrite i32_small by zdm. case_zbool; case_decide; try lia.
  - apply u32_small. zdm.
  - rewrite (u32_small (i - _)) by zdm. rewrite (u32_small (_ * 0x1000)) by zdm.
    apply u32_small. zdm.
Qed.

Lemma addr_to_index_spec s a :
  phys_cfg s -> tracked s a ->
  alloc_phys_addr_to_index s a =
  if decide (a < 0x100000) then a / 4096
  else s.(total_usable_lower_pages) + (a - 0x100000) / 4096.
Proof.
  intros H [Hm Ha]. cfg_facts H. unfold alloc_phys_addr_to_index.
  destruct Ha as [Ha | Ha].
  - assert (a < total_usable_lower s) by zdm.
    rewrite (proj2 (Z.ltb_lt _ _)) by done. rewrite decide_True by lia.
    apply i32_small. zdm.
  - rewrite (proj2 (Z.ltb_ge _ _)) by lia. rewrite (proj2 (Z.leb_le _ _)) by lia.
    rewrite decide_False by lia. rewrite u32_small by zdm.
    rewrite (i32_small (total_usable_lower_pages s)) by zdm.
    rewrite (i32_small (_ / _)) by zdm. apply i32_small. zdm.
Qed.

Lemma index_to_addr_tracked s i :
  phys_cfg s -> 0 <= i < s.(total_usable_pages) -> tracked s (alloc_phys_index_to_addr s i).
Proof.
  intros H Hi. rewrite index_to_addr_spec by done. cfg_facts H.
  unfold tracked. case_decide; zdm.
Qed.

Lemma tracked_u32 s a : phys_cfg s -> tracked s a -> is_u32 a.
Proof. intros H [Hm Ha]. cfg_facts H. unfold is_u32. zdm. Qed.

Lemma addr_to_index_range s a :
  phys_cfg s -> tracked s a ->
  0 <= alloc_phys_addr_to_index s a < s.(total_usable_pages).
Proof.
  intros H Ht. rewrite addr_to_index_spec by done. destruct Ht. cfg_facts H.
  case_decide; zdm.
Qed.

Lemma addr_index_addr s a :
  phys_cfg s -> tracked s a ->
  alloc_phys_index_to_addr s (alloc_phys_addr_to_index s a) = a.
Proof.
  intros H Ht. pose proof (addr_to_index_range s a H Ht).
  rewrite index_to_addr_spec by done. rewrite addr_to_index_spec by done.
  destruct Ht. cfg_facts H. repeat case_decide; zdm.
Qed.

Lemma index_addr_index s i :
  phys_cfg s -> 0 <= i < s.(total_usable_pages) ->
  alloc_phys_addr_to_index s (alloc_phys_index_to_addr s i) = i.
Proof.
  intros H Hi. rewrite addr_to_index_spec by auto using index_to_addr_tracked.
  rewrite index_to_addr_spec by done. cfg_facts H. repeat case_decide; zdm.
Qed.

(** ** Reference counts *)

(** The count kept for the frame that contains [a] ([-1] in the hole). *)
Definition rc_of (s : phys) (a : Z) : Z :=
  let i := alloc_phys_addr_to_index s (align_page a) in
  if i =? -1 then -1 else s.(refc) !!! Z.to_nat i.

(** The state with the count of [a]'s frame set to [v]. *)
Definition rc_set (a v : Z) (s : phys) : phys :=
  set_refc <[Z.to_nat (alloc_phys_addr_to_index s (align_page a)) := u8 v]> s.

Lemma palloc_read_spec s i :
  0 <= i < Z.of_nat (length s.(refc)) ->
  palloc_read i s = Ret (s.(refc) !!! Z.to_nat i, s).
Proof.
  intros Hi. unfold palloc_read, bind, gets.
  rewrite (proj2 (Z.leb_le 0 i)) by lia.
  rewrite list_lookup_lookup_total_lt by lia. done.
Qed.

Lemma palloc_write_spec s i v :
  0 <= i < Z.of_nat (length s.(refc)) ->
  palloc_write i v s = Ret (tt, set_refc <[Z.to_nat i := u8 v]> s).
Proof. intros Hi. unfold palloc_write, bind. by rewrite palloc_read_spec. Qed.

(** [with_frame] opens an operation on a tracked address: its frame index is
    in range and not the [-1] of the hole. *)
Lemma get_alloc_spec s a :
  phys_wf s -> is_u32 a -> tracked s (align_page a) ->
  let i := alloc_phys_addr_to_index s (align_page a) in
  alloc_phys_get_alloc a s = Ret (Some i, s) /\
  0 <= i < Z.of_nat (length s.(refc)) /\ rc_of s a = s.(refc) !!! Z.to_nat i.
Proof.
  intros Hwf Ha Ht i. pose proof (wf_cfg _ Hwf) as Hc.
  pose proof (addr_to_index_range s _ Hc Ht) as Hr. fold i in Hr.
  split; [|split].
  - unfold alloc_phys_get_alloc, bind, gets, ret, id. fold i.
    by destruct (Z.eqb_spec i (-1)); [lia|].
  - rewrite (wf_len _ Hwf). lia.
  - unfold rc_of. fold i. by destruct (Z.eqb_spec i (-1)); [lia|].
Qed.

Ltac with_frame :=
  match goal with
  | Hwf : phys_wf ?s, Ha : is_u32 ?a, Ht : tracked ?s (align_page ?a) |- _ =>
      let Hg := fresh "Hg" in let Hi := fresh "Hi" in let Hrc := fresh "Hrc" in
      destruct (get_alloc_spec s a Hwf Ha Ht) as (Hg & Hi & Hrc);
      unfold rc_set, bind, ret; rewrite Hg;
      rewrite ?(palloc_read_spec s) by done; rewrite <- ?Hrc
  end.

Lemma get_refcount_spec s a :
  phys_wf s -> is_u32 a -> tracked s (align_page a) ->
  alloc_phys_get_refcount a s = Ret (rc_of s a, s).
Proof. intros. unfold alloc_phys_get_refcount. by with_frame. Qed.

Lemma increase_refcount_spec s a :
  phys_wf s -> is_u32 a -> tracked s (align_page a) ->
  alloc_phys_increase_refcount a s =
  Ret (tt, if decide (1 <= rc_of s a) then rc_set a (rc_of s a + 1) s else s).
Proof.
  intros. unfold alloc_phys_increase_refcount. with_frame.
  case_zbool; case_decide; try lia; [|done]. by rewrite palloc_write_spec.
Qed.

Lemma decrease_refcount_spec s a :
  phys_wf s -> is_u32 a -> tracked s (align_page a) ->
  alloc_phys_decrease_refcount a s =
  Ret (tt, if decide (0 < rc_of s a) then rc_set a (rc_of s a - 1) s else s).
Proof.
  intros. unfold alloc_phys_decrease_refcount. with_frame.
  case_zbool; case_decide; try lia; [|done]. by rewrite palloc_write_spec.
Qed.

Lemma alloc_addr_spec s a :
  phys_wf s -> is_u32 a -> tracked s (align_page a) ->
  alloc_phys_addr a s =
  if decide (rc_of s a = 0) then Ret (align_page a, rc_set a 1 s) else Ret (0, s).
Proof.
  intros. unfold alloc_phys_addr. with_frame.
  case_zbool; case_decide; try lia; [|done]. by rewrite palloc_write_spec.
Qed.

Lemma free_spec s a :
  phys_wf s -> is_u32 a -> tracked s (align_page a) ->
  alloc_phys_free a s = Ret (tt, rc_set a 0 s).
Proof. intros. unfold alloc_phys_free. with_frame. by rewrite palloc_write_spec. Qed.

(** Updating one count: lengths, configuration and every other frame stay. *)

Lemma set_refc_cfg f s : phys_cfg s -> phys_cfg (set_refc f s).
Proof. intros []. by constructor. Qed.

Lemma rc_set_wf a v s : phys_wf s -> phys_wf (rc_set a v s).
Proof.
  intros H. unfold rc_set. split; cbn.
  - apply set_refc_cfg, H.
  - rewrite length_insert. apply H.
  - apply Forall_insert; [apply H|apply u8_range].
  - apply H.
  - apply H.
Qed.

Lemma rc_set_same a v s :
  phys_wf s -> is_u32 a -> tracked s (align_page a) -> rc_of (rc_set a v s) a = u8 v.
Proof.
  intros Hwf Ha Ht. destruct (get_alloc_spec s a Hwf Ha Ht) as (_ & Hi & _).
  unfold rc_of, rc_set.
  change (alloc_phys_addr_to_index (set_refc ?f s)) with (alloc_phys_addr_to_index s).
  destruct (Z.eqb_spec (alloc_phys_addr_to_index s (align_page a)) (-1)); [lia|].
  cbn. apply list_lookup_total_insert_eq. lia.
Qed.

Lemma rc_set_other a b v s :
  phys_wf s -> is_u32 a -> is_u32 b ->
  tracked s (align_page a) -> tracked s (align_page b) ->
  align_page a <> align_page b -> rc_of (rc_set a v s) b = rc_of s b.
Proof.
  intros Hwf Ha Hb Hta Htb Hne. pose proof (wf_cfg _ Hwf) as Hc.
  unfold rc_of, rc_set.
  change (alloc_phys_addr_to_index (set_refc ?f s)) with (alloc_phys_addr_to_index s).
  case_zbool; [done|]. cbn. apply list_lookup_total_insert_ne.
  pose proof (addr_to_index_range s _ Hc Hta). pose proof (addr_to_index_range s _ Hc Htb).
  intros Heq. apply Hne. rewrite <- (addr_index_addr s _ Hc Hta), <- (addr_index_addr s _ Hc Htb).
  f_equal. lia.
Qed.

(** ** [alloc_phys_page] *)

Lemma free_list_take_null s n i :
  Forall (fun fp => fp.(fp_allocation) = None) s.(free_list) ->
  0 <= i -> (Z.to_nat i + n <= length s.(free_list))%nat ->
  free_list_take n i s = Ret (None, s).
Proof.
  intros HF. revert i. induction n as [|n IH]; intros i Hi Hlen; cbn; [done|].
  destruct (lookup_lt_is_Some_2 s.(free_list) (Z.to_nat i)) as [fp Hfp]; [lia|].
  unfold bind, gets. rewrite Hfp. cbn.
  rewrite (Forall_lookup_1 _ _ _ _ HF Hfp). apply IH; lia.
Qed.

Lemma first_free_frame_spec s n k :
  (k + n = length s.(refc))%nat ->
  first_free_frame n (Z.of_nat k) s =
  match list_find (fun c => c = 0) (drop k s.(refc)) with
  | Some (j, _) =>
      Ret (alloc_phys_index_to_addr s (Z.of_nat (k + j)), set_refc <[(k + j)%nat := 1]> s)
  | None => Ret (0, s)
  end.
Proof.
  revert k. induction n as [|n IH]; intros k Hk; cbn [first_free_frame].
  - rewrite drop_ge by lia. done.
  - destruct (lookup_lt_is_Some_2 s.(refc) k) as [c Hc]; [lia|].
    rewrite (drop_S _ c) by done. cbn [list_find].
    unfold bind. rewrite palloc_read_spec by lia. rewrite Nat2Z.id.
    rewrite (list_lookup_total_correct _ _ _ Hc).
    case_zbool; case_decide; try lia.
    + subst. rewrite palloc_write_spec by lia. cbn.
      rewrite Nat2Z.id, Nat.add_0_r. done.
    + replace (Z.of_nat k + 1) with (Z.of_nat (S k)) by lia.
      rewrite IH by lia.
      destruct (list_find _ (drop (S k) (refc s))) as [[j ?]|]; [|done].
      unfold fmap, option_fmap, option_map, prod_map. cbn [fst snd].
      by replace (S k + j)%nat with (k + S j)%nat by lia.
Qed.

Lemma alloc_page_find s :
  phys_wf s ->
  alloc_phys_page s =
  match list_find (fun c => c = 0) s.(refc) with
  | Some (j, _) =>
      Ret (alloc_phys_index_to_addr s (Z.of_nat j), set_refc <[j := 1]> s)
  | None => Ret (0, s)
  end.
Proof.
  intros Hwf. unfold alloc_phys_page, bind.
  rewrite free_list_take_null; [|apply Hwf|lia|rewrite (wf_free_len _ Hwf); lia].
  cbn. pose proof (wf_cfg _ Hwf) as Hc. cfg_facts Hc.
  rewrite i32_small by zdm. rewrite <- (wf_len _ Hwf), Nat2Z.id.
  apply (first_free_frame_spec s _ 0). lia.
Qed.

Lemma alloc_page_cases s :
  phys_wf s ->
  (Forall (fun c => c <> 0) s.(refc) /\ alloc_phys_page s = Ret (0, s)) \/
  (exists a, tracked s a /\ rc_of s a = 0 /\
     (forall b, tracked s b -> rc_of s b = 0 ->
        alloc_phys_addr_to_index s a <= alloc_phys_addr_to_index s b) /\
     alloc_phys_page s = Ret (a, rc_set a 1 s)).
Proof.
  intros Hwf. pose proof (wf_cfg _ Hwf) as Hc. rewrite alloc_page_find by done.
  destruct (list_find _ _) as [[j c]|] eqn:Hf.
  - right. apply list_find_Some in Hf as (Hj & -> & Hmin).
    pose proof (lookup_lt_Some _ _ _ Hj) as Hlt. pose proof (wf_len _ Hwf) as Hl.
    set (a := alloc_phys_index_to_addr s (Z.of_nat j)).
    assert (Ht : tracked s a) by (apply index_to_addr_tracked; [done|lia]).
    assert (Ha : is_u32 a) by eauto using tracked_u32.
    assert (Hal : align_page a = a) by (apply align_page_id; [done|apply Ht]).
    assert (Hix : alloc_phys_addr_to_index s a = Z.of_nat j)
      by (apply index_addr_index; [done|lia]).
    exists a. split_and!.
    + done.
    + unfold rc_of. rewrite Hal, Hix. case_zbool; [lia|].
      rewrite Nat2Z.id. by apply list_lookup_total_correct.
    + intros b Hb. pose proof (addr_to_index_range s b Hc Hb).
      unfold rc_of. rewrite align_page_id; [|eauto using tracked_u32|apply Hb].
      rewrite Hix. case_zbool; [lia|]. intros Hz.
      destruct (decide (alloc_phys_addr_to_index s b < Z.of_nat j)); [|lia].
      destruct (Hmin (Z.to_nat (alloc_phys_addr_to_index s b)) 0); [|lia|done].
      rewrite <- Hz. apply list_lookup_lookup_total_lt. lia.
    + unfold rc_set. rewrite Hal, Hix, Nat2Z.id. done.
  - left. apply list_find_None in Hf. done.
Qed.

(** ** Runs of the allocator

    [pop] names the operations the rest of the kernel calls; [run_op] runs one
    and returns its result (0 for the [void] ones). *)

Inductive pop := OInc (a : Z) | ODec (a : Z) | OFree (a : Z) | OAddr (a : Z) | OPage.

Definition run_op (o : pop) : cmd phys Z :=
  match o with
  | OInc a => alloc_phys_increase_refcount a ;;; ret 0
  | ODec a => alloc_phys_decrease_refcount a ;;; ret 0
  | OFree a => alloc_phys_free a ;;; ret 0
  | OAddr a => alloc_phys_addr a
  | OPage => alloc_phys_page
  end.

Fixpoint run_ops (os : list pop) : cmd phys (list Z) :=
  match os with
  | [] => ret []
  | o :: os' => r <- run_op o ;; rs <- run_ops os' ;; ret (r :: rs)
  end.

Definition op_addr (o : pop) : option Z :=
  match o with OInc a | ODec a | OFree a | OAddr a => Some a | OPage => None end.

(** Operations are applied to addresses of frames the allocator tracks. *)
Definition op_ok (s : phys) (o : pop) : Prop :=
  match op_addr o with Some a => is_u32 a /\ tracked s (align_page a) | None => True end.

(** Same machine: the two states differ in counts only. *)
Definition same_machine (s s' : phys) : Prop := exists f, s' = set_refc f s.

Lemma same_machine_refl s : same_machine s s.
Proof. exists id. by destruct s. Qed.
Lemma same_machine_trans s1 s2 s3 :
  same_machine s1 s2 -> same_machine s2 s3 -> same_machine s1 s3.
Proof. intros [f ->] [g ->]. by exists (fun l => g (f l)). Qed.
Lemma same_machine_tracked s s' a : same_machine s s' -> tracked s' a <-> tracked s a.
Proof. by intros [f ->]. Qed.
Lemma same_machine_set a v s : same_machine s (rc_set a v s).
Proof. by eexists. Qed.
Lemma same_machine_ok s s' o : same_machine s s' -> op_ok s o -> op_ok s' o.
Proof. by intros [f ->]. Qed.
#[export] Hint Resolve same_machine_refl same_machine_set rc_set_wf : dbos.

(** The frame [a] refers to is in use and stays so under [o]. *)
Definition keeps (a : Z) (o : pop) : Prop :=
  match o with
  | ODec b | OFree b => align_page b <> align_page a
  | _ => True
  end.
Definition incs (a : Z) (o : pop) : Z :=
  match o with OInc b => if decide (align_page b = align_page a) then 1 else 0 | _ => 0 end.

Lemma run_op_spec s o :
  phys_wf s -> op_ok s o ->
  wp (run_op o) (fun r s' => phys_wf s' /\ same_machine s s') s.
Proof.
  intros Hwf Hok.
  destruct o as [a | a | a | a |]; cbn in Hok; try match type of Hok with _ /\ _ => destruct Hok as [Ha Ht] end;
    unfold wp; cbn [run_op]; unfold bind.
  - rewrite increase_refcount_spec by done. cbn. case_decide; eauto with dbos.
  - rewrite decrease_refcount_spec by done. cbn. case_decide; eauto with dbos.
  - rewrite free_spec by done. cbn. eauto with dbos.
  - rewrite alloc_addr_spec by done. case_decide; eauto with dbos.
  - destruct (alloc_page_cases s Hwf) as [[_ ->] | (a & _ & _ & _ & ->)]; eauto with dbos.
Qed.

(** One step never lowers the count of a frame it keeps, below wrap-around. *)
Lemma run_op_keeps s o a :
  phys_wf s -> op_ok s o -> keeps a o ->
  is_u32 a -> tracked s (align_page a) -> 1 <= rc_of s a -> rc_of s a + incs a o < 256 ->
  wp (run_op o) (fun r s' => 1 <= rc_of s' a <= rc_of s a + incs a o /\
                             (o = OPage -> r <> align_page a \/ r = 0 /\ s' = s)) s.
Proof.
  intros Hwf Hok Hk Ha Ht Hpos Hlt.
  assert (Hset : forall b v, is_u32 b -> tracked s (align_page b) ->
            rc_of (rc_set b v s) a = if decide (align_page b = align_page a) then u8 v else rc_of s a).
  { intros b v Hb Htb. case_decide as Heq.
    - replace (rc_of (rc_set b v s) a) with (rc_of (rc_set b v s) b)
        by (unfold rc_of; by rewrite Heq).
      by apply rc_set_same.
    - by apply rc_set_other. }
  destruct o as [b | b | b | b |]; cbn in Hok, Hk, Hlt |- *; try match type of Hok with _ /\ _ => destruct Hok as [Hb Htb] end;
    unfold wp; cbn [run_op]; unfold bind.
  - rewrite increase_refcount_spec by done. cbn. split; [|done].
    case_decide as Heq.
    + replace (rc_of s b) with (rc_of s a) by (unfold rc_of; by rewrite Heq).
      rewrite decide_True by lia. rewrite Hset, decide_True by done. rewrite u8_small; lia.
    + case_decide; [|lia]. rewrite Hset, decide_False by done. lia.
  - rewrite decrease_refcount_spec by done. cbn. split; [|done].
    case_decide; [|lia]. rewrite Hset, decide_False by done. lia.
  - rewrite free_spec by done. cbn. rewrite Hset, decide_False by done. split; [lia|done].
  - rewrite alloc_addr_spec by done. case_decide as Hz; cbn; split; try done; try lia.
    rewrite Hset by done. case_decide as Heq; [|lia].
    exfalso. replace (rc_of s b) with (rc_of s a) in Hz by (unfold rc_of; by rewrite Heq). lia.
  - destruct (alloc_page_cases s Hwf) as [[_ ->] | (b & Htb & Hz & _ & ->)]; cbn.
    { split; [lia|]. by right. }
    pose proof (tracked_u32 s b (wf_cfg _ Hwf) Htb) as Hb.
    assert (Hal : align_page b = b) by (apply align_page_id; [done|apply Htb]).
    assert (Hne : b <> align_page a).
    { intros ->. rewrite <- Hal in Hz. unfold rc_of in Hz, Hpos. rewrite !Hal in Hz. lia. }
    rewrite Hset, decide_False by (rewrite ?Hal; done). split; [lia|]. by left.
Qed.

Fixpoint incs_all (a : Z) (os : list pop) : Z :=
  match os with [] => 0 | o :: os' => incs a o + incs_all a os' end.

Lemma incs_nonneg a o : 0 <= incs a o.
Proof. destruct o; cbn; try case_decide; lia. Qed.
Lemma incs_all_nonneg a os : 0 <= incs_all a os.
Proof. induction os as [|o os IH]; cbn; [lia|]. pose proof (incs_nonneg a o). lia. Qed.

(** * Theorems *)

(** Frame indices and page addresses are in bijection: for every memory
    layout the boot loader can report (lower memory below 1 MiB), converting a
    tracked page address to its index and back gives the address, and
    converting an index to an address and back gives the index, with all the
    32-bit wrap-arounds of the C code in place. *)
Theorem phys_index_roundtrip s :
  phys_cfg s ->
  (forall a, tracked s a -> alloc_phys_index_to_addr s (alloc_phys_addr_to_index s a) = a) /\
  (forall i, 0 <= i < s.(total_usable_pages) ->
     alloc_phys_addr_to_index s (alloc_phys_index_to_addr s i) = i).
Proof. intros H. split; intros; [by apply addr_index_addr | by apply index_addr_index]. Qed.

(** [alloc_phys_page] always returns; it hands out the lowest-indexed frame
    whose reference count is 0, leaves it with count 1 and every other frame's
    count unchanged, and returns 0 without touching anything exactly when no
    frame is free. *)
Theorem alloc_phys_page_correct s :
  phys_wf s ->
  wp alloc_phys_page (fun r s' =>
    phys_wf s' /\
    ((Forall (fun c => c <> 0) s.(refc) /\ r = 0 /\ s' = s) \/
     (tracked s r /\ rc_of s r = 0 /\ rc_of s' r = 1 /\
      (forall b, tracked s b -> b <> r -> rc_of s' b = rc_of s b) /\
      (forall b, tracked s b -> rc_of s b = 0 ->
         alloc_phys_addr_to_index s r <= alloc_phys_addr_to_index s b)))) s.
Proof.
  intros Hwf. pose proof (wf_cfg _ Hwf) as Hc. unfold wp.
  destruct (alloc_page_cases s Hwf) as [[Hn ->] | (a & Ht & Hz & Hmin & ->)].
  { split; [done|]. by left. }
  assert (Hal : forall b, tracked s b -> is_u32 b /\ align_page b = b).
  { intros b Hb. pose proof (tracked_u32 _ _ Hc Hb). split; [done|].
    apply align_page_id; [done|apply Hb]. }
  destruct (Hal a Ht) as [Ha Ea]. split; [by apply rc_set_wf|]. right. split_and!; try done.
  - rewrite rc_set_same by (rewrite ?Ea; done). done.
  - intros b Hb Hne. destruct (Hal b Hb) as [Hbu Eb].
    apply rc_set_other; rewrite ?Ea, ?Eb; done.
Qed.

(** C31: the allocator's invariant (layout, array length, counts within a byte,
    256-entry free list with every entry still NULL) is preserved by every
    sequence of calls on tracked frames, and every such sequence returns.  In
    particular [free_list] never gets an entry: [alloc_phys_free] stores into a
    local copy of it. *)
Theorem phys_runs_wf s os :
  phys_wf s -> Forall (op_ok s) os ->
  wp (run_ops os) (fun rs s' => phys_wf s' /\ same_machine s s' /\ length rs = length os) s.
Proof.
  revert s. induction os as [|o os IH]; intros s Hwf Hok; cbn [run_ops].
  { apply wp_ret. eauto with dbos. }
  apply Forall_cons_1 in Hok as [Ho Hos]. apply wp_bind.
  eapply wp_mono; [by apply run_op_spec|]. intros r s1 [Hwf1 Hsm]. apply wp_bind.
  eapply wp_mono.
  { apply IH; [done|]. eapply Forall_impl; [exact Hos|]. eauto using same_machine_ok. }
  intros rs s2 (Hwf2 & Hsm2 & Hl). apply wp_ret. cbn. eauto using same_machine_trans.
Qed.

(** C27: a frame in use is never handed out again: from any well-formed state,
    in any sequence of calls on frames the allocator tracks (the whole pages of the
    two ranges of usable memory) that neither frees nor decrements frame [a] and
    increments it less than its 8-bit counter can hold, no [alloc_phys_page]
    returns [a], and [a] is still counted as used at the end.  Frame 0 is left out,
    since 0 is also the answer when no frame is free, and so are addresses of the
    last, partial page below 1 MiB, which are not tracked and share a counter with
    another frame ([partial_low_page_aliases]). *)
Theorem live_frame_not_reissued s a os :
  phys_wf s -> is_u32 a -> tracked s (align_page a) -> align_page a <> 0 ->
  1 <= rc_of s a -> Forall (op_ok s) os -> Forall (keeps a) os ->
  rc_of s a + incs_all a os < 256 ->
  wp (run_ops os) (fun rs s' =>
    1 <= rc_of s' a /\ forall i, os !! i = Some OPage -> rs !! i <> Some (align_page a)) s.
Proof.
  revert s. induction os as [|o os IH]; intros s Hwf Ha Ht Hnz Hpos Hok Hk Hlt; cbn [run_ops].
  { apply wp_ret. split; [lia|]. by intros i. }
  apply Forall_cons_1 in Hok as [Ho Hos]. apply Forall_cons_1 in Hk as [Hko Hkos].
  cbn in Hlt. pose proof (incs_all_nonneg a os).
  destruct (wp_inv _ _ _ (run_op_spec s o Hwf Ho)) as (r & s1 & Hrun & Hwf1 & Hsm).
  pose proof (run_op_keeps s o a Hwf Ho Hko Ha Ht Hpos ltac:(lia)) as Hkeep.
  unfold wp in Hkeep. rewrite Hrun in Hkeep. destruct Hkeep as [Hrc Hres].
  apply wp_bind. eapply wp_Ret; [exact Hrun|]. apply wp_bind. eapply wp_mono.
  { apply IH; try done; try lia.
    - by rewrite same_machine_tracked.
    - eapply Forall_impl; [exact Hos|]. eauto using same_machine_ok. }
  intros rs s2 [Hrc2 Hrs]. apply wp_ret. split; [done|].
  intros [|i]; cbn; [|apply Hrs]. intros [= ->].
  destruct (Hres eq_refl) as [? | [-> _]]; congruence.
Qed.

(** The 8-bit reference count wraps: one more reference to a frame that
    already has 255 sets its count to 0, so the next [alloc_phys_page] may hand
    the frame out although it is mapped 256 times. *)
Theorem refcount_wraps s a :
  phys_wf s -> is_u32 a -> tracked s (align_page a) -> rc_of s a = 255 ->
  wp (alloc_phys_increase_refcount a) (fun _ s' => phys_wf s' /\ rc_of s' a = 0) s.
Proof.
  intros Hwf Ha Ht Hrc. unfold wp. rewrite increase_refcount_spec by done.
  rewrite Hrc, decide_True by lia. split; [by apply rc_set_wf|]. by rewrite rc_set_same.
Qed.

(** When lower memory does not end on a page boundary, its last partial page
    shares the counter of the first page above 1 MiB, so the two frames cannot
    be told apart. *)
Theorem partial_low_page_aliases s :
  phys_cfg s -> s.(total_usable_lower) mod 4096 <> 0 -> s.(total_usable_lower) < 0x100000 ->
  let a := s.(total_usable_lower_pages) * 4096 in
  a < s.(total_usable_lower) /\ a <> 0x100000 /\
  alloc_phys_addr_to_index s a = alloc_phys_addr_to_index s 0x100000.
Proof.
  intros H Hm Hlt a. cfg_facts H.
  assert (a < s.(total_usable_lower)) by (unfold a; zdm).
  split_and!; [done|lia|]. unfold alloc_phys_addr_to_index.
  rewrite (proj2 (Z.ltb_lt _ _)) by done. rewrite (proj2 (Z.ltb_ge _ _)) by lia.
  rewrite (i32_small (a / _)) by (unfold a; zdm).
  rewrite (i32_small (total_usable_lower_pages s)) by zdm.
  change (i32 (u32 (0x100000 - 0x100000) / 0x1000)) with 0. cbn.
  rewrite i32_small by zdm. unfold a. zdm.
Qed.

(** ** Initialisation *)

Lemma alloc_range_spec fuel addr limit s :
  phys_wf s -> 0 <= addr -> addr mod 4096 = 0 -> limit <= 2 ^ 32 - 4096 ->
  (forall b, b mod 4096 = 0 -> addr <= b < limit -> tracked s b /\ rc_of s b = 0) ->
  limit - addr <= Z.of_nat fuel * 4096 ->
  wp (alloc_range fuel addr limit) (fun _ s' =>
    phys_wf s' /\ same_machine s s' /\
    forall b, tracked s b -> rc_of s' b = if decide (addr <= b < limit) then 1 else rc_of s b) s.
Proof.
  revert addr s. induction fuel as [|fuel IH];
    intros addr s Hwf H0 Hm Hlim Hz Hfuel; cbn [alloc_range].
  { case_zbool; [lia|]. apply wp_ret. split_and!; eauto with dbos.
    intros. by rewrite decide_False by lia. }
  case_zbool; [|apply wp_ret; split_and!; eauto with dbos;
    intros; by rewrite decide_False by lia].
  destruct (Hz addr Hm ltac:(lia)) as [Ht Hrc].
  pose proof (tracked_u32 s addr (wf_cfg _ Hwf) Ht) as Hu.
  assert (Hal : align_page addr = addr) by (by apply align_page_id).
  apply wp_bind. eapply wp_Ret.
  { rewrite alloc_addr_spec; rewrite ?Hal; try done. by rewrite decide_True. }
  assert (Hoth : forall b, tracked s b -> b <> addr -> rc_of (rc_set addr 1 s) b = rc_of s b).
  { intros b Hb Hne. assert (align_page b = b) as Eb.
    { apply align_page_id; [eauto using tracked_u32, wf_cfg|apply Hb]. }
    apply rc_set_other; rewrite ?Hal, ?Eb; eauto using tracked_u32, wf_cfg. }
  assert (u32 (addr + 0x1000) = addr + 0x1000) as -> by (apply u32_small; unfold is_u32 in Hu; lia).
  eapply wp_mono; [apply IH|]; try lia.
  - by apply rc_set_wf.
  - zdm.
  - intros b Hb Hr. destruct (Hz b Hb ltac:(lia)) as [Htb Hrb]. split; [done|].
    rewrite Hoth by (done || lia). done.
  - cbn. intros _ s' (Hwf' & Hsm & Hrcs). split_and!; [done| |].
    + eapply same_machine_trans; [apply same_machine_set|exact Hsm].
    + intros b Hb. rewrite Hrcs by done. destruct (decide (b = addr)) as [->|Hne].
      * rewrite decide_False by lia. rewrite decide_True by lia.
        rewrite rc_set_same; rewrite ?Hal; done.
      * rewrite Hoth by done. destruct Hb as [Hbm _]. repeat case_decide; zdm || done.
Qed.

(** The layout [init_phys_memory] computes from the boot loader's report. *)
Definition init_state (mboot : mboot_mem) (last_mod_end_addr : Z) (fl : list fpalloc) : phys :=
  let lower := mboot.(memory_lower) * 1024 in
  let upper := mboot.(memory_upper) * 1024 in
  let pages := upper / 4096 + lower / 4096 in
  Phys lower (lower / 4096) upper (upper / 4096) (u32 (lower + upper)) pages
       pages (align_page last_mod_end_addr + 0x1000) (replicate (Z.to_nat pages) 0) fl.

Lemma init_state_wf mb e fl :
  0 <= mb.(memory_lower) <= 1024 -> 0 <= mb.(memory_upper) <= 4193280 ->
  length fl = Z.to_nat MEM_PHYS_FREE_MAX ->
  Forall (fun fp => fp.(fp_allocation) = None) fl ->
  phys_wf (init_state mb e fl).
Proof.
  intros Hl Hu Hlen Hnull. split; cbn.
  - split; cbn; try done; lia.
  - rewrite length_replicate. zdm.
  - apply Forall_replicate. lia.
  - done.
  - done.
Qed.

Lemma rc_of_zero s a :
  phys_wf s -> Forall (fun c => c = 0) s.(refc) -> tracked s a -> rc_of s a = 0.
Proof.
  intros Hwf HF Ht. pose proof (tracked_u32 s a (wf_cfg _ Hwf) Ht) as Hu.
  assert (Ea : align_page a = a) by (apply align_page_id; [done|apply Ht]).
  destruct (get_alloc_spec s a) as (_ & Hi & ->); rewrite ?Ea; try done.
  rewrite Ea in Hi. rewrite Forall_forall in HF. apply HF.
  apply list_elem_of_lookup_total_2. lia.
Qed.

(** C32: [init_phys_memory] terminates and leaves a well-formed allocator in
    which exactly the frames that hold the reference-count array itself are
    marked used (once), for any machine with at most 1 MiB of lower memory,
    below 4 GiB in total, whose array fits in upper memory after the last boot
    module. *)
Theorem init_phys_memory_correct mb e :
  0 <= mb.(memory_lower) <= 1024 -> 0 <= mb.(memory_upper) <= 4193280 ->
  is_u32 e ->
  let arr := align_page e + 0x1000 in
  let size := mb.(memory_upper) * 1024 / 4096 + mb.(memory_lower) * 1024 / 4096 in
  0x100000 <= arr -> arr + size <= 0x100000 + mb.(memory_upper) * 1024 / 4096 * 4096 ->
  arr + size <= 2 ^ 32 - 4096 ->
  wp (init_phys_memory mb e) (fun _ s =>
    phys_wf s /\ s.(allocations) = arr /\ s.(allocations_size) = size /\
    forall a, tracked s a -> rc_of s a = if decide (arr <= a < arr + size) then 1 else 0) phys_boot.
Proof.
  intros Hl Hu He arr size Harr Hfit Hmax.
  assert (Hs : 0 <= size) by (unfold size; zdm).
  pose proof (align_page_aligned e He) as Hal.
  assert (Hwf : phys_wf (init_state mb e (free_list phys_boot))).
  { apply init_state_wf; [done|done|reflexivity|]. by apply Forall_replicate. }
  unfold init_phys_memory. apply wp_bind, wp_modify.
  rewrite !(u32_small (_ * 1024)) by lia.
  rewrite (u32_small (_ / _ + _)) by (fold size; zdm). fold size.
  rewrite Z.mul_1_r, (u32_small size), (u32_small (align_page e + 0x1000)) by (fold arr; lia).
  fold arr. rewrite (u32_small (arr + size)) by lia.
  change (wp (alloc_range (Z.to_nat (size / 0x1000 + 1)) arr (arr + size))
    (fun _ s => phys_wf s /\ allocations s = arr /\ allocations_size s = size /\
      forall a, tracked s a -> rc_of s a = if decide (arr <= a < arr + size) then 1 else 0)
    (init_state mb e (free_list phys_boot))).
  assert (Hz : Forall (fun c => c = 0) (refc (init_state mb e (free_list phys_boot))))
    by (apply Forall_replicate; done).
  eapply wp_mono; [apply alloc_range_spec|]; try done; try lia.
  - unfold arr. zdm.
  - intros b Hb Hr. assert (Ht : tracked (init_state mb e (free_list phys_boot)) b).
    { split; [done|]. right. cbn. lia. }
    split; [done|]. by apply rc_of_zero.
  - rewrite Z2Nat.id by zdm. zdm.
  - cbn. intros _ s (Hwf' & [f ->] & Hrc). split_and!; try done.
    intros a Ha. rewrite Hrc by done. case_decide; [done|]. by apply rc_of_zero.
Qed.

(** * Instances

    A PC with 640 KiB of lower and 4 MiB of upper memory, and the same machine
    as GRUB usually reports it (639 KiB). *)

Definition demo_phys : phys := init_state (MbootMem 640 4096) 0x150000 (free_list phys_boot).
Definition demo_phys_639 : phys := init_state (MbootMem 639 4096) 0x150000 (free_list phys_boot).

Lemma demo_phys_wf : phys_wf demo_phys.
Proof. apply init_state_wf; [cbn; lia..|reflexivity|]. by apply Forall_replicate. Qed.
Lemma demo_phys_639_cfg : phys_cfg demo_phys_639.
Proof. split; vm_compute; (done || split; done). Qed.
Lemma demo_tracked : tracked demo_phys 0x150000.
Proof. split; [reflexivity|]. right. vm_compute. done. Qed.
Lemma demo_u32 : is_u32 0x150000.
Proof. split; done. Qed.

Lemma phys_index_roundtrip_witness :
  alloc_phys_index_to_addr demo_phys (alloc_phys_addr_to_index demo_phys 0x150000) = 0x150000.
Proof. apply (phys_index_roundtrip demo_phys (wf_cfg _ demo_phys_wf)). apply demo_tracked. Defined.

Lemma alloc_phys_page_correct_witness :
  exists r s', alloc_phys_page demo_phys = Ret (r, s') /\ phys_wf s'.
Proof.
  destruct (wp_inv _ _ _ (alloc_phys_page_correct demo_phys demo_phys_wf))
    as (r & s' & E & Hwf & _).
  by exists r, s'.
Defined.

Lemma phys_runs_wf_witness :
  wp (run_ops [OPage; OAddr 0x150000; OInc 0x150000; OFree 0x150000; OPage])
     (fun rs s' => phys_wf s' /\ same_machine demo_phys s' /\ length rs = 5%nat) demo_phys.
Proof.
  apply (phys_runs_wf demo_phys [OPage; OAddr 0x150000; OInc 0x150000; OFree 0x150000; OPage]
           demo_phys_wf).
  repeat apply Forall_cons_2; try apply Forall_nil_2; try done; (split; [apply demo_u32|apply demo_tracked]).
Defined.

Definition demo_phys_used : phys := rc_set 0x150000 1 demo_phys.

Lemma live_frame_not_reissued_witness :
  wp (run_ops [OPage; OInc 0x150000; OPage])
     (fun rs s' => 1 <= rc_of s' 0x150000 /\
        forall i, [OPage; OInc 0x150000; OPage] !! i = Some OPage -> rs !! i <> Some (align_page 0x150000))
     demo_phys_used.
Proof.
  apply (live_frame_not_reissued demo_phys_used 0x150000).
  - apply rc_set_wf, demo_phys_wf.
  - apply demo_u32.
  - apply demo_tracked.
  - done.
  - vm_compute. done.
  - repeat apply Forall_cons_2; try apply Forall_nil_2; try done; (split; [apply demo_u32|apply demo_tracked]).
  - repeat apply Forall_cons_2; try apply Forall_nil_2; done.
  - vm_compute. done.
Defined.

Lemma refcount_wraps_witness :
  wp (alloc_phys_increase_refcount 0x150000)
     (fun _ s' => phys_wf s' /\ rc_of s' 0x150000 = 0) (rc_set 0x150000 255 demo_phys).
Proof.
  apply (refcount_wraps (rc_set 0x150000 255 demo_phys) 0x150000).
  - apply rc_set_wf, demo_phys_wf.
  - apply demo_u32.
  - apply demo_tracked.
  - vm_compute. reflexivity.
Defined.

Lemma partial_low_page_aliases_witness :
  alloc_phys_addr_to_index demo_phys_639 0x9F000 = alloc_phys_addr_to_index demo_phys_639 0x100000.
Proof. apply (partial_low_page_aliases demo_phys_639 demo_phys_639_cfg); [done|reflexivity]. Defined.

Lemma init_phys_memory_correct_witness :
  wp (init_phys_memory (MbootMem 640 4096) 0x150000) (fun _ s => phys_wf s) phys_boot.
Proof.
  eapply wp_mono; [apply (init_phys_memory_correct (MbootMem 640 4096) 0x150000)|].
  - cbn; lia.
  - cbn; lia.
  - apply demo_u32.
  - vm_compute. done.
  - vm_compute. done.
  - vm_compute. done.
  - intros u s (H & _). exact H.
Defined.
