(* ===== verification/Kmem.v ===== *)
(** Byte-addressed memory and the memory primitives of
    [kernel/util/kstdio.c] ([memset_8] ... [memcpy_32]).

    Memory is a finite map from addresses to bytes, 0 where nothing was
    written; 32-bit words are little-endian, as on the i386. *)
From stdpp Require Import base numbers gmap list.
From S2P Require Import Prelude.

Abbreviation mem := (gmap Z Z).

Definition rd8 (m : mem) (a : Z) : Z := u8 (default 0 (m !! a)).
Definition wr8 (m : mem) (a v : Z) : mem := <[a := u8 v]> m.

Definition rd16 (m : mem) (a : Z) : Z := rd8 m a + rd8 m (a + 1) * 2 ^ 8.
Definition wr16 (m : mem) (a v : Z) : mem := wr8 (wr8 m a v) (a + 1) (v / 2 ^ 8).

Definition rd32 (m : mem) (a : Z) : Z := rd16 m a + rd16 m (a + 2) * 2 ^ 16.
Definition wr32 (m : mem) (a v : Z) : mem := wr16 (wr16 m a v) (a + 2) (v / 2 ^ 16).

(** ** Reads after writes *)

Lemma rd8_range m a : 0 <= rd8 m a < 256.
Proof. apply u8_range. Qed.
Lemma rd16_range m a : 0 <= rd16 m a < 65536.
Proof. unfold rd16. pose proof (rd8_range m a). pose proof (rd8_range m (a + 1)). lia. Qed.
Lemma rd32_range m a : is_u32 (rd32 m a).
Proof. unfold rd32, is_u32. pose proof (rd16_range m a). pose proof (rd16_range m (a + 2)). lia. Qed.

Lemma rd8_wr8 m a v x : rd8 (wr8 m a v) x = if decide (x = a) then u8 v else rd8 m x.
Proof.
  unfold rd8, wr8. case_decide as H.
  - subst. rewrite lookup_insert_eq. cbn. unfold u8. apply Z.mod_mod. lia.
  - by rewrite lookup_insert_ne by done.
Qed.

Lemma rd8_wr8_same m a v : rd8 (wr8 m a v) a = u8 v.
Proof. by rewrite rd8_wr8, decide_True. Qed.
Lemma rd8_wr8_ne m a v x : x <> a -> rd8 (wr8 m a v) x = rd8 m x.
Proof. intros. by rewrite rd8_wr8, decide_False. Qed.

Lemma rd8_wr16_ne m a v x : x < a \/ a + 2 <= x -> rd8 (wr16 m a v) x = rd8 m x.
Proof. intros. unfold wr16. by rewrite !rd8_wr8_ne by lia. Qed.
Lemma rd8_wr32_ne m a v x : x < a \/ a + 4 <= x -> rd8 (wr32 m a v) x = rd8 m x.
Proof. intros. unfold wr32. by rewrite !rd8_wr16_ne by lia. Qed.

(** A word read sees only the four bytes under it. *)
Lemma rd32_ext m m' a :
  (forall x, a <= x < a + 4 -> rd8 m x = rd8 m' x) -> rd32 m a = rd32 m' a.
Proof. intros H. unfold rd32, rd16. by rewrite !H by lia. Qed.

Lemma rd32_wr32_ne m a v b : b + 4 <= a \/ a + 4 <= b -> rd32 (wr32 m a v) b = rd32 m b.
Proof. intros. apply rd32_ext. intros. apply rd8_wr32_ne. lia. Qed.
Lemma rd32_wr8_ne m a v b : b + 4 <= a \/ a + 1 <= b -> rd32 (wr8 m a v) b = rd32 m b.
Proof. intros. apply rd32_ext. intros. apply rd8_wr8_ne. lia. Qed.

Lemma rd16_wr16_same m a v : rd16 (wr16 m a v) a = u16 v.
Proof.
  unfold rd16, wr16. rewrite rd8_wr8_ne by lia. rewrite !rd8_wr8_same.
  unfold u8, u16. zdm.
Qed.
Lemma rd16_wr16_ne m a v b : b + 2 <= a \/ a + 2 <= b -> rd16 (wr16 m a v) b = rd16 m b.
Proof. intros. unfold rd16. by rewrite !rd8_wr16_ne by lia. Qed.

Lemma rd32_wr32_u32 m a v : rd32 (wr32 m a v) a = u32 v.
Proof.
  unfold rd32, wr32. rewrite rd16_wr16_ne by lia. rewrite !rd16_wr16_same.
  unfold u16, u32. zdm.
Qed.

Lemma rd32_wr32_same m a v : is_u32 v -> rd32 (wr32 m a v) a = v.
Proof. intros. rewrite rd32_wr32_u32. by apply u32_small. Qed.

(** [mem_simpl] pushes reads through writes at provably different addresses. *)
Ltac mem_simpl :=
  repeat first
    [ rewrite rd32_wr32_u32 | rewrite rd8_wr8_same
    | rewrite rd32_wr32_ne by lia | rewrite rd32_wr8_ne by lia
    | rewrite rd8_wr32_ne by lia | rewrite rd8_wr8_ne by lia ].

(** ** [memset] and [memcpy]

    The C loops count [i] from 0 to [len - 1]; [n] is the number of
    iterations, [len] as a [size_t]. *)

Fixpoint memset_loop8 (n : nat) (m : mem) (dest val i : Z) : mem :=
  match n with
  | O => m
  | S n' => memset_loop8 n' (wr8 m (dest + i) val) dest val (i + 1)
  end.
Definition memset_8 (m : mem) (dest val len : Z) : mem :=
  memset_loop8 (Z.to_nat len) m dest val 0.

Fixpoint memset_loop16 (n : nat) (m : mem) (dest val i : Z) : mem :=
  match n with
  | O => m
  | S n' => memset_loop16 n' (wr16 m (dest + 2 * i) val) dest val (i + 1)
  end.
Definition memset_16 (m : mem) (dest val len : Z) : mem :=
  memset_loop16 (Z.to_nat len) m dest val 0.

Fixpoint memset_loop32 (n : nat) (m : mem) (dest val i : Z) : mem :=
  match n with
  | O => m
  | S n' => memset_loop32 n' (wr32 m (dest + 4 * i) val) dest val (i + 1)
  end.
Definition memset_32 (m : mem) (dest val len : Z) : mem :=
  memset_loop32 (Z.to_nat len) m dest val 0.

Fixpoint memcpy_loop8 (n : nat) (m : mem) (dest src i : Z) : mem :=
  match n with
  | O => m
  | S n' => memcpy_loop8 n' (wr8 m (dest + i) (rd8 m (src + i))) dest src (i + 1)
  end.
Definition memcpy_8 (m : mem) (dest src len : Z) : mem :=
  memcpy_loop8 (Z.to_nat len) m dest src 0.

Fixpoint memcpy_loop16 (n : nat) (m : mem) (dest src i : Z) : mem :=
  match n with
  | O => m
  | S n' => memcpy_loop16 n' (wr16 m (dest + 2 * i) (rd16 m (src + 2 * i))) dest src (i + 1)
  end.
Definition memcpy_16 (m : mem) (dest src len : Z) : mem :=
  memcpy_loop16 (Z.to_nat len) m dest src 0.

Fixpoint memcpy_loop32 (n : nat) (m : mem) (dest src i : Z) : mem :=
  match n with
  | O => m
  | S n' => memcpy_loop32 n' (wr32 m (dest + 4 * i) (rd32 m (src + 4 * i))) dest src (i + 1)
  end.
Definition memcpy_32 (m : mem) (dest src len : Z) : mem :=
  memcpy_loop32 (Z.to_nat len) m dest src 0.

Lemma memset_loop8_rd n m d v i x :
  rd8 (memset_loop8 n m d v i) x =
  if decide (d + i <= x < d + i + Z.of_nat n) then u8 v else rd8 m x.
Proof.
  revert m i. induction n as [|n IH]; intros m i; cbn [memset_loop8].
  - by rewrite decide_False by lia.
  - rewrite IH, rd8_wr8. repeat case_decide; done || lia.
Qed.

Lemma memset_8_rd m d v len x :
  rd8 (memset_8 m d v len) x = if decide (d <= x < d + len) then u8 v else rd8 m x.
Proof.
  unfold memset_8. rewrite memset_loop8_rd.
  repeat case_decide; done || lia.
Qed.

(** An ascending byte copy moves the old contents whenever the destination
    does not lie inside the source range above its start. *)
Lemma memcpy_loop8_rd n m d s i x :
  d <= s \/ s + i + Z.of_nat n <= d + i -> 0 <= i ->
  rd8 (memcpy_loop8 n m d s i) x =
  if decide (d + i <= x < d + i + Z.of_nat n) then rd8 m (s + (x - d)) else rd8 m x.
Proof.
  intros Hd. revert m i Hd. induction n as [|n IH]; intros m i Hd Hi; cbn [memcpy_loop8].
  - by rewrite decide_False by lia.
  - rewrite IH by lia. rewrite !rd8_wr8.
    assert (u8 (rd8 m (s + i)) = rd8 m (s + i)) as -> by (apply u8_small, rd8_range).
    repeat case_decide; try lia; try done.
    all: f_equal; lia.
Qed.

Lemma memcpy_8_rd m d s len x :
  d <= s \/ s + len <= d ->
  rd8 (memcpy_8 m d s len) x =
  if decide (d <= x < d + len) then rd8 m (s + (x - d)) else rd8 m x.
Proof.
  intros H. unfold memcpy_8. destruct (decide (0 <= len)).
  - rewrite memcpy_loop8_rd by lia. repeat case_decide; done || lia.
  - rewrite Z2Nat.nonpos by lia. cbn. by rewrite decide_False by lia.
Qed.

(** ** Word-wise copies and fills, byte by byte *)

Lemma rd8_wr32_in m a v x :
  a <= x < a + 4 -> rd8 (wr32 m a v) x = u8 (v / 2 ^ (8 * (x - a))).
Proof.
  intros Hx. unfold wr32, wr16. rewrite !rd8_wr8.
  assert (x = a \/ x = a + 1 \/ x = a + 2 \/ x = a + 3) as [-> | [-> | [-> | ->]]] by lia;
    repeat (case_decide; try lia); unfold u8.
  - by replace (a - a) with 0 by lia; rewrite Z.div_1_r.
  - by replace (a + 1 - a) with 1 by lia.
  - by replace (a + 2 - a) with 2 by lia.
  - replace (a + 3 - a) with 3 by lia.
    change (8 * 3) with 24. change (2 ^ 24) with (2 ^ 16 * 2 ^ 8).
    by rewrite Z.div_div.
Qed.

Lemma rd8_of_rd32 m b k :
  0 <= k < 4 -> u8 (rd32 m b / 2 ^ (8 * k)) = rd8 m (b + k).
Proof.
  intros Hk. unfold rd32, rd16.
  pose proof (rd8_range m b). pose proof (rd8_range m (b + 1)).
  pose proof (rd8_range m (b + 2)). pose proof (rd8_range m (b + 3)).
  replace (b + 2 + 1) with (b + 3) by lia.
  assert (k = 0 \/ k = 1 \/ k = 2 \/ k = 3) as [-> | [-> | [-> | ->]]] by lia;
    rewrite ?Z.add_0_r; unfold u8.
  - change (2 ^ (8 * 0)) with 1. zdm.
  - change (2 ^ (8 * 1)) with 256. zdm.
  - change (2 ^ (8 * 2)) with 65536. zdm.
  - change (2 ^ (8 * 3)) with 16777216. zdm.
Qed.

Lemma rd8_wr32_copy m m' a b x :
  rd8 (wr32 m a (rd32 m' b)) x =
  if decide (a <= x < a + 4) then rd8 m' (b + (x - a)) else rd8 m x.
Proof.
  case_decide.
  - rewrite rd8_wr32_in by done. apply rd8_of_rd32. lia.
  - apply rd8_wr32_ne. lia.
Qed.

Lemma memcpy_loop32_rd n m d s i x :
  d <= s \/ s + 4 * (i + Z.of_nat n) <= d + 4 * i -> 0 <= i ->
  rd8 (memcpy_loop32 n m d s i) x =
  if decide (d + 4 * i <= x < d + 4 * (i + Z.of_nat n)) then rd8 m (s + (x - d)) else rd8 m x.
Proof.
  intros Hd. revert m i Hd. induction n as [|n IH]; intros m i Hd Hi; cbn [memcpy_loop32].
  - by rewrite decide_False by lia.
  - rewrite IH by lia. rewrite !rd8_wr32_copy.
    repeat case_decide; try lia; try done.
    all: f_equal; lia.
Qed.

Lemma memcpy_32_rd m d s len x :
  d <= s \/ s + 4 * len <= d ->
  rd8 (memcpy_32 m d s len) x =
  if decide (d <= x < d + 4 * len) then rd8 m (s + (x - d)) else rd8 m x.
Proof.
  intros H. unfold memcpy_32. destruct (decide (0 <= len)).
  - rewrite memcpy_loop32_rd by lia. repeat case_decide; done || lia.
  - rewrite Z2Nat.nonpos by lia. cbn. by rewrite decide_False by lia.
Qed.

Lemma memset_loop32_rd32 n m d v i k :
  0 <= k ->
  rd32 (memset_loop32 n m d v i) (d + 4 * k) =
  if decide (i <= k < i + Z.of_nat n) then u32 v else rd32 m (d + 4 * k).
Proof.
  intros Hk. revert m i. induction n as [|n IH]; intros m i; cbn [memset_loop32].
  - by rewrite decide_False by lia.
  - rewrite IH. destruct (decide (k = i)) as [->|].
    + rewrite rd32_wr32_u32. repeat case_decide; done || lia.
    + rewrite rd32_wr32_ne by lia. repeat case_decide; done || lia.
Qed.

Lemma memset_32_rd32 m d v len k :
  0 <= k ->
  rd32 (memset_32 m d v len) (d + 4 * k) = if decide (k < len) then u32 v else rd32 m (d + 4 * k).
Proof.
  intros. unfold memset_32. rewrite memset_loop32_rd32 by done.
  repeat case_decide; done || lia.
Qed.

(** ** Sequences of bytes *)

(** The bytes [cs] written from [p] on. *)
Fixpoint put_bytes (m : mem) (p : Z) (cs : list Z) : mem :=
  match cs with [] => m | c :: cs' => put_bytes (wr8 m p c) (p + 1) cs' end.

Lemma put_bytes_out m p cs x :
  x < p \/ p + Z.of_nat (length cs) <= x -> rd8 (put_bytes m p cs) x = rd8 m x.
Proof.
  revert m p. induction cs as [|c cs IH]; intros m p Hx; cbn [put_bytes length] in *; [done|].
  rewrite IH by lia. apply rd8_wr8_ne. lia.
Qed.


Lemma put_bytes_in m p cs i :
  0 <= i < Z.of_nat (length cs) -> rd8 (put_bytes m p cs) (p + i) = u8 (default 0 (cs !! Z.to_nat i)).
Proof.
  revert m p i. induction cs as [|c cs IH]; intros m p i Hi; cbn [put_bytes length] in *; [lia|].
  destruct (decide (i = 0)) as [->|].
  - rewrite put_bytes_out by lia. rewrite Z.add_0_r. apply rd8_wr8_same.
  - replace (p + i) with (p + 1 + (i - 1)) by lia. rewrite IH by lia.
    replace (Z.to_nat i) with (S (Z.to_nat (i - 1))) by lia. done.
Qed.

Lemma put_bytes_app m p l1 l2 :
  put_bytes m p (l1 ++ l2) = put_bytes (put_bytes m p l1) (p + Z.of_nat (length l1)) l2.
Proof.
  revert m p. induction l1 as [|c l1 IH]; intros m p; cbn [app put_bytes length]; [by rewrite Z.add_0_r|].
  rewrite IH. f_equal. lia.
Qed.

(** Memories with the same bytes. *)
Lemma put_bytes_ext m m' p cs x : (forall y, rd8 m y = rd8 m' y) -> rd8 (put_bytes m p cs) x = rd8 (put_bytes m' p cs) x.
Proof.
  revert m m' p. induction cs as [|c cs IH]; intros m m' p H; cbn [put_bytes]; [done|].
  apply IH. intros y. by rewrite !rd8_wr8, H.
Qed.

(** * Theorems *)

(** Bytes outside the words written stay. *)
Lemma memset_loop32_ne n m d v i x :
  x < d + 4 * i \/ d + 4 * (i + Z.of_nat n) <= x -> rd8 (memset_loop32 n m d v i) x = rd8 m x.
Proof.
  revert m i. induction n as [|n IH]; intros m i Hx; cbn [memset_loop32]; [done|].
  rewrite IH by lia. apply rd8_wr32_ne. lia.
Qed.

Lemma memset_32_ne m d v len x :
  x < d \/ d + 4 * Z.max 0 len <= x -> rd8 (memset_32 m d v len) x = rd8 m x.
Proof. intros. unfold memset_32. apply memset_loop32_ne. lia. Qed.

Lemma rd32_memset32_ne m d v len b :
  b + 4 <= d \/ d + 4 * Z.max 0 len <= b -> rd32 (memset_32 m d v len) b = rd32 m b.
Proof. intros. apply rd32_ext. intros. apply memset_32_ne. lia. Qed.

Lemma rd32_memset32_zero m d len k :
  0 <= k < len -> rd32 (memset_32 m d 0 len) (d + 4 * k) = 0.
Proof. intros. rewrite memset_32_rd32 by lia. by rewrite decide_True by lia. Qed.

(** The copy loops [memcpy_8] and [memcpy_32] behave like a memory move
    whenever the destination starts at or below the source (the scrolling case)
    or the ranges are disjoint: afterwards every destination byte holds the
    source byte of before the copy and every other byte is unchanged. *)
Theorem memcpy_moves m d s len :
  (d <= s \/ s + len <= d ->
   forall x, rd8 (memcpy_8 m d s len) x =
     if decide (d <= x < d + len) then rd8 m (s + (x - d)) else rd8 m x) /\
  (d <= s \/ s + 4 * len <= d ->
   forall x, rd8 (memcpy_32 m d s len) x =
     if decide (d <= x < d + 4 * len) then rd8 m (s + (x - d)) else rd8 m x).
Proof. split; intros; [by apply memcpy_8_rd | by apply memcpy_32_rd]. Qed.

Lemma memcpy_moves_witness :
  rd8 (memcpy_32 (wr32 ∅ 104 0x01020304) 100 104 2) 100 = 4.
Proof. rewrite (proj2 (memcpy_moves (wr32 ∅ 104 0x01020304) 100 104 2)); [reflexivity | lia]. Defined.
