(* ===== verification/Allocator.v ===== *)
(** What the kernel's data structures rely on when they call
    [kern_malloc] and [kern_free]: an interface over the allocator's state,
    discharged by the heap of [Heap] and used by the linked lists, queues,
    trees, the process table and the file systems. *)
From stdpp Require Import base numbers gmap list.
From S2P Require Import Prelude.

(** The largest request the interface is stated for: what fits the first page
    of an empty heap.  Every structure of the kernel is smaller. *)
Definition SMALL : Z := 4000.

(** [a_extent]: the blocks in use, by address, with the bytes reserved for each.
    [a_apart]: they do not overlap, and a header lies between two of them.
    [a_zone]: they lie between [a_base] and [a_top]; static data does not.
    [a_count]: blocks have headers, so the address space holds a bounded number
    of them.  [a_free_null]: freeing NULL, which the file systems do, writes
    into the last bytes of the address space and leaves the heap as it is.  [a_room k s]: [k] more requests of at most [SMALL] bytes fit. *)
Class Allocator (S : Type) := {
  a_malloc : Z -> cmd S Z;
  a_free : Z -> cmd S unit;
  a_inv : S -> Prop;
  a_extent : S -> gmap Z Z;
  a_room : nat -> S -> Prop;
  a_base : Z;
  a_top : Z;
  a_base_nonneg : 0 <= a_base;
  a_zone : forall s p n, a_inv s -> a_extent s !! p = Some n -> a_base <= p /\ p + n < a_top;
  a_count : forall s, a_inv s -> Z.of_nat (size (a_extent s)) < 2 ^ 29;
  a_apart : forall s p n q m, a_inv s -> a_extent s !! p = Some n -> a_extent s !! q = Some m ->
    p <> q -> p + n < q \/ q + m < p;
  a_room_mono : forall k s, a_room (Datatypes.S k) s -> a_room k s;
  a_malloc_ok : forall n k s,
    a_inv s -> a_room (Datatypes.S k) s -> 0 <= n <= SMALL ->
    wp (a_malloc n) (fun p s' => exists m,
      0 < p /\ p + m < 2 ^ 32 /\ n <= m /\ a_extent s !! p = None /\
      a_extent s' = <[p := m]> (a_extent s) /\ a_inv s' /\ a_room k s') s;
  a_free_ok : forall p k s,
    a_inv s -> a_room k s -> is_Some (a_extent s !! p) ->
    wp (a_free p) (fun _ s' => a_extent s' = delete p (a_extent s) /\ a_inv s' /\ a_room k s') s;
  a_free_null : forall k s,
    a_inv s -> a_room k s ->
    wp (a_free 0) (fun _ s' => a_extent s' = a_extent s /\ a_inv s' /\ a_room k s') s
}.

(** ** A bump allocator

    The simplest instance, on which the examples of the clients run. *)
Record bump := Bump { b_next : Z; b_blocks : gmap Z Z }.

(** A bump allocator with empty blocks at the given addresses. *)
Definition bump_at (next : Z) (ps : list Z) : bump := Bump next (list_to_map ((fun p => (p, 0)) <$> ps)).

Definition bump_malloc (n : Z) : cmd bump Z :=
  fun s => Ret (s.(b_next), Bump (s.(b_next) + n + 1) (<[s.(b_next) := n]> s.(b_blocks))).
Definition bump_free (p : Z) : cmd bump unit :=
  fun s => Ret (tt, Bump s.(b_next) (delete p s.(b_blocks))).

Definition apart (p n q m : Z) : Prop := p = q \/ p + n < q \/ q + m < p.
#[global] Instance apart_dec p n q m : Decision (apart p n q m).
Proof. unfold apart. apply _. Defined.

Definition below (e p n : Z) : Prop := 0 < p /\ 0 <= n /\ p + n < e.
#[global] Instance below_dec e p n : Decision (below e p n).
Proof. unfold below. apply _. Defined.

Definition bump_inv (s : bump) : Prop :=
  0 < s.(b_next) < 2 ^ 29 /\ map_Forall (below s.(b_next)) s.(b_blocks) /\
  Z.of_nat (size s.(b_blocks)) < s.(b_next) /\
  map_Forall (fun p n => map_Forall (apart p n) s.(b_blocks)) s.(b_blocks).
#[global] Instance bump_inv_dec s : Decision (bump_inv s).
Proof. unfold bump_inv. apply _. Defined.
Definition bump_room (k : nat) (s : bump) : Prop := s.(b_next) + 4001 * Z.of_nat k < 2 ^ 29.

Lemma bump_fresh s : bump_inv s -> s.(b_blocks) !! s.(b_next) = None.
Proof.
  intros (_ & Hall & _). destruct (_ !! _) as [n|] eqn:He; [|done].
  apply Hall in He. unfold below in He. lia.
Qed.

Lemma bump_malloc_law n k s :
  bump_inv s -> bump_room (S k) s -> 0 <= n <= SMALL ->
  wp (bump_malloc n) (fun p s' => exists m, 0 < p /\ p + m < 2 ^ 32 /\ n <= m /\
    s.(b_blocks) !! p = None /\ s'.(b_blocks) = <[p := m]> s.(b_blocks) /\
    bump_inv s' /\ bump_room k s') s.
Proof.
  intros Hi Hr Hn. pose proof (bump_fresh s Hi) as Hf. destruct Hi as (? & Hall & ? & Hap).
  unfold bump_room, SMALL in *. unfold wp, bump_malloc. exists n. unfold bump_inv. cbn [b_next b_blocks].
  assert (Hold : forall q l, s.(b_blocks) !! q = Some l -> q + l < s.(b_next)).
  { intros q l Hq. apply Hall in Hq. unfold below in Hq. lia. }
  split_and!; try lia; try done.
  - apply map_Forall_insert; [done|]. split; [unfold below; lia|].
    eapply map_Forall_impl; [exact Hall|]. unfold below. intros. lia.
  - rewrite map_size_insert_None by done. lia.
  - apply map_Forall_insert; [done|]. split.
    + apply map_Forall_insert; [done|]. split; [by left|]. intros q l Hq%Hold. right. lia.
    + intros q l Hq. apply map_Forall_insert; [done|].
      split; [apply Hold in Hq; right; lia|by apply Hap in Hq].
Qed.

Lemma bump_free_law p k s :
  bump_inv s -> bump_room k s -> is_Some (s.(b_blocks) !! p) ->
  wp (bump_free p) (fun _ s' => s'.(b_blocks) = delete p s.(b_blocks) /\ bump_inv s' /\
    bump_room k s') s.
Proof.
  intros (? & Hall & ? & Hap) Hr Hp. unfold wp, bump_free, bump_inv. cbn [b_next b_blocks].
  split_and!; try lia; try done.
  - by apply map_Forall_delete.
  - pose proof (map_size_delete_Some _ _ Hp). lia.
  - apply map_Forall_delete. eapply map_Forall_impl; [exact Hap|]. intros. by apply map_Forall_delete.
Qed.

Lemma bump_free_null k s :
  bump_inv s -> bump_room k s ->
  wp (bump_free 0) (fun _ s' => s'.(b_blocks) = s.(b_blocks) /\ bump_inv s' /\ bump_room k s') s.
Proof.
  intros Hi Hr. unfold wp, bump_free. rewrite delete_id; [by destruct s|].
  destruct (_ !! 0) as [n|] eqn:He; [|done]. destruct Hi as (_ & Hall & _). apply Hall in He.
  unfold below in He. lia.
Qed.

Lemma bump_count_law s : bump_inv s -> Z.of_nat (size s.(b_blocks)) < 2 ^ 29.
Proof. intros (? & _ & ? & _). lia. Qed.

Lemma bump_apart_law s p n q m :
  bump_inv s -> s.(b_blocks) !! p = Some n -> s.(b_blocks) !! q = Some m -> p <> q ->
  p + n < q \/ q + m < p.
Proof. intros (_ & _ & _ & Hap) Hp Hq Hne. destruct (Hap _ _ Hp _ _ Hq) as [|]; [done|done]. Qed.

Lemma bump_zone_law s p n :
  bump_inv s -> s.(b_blocks) !! p = Some n -> 0 <= p /\ p + n < 2 ^ 29.
Proof. intros (? & Hall & _) Hp. apply Hall in Hp. unfold below in Hp. lia. Qed.

Lemma bump_room_mono k s : bump_room (S k) s -> bump_room k s.
Proof. unfold bump_room. lia. Qed.

Definition bump_allocator : Allocator bump := {|
  a_malloc := bump_malloc; a_free := bump_free; a_inv := bump_inv; a_extent := b_blocks;
  a_room := bump_room; a_base := 0; a_top := 2 ^ 29; a_base_nonneg := Z.le_refl 0; a_zone := bump_zone_law; a_count := bump_count_law; a_apart := bump_apart_law;
  a_room_mono := bump_room_mono; a_malloc_ok := bump_malloc_law; a_free_ok := bump_free_law;
  a_free_null := bump_free_null |}.
