(* ===== verification/Heap.v ===== *)
(** The kernel heap, [kernel/memory/memory_heap.c], and the user-space
    allocator [libraries/alloc.c], which is the same algorithm over another
    source of pages.

    The heap is byte-addressed memory ([Kmem]); an allocation header
    [kalloc_t] is the packed 9-byte struct
    [{ int size; kalloc_t * next; uint8_t present:1; }] at its address. *)
From stdpp Require Import base numbers gmap list.
From S2P Require Import Prelude Kmem Allocator.

Definition SIZEOF_KALLOC : Z := 9.
Definition HEAP_PAGE : Z := 4096.
Definition KERNEL_HEAP_INIT_ADDR : Z := 0xD0000000.
(** The kernel heap ends where the page tables are mapped
    ([VIRT_PAGE_TAB_ADDR]). *)
Definition HEAP_TOP : Z := 0xFFC00000.
Definition ALLOC_HEAP_START : Z := 0x50000000.

(** [kern_heap_t] / [alloc_heap_t], the memory it manages, and the state [P]
    of whoever supplies its pages. *)
Record hstate (P : Type) := HState {
  allocated_size : Z;
  h_start : Z;
  h_end : Z;
  h_head : Z;
  h_mem : mem;
  h_pages : P
}.
Arguments HState {P}.
Arguments allocated_size {P}.
Arguments h_start {P}.
Arguments h_end {P}.
Arguments h_head {P}.
Arguments h_mem {P}.
Arguments h_pages {P}.

Section allocator.
Context {P : Type}.
Implicit Types (s : hstate P).

Definition set_mem (f : mem -> mem) s : hstate P :=
  HState s.(allocated_size) s.(h_start) s.(h_end) s.(h_head) (f s.(h_mem)) s.(h_pages).
Definition set_head (a : Z) s : hstate P :=
  HState s.(allocated_size) s.(h_start) s.(h_end) a s.(h_mem) s.(h_pages).

(** Header fields; a NULL pointer faults. *)
Definition deref (item : Z) : cmd (hstate P) unit := if item =? 0 then fault else ret tt.
Definition hdr_size (item : Z) : cmd (hstate P) Z :=
  deref item ;;; gets (fun s => i32 (rd32 s.(h_mem) item)).
Definition hdr_next (item : Z) : cmd (hstate P) Z :=
  deref item ;;; gets (fun s => rd32 s.(h_mem) (item + 4)).
Definition hdr_present (item : Z) : cmd (hstate P) Z :=
  deref item ;;; gets (fun s => bf_get 0 1 (rd8 s.(h_mem) (item + 8))).
Definition set_size (item v : Z) : cmd (hstate P) unit :=
  deref item ;;; modify (set_mem (fun m => wr32 m item v)).
Definition set_next (item v : Z) : cmd (hstate P) unit :=
  deref item ;;; modify (set_mem (fun m => wr32 m (item + 4) v)).
Definition set_present (item v : Z) : cmd (hstate P) unit :=
  deref item ;;;
  modify (set_mem (fun m => wr8 m (item + 8) (bf_set 0 1 (rd8 m (item + 8)) v))).

(** [freed->present = 0x0] on the header below [object]. *)
Definition kern_free (object : Z) : cmd (hstate P) unit :=
  set_present (u32 (object - SIZEOF_KALLOC)) 0.

(** The search loop: the first free and large enough item, or the last one. *)
Fixpoint find_item (fuel : nat) (item size : Z) : cmd (hstate P) Z :=
  match fuel with
  | O => hang
  | S fuel' =>
      next <- hdr_next item ;;
      if next =? 0 then ret item
      else
        sz <- hdr_size item ;;
        pr <- hdr_present item ;;
        if (i32 size <=? sz) && (pr =? 0) then ret item
        else find_item fuel' next size
  end.

Variable increase : Z -> cmd (hstate P) unit.

(** The body of [kern_malloc] / [alloc_allocate].  The headers are at least
    [SIZEOF_KALLOC] bytes apart, so the heap's length bounds the search. *)
Definition malloc_body (size : Z) : cmd (hstate P) Z :=
  let total_size := i32 (u32 (Z.land (u32 (size + 7)) (u32 (Z.lnot 7)) + SIZEOF_KALLOC)) in
  head <- gets h_head ;;
  start <- gets h_start ;;
  stop <- gets h_end ;;
  item <-
    (if head =? 0 then
       set_size start (i32 size) ;;;
       set_next start 0 ;;;
       set_present start 1 ;;;
       modify (set_head start) ;;;
       ret start
     else
       item <- find_item (Z.to_nat (stop - start)) head size ;;
       next <- hdr_next item ;;
       isz <- hdr_size item ;;
       if next =? 0 then
         let hsaddr := u32 (item + u32 (SIZEOF_KALLOC + isz)) in
         let headdr := u32 (hsaddr + u32 total_size) in
         (if negb (headdr <? stop) then increase (u32 total_size) else ret tt) ;;;
         stop' <- gets h_end ;;
         if negb (headdr <? stop') then ret 0
         else
           set_next item hsaddr ;;;
           item <- hdr_next item ;;
           set_size item (i32 size) ;;;
           set_next item 0 ;;;
           set_present item 1 ;;;
           ret item
       else
         let diff := i32 (u32 (isz - size)) in
         if 0 <? diff then
           if SIZEOF_KALLOC + 1 <=? diff then
             set_size item (i32 size) ;;;
             isz' <- hdr_size item ;;
             let sibling := u32 (item + u32 (SIZEOF_KALLOC + isz')) in
             set_present item 1 ;;;
             set_next item sibling ;;;
             set_size sibling (i32 (u32 (diff - SIZEOF_KALLOC))) ;;;
             set_present sibling 0 ;;;
             set_next sibling next ;;;
             ret item
           else set_present item 1 ;;; ret item
         else set_present item 1 ;;; ret item) ;;
  if item =? 0 then ret 0
  else
    isz <- hdr_size item ;;
    let addr := u32 (item + SIZEOF_KALLOC) in
    modify (set_mem (fun m => memset_8 m addr 0 (u32 isz))) ;;;
    ret addr.
End allocator.

(** ** The kernel heap

    What [increase_heap] and [initialise_heap] need of paging: one operation
    that backs a kernel page with a fresh frame ([alloc_phys_page] followed by
    [set_page_table_entry] on the current directory). *)

Class PageSupply (P : Type) := {
  supply_page : Z -> cmd P unit;
  supply_ok : P -> Prop;
  supply_safe : forall va p,
    supply_ok p -> 0 < va < HEAP_TOP -> wp (supply_page va) (fun _ => supply_ok) p
}.

Section kernel_heap.
Context {P : Type} `{PageSupply P}.
Implicit Types (s : hstate P).

(** Runs a command of the page supply inside the heap's state. *)
Definition on_pages (c : cmd P unit) : cmd (hstate P) unit :=
  fun s => match c s.(h_pages) with
           | Ret (_, p) => Ret (tt, HState s.(allocated_size) s.(h_start) s.(h_end)
                                           s.(h_head) s.(h_mem) p)
           | Fault => Fault
           | Hang => Hang
           end.

Definition initialise_heap : cmd (hstate P) unit :=
  modify (fun s => HState HEAP_PAGE s.(h_start) s.(h_end) s.(h_head) s.(h_mem) s.(h_pages)) ;;;
  on_pages (supply_page KERNEL_HEAP_INIT_ADDR) ;;;
  modify (fun s => HState s.(allocated_size) KERNEL_HEAP_INIT_ADDR
                          (u32 (KERNEL_HEAP_INIT_ADDR + HEAP_PAGE)) 0 s.(h_mem) s.(h_pages)).

Definition increase_page : cmd (hstate P) unit :=
  stop <- gets h_end ;;
  on_pages (supply_page stop) ;;;
  modify (fun s => HState (i32 (s.(allocated_size) + HEAP_PAGE)) s.(h_start)
                          (u32 (s.(h_end) + HEAP_PAGE)) s.(h_head) s.(h_mem) s.(h_pages)).

Definition increase_heap (bytes : Z) : cmd (hstate P) unit :=
  let pages := i32 (bytes / HEAP_PAGE) in
  let pages := if 0 <? bytes mod HEAP_PAGE then pages + 1 else pages in
  for_ (Z.to_nat pages) 0 (fun _ => increase_page).

Definition kern_malloc (size : Z) : cmd (hstate P) Z := malloc_body increase_heap size.

Definition get_heap_end : cmd (hstate P) Z := gets h_end.
End kernel_heap.

(** ** The user-space heap: [libraries/alloc.c] over the [sbrk] system call *)

(** [sbrk_ok e p]: the process's break is [e].  Growing moves it up to the next
    page boundary count, as [sysc_sbrk] does. *)
Class Sbrk (P : Type) := {
  sbrk : Z -> cmd P Z;
  sbrk_ok : Z -> P -> Prop;
  sbrk_grows : forall e n p,
    sbrk_ok e p -> 0 < e -> 0 < n < 2 ^ 31 -> e + n + 4096 < 2 ^ 32 ->
    wp (sbrk n) (fun e' p' => e + n <= e' < e + n + 4096 /\ sbrk_ok e' p') p
}.

Section user_heap.
Context {P : Type} `{Sbrk P}.
Implicit Types (s : hstate P).

(** [heap.end - heap.start] is a difference of [uint32_t] pointers. *)
Definition alloc_initialise (used current_end : Z) : cmd (hstate P) Z :=
  modify (fun s =>
    let start := u32 (ALLOC_HEAP_START + u32 used) in
    HState (Z.quot (i32 (u32 (current_end - start))) 4) start current_end 0
           s.(h_mem) s.(h_pages)) ;;;
  ret 0.

Definition alloc_increase_memory (bytes : Z) : cmd (hstate P) unit :=
  fun s => match sbrk (i32 bytes) s.(h_pages) with
           | Ret (new_end, p) =>
               Ret (tt, HState (i32 (s.(allocated_size) + i32 (u32 (new_end - s.(h_end)))))
                               s.(h_start) new_end s.(h_head) s.(h_mem) p)
           | Fault => Fault
           | Hang => Hang
           end.

Definition alloc_allocate (size : Z) : cmd (hstate P) Z := malloc_body alloc_increase_memory size.
Definition alloc_free (memory : Z) : cmd (hstate P) unit := kern_free memory.
Definition alloc_reallocate (memory size : Z) : cmd (hstate P) Z :=
  alloc_free memory ;;; alloc_allocate size.
End user_heap.

(** * The block structure

    Abstractly a heap is a list of blocks (payload size, in use?) laid out
    without gaps from [h_start]. *)

Abbreviation blocks := (list (Z * bool)).

Fixpoint span (bs : blocks) : Z :=
  match bs with [] => 0 | (sz, _) :: bs' => 9 + sz + span bs' end.

(** The headers of [bs] are in [m] from address [a] on; the last one's [next]
    field is [tn]. *)
Fixpoint chain (m : mem) (a : Z) (bs : blocks) (tn : Z) : Prop :=
  match bs with
  | [] => True
  | (sz, u) :: bs' =>
      (0 <= sz < 2 ^ 31 /\ rd32 m a = sz /\
       rd32 m (a + 4) = match bs' with [] => tn | _ => a + 9 + sz end /\
       bf_get 0 1 (rd8 m (a + 8)) = if u then 1 else 0) /\
      chain m (a + 9 + sz) bs' tn
  end.

(** The blocks in use, as (payload address, size). *)
Fixpoint live (a : Z) (bs : blocks) : list (Z * Z) :=
  match bs with
  | [] => []
  | (sz, u) :: bs' => (if u then [(a + 9, sz)] else []) ++ live (a + 9 + sz) bs'
  end.

Definition heap_rep {P} (s : hstate P) (bs : blocks) : Prop :=
  0 < s.(h_start) /\ s.(h_start) < s.(h_end) < 2 ^ 32 /\
  match bs with
  | [] => s.(h_head) = 0
  | _ => s.(h_head) = s.(h_start) /\ chain s.(h_mem) s.(h_start) bs 0 /\
         s.(h_start) + span bs < s.(h_end)
  end.

(** Contents of blocks in use survive a change of memory from [m] to [m']. *)
Definition payload_kept (m m' : mem) (l : list (Z * Z)) : Prop :=
  forall q sz, (q, sz) ∈ l -> forall x, q <= x < q + sz -> rd8 m' x = rd8 m x.

Definition zeroed (m : mem) (a len : Z) : Prop := forall x, a <= x < a + len -> rd8 m x = 0.

Lemma chain_head m a sz u bs tn :
  chain m a ((sz, u) :: bs) tn ->
  0 <= sz < 2 ^ 31 /\ rd32 m a = sz /\
  rd32 m (a + 4) = match bs with [] => tn | _ => a + 9 + sz end /\
  bf_get 0 1 (rd8 m (a + 8)) = (if u then 1 else 0) /\ chain m (a + 9 + sz) bs tn.
Proof. cbn. tauto. Qed.

Lemma span_app b1 b2 : span (b1 ++ b2) = span b1 + span b2.
Proof. induction b1 as [|[sz u] b1 IH]; cbn; lia. Qed.

Lemma chain_sizes m a bs tn : chain m a bs tn -> Forall (fun b => 0 <= b.1) bs.
Proof.
  revert a. induction bs as [|[sz u] bs IH]; intros a; cbn; [by constructor|].
  intros [[] ]. constructor; [cbn; lia|eauto].
Qed.

Lemma span_length bs : Forall (fun b => 0 <= b.1) bs -> 9 * Z.of_nat (length bs) <= span bs.
Proof. induction 1 as [|[sz u] bs Hb _ IH]; cbn in *; lia. Qed.

Lemma live_app a b1 b2 : live a (b1 ++ b2) = live a b1 ++ live (a + span b1) b2.
Proof.
  revert a. induction b1 as [|[sz u] b1 IH]; intros a; cbn.
  - by rewrite Z.add_0_r.
  - rewrite IH, <- app_assoc. do 3 f_equal. lia.
Qed.

Lemma chain_app m a b1 b2 tn :
  b2 <> [] ->
  chain m a (b1 ++ b2) tn <-> chain m a b1 (a + span b1) /\ chain m (a + span b1) b2 tn.
Proof.
  intros Hne. revert a. induction b1 as [|[sz u] b1 IH]; intros a; cbn -[Z.pow].
  - rewrite Z.add_0_r. tauto.
  - rewrite IH. replace (a + (9 + sz + span b1)) with (a + 9 + sz + span b1) by lia.
    assert ((match b1 ++ b2 with [] => tn | _ => a + 9 + sz end) =
            (match b1 with [] => a + 9 + sz + span b1 | _ => a + 9 + sz end)) as ->.
    { destruct b1 as [|[] ?]; cbn; [|done]. destruct b2; [done|lia]. }
    tauto.
Qed.

(** A chain only depends on the bytes it spans. *)
Lemma chain_agree m m' a bs tn :
  (forall x, a <= x < a + span bs -> rd8 m' x = rd8 m x) ->
  chain m a bs tn -> chain m' a bs tn.
Proof.
  revert a. induction bs as [|[sz u] bs IH]; intros a Hx; cbn [chain]; [done|].
  intros [(Hsz & H1 & H2 & H3) Hc].
  pose proof (span_length bs (chain_sizes _ _ _ _ Hc)) as Hl. cbn [span] in Hx.
  rewrite Hx by lia.
  rewrite (rd32_ext m' m a) by (intros; apply Hx; lia).
  rewrite (rd32_ext m' m (a + 4)) by (intros; apply Hx; lia).
  split; [tauto|]. apply IH; [|done]. intros. apply Hx. lia.
Qed.

(** Payloads in [live] lie inside the span, past the nine header bytes. *)
Lemma live_bounds m a bs tn q sz :
  chain m a bs tn -> (q, sz) ∈ live a bs -> a + 9 <= q /\ 0 <= sz /\ q + sz <= a + span bs.
Proof.
  revert a. induction bs as [|[sz' u] bs IH]; intros a; cbn [live chain span].
  { intros _ Hin. by apply not_elem_of_nil in Hin. }
  intros [[Hsz _] Hc] Hin.
  pose proof (span_length bs (chain_sizes _ _ _ _ Hc)).
  apply elem_of_app in Hin as [Hin | Hin].
  - destruct u; [|by apply not_elem_of_nil in Hin].
    apply list_elem_of_singleton in Hin. simplify_eq. lia.
  - destruct (IH _ Hc Hin). lia.
Qed.

(** Distinct blocks in use do not overlap: a header is between them. *)
Lemma live_disjoint m a bs tn i j q1 s1 q2 s2 :
  chain m a bs tn -> live a bs !! i = Some (q1, s1) -> live a bs !! j = Some (q2, s2) ->
  i <> j -> q1 + s1 < q2 \/ q2 + s2 < q1.
Proof.
  revert a i j. induction bs as [|[sz u] bs IH]; intros a i j; cbn [live]; [done|].
  intros Hch. pose proof (chain_head _ _ _ _ _ _ Hch) as (Hsz & _ & _ & _ & Hc).
  destruct u; cbn.
  - destruct i as [|i], j as [|j]; cbn; intros Hi Hj Hne; simplify_eq.
    + apply list_elem_of_lookup_2, (live_bounds m _ _ tn) in Hj; [lia|done].
    + apply list_elem_of_lookup_2, (live_bounds m _ _ tn) in Hi; [lia|done].
    + eapply IH; [exact Hc | exact Hi | exact Hj | congruence].
  - intros Hi Hj Hne. by eapply IH.
Qed.

Section find_item.
Context {P : Type}.
Implicit Types (s : hstate P).

Lemma deref_spec (a : Z) s : 0 < a -> @deref P a s = Ret (tt, s).
Proof. intros. unfold deref. by destruct (Z.eqb_spec a 0); [lia|]. Qed.

Lemma hdr_size_spec a s : 0 < a -> hdr_size a s = Ret (i32 (rd32 s.(h_mem) a), s).
Proof. intros. unfold hdr_size, bind. by rewrite deref_spec. Qed.
Lemma hdr_next_spec a s : 0 < a -> hdr_next a s = Ret (rd32 s.(h_mem) (a + 4), s).
Proof. intros. unfold hdr_next, bind. by rewrite deref_spec. Qed.
Lemma hdr_present_spec a s :
  0 < a -> hdr_present a s = Ret (bf_get 0 1 (rd8 s.(h_mem) (a + 8)), s).
Proof. intros. unfold hdr_present, bind. by rewrite deref_spec. Qed.
Lemma set_size_spec a v s :
  0 < a -> set_size a v s = Ret (tt, set_mem (fun m => wr32 m a v) s).
Proof. intros. unfold set_size, bind. by rewrite deref_spec. Qed.
Lemma set_next_spec a v s :
  0 < a -> set_next a v s = Ret (tt, set_mem (fun m => wr32 m (a + 4) v) s).
Proof. intros. unfold set_next, bind. by rewrite deref_spec. Qed.
Lemma set_present_spec a v s :
  0 < a -> set_present a v s =
  Ret (tt, set_mem (fun m => wr8 m (a + 8) (bf_set 0 1 (rd8 m (a + 8)) v)) s).
Proof. intros. unfold set_present, bind. by rewrite deref_spec. Qed.

(** Where the search stops: at a free block that is large enough, or at the
    last block of the chain. *)
Definition found (a : Z) (bs : blocks) (size item : Z) : Prop :=
  exists b1 sz u b2, bs = b1 ++ (sz, u) :: b2 /\ item = a + span b1 /\
    (b2 = [] \/ (u = false /\ size <= sz)).

Lemma find_item_spec fuel a bs size s :
  bs <> [] -> chain s.(h_mem) a bs 0 -> 0 < a -> 0 <= size < 2 ^ 31 ->
  (length bs <= fuel)%nat ->
  exists item, find_item fuel a size s = Ret (item, s) /\ found a bs size item.
Proof.
  revert a bs. induction fuel as [|fuel IH]; intros a bs Hne Hch Ha Hs Hf;
    [destruct bs; [done|cbn in Hf; lia]|].
  destruct bs as [|[sz u] bs]; [done|].
  pose proof (chain_head _ _ _ _ _ _ Hch) as (Hsz & H1 & H2 & H3 & Hc).
  cbn [find_item]. unfold bind. rewrite hdr_next_spec by done. rewrite H2.
  destruct bs as [|b bs].
  { exists a. split; [done|]. exists [], sz, u, []. cbn. split_and!; try done; [lia|by left]. }
  destruct (Z.eqb_spec (a + 9 + sz) 0); [lia|].
  rewrite hdr_size_spec, hdr_present_spec by done. rewrite H1, H3, !i32_small by lia.
  destruct (Z.leb_spec size sz); destruct u; cbn;
    try (exists a; split; [done|]; exists [], sz, false, (b :: bs); cbn; split_and!; try done; [lia|by right]).
  all: destruct (IH (a + 9 + sz) (b :: bs)) as (item & Hfi & b1 & sz' & u' & b2 & Hb & -> & Hor);
    try done; try lia; try (cbn in *; lia).
  all: exists (a + 9 + sz + span b1); split; [done|].
  - exists ((sz, true) :: b1), sz', u', b2. cbn. rewrite Hb. split_and!; try done. lia.
  - exists ((sz, true) :: b1), sz', u', b2. cbn. rewrite Hb. split_and!; try done. lia.
  - exists ((sz, false) :: b1), sz', u', b2. cbn. rewrite Hb. split_and!; try done. lia.
Qed.
End find_item.

(** Replacing one block by blocks of the same total length, everything else in
    memory unchanged. *)
Lemma chain_replace m m' a b1 sz u new b2 :
  chain m a (b1 ++ (sz, u) :: b2) 0 -> new <> [] -> span new = 9 + sz ->
  (forall x, x < a + span b1 \/ a + span b1 + 9 + sz <= x -> rd8 m' x = rd8 m x) ->
  chain m' (a + span b1) new (match b2 with [] => 0 | _ => a + span b1 + 9 + sz end) ->
  chain m' a (b1 ++ new ++ b2) 0.
Proof.
  intros Hch Hne Hsp Hx Hnew. apply chain_app in Hch as [H1 H2]; [|done].
  pose proof (chain_head _ _ _ _ _ _ H2) as (Hsz & _ & _ & _ & Hc).
  pose proof (span_length b2 (chain_sizes _ _ _ _ Hc)).
  pose proof (span_length b1 (chain_sizes _ _ _ _ H1)).
  apply chain_app; [by destruct new|]. split.
  - eapply chain_agree; [|exact H1]. intros. apply Hx. lia.
  - destruct b2 as [|b b2]; [by rewrite app_nil_r|].
    apply chain_app; [done|]. rewrite Hsp.
    replace (a + span b1 + (9 + sz)) with (a + span b1 + 9 + sz) by lia.
    split; [done|]. eapply chain_agree; [|exact Hc]. intros. apply Hx. lia.
Qed.

Lemma payload_kept_outside m m' a b1 sz u b2 :
  chain m a (b1 ++ (sz, u) :: b2) 0 -> u = false ->
  (forall x, x < a + span b1 \/ a + span b1 + 9 + sz <= x -> rd8 m' x = rd8 m x) ->
  payload_kept m m' (live a (b1 ++ (sz, u) :: b2)).
Proof.
  intros Hch -> Hx q sz' Hin x Hr. rewrite live_app in Hin. cbn in Hin.
  apply chain_app in Hch as [H1 H2]; [|done].
  pose proof (chain_head _ _ _ _ _ _ H2) as (Hsz & _ & _ & _ & Hc).
  apply Hx. apply elem_of_app in Hin as [Hin | Hin].
  - apply (live_bounds _ _ _ _ _ _ H1) in Hin. lia.
  - apply (live_bounds _ _ _ _ _ _ Hc) in Hin. lia.
Qed.

(** ** Header writes *)

Lemma present_set b v : bf_get 0 1 (u8 (bf_set 0 1 b v)) = v mod 2.
Proof.
  transitivity (bf_get 0 1 (bf_set 0 1 b v)).
  - rewrite !bf_get_alt by lia. unfold u8. change (2 ^ 0) with 1. zdm.
  - rewrite bf_get_set_same by lia. done.
Qed.

Lemma rd32_memset8_ne m d v len b :
  b + 4 <= d \/ d + len <= b -> rd32 (memset_8 m d v len) b = rd32 m b.
Proof. intros. apply rd32_ext. intros. rewrite memset_8_rd, decide_False by lia. done. Qed.

Lemma rd8_memset8_ne m d v len x :
  x < d \/ d + len <= x -> rd8 (memset_8 m d v len) x = rd8 m x.
Proof. intros. by rewrite memset_8_rd, decide_False by lia. Qed.

Ltac hdr_simpl :=
  repeat first [ rewrite rd32_memset8_ne by lia | rewrite rd8_memset8_ne by lia
               | rewrite present_set | progress mem_simpl ].

(** Marking a block used and clearing its payload. *)
Definition use_block (m : mem) (item sz : Z) : mem :=
  memset_8 (wr8 m (item + 8) (bf_set 0 1 (rd8 m (item + 8)) 1)) (item + 9) 0 sz.

Lemma use_block_chain m item sz u bs tn :
  chain m item ((sz, u) :: bs) tn ->
  chain (use_block m item sz) item [(sz, true)] (match bs with [] => tn | _ => item + 9 + sz end).
Proof.
  intros Hch. pose proof (chain_head _ _ _ _ _ _ Hch) as (Hsz & H1 & H2 & H3 & _).
  cbn. unfold use_block. hdr_simpl. done.
Qed.

Lemma use_block_agree m item sz x :
  0 <= sz -> x < item \/ item + 9 + sz <= x -> rd8 (use_block m item sz) x = rd8 m x.
Proof. intros. unfold use_block. by hdr_simpl. Qed.

Lemma use_block_zero m item sz : zeroed (use_block m item sz) (item + 9) sz.
Proof. intros x Hx. unfold use_block. by rewrite memset_8_rd, decide_True. Qed.

(** Splitting: the header writes of the middle branch, in program order. *)
Definition split_block (m : mem) (item size rest next : Z) : mem :=
  let sib := item + 9 + size in
  let m := wr32 m item size in
  let m := wr8 m (item + 8) (bf_set 0 1 (rd8 m (item + 8)) 1) in
  let m := wr32 m (item + 4) sib in
  let m := wr32 m sib rest in
  let m := wr8 m (sib + 8) (bf_set 0 1 (rd8 m (sib + 8)) 0) in
  let m := wr32 m (sib + 4) next in
  memset_8 m (item + 9) 0 size.

Lemma split_block_chain m item size rest next :
  0 <= size < 2 ^ 31 -> 0 <= rest < 2 ^ 31 -> 0 < item -> item + 18 + size < 2 ^ 32 ->
  is_u32 next ->
  chain (split_block m item size rest next) item [(size, true); (rest, false)] next.
Proof.
  intros Hs Hr Hi Hb Hn. unfold is_u32 in Hn. cbn -[Z.pow].
  unfold split_block. cbn zeta. hdr_simpl. rewrite !u32_small by lia.
  split_and!; done || lia.
Qed.

Lemma split_block_agree m item size rest next x :
  0 <= size -> x < item \/ item + 18 + size <= x ->
  rd8 (split_block m item size rest next) x = rd8 m x.
Proof. intros. unfold split_block. cbn zeta. by hdr_simpl. Qed.

Lemma split_block_zero m item size rest next :
  zeroed (split_block m item size rest next) (item + 9) size.
Proof. intros x Hx. unfold split_block. by rewrite memset_8_rd, decide_True. Qed.

(** Appending after the last block. *)
Definition append_block (m : mem) (last hs size : Z) : mem :=
  let m := wr32 m (last + 4) hs in
  let m := wr32 m hs size in
  let m := wr32 m (hs + 4) 0 in
  let m := wr8 m (hs + 8) (bf_set 0 1 (rd8 m (hs + 8)) 1) in
  memset_8 m (hs + 9) 0 size.

Lemma append_block_chain m last sz u size :
  chain m last [(sz, u)] 0 -> 0 <= size < 2 ^ 31 -> 0 < last -> last + 9 + sz < 2 ^ 32 ->
  chain (append_block m last (last + 9 + sz) size) last [(sz, u); (size, true)] 0.
Proof.
  intros Hch Hs Hl Hb. pose proof (chain_head _ _ _ _ _ _ Hch) as (Hsz & H1 & _ & H3 & _).
  cbn -[Z.pow]. unfold append_block. cbn zeta. hdr_simpl. rewrite !u32_small by lia.
  split_and!; done || lia.
Qed.

Lemma append_block_agree m last hs size x :
  0 <= size -> (x < last + 4 \/ last + 8 <= x) -> (x < hs \/ hs + 9 + size <= x) ->
  rd8 (append_block m last hs size) x = rd8 m x.
Proof. intros. unfold append_block. cbn zeta. by hdr_simpl. Qed.

Lemma append_block_zero m last hs size : zeroed (append_block m last hs size) (hs + 9) size.
Proof. intros x Hx. unfold append_block. by rewrite memset_8_rd, decide_True. Qed.

(** The first block of an empty heap. *)
Definition first_block (m : mem) (start size : Z) : mem :=
  let m := wr32 m start size in
  let m := wr32 m (start + 4) 0 in
  let m := wr8 m (start + 8) (bf_set 0 1 (rd8 m (start + 8)) 1) in
  memset_8 m (start + 9) 0 size.

Lemma first_block_chain m start size :
  0 <= size < 2 ^ 31 -> chain (first_block m start size) start [(size, true)] 0.
Proof.
  intros Hs. cbn -[Z.pow]. unfold first_block. cbn zeta. hdr_simpl.
  rewrite !u32_small by lia. done.
Qed.

Lemma first_block_zero m start size : zeroed (first_block m start size) (start + 9) size.
Proof. intros x Hx. unfold first_block. by rewrite memset_8_rd, decide_True. Qed.

(** ** [malloc_body] against the block structure *)

Lemma pad8_spec x : is_u32 x -> Z.land x (u32 (Z.lnot 7)) = 8 * (x / 8).
Proof.
  intros Hx. change (u32 (Z.lnot 7)) with (Z.ldiff (Z.ones 32) (Z.ones 3)).
  transitivity (Z.ldiff (Z.land x (Z.ones 32)) (Z.ones 3)).
  { apply Z.bits_inj'. intros i Hi. rewrite !Z.land_spec, !Z.ldiff_spec, Z.land_spec.
    by destruct (Z.testbit x i). }
  rewrite Z.land_ones by lia. rewrite Z.mod_small by done.
  rewrite Z.ldiff_ones_r, Z.shiftl_mul_pow2, Z.shiftr_div_pow2 by lia. change (2 ^ 3) with 8. lia.
Qed.

Definition total_of (size : Z) : Z :=
  i32 (u32 (Z.land (u32 (size + 7)) (u32 (Z.lnot 7)) + SIZEOF_KALLOC)).

Lemma total_of_range size :
  0 <= size <= 2 ^ 30 -> size + 9 <= total_of size <= size + 16.
Proof.
  intros H. unfold total_of, SIZEOF_KALLOC.
  rewrite (u32_small (size + 7)) by lia. rewrite pad8_spec by (unfold is_u32; lia).
  rewrite u32_small by zdm. rewrite i32_small by zdm. zdm.
Qed.

Lemma heap_rep_intro {P} (s : hstate P) bs :
  bs <> [] -> 0 < s.(h_start) -> s.(h_start) < s.(h_end) < 2 ^ 32 ->
  s.(h_head) = s.(h_start) -> chain s.(h_mem) s.(h_start) bs 0 ->
  s.(h_start) + span bs < s.(h_end) -> heap_rep s bs.
Proof. intros. unfold heap_rep. by destruct bs. Qed.

Lemma live_disjoint_perm m a bs tn q1 s1 q2 s2 l :
  chain m a bs tn -> live a bs ≡ₚ (q1, s1) :: l -> (q2, s2) ∈ l ->
  q1 + s1 <= q2 \/ q2 + s2 <= q1.
Proof.
  intros Hch Hp Hin. apply list_elem_of_lookup_1 in Hin as [i Hi].
  symmetry in Hp. apply Permutation_inj in Hp as (_ & f & Hf & Hl).
  enough (q1 + s1 < q2 \/ q2 + s2 < q1) by lia.
  eapply (live_disjoint _ _ _ _ (f 0%nat) (f (S i))); [exact Hch| | |].
  - rewrite <- Hl. done.
  - rewrite <- Hl. done.
  - intros He. by apply (inj f) in He.
Qed.

Lemma heap_live_disjoint {P} (s : hstate P) bs q1 s1 q2 s2 l :
  heap_rep s bs -> live s.(h_start) bs ≡ₚ (q1, s1) :: l -> (q2, s2) ∈ l ->
  q1 + s1 <= q2 \/ q2 + s2 <= q1.
Proof.
  intros (_ & _ & Hm) Hp Hin. destruct bs as [|b bs].
  - cbn in Hp. by apply Permutation_nil_cons in Hp.
  - eapply live_disjoint_perm; [apply Hm|done|done].
Qed.

(** Writes inside a block in use leave the structure of the heap. *)
Lemma chain_payload m m' a bs tn q sz :
  chain m a bs tn -> (q, sz) ∈ live a bs -> (forall x, x < q \/ q + sz <= x -> rd8 m' x = rd8 m x) ->
  chain m' a bs tn.
Proof.
  revert a. induction bs as [|[sz' u] bs IH]; intros a; cbn [live chain]; [done|].
  intros [(Hsz & H1 & H2 & H3) Hc] Hin Hx.
  assert (Hout : a + 9 <= q) by (apply (live_bounds m a ((sz', u) :: bs) tn q sz); done).
  rewrite (rd32_ext m' m), (rd32_ext m' m (a + 4)), (Hx (a + 8)) by (intros; apply Hx || idtac; lia).
  split; [done|]. apply elem_of_app in Hin as [Hin|Hin]; [|by apply IH].
  destruct u; [|by apply not_elem_of_nil in Hin]. apply list_elem_of_singleton in Hin. simplify_eq.
  eapply chain_agree; [|exact Hc]. intros x Hx'. apply Hx. lia.
Qed.

Lemma heap_rep_payload {P} (s : hstate P) bs q sz m' :
  heap_rep s bs -> (q, sz) ∈ live s.(h_start) bs -> (forall x, x < q \/ q + sz <= x -> rd8 m' x = rd8 s.(h_mem) x) ->
  heap_rep (set_mem (fun _ => m') s) bs.
Proof.
  intros (H1 & H2 & Hm) Hin Hx. split; [done|]. split; [done|]. destruct bs as [|b bs]; [done|].
  destruct Hm as (Hh & Hc & Hs). split_and!; [done| |done]. by eapply chain_payload.
Qed.

Lemma heap_live_apart {P} (s : hstate P) bs q1 s1 q2 s2 :
  heap_rep s bs -> (q1, s1) ∈ live s.(h_start) bs -> (q2, s2) ∈ live s.(h_start) bs -> q1 <> q2 ->
  q1 + s1 <= q2 \/ q2 + s2 <= q1.
Proof.
  intros (_ & _ & Hm) [i Hi]%list_elem_of_lookup [j Hj]%list_elem_of_lookup Hne. destruct bs as [|b bs]; [done|].
  destruct (live_disjoint _ _ _ _ i j _ _ _ _ (proj1 (proj2 Hm)) Hi Hj); [|lia..]. congruence.
Qed.

Lemma rep_bounds {P} (h : hstate P) bs q z :
  heap_rep h bs -> (q, z) ∈ live h.(h_start) bs -> h.(h_start) + 9 <= q /\ 0 <= z /\ q + z < 2 ^ 32.
Proof.
  intros (_ & He & Hm) Hin. destruct bs as [|b bs]; [by apply not_elem_of_nil in Hin|].
  destruct Hm as (_ & Hc & Hs). destruct (live_bounds _ _ _ _ _ _ Hc Hin). lia.
Qed.

(** A chain only depends on its headers. *)
Lemma chain_headers m m' a bs tn :
  (forall x, a <= x -> (forall q z, (q, z) ∈ live a bs -> x < q \/ q + z <= x) -> rd8 m' x = rd8 m x) ->
  chain m a bs tn -> chain m' a bs tn.
Proof.
  revert a. induction bs as [|[sz u] bs IH]; intros a Hx Hc; [done|].
  pose proof (chain_head _ _ _ _ _ _ Hc) as (Hsz & H1 & H2 & H3 & Hc').
  assert (Hh : forall x, a <= x < a + 9 -> rd8 m' x = rd8 m x).
  { intros x Hx'. apply Hx; [lia|]. intros q z Hq. destruct (live_bounds _ _ _ _ _ _ Hc Hq). lia. }
  cbn [chain]. rewrite (rd32_ext m' m a), (rd32_ext m' m (a + 4)), (Hh (a + 8)) by (intros; apply Hh || idtac; lia).
  split; [done|]. apply IH; [|done]. intros x Hx' Hq. apply Hx; [lia|]. intros q z Hin. cbn [live] in Hin.
  apply elem_of_app in Hin as [Hin|Hin]; [|by apply Hq]. destruct u; [|by apply not_elem_of_nil in Hin].
  apply list_elem_of_singleton in Hin. simplify_eq. lia.
Qed.

(** Writing into blocks in use keeps the heap well-formed. *)
Lemma heap_rep_write {P} (h : hstate P) bs f :
  heap_rep h bs ->
  (forall x, h.(h_start) <= x -> (forall q z, (q, z) ∈ live h.(h_start) bs -> x < q \/ q + z <= x) -> rd8 (f h.(h_mem)) x = rd8 h.(h_mem) x) ->
  heap_rep (set_mem f h) bs.
Proof.
  intros (H1 & H2 & Hm) Hx. split; [done|]. split; [done|]. destruct bs as [|b bs]; [done|]. destruct Hm as (Hh & Hc & Hs).
  split; [done|]. split; [|done]. by eapply chain_headers.
Qed.

Section malloc_proof.
Context {P : Type} (increase : Z -> cmd (hstate P) unit) (good : Z -> P -> Prop).
(** The heap may grow up to [top]. *)
Context (top : Z) (Htop : top <= 2 ^ 32).
Implicit Types (s : hstate P).

(** What the allocator relies on when it asks for more memory. *)
Hypothesis increase_ok : forall s t,
  good s.(h_end) s.(h_pages) -> 0 < s.(h_end) -> 0 < t < 2 ^ 31 ->
  s.(h_end) + t + 4096 < top ->
  wp (increase t) (fun _ s' =>
    s'.(h_mem) = s.(h_mem) /\ s'.(h_start) = s.(h_start) /\ s'.(h_head) = s.(h_head) /\
    s.(h_end) + t <= s'.(h_end) < s.(h_end) + t + 4096 /\ good s'.(h_end) s'.(h_pages)) s.

(** A request that cannot run past the end of the address space. *)
Definition room (size : Z) s : Prop :=
  0 <= size <= 2 ^ 30 /\ s.(h_end) + size + 16 + 4096 < top /\
  good s.(h_end) s.(h_pages) /\
  (s.(h_head) = 0 -> s.(h_start) + 9 + size < s.(h_end)).

Definition malloc_post s (bs : blocks) (size p : Z) s' : Prop :=
  exists bs' sz, heap_rep s' bs' /\ s'.(h_start) = s.(h_start) /\ p <> 0 /\ size <= sz /\
    live s.(h_start) bs' ≡ₚ (p, sz) :: live s.(h_start) bs /\
    zeroed s'.(h_mem) p sz /\ payload_kept s.(h_mem) s'.(h_mem) (live s.(h_start) bs) /\
    s.(h_end) <= s'.(h_end) <= s.(h_end) + size + 16 + 4096 /\
    good s'.(h_end) s'.(h_pages) /\ forall x, x < s.(h_start) -> rd8 s'.(h_mem) x = rd8 s.(h_mem) x.

Lemma malloc_first size s :
  heap_rep s [] -> room size s -> wp (malloc_body increase size) (malloc_post s [] size) s.
Proof.
  intros (Hst & Hend & Hh) (Hs & Hr & Hg & Hfit). specialize (Hfit Hh).
  unfold wp, malloc_body, bind, gets. rewrite Hh. cbn [Z.eqb].
  rewrite set_size_spec, set_next_spec, set_present_spec by done. cbn -[Z.pow].
  destruct (Z.eqb_spec s.(h_start) 0); [lia|].
  rewrite hdr_size_spec by done. cbn -[Z.pow].
  mem_simpl. unfold SIZEOF_KALLOC.
  rewrite (i32_small size) by lia. rewrite (u32_small size) by lia.
  rewrite (i32_small size) by lia. rewrite (u32_small size) by lia.
  rewrite (u32_small (h_start s + 9)) by lia.
  change (malloc_post s [] size (h_start s + 9)
    (set_head (h_start s) (set_mem (fun m => first_block m (h_start s) size) s))).
  exists [(size, true)], size.
  split; [|split_and!; cbn [set_mem set_head h_end]; try done; try lia; [apply first_block_zero| |]].
  - apply heap_rep_intro; cbn [h_start h_end h_head h_mem set_head set_mem]; try done.
    + apply first_block_chain. lia.
    + cbn. lia.
  - intros q sz Hin. by apply not_elem_of_nil in Hin.
  - intros x Hx. cbn [h_mem set_mem set_head]. unfold first_block. cbn zeta. by hdr_simpl.
Qed.

Lemma heap_rep_cons s b1 b b2 :
  heap_rep s (b1 ++ b :: b2) ->
  s.(h_head) = s.(h_start) /\ chain s.(h_mem) s.(h_start) (b1 ++ b :: b2) 0 /\
  s.(h_start) + span (b1 ++ b :: b2) < s.(h_end) /\ 0 < s.(h_start) /\
  s.(h_start) < s.(h_end) < 2 ^ 32.
Proof. intros (? & ? & Hm). destruct b1; cbn in Hm |- *; tauto. Qed.

(** The search stopped at the last block [(sz, u)]. *)
Lemma malloc_append size s b1 sz u :
  heap_rep s (b1 ++ [(sz, u)]) -> room size s ->
  find_item (Z.to_nat (s.(h_end) - s.(h_start))) s.(h_head) size s =
    Ret (s.(h_start) + span b1, s) ->
  wp (malloc_body increase size) (malloc_post s (b1 ++ [(sz, u)]) size) s.
Proof.
  intros Hrep (Hs & Hr & Hg & _) Hfind.
  apply heap_rep_cons in Hrep as (Hh & Hch & Hsp & Hst & Hend).
  pose proof (span_length _ (chain_sizes _ _ _ _ Hch)) as Hlen.
  rewrite span_app in Hsp, Hlen. cbn [span] in Hsp. rewrite length_app in Hlen.
  apply chain_app in Hch as [Hc1 Hc2]; [|done].
  pose proof (span_length _ (chain_sizes _ _ _ _ Hc1)) as Hlen1.
  set (item := s.(h_start) + span b1) in *.
  pose proof (chain_head _ _ _ _ _ _ Hc2) as (Hsz & H1 & H2 & H3 & _).
  pose proof (total_of_range size Hs) as Ht.
  unfold wp, malloc_body. fold (total_of size). unfold bind, gets, SIZEOF_KALLOC.
  destruct (Z.eqb_spec s.(h_head) 0); [lia|]. rewrite Hfind.
  rewrite hdr_next_spec, hdr_size_spec by lia. rewrite H1, H2, (i32_small sz) by lia.
  cbn [Z.eqb]. rewrite (u32_small (9 + sz)), (u32_small (total_of size)) by lia.
  rewrite (u32_small (item + _)) by lia.
  rewrite (u32_small (item + _ + _)) by lia.
  set (hs := item + (9 + sz)). set (s1 := if negb _ then _ else _ : cmd (hstate P) unit).
  assert (Hs1 : wp s1 (fun _ s' => s'.(h_mem) = s.(h_mem) /\ s'.(h_start) = s.(h_start) /\
      s'.(h_head) = s.(h_head) /\ hs + total_of size < s'.(h_end) < 2 ^ 32 /\
      s.(h_end) <= s'.(h_end) <= s.(h_end) + size + 16 + 4096 /\
      good s'.(h_end) s'.(h_pages)) s).
  { unfold s1. destruct (Z.ltb_spec (hs + total_of size) s.(h_end)); cbn [negb].
    - apply wp_ret. split_and!; done || lia.
    - eapply wp_mono; [apply increase_ok; try done; lia|]. cbn. intros _ s' (? & ? & ? & ? & ?).
      split_and!; try done; lia. }
  destruct (wp_inv _ _ _ Hs1) as ([] & s' & -> & Hm' & Hst' & Hh' & Hend' & Hgrow & Hg').
  rewrite (proj2 (Z.ltb_lt _ _)) by lia. cbn [negb].
  rewrite set_next_spec by lia. rewrite hdr_next_spec by lia.
  cbn -[Z.pow]. rewrite rd32_wr32_u32, (u32_small hs) by lia.
  rewrite set_size_spec, set_next_spec, set_present_spec by lia.
  unfold ret. destruct (Z.eqb_spec hs 0); [lia|].
  rewrite hdr_size_spec by lia. cbn -[Z.pow]. mem_simpl.
  rewrite (i32_small size), (u32_small size), (i32_small size), (u32_small size) by lia.
  rewrite (u32_small (hs + 9)) by lia.
  change (malloc_post s (b1 ++ [(sz, u)]) size (hs + 9)
    (set_mem (fun m => append_block m item hs size) s')).
  exists (b1 ++ [(sz, u); (size, true)]), size.
  split; [|split_and!; cbn [set_mem h_end]; try done; try lia].
  - apply heap_rep_intro; cbn [h_start h_end h_head h_mem set_mem]; try lia.
    + by destruct b1.
    + rewrite Hst', Hm'. apply chain_app; [done|]. fold item. split.
      * eapply chain_agree; [|exact Hc1]. intros x Hx. apply append_block_agree; lia.
      * unfold hs. replace (item + (9 + sz)) with (item + 9 + sz) by lia.
        apply append_block_chain; [done|lia..].
    + rewrite Hst', span_app. cbn [span]. lia.
  - rewrite !live_app. fold item. cbn [live].
    assert (item + 9 + sz + 9 = hs + 9) as -> by lia.
    rewrite !app_nil_r. cbn. rewrite app_assoc. apply Permutation_app_comm.
  - apply append_block_zero.
  - intros q qsz Hin x Hx. cbn [set_mem h_mem]. rewrite Hm'. apply append_block_agree; [lia|..].
    all: rewrite live_app in Hin; apply elem_of_app in Hin as [Hin | Hin].
    all: first [ apply (live_bounds _ _ _ _ _ _ Hc1) in Hin; lia
               | apply (live_bounds _ _ _ _ _ _ Hc2) in Hin; cbn [span] in Hin; lia ].
  - intros x Hx. cbn [set_mem h_mem]. rewrite Hm'. apply append_block_agree; lia.
Qed.

(** Rebuilding the representation after the free block [(sz, false)] became
    [(sz', true) :: rest]. *)
Lemma malloc_reuse size s b1 sz b2 m' sz' rest :
  heap_rep s (b1 ++ (sz, false) :: b2) -> b2 <> [] -> good s.(h_end) s.(h_pages) ->
  0 <= size <= sz' -> span ((sz', true) :: rest) = 9 + sz -> Forall (fun b => b.2 = false) rest ->
  (forall x, x < s.(h_start) + span b1 \/ s.(h_start) + span b1 + 9 + sz <= x ->
     rd8 m' x = rd8 s.(h_mem) x) ->
  chain m' (s.(h_start) + span b1) ((sz', true) :: rest) (s.(h_start) + span b1 + 9 + sz) ->
  zeroed m' (s.(h_start) + span b1 + 9) sz' ->
  malloc_post s (b1 ++ (sz, false) :: b2) size (s.(h_start) + span b1 + 9)
    (set_mem (fun _ => m') s).
Proof.
  intros Hrep Hne Hg Hle Hsp Hfree Hx Hnew Hz.
  apply heap_rep_cons in Hrep as (Hh & Hch & Hsp0 & Hst & Hend).
  pose proof (proj1 (chain_app _ _ _ ((sz, false) :: b2) _ ltac:(done)) Hch) as [Hc1 _].
  pose proof (span_length _ (chain_sizes _ _ _ _ Hc1)) as Hlen1.
  exists (b1 ++ ((sz', true) :: rest) ++ b2), sz'.
  assert (Hlf : forall a, live a rest = []).
  { clear - Hfree. induction Hfree as [|[r u] rest Hu _ IH]; intros a; [done|].
    cbn in Hu. subst u. cbn. apply IH. }
  split; [|split_and!; cbn [h_start h_end h_pages h_mem set_mem]; try done; try lia].
  - apply heap_rep_intro; cbn [h_start h_end h_head h_mem set_mem]; try done.
    + by destruct b1.
    + eapply chain_replace; [exact Hch|done|done|done|]. by destruct b2.
    + rewrite !span_app in *. cbn [span] in Hsp0. lia.
  - rewrite !live_app. cbn [live]. rewrite Hlf, Hsp. cbn.
    replace (h_start s + span b1 + (9 + sz)) with (h_start s + span b1 + 9 + sz) by lia.
    by rewrite Permutation_middle.
  - eapply payload_kept_outside; [exact Hch|done|done].
  - intros x Hx'. apply Hx. lia.
Qed.

(** The search stopped at a free block in the middle. *)
Lemma malloc_middle size s b1 sz b2 :
  heap_rep s (b1 ++ (sz, false) :: b2) -> b2 <> [] -> room size s -> size <= sz ->
  find_item (Z.to_nat (s.(h_end) - s.(h_start))) s.(h_head) size s =
    Ret (s.(h_start) + span b1, s) ->
  wp (malloc_body increase size) (malloc_post s (b1 ++ (sz, false) :: b2) size) s.
Proof.
  intros Hrep Hne (Hs & Hr & Hg & _) Hle Hfind.
  pose proof (heap_rep_cons _ _ _ _ Hrep) as (Hh & Hch & Hsp & Hst & Hend).
  rewrite span_app in Hsp. cbn [span] in Hsp.
  apply chain_app in Hch as [Hc1 Hc2]; [|done].
  pose proof (span_length _ (chain_sizes _ _ _ _ Hc1)) as Hlen1.
  pose proof (chain_head _ _ _ _ _ _ Hc2) as (Hsz & H1 & H2 & H3 & Hc3).
  pose proof (span_length _ (chain_sizes _ _ _ _ Hc3)) as Hlen2.
  assert (H2' : rd32 s.(h_mem) (s.(h_start) + span b1 + 4) = s.(h_start) + span b1 + 9 + sz)
    by (by destruct b2).
  unfold wp, malloc_body. unfold bind, gets, SIZEOF_KALLOC.
  destruct (Z.eqb_spec s.(h_head) 0); [lia|]. rewrite Hfind.
  rewrite hdr_next_spec, hdr_size_spec by lia. rewrite H1, H2', (i32_small sz) by lia.
  destruct (Z.eqb_spec (h_start s + span b1 + 9 + sz) 0); [lia|].
  rewrite (u32_small (sz - size)), (i32_small (sz - size)) by lia.
  assert (Hnosplit : malloc_post s (b1 ++ (sz, false) :: b2) size (h_start s + span b1 + 9)
            (set_mem (fun m => use_block m (h_start s + span b1) sz) s)).
  { apply (malloc_reuse size s b1 sz b2 (use_block s.(h_mem) (h_start s + span b1) sz) sz []);
      try done; [lia|cbn; lia|..].
    - intros. apply use_block_agree; [lia|done].
    - eapply use_block_chain in Hc2. by destruct b2.
    - apply use_block_zero. }
  destruct (Z.ltb_spec 0 (sz - size)); [destruct (Z.leb_spec (9 + 1) (sz - size))|].
  - rewrite set_size_spec, hdr_size_spec by lia. cbn -[Z.pow]. mem_simpl.
    rewrite (i32_small size), (u32_small size), (i32_small size) by lia.
    rewrite (u32_small (9 + size)), (u32_small (h_start s + span b1 + _)) by lia.
    rewrite set_present_spec, set_next_spec, set_size_spec, set_present_spec, set_next_spec by lia.
    unfold ret. destruct (Z.eqb_spec (h_start s + span b1) 0); [lia|].
    rewrite hdr_size_spec by lia. cbn -[Z.pow]. hdr_simpl.
    rewrite (u32_small (sz - size - 9)), (i32_small (sz - size - 9)) by lia.
    rewrite (u32_small size), (i32_small size), (u32_small size), (u32_small (_ + _ + 9)) by lia.
    replace (h_start s + span b1 + (9 + size)) with (h_start s + span b1 + 9 + size) by lia.
    apply (malloc_reuse size s b1 sz b2
      (split_block s.(h_mem) (h_start s + span b1) size (sz - size - 9)
         (h_start s + span b1 + 9 + sz)) size [(sz - size - 9, false)]); try done; try lia.
    + cbn. lia.
    + by repeat constructor.
    + intros. apply split_block_agree; lia.
    + apply split_block_chain; unfold is_u32; lia.
    + apply split_block_zero.
  - rewrite set_present_spec by lia. unfold ret.
    destruct (Z.eqb_spec (h_start s + span b1) 0); [lia|].
    rewrite hdr_size_spec by lia. cbn -[Z.pow]. hdr_simpl.
    rewrite H1, (i32_small sz), (u32_small sz), (u32_small (_ + _ + 9)) by lia. exact Hnosplit.
  - rewrite set_present_spec by lia. unfold ret.
    destruct (Z.eqb_spec (h_start s + span b1) 0); [lia|].
    rewrite hdr_size_spec by lia. cbn -[Z.pow]. hdr_simpl.
    rewrite H1, (i32_small sz), (u32_small sz), (u32_small (_ + _ + 9)) by lia. exact Hnosplit.
Qed.

Lemma malloc_body_correct size s bs :
  heap_rep s bs -> room size s -> wp (malloc_body increase size) (malloc_post s bs size) s.
Proof.
  intros Hrep Hroom. destruct bs as [|b bs]; [by apply malloc_first|].
  pose proof (heap_rep_cons s [] b bs Hrep) as (Hh & Hch & Hsp & Hst & Hend). cbn [app] in Hch, Hsp.
  pose proof (span_length _ (chain_sizes _ _ _ _ Hch)) as Hlen.
  destruct (find_item_spec (Z.to_nat (s.(h_end) - s.(h_start))) s.(h_head) (b :: bs) size s)
    as (item & Hfi & b1 & sz & u & b2 & Hb & Hit & Hor); try done.
  { by rewrite Hh. }
  { lia. }
  { destruct Hroom as [? _]. lia. }
  { lia. }
  rewrite Hb in Hrep |- *. subst item. rewrite Hh in Hfi at 2.
  destruct b2 as [|b2h b2]; [by apply malloc_append|].
  destruct Hor as [?|[-> ?]]; [done|]. by apply malloc_middle.
Qed.
End malloc_proof.

(** ** The two clients of [malloc_body] *)

Section kernel_heap_proof.
Context {P : Type} `{PageSupply P}.
Implicit Types (s : hstate P).

Definition pages_good (_ : Z) (p : P) : Prop := supply_ok p.

(** Growing the heap keeps what every new page keeps. *)
Section growing.
Variable I : P -> Prop.
Hypothesis I_kept : forall va p, I p -> 0 < va < HEAP_TOP -> wp (supply_page va) (fun _ => I) p.

Lemma increase_page_spec s :
  I s.(h_pages) -> s.(h_end) + 4096 < HEAP_TOP -> 0 < s.(h_end) ->
  wp increase_page (fun _ s' =>
    s'.(h_mem) = s.(h_mem) /\ s'.(h_start) = s.(h_start) /\ s'.(h_head) = s.(h_head) /\
    s'.(h_end) = s.(h_end) + 4096 /\ I s'.(h_pages)) s.
Proof.
  intros Hg He H0. unfold HEAP_TOP in *. unfold increase_page, wp, bind, gets, on_pages, modify.
  destruct (wp_inv _ _ _ (I_kept s.(h_end) s.(h_pages) Hg ltac:(unfold HEAP_TOP; lia))) as ([] & p & -> & Hp).
  cbn [h_mem h_start h_head h_end h_pages]. unfold HEAP_PAGE. rewrite u32_small by lia. done.
Qed.

Lemma increase_heap_keeps s t :
  I s.(h_pages) -> 0 < s.(h_end) -> 0 < t < 2 ^ 31 ->
  s.(h_end) + t + 4096 < HEAP_TOP ->
  wp (increase_heap t) (fun _ s' =>
    s'.(h_mem) = s.(h_mem) /\ s'.(h_start) = s.(h_start) /\ s'.(h_head) = s.(h_head) /\
    s.(h_end) + t <= s'.(h_end) < s.(h_end) + t + 4096 /\ I s'.(h_pages)) s.
Proof.
  intros Hg H0 Ht He. unfold increase_heap, HEAP_PAGE in *.
  set (n := if 0 <? t mod 4096 then i32 (t / 4096) + 1 else i32 (t / 4096)).
  assert (Hn : t <= 4096 * n < t + 4096).
  { unfold n. rewrite i32_small by zdm. destruct (Z.ltb_spec 0 (t mod 4096)); zdm. }
  eapply wp_mono; [apply (wp_for (fun i s' =>
    s'.(h_mem) = s.(h_mem) /\ s'.(h_start) = s.(h_start) /\ s'.(h_head) = s.(h_head) /\
    s'.(h_end) = s.(h_end) + 4096 * i /\ I s'.(h_pages)))|].
  - split_and!; done || lia.
  - intros i s' Hi (? & ? & ? & Hi' & ?).
    eapply wp_mono; [apply increase_page_spec; try done; lia|].
    cbn. intros _ s'' (? & ? & ? & ? & ?). split_and!; try congruence; lia || done.
  - cbn. intros _ s' (? & ? & ? & ? & ?). rewrite Z2Nat.id in * by lia. split_and!; done || lia.
Qed.
End growing.

Lemma increase_heap_ok s t :
  pages_good s.(h_end) s.(h_pages) -> 0 < s.(h_end) -> 0 < t < 2 ^ 31 ->
  s.(h_end) + t + 4096 < HEAP_TOP ->
  wp (increase_heap t) (fun _ s' =>
    s'.(h_mem) = s.(h_mem) /\ s'.(h_start) = s.(h_start) /\ s'.(h_head) = s.(h_head) /\
    s.(h_end) + t <= s'.(h_end) < s.(h_end) + t + 4096 /\
    pages_good s'.(h_end) s'.(h_pages)) s.
Proof. apply (increase_heap_keeps supply_ok). exact supply_safe. Qed.

Lemma heap_rep_head s bs : heap_rep s bs -> s.(h_head) = 0 -> bs = [].
Proof. destruct bs; [done|]. intros (Hs & _ & Hh & _) Hz. lia. Qed.

(** C1: [kern_malloc] on a well-formed heap whose page supply is in order, for a
    request of at most 2^30 bytes for which the heap can still grow below its top
    (by the request, a header and a page) and which, if nothing was ever allocated,
    fits into the heap as it is: it returns, a non-null block of at least [size]
    bytes, cleared to zero, disjoint from every block in use, whose contents it
    leaves alone, and the heap is well-formed again.  The first request of all is
    not checked against the end of the heap, which is why it has to fit
    ([first_malloc_unchecked] is what happens otherwise). *)
Theorem kern_malloc_correct size s bs :
  heap_rep s bs -> supply_ok s.(h_pages) ->
  0 <= size <= 2 ^ 30 -> s.(h_end) + size + 16 + 4096 < HEAP_TOP ->
  (bs = [] -> s.(h_start) + 9 + size < s.(h_end)) ->
  wp (kern_malloc size) (fun p s' => exists bs' sz,
    heap_rep s' bs' /\ p <> 0 /\ size <= sz /\
    live s.(h_start) bs' ≡ₚ (p, sz) :: live s.(h_start) bs /\
    (forall q qsz, (q, qsz) ∈ live s.(h_start) bs -> p + sz <= q \/ q + qsz <= p) /\
    zeroed s'.(h_mem) p sz /\
    payload_kept s.(h_mem) s'.(h_mem) (live s.(h_start) bs)) s.
Proof.
  intros Hrep Hg Hs Ht Hfirst. eapply wp_mono.
  { apply (malloc_body_correct _ pages_good HEAP_TOP); [by vm_compute|exact increase_heap_ok|done|].
    unfold room. split_and!; [lia|lia|done|done|]. intros Hh. apply Hfirst. by apply (heap_rep_head s). }
  cbn. intros p s' (bs' & sz & Hrep' & Hst & Hp & Hsz & Hlive & Hz & Hk & _ & _).
  exists bs', sz. split_and!; try done.
  intros q qsz Hin. eapply heap_live_disjoint; [exact Hrep'|by rewrite Hst|done].
Qed.
End kernel_heap_proof.

(** ** Freeing *)

Lemma live_split a bs q sz :
  (q, sz) ∈ live a bs ->
  exists b1 b2, bs = b1 ++ (sz, true) :: b2 /\ q = a + span b1 + 9.
Proof.
  revert a. induction bs as [|[z u] bs IH]; intros a; cbn [live].
  { intros Hin. by apply not_elem_of_nil in Hin. }
  intros Hin. apply elem_of_app in Hin as [Hin | Hin].
  - destruct u; [|by apply not_elem_of_nil in Hin].
    apply list_elem_of_singleton in Hin. simplify_eq. exists [], bs. split; [done|cbn; lia].
  - destruct (IH _ Hin) as (b1 & b2 & -> & ->). exists ((z, u) :: b1), b2.
    split; [done|cbn; lia].
Qed.

Definition free_block (m : mem) (item : Z) : mem :=
  wr8 m (item + 8) (bf_set 0 1 (rd8 m (item + 8)) 0).

Lemma free_block_agree m item x : x <> item + 8 -> rd8 (free_block m item) x = rd8 m x.
Proof. intros. unfold free_block. by mem_simpl. Qed.

Lemma free_block_chain m item sz u tn :
  chain m item [(sz, u)] tn -> chain (free_block m item) item [(sz, false)] tn.
Proof.
  intros Hch. pose proof (chain_head _ _ _ _ _ _ Hch) as (Hsz & H1 & H2 & H3 & _).
  cbn -[Z.pow]. unfold free_block. hdr_simpl. done.
Qed.

Section free_proof.
Context {P : Type}.
Implicit Types (s : hstate P).

Definition free_post s (bs : blocks) (q sz : Z) s' : Prop :=
  exists bs', heap_rep s' bs' /\ s'.(h_start) = s.(h_start) /\ s'.(h_end) = s.(h_end) /\
    s'.(h_pages) = s.(h_pages) /\ s'.(h_head) = s.(h_head) /\
    (q, sz) :: live s.(h_start) bs' ≡ₚ live s.(h_start) bs /\
    payload_kept s.(h_mem) s'.(h_mem) (live s.(h_start) bs).

Lemma kern_free_spec s bs q sz :
  heap_rep s bs -> (q, sz) ∈ live s.(h_start) bs ->
  wp (kern_free q) (fun _ => free_post s bs q sz) s.
Proof.
  intros Hrep Hin. apply live_split in Hin as (b1 & b2 & -> & ->).
  pose proof (heap_rep_cons _ _ _ _ Hrep) as (Hh & Hch & Hsp & Hst & Hend).
  pose proof (chain_sizes _ _ _ _ Hch) as Hsizes.
  pose proof (proj1 (chain_app _ _ _ ((sz, true) :: b2) _ ltac:(done)) Hch) as [Hc1 Hc2].
  pose proof (span_length _ (chain_sizes _ _ _ _ Hc1)) as Hlen1.
  pose proof (chain_head _ _ _ _ _ _ Hc2) as (Hsz & H1 & H2 & H3 & Hc3).
  pose proof (span_length _ (chain_sizes _ _ _ _ Hc3)) as Hlen2.
  rewrite span_app in Hsp. cbn [span] in Hsp.
  unfold wp, kern_free, SIZEOF_KALLOC.
  replace (h_start s + span b1 + 9 - 9) with (h_start s + span b1) by lia.
  rewrite u32_small by lia. rewrite set_present_spec by lia.
  change (free_post s (b1 ++ (sz, true) :: b2) (h_start s + span b1 + 9) sz
    (set_mem (fun m => free_block m (h_start s + span b1)) s)).
  exists (b1 ++ [(sz, false)] ++ b2).
  split; [|split_and!; try done].
  - apply heap_rep_intro; cbn [h_start h_end h_head h_mem set_mem]; try done.
    + by destruct b1.
    + eapply chain_replace; [exact Hch|done|cbn; lia| |].
      * intros. apply free_block_agree. lia.
      * eapply (free_block_chain _ _ _ true). cbn [chain]. split; [|done].
        rewrite H1, H2, H3. destruct b2; done.
    + rewrite !span_app. cbn [span]. lia.
  - rewrite !live_app. cbn. replace (h_start s + span b1 + (9 + sz + 0)) with
      (h_start s + span b1 + 9 + sz) by lia. by rewrite Permutation_middle.
  - intros q qsz Hin x Hx. cbn [set_mem h_mem]. apply free_block_agree.
    rewrite live_app in Hin. cbn [live] in Hin.
    apply elem_of_app in Hin as [Hin | [Hin | Hin]%elem_of_app].
    + apply (live_bounds _ _ _ _ _ _ Hc1) in Hin. lia.
    + apply list_elem_of_singleton in Hin. simplify_eq. lia.
    + apply (live_bounds _ _ _ _ _ _ Hc3) in Hin. lia.
Qed.
End free_proof.

(** C30: [kern_free] of a block in use takes exactly that block out of use:
    every other block stays in use where it was, no payload byte changes
    (the freed block's included), and the heap stays well-formed. *)
Theorem kern_free_correct {P} (s : hstate P) bs q sz :
  heap_rep s bs -> (q, sz) ∈ live s.(h_start) bs ->
  wp (kern_free q) (fun _ s' => exists bs', heap_rep s' bs' /\
    (q, sz) :: live s.(h_start) bs' ≡ₚ live s.(h_start) bs /\
    payload_kept s.(h_mem) s'.(h_mem) (live s.(h_start) bs)) s.
Proof.
  intros Hrep Hin. eapply wp_mono; [by apply kern_free_spec|].
  intros _ s' (bs' & ? & ? & ? & ? & ? & ? & ?). by exists bs'.
Qed.

Section user_heap_proof.
Context {P : Type} `{Sbrk P}.
Implicit Types (s : hstate P).

Lemma alloc_increase_ok s t :
  sbrk_ok s.(h_end) s.(h_pages) -> 0 < s.(h_end) -> 0 < t < 2 ^ 31 ->
  s.(h_end) + t + 4096 < 2 ^ 32 ->
  wp (alloc_increase_memory t) (fun _ s' =>
    s'.(h_mem) = s.(h_mem) /\ s'.(h_start) = s.(h_start) /\ s'.(h_head) = s.(h_head) /\
    s.(h_end) + t <= s'.(h_end) < s.(h_end) + t + 4096 /\
    sbrk_ok s'.(h_end) s'.(h_pages)) s.
Proof.
  intros Hg H0 Ht He. unfold wp, alloc_increase_memory. rewrite i32_small by lia.
  by destruct (wp_inv _ _ _ (sbrk_grows _ _ _ Hg H0 Ht He)) as (e' & p & -> & Hp).
Qed.

(** [alloc_reallocate] frees the block and allocates a new one, which it
    clears: no byte of the old contents is carried over, whatever block is
    returned. *)
Theorem alloc_reallocate_discards size s bs q sz :
  heap_rep s bs -> room sbrk_ok (2 ^ 32) size s -> (q, sz) ∈ live s.(h_start) bs ->
  wp (alloc_reallocate q size) (fun p s' => exists bs' psz,
    heap_rep s' bs' /\ size <= psz /\ (p, psz) ∈ live s.(h_start) bs' /\
    zeroed s'.(h_mem) p psz) s.
Proof.
  intros Hrep (Hs & Hr & Hg & Hfit) Hin. unfold alloc_reallocate, alloc_free. apply wp_bind.
  eapply wp_mono; [by apply kern_free_spec|].
  intros _ s1 (bs1 & Hrep1 & Hst & Hend & Hpg & Hhd & Hlive & Hk).
  eapply wp_mono.
  { apply (malloc_body_correct _ sbrk_ok (2 ^ 32) ltac:(done) alloc_increase_ok size s1 bs1); [done|].
    unfold room. rewrite Hend, Hpg, Hhd, Hst. done. }
  cbn. intros p s' (bs' & psz & Hrep' & _ & _ & Hsz & Hl & Hz & _).
  exists bs', psz. rewrite Hst in Hl. split_and!; try done.
  rewrite Hl. by left.
Qed.
End user_heap_proof.

(** ** The heap as an allocator for the kernel's data structures *)

Lemma live_bounds_fst m a bs tn q : chain m a bs tn -> q ∈ (live a bs).*1 -> a + 9 <= q.
Proof.
  intros Hch ([q' sz] & -> & Hin)%list_elem_of_fmap. by destruct (live_bounds _ _ _ _ _ _ Hch Hin).
Qed.

Lemma live_nodup m a bs tn : chain m a bs tn -> NoDup (live a bs).*1.
Proof.
  revert a. induction bs as [|[sz u] bs IH]; intros a Hch; [constructor|].
  pose proof (chain_head _ _ _ _ _ _ Hch) as (Hsz & _ & _ & _ & Hc). cbn.
  destruct u; cbn; [|by apply IH]. constructor; [|by apply IH].
  intros Hin. apply (live_bounds_fst _ _ _ _ _ Hc) in Hin. lia.
Qed.

Lemma heap_live_nodup {P} (s : hstate P) bs : heap_rep s bs -> NoDup (live s.(h_start) bs).*1.
Proof.
  intros (_ & _ & Hm). destruct bs as [|b bs]; [constructor|]. eapply live_nodup, Hm.
Qed.

(** The blocks of a state as far as its memory determines them: the walk from
    [h_start] to the header whose [next] is NULL. *)
Fixpoint walk (fuel : nat) (m : mem) (a : Z) : blocks :=
  match fuel with
  | O => []
  | S fuel' =>
      let b := (i32 (rd32 m a), bf_get 0 1 (rd8 m (a + 8)) =? 1) in
      if rd32 m (a + 4) =? 0 then [b] else b :: walk fuel' m (rd32 m (a + 4))
  end.

Lemma walk_chain fuel m a bs :
  chain m a bs 0 -> bs <> [] -> 0 < a -> (length bs <= fuel)%nat -> walk fuel m a = bs.
Proof.
  revert a bs. induction fuel as [|fuel IH]; intros a bs Hch Hne Ha Hf.
  { destruct bs; [done|cbn in Hf; lia]. }
  destruct bs as [|[sz u] bs]; [done|].
  pose proof (chain_head _ _ _ _ _ _ Hch) as (Hsz & H1 & H2 & H3 & Hc).
  cbn [walk]. rewrite H1, H2, H3, i32_small by lia.
  assert (((if u then 1 else 0) =? 1) = u) as -> by (by destruct u).
  destruct bs as [|b bs]; [done|].
  destruct (Z.eqb_spec (a + 9 + sz) 0); [lia|]. rewrite (IH _ (b :: bs)); try done; try lia.
  cbn in *; lia.
Qed.

Definition heap_blocks {P} (s : hstate P) : blocks :=
  if s.(h_head) =? 0 then []
  else walk (Z.to_nat (s.(h_end) - s.(h_start))) s.(h_mem) s.(h_start).

Lemma heap_blocks_rep {P} (s : hstate P) bs : heap_rep s bs -> heap_blocks s = bs.
Proof.
  intros (Hst & Hend & Hm). unfold heap_blocks. destruct bs as [|b bs].
  - by rewrite Hm.
  - destruct Hm as (Hh & Hch & Hsp). rewrite Hh. destruct (Z.eqb_spec (h_start s) 0); [lia|].
    pose proof (span_length _ (chain_sizes _ _ _ _ Hch)).
    apply walk_chain; try done. cbn [length] in *. lia.
Qed.

Section heap_allocator.
Context {P : Type} `{PageSupply P}.
Implicit Types (s : hstate P).

Definition heap_inv s : Prop :=
  heap_rep s (heap_blocks s) /\ supply_ok s.(h_pages) /\ KERNEL_HEAP_INIT_ADDR <= s.(h_start).
Definition heap_room (k : nat) s : Prop :=
  s.(h_end) + 8192 * Z.of_nat k < HEAP_TOP /\ s.(h_start) + 9 + SMALL < s.(h_end).

Lemma heap_inv_rep s bs :
  heap_rep s bs -> supply_ok s.(h_pages) -> KERNEL_HEAP_INIT_ADDR <= s.(h_start) -> heap_inv s.
Proof. intros Hr Hp Hs. unfold heap_inv. by rewrite (heap_blocks_rep _ _ Hr). Qed.

Lemma heap_room_mono k s : heap_room (S k) s -> heap_room k s.
Proof. unfold heap_room. lia. Qed.

Lemma live_length a bs : (length (live a bs) <= length bs)%nat.
Proof. revert a. induction bs as [|[sz []] bs IH]; intros a; cbn; [lia|..]; specialize (IH (a + 9 + sz)); lia. Qed.

Definition heap_extent s : gmap Z Z := list_to_map (live s.(h_start) (heap_blocks s)).

Lemma heap_extent_rep s bs : heap_rep s bs -> heap_extent s = list_to_map (live s.(h_start) bs).
Proof. intros Hr. unfold heap_extent. by rewrite (heap_blocks_rep _ _ Hr). Qed.

Lemma heap_extent_lookup s bs q sz :
  heap_rep s bs -> heap_extent s !! q = Some sz <-> (q, sz) ∈ live s.(h_start) bs.
Proof.
  intros Hr. rewrite (heap_extent_rep _ _ Hr). symmetry.
  apply elem_of_list_to_map. by eapply heap_live_nodup.
Qed.

Lemma heap_count_law s : heap_inv s -> Z.of_nat (size (heap_extent s)) < 2 ^ 29.
Proof.
  intros [Hrep _]. unfold heap_extent. rewrite map_size_list_to_map by (by apply heap_live_nodup).
  pose proof (live_length (h_start s) (heap_blocks s)).
  destruct Hrep as (? & ? & Hm). destruct (heap_blocks s) as [|b bs]; [cbn in *; lia|].
  destruct Hm as (_ & Hch & Hsp). pose proof (span_length _ (chain_sizes _ _ _ _ Hch)). lia.
Qed.

Lemma heap_apart_law s p n q m :
  heap_inv s -> heap_extent s !! p = Some n -> heap_extent s !! q = Some m -> p <> q ->
  p + n < q \/ q + m < p.
Proof.
  intros [Hrep _] Hp Hq Hne. rewrite heap_extent_lookup in Hp, Hq by done.
  destruct Hrep as (_ & _ & Hm). destruct (heap_blocks s) as [|b bs]; [by apply not_elem_of_nil in Hp|].
  apply list_elem_of_lookup_1 in Hp as [i Hi], Hq as [j Hj].
  eapply (live_disjoint _ _ _ _ i j); [apply Hm|done|done|]. intros ->. congruence.
Qed.

Lemma heap_zone_law s p n :
  heap_inv s -> heap_extent s !! p = Some n -> KERNEL_HEAP_INIT_ADDR <= p /\ p + n < 2 ^ 32.
Proof.
  intros (Hrep & _ & Hst) Hp. rewrite heap_extent_lookup in Hp by done.
  destruct Hrep as (? & ? & Hm). destruct (heap_blocks s) as [|b bs]; [by apply not_elem_of_nil in Hp|].
  destruct Hm as (_ & Hch & Hsp). destruct (live_bounds _ _ _ _ _ _ Hch Hp). lia.
Qed.

Lemma heap_malloc_law n k s :
  heap_inv s -> heap_room (S k) s -> 0 <= n <= SMALL ->
  wp (kern_malloc n) (fun p s' => exists m,
    0 < p /\ p + m < 2 ^ 32 /\ n <= m /\ heap_extent s !! p = None /\
    heap_extent s' = <[p := m]> (heap_extent s) /\ heap_inv s' /\ heap_room k s') s.
Proof.
  intros (Hrep & Hp & Hbase) [Hr1 Hr2] Hn. unfold SMALL in *. eapply wp_mono.
  { apply (malloc_body_correct _ pages_good HEAP_TOP ltac:(by vm_compute) increase_heap_ok n s
             (heap_blocks s)); [done|].
    unfold room. split_and!; try done; lia. }
  cbn. intros p s' (bs' & sz & Hrep' & Hst & Hp0 & Hsz & Hl & _ & _ & Hend & Hg & _).
  pose proof (heap_live_nodup _ _ Hrep') as Hnd. rewrite Hst in Hnd.
  pose proof Hnd as Hnd'. rewrite (Permutation_map fst Hl) in Hnd'. apply NoDup_cons in Hnd' as [Hnin _].
  assert (Hbound : 0 < p /\ p + sz < 2 ^ 32).
  { destruct Hrep' as (? & ? & Hm). rewrite Hst in *. destruct bs' as [|b bs'].
    { cbn in Hl. by apply Permutation_nil_cons in Hl. }
    destruct Hm as (_ & Hch & Hspan).
    destruct (live_bounds _ _ _ _ p sz Hch); [rewrite Hl; by left|lia]. }
  exists sz. split_and!; try done || lia.
  - rewrite (heap_extent_rep _ _ Hrep). by apply not_elem_of_list_to_map_1.
  - rewrite (heap_extent_rep _ _ Hrep), (heap_extent_rep _ _ Hrep'), Hst.
    change (<[p := sz]> _) with (list_to_map (M := gmap Z Z) ((p, sz) :: live (h_start s) (heap_blocks s))).
    by apply list_to_map_proper.
  - eapply heap_inv_rep; [done|done|by rewrite Hst].
  - unfold heap_room, SMALL. lia.
Qed.

Lemma heap_free_law p k s :
  heap_inv s -> heap_room k s -> is_Some (heap_extent s !! p) ->
  wp (kern_free p) (fun _ s' =>
    heap_extent s' = delete p (heap_extent s) /\ heap_inv s' /\ heap_room k s') s.
Proof.
  intros (Hrep & Hp & Hbase) Hr [sz Hin]. rewrite heap_extent_lookup in Hin by done.
  eapply wp_mono; [by apply kern_free_spec|].
  intros _ s' (bs' & Hrep' & Hst & Hend & Hpg & _ & Hl & _).
  pose proof (heap_live_nodup _ _ Hrep) as Hnd. pose proof Hnd as Hnd'.
  rewrite <- (Permutation_map fst Hl) in Hnd'. apply NoDup_cons in Hnd' as [Hnin _].
  split_and!.
  - rewrite (heap_extent_rep _ _ Hrep), (heap_extent_rep _ _ Hrep'), Hst.
    assert (list_to_map (live (h_start s) (heap_blocks s)) =@{gmap Z Z}
            list_to_map ((p, sz) :: live (h_start s) bs')) as -> by (by apply list_to_map_proper).
    cbn [list_to_map foldr uncurry]. rewrite delete_insert_id; [done|]. by apply not_elem_of_list_to_map_1.
  - eapply heap_inv_rep; [done|by rewrite Hpg|by rewrite Hst].
  - unfold heap_room in *. by rewrite Hend, Hst.
Qed.

Lemma heap_base_nonneg : 0 <= KERNEL_HEAP_INIT_ADDR.
Proof. by vm_compute. Qed.

(** The byte that freeing NULL clears lies above the heap. *)
Lemma heap_free_null k s :
  heap_inv s -> heap_room k s ->
  wp (kern_free 0) (fun _ s' => heap_extent s' = heap_extent s /\ heap_inv s' /\ heap_room k s') s.
Proof.
  intros (Hrep & Hp & Hbase) Hr. unfold wp, kern_free. change (u32 (0 - SIZEOF_KALLOC)) with 4294967287.
  rewrite set_present_spec by lia. set (s' := set_mem _ s).
  assert (Hrep' : heap_rep s' (heap_blocks s)).
  { destruct Hrep as (? & ? & Hm). unfold heap_rep. cbn [h_start h_end h_head h_mem s' set_mem].
    split; [done|]. split; [done|].
    destruct (heap_blocks s) as [|b bs]; [done|]. destruct Hm as (? & Hch & ?). split_and!; try done.
    eapply chain_agree; [|exact Hch]. intros x Hx. apply rd8_wr8_ne.
    unfold heap_room, HEAP_TOP in Hr. lia. }
  split_and!; [|by apply (heap_inv_rep s' _ Hrep')|done].
  by rewrite (heap_extent_rep _ _ Hrep), (heap_extent_rep _ _ Hrep').
Qed.

#[export] Instance heap_allocator : Allocator (hstate P) := {|
  a_malloc := kern_malloc; a_free := kern_free; a_inv := heap_inv; a_extent := heap_extent;
  a_room := heap_room; a_base := KERNEL_HEAP_INIT_ADDR; a_top := 2 ^ 32;
  a_base_nonneg := heap_base_nonneg; a_zone := heap_zone_law;
  a_count := heap_count_law; a_apart := heap_apart_law;
  a_room_mono := heap_room_mono; a_malloc_ok := heap_malloc_law; a_free_ok := heap_free_law;
  a_free_null := heap_free_null |}.
End heap_allocator.

(** ** A concrete page supply, and the operations run on it *)

Definition pages_counted (p : Z) : Prop := 0 <= p.

Lemma count_pages_safe (va p : Z) :
  pages_counted p -> 0 < va < HEAP_TOP -> wp (modify (fun n => n + 1)) (fun _ => pages_counted) p.
Proof. unfold pages_counted, wp, modify. lia. Qed.

#[local] Instance count_pages : PageSupply Z := {|
  supply_page _ := modify (fun n => n + 1);
  supply_ok := pages_counted;
  supply_safe := count_pages_safe |}.

(** An empty heap of one page. *)
Definition demo_heap : hstate Z := HState 4096 0xD0000000 0xD0001000 0 ∅ 1.

(** Three blocks of 32 bytes, the second one freed. *)
Definition demo_run : cmd (hstate Z) Z :=
  a <- kern_malloc 32 ;; b <- kern_malloc 32 ;; c <- kern_malloc 32 ;; kern_free b ;;; ret b.
Definition demo_heap3 : hstate Z :=
  match demo_run demo_heap with Ret (_, s) => s | _ => demo_heap end.


Lemma demo_heap3_rep : heap_rep demo_heap3 [(32, true); (32, false); (32, true)].
Proof. vm_compute. done. Qed.

Lemma kern_malloc_correct_witness :
  wp (kern_malloc 20) (fun p s' => exists bs' sz,
    heap_rep s' bs' /\ p <> 0 /\ 20 <= sz /\
    live demo_heap3.(h_start) bs' ≡ₚ
      (p, sz) :: live demo_heap3.(h_start) [(32, true); (32, false); (32, true)] /\
    (forall q qsz, (q, qsz) ∈ live demo_heap3.(h_start) [(32, true); (32, false); (32, true)] ->
       p + sz <= q \/ q + qsz <= p) /\
    zeroed s'.(h_mem) p sz /\
    payload_kept demo_heap3.(h_mem) s'.(h_mem)
      (live demo_heap3.(h_start) [(32, true); (32, false); (32, true)])) demo_heap3.
Proof.
  apply kern_malloc_correct; [exact demo_heap3_rep|by vm_compute|done|by vm_compute|discriminate].
Defined.

Lemma kern_free_correct_witness :
  wp (kern_free (0xD0000000 + 9)) (fun _ s' => exists bs', heap_rep s' bs' /\
    (0xD0000000 + 9, 32) :: live demo_heap3.(h_start) bs' ≡ₚ
      live demo_heap3.(h_start) [(32, true); (32, false); (32, true)] /\
    payload_kept demo_heap3.(h_mem) s'.(h_mem)
      (live demo_heap3.(h_start) [(32, true); (32, false); (32, true)])) demo_heap3.
Proof. apply kern_free_correct; [exact demo_heap3_rep|]. vm_compute. left. Defined.

(** [sbrk] as [sysc_sbrk] behaves: whole pages. *)
Definition page_sbrk (n : Z) : cmd Z Z :=
  fun e => let e' := e + 4096 * ((n + 4095) / 4096) in Ret (e', e').

Lemma page_sbrk_grows e n p :
  e = p -> 0 < e -> 0 < n < 2 ^ 31 -> e + n + 4096 < 2 ^ 32 ->
  wp (page_sbrk n) (fun e' p' => e + n <= e' < e + n + 4096 /\ e' = p') p.
Proof. intros -> ? ? ?. unfold wp, page_sbrk. split; [zdm|done]. Qed.

#[local] Instance page_sbrk_inst : Sbrk Z := {|
  sbrk := page_sbrk; sbrk_ok := eq; sbrk_grows := page_sbrk_grows |}.

Definition demo_user_run : cmd (hstate Z) unit :=
  alloc_initialise 0 0x50001000 ;;; a <- alloc_allocate 16 ;;
  modify (set_mem (fun m => wr32 m a 0xCAFE)).
Definition demo_user : hstate Z :=
  match demo_user_run (HState 0 0 0 0 ∅ 0x50001000) with Ret (_, s) => s | _ => demo_heap end.

Lemma demo_user_rep : heap_rep demo_user [(16, true)].
Proof. vm_compute. done. Qed.

Lemma alloc_reallocate_discards_witness :
  rd32 demo_user.(h_mem) 0x50000009 = 0xCAFE /\
  wp (alloc_reallocate 0x50000009 32) (fun p s' => exists bs' psz,
    heap_rep s' bs' /\ 32 <= psz /\ (p, psz) ∈ live demo_user.(h_start) bs' /\
    zeroed s'.(h_mem) p psz) demo_user.
Proof.
  split; [by vm_compute|].
  apply (alloc_reallocate_discards 32 demo_user [(16, true)] 0x50000009 16).
  - exact demo_user_rep.
  - unfold room. vm_compute. repeat split; congruence.
  - vm_compute. left.
Defined.

(** The first allocation on an empty heap is not checked against the
    heap's end: a request larger than the heap succeeds, and clearing the
    payload writes past the last mapped byte. *)
Theorem first_malloc_unchecked {P} `{PageSupply P} (s : hstate P) size :
  heap_rep s [] -> 0 <= size < 2 ^ 31 -> s.(h_start) + 9 <= s.(h_end) < s.(h_start) + 9 + size ->
  s.(h_start) + 9 + size < 2 ^ 32 ->
  exists s', kern_malloc size s = Ret (s.(h_start) + 9, s') /\ s'.(h_end) = s.(h_end) /\
    s'.(h_mem) = first_block s.(h_mem) s.(h_start) size /\
    forall x, s.(h_end) <= x < s.(h_start) + 9 + size -> rd8 s'.(h_mem) x = 0.
Proof.
  intros (Hst & Hend & Hh) Hs Hr Hr'.
  unfold kern_malloc, malloc_body, bind, gets. rewrite Hh. cbn [Z.eqb].
  rewrite set_size_spec, set_next_spec, set_present_spec by done. cbn -[Z.pow].
  destruct (Z.eqb_spec s.(h_start) 0); [lia|].
  rewrite hdr_size_spec by done. cbn -[Z.pow]. mem_simpl. unfold SIZEOF_KALLOC.
  rewrite !(i32_small size), !(u32_small size), !(i32_small size), !(u32_small size) by lia.
  rewrite (u32_small (h_start s + 9)) by lia.
  eexists. split; [reflexivity|]. cbn [h_end h_mem set_mem set_head]. split_and!; try done.
  intros x Hx. change (rd8 (first_block s.(h_mem) s.(h_start) size) x = 0).
  apply first_block_zero. lia.
Qed.

Lemma first_malloc_unchecked_witness :
  exists s', kern_malloc 5000 demo_heap = Ret (0xD0000009, s') /\ s'.(h_end) = 0xD0001000 /\
    s'.(h_mem) = first_block ∅ 0xD0000000 5000 /\
    forall x, 0xD0001000 <= x < 0xD0000000 + 9 + 5000 -> rd8 s'.(h_mem) x = 0.
Proof. apply (first_malloc_unchecked demo_heap 5000); vm_compute; repeat split; congruence. Defined.
