(* ===== verification/Store.v ===== *)
(** The kernel's small heap objects and the shape of doubly linked chains.

    [kernel/util/linked_list.c], [queue.c] and [generic_tree.c] build their
    structures from blocks of [kern_malloc], and so do the process table, the
    scheduler and the timer.  An object is found at the
    address the allocator returned; a pointer to anything else faults.  A
    fresh block reads as zeroes because [kern_malloc] clears it. *)
From stdpp Require Import base numbers gmap list.
From S2P Require Import Prelude Allocator.

(** [lnk_lst_node_t] and [queue_node_t]: the same three words. *)
Record dnode := DNode { previous : Z; next : Z; data : Z }.

(** [lnk_lst_t] *)
Record lnk_lst := LnkLst { list_head : Z; list_tail : Z; list_length : Z }.

(** [queue_t] *)
Record queue := Queue { q_head : Z; q_tail : Z; q_length : Z; q_limit : Z }.

(** [gen_tree_t] *)
Record gen_tree := GenTree { t_data : Z; sub_trees : Z; parent_tree : Z }.

(** [proc_t]; [name] and [details] are the strings in the two buffers. *)
Record proc := Proc {
  proc_regs : Z; cpl : Z; proc_pdir : Z; sys_stack : Z; proc_tss : Z; fpu_regs : list Z;
  heap_start : Z; heap_end : Z; p_name : list Z; p_details : list Z;
  pid : Z; p_state : Z; p_type : Z; proc_ustack_phys : Z; proc_ustack_pages : Z;
  waiters : Z; p_nodes : Z; p_parent : Z; where_am_i : Z
}.

(** [t_process_t] *)
Record t_process := TProcess { tp_process : Z; counter : Z }.

(** [pit_routine_t] *)
Record pit_routine := PitRoutine { milis : Z; pr_id : Z; routine : Z }.

(** A function pointer stored in a node: which component's function it is.  The
    field it is stored in says which of them. *)
Inductive fn := no_fn | vfs_stub_fn | devfs_fn | tarfs_fn | driver_fn (driver : Z).
#[global] Instance fn_dec : EqDecision fn.
Proof. solve_decision. Defined.
Definition is_null (f : fn) : bool := match f with no_fn => true | _ => false end.

(** [vfs_gen_node_t] *)
Record vnode := VNode {
  v_name : Z; v_node_no : Z; v_size : Z; v_type_flags : Z; v_specific_type : Z;
  v_create : fn; v_open : fn; v_close : fn; v_read : fn; v_write : fn; v_control : fn;
  v_status : fn; v_dir_read : fn; v_dir_find : fn; v_dir_list : fn;
  v_base_pointer : Z; v_tree_pointer : Z
}.
(** [io_node_t] *)
Record io_node := IoNode {
  io_node_no : Z; io_node_type : Z; io_node_name : Z; io_node_size : Z;
  io_open : fn; io_close : fn; io_read : fn; io_write : fn; io_control : fn; io_status : fn;
  io_base_pointer : Z
}.
(** [vfs_reg_filesys_t] *)
Record reg_filesys := RegFilesys { fs_id : Z; mount_function : fn }.

(** [mboot_param_t] *)
Record mboot_param := MbootParam { param_key : Z; param_val : Z }.
(** [pci_dev_t]; the names and descriptions are addresses of static strings. *)
Record pci_dev := PciDev {
  pd_bus : Z; pd_dev : Z; pd_ven_id : Z; pd_dev_id : Z; pd_rev_id : Z; pd_prog_if : Z; pd_sub_class : Z;
  pd_class_code : Z; pd_cache_line_size : Z; pd_latency_timer : Z; pd_header_type : Z; pd_bist : Z;
  pd_ven_name : Z; pd_ven_desc : Z; pd_dev_name : Z; pd_dev_desc : Z;
  pd_base_class_desc : Z; pd_sub_class_desc : Z; pd_prog_if_desc : Z; pd_additional_info : Z
}.
(** [pci_dev_std_hdr_t] *)
Record pci_std_hdr := PciStdHdr {
  sh_bar0 : Z; sh_bar1 : Z; sh_bar2 : Z; sh_bar3 : Z; sh_bar4 : Z; sh_bar5 : Z; sh_cardbus_cis : Z;
  sh_subsystem_vendor_id : Z; sh_subsystem_id : Z; sh_exp_rom_base : Z; sh_capabilities : Z;
  sh_int_line : Z; sh_int_pin : Z; sh_min_grant : Z; sh_max_latency : Z
}.

(** [OBytes n] is a block of [n] bytes; its contents are in byte memory. *)
Inductive obj :=
| ONode (n : dnode)
| OList (l : lnk_lst)
| OQueue (q : queue)
| OTree (t : gen_tree)
| OProc (p : proc)
| OTimed (t : t_process)
| ORoutine (r : pit_routine)
| OWords (ws : list Z)
| OVnode (v : vnode)
| OIoNode (d : io_node)
| OFilesys (f : reg_filesys)
| OParam (p : mboot_param)
| OPciDev (d : pci_dev)
| OPciHdr (h : pci_std_hdr)
| OBytes (n : Z)
| ORaw.

(** The bytes an object uses at its address. *)
Definition obj_bytes (o : obj) : Z := match o with OBytes n => Z.max 0 n | _ => 0 end.

Record store (A : Type) := Store { alloc : A; objs : gmap Z obj }.
Arguments Store {A}.
Arguments alloc {A}.
Arguments objs {A}.

Section store.
Context {A : Type} `{Allocator A}.
Implicit Types (s : store A).

Definition set_objs (f : gmap Z obj -> gmap Z obj) s : store A := Store s.(alloc) (f s.(objs)).

(** Allocation of an object; [zero] is its cleared contents.  [kern_malloc]
    returning NULL leaves no object. *)
Definition new_obj (size : Z) (zero : obj) : cmd (store A) Z :=
  fun s => match a_malloc size s.(alloc) with
           | Ret (p, al) =>
               Ret (p, Store al (if p =? 0 then s.(objs) else <[p := zero]> s.(objs)))
           | Fault => Fault
           | Hang => Hang
           end.

Definition free_obj (p : Z) : cmd (store A) unit :=
  fun s => match a_free p s.(alloc) with
           | Ret (_, al) => Ret (tt, Store al (delete p s.(objs)))
           | Fault => Fault
           | Hang => Hang
           end.

Definition get_node (p : Z) : cmd (store A) dnode :=
  fun s => match s.(objs) !! p with Some (ONode n) => Ret (n, s) | _ => Fault end.
Definition get_list (p : Z) : cmd (store A) lnk_lst :=
  fun s => match s.(objs) !! p with Some (OList l) => Ret (l, s) | _ => Fault end.
Definition get_queue (p : Z) : cmd (store A) queue :=
  fun s => match s.(objs) !! p with Some (OQueue q) => Ret (q, s) | _ => Fault end.
Definition get_tree (p : Z) : cmd (store A) gen_tree :=
  fun s => match s.(objs) !! p with Some (OTree t) => Ret (t, s) | _ => Fault end.

Definition get_proc (p : Z) : cmd (store A) proc :=
  fun s => match s.(objs) !! p with Some (OProc x) => Ret (x, s) | _ => Fault end.
Definition get_timed (p : Z) : cmd (store A) t_process :=
  fun s => match s.(objs) !! p with Some (OTimed t) => Ret (t, s) | _ => Fault end.
Definition get_routine (p : Z) : cmd (store A) pit_routine :=
  fun s => match s.(objs) !! p with Some (ORoutine r) => Ret (r, s) | _ => Fault end.
Definition get_words (p : Z) : cmd (store A) (list Z) :=
  fun s => match s.(objs) !! p with Some (OWords ws) => Ret (ws, s) | _ => Fault end.

Definition get_vnode (p : Z) : cmd (store A) vnode :=
  fun s => match s.(objs) !! p with Some (OVnode v) => Ret (v, s) | _ => Fault end.
Definition get_io (p : Z) : cmd (store A) io_node :=
  fun s => match s.(objs) !! p with Some (OIoNode d) => Ret (d, s) | _ => Fault end.
Definition get_filesys (p : Z) : cmd (store A) reg_filesys :=
  fun s => match s.(objs) !! p with Some (OFilesys f) => Ret (f, s) | _ => Fault end.

Definition get_param (p : Z) : cmd (store A) mboot_param :=
  fun s => match s.(objs) !! p with Some (OParam x) => Ret (x, s) | _ => Fault end.
Definition get_pci_dev (p : Z) : cmd (store A) pci_dev :=
  fun s => match s.(objs) !! p with Some (OPciDev x) => Ret (x, s) | _ => Fault end.
Definition get_pci_hdr (p : Z) : cmd (store A) pci_std_hdr :=
  fun s => match s.(objs) !! p with Some (OPciHdr x) => Ret (x, s) | _ => Fault end.

Definition put_obj (p : Z) (o : obj) : cmd (store A) unit :=
  modify (set_objs (fun m => <[p := o]> m)).

(** Field assignments [p->field = v]. *)
Definition set_previous (p v : Z) : cmd (store A) unit :=
  n <- get_node p ;; put_obj p (ONode (DNode v n.(next) n.(data))).
Definition set_nnext (p v : Z) : cmd (store A) unit :=
  n <- get_node p ;; put_obj p (ONode (DNode n.(previous) v n.(data))).
Definition set_data (p v : Z) : cmd (store A) unit :=
  n <- get_node p ;; put_obj p (ONode (DNode n.(previous) n.(next) v)).
Definition set_list_head (p v : Z) : cmd (store A) unit :=
  l <- get_list p ;; put_obj p (OList (LnkLst v l.(list_tail) l.(list_length))).
Definition set_list_tail (p v : Z) : cmd (store A) unit :=
  l <- get_list p ;; put_obj p (OList (LnkLst l.(list_head) v l.(list_length))).
Definition set_list_length (p v : Z) : cmd (store A) unit :=
  l <- get_list p ;; put_obj p (OList (LnkLst l.(list_head) l.(list_tail) v)).
Definition set_q_head (p v : Z) : cmd (store A) unit :=
  q <- get_queue p ;; put_obj p (OQueue (Queue v q.(q_tail) q.(q_length) q.(q_limit))).
Definition set_q_tail (p v : Z) : cmd (store A) unit :=
  q <- get_queue p ;; put_obj p (OQueue (Queue q.(q_head) v q.(q_length) q.(q_limit))).
Definition set_q_length (p v : Z) : cmd (store A) unit :=
  q <- get_queue p ;; put_obj p (OQueue (Queue q.(q_head) q.(q_tail) v q.(q_limit))).
Definition set_q_limit (p v : Z) : cmd (store A) unit :=
  q <- get_queue p ;; put_obj p (OQueue (Queue q.(q_head) q.(q_tail) q.(q_length) v)).
Definition set_t_data (p v : Z) : cmd (store A) unit :=
  t <- get_tree p ;; put_obj p (OTree (GenTree v t.(sub_trees) t.(parent_tree))).
Definition set_sub_trees (p v : Z) : cmd (store A) unit :=
  t <- get_tree p ;; put_obj p (OTree (GenTree t.(t_data) v t.(parent_tree))).
Definition set_parent_tree (p v : Z) : cmd (store A) unit :=
  t <- get_tree p ;; put_obj p (OTree (GenTree t.(t_data) t.(sub_trees) v)).

(** Loops over chains: an acyclic chain has at most one node per object. *)
Definition chain_fuel s : nat := Datatypes.S (size s.(objs)).

(** ** The invariant and the frame *)

(** Every object lies in a block in use that is large enough. *)
Definition fits (e : gmap Z Z) (m : gmap Z obj) : Prop :=
  map_Forall (fun p o => Is_true (match e !! p with Some n => obj_bytes o <=? n | None => false end)) m.

Definition store_ok (k : nat) s : Prop :=
  a_inv s.(alloc) /\ a_room k s.(alloc) /\ fits (a_extent s.(alloc)) s.(objs) /\
  s.(objs) !! 0 = None.

#[global] Instance fits_dec e m : Decision (fits e m).
Proof. unfold fits. apply _. Defined.

Lemma fits_lookup e m p o : fits e m -> m !! p = Some o -> exists n, e !! p = Some n /\ obj_bytes o <= n.
Proof.
  intros Hf Hp. apply Hf in Hp. destruct (e !! p) as [n|]; [|done].
  exists n. split; [done|]. by apply Z.leb_le, Is_true_true.
Qed.

Lemma fits_insert e m p o n : fits e m -> e !! p = Some n -> obj_bytes o <= n -> fits e (<[p := o]> m).
Proof.
  intros Hf Hp Hn. apply map_Forall_insert_2; [|done]. rewrite Hp. by apply Is_true_true, Z.leb_le.
Qed.

Lemma fits_alloc e m p n : fits e m -> e !! p = None -> fits (<[p := n]> e) m.
Proof.
  intros Hf Hp q o Hq. pose proof (Hf q o Hq) as Ho. destruct (decide (q = p)) as [->|Hne].
  - by rewrite Hp in Ho.
  - by rewrite lookup_insert_ne.
Qed.

Lemma fits_delete e m p : fits e m -> fits (delete p e) (delete p m).
Proof.
  intros Hf q o [Hne Hq]%lookup_delete_Some. rewrite lookup_delete_ne by done. by apply Hf.
Qed.

Lemma new_obj_spec n zero k s :
  store_ok (S k) s -> 0 <= n <= SMALL /\ obj_bytes zero <= n ->
  wp (new_obj n zero) (fun p s' =>
    store_ok k s' /\ p <> 0 /\ s.(objs) !! p = None /\
    s'.(objs) = <[p := zero]> s.(objs)) s.
Proof.
  intros (Hi & Hr & Hd & H0) [Hn Hz]. unfold wp, new_obj.
  destruct (wp_inv _ _ _ (a_malloc_ok n k _ Hi Hr Hn)) as (p & al & -> & m & Hp & _ & Hm & Hf & Hl & Hi' & Hr').
  destruct (Z.eqb_spec p 0); [lia|]. cbn. split_and!; try done.
  - unfold store_ok; cbn. split_and!; try done.
    + rewrite Hl. eapply fits_insert; [by apply fits_alloc|by rewrite lookup_insert_eq|lia].
    + rewrite lookup_insert_ne by done. done.
  - destruct (s.(objs) !! p) eqn:He; [|done]. apply (fits_lookup _ _ _ _ Hd) in He as (? & He & _). congruence.
Qed.

Lemma free_obj_spec p k s :
  store_ok k s -> is_Some (s.(objs) !! p) ->
  wp (free_obj p) (fun _ s' => store_ok k s' /\ s'.(objs) = delete p s.(objs)) s.
Proof.
  intros (Hi & Hr & Hd & H0) [o Hp]. unfold wp, free_obj.
  destruct (fits_lookup _ _ _ _ Hd Hp) as (n & Hn & _).
  destruct (wp_inv _ _ _ (a_free_ok p k _ Hi Hr (mk_is_Some _ _ Hn))) as ([] & al & -> & Hl & Hi' & Hr').
  split; [|done]. unfold store_ok; cbn. split_and!; try done.
  - rewrite Hl. by apply fits_delete.
  - by rewrite lookup_delete_None; right.
Qed.

(** The file systems free NULL on some paths. *)
Lemma free_null_spec k s :
  store_ok k s -> wp (free_obj 0) (fun _ s' => store_ok k s' /\ s'.(objs) = s.(objs)) s.
Proof.
  intros (Hi & Hr & Hd & H0). unfold wp, free_obj.
  destruct (wp_inv _ _ _ (a_free_null k _ Hi Hr)) as ([] & al & -> & Hl & Hi' & Hr').
  rewrite delete_id by done. split; [|done]. unfold store_ok. cbn. rewrite Hl. done.
Qed.

Lemma store_ok_put k s p o :
  store_ok k s -> is_Some (s.(objs) !! p) -> obj_bytes o = 0 ->
  store_ok k (set_objs (fun m => <[p := o]> m) s).
Proof.
  intros (Hi & Hr & Hd & H0) [o' Hp] Ho. unfold store_ok; cbn. split_and!; try done.
  - destruct (fits_lookup _ _ _ _ Hd Hp) as (n & Hn & Hle).
    eapply fits_insert; [done|done|]. destruct o'; cbn in Hle; lia.
  - rewrite lookup_insert_ne; [done|]. intros ->. congruence.
Qed.

Lemma store_ok_mono k s : store_ok (S k) s -> store_ok k s.
Proof. intros (? & ? & ? & ?). split_and!; try done. by apply a_room_mono. Qed.

Lemma store_ok_le k k' s : (k' <= k)%nat -> store_ok k s -> store_ok k' s.
Proof. induction 1 as [|k Hk IH]; [done|]. intros Hok. apply IH. by apply store_ok_mono. Qed.

Lemma store_count k s : store_ok k s -> Z.of_nat (size s.(objs)) < 2 ^ 29.
Proof.
  intros (Hi & _ & Hd & _). pose proof (a_count _ Hi) as Hc.
  assert (Hs : dom s.(objs) ⊆ dom (a_extent s.(alloc))).
  { intros p [o Hp]%elem_of_dom. apply (fits_lookup _ _ _ _ Hd) in Hp as (n & Hn & _).
    apply elem_of_dom. by eexists. }
  apply subseteq_size in Hs. rewrite !size_dom in Hs. lia.
Qed.

(** Byte blocks do not overlap; there is at least one byte between them. *)
Lemma bytes_apart k s p n q m :
  store_ok k s -> s.(objs) !! p = Some (OBytes n) -> s.(objs) !! q = Some (OBytes m) -> p <> q ->
  p + n < q \/ q + m < p.
Proof.
  intros (Hi & _ & Hd & _) Hp Hq Hne.
  destruct (fits_lookup _ _ _ _ Hd Hp) as (n' & Hp' & ?), (fits_lookup _ _ _ _ Hd Hq) as (m' & Hq' & ?).
  cbn in *. destruct (a_apart _ _ _ _ _ Hi Hp' Hq' Hne); lia.
Qed.
End store.

(** ** Doubly linked chains *)

Definition hd_addr (xs : list (Z * Z)) (nx : Z) : Z := match xs with [] => nx | (a, _) :: _ => a end.
Fixpoint last_addr (pv : Z) (xs : list (Z * Z)) : Z :=
  match xs with [] => pv | (a, _) :: xs' => last_addr a xs' end.

(** The nodes [xs] (address, data) are chained in [m], between [pv] and [nx]. *)
Fixpoint dlseg (m : gmap Z obj) (pv : Z) (xs : list (Z * Z)) (nx : Z) : Prop :=
  match xs with
  | [] => True
  | (a, d) :: xs' => m !! a = Some (ONode (DNode pv (hd_addr xs' nx) d)) /\ dlseg m a xs' nx
  end.

Lemma last_addr_app pv xs ys : last_addr pv (xs ++ ys) = last_addr (last_addr pv xs) ys.
Proof. revert pv. induction xs as [|[a d] xs IH]; intros pv; cbn; [done|apply IH]. Qed.

Lemma hd_addr_app xs ys nx : hd_addr (xs ++ ys) nx = hd_addr xs (hd_addr ys nx).
Proof. by destruct xs as [|[]]. Qed.

Lemma dlseg_app m pv xs ys nx :
  dlseg m pv (xs ++ ys) nx <-> dlseg m pv xs (hd_addr ys nx) /\ dlseg m (last_addr pv xs) ys nx.
Proof.
  revert pv. induction xs as [|[a d] xs IH]; intros pv; cbn; [tauto|].
  rewrite IH, hd_addr_app. tauto.
Qed.

Lemma dlseg_ext m m' pv xs nx :
  (forall a, a ∈ xs.*1 -> m' !! a = m !! a) -> dlseg m pv xs nx -> dlseg m' pv xs nx.
Proof.
  revert pv. induction xs as [|[a d] xs IH]; intros pv Hx; cbn; [done|].
  intros [Ha Hs]. rewrite Hx by (cbn; left). split; [done|]. apply IH; [|done].
  intros b Hb. apply Hx. by right.
Qed.

Lemma dlseg_node m pv xs nx a :
  dlseg m pv xs nx -> a ∈ xs.*1 -> exists n, m !! a = Some (ONode n).
Proof.
  revert pv. induction xs as [|[b d] xs IH]; intros pv; cbn.
  - intros _ Hin. by apply not_elem_of_nil in Hin.
  - intros [Hb Hs] Hin. apply elem_of_cons in Hin as [-> | Hin]; [by eexists|eauto].
Qed.

Lemma dlseg_size m pv xs nx :
  dlseg m pv xs nx -> NoDup xs.*1 -> (length xs <= size m)%nat.
Proof.
  intros Hs Hnd. rewrite <- (length_fmap fst xs), <- (size_list_to_set (C := gset Z) xs.*1) by done.
  rewrite <- size_dom. apply subseteq_size. intros a Ha%elem_of_list_to_set.
  apply elem_of_dom. destruct (dlseg_node _ _ _ _ _ Hs Ha). by eexists.
Qed.

Lemma dlseg_nonzero m pv xs nx : dlseg m pv xs nx -> m !! 0 = None -> 0 ∉ xs.*1.
Proof. intros Hs H0 Hin. destruct (dlseg_node _ _ _ _ _ Hs Hin). congruence. Qed.

Lemma last_addr_in pv xs : xs <> [] -> last_addr pv xs ∈ xs.*1.
Proof.
  revert pv. induction xs as [|[a d] xs IH]; intros pv Hne; [done|]. cbn.
  destruct xs as [|x xs]; [cbn; left|]. right. by apply IH.
Qed.

Lemma dlseg_relink_next m m' pv xs a d nx nx' :
  dlseg m pv (xs ++ [(a, d)]) nx ->
  m' !! a = Some (ONode (DNode (last_addr pv xs) nx' d)) ->
  (forall b, b ∈ xs.*1 -> m' !! b = m !! b) ->
  dlseg m' pv (xs ++ [(a, d)]) nx'.
Proof.
  rewrite !dlseg_app. intros [H1 _] Ha Hx. split; [|done]. by eapply dlseg_ext.
Qed.

Lemma dlseg_relink_prev m m' pv pv' a d xs nx :
  dlseg m pv ((a, d) :: xs) nx ->
  m' !! a = Some (ONode (DNode pv' (hd_addr xs nx) d)) ->
  (forall b, b ∈ xs.*1 -> m' !! b = m !! b) ->
  dlseg m' pv' ((a, d) :: xs) nx.
Proof. intros [_ H2] Ha Hx. split; [done|]. by eapply dlseg_ext. Qed.

(** Objects outside [X] are as they were. *)
Definition untouched (X : list Z) (m m' : gmap Z obj) : Prop :=
  forall a, a ∉ X -> is_Some (m !! a) -> m' !! a = m !! a.

Lemma untouched_trans X m1 m2 m3 :
  untouched X m1 m2 -> untouched X m2 m3 -> untouched X m1 m3.
Proof. intros H1 H2 a Hx Ha. rewrite (H2 a Hx); [by apply H1|]. by rewrite H1. Qed.

Lemma untouched_mono X Y m m' : X ⊆ Y -> untouched X m m' -> untouched Y m m'.
Proof. intros HXY Hu a Ha. apply Hu. set_solver. Qed.

(** ** Symbolic execution over a store *)

Section wp_store.
Context {A : Type} `{Allocator A}.
Implicit Types (al : A) (m : gmap Z obj).

Lemma wp_get_node al m p n (Q : dnode -> store A -> Prop) :
  m !! p = Some (ONode n) -> Q n (Store al m) -> wp (get_node p) Q (Store al m).
Proof. intros Hp HQ. unfold wp, get_node. cbn. by rewrite Hp. Qed.
Lemma wp_get_list al m p l (Q : lnk_lst -> store A -> Prop) :
  m !! p = Some (OList l) -> Q l (Store al m) -> wp (get_list p) Q (Store al m).
Proof. intros Hp HQ. unfold wp, get_list. cbn. by rewrite Hp. Qed.
Lemma wp_get_queue al m p q (Q : queue -> store A -> Prop) :
  m !! p = Some (OQueue q) -> Q q (Store al m) -> wp (get_queue p) Q (Store al m).
Proof. intros Hp HQ. unfold wp, get_queue. cbn. by rewrite Hp. Qed.
Lemma wp_get_tree al m p t (Q : gen_tree -> store A -> Prop) :
  m !! p = Some (OTree t) -> Q t (Store al m) -> wp (get_tree p) Q (Store al m).
Proof. intros Hp HQ. unfold wp, get_tree. cbn. by rewrite Hp. Qed.
Lemma wp_get_proc al m p x (Q : proc -> store A -> Prop) :
  m !! p = Some (OProc x) -> Q x (Store al m) -> wp (get_proc p) Q (Store al m).
Proof. intros Hp HQ. unfold wp, get_proc. cbn. by rewrite Hp. Qed.
Lemma wp_get_timed al m p x (Q : t_process -> store A -> Prop) :
  m !! p = Some (OTimed x) -> Q x (Store al m) -> wp (get_timed p) Q (Store al m).
Proof. intros Hp HQ. unfold wp, get_timed. cbn. by rewrite Hp. Qed.
Lemma wp_get_vnode al m p x (Q : vnode -> store A -> Prop) :
  m !! p = Some (OVnode x) -> Q x (Store al m) -> wp (get_vnode p) Q (Store al m).
Proof. intros Hp HQ. unfold wp, get_vnode. cbn. by rewrite Hp. Qed.
Lemma wp_get_io al m p x (Q : io_node -> store A -> Prop) :
  m !! p = Some (OIoNode x) -> Q x (Store al m) -> wp (get_io p) Q (Store al m).
Proof. intros Hp HQ. unfold wp, get_io. cbn. by rewrite Hp. Qed.
Lemma wp_get_filesys al m p x (Q : reg_filesys -> store A -> Prop) :
  m !! p = Some (OFilesys x) -> Q x (Store al m) -> wp (get_filesys p) Q (Store al m).
Proof. intros Hp HQ. unfold wp, get_filesys. cbn. by rewrite Hp. Qed.
Lemma wp_get_param al m p x (Q : mboot_param -> store A -> Prop) :
  m !! p = Some (OParam x) -> Q x (Store al m) -> wp (get_param p) Q (Store al m).
Proof. intros Hp HQ. unfold wp, get_param. cbn. by rewrite Hp. Qed.
Lemma wp_get_pci_dev al m p x (Q : pci_dev -> store A -> Prop) :
  m !! p = Some (OPciDev x) -> Q x (Store al m) -> wp (get_pci_dev p) Q (Store al m).
Proof. intros Hp HQ. unfold wp, get_pci_dev. cbn. by rewrite Hp. Qed.
Lemma wp_get_pci_hdr al m p x (Q : pci_std_hdr -> store A -> Prop) :
  m !! p = Some (OPciHdr x) -> Q x (Store al m) -> wp (get_pci_hdr p) Q (Store al m).
Proof. intros Hp HQ. unfold wp, get_pci_hdr. cbn. by rewrite Hp. Qed.
Lemma wp_put al m p o (Q : unit -> store A -> Prop) :
  Q tt (Store al (<[p := o]> m)) -> wp (put_obj p o) Q (Store al m).
Proof. done. Qed.
Lemma wp_new al m n zero k (Q : Z -> store A -> Prop) :
  store_ok (S k) (Store al m) -> 0 <= n <= SMALL /\ obj_bytes zero <= n ->
  (forall p al', p <> 0 -> m !! p = None -> store_ok k (Store al' (<[p := zero]> m)) ->
     Q p (Store al' (<[p := zero]> m))) ->
  wp (new_obj n zero) Q (Store al m).
Proof.
  intros Hok Hn HQ. eapply wp_mono; [by eapply new_obj_spec|].
  intros p [al' m'] (Hok' & Hp & Hf & Hm). cbn in Hf, Hm. subst m'. by apply HQ.
Qed.
Lemma wp_free al m p k (Q : unit -> store A -> Prop) :
  store_ok k (Store al m) -> is_Some (m !! p) ->
  (forall al', store_ok k (Store al' (delete p m)) -> Q tt (Store al' (delete p m))) ->
  wp (free_obj p) Q (Store al m).
Proof.
  intros Hok Hp HQ. eapply wp_mono; [by eapply free_obj_spec|].
  intros [] [al' m'] (Hok' & Hm). cbn in Hm. subst m'. by apply HQ.
Qed.

Lemma store_ok_insert k al m p o :
  store_ok k (Store al m) -> is_Some (m !! p) -> obj_bytes o = 0 ->
  store_ok k (Store al (<[p := o]> m)).
Proof. intros Hok Hp Ho. exact (store_ok_put k (Store al m) p o Hok Hp Ho). Qed.
Lemma store_eta k (s : store A) : store_ok k s -> store_ok k (Store s.(alloc) s.(objs)).
Proof. by destruct s. Qed.
Lemma store_ok_over k al m p o o' :
  store_ok k (Store al (<[p := o]> m)) -> obj_bytes o' = 0 -> store_ok k (Store al (<[p := o']> m)).
Proof.
  intros Hok Ho. rewrite <- (insert_insert_eq m p o' o). apply store_ok_insert; [done| |done].
  rewrite lookup_insert_eq. by eexists.
Qed.
Lemma store_ok_zero k al m : store_ok k (Store al m) -> m !! 0 = None.
Proof. by intros (_ & _ & _ & ?). Qed.
End wp_store.

(** Lookups through updates at keys known to differ. *)
Ltac lk := repeat first
  [ rewrite lookup_insert_eq
  | rewrite lookup_insert_ne by (first [assumption | apply not_eq_sym; assumption | congruence])
  | rewrite lookup_delete_ne by (first [assumption | apply not_eq_sym; assumption | congruence]) ].
Ltac lkp := solve [ lk; first [reflexivity | eassumption] | eexists; lk; first [reflexivity | eassumption] ].
Ltac st_ok := repeat (apply store_ok_insert; [| solve [lkp] | reflexivity ]); try eassumption.
(** [store_ok] of a concrete store over the bump allocator. *)
Ltac store_by_compute :=
  unfold store_ok; split_and!;
  [ refine (bool_decide_unpack (bump_inv _) _); by vm_compute
  | by vm_compute
  | refine (bool_decide_unpack (fits _ _) _); by vm_compute
  | done ].
Ltac st_cbn :=
  cbn [previous next data list_head list_tail list_length q_head q_tail q_length q_limit
       t_data sub_trees parent_tree].
Ltac st_step :=
  st_cbn;
  lazymatch goal with
  | |- wp (bind _ _) _ _ => apply wp_bind
  | |- wp (get_node _) _ _ => eapply wp_get_node; [lkp|]
  | |- wp (get_list _) _ _ => eapply wp_get_list; [lkp|]
  | |- wp (get_queue _) _ _ => eapply wp_get_queue; [lkp|]
  | |- wp (get_tree _) _ _ => eapply wp_get_tree; [lkp|]
  | |- wp (get_proc _) _ _ => eapply wp_get_proc; [lkp|]
  | |- wp (get_timed _) _ _ => eapply wp_get_timed; [lkp|]
  | |- wp (get_param _) _ _ => eapply wp_get_param; [lkp|]
  | |- wp (get_pci_dev _) _ _ => eapply wp_get_pci_dev; [lkp|]
  | |- wp (get_pci_hdr _) _ _ => eapply wp_get_pci_hdr; [lkp|]
  | |- wp (put_obj _ _) _ _ => apply wp_put
  | |- wp (set_previous _ _) _ _ => unfold set_previous
  | |- wp (set_nnext _ _) _ _ => unfold set_nnext
  | |- wp (set_data _ _) _ _ => unfold set_data
  | |- wp (set_list_head _ _) _ _ => unfold set_list_head
  | |- wp (set_list_tail _ _) _ _ => unfold set_list_tail
  | |- wp (set_list_length _ _) _ _ => unfold set_list_length
  | |- wp (set_q_head _ _) _ _ => unfold set_q_head
  | |- wp (set_q_tail _ _) _ _ => unfold set_q_tail
  | |- wp (set_q_length _ _) _ _ => unfold set_q_length
  | |- wp (set_q_limit _ _) _ _ => unfold set_q_limit
  | |- wp (set_t_data _ _) _ _ => unfold set_t_data
  | |- wp (set_sub_trees _ _) _ _ => unfold set_sub_trees
  | |- wp (set_parent_tree _ _) _ _ => unfold set_parent_tree
  | |- wp (gets _) _ _ => apply wp_gets
  | |- wp (ret _) _ _ => apply wp_ret
  end.
Ltac st_steps := repeat st_step; st_cbn.
