(* ===== verification/LinkedList.v ===== *)
(** [kernel/util/linked_list.c], the kernel's doubly linked lists, and its
    user-space copy [libraries/liblist/liblist.c] (the same code over
    [malloc]/[free]); both are the definitions below, over an allocator. *)
From stdpp Require Import base numbers gmap list.
From S2P Require Import Prelude Allocator Store.

Definition SIZEOF_NODE : Z := 12.
Definition SIZEOF_LIST : Z := 12.

Section operations.
Context {A : Type} `{Allocator A}.
Implicit Types (s : store A).

Definition linked_list_create : cmd (store A) Z :=
  list <- new_obj SIZEOF_LIST (OList (LnkLst 0 0 0)) ;;
  set_list_head list 0 ;;;
  set_list_tail list 0 ;;;
  set_list_length list 0 ;;;
  ret list.

Fixpoint destroy_loop (fuel : nat) (node_temp : Z) : cmd (store A) unit :=
  match fuel with
  | O => hang
  | S fuel' =>
      if node_temp =? 0 then ret tt
      else
        n <- get_node node_temp ;;
        free_obj node_temp ;;;
        destroy_loop fuel' n.(next)
  end.

Definition linked_list_destroy (list : Z) : cmd (store A) unit :=
  if list =? 0 then ret tt
  else
    l <- get_list list ;;
    fuel <- gets chain_fuel ;;
    destroy_loop fuel l.(list_head) ;;;
    free_obj list.

Definition create_node (list data : Z) : cmd (store A) Z :=
  if negb (list =? 0) && negb (data =? 0) then
    node <- new_obj SIZEOF_NODE (ONode (DNode 0 0 0)) ;;
    set_data node data ;;;
    set_nnext node 0 ;;;
    ret node
  else ret 0.

(** [while (i < index && tmp_node != NULL)] of the insertion. *)
Fixpoint insert_walk (fuel : nat) (i index tmp : Z) : cmd (store A) Z :=
  match fuel with
  | O => hang
  | S fuel' =>
      if (i <? index) && negb (tmp =? 0) then
        n <- get_node tmp ;;
        insert_walk fuel' (i + 1) index n.(next)
      else ret tmp
  end.

Definition incr_length (list : Z) : cmd (store A) unit :=
  l <- get_list list ;; set_list_length list (i32 (l.(list_length) + 1)).

Definition linked_list_insert_at_index (list data index : Z) : cmd (store A) Z :=
  if negb (list =? 0) && negb (data =? 0) && (0 <=? index) then
    node <- create_node list data ;;
    l <- get_list list ;;
    if index =? 0 then
      (if l.(list_length) =? 0 then
         set_list_head list node ;;;
         set_list_tail list node
       else
         set_previous node 0 ;;;
         set_nnext node l.(list_head) ;;;
         set_previous l.(list_head) node ;;;
         set_list_head list node) ;;;
      incr_length list ;;;
      ret node
    else if l.(list_length) <=? index then
      set_nnext l.(list_tail) node ;;;
      set_previous node l.(list_tail) ;;;
      set_nnext node 0 ;;;
      set_list_tail list node ;;;
      incr_length list ;;;
      ret node
    else
      fuel <- gets chain_fuel ;;
      tmp <- insert_walk fuel 0 index l.(list_head) ;;
      t <- get_node tmp ;;
      set_nnext t.(previous) node ;;;
      t <- get_node tmp ;;
      set_previous node t.(previous) ;;;
      set_nnext node tmp ;;;
      set_previous tmp node ;;;
      incr_length list ;;;
      ret node
  else ret 0.

Definition linked_list_append (list data : Z) : cmd (store A) Z :=
  if negb (list =? 0) && negb (data =? 0) then
    node <- create_node list data ;;
    l <- get_list list ;;
    (if (l.(list_length) =? 0) && (l.(list_head) =? 0) then
       set_list_head list node ;;;
       set_list_tail list node ;;;
       set_previous node 0 ;;;
       set_nnext node 0
     else if 0 <? l.(list_length) then
       if l.(list_head) =? l.(list_tail) then
         set_list_tail list node ;;;
         set_nnext l.(list_head) node ;;;
         set_previous node l.(list_head) ;;;
         set_nnext node 0
       else
         set_nnext l.(list_tail) node ;;;
         set_previous node l.(list_tail) ;;;
         set_list_tail list node
     else ret tt) ;;;
    incr_length list ;;;
    ret node
  else ret 0.

Fixpoint find_loop (fuel : nat) (head data : Z) : cmd (store A) Z :=
  match fuel with
  | O => hang
  | S fuel' =>
      if head =? 0 then ret 0
      else
        n <- get_node head ;;
        if n.(Store.data) =? data then ret head else find_loop fuel' n.(next) data
  end.

Definition linked_list_find (list data : Z) : cmd (store A) Z :=
  if negb (list =? 0) && negb (data =? 0) then
    l <- get_list list ;;
    fuel <- gets chain_fuel ;;
    find_loop fuel l.(list_head) data
  else ret 0.

Fixpoint get_at_loop (fuel : nat) (tmp i index : Z) : cmd (store A) Z :=
  match fuel with
  | O => hang
  | S fuel' =>
      if negb (tmp =? 0) && (0 <=? index) then
        if index =? i then ret tmp
        else n <- get_node tmp ;; get_at_loop fuel' n.(next) (i + 1) index
      else ret 0
  end.

Definition linked_list_get_at (list index : Z) : cmd (store A) Z :=
  if list =? 0 then ret 0
  else
    l <- get_list list ;;
    fuel <- gets chain_fuel ;;
    get_at_loop fuel l.(list_head) 0 index.

Fixpoint index_of_loop (fuel : nat) (head node i : Z) : cmd (store A) Z :=
  match fuel with
  | O => hang
  | S fuel' =>
      if head =? 0 then ret (-1)
      else if head =? node then ret i
      else
        h <- get_node head ;;
        n <- get_node node ;;
        if h.(data) =? n.(data) then ret i
        else index_of_loop fuel' h.(next) node (i + 1)
  end.

Definition linked_list_index_of (list node : Z) : cmd (store A) Z :=
  if negb (list =? 0) && negb (node =? 0) then
    l <- get_list list ;;
    fuel <- gets chain_fuel ;;
    index_of_loop fuel l.(list_head) node 0
  else ret (-1).

(** The membership walk at the start of [linked_list_remove]. *)
Fixpoint remove_walk (fuel : nat) (tmp node : Z) : cmd (store A) Z :=
  match fuel with
  | O => hang
  | S fuel' =>
      if tmp =? 0 then ret 0
      else if tmp =? node then ret tmp
      else n <- get_node tmp ;; remove_walk fuel' n.(next) node
  end.

Definition linked_list_remove (list node : Z) : cmd (store A) unit :=
  if negb (list =? 0) && negb (node =? 0) then
    l <- get_list list ;;
    fuel <- gets chain_fuel ;;
    tmp <- remove_walk fuel l.(list_head) node ;;
    if negb (tmp =? node) then ret tt
    else
      n <- get_node node ;;
      (if node =? l.(list_head) then
         if negb (n.(next) =? 0) then
           set_list_head list n.(next) ;;;
           set_previous n.(next) 0
         else
           set_list_head list 0 ;;;
           set_list_tail list 0
       else if node =? l.(list_tail) then
         set_list_tail list n.(previous) ;;;
         set_nnext n.(previous) 0
       else
         set_nnext n.(previous) n.(next) ;;;
         set_previous n.(next) n.(previous)) ;;;
      set_nnext node 0 ;;;
      set_previous node 0 ;;;
      free_obj node ;;;
      l <- get_list list ;;
      set_list_length list (i32 (l.(list_length) - 1))
  else ret tt.

Fixpoint nth_walk (n : nat) (head : Z) : cmd (store A) Z :=
  match n with
  | O => ret head
  | S n' => h <- get_node head ;; nth_walk n' h.(next)
  end.

Definition linked_list_remove_at_index (list index : Z) : cmd (store A) unit :=
  if list =? 0 then ret tt
  else
    l <- get_list list ;;
    if index <? l.(list_length) then
      head <- nth_walk (Z.to_nat index) l.(list_head) ;;
      linked_list_remove list head
    else ret tt.

Fixpoint traverse_loop (fuel : nat) (f : Z -> Z -> cmd (store A) unit) (node i : Z)
  : cmd (store A) unit :=
  match fuel with
  | O => hang
  | S fuel' =>
      if node =? 0 then ret tt
      else
        f node i ;;;
        n <- get_node node ;;
        traverse_loop fuel' f n.(next) (i + 1)
  end.

Definition linked_list_traverse (list : Z) (f : Z -> Z -> cmd (store A) unit)
  : cmd (store A) unit :=
  l <- get_list list ;;
  fuel <- gets chain_fuel ;;
  traverse_loop fuel f l.(list_head) 0.
End operations.

(** * Representation *)

Definition list_rep (m : gmap Z obj) (l : Z) (xs : list (Z * Z)) : Prop :=
  m !! l = Some (OList (LnkLst (hd_addr xs 0) (last_addr 0 xs) (Z.of_nat (length xs)))) /\
  dlseg m 0 xs 0 /\ NoDup xs.*1.

Definition owned (l : Z) (xs : list (Z * Z)) : list Z := l :: xs.*1.

Lemma list_rep_notin m l xs : list_rep m l xs -> l ∉ xs.*1.
Proof. intros (Hl & Hs & _) Hin. destruct (dlseg_node _ _ _ _ _ Hs Hin). congruence. Qed.

(** Another list is not affected by changes to objects it does not own. *)
Lemma list_rep_frame m m' X l xs :
  list_rep m l xs -> untouched X m m' -> (forall a, a ∈ owned l xs -> a ∉ X) -> list_rep m' l xs.
Proof.
  intros (Hl & Hs & Hnd) Hu Hd. split_and!; [| |done].
  - rewrite (Hu l); [done| |by eexists]. apply Hd. left.
  - eapply dlseg_ext; [|done]. intros a Ha. apply Hu; [apply Hd; by right|].
    destruct (dlseg_node _ _ _ _ _ Hs Ha). by eexists.
Qed.

Lemma list_rep_length m l xs : list_rep m l xs -> (length xs < size m)%nat.
Proof.
  intros Hrep. pose proof (list_rep_notin _ _ _ Hrep) as Hn. destruct Hrep as (Hl & Hs & Hnd).
  rewrite <- (length_fmap fst xs), <- (size_list_to_set (C := gset Z) xs.*1) by done.
  assert (size (list_to_set xs.*1 : gset Z) < size ({[l]} ∪ list_to_set xs.*1 : gset Z))%nat.
  { rewrite size_union by set_solver. rewrite size_singleton. lia. }
  assert (size ({[l]} ∪ list_to_set xs.*1 : gset Z) <= size m)%nat; [|lia].
  rewrite <- size_dom. apply subseteq_size. intros a Ha.
  apply elem_of_dom. apply elem_of_union in Ha as [->%elem_of_singleton | Ha%elem_of_list_to_set].
  - by eexists.
  - destruct (dlseg_node _ _ _ _ _ Hs Ha). by eexists.
Qed.

(** Linking a fresh node between [xs] and [ys]. *)
Lemma list_rep_link m' l xs p d ys :
  m' !! l = Some (OList (LnkLst (hd_addr xs p) (last_addr p ys)
                                (Z.of_nat (length xs + length ys) + 1))) ->
  m' !! p = Some (ONode (DNode (last_addr 0 xs) (hd_addr ys 0) d)) ->
  dlseg m' 0 xs p -> dlseg m' p ys 0 -> NoDup (xs ++ ys).*1 -> p ∉ (xs ++ ys).*1 ->
  list_rep m' l (xs ++ (p, d) :: ys).
Proof.
  intros Hl Hp Hx Hy Hnd Hfr. split_and!.
  - rewrite Hl, hd_addr_app, last_addr_app, length_app. cbn [hd_addr last_addr length].
    do 3 f_equal. lia.
  - apply dlseg_app. split; [done|]. by split.
  - rewrite fmap_app in *. cbn. rewrite <- Permutation_middle. by constructor.
Qed.

Lemma dlseg_last m pv xs a d nx :
  dlseg m pv (xs ++ [(a, d)]) nx ->
  dlseg m pv xs a /\ m !! a = Some (ONode (DNode (last_addr pv xs) nx d)).
Proof. intros Hs. apply dlseg_app in Hs as [H1 [H2 _]]. done. Qed.

Lemma NoDup_snoc (xs : list (Z * Z)) a d : NoDup (xs ++ [(a, d)]).*1 -> NoDup xs.*1 /\ a ∉ xs.*1.
Proof. rewrite fmap_app, NoDup_app. cbn. set_solver. Qed.

Lemma NoDup_around (X Y : list Z) a b :
  NoDup ((X ++ [a]) ++ b :: Y) ->
  a <> b /\ (a ∉ X) /\ (b ∉ X) /\ (a ∉ Y) /\ (b ∉ Y).
Proof.
  rewrite !NoDup_app. intros ((_ & Ha & _) & Hd & [Hb _]%NoDup_cons).
  split_and!; try done.
  - intros ->. eapply Hd; [apply elem_of_app; right|]; left.
  - intros Hin. eapply Ha; [done|left].
  - intros Hin. eapply Hd; [apply elem_of_app; by left|left].
  - intros Hin. eapply Hd; [apply elem_of_app; right; left|by right].
Qed.

(** Lookups of objects an operation did not write. *)
Ltac split_notin :=
  repeat match goal with
    | H : _ ∉ _.*1 |- _ => progress (rewrite ?fmap_app in H; cbn [fmap list_fmap fst] in H)
    | H : _ ∉ _ :: _ |- _ => apply not_elem_of_cons in H as [? ?]
    | H : _ ∉ _ ++ _ |- _ => apply not_elem_of_app in H as [? ?]
    end.
Ltac frame_at :=
  cbn [objs]; split_notin;
  repeat first
    [ rewrite lookup_insert_ne by (intros ->; first [contradiction | congruence])
    | rewrite lookup_delete_ne by (intros ->; first [contradiction | congruence]) ];
  try done.
Ltac frame :=
  let b := fresh "b" in let Hb := fresh "Hb" in
  intros b Hb [? ?]; unfold owned in Hb; split_notin; frame_at.

Lemma list_rep_snoc m m' l xs a d0 p d :
  dlseg m 0 (xs ++ [(a, d0)]) 0 -> NoDup (xs ++ [(a, d0)]).*1 -> p ∉ (xs ++ [(a, d0)]).*1 ->
  m' !! l = Some (OList (LnkLst (hd_addr xs a) p (Z.of_nat (length xs) + 2))) ->
  m' !! a = Some (ONode (DNode (last_addr 0 xs) p d0)) ->
  m' !! p = Some (ONode (DNode a 0 d)) -> (forall b, b ∈ xs.*1 -> m' !! b = m !! b) ->
  list_rep m' l ((xs ++ [(a, d0)]) ++ [(p, d)]).
Proof.
  intros Hs Hnd Hp Hl Ha Hpp Hx. apply list_rep_link; try done.
  - rewrite hd_addr_app, length_app, Hl. cbn. do 3 f_equal. lia.
  - by rewrite last_addr_app, Hpp.
  - by eapply dlseg_relink_next.
  - by rewrite app_nil_r.
  - by rewrite app_nil_r.
Qed.

Section proofs.
Context {A : Type} `{Allocator A}.
Implicit Types (al : A) (m : gmap Z obj).

Lemma create_node_spec k al m list d :
  store_ok (S k) (Store al m) -> list <> 0 -> d <> 0 ->
  wp (create_node list d) (fun p s' => exists al', s' = Store al' (<[p := ONode (DNode 0 0 d)]> m) /\
    p <> 0 /\ m !! p = None /\ store_ok k s') (Store al m).
Proof.
  intros Hok Hl Hd. unfold create_node. destruct (Z.eqb_spec list 0), (Z.eqb_spec d 0); try done.
  cbn [negb andb]. st_step. eapply wp_new; [done|by vm_compute|]. intros p al' Hp Hm Hok'.
  st_steps. exists al'. rewrite !insert_insert_eq in *. split_and!; try done.
  by eapply store_ok_over.
Qed.

(** The loop-free part of every insertion: the postcondition. *)
Definition inserted k m l xs d ys (p : Z) (s' : store A) : Prop :=
  store_ok k s' /\ list_rep s'.(objs) l (xs ++ (p, d) :: ys) /\ m !! p = None /\
  untouched (owned l (xs ++ ys)) m s'.(objs).

Lemma inserted_intro k m l xs d ys p s' :
  store_ok k s' -> list_rep s'.(objs) l (xs ++ (p, d) :: ys) -> m !! p = None ->
  untouched (owned l (xs ++ ys)) m s'.(objs) -> inserted k m l xs d ys p s'.
Proof. by unfold inserted. Qed.

Lemma linked_list_append_spec k al m l xs d :
  store_ok (S k) (Store al m) -> list_rep m l xs -> d <> 0 ->
  wp (linked_list_append l d) (inserted k m l xs d []) (Store al m).
Proof.
  intros Hok Hrep Hd. pose proof (list_rep_notin _ _ _ Hrep) as Hnl.
  pose proof (list_rep_length _ _ _ Hrep) as Hlen. pose proof (store_count _ _ Hok) as Hcnt.
  pose proof (store_ok_zero _ _ _ Hok) as H0. cbn [objs] in Hcnt.
  destruct Hrep as (Hl & Hs & Hnd).
  assert (l <> 0) by congruence. assert (0 ∉ xs.*1) by (by eapply dlseg_nonzero).
  unfold linked_list_append. destruct (Z.eqb_spec l 0), (Z.eqb_spec d 0); try done.
  cbn [negb andb]. st_step. eapply wp_mono; [by apply create_node_spec|].
  intros p s1 (al1 & -> & Hp & Hm & Hok1).
  assert (p <> l) by congruence.
  st_steps. destruct xs as [|[a d0] xs _] using rev_ind.
  - change (Z.of_nat (length [])) with 0. cbn [hd_addr last_addr Z.eqb andb].
    unfold incr_length. st_steps.
    apply inserted_intro; [by st_ok| |done|frame].
    apply (list_rep_link _ l [] p d []); cbn [objs app hd_addr last_addr length]; lk; try done; try set_solver. 
  - destruct (dlseg_last _ _ _ _ _ _ Hs) as [Hxs Ha].
    rewrite hd_addr_app, last_addr_app, length_app in Hl |- *. rewrite length_app in Hlen.
    cbn [hd_addr last_addr length] in *.
    destruct (NoDup_snoc _ _ _ Hnd) as [Hndx Hax].
    assert (a <> l) by congruence. assert (p <> a) by congruence.
    assert (p ∉ xs.*1) by (intros Hin; destruct (dlseg_node _ _ _ _ _ Hxs Hin); congruence).
    destruct (Z.eqb_spec (Z.of_nat (length xs + 1)) 0); [lia|]. cbn [andb].
    destruct (Z.ltb_spec 0 (Z.of_nat (length xs + 1))); [|lia].
    unfold incr_length. rewrite fmap_app in *.
    destruct (Z.eqb_spec (hd_addr xs a) a) as [Heq|Hne].
    + destruct xs as [|[b db] xs]; [|cbn in Heq; subst b; cbn in Hax; by destruct Hax; left].
      cbn [hd_addr last_addr length Nat.add] in *. st_steps.
      apply inserted_intro; [by st_ok| |done|frame].
      apply (list_rep_snoc m _ l [] a d0 p d); cbn [objs];
        [done|done| |by lk..|].
      * cbn. apply not_elem_of_cons. split; [done|apply not_elem_of_nil].
      * intros b Hb. by apply not_elem_of_nil in Hb.
    + st_steps.
      apply inserted_intro; [by st_ok| |done|frame].
      apply (list_rep_snoc m _ l xs a d0 p d); cbn [objs];
        [done|by rewrite fmap_app| | |by lk..|].
      * rewrite fmap_app. cbn. rewrite elem_of_app, list_elem_of_singleton. tauto.
      * lk. rewrite i32_small by lia. do 3 f_equal. lia.
      * intros b Hb. frame_at.
Qed.

(** Chains with a fresh address. *)
Lemma fresh_notin m pv xs nx p : dlseg m pv xs nx -> m !! p = None -> p ∉ xs.*1.
Proof. intros Hs Hp Hin. destruct (dlseg_node _ _ _ _ _ Hs Hin). congruence. Qed.

Lemma dlseg_fresh m pv xs nx p o :
  dlseg m pv xs nx -> m !! p = None -> dlseg (<[p := o]> m) pv xs nx.
Proof.
  intros Hs Hp. eapply dlseg_ext; [|exact Hs]. intros a Ha.
  rewrite lookup_insert_ne; [done|]. intros ->. by eapply fresh_notin.
Qed.

Lemma insert_front_spec k al m l xs d :
  store_ok (S k) (Store al m) -> list_rep m l xs -> d <> 0 ->
  wp (linked_list_insert_at_index l d 0) (inserted k m l [] d xs) (Store al m).
Proof.
  intros Hok Hrep Hd. pose proof (list_rep_notin _ _ _ Hrep) as Hnl.
  pose proof (list_rep_length _ _ _ Hrep) as Hlen. pose proof (store_count _ _ Hok) as Hcnt.
  pose proof (store_ok_zero _ _ _ Hok) as H0. cbn [objs] in Hcnt.
  destruct Hrep as (Hl & Hs & Hnd). assert (l <> 0) by congruence.
  unfold linked_list_insert_at_index. destruct (Z.eqb_spec l 0), (Z.eqb_spec d 0); try done.
  cbn [negb andb Z.leb Z.compare Z.eqb]. st_step. eapply wp_mono; [by apply create_node_spec|].
  intros p s1 (al1 & -> & Hp & Hm & Hok1). assert (p <> l) by congruence.
  pose proof (fresh_notin _ _ _ _ _ Hs Hm) as Hpx. st_steps. unfold incr_length.
  destruct xs as [|[a d0] xs]; cbn [hd_addr last_addr] in *.
  - change (Z.of_nat (length [])) with 0. cbn [Z.eqb]. st_steps.
    apply inserted_intro; [by st_ok| |done|frame].
    apply (list_rep_link _ l [] p d []); cbn [objs app hd_addr last_addr length];
      [by lk|by lk|done|done|done|done].
  - destruct (Z.eqb_spec (Z.of_nat (length ((a, d0) :: xs))) 0); [cbn in *; lia|].
    destruct Hs as [Ha Hs]. assert (a <> l) by congruence. assert (p <> a) by congruence.
    cbn in Hnd, Hpx, Hnl. apply NoDup_cons in Hnd as [Hax Hndx].
    apply not_elem_of_cons in Hpx as [_ Hpx]. apply not_elem_of_cons in Hnl as [_ Hnl].
    st_steps. rewrite i32_small by (cbn [length] in *; lia).
    apply inserted_intro; [by st_ok| |done|frame].
    apply (list_rep_link _ l [] p d ((a, d0) :: xs)); cbn [objs app hd_addr last_addr];
      [by lk|by lk|done| | |].
    + split; [by lk|]. eapply dlseg_ext; [|exact Hs]. intros b Hb. frame_at.
    + by constructor.
    + cbn. by apply not_elem_of_cons.
Qed.

Lemma insert_back_spec k al m l xs d index :
  store_ok (S k) (Store al m) -> list_rep m l xs -> d <> 0 -> xs <> [] ->
  Z.of_nat (length xs) <= index ->
  wp (linked_list_insert_at_index l d index) (inserted k m l xs d []) (Store al m).
Proof.
  intros Hok Hrep Hd Hne Hi. pose proof (list_rep_notin _ _ _ Hrep) as Hnl.
  pose proof (list_rep_length _ _ _ Hrep) as Hlen. pose proof (store_count _ _ Hok) as Hcnt.
  pose proof (store_ok_zero _ _ _ Hok) as H0. cbn [objs] in Hcnt.
  destruct Hrep as (Hl & Hs & Hnd). assert (l <> 0) by congruence.
  unfold linked_list_insert_at_index. destruct (Z.eqb_spec l 0), (Z.eqb_spec d 0); try done.
  destruct (Z.leb_spec 0 index); [|lia]. cbn [negb andb]. st_step.
  eapply wp_mono; [by apply create_node_spec|].
  intros p s1 (al1 & -> & Hp & Hm & Hok1). assert (p <> l) by congruence.
  destruct xs as [|[a d0] xs _] using rev_ind; [done|].
  destruct (dlseg_last _ _ _ _ _ _ Hs) as [Hxs Ha].
  pose proof (fresh_notin _ _ _ _ _ Hxs Hm) as Hpx.
  rewrite length_app in *. cbn [length] in *.
  rewrite hd_addr_app, last_addr_app in Hl. cbn [hd_addr last_addr] in Hl.
  destruct (NoDup_snoc _ _ _ Hnd) as [Hndx Hax].
  assert (a <> l) by congruence. assert (p <> a) by congruence.
  rewrite fmap_app in Hnl. apply not_elem_of_app in Hnl as [Hnl _].
  st_steps. destruct (Z.eqb_spec index 0); [lia|].
  destruct (Z.leb_spec (Z.of_nat (length xs + 1)) index); [|lia]. unfold incr_length. st_steps.
  rewrite i32_small by lia.
  apply inserted_intro; [by st_ok| |done|frame].
  apply (list_rep_snoc m _ l xs a d0 p d); cbn [objs]; [done|done| | |by lk|by lk|].
  - rewrite fmap_app. cbn. rewrite elem_of_app, list_elem_of_singleton. tauto.
  - lk. do 3 f_equal. lia.
  - intros b Hb. frame_at.
Qed.

Lemma insert_walk_spec fuel al m pv xs ys i index :
  dlseg m pv (xs ++ ys) 0 -> m !! 0 = None -> index = i + Z.of_nat (length xs) ->
  (length xs < fuel)%nat ->
  wp (insert_walk fuel i index (hd_addr (xs ++ ys) 0))
     (fun t s' => t = hd_addr ys 0 /\ s' = Store al m) (Store al m).
Proof.
  revert fuel pv i. induction xs as [|[a d] xs IH]; intros fuel pv i Hs H0 Hi Hf;
    (destruct fuel as [|fuel]; [cbn in Hf; lia|]); cbn [insert_walk app hd_addr].
  - destruct (Z.ltb_spec i index); [cbn in Hi; lia|]. by apply wp_ret.
  - destruct Hs as [Ha Hs]. cbn [length] in Hi.
    destruct (Z.ltb_spec i index); [|lia]. destruct (Z.eqb_spec a 0); [congruence|].
    cbn [negb andb]. st_steps.
    eapply IH; [exact Hs|done|lia|cbn in Hf; lia].
Qed.

Lemma insert_mid_spec k al m l xs a d0 b db ys d :
  store_ok (S k) (Store al m) -> list_rep m l ((xs ++ [(a, d0)]) ++ (b, db) :: ys) -> d <> 0 ->
  wp (linked_list_insert_at_index l d (Z.of_nat (length xs) + 1))
     (inserted k m l (xs ++ [(a, d0)]) d ((b, db) :: ys)) (Store al m).
Proof.
  intros Hok Hrep Hd. pose proof (list_rep_notin _ _ _ Hrep) as Hnl.
  pose proof (list_rep_length _ _ _ Hrep) as Hlen. pose proof (store_count _ _ Hok) as Hcnt.
  pose proof (store_ok_zero _ _ _ Hok) as H0. cbn [objs] in Hcnt.
  destruct Hrep as (Hl & Hs & Hnd). assert (l <> 0) by congruence.
  unfold linked_list_insert_at_index. destruct (Z.eqb_spec l 0), (Z.eqb_spec d 0); try done.
  destruct (Z.leb_spec 0 (Z.of_nat (length xs) + 1)); [|lia]. cbn [negb andb]. st_step.
  eapply wp_mono; [by apply create_node_spec|].
  intros p s1 (al1 & -> & Hp & Hm & Hok1). assert (p <> l) by congruence.
  pose proof (fresh_notin _ _ _ _ _ Hs Hm) as Hpx.
  pose proof (proj1 (dlseg_app _ _ _ _ _) Hs) as [Hs1 [Hb Hs2]].
  destruct (dlseg_last _ _ _ _ _ _ Hs1) as [Hs0 Ha]. cbn [hd_addr] in *.
  rewrite last_addr_app in Hb. cbn [last_addr] in Hb.
  rewrite !length_app in *. cbn [length] in *.
  pose proof Hnd as Hnd'. rewrite !fmap_app in Hnd'.
  destruct (NoDup_around _ _ _ _ Hnd') as (Hab & Hax & Hbx & Hay & Hby). clear Hnd'.
  assert (Hpx' : p ∈ ((xs ++ [(a, d0)]) ++ (b, db) :: ys).*1 -> False) by exact Hpx.
  split_notin.
  assert (a <> l) by congruence. assert (b <> l) by congruence.
  assert (p <> a) by congruence. assert (p <> b) by congruence. assert (a <> 0) by congruence.
  st_steps. destruct (Z.eqb_spec (Z.of_nat (length xs) + 1) 0); [lia|].
  rewrite (proj2 (Z.leb_gt _ _)) by lia. st_step. st_step. st_step.
  eapply wp_mono.
  { apply (insert_walk_spec _ al1 _ 0 (xs ++ [(a, d0)]) ((b, db) :: ys)).
    - by apply dlseg_fresh.
    - by lk.
    - rewrite length_app. cbn. lia.
    - unfold chain_fuel. cbn [objs]. rewrite map_size_insert_None by done.
      rewrite length_app. cbn. lia. }
  intros t s2 [-> ->]. cbn [hd_addr]. unfold incr_length. st_steps.
  rewrite i32_small by lia.
  apply inserted_intro; [by st_ok| |done|frame].
  apply list_rep_link; cbn [objs hd_addr last_addr];
    [ | | | |done|exact Hpx'].
  - lk. rewrite !hd_addr_app, !last_addr_app, !length_app. cbn. do 3 f_equal; lia.
  - lk. by rewrite last_addr_app.
  - eapply dlseg_relink_next; [exact Hs1|by lk|]. intros c Hc. frame_at.
  - eapply dlseg_relink_prev; [split; [exact Hb|exact Hs2]|by lk|]. intros c Hc. frame_at.
Qed.

Lemma remove_walk_found fuel al m pv xs p d ys :
  dlseg m pv (xs ++ (p, d) :: ys) 0 -> m !! 0 = None -> p ∉ xs.*1 -> (length xs < fuel)%nat ->
  wp (remove_walk fuel (hd_addr (xs ++ (p, d) :: ys) 0) p)
     (fun t s' => t = p /\ s' = Store al m) (Store al m).
Proof.
  revert fuel pv. induction xs as [|[a da] xs IH]; intros fuel pv Hs H0 Hp Hf;
    (destruct fuel as [|fuel]; [cbn in Hf; lia|]); cbn [remove_walk app hd_addr];
    destruct Hs as [Ha Hs].
  - destruct (Z.eqb_spec p 0); [congruence|]. rewrite Z.eqb_refl. by apply wp_ret.
  - destruct (Z.eqb_spec a 0); [congruence|]. split_notin.
    destruct (Z.eqb_spec a p); [congruence|]. st_steps. eapply IH; try done. cbn in Hf. lia.
Qed.

Lemma remove_walk_missing fuel al m pv xs p :
  dlseg m pv xs 0 -> m !! 0 = None -> p ∉ xs.*1 -> (length xs < fuel)%nat ->
  wp (remove_walk fuel (hd_addr xs 0) p) (fun t s' => t = 0 /\ s' = Store al m) (Store al m).
Proof.
  revert fuel pv. induction xs as [|[a da] xs IH]; intros fuel pv Hs H0 Hp Hf;
    (destruct fuel as [|fuel]; [cbn in Hf; lia|]); cbn [remove_walk hd_addr].
  - by apply wp_ret.
  - destruct Hs as [Ha Hs]. destruct (Z.eqb_spec a 0); [congruence|]. split_notin.
    destruct (Z.eqb_spec a p); [congruence|]. st_steps. eapply IH; try done. cbn in Hf. lia.
Qed.

Definition removed k m l xs ys (p : Z) (s' : store A) : Prop :=
  store_ok k s' /\ list_rep s'.(objs) l (xs ++ ys) /\ s'.(objs) !! p = None /\
  untouched (owned l (xs ++ (p, 0) :: ys)) m s'.(objs).

Lemma removed_intro k m l xs ys p s' :
  store_ok k s' ->
  s'.(objs) !! l = Some (OList (LnkLst (hd_addr (xs ++ ys) 0) (last_addr 0 (xs ++ ys))
                                       (Z.of_nat (length xs + length ys)))) ->
  dlseg s'.(objs) 0 xs (hd_addr ys 0) -> dlseg s'.(objs) (last_addr 0 xs) ys 0 ->
  NoDup (xs ++ ys).*1 -> s'.(objs) !! p = None ->
  untouched (owned l (xs ++ (p, 0) :: ys)) m s'.(objs) -> removed k m l xs ys p s'.
Proof.
  intros. unfold removed, list_rep. split_and!; try done.
  - by rewrite length_app.
  - by apply dlseg_app.
Qed.

(** The unlinked chain before the node is freed: the writes of each branch,
    then the common tail. *)
Lemma linked_list_remove_spec k al m l xs p d ys :
  store_ok k (Store al m) -> list_rep m l (xs ++ (p, d) :: ys) ->
  wp (linked_list_remove l p) (fun _ => removed k m l xs ys p) (Store al m).
Proof.
  intros Hok Hrep. pose proof (list_rep_notin _ _ _ Hrep) as Hnl.
  pose proof (list_rep_length _ _ _ Hrep) as Hlen. pose proof (store_count _ _ Hok) as Hcnt.
  pose proof (store_ok_zero _ _ _ Hok) as H0. cbn [objs] in Hcnt.
  destruct Hrep as (Hl & Hs & Hnd). assert (l <> 0) by congruence.
  assert (Hnd' : NoDup (xs ++ ys).*1 /\ (p ∉ (xs ++ ys).*1)).
  { rewrite fmap_app in *. cbn in Hnd. rewrite <- Permutation_middle in Hnd.
    by apply NoDup_cons in Hnd as [??]. }
  destruct Hnd' as [Hndxy Hpxy].
  pose proof (proj1 (dlseg_app _ _ _ _ _) Hs) as [Hs1 [Hp Hs2]]. cbn [hd_addr] in *.
  assert (p <> 0) by congruence. assert (p <> l) by congruence.
  unfold linked_list_remove. destruct (Z.eqb_spec l 0), (Z.eqb_spec p 0); try done.
  cbn [negb andb]. st_step. st_step. st_step. st_step. st_step. eapply wp_mono.
  { eapply remove_walk_found; [exact Hs|done|split_notin; done|].
    unfold chain_fuel. cbn [objs]. rewrite length_app in Hlen. lia. }
  intros t s1 [-> ->]. rewrite Z.eqb_refl. cbn [negb]. st_step. st_step. st_cbn.
  rewrite length_app in *. cbn [length] in Hl, Hlen. rewrite hd_addr_app, last_addr_app in *.
  cbn [hd_addr last_addr] in *. split_notin.
  destruct xs as [|[a da] xs _] using rev_ind; destruct ys as [|[b db] ys];
    cbn [app hd_addr last_addr] in *.
  - rewrite Z.eqb_refl. cbn [negb Z.eqb]. st_steps. eapply wp_free; [by st_ok|lkp|]. intros al' Hok'.
    st_steps. apply removed_intro; cbn [objs app hd_addr last_addr length];
      [st_ok|by lk|done|done|done|by lk; rewrite lookup_delete_eq|frame].
  - rewrite Z.eqb_refl. destruct Hs2 as [Hb Hs2]. assert (b <> 0) by congruence.
    assert (b <> l) by congruence. split_notin.
    destruct (Z.eqb_spec b 0); [done|]. cbn [negb]. st_steps.
    eapply wp_free; [by st_ok|lkp|]. intros al' Hok'. st_steps.
    rewrite i32_small by (cbn [length] in *; lia).
    apply NoDup_cons in Hndxy as [Hby Hndy].
    apply removed_intro; cbn [objs app hd_addr last_addr];
      [st_ok| |done| | |by lk; rewrite lookup_delete_eq|frame].
    + lk. do 3 f_equal. cbn. lia.
    + eapply dlseg_relink_prev; [split; [exact Hb|exact Hs2]|by lk|]. intros c Hc. frame_at.
    + by constructor.
  - destruct (dlseg_last _ _ _ _ _ _ Hs1) as [Hs0 Ha].
    rewrite !app_nil_r, ?length_app, ?hd_addr_app, ?last_addr_app in *.
    cbn [length hd_addr last_addr] in *.
    destruct (NoDup_snoc _ _ _ Hndxy) as [Hndx Hax].
    assert (a <> p) by congruence. assert (a <> l) by congruence. split_notin.
    destruct (Z.eqb_spec p (hd_addr xs a)) as [He|_].
    { exfalso. destruct xs as [|[c dc] xs]; cbn in He; [congruence|]. subst c.
      match goal with H : p ∉ _ |- _ => apply H; left end. }
    rewrite Z.eqb_refl. st_steps. eapply wp_free; [by st_ok|lkp|]. intros al' Hok'. st_steps.
    rewrite i32_small by lia.
    apply removed_intro; rewrite ?app_nil_r, ?length_app, ?hd_addr_app, ?last_addr_app;
      cbn [objs hd_addr last_addr length];
      [st_ok| | |done|done|by lk; rewrite lookup_delete_eq|frame].
    + lk. do 3 f_equal. lia.
    + eapply dlseg_relink_next; [exact Hs1|by lk|]. intros c Hc. frame_at.
  - destruct (dlseg_last _ _ _ _ _ _ Hs1) as [Hs0 Ha]. destruct Hs2 as [Hb Hs2].
    pose proof Hndxy as Hnd'. rewrite !fmap_app in Hnd'. cbn [fmap list_fmap fst] in Hnd'.
    destruct (NoDup_around _ _ _ _ Hnd') as (Hab & Hax & Hbx & Hay & Hby). clear Hnd'.
    rewrite ?length_app, ?hd_addr_app, ?last_addr_app in *. cbn [length hd_addr last_addr] in *.
    assert (a <> p) by congruence. assert (a <> l) by congruence. assert (b <> l) by congruence.
    split_notin.
    destruct (Z.eqb_spec p (hd_addr xs a)) as [He|_].
    { exfalso. destruct xs as [|[c dc] xs]; cbn in He; [congruence|]. subst c.
      match goal with H : p ∉ (_ :: xs).*1 |- _ => apply H; left
                    | H : p ∉ p :: _ |- _ => apply H; left end. }
    destruct (Z.eqb_spec p (last_addr b ys)) as [He|_].
    { exfalso. destruct ys as [|y ys]; [cbn in He; congruence|].
      match goal with H : p ∉ _ |- _ => apply H; rewrite He; by apply last_addr_in end. }
    st_steps. eapply wp_free; [by st_ok|lkp|]. intros al' Hok'. st_steps.
    rewrite i32_small by lia.
    apply removed_intro; rewrite ?length_app, ?hd_addr_app, ?last_addr_app;
      cbn [objs hd_addr last_addr length];
      [st_ok| | | |done|by lk; rewrite lookup_delete_eq|frame].
    + lk. do 3 f_equal. lia.
    + eapply dlseg_relink_next; [exact Hs1|by lk|]. intros c Hc. frame_at.
    + eapply dlseg_relink_prev; [split; [exact Hb|exact Hs2]|by lk|]. intros c Hc. frame_at.
Qed.

(** *** The other operations *)

Lemma linked_list_create_spec k al m :
  store_ok (S k) (Store al m) ->
  wp linked_list_create (fun l s' =>
    store_ok k s' /\ m !! l = None /\ list_rep s'.(objs) l [] /\ untouched [] m s'.(objs))
    (Store al m).
Proof.
  intros Hok. unfold linked_list_create. st_step. eapply wp_new; [done|by vm_compute|].
  intros l al' Hl Hm Hok'. st_steps. split_and!; [by st_ok|done| |].
  - cbn [objs]. split_and!; [by lk|done|constructor].
  - frame.
Qed.

Fixpoint find_addr (xs : list (Z * Z)) (d : Z) : Z :=
  match xs with [] => 0 | (a, d') :: xs' => if d' =? d then a else find_addr xs' d end.

Lemma find_loop_spec fuel al m pv xs d :
  dlseg m pv xs 0 -> m !! 0 = None -> (length xs < fuel)%nat ->
  wp (find_loop fuel (hd_addr xs 0) d) (fun t s' => t = find_addr xs d /\ s' = Store al m)
     (Store al m).
Proof.
  revert fuel pv. induction xs as [|[a da] xs IH]; intros fuel pv Hs H0 Hf;
    (destruct fuel as [|fuel]; [cbn in Hf; lia|]); cbn [find_loop hd_addr find_addr].
  - by apply wp_ret.
  - destruct Hs as [Ha Hs]. destruct (Z.eqb_spec a 0); [congruence|]. st_steps.
    destruct (da =? d); [by apply wp_ret|]. eapply IH; try done. cbn in Hf. lia.
Qed.

Lemma linked_list_find_spec k al m l xs d :
  store_ok k (Store al m) -> list_rep m l xs -> d <> 0 ->
  wp (linked_list_find l d) (fun t s' => t = find_addr xs d /\ s' = Store al m) (Store al m).
Proof.
  intros Hok Hrep Hd. pose proof (list_rep_length _ _ _ Hrep) as Hlen.
  pose proof (store_ok_zero _ _ _ Hok) as H0. destruct Hrep as (Hl & Hs & Hnd).
  assert (l <> 0) by congruence. unfold linked_list_find.
  destruct (Z.eqb_spec l 0), (Z.eqb_spec d 0); try done. cbn [negb andb]. st_steps.
  eapply find_loop_spec; [exact Hs|done|]. unfold chain_fuel. cbn [objs]. lia.
Qed.

Definition addr_at (xs : list (Z * Z)) (i : nat) : Z :=
  match xs !! i with Some (a, _) => a | None => 0 end.

Lemma get_at_loop_spec fuel al m pv xs i index :
  dlseg m pv xs 0 -> m !! 0 = None -> 0 <= i <= index -> (length xs < fuel)%nat ->
  wp (get_at_loop fuel (hd_addr xs 0) i index)
     (fun t s' => t = addr_at xs (Z.to_nat (index - i)) /\ s' = Store al m) (Store al m).
Proof.
  revert fuel pv i. induction xs as [|[a da] xs IH]; intros fuel pv i Hs H0 Hi Hf;
    (destruct fuel as [|fuel]; [cbn in Hf; lia|]); cbn [get_at_loop hd_addr].
  - by apply wp_ret.
  - destruct Hs as [Ha Hs]. destruct (Z.eqb_spec a 0); [congruence|].
    destruct (Z.leb_spec 0 index); [|lia]. cbn [negb andb].
    destruct (Z.eqb_spec index i) as [->|].
    + apply wp_ret. by rewrite Z.sub_diag.
    + st_steps. eapply wp_mono; [eapply IH; try done; cbn in Hf; lia|].
      intros t s' [-> ->]. split; [|done]. unfold addr_at.
      by replace (Z.to_nat (index - i)) with (S (Z.to_nat (index - (i + 1)))) by lia.
Qed.

Lemma linked_list_get_at_spec k al m l xs index :
  store_ok k (Store al m) -> list_rep m l xs -> 0 <= index ->
  wp (linked_list_get_at l index)
     (fun t s' => t = addr_at xs (Z.to_nat index) /\ s' = Store al m) (Store al m).
Proof.
  intros Hok Hrep Hi. pose proof (list_rep_length _ _ _ Hrep) as Hlen.
  pose proof (store_ok_zero _ _ _ Hok) as H0. destruct Hrep as (Hl & Hs & Hnd).
  assert (l <> 0) by congruence. unfold linked_list_get_at.
  destruct (Z.eqb_spec l 0); [done|]. st_steps.
  eapply wp_mono; [eapply get_at_loop_spec; [exact Hs|done|lia|]|].
  { unfold chain_fuel. cbn [objs]. lia. }
  cbn. intros t s' [-> ->]. by rewrite Z.sub_0_r.
Qed.

Fixpoint index_addr (xs : list (Z * Z)) (p d i : Z) : Z :=
  match xs with
  | [] => -1
  | (a, d') :: xs' => if (a =? p) || (d' =? d) then i else index_addr xs' p d (i + 1)
  end.

Lemma index_of_loop_spec fuel al m pv xs p n i :
  dlseg m pv xs 0 -> m !! 0 = None -> m !! p = Some (ONode n) -> (length xs < fuel)%nat ->
  wp (index_of_loop fuel (hd_addr xs 0) p i)
     (fun t s' => t = index_addr xs p n.(data) i /\ s' = Store al m) (Store al m).
Proof.
  revert fuel pv i. induction xs as [|[a da] xs IH]; intros fuel pv i Hs H0 Hp Hf;
    (destruct fuel as [|fuel]; [cbn in Hf; lia|]); cbn [index_of_loop hd_addr index_addr].
  - by apply wp_ret.
  - destruct Hs as [Ha Hs]. destruct (Z.eqb_spec a 0); [congruence|].
    destruct (Z.eqb_spec a p); cbn [orb]; [by apply wp_ret|]. st_steps.
    destruct (da =? data n); [by apply wp_ret|]. eapply IH; try done. cbn in Hf. lia.
Qed.

Lemma linked_list_index_of_spec k al m l xs p n :
  store_ok k (Store al m) -> list_rep m l xs -> m !! p = Some (ONode n) ->
  wp (linked_list_index_of l p)
     (fun t s' => t = index_addr xs p n.(data) 0 /\ s' = Store al m) (Store al m).
Proof.
  intros Hok Hrep Hp. pose proof (list_rep_length _ _ _ Hrep) as Hlen.
  pose proof (store_ok_zero _ _ _ Hok) as H0. destruct Hrep as (Hl & Hs & Hnd).
  assert (l <> 0) by congruence. assert (p <> 0) by congruence. unfold linked_list_index_of.
  destruct (Z.eqb_spec l 0), (Z.eqb_spec p 0); try done. cbn [negb andb]. st_steps.
  eapply index_of_loop_spec; [exact Hs|done|done|]. unfold chain_fuel. cbn [objs]. lia.
Qed.

Lemma nth_walk_spec al m pv xs ys :
  dlseg m pv (xs ++ ys) 0 ->
  wp (nth_walk (length xs) (hd_addr (xs ++ ys) 0))
     (fun t s' => t = hd_addr ys 0 /\ s' = Store al m) (Store al m).
Proof.
  revert pv. induction xs as [|[a da] xs IH]; intros pv Hs; cbn [nth_walk length app hd_addr].
  - by apply wp_ret.
  - destruct Hs as [Ha Hs]. st_steps. by eapply IH.
Qed.

(** A negative index behaves like 0. *)
Lemma remove_at_index_spec k al m l xs p d ys i :
  store_ok k (Store al m) -> list_rep m l (xs ++ (p, d) :: ys) -> Z.to_nat i = length xs ->
  wp (linked_list_remove_at_index l i) (fun _ => removed k m l xs ys p) (Store al m).
Proof.
  intros Hok Hrep Hi. pose proof (store_ok_zero _ _ _ Hok) as H0.
  assert (l <> 0) by (destruct Hrep; congruence).
  unfold linked_list_remove_at_index. destruct (Z.eqb_spec l 0); [done|].
  pose proof Hrep as (Hl & Hs & _). st_steps. rewrite length_app. cbn [length].
  destruct (Z.ltb_spec i (Z.of_nat (length xs + S (length ys)))); [|lia].
  st_step. rewrite Hi. eapply wp_mono; [by eapply nth_walk_spec|].
  intros t s' [-> ->]. cbn [hd_addr]. by eapply linked_list_remove_spec.
Qed.

Lemma destroy_loop_spec fuel k al m pv xs :
  store_ok k (Store al m) -> dlseg m pv xs 0 -> NoDup xs.*1 -> (length xs < fuel)%nat ->
  wp (destroy_loop fuel (hd_addr xs 0))
     (fun _ s' => store_ok k s' /\ (forall a, a ∈ xs.*1 -> s'.(objs) !! a = None) /\
                  (forall a, a ∉ xs.*1 -> s'.(objs) !! a = m !! a)) (Store al m).
Proof.
  revert fuel pv al m. induction xs as [|[a da] xs IH]; intros fuel pv al m Hok Hs Hnd Hf;
    (destruct fuel as [|fuel]; [cbn in Hf; lia|]); cbn [destroy_loop hd_addr].
  - apply wp_ret. split_and!; [done| |done]. intros a Ha. by apply not_elem_of_nil in Ha.
  - destruct Hs as [Ha Hs]. pose proof (store_ok_zero _ _ _ Hok).
    destruct (Z.eqb_spec a 0); [congruence|]. apply NoDup_cons in Hnd as [Hax Hnd].
    st_steps. eapply wp_free; [done|by eexists|]. intros al' Hok'.
    eapply wp_mono; [eapply (IH _ a); [exact Hok'| |done|cbn in Hf; lia]|].
    + eapply dlseg_ext; [|exact Hs]. intros b Hb. frame_at.
    + intros _ s' (Hok2 & Hin & Hout). split_and!; [done|..]; intros b Hb.
      * cbn in Hb. apply elem_of_cons in Hb as [->|Hb]; [|by apply Hin].
        rewrite Hout by done. by rewrite lookup_delete_eq.
      * cbn in Hb. apply not_elem_of_cons in Hb as [? ?]. rewrite Hout by done. by lk.
Qed.

Lemma linked_list_destroy_spec k al m l xs :
  store_ok k (Store al m) -> list_rep m l xs ->
  wp (linked_list_destroy l)
     (fun _ s' => store_ok k s' /\ (forall a, a ∈ owned l xs -> s'.(objs) !! a = None) /\
                  (forall a, a ∉ owned l xs -> s'.(objs) !! a = m !! a)) (Store al m).
Proof.
  intros Hok Hrep. pose proof (list_rep_length _ _ _ Hrep) as Hlen.
  pose proof (store_ok_zero _ _ _ Hok) as H0. pose proof (list_rep_notin _ _ _ Hrep) as Hnl.
  destruct Hrep as (Hl & Hs & Hnd). assert (l <> 0) by congruence.
  unfold linked_list_destroy. destruct (Z.eqb_spec l 0); [done|]. st_steps.
  eapply wp_mono; [eapply destroy_loop_spec; [done|exact Hs|done|]|].
  { unfold chain_fuel. cbn [objs]. lia. }
  intros _ [al' m'] (Hok' & Hin & Hout). cbn [objs] in *.
  eapply wp_free; [done|rewrite Hout by done; by eexists|]. intros al2 Hok2. cbn [objs].
  unfold owned. split_and!; [done|..]; intros a Ha.
  - apply elem_of_cons in Ha as [->|Ha]; [by rewrite lookup_delete_eq|].
    rewrite lookup_delete_ne by (intros ->; contradiction). by apply Hin.
  - apply not_elem_of_cons in Ha as [? ?]. rewrite lookup_delete_ne by done. by apply Hout.
Qed.
End proofs.

(** * Refinement of abstract lists *)

(** The mutators; the last one is the kernel's idiom
    [linked_list_remove(list, linked_list_find(list, data))]. *)
Inductive lop :=
| LAppend (d : Z)
| LInsert (d i : Z)
| LRemoveAt (i : Z)
| LRemoveData (d : Z).

Fixpoint remove_first (d : Z) (ds : list Z) : list Z :=
  match ds with [] => [] | x :: ds' => if x =? d then ds' else x :: remove_first d ds' end.

(** What each mutator does to the list of stored data. *)
Definition lop_spec (ds : list Z) (op : lop) : list Z :=
  match op with
  | LAppend d => if d =? 0 then ds else ds ++ [d]
  | LInsert d i =>
      if (d =? 0) || (i <? 0) then ds
      else take (Z.to_nat i) ds ++ d :: drop (Z.to_nat i) ds
  | LRemoveAt i => delete (Z.to_nat i) ds
  | LRemoveData d => if d =? 0 then ds else remove_first d ds
  end.

(** [linked_list_insert_at_index] past the front of an empty list is the one
    use that is not defined (it writes through the NULL [list_tail]). *)
Definition lop_safe (ds : list Z) (op : lop) : Prop :=
  match op with LInsert d i => d <> 0 -> 0 < i -> ds <> [] | _ => True end.

Fixpoint lops_safe (ds : list Z) (ops : list lop) : Prop :=
  match ops with [] => True | op :: ops' => lop_safe ds op /\ lops_safe (lop_spec ds op) ops' end.

Lemma dlseg_lookup m pv xs nx i p d :
  dlseg m pv xs nx -> xs !! i = Some (p, d) -> exists n, m !! p = Some (ONode n) /\ n.(data) = d.
Proof.
  revert pv i. induction xs as [|[a da] xs IH]; intros pv i Hs Hi; [done|].
  destruct Hs as [Ha Hs]. destruct i as [|i]; cbn in Hi; [simplify_eq; by eexists|eauto].
Qed.

(** The first position storing [d], found by data and by node alike. *)
Lemma first_with_data xs p d i :
  NoDup xs.*1 -> xs !! i = Some (p, d) ->
  exists j q, find_addr xs d = q /\ index_addr xs p d 0 = Z.of_nat j /\
    xs !! j = Some (q, d) /\ (forall j' x, (j' < j)%nat -> xs !! j' = Some x -> x.2 <> d).
Proof.
  intros Hnd Hi.
  assert (Hg : forall c, exists j q, find_addr xs d = q /\ index_addr xs p d c = c + Z.of_nat j /\
    xs !! j = Some (q, d) /\ (forall j' x, (j' < j)%nat -> xs !! j' = Some x -> x.2 <> d)).
  { revert i Hi. induction xs as [|[a da] xs IH]; intros i Hi c; [done|].
    apply NoDup_cons in Hnd as [Ha Hnd]. specialize (IH Hnd).
    cbn [find_addr index_addr]. destruct (Z.eqb_spec da d) as [->|Hne].
    - exists O, a. rewrite orb_true_r. split_and!; try done; [lia|]. intros; lia.
    - destruct i as [|i]; cbn in Hi; [simplify_eq|].
      destruct (IH i Hi (c + 1)) as (j & q & H1 & H2 & H3 & H4). exists (S j), q.
      destruct (Z.eqb_spec a p) as [->|]; cbn [orb].
      + exfalso. apply Ha, list_elem_of_fmap. exists (p, d). split; [done|].
        by eapply list_elem_of_lookup_2.
      + split_and!; try done; [lia|]. intros [|j'] x Hj Hx; cbn in Hx; [by simplify_eq|].
        eapply H4; [|done]. lia. }
  destruct (Hg 0) as (j & q & H1 & H2 & H3). by exists j, q.
Qed.

Section refinement.
Context {A : Type} `{Allocator A}.
Implicit Types (al : A) (m : gmap Z obj).

Definition run_lop (l : Z) (op : lop) : cmd (store A) unit :=
  match op with
  | LAppend d => linked_list_append l d ;;; ret tt
  | LInsert d i => linked_list_insert_at_index l d i ;;; ret tt
  | LRemoveAt i => linked_list_remove_at_index l i
  | LRemoveData d => n <- linked_list_find l d ;; linked_list_remove l n
  end.

Fixpoint run_lops (l : Z) (ops : list lop) : cmd (store A) unit :=
  match ops with [] => ret tt | op :: ops' => run_lop l op ;;; run_lops l ops' end.

(** The list at [l] now stores [ds], its nodes are old ones of [xs] or new
    blocks, and no other object changed. *)
Definition lop_post k m l xs (ds : list Z) (s' : store A) : Prop :=
  exists xs', store_ok k s' /\ list_rep s'.(objs) l xs' /\ xs'.*2 = ds /\
    untouched (owned l xs) m s'.(objs) /\ (forall a, a ∈ xs'.*1 -> a ∈ xs.*1 \/ m !! a = None).

Lemma lop_post_same k al m l xs :
  store_ok k (Store al m) -> list_rep m l xs -> lop_post k m l xs xs.*2 (Store al m).
Proof. intros Hok Hrep. exists xs. split_and!; try done. by left. Qed.

Lemma inserted_post k m l xs d ys p s' :
  inserted k m l xs d ys p s' -> lop_post k m l (xs ++ ys) (xs.*2 ++ d :: ys.*2) s'.
Proof.
  intros (Hok & Hrep & Hp & Hu). exists (xs ++ (p, d) :: ys). split_and!; try done.
  - by rewrite fmap_app.
  - intros a Ha. rewrite !fmap_app in *. cbn in Ha. set_unfold. naive_solver.
Qed.

Lemma removed_post k m l xs p d ys s' :
  removed k m l xs ys p s' -> lop_post k m l (xs ++ (p, d) :: ys) (xs.*2 ++ ys.*2) s'.
Proof.
  intros (Hok & Hrep & Hp & Hu). exists (xs ++ ys). split_and!; try done.
  - by rewrite fmap_app.
  - unfold owned in *. rewrite fmap_app in *. done.
  - intros a Ha. left. rewrite !fmap_app in *. cbn. set_unfold. naive_solver.
Qed.

Lemma find_addr_split xs d :
  d ∈ xs.*2 -> exists xs1 p xs2, xs = xs1 ++ (p, d) :: xs2 /\ find_addr xs d = p /\
    remove_first d xs.*2 = xs1.*2 ++ xs2.*2.
Proof.
  induction xs as [|[a da] xs IH]; cbn; intros Hin; [by apply not_elem_of_nil in Hin|].
  destruct (Z.eqb_spec da d) as [->|].
  - by exists [], a, xs.
  - apply elem_of_cons in Hin as [?|Hin]; [done|].
    destruct (IH Hin) as (xs1 & p & xs2 & -> & ? & ->). by exists ((a, da) :: xs1), p, xs2.
Qed.

Lemma find_addr_none xs d :
  d ∉ xs.*2 -> find_addr xs d = 0 /\ remove_first d xs.*2 = xs.*2.
Proof.
  induction xs as [|[a da] xs IH]; cbn; intros Hin; [done|].
  apply not_elem_of_cons in Hin as [? Hin].
  destruct (Z.eqb_spec da d); [congruence|]. by destruct (IH Hin) as [-> ->].
Qed.

Lemma insert_at_spec k al m l xs d i :
  store_ok (S k) (Store al m) -> list_rep m l xs -> d <> 0 -> 0 <= i -> (0 < i -> xs <> []) ->
  wp (linked_list_insert_at_index l d i)
     (inserted k m l (take (Z.to_nat i) xs) d (drop (Z.to_nat i) xs)) (Store al m).
Proof.
  intros Hok Hrep Hd Hi Hne. destruct (decide (i = 0)) as [->|].
  { by apply insert_front_spec. }
  destruct (decide (Z.of_nat (length xs) <= i)).
  { rewrite take_ge, drop_ge by lia. apply insert_back_spec; try done. apply Hne. lia. }
  pose proof (take_drop (Z.to_nat i) xs) as Hsplit.
  assert (Hlt : length (take (Z.to_nat i) xs) = Z.to_nat i) by (rewrite length_take; lia).
  destruct (drop (Z.to_nat i) xs) as [|[b db] ys] eqn:Hy.
  { apply (f_equal length) in Hy. rewrite length_drop in Hy. cbn in Hy. lia. }
  destruct (take (Z.to_nat i) xs) as [|[a d0] ts _] using rev_ind; [cbn in Hlt; lia|].
  rewrite length_app in Hlt. cbn in Hlt. rewrite <- Hsplit in Hrep.
  replace i with (Z.of_nat (length ts) + 1) by lia. by apply insert_mid_spec.
Qed.

Lemma run_lop_sim k al m l xs op :
  store_ok (S k) (Store al m) -> list_rep m l xs -> lop_safe xs.*2 op ->
  wp (run_lop l op) (fun _ => lop_post k m l xs (lop_spec xs.*2 op)) (Store al m).
Proof.
  intros Hok Hrep Hsafe. pose proof (store_ok_mono _ _ Hok) as Hok'.
  pose proof (store_ok_zero _ _ _ Hok) as H0.
  assert (l <> 0) by (destruct Hrep; congruence).
  destruct op as [d|d i|i|d]; cbn [run_lop lop_spec lop_safe] in *.
  - apply wp_bind. destruct (Z.eqb_spec d 0) as [->|Hd].
    + unfold linked_list_append. rewrite Z.eqb_refl, andb_false_r. apply wp_ret, wp_ret.
      by eapply lop_post_same.
    + eapply wp_mono; [by apply linked_list_append_spec|]. intros p s' Hi. apply wp_ret.
      apply inserted_post in Hi. by rewrite app_nil_r in Hi.
  - apply wp_bind. destruct ((d =? 0) || (i <? 0)) eqn:Hc.
    + unfold linked_list_insert_at_index.
      assert (negb (d =? 0) && (0 <=? i) = false) as Hc'.
      { apply orb_true_iff in Hc as [->|Hc%Z.ltb_lt]; [done|].
        rewrite (proj2 (Z.leb_gt 0 i)) by lia. by rewrite andb_false_r. }
      rewrite <- andb_assoc, Hc', andb_false_r. apply wp_ret, wp_ret. by eapply lop_post_same.
    + apply orb_false_iff in Hc as [Hd%Z.eqb_neq Hi%Z.ltb_ge].
      eapply wp_mono; [apply insert_at_spec; try done|].
      { intros Hp Hx. subst xs. by apply Hsafe. }
      intros p s' HI. apply wp_ret. apply inserted_post in HI.
      by rewrite take_drop, fmap_take, fmap_drop in HI.
  - destruct (decide (Z.of_nat (length xs) <= i \/ xs = [])) as [Hge|Hlt].
    + rewrite delete_take_drop. unfold linked_list_remove_at_index.
      destruct (Z.eqb_spec l 0); [done|]. pose proof Hrep as (Hl & _ & _). st_steps.
      rewrite take_ge, drop_ge, app_nil_r by (rewrite length_fmap; destruct Hge as [?| ->]; cbn; lia).
      destruct (Z.ltb_spec i (Z.of_nat (length xs))); [|st_steps; by eapply lop_post_same].
      destruct Hge as [?| ->]; [lia|]. cbn in H2. replace (Z.to_nat i) with O by lia.
      cbn [nth_walk hd_addr]. st_steps. unfold linked_list_remove. rewrite andb_false_r.
      st_steps. by eapply lop_post_same.
    + apply Decidable.not_or in Hlt as [Hlt Hne].
      destruct (lookup_lt_is_Some_2 xs (Z.to_nat i)) as [[p d] Hp]; [destruct xs; cbn in *; [done|lia]|].
      pose proof (take_drop_middle _ _ _ Hp) as Hsplit.
      assert (Hlen : Z.to_nat i = length (take (Z.to_nat i) xs)).
      { rewrite length_take. apply lookup_lt_Some in Hp. lia. }
      rewrite delete_take_drop, <- fmap_take, <- fmap_drop. rewrite <- Hsplit in Hrep.
      eapply wp_mono; [by eapply remove_at_index_spec|]. intros u s' Hr.
      apply (removed_post _ _ _ _ _ d) in Hr. by rewrite Hsplit in Hr.
  - destruct (Z.eqb_spec d 0) as [->|Hd].
    { unfold linked_list_find. rewrite Z.eqb_refl, andb_false_r. st_steps.
      unfold linked_list_remove. rewrite Z.eqb_refl, andb_false_r. st_steps.
      by eapply lop_post_same. }
    st_step. eapply wp_mono; [by eapply linked_list_find_spec|]. intros t s' [-> ->].
    destruct (decide (d ∈ xs.*2)) as [Hin|Hin].
    + destruct (find_addr_split _ _ Hin) as (xs1 & p & xs2 & -> & -> & ->).
      eapply wp_mono; [by eapply linked_list_remove_spec|]. intros u s' Hr.
      by eapply removed_post.
    + destruct (find_addr_none _ _ Hin) as [-> ->].
      unfold linked_list_remove. rewrite Z.eqb_refl, andb_false_r. st_steps.
      by eapply lop_post_same.
Qed.

Lemma lop_post_trans k m l xs ds s1 xs1 k' ds' s2 :
  list_rep m l xs -> lop_post k m l xs ds s1 -> list_rep s1.(objs) l xs1 ->
  (forall a, a ∈ xs1.*1 -> a ∈ xs.*1 \/ m !! a = None) ->
  lop_post k' s1.(objs) l xs1 ds' s2 -> lop_post k' m l xs ds' s2.
Proof.
  intros Hrep (xs0 & _ & _ & _ & Hu & _) Hrep1 Hin1 (xs2 & Hok2 & Hrep2 & Hds & Hu2 & Hin2).
  exists xs2. split_and!; try done.
  - intros a Ha Hs. unfold owned in *. split_notin. rewrite <- (Hu a); [|by apply not_elem_of_cons|done].
    apply Hu2; [|by rewrite (Hu a); [|apply not_elem_of_cons|]]. apply not_elem_of_cons. split; [done|].
    intros Hin. apply Hin1 in Hin as [?|Hn]; [done|]. rewrite Hn in Hs. by destruct Hs.
  - intros a Ha. destruct (Hin2 a Ha) as [?|Hn]; [by apply Hin1|].
    destruct (decide (a ∈ xs.*1)) as [|Hax]; [by left|right].
    destruct (m !! a) as [o|] eqn:Hma; [|done]. exfalso.
    assert (a <> l) by (destruct Hrep1; congruence).
    rewrite (Hu a) in Hn; [congruence| |by eexists]. by apply not_elem_of_cons.
Qed.

Lemma run_lops_sim ops k al m l xs :
  store_ok (length ops + k) (Store al m) -> list_rep m l xs -> lops_safe xs.*2 ops ->
  wp (run_lops l ops) (fun _ => lop_post k m l xs (fold_left lop_spec ops xs.*2)) (Store al m).
Proof.
  revert al m xs. induction ops as [|op ops IH]; intros al m xs Hok Hrep Hsafe;
    cbn [run_lops fold_left].
  - apply wp_ret. by eapply lop_post_same.
  - cbn [length Nat.add] in Hok. destruct Hsafe as [Hs1 Hs2]. apply wp_bind.
    eapply wp_mono; [by eapply run_lop_sim|]. intros u [al1 m1] Hpost.
    pose proof Hpost as (xs1 & Hok1 & Hrep1 & Hds & _ & Hin). rewrite <- Hds in Hs2 |- *.
    eapply wp_mono; [by eapply IH|]. intros u2 s2 Hpost2. by eapply lop_post_trans.
Qed.

(** Inserting past the front of an empty list writes through the NULL
    tail pointer: [linked_list_insert_at_index] has no guard for it. *)
Lemma insert_into_empty_faults k al m l d i :
  store_ok (S k) (Store al m) -> list_rep m l [] -> d <> 0 -> 0 < i ->
  linked_list_insert_at_index l d i (Store al m) = Fault.
Proof.
  intros Hok (Hl & _ & _) Hd Hi. pose proof (store_ok_zero _ _ _ Hok) as H0.
  assert (l <> 0) by congruence.
  unfold linked_list_insert_at_index.
  destruct (Z.eqb_spec l 0), (Z.eqb_spec d 0), (Z.leb_spec 0 i); try done; try lia.
  cbn [negb andb]. unfold bind.
  destruct (wp_inv _ _ _ (create_node_spec k al m l d Hok ltac:(done) Hd))
    as (p & s1 & -> & al1 & -> & Hp & Hm & _).
  unfold get_list at 1. cbn [objs]. rewrite lookup_insert_ne by congruence. rewrite Hl.
  cbn [hd_addr last_addr list_length list_tail length].
  destruct (Z.eqb_spec i 0), (Z.leb_spec (Z.of_nat 0) i); try lia.
  unfold set_nnext, bind, get_node. cbn [objs]. by rewrite lookup_insert_ne, H0 by done.
Qed.

#[local] Instance lop_safe_dec ds op : Decision (lop_safe ds op).
Proof. destruct op; cbn; solve_decision. Defined.

Lemma run_lops_unsafe ops k al m l xs :
  store_ok (length ops + k) (Store al m) -> list_rep m l xs -> ~ lops_safe xs.*2 ops ->
  run_lops l ops (Store al m) = Fault.
Proof.
  revert al m xs. induction ops as [|op ops IH]; intros al m xs Hok Hrep Hsafe; cbn [run_lops lops_safe] in *; [tauto|].
  cbn [length Nat.add] in Hok. destruct (decide (lop_safe xs.*2 op)) as [Hs|Hs].
  - destruct (wp_inv _ _ _ (run_lop_sim _ _ _ _ _ _ Hok Hrep Hs)) as (u & [al1 m1] & E & xs1 & Hok1 & Hrep1 & Hds & _).
    unfold bind. rewrite E. apply (IH al1 m1 xs1 Hok1 Hrep1). rewrite Hds. tauto.
  - destruct op as [d|d i|i|d]; cbn in Hs; try tauto.
    assert (d <> 0 /\ 0 < i /\ xs = []) as (Hd & Hi & ->).
    { destruct xs; [|exfalso; apply Hs; done]. split_and!; [intros ->; tauto| |done].
      destruct (decide (0 < i)); [done|]. exfalso. apply Hs. intros. lia. }
    unfold bind. cbn [run_lop]. unfold bind. by rewrite (insert_into_empty_faults _ _ _ _ _ _ Hok).
Qed.

(** C2: the linked list implements the abstract list: from any list storing
    [xs] and any sequence of appends, insertions and removals (by index or by
    data) in which no insertion past the front meets an empty list, every
    operation terminates without touching a dangling or NULL pointer, the list at
    [l] ends up storing exactly what the operations on abstract lists give, and
    every other object (so every other list) is unchanged.  A sequence with such
    an insertion ends there with a write through the NULL tail pointer. *)
Theorem linked_list_refines ops k al m l xs :
  store_ok (length ops + k) (Store al m) -> list_rep m l xs ->
  (lops_safe xs.*2 ops ->
   wp (run_lops l ops) (fun _ s' => exists xs',
     store_ok k s' /\ list_rep s'.(objs) l xs' /\ xs'.*2 = fold_left lop_spec ops xs.*2 /\
     untouched (owned l xs) m s'.(objs)) (Store al m)) /\
  (~ lops_safe xs.*2 ops -> run_lops l ops (Store al m) = Fault).
Proof.
  intros Hok Hrep. split; [|by apply (run_lops_unsafe ops k)]. intros Hsafe. eapply wp_mono; [by eapply run_lops_sim|].
  intros _ s' (xs' & ? & ? & ? & ? & _). by exists xs'.
Qed.

(** The queries agree with the abstract list and change nothing:
    [linked_list_find] returns the first node storing the data,
    [linked_list_get_at] the node at an index (NULL past the end), and the
    two are inverse to [linked_list_index_of] on the data. *)
Theorem linked_list_queries k al m l xs i p d :
  store_ok k (Store al m) -> list_rep m l xs -> d <> 0 -> xs !! i = Some (p, d) ->
  linked_list_get_at l (Z.of_nat i) (Store al m) = Ret (p, Store al m) /\
  linked_list_get_at l (Z.of_nat (length xs)) (Store al m) = Ret (0, Store al m) /\
  exists j q, linked_list_find l d (Store al m) = Ret (q, Store al m) /\
    linked_list_index_of l p (Store al m) = Ret (Z.of_nat j, Store al m) /\
    xs !! j = Some (q, d) /\ (forall j' x, (j' < j)%nat -> xs !! j' = Some x -> x.2 <> d).
Proof.
  intros Hok Hrep Hd Hi.
  destruct (wp_inv _ _ _ (linked_list_get_at_spec k al m l xs (Z.of_nat i) Hok Hrep ltac:(lia)))
    as (? & ? & -> & -> & ->).
  destruct (wp_inv _ _ _ (linked_list_get_at_spec k al m l xs (Z.of_nat (length xs)) Hok Hrep
    ltac:(lia))) as (? & ? & -> & -> & ->).
  destruct (wp_inv _ _ _ (linked_list_find_spec k al m l xs d Hok Hrep Hd))
    as (? & ? & -> & -> & ->).
  assert (Hn : exists n, m !! p = Some (ONode n) /\ n.(data) = d).
  { destruct Hrep as (_ & Hs & _). by eapply dlseg_lookup. }
  destruct Hn as (n & Hp & Hnd).
  destruct (wp_inv _ _ _ (linked_list_index_of_spec k al m l xs p n Hok Hrep Hp))
    as (? & ? & -> & -> & ->).
  unfold addr_at. rewrite !Nat2Z.id, Hi, lookup_ge_None_2 by lia. split_and!; [done..|].
  rewrite Hnd. destruct (first_with_data xs p d i (proj2 (proj2 Hrep)) Hi) as (j & q & H1 & H2 & H3 & H4).
  exists j, q. by rewrite H1, H2.
Qed.
End refinement.

(** ** On concrete lists *)

#[local] Existing Instance bump_allocator.

(** One list, at address 1, storing 7, 8, 7. *)
Definition demo_objs : gmap Z obj :=
  <[1 := OList (LnkLst 2 4 3)]> (<[2 := ONode (DNode 0 3 7)]>
  (<[3 := ONode (DNode 2 4 8)]> (<[4 := ONode (DNode 3 0 7)]> ∅))).
Definition demo_store : store bump := Store (bump_at 5 [1; 2; 3; 4]) demo_objs.

Lemma demo_store_ok : store_ok 100 demo_store.
Proof.
  store_by_compute.
Qed.

Lemma demo_list_rep : list_rep demo_objs 1 [(2, 7); (3, 8); (4, 7)].
Proof.
  unfold list_rep. split_and!; [done|by vm_compute|]. apply (bool_decide_unpack _). by vm_compute.
Qed.

Lemma linked_list_refines_witness :
  wp (run_lops 1 [LAppend 9; LInsert 5 1; LRemoveAt 0; LRemoveData 7]) (fun _ s' => exists xs',
    store_ok 96 s' /\ list_rep s'.(objs) 1 xs' /\ xs'.*2 = [5; 8; 9] /\
    untouched (owned 1 [(2, 7); (3, 8); (4, 7)]) demo_objs s'.(objs)) demo_store.
Proof.
  apply (linked_list_refines [LAppend 9; LInsert 5 1; LRemoveAt 0; LRemoveData 7] 96 _ _ 1
           [(2, 7); (3, 8); (4, 7)]).
  - exact demo_store_ok.
  - exact demo_list_rep.
  - cbn. done.
Defined.

Lemma linked_list_queries_witness :
  linked_list_get_at 1 2 demo_store = Ret (4, demo_store) /\
  linked_list_get_at 1 3 demo_store = Ret (0, demo_store) /\
  exists j q, linked_list_find 1 7 demo_store = Ret (q, demo_store) /\
    linked_list_index_of 1 4 demo_store = Ret (Z.of_nat j, demo_store) /\
    [(2, 7); (3, 8); (4, 7)] !! j = Some (q, 7) /\
    (forall j' x, (j' < j)%nat -> [(2, 7); (3, 8); (4, 7)] !! j' = Some x -> x.2 <> 7).
Proof.
  apply (linked_list_queries 100 _ _ 1 [(2, 7); (3, 8); (4, 7)] 2 4 7);
    [exact demo_store_ok|exact demo_list_rep|done|done].
Defined.

(** * [libraries/liblist/liblist.c]

    The user-space copy: the same functions under other names, with
    [malloc] and [free] for the allocator. *)
Module Liblist.
Section liblist.
Context {A : Type} `{Allocator A}.
Definition list_create : cmd (store A) Z := linked_list_create.
Definition list_destroy (list : Z) : cmd (store A) unit := linked_list_destroy list.
Definition list_insert_at_index (list data index : Z) : cmd (store A) Z :=
  linked_list_insert_at_index list data index.
Definition list_append (list data : Z) : cmd (store A) Z := linked_list_append list data.
Definition list_find (list data : Z) : cmd (store A) Z := linked_list_find list data.
Definition list_get_at (list index : Z) : cmd (store A) Z := linked_list_get_at list index.
Definition list_index_of (list node : Z) : cmd (store A) Z := linked_list_index_of list node.
Definition list_remove (list node : Z) : cmd (store A) unit := linked_list_remove list node.
Definition list_remove_at_index (list index : Z) : cmd (store A) unit :=
  linked_list_remove_at_index list index.
Definition list_traverse (list : Z) (f : Z -> Z -> cmd (store A) unit) : cmd (store A) unit :=
  linked_list_traverse list f.
End liblist.
End Liblist.
