(* ===== verification/QueueModel.v ===== *)
(** [kernel/util/queue.c]: the bounded FIFO queues behind the scheduler's ready
    queue, refining an abstract bounded queue. *)
From stdpp Require Import base numbers gmap list.
From S2P Require Import Prelude Allocator Store LinkedList.

Definition SIZEOF_QUEUE : Z := 16.
Definition SIZEOF_QNODE : Z := 12.

Section operations.
Context {A : Type} `{Allocator A}.

Definition create_queue (limit : Z) : cmd (store A) Z :=
  queue <- new_obj SIZEOF_QUEUE (OQueue (Queue 0 0 0 0)) ;;
  if queue =? 0 then ret 0
  else
    set_q_length queue 0 ;;;
    set_q_head queue 0 ;;;
    set_q_tail queue 0 ;;;
    set_q_limit queue limit ;;;
    ret queue.

(** The unlinking of [tmp_head] in [queue_force_remove]. *)
Definition force_unlink (queue tmp_head : Z) : cmd (store A) unit :=
  q <- get_queue queue ;;
  (if q.(q_length) =? 1 then
     set_q_head queue 0 ;;;
     set_q_tail queue 0
   else if tmp_head =? q.(q_head) then
     h <- get_node q.(q_head) ;;
     set_q_head queue h.(next) ;;;
     q <- get_queue queue ;;
     set_previous q.(q_head) 0
   else if tmp_head =? q.(q_tail) then
     t <- get_node q.(q_tail) ;;
     set_q_tail queue t.(previous) ;;;
     q <- get_queue queue ;;
     set_nnext q.(q_tail) 0
   else
     t <- get_node tmp_head ;;
     set_nnext t.(previous) t.(next) ;;;
     t <- get_node tmp_head ;;
     set_previous t.(next) t.(previous)) ;;;
  q <- get_queue queue ;;
  set_q_length queue (i32 (q.(q_length) - 1)) ;;;
  free_obj tmp_head.

Fixpoint force_loop (fuel : nat) (queue data tmp_head : Z) : cmd (store A) unit :=
  match fuel with
  | O => hang
  | S fuel' =>
      if tmp_head =? 0 then ret tt
      else
        t <- get_node tmp_head ;;
        (if t.(Store.data) =? data then force_unlink queue tmp_head else ret tt) ;;;
        force_loop fuel' queue data t.(next)
  end.

Definition queue_force_remove (queue data : Z) : cmd (store A) unit :=
  if (queue =? 0) || (data =? 0) then ret tt
  else
    q <- get_queue queue ;;
    if q.(q_length) =? 0 then ret tt
    else
      fuel <- gets chain_fuel ;;
      force_loop fuel queue data q.(q_head).

Definition queue_enqueue (queue data : Z) : cmd (store A) Z :=
  if (queue =? 0) || (data =? 0) then ret 0
  else
    node <- new_obj SIZEOF_QNODE (ONode (DNode 0 0 0)) ;;
    if node =? 0 then ret 0
    else
      q <- get_queue queue ;;
      if (q.(q_length) <? q.(q_limit)) || (q.(q_limit) =? -1) then
        (if (q.(q_head) =? 0) && (q.(q_tail) =? 0) then
           set_q_head queue node ;;;
           set_q_tail queue node ;;;
           q <- get_queue queue ;;
           set_previous q.(q_head) 0 ;;;
           set_nnext q.(q_tail) 0
         else
           set_nnext q.(q_tail) node ;;;
           set_previous node q.(q_tail) ;;;
           set_q_tail queue node ;;;
           q <- get_queue queue ;;
           set_nnext q.(q_tail) 0) ;;;
        set_data node data ;;;
        q <- get_queue queue ;;
        set_q_length queue (i32 (q.(q_length) + 1)) ;;;
        ret node
      else
        free_obj node ;;;
        ret 0.

Definition queue_dequeue (queue : Z) : cmd (store A) Z :=
  if queue =? 0 then ret 0
  else
    q <- get_queue queue ;;
    if q.(q_head) =? 0 then ret 0
    else
      node <-
        (if (q.(q_head) =? q.(q_tail)) && (q.(q_length) =? 1) then
           set_q_head queue 0 ;;;
           set_q_tail queue 0 ;;;
           ret q.(q_head)
         else
           h <- get_node q.(q_head) ;;
           set_q_head queue h.(next) ;;;
           set_previous h.(next) 0 ;;;
           ret q.(q_head)) ;;
      n <- get_node node ;;
      q <- get_queue queue ;;
      set_q_length queue (i32 (q.(q_length) - 1)) ;;;
      free_obj node ;;;
      ret n.(data).

Definition queue_is_empty (queue : Z) : cmd (store A) Z :=
  if queue =? 0 then ret (-1)
  else
    q <- get_queue queue ;;
    if 0 <? q.(q_length) then ret 0 else ret 1.
End operations.

(** * Representation *)

Definition queue_rep (m : gmap Z obj) (q : Z) (limit : Z) (xs : list (Z * Z)) : Prop :=
  m !! q = Some (OQueue (Queue (hd_addr xs 0) (last_addr 0 xs) (Z.of_nat (length xs)) limit)) /\
  dlseg m 0 xs 0 /\ NoDup xs.*1.

Lemma queue_rep_notin m q lim xs : queue_rep m q lim xs -> q ∉ xs.*1.
Proof. intros (Hl & Hs & _) Hin. destruct (dlseg_node _ _ _ _ _ Hs Hin). congruence. Qed.

Lemma queue_rep_length m q lim xs : queue_rep m q lim xs -> (length xs <= size m)%nat.
Proof. intros (_ & Hs & Hnd). by eapply dlseg_size. Qed.

(** ** Unlinking one node *)

Section proofs.
Context {A : Type} `{Allocator A}.
Implicit Types (al : A) (m : gmap Z obj).

Definition unlinked k m q lim xs ys (p : Z) (s' : store A) : Prop :=
  store_ok k s' /\ queue_rep s'.(objs) q lim (xs ++ ys) /\
  untouched (owned q (xs ++ (p, 0) :: ys)) m s'.(objs).

Lemma unlinked_intro k m q lim xs ys p s' :
  store_ok k s' ->
  s'.(objs) !! q = Some (OQueue (Queue (hd_addr (xs ++ ys) 0) (last_addr 0 (xs ++ ys))
                                       (Z.of_nat (length xs + length ys)) lim)) ->
  dlseg s'.(objs) 0 xs (hd_addr ys 0) -> dlseg s'.(objs) (last_addr 0 xs) ys 0 ->
  NoDup (xs ++ ys).*1 ->
  untouched (owned q (xs ++ (p, 0) :: ys)) m s'.(objs) -> unlinked k m q lim xs ys p s'.
Proof.
  intros. unfold unlinked, queue_rep. split_and!; try done.
  - by rewrite length_app.
  - by apply dlseg_app.
Qed.

Lemma force_unlink_spec k al m q lim xs p d ys :
  store_ok k (Store al m) -> queue_rep m q lim (xs ++ (p, d) :: ys) ->
  wp (force_unlink q p) (fun _ => unlinked k m q lim xs ys p) (Store al m).
Proof.
  intros Hok Hrep. pose proof (queue_rep_notin _ _ _ _ Hrep) as Hnl.
  pose proof (queue_rep_length _ _ _ _ Hrep) as Hlen. pose proof (store_count _ _ Hok) as Hcnt.
  pose proof (store_ok_zero _ _ _ Hok) as H0. cbn [objs] in Hcnt.
  destruct Hrep as (Hl & Hs & Hnd).
  assert (Hnd' : NoDup (xs ++ ys).*1 /\ (p ∉ (xs ++ ys).*1)).
  { rewrite fmap_app in *. cbn in Hnd. rewrite <- Permutation_middle in Hnd.
    by apply NoDup_cons in Hnd as [??]. }
  destruct Hnd' as [Hndxy Hpxy].
  pose proof (proj1 (dlseg_app _ _ _ _ _) Hs) as [Hs1 [Hp Hs2]]. cbn [hd_addr] in *.
  assert (p <> q) by congruence.
  unfold force_unlink. st_step. st_step. st_step.
  rewrite length_app in *. cbn [length] in Hl, Hlen. rewrite hd_addr_app, last_addr_app in *.
  cbn [hd_addr last_addr] in *. split_notin.
  destruct xs as [|[a da] xs _] using rev_ind; destruct ys as [|[b db] ys];
    cbn [app hd_addr last_addr length] in *; st_cbn.
  - change (Z.of_nat (0 + 1) =? 1) with true. cbn match. st_steps.
    eapply wp_free; [by st_ok|lkp|]. intros al' Hok'. change (i32 (Z.of_nat (0 + 1) - 1)) with 0 in *.
    apply unlinked_intro; cbn [objs app hd_addr last_addr length];
      [done|by lk|done|done|done|frame].
  - destruct Hs2 as [Hb Hs2]. assert (b <> p) by congruence. assert (b <> q) by congruence.
    destruct (Z.eqb_spec (Z.of_nat (0 + S (S (length ys)))) 1); [lia|]. rewrite Z.eqb_refl.
    st_steps. rewrite i32_small by lia. eapply wp_free; [by st_ok|lkp|]. intros al' Hok'.
    apply NoDup_cons in Hndxy as [Hby Hndy]. split_notin.
    apply unlinked_intro; cbn [objs app hd_addr last_addr length];
      [done| |done| | |frame].
    + lk. do 3 f_equal. lia.
    + eapply dlseg_relink_prev; [split; [exact Hb|exact Hs2]|by lk|]. intros c Hc. frame_at.
    + by constructor.
  - destruct (dlseg_last _ _ _ _ _ _ Hs1) as [Hs0 Ha].
    rewrite !app_nil_r, ?length_app, ?hd_addr_app, ?last_addr_app in *.
    cbn [length hd_addr last_addr] in *.
    destruct (NoDup_snoc _ _ _ Hndxy) as [Hndx Hax].
    assert (a <> p) by congruence. assert (a <> q) by congruence. split_notin.
    destruct (Z.eqb_spec (Z.of_nat (length xs + 1 + 1)) 1); [lia|].
    destruct (Z.eqb_spec p (hd_addr xs a)) as [He|_].
    { exfalso. destruct xs as [|[c dc] xs]; cbn in He; [congruence|]. subst c.
      match goal with H : p ∉ _ |- _ => apply H; left end. }
    rewrite Z.eqb_refl. st_steps. rewrite i32_small by lia.
    eapply wp_free; [by st_ok|lkp|]. intros al' Hok'.
    apply unlinked_intro; rewrite ?app_nil_r, ?length_app, ?hd_addr_app, ?last_addr_app;
      cbn [objs hd_addr last_addr length]; [done| | |done|done|frame].
    + lk. do 3 f_equal. lia.
    + eapply dlseg_relink_next; [exact Hs1|by lk|]. intros c Hc. frame_at.
  - destruct (dlseg_last _ _ _ _ _ _ Hs1) as [Hs0 Ha]. destruct Hs2 as [Hb Hs2].
    pose proof Hndxy as Hnd'. rewrite !fmap_app in Hnd'. cbn [fmap list_fmap fst] in Hnd'.
    destruct (NoDup_around _ _ _ _ Hnd') as (Hab & Hax & Hbx & Hay & Hby). clear Hnd'.
    rewrite ?length_app, ?hd_addr_app, ?last_addr_app in *. cbn [length hd_addr last_addr] in *.
    assert (a <> p) by congruence. assert (a <> q) by congruence. assert (b <> q) by congruence.
    assert (b <> p) by congruence. split_notin.
    destruct (Z.eqb_spec (Z.of_nat (length xs + 1 + S (S (length ys)))) 1); [lia|].
    destruct (Z.eqb_spec p (hd_addr xs a)) as [He|_].
    { exfalso. destruct xs as [|[c dc] xs]; cbn in He; [congruence|]. subst c.
      match goal with H : p ∉ (_ :: xs).*1 |- _ => apply H; left
                    | H : p ∉ p :: _ |- _ => apply H; left end. }
    destruct (Z.eqb_spec p (last_addr b ys)) as [He|_].
    { exfalso. destruct ys as [|y ys]; [cbn in He; congruence|].
      match goal with H : p ∉ _ |- _ => apply H; rewrite He; by apply last_addr_in end. }
    st_steps. rewrite i32_small by lia. eapply wp_free; [by st_ok|lkp|]. intros al' Hok'.
    apply unlinked_intro; rewrite ?length_app, ?hd_addr_app, ?last_addr_app;
      cbn [objs hd_addr last_addr length]; [done| | | |done|frame].
    + lk. do 3 f_equal. lia.
    + eapply dlseg_relink_next; [exact Hs1|by lk|]. intros c Hc. frame_at.
    + eapply dlseg_relink_prev; [split; [exact Hb|exact Hs2]|by lk|]. intros c Hc. frame_at.
Qed.

(** The queue at [q] now stores [ds]; its nodes are old ones or new blocks;
    no other object changed. *)
Definition qpost k m q lim xs (ds : list Z) (s' : store A) : Prop :=
  exists xs', store_ok k s' /\ queue_rep s'.(objs) q lim xs' /\ xs'.*2 = ds /\
    untouched (owned q xs) m s'.(objs) /\
    (forall a, a ∈ xs'.*1 -> a ∈ xs.*1 \/ m !! a = None).

Lemma qpost_same k al m q lim xs :
  store_ok k (Store al m) -> queue_rep m q lim xs -> qpost k m q lim xs xs.*2 (Store al m).
Proof. intros Hok Hrep. exists xs. split_and!; try done. by left. Qed.

Lemma unlinked_post k m q lim xs p d ys s' :
  unlinked k m q lim xs ys p s' -> qpost k m q lim (xs ++ (p, d) :: ys) (xs.*2 ++ ys.*2) s'.
Proof.
  intros (Hok & Hrep & Hu). exists (xs ++ ys). split_and!; try done.
  - by rewrite fmap_app.
  - unfold owned in *. rewrite fmap_app in *. done.
  - intros a Ha. left. rewrite !fmap_app in *. cbn. set_unfold. naive_solver.
Qed.

Lemma qpost_trans m q lim xs (s1 : store A) lim' xs1 k' ds' s2 :
  untouched (owned q xs) m s1.(objs) -> queue_rep s1.(objs) q lim xs1 ->
  (forall a, a ∈ xs1.*1 -> a ∈ xs.*1 \/ m !! a = None) ->
  qpost k' s1.(objs) q lim' xs1 ds' s2 -> qpost k' m q lim' xs ds' s2.
Proof.
  intros Hu Hrep1 Hin1 (xs2 & Hok2 & Hrep2 & Hds & Hu2 & Hin2).
  exists xs2. split_and!; try done.
  - intros a Ha Hs. unfold owned in *. split_notin.
    rewrite <- (Hu a); [|by apply not_elem_of_cons|done].
    apply Hu2; [|by rewrite (Hu a); [|apply not_elem_of_cons|]]. apply not_elem_of_cons. split; [done|].
    intros Hin. apply Hin1 in Hin as [?|Hn]; [done|]. rewrite Hn in Hs. by destruct Hs.
  - intros a Ha. destruct (Hin2 a Ha) as [?|Hn]; [by apply Hin1|].
    destruct (decide (a ∈ xs.*1)) as [|Hax]; [by left|right].
    destruct (m !! a) as [o|] eqn:Hma; [|done]. exfalso.
    assert (a <> q) by (destruct Hrep1; congruence).
    rewrite (Hu a) in Hn; [congruence| |by eexists]. by apply not_elem_of_cons.
Qed.

Definition others (d : Z) (ds : list Z) : list Z := filter (fun x => x <> d) ds.

Lemma force_loop_spec fuel k al m q lim ks ys d :
  store_ok k (Store al m) -> queue_rep m q lim (ks ++ ys) -> (length ys < fuel)%nat ->
  wp (force_loop fuel q d (hd_addr ys 0))
     (fun _ => qpost k m q lim (ks ++ ys) (ks.*2 ++ others d ys.*2)) (Store al m).
Proof.
  revert fuel al m ks. induction ys as [|[p dp] ys IH]; intros fuel al m ks Hok Hrep Hf;
    (destruct fuel as [|fuel]; [cbn in Hf; lia|]); cbn [force_loop hd_addr].
  - apply wp_ret. rewrite !app_nil_r in *. by eapply qpost_same.
  - pose proof (store_ok_zero _ _ _ Hok) as H0. pose proof Hrep as (_ & Hs & _).
    apply dlseg_app in Hs as [_ [Hp _]]. destruct (Z.eqb_spec p 0); [congruence|].
    st_steps. unfold others. cbn [fmap list_fmap snd]. destruct (Z.eqb_spec dp d) as [->|Hne].
    + rewrite filter_cons_False by tauto.
      eapply wp_mono; [by eapply force_unlink_spec|]. intros u [al1 m1] Hun.
      pose proof Hun as (Hok1 & Hrep1 & _). eapply unlinked_post in Hun as (xs1 & _ & _ & _ & Hu & _).
      eapply wp_mono; [eapply IH; [exact Hok1|exact Hrep1|cbn in Hf; lia]|]. intros u2 s2 Hpost.
      eapply qpost_trans; [exact Hu|exact Hrep1| |exact Hpost].
      intros a Ha. left. rewrite !fmap_app in *. cbn. set_unfold. naive_solver.
    + rewrite filter_cons_True by done. st_steps.
      eapply wp_mono; [eapply (IH _ _ _ (ks ++ [(p, dp)])); [done| |cbn in Hf; lia]|].
      { by rewrite <- app_assoc. }
      intros u2 s2 Hpost. rewrite <- app_assoc, fmap_app, <- app_assoc in Hpost. exact Hpost.
Qed.

Lemma queue_force_remove_spec k al m q lim xs d :
  store_ok k (Store al m) -> queue_rep m q lim xs -> d <> 0 ->
  wp (queue_force_remove q d) (fun _ => qpost k m q lim xs (others d xs.*2)) (Store al m).
Proof.
  intros Hok Hrep Hd. pose proof (store_ok_zero _ _ _ Hok) as H0.
  pose proof (queue_rep_length _ _ _ _ Hrep) as Hlen.
  pose proof Hrep as (Hq & _ & _). assert (q <> 0) by congruence.
  unfold queue_force_remove. destruct (Z.eqb_spec q 0), (Z.eqb_spec d 0); try done. cbn [orb].
  st_steps. destruct (Z.eqb_spec (Z.of_nat (length xs)) 0) as [Hz|Hz].
  - destruct xs; [|cbn in Hz; lia]. st_steps. by eapply qpost_same.
  - st_steps. apply (force_loop_spec _ k al m q lim [] xs d); try done.
    unfold chain_fuel. cbn [objs]. lia.
Qed.

Lemma create_queue_spec k al m limit :
  store_ok (S k) (Store al m) ->
  wp (create_queue limit) (fun q s' => store_ok k s' /\ q <> 0 /\ m !! q = None /\
    queue_rep s'.(objs) q limit [] /\ untouched [] m s'.(objs)) (Store al m).
Proof.
  intros Hok. unfold create_queue. st_step. eapply wp_new; [done|by vm_compute|].
  intros q al' Hq Hm Hok'. destruct (Z.eqb_spec q 0); [done|]. st_steps.
  split_and!; [by st_ok|done|done| |frame].
  cbn [objs]. split_and!; [by lk|done|constructor].
Qed.

(** Room left in the queue, as [queue_enqueue] tests it. *)
Definition accepts (lim : Z) (n : nat) : bool := (Z.of_nat n <? lim) || (lim =? -1).

Lemma queue_enqueue_spec k al m q lim xs d :
  store_ok (S k) (Store al m) -> queue_rep m q lim xs -> d <> 0 ->
  wp (queue_enqueue q d) (fun r s' =>
    (if accepts lim (length xs) then r <> 0 else r = 0) /\
    qpost k m q lim xs (if accepts lim (length xs) then xs.*2 ++ [d] else xs.*2) s') (Store al m).
Proof.
  intros Hok Hrep Hd. pose proof (queue_rep_notin _ _ _ _ Hrep) as Hnl.
  pose proof (queue_rep_length _ _ _ _ Hrep) as Hlen. pose proof (store_count _ _ Hok) as Hcnt.
  pose proof (store_ok_zero _ _ _ Hok) as H0. cbn [objs] in Hcnt.
  pose proof Hrep as (Hq & Hs & Hnd). assert (q <> 0) by congruence.
  unfold queue_enqueue. destruct (Z.eqb_spec q 0), (Z.eqb_spec d 0); try done. cbn [orb].
  st_step. eapply wp_new; [done|by vm_compute|]. intros p al1 Hp Hm Hok1.
  destruct (Z.eqb_spec p 0); [done|]. assert (p <> q) by congruence.
  pose proof (fresh_notin _ _ _ _ _ Hs Hm) as Hpx.
  st_steps. fold (accepts lim (length xs)). destruct (accepts lim (length xs)) eqn:Hacc.
  - assert (Hin : forall ys, (forall a, a ∈ (ys ++ [(p, d)]).*1 -> a ∈ ys.*1 \/ m !! a = None)).
    { intros ys a. rewrite fmap_app. cbn. rewrite elem_of_app, list_elem_of_singleton.
      intros [?| ->]; [by left|by right]. }
    destruct xs as [|[a d0] xs _] using rev_ind.
    + cbn [hd_addr last_addr Z.eqb andb]. st_steps. split; [done|].
      exists ([] ++ [(p, d)]). split_and!; [by st_ok| |done|frame|by apply Hin].
      cbn [objs]. split_and!; [by lk|by cbn; lk|]. cbn. by apply NoDup_singleton.
    + destruct (dlseg_last _ _ _ _ _ _ Hs) as [Hs0 Ha].
      destruct (NoDup_snoc _ _ _ Hnd) as [Hndx Hax].
      rewrite hd_addr_app, last_addr_app, length_app in *. cbn [hd_addr last_addr length] in *.
      assert (a <> q) by congruence. assert (a <> p) by congruence. assert (a <> 0) by congruence.
      destruct (Z.eqb_spec a 0); [done|]. rewrite andb_false_r. st_steps. split; [done|].
      rewrite i32_small by lia.
      exists ((xs ++ [(a, d0)]) ++ [(p, d)]).
      split_and!; [by st_ok| |by rewrite fmap_app|frame|by apply Hin].
      split_and!; cbn [objs].
      * lk. rewrite !hd_addr_app, !last_addr_app, !length_app. cbn. do 3 f_equal. lia.
      * apply dlseg_app. split; [|cbn; rewrite last_addr_app; split; [by lk|done]].
        eapply dlseg_relink_next; [exact Hs|by lk|]. intros c Hc. frame_at.
      * rewrite fmap_app. cbn. apply NoDup_app. split_and!; [done| |by apply NoDup_singleton].
        intros c Hc ->%list_elem_of_singleton. done.
  - st_step. eapply wp_free; [done|lkp|]. intros al2 Hok2. rewrite delete_insert_id in * by done.
    apply wp_ret. split; [done|]. by eapply qpost_same.
Qed.

Lemma queue_dequeue_spec k al m q lim xs :
  store_ok k (Store al m) -> queue_rep m q lim xs ->
  wp (queue_dequeue q) (fun r s' => r = hd 0 xs.*2 /\ qpost k m q lim xs (tl xs.*2) s')
     (Store al m).
Proof.
  intros Hok Hrep. pose proof (queue_rep_notin _ _ _ _ Hrep) as Hnl.
  pose proof (queue_rep_length _ _ _ _ Hrep) as Hlen. pose proof (store_count _ _ Hok) as Hcnt.
  pose proof (store_ok_zero _ _ _ Hok) as H0. cbn [objs] in Hcnt.
  pose proof Hrep as (Hq & Hs & Hnd). assert (q <> 0) by congruence.
  unfold queue_dequeue. destruct (Z.eqb_spec q 0); [done|]. st_steps.
  destruct xs as [|[p d] xs]; cbn [hd_addr last_addr length fmap list_fmap snd hd tl] in *.
  { st_steps. split; [done|]. by eapply qpost_same. }
  destruct Hs as [Hp Hs]. assert (p <> 0) by congruence. destruct (Z.eqb_spec p 0); [done|].
  assert (p <> q) by congruence. apply NoDup_cons in Hnd as [Hpx Hnd].
  assert (Hfin : forall s', unlinked k m q lim [] xs p s' ->
                   d = d /\ qpost k m q lim ((p, d) :: xs) xs.*2 s').
  { intros s' Hun. split; [done|]. by apply (unlinked_post _ _ _ _ _ _ d) in Hun. }
  destruct xs as [|[b db] xs]; cbn [hd_addr last_addr length] in *.
  - rewrite Z.eqb_refl. change (Z.of_nat 1 =? 1) with true. cbn [andb]. st_steps.
    eapply wp_free; [by st_ok|lkp|]. intros al2 Hok2. apply wp_ret, Hfin.
    apply unlinked_intro; cbn [objs app hd_addr last_addr length];
      [done|by lk|done|done|constructor|frame].
  - destruct Hs as [Hb Hs]. apply NoDup_cons in Hnd as [Hby Hnd].
    destruct (Z.eqb_spec (Z.of_nat (S (S (length xs)))) 1); [lia|]. rewrite andb_false_r.
    assert (b <> q) by congruence. split_notin. assert (b <> p) by congruence.
    st_steps. rewrite i32_small by lia.
    eapply wp_free; [by st_ok|lkp|]. intros al2 Hok2. apply wp_ret, Hfin.
    apply unlinked_intro; cbn [objs app hd_addr last_addr length]; [done| |done| | |frame].
    + lk. do 3 f_equal. lia.
    + eapply dlseg_relink_prev; [split; [exact Hb|exact Hs]|by lk|]. intros c Hc. frame_at.
    + by constructor.
Qed.
End proofs.

(** * The abstract bounded queue *)

Inductive qop :=
| QEnqueue (d : Z)
| QDequeue
| QForceRemove (d : Z)
| QIsEmpty.

(** Result and new contents of each operation on a queue of limit [lim]. *)
Definition qop_spec (lim : Z) (ds : list Z) (op : qop) : bool * Z * list Z :=
  match op with
  | QEnqueue d => if accepts lim (length ds) then (true, d, ds ++ [d]) else (false, 0, ds)
  | QDequeue => (true, hd 0 ds, tl ds)
  | QForceRemove d => (true, 0, others d ds)
  | QIsEmpty => (true, match ds with [] => 1 | _ => 0 end, ds)
  end.

Definition qop_ok (op : qop) : Prop :=
  match op with QEnqueue d | QForceRemove d => d <> 0 | _ => True end.

Fixpoint qops_spec (lim : Z) (ds : list Z) (ops : list qop) : list (bool * Z) * list Z :=
  match ops with
  | [] => ([], ds)
  | op :: ops' =>
      let '(b, r, ds1) := qop_spec lim ds op in
      let '(rs, ds2) := qops_spec lim ds1 ops' in ((b, r) :: rs, ds2)
  end.

Section refinement.
Context {A : Type} `{Allocator A}.
Implicit Types (al : A) (m : gmap Z obj).

(** The observable result of an operation: for an enqueue, whether a node
    came back. *)
Definition run_qop (q : Z) (op : qop) : cmd (store A) (bool * Z) :=
  match op with
  | QEnqueue d => r <- queue_enqueue q d ;;
                  ret (if r =? 0 then (false, 0) else (true, d))
  | QDequeue => r <- queue_dequeue q ;; ret (true, r)
  | QForceRemove d => queue_force_remove q d ;;; ret (true, 0)
  | QIsEmpty => r <- queue_is_empty q ;; ret (true, r)
  end.

Fixpoint run_qops (q : Z) (ops : list qop) : cmd (store A) (list (bool * Z)) :=
  match ops with
  | [] => ret []
  | op :: ops' => r <- run_qop q op ;; rs <- run_qops q ops' ;; ret (r :: rs)
  end.

Lemma run_qop_sim k al m q lim xs op :
  store_ok (S k) (Store al m) -> queue_rep m q lim xs -> qop_ok op ->
  wp (run_qop q op) (fun r s' =>
    r = (qop_spec lim xs.*2 op).1 /\ qpost k m q lim xs (qop_spec lim xs.*2 op).2 s')
    (Store al m).
Proof.
  intros Hok Hrep Hop. pose proof (store_ok_mono _ _ Hok) as Hok'.
  destruct op as [d| |d|]; cbn [run_qop qop_spec qop_ok] in *; apply wp_bind.
  - eapply wp_mono; [by eapply queue_enqueue_spec|]. intros r s' [Hr Hp]. apply wp_ret.
    rewrite length_fmap. destruct (accepts lim (length xs)).
    + by destruct (Z.eqb_spec r 0).
    + by subst r.
  - eapply wp_mono; [by eapply queue_dequeue_spec|]. intros r s' [-> Hp]. by apply wp_ret.
  - eapply wp_mono; [by eapply queue_force_remove_spec|]. intros r s' Hp. by apply wp_ret.
  - pose proof (store_ok_zero _ _ _ Hok). pose proof Hrep as (Hq & _ & _).
    unfold queue_is_empty. destruct (Z.eqb_spec q 0); [congruence|]. st_steps.
    destruct (Z.ltb_spec 0 (Z.of_nat (length xs))); st_steps.
    all: split; [destruct xs; cbn in *; done || lia|by eapply qpost_same].
Qed.

Lemma run_qops_sim ops k al m q lim xs :
  store_ok (length ops + k) (Store al m) -> queue_rep m q lim xs -> Forall qop_ok ops ->
  wp (run_qops q ops) (fun rs s' =>
    rs = (qops_spec lim xs.*2 ops).1 /\ qpost k m q lim xs (qops_spec lim xs.*2 ops).2 s')
    (Store al m).
Proof.
  revert al m xs. induction ops as [|op ops IH]; intros al m xs Hok Hrep Hall;
    cbn [run_qops qops_spec].
  - apply wp_ret. split; [done|]. by eapply qpost_same.
  - apply Forall_cons_1 in Hall as [Ho Hall]. cbn [length Nat.add] in Hok. apply wp_bind.
    eapply wp_mono; [by eapply run_qop_sim|]. intros r [al1 m1] [-> Hpost].
    destruct Hpost as (xs1 & Hok1 & Hrep1 & Hds & Hu & Hin). cbn [objs] in *. apply wp_bind.
    eapply wp_mono; [by eapply IH|]. intros rs s2 [-> Hpost2]. apply wp_ret.
    destruct (qop_spec lim xs.*2 op) as [[b r] ds1]. cbn in Hds. rewrite Hds in *.
    destruct (qops_spec lim ds1 ops) as [rs ds2]. split; [done|].
    eapply (qpost_trans m q lim xs (Store al1 m1)); [exact Hu|exact Hrep1|exact Hin|exact Hpost2].
Qed.

(** C3: [queue.c] implements the abstract bounded FIFO queue: any sequence of
    enqueues, dequeues, forced removals and emptiness tests terminates
    without a bad access, returns what the abstract queue returns (data in
    order of arrival; NULL from an empty queue; a refusal exactly when the
    limit is reached, limit -1 meaning none), and leaves other objects
    alone. *)
Theorem queue_refines ops k al m q lim xs :
  store_ok (length ops + k) (Store al m) -> queue_rep m q lim xs -> Forall qop_ok ops ->
  wp (run_qops q ops) (fun rs s' =>
    rs = (qops_spec lim xs.*2 ops).1 /\
    exists xs', store_ok k s' /\ queue_rep s'.(objs) q lim xs' /\
      xs'.*2 = (qops_spec lim xs.*2 ops).2 /\ untouched (owned q xs) m s'.(objs)) (Store al m).
Proof.
  intros Hok Hrep Hall. eapply wp_mono; [by eapply run_qops_sim|].
  intros rs s' (-> & xs' & ? & ? & ? & ? & _). split; [done|]. by exists xs'.
Qed.
End refinement.

(** ** A concrete queue of limit 3 *)

#[local] Existing Instance bump_allocator.

Definition demo_queue : store bump :=
  Store (bump_at 4 [1; 2; 3])
    (<[1 := OQueue (Queue 2 3 2 3)]> (<[2 := ONode (DNode 0 3 7)]>
    (<[3 := ONode (DNode 2 0 8)]> ∅))).

Lemma demo_queue_ok : store_ok 100 demo_queue.
Proof.
  store_by_compute.
Qed.

Lemma demo_queue_rep : queue_rep demo_queue.(objs) 1 3 [(2, 7); (3, 8)].
Proof.
  unfold queue_rep. split_and!; [done|by vm_compute|]. apply (bool_decide_unpack _). by vm_compute.
Qed.

Lemma queue_refines_witness :
  wp (run_qops 1 [QEnqueue 9; QEnqueue 10; QForceRemove 8; QDequeue; QIsEmpty]) (fun rs s' =>
    rs = [(true, 9); (false, 0); (true, 0); (true, 7); (true, 0)] /\
    exists xs', store_ok 95 s' /\ queue_rep s'.(objs) 1 3 xs' /\ xs'.*2 = [9] /\
      untouched (owned 1 [(2, 7); (3, 8)]) demo_queue.(objs) s'.(objs)) demo_queue.
Proof.
  apply (queue_refines [QEnqueue 9; QEnqueue 10; QForceRemove 8; QDequeue; QIsEmpty] 95 _ _ 1 3
           [(2, 7); (3, 8)]).
  - exact demo_queue_ok.
  - exact demo_queue_rep.
  - by repeat constructor.
Defined.
