(* ===== verification/GenericTree.v ===== *)
(** [kernel/util/generic_tree.c]: trees whose children hang off a linked list,
    used by the virtual file system and the process table. *)
From stdpp Require Import base numbers gmap list.
From S2P Require Import Prelude Allocator Store LinkedList.

Definition SIZEOF_TREE : Z := 12.

Section operations.
Context {A : Type} `{Allocator A}.

Definition tree_finder_evaluator (subtree data : Z) : cmd (store A) Z :=
  t <- get_tree subtree ;;
  ret (if t.(t_data) =? data then 1 else 0).

(** A tree with no parent is detached; otherwise it is appended to the
    parent's children. *)
Definition generic_tree_create (data parent : Z) : cmd (store A) Z :=
  temp_tree <- new_obj SIZEOF_TREE (OTree (GenTree 0 0 0)) ;;
  set_t_data temp_tree data ;;;
  subs <- linked_list_create ;;
  set_sub_trees temp_tree subs ;;;
  (if negb (parent =? 0) then
     p <- get_tree parent ;;
     linked_list_append p.(sub_trees) temp_tree ;;;
     set_parent_tree temp_tree parent
   else set_parent_tree temp_tree 0) ;;;
  ret temp_tree.

(** The recursion over subtrees and the loop over a tree's children. *)
Fixpoint generic_tree_traverse (fuel : nat) (eval_funct : Z -> Z -> cmd (store A) Z)
    (eval_data tree : Z) : cmd (store A) Z :=
  match fuel with
  | O => hang
  | S fuel' =>
      if tree =? 0 then ret 0
      else
        r <- eval_funct tree eval_data ;;
        if r =? 1 then ret tree
        else
          t <- get_tree tree ;;
          l <- get_list t.(sub_trees) ;;
          traverse_children fuel' eval_funct eval_data l.(list_head)
  end
with traverse_children (fuel : nat) (eval_funct : Z -> Z -> cmd (store A) Z)
    (eval_data node : Z) : cmd (store A) Z :=
  match fuel with
  | O => hang
  | S fuel' =>
      if node =? 0 then ret 0
      else
        n <- get_node node ;;
        r <- generic_tree_traverse fuel' eval_funct eval_data n.(data) ;;
        if negb (r =? 0) then ret r
        else
          n <- get_node node ;;
          traverse_children fuel' eval_funct eval_data n.(next)
  end.

Definition generic_tree_find_subtree (tree search_data : Z) : cmd (store A) Z :=
  if negb (tree =? 0) && negb (search_data =? 0) then
    fuel <- gets chain_fuel ;;
    generic_tree_traverse fuel tree_finder_evaluator search_data tree
  else ret 0.

Definition generic_tree_destroy (tree : Z) : cmd (store A) unit :=
  if tree =? 0 then ret tt
  else
    set_t_data tree 0 ;;;
    set_parent_tree tree 0 ;;;
    t <- get_tree tree ;;
    linked_list_destroy t.(sub_trees) ;;;
    free_obj tree.
End operations.

(** * Trees in memory *)

(** A tree with the addresses of its objects: the [gen_tree_t] at [a], the
    children list at [l], and for every child the list node holding it. *)
#[warnings="-register-all"]
Inductive rose := Rose (a d l : Z) (kids : list (Z * rose)).

Section rose_ind.
Variable P : rose -> Prop.
Hypothesis step : forall a d l kids, Forall (fun k => P k.2) kids -> P (Rose a d l kids).
Fixpoint rose_rect' (t : rose) : P t :=
  match t with
  | Rose a d l kids =>
      step a d l kids ((fix go ks : Forall (fun k => P k.2) ks :=
        match ks with
        | [] => Forall_nil_2 _
        | k :: ks' => Forall_cons_2 _ _ _ (rose_rect' k.2) (go ks')
        end) kids)
  end.
End rose_ind.

Definition root (t : rose) : Z := match t with Rose a _ _ _ => a end.

(** The nodes of the children list. *)
Definition kid_nodes (kids : list (Z * rose)) : list (Z * Z) := (fun k => (k.1, root k.2)) <$> kids.

Fixpoint tree_rep (m : gmap Z obj) (parent : Z) (t : rose) : Prop :=
  match t with
  | Rose a d l kids =>
      m !! a = Some (OTree (GenTree d l parent)) /\ list_rep m l (kid_nodes kids) /\
      (fix go ks := match ks with
                    | [] => True
                    | k :: ks' => tree_rep m a k.2 /\ go ks'
                    end) kids
  end.

(** Every object of the tree. *)
Fixpoint footprint (t : rose) : list Z :=
  match t with
  | Rose a d l kids => a :: l :: flat_map (fun k => k.1 :: footprint k.2) kids
  end.

(** (address, data) in preorder. *)
Fixpoint preorder (t : rose) : list (Z * Z) :=
  match t with Rose a d l kids => (a, d) :: flat_map (fun k => preorder k.2) kids end.

(** First match in preorder, NULL if there is none. *)
Fixpoint first_match (f : Z -> bool) (xs : list (Z * Z)) : Z :=
  match xs with [] => 0 | (a, d) :: xs' => if f d then a else first_match f xs' end.

Lemma tree_rep_kids m parent a d l kids :
  tree_rep m parent (Rose a d l kids) <->
  m !! a = Some (OTree (GenTree d l parent)) /\ list_rep m l (kid_nodes kids) /\
  Forall (fun k => tree_rep m a k.2) kids.
Proof.
  cbn [tree_rep]. do 2 (apply and_iff_compat_l). induction kids as [|k kids IH].
  - by split.
  - rewrite Forall_cons. by apply and_iff_compat_l.
Qed.

(** A tree stays in place when objects are added. *)
Lemma list_rep_sub m m' l xs : m ⊆ m' -> list_rep m l xs -> list_rep m' l xs.
Proof.
  intros Hm (Hl & Hs & Hn). split_and!; [by eapply lookup_weaken| |done].
  eapply dlseg_ext; [|exact Hs]. intros a Ha. destruct (dlseg_node _ _ _ _ _ Hs Ha) as [n Hx].
  rewrite Hx. by eapply lookup_weaken.
Qed.
Lemma tree_rep_sub m m' parent t : m ⊆ m' -> tree_rep m parent t -> tree_rep m' parent t.
Proof.
  intros Hm. revert parent. induction t as [a d l kids IH] using rose_rect'; intros parent.
  rewrite !tree_rep_kids. intros (Ha & Hl & Hk). split_and!; [by eapply lookup_weaken|by eapply list_rep_sub|].
  rewrite Forall_forall in *. eauto.
Qed.

Lemma first_match_app f xs ys :
  0 ∉ xs.*1 ->
  first_match f (xs ++ ys) = if first_match f xs =? 0 then first_match f ys else first_match f xs.
Proof.
  induction xs as [|[a d] xs IH]; cbn; [done|]. intros Hn.
  apply not_elem_of_cons in Hn as [? Hn]. destruct (f d); [by destruct (Z.eqb_spec a 0)|by apply IH].
Qed.

(** Fuel: the objects on the way to any subtree. *)
Fixpoint cost (t : rose) : nat :=
  match t with
  | Rose _ _ _ kids => S (foldr (fun k n => S (Nat.max (cost k.2) n)) 1%nat kids)
  end.

Lemma cost_footprint t : (cost t <= length (footprint t))%nat.
Proof.
  induction t as [a d l kids IH] using rose_rect'. cbn [cost footprint length].
  enough (foldr (fun k n => S (Nat.max (cost k.2) n)) 1%nat kids <=
          1 + length (flat_map (fun k => k.1 :: footprint k.2) kids))%nat by lia.
  induction IH as [|k kids Hk _ IH]; cbn; [lia|]. rewrite length_app. lia.
Qed.

Lemma flat_map_in {X} (g : Z * rose -> list X) kids x :
  x ∈ flat_map g kids -> exists k, k ∈ kids /\ x ∈ g k.
Proof.
  induction kids as [|k kids IH]; cbn; intros Hin; [by apply not_elem_of_nil in Hin|].
  apply elem_of_app in Hin as [?|Hin]; [exists k; split; [left|done]|].
  destruct (IH Hin) as (k' & ? & ?). exists k'. split; [by right|done].
Qed.

Lemma footprint_objs m parent t x : tree_rep m parent t -> x ∈ footprint t -> is_Some (m !! x).
Proof.
  revert parent. induction t as [a d l kids IH] using rose_rect'; intros parent Hrep Hin.
  apply tree_rep_kids in Hrep as (Ha & Hl & Hk). cbn [footprint] in Hin.
  apply elem_of_cons in Hin as [->|Hin]; [by eexists|].
  apply elem_of_cons in Hin as [->|Hin]; [by destruct Hl; eexists|].
  apply flat_map_in in Hin as ([n t] & Hkin & Hx). cbn in Hx.
  apply elem_of_cons in Hx as [->|Hx].
  - destruct Hl as (_ & Hs & _). destruct (dlseg_node _ _ _ _ n Hs) as [? ?]; [|by eexists].
    apply list_elem_of_fmap. exists (n, root t). split; [done|].
    apply list_elem_of_fmap. by exists (n, t).
  - rewrite Forall_forall in IH, Hk. by eapply (IH _ Hkin), Hx; apply (Hk _ Hkin).
Qed.

Lemma footprint_size m parent t :
  tree_rep m parent t -> NoDup (footprint t) -> (length (footprint t) <= size m)%nat.
Proof.
  intros Hrep Hnd. rewrite <- (size_list_to_set (C := gset Z)) by done.
  rewrite <- size_dom. apply subseteq_size. intros x Hx%elem_of_list_to_set.
  apply elem_of_dom. by eapply footprint_objs.
Qed.

Lemma preorder_footprint t x : x ∈ (preorder t).*1 -> x ∈ footprint t.
Proof.
  induction t as [a d l kids IH] using rose_rect'. cbn [preorder footprint fmap list_fmap fst].
  intros Hin. apply elem_of_cons in Hin as [->|Hin]; [left|right; right].
  induction IH as [|k kids Hk _ IHk]; cbn in *; [done|].
  rewrite fmap_app in Hin. apply elem_of_app in Hin as [Hin|Hin].
  - right. apply elem_of_app. left. by apply Hk.
  - right. apply elem_of_app. right. by apply IHk.
Qed.

Lemma preorder_nonzero m parent t : m !! 0 = None -> tree_rep m parent t -> 0 ∉ (preorder t).*1.
Proof.
  intros H0 Hrep Hin. apply preorder_footprint, (footprint_objs _ _ _ _ Hrep) in Hin.
  rewrite H0 in Hin. by destruct Hin.
Qed.

Section proofs.
Context {A : Type} `{Allocator A}.
Implicit Types (al : A) (m : gmap Z obj).

(** Traversal with an evaluator that only looks at the data. *)
Lemma traverse_spec (f : Z -> bool) ev sd al m t :
  m !! 0 = None ->
  (forall a d l p, m !! a = Some (OTree (GenTree d l p)) ->
     ev a sd (Store al m) = Ret ((if f d then 1 else 0), Store al m)) ->
  forall parent fuel, tree_rep m parent t -> (cost t <= fuel)%nat ->
  wp (generic_tree_traverse fuel ev sd (root t))
     (fun r s' => r = first_match f (preorder t) /\ s' = Store al m) (Store al m).
Proof.
  intros H0 Hev. induction t as [a d l kids IH] using rose_rect'; intros parent fuel Hrep Hf.
  apply tree_rep_kids in Hrep as (Ha & Hl & Hk). cbn [cost] in Hf.
  destruct fuel as [|fuel]; [lia|]. cbn [generic_tree_traverse root preorder first_match].
  destruct (Z.eqb_spec a 0); [congruence|]. apply wp_bind. unfold wp at 1. rewrite (Hev _ _ _ _ Ha).
  destruct (f d); cbn [Z.eqb Pos.eqb]; [by apply wp_ret|].
  destruct Hl as (Hl & Hs & _). st_steps. apply le_S_n in Hf. clear Hl Ha.
  revert fuel Hf Hs Hk. generalize 0 at 1. revert IH.
  induction kids as [|[nd t] kids IHk]; intros IH pv fuel Hf Hs Hk;
    (destruct fuel as [|fuel]; [cbn in Hf; lia|]); cbn [kid_nodes fmap list_fmap fst snd hd_addr] in *.
  - cbn. by apply wp_ret.
  - destruct Hs as [Hn Hs]. cbn [traverse_children]. destruct (Z.eqb_spec nd 0); [congruence|].
    apply Forall_cons_1 in IH as [IHt IH]. apply Forall_cons_1 in Hk as [Ht Hk]. cbn in IHt, Ht, Hf.
    st_step. st_step. st_step.
    eapply wp_mono; [eapply IHt; [exact Ht|lia]|]. intros r s' [-> ->].
    cbn [flat_map]. rewrite first_match_app by (by eapply preorder_nonzero). cbn [snd].
    destruct (Z.eqb_spec (first_match f (preorder t)) 0) as [Hz|Hz]; cbn [negb].
    + st_steps. eapply IHk; [done|lia|exact Hs|done].
    + by apply wp_ret.
Qed.

(** [generic_tree_find_subtree] terminates on every tree and returns the
    first subtree in preorder that stores the data, NULL when none does,
    changing nothing. *)
Theorem find_subtree_correct k al m parent t sd :
  store_ok k (Store al m) -> tree_rep m parent t -> NoDup (footprint t) -> sd <> 0 ->
  generic_tree_find_subtree (root t) sd (Store al m) =
    Ret (first_match (fun d => d =? sd) (preorder t), Store al m).
Proof.
  intros Hok Hrep Hnd Hsd. pose proof (store_ok_zero _ _ _ Hok) as H0.
  assert (Hr : root t <> 0).
  { destruct t as [a d l kids]. apply tree_rep_kids in Hrep as (Ha & _). cbn. congruence. }
  enough (Hw : wp (generic_tree_find_subtree (root t) sd) (fun r s' =>
            r = first_match (fun d => d =? sd) (preorder t) /\ s' = Store al m) (Store al m)).
  { by destruct (wp_inv _ _ _ Hw) as (r & s' & -> & -> & ->). }
  unfold generic_tree_find_subtree. destruct (Z.eqb_spec (root t) 0), (Z.eqb_spec sd 0); try done.
  cbn [negb andb]. st_step. st_step. eapply traverse_spec; [done| |exact Hrep|].
  - intros a d l p Ha. unfold tree_finder_evaluator, bind, get_tree. cbn [objs]. by rewrite Ha.
  - pose proof (cost_footprint t). pose proof (footprint_size _ _ _ Hrep Hnd).
    unfold chain_fuel. cbn [objs]. lia.
Qed.

(** The first half of a creation: the tree with its data and an empty list of
    children, before it gets a parent. *)
Definition fresh_leaf (m m' : gmap Z obj) (t d subs : Z) : Prop :=
  m !! t = None /\ m !! subs = None /\ t <> 0 /\ m' !! t = Some (OTree (GenTree d subs 0)) /\
  list_rep m' subs [] /\ m ⊆ m'.

Lemma leaf_spec k al m d (K : Z -> cmd (store A) Z) (Q : Z -> store A -> Prop) :
  store_ok (S (S k)) (Store al m) ->
  (forall t subs al' m', store_ok k (Store al' m') -> fresh_leaf m m' t d subs -> wp (K t) Q (Store al' m')) ->
  wp (t <- new_obj SIZEOF_TREE (OTree (GenTree 0 0 0)) ;;
      set_t_data t d ;;; subs <- linked_list_create ;; set_sub_trees t subs ;;; K t) Q (Store al m).
Proof.
  intros Hok HK. st_step. eapply wp_new; [done|by vm_compute|].
  intros t al1 Ht Hmt Hok1. st_steps.
  eapply wp_mono; [eapply linked_list_create_spec; by st_ok|].
  intros subs [al2 m2] (Hok2 & Hms & Hsubs & Hu2). cbn [objs] in *.
  assert (Hm2t : m2 !! t = Some (OTree (GenTree d 0 0))).
  { rewrite (Hu2 t); [by lk|apply not_elem_of_nil|eexists; by lk]. }
  assert (Hsub_t : subs <> t) by (intros ->; rewrite lookup_insert_eq in Hms; done).
  assert (Hms' : m !! subs = None) by (by rewrite !lookup_insert_ne in Hms by congruence).
  st_steps. eapply (HK t subs); [by st_ok|]. split_and!; [done|done|done|by lk| |].
  - eapply (list_rep_frame m2 _ [t]); [done| |].
    + intros a Ha _. split_notin. by lk.
    + intros a [->|Ha]%elem_of_cons ?%list_elem_of_singleton; [done|by apply not_elem_of_nil in Ha].
  - apply map_subseteq_spec. intros a o Ha. assert (a <> t) by congruence. lk.
    rewrite (Hu2 a); [by lk|apply not_elem_of_nil|eexists; by lk].
Qed.

Lemma fresh_notowned m l xs a : list_rep m l xs -> m !! a = None -> a ∉ owned l xs.
Proof.
  intros (Hl & Hs & _) Ha [->|Hin]%elem_of_cons; [congruence|]. by apply (fresh_notin _ _ _ _ _ Hs Ha).
Qed.

Lemma generic_tree_create_spec k al m parent pd l pp xs d :
  store_ok (S (S (S k))) (Store al m) ->
  m !! parent = Some (OTree (GenTree pd l pp)) -> list_rep m l xs ->
  wp (generic_tree_create d parent) (fun t s' => exists subs n,
    store_ok k s' /\ m !! t = None /\ m !! subs = None /\ m !! n = None /\
    s'.(objs) !! t = Some (OTree (GenTree d subs parent)) /\
    list_rep s'.(objs) subs [] /\ list_rep s'.(objs) l (xs ++ [(n, t)]) /\
    untouched (owned l xs) m s'.(objs)) (Store al m).
Proof.
  intros Hok Hp Hl. pose proof (store_ok_zero _ _ _ Hok) as H0.
  unfold generic_tree_create. eapply leaf_spec; [exact Hok|].
  intros t subs al2 m2 Hok2 (Hmt & Hms & Ht & Hm2t & Hsubs & Hsub).
  assert (parent <> t) by congruence. assert (parent <> 0) by congruence.
  destruct (Z.eqb_spec parent 0); [done|]. cbn [negb].
  pose proof (lookup_weaken _ _ _ _ Hp Hsub) as Hp2. pose proof (list_rep_sub _ _ _ _ Hsub Hl) as Hl2. st_steps.
  eapply wp_mono; [eapply linked_list_append_spec; [exact Hok2|exact Hl2|done]|].
  intros nn [al3 m3] (Hok3 & Hrep3 & Hn & Hu3). cbn [objs] in *. rewrite app_nil_r in Hu3.
  pose proof (fresh_notowned _ _ _ _ Hl Hmt) as Hto. pose proof (fresh_notowned _ _ _ _ Hl Hms) as Hso.
  assert (Hm3t : m3 !! t = Some (OTree (GenTree d subs 0))) by (rewrite (Hu3 t); [done|done|by eexists]).
  st_steps. exists subs, nn. cbn [objs]. split_and!; [by st_ok|done|done| |by lk| | |].
  - destruct (m !! nn) eqn:He; [|done]. by rewrite (lookup_weaken _ _ _ _ He Hsub) in Hn.
  - eapply (list_rep_frame m2 _ (t :: owned l xs)); [done| |].
    + intros a Ha Hs. split_notin. rewrite lookup_insert_ne by done. by apply Hu3.
    + intros a [->|Ha]%elem_of_cons; [|by apply not_elem_of_nil in Ha].
      apply not_elem_of_cons. split; [destruct Hsubs; congruence|done].
  - eapply (list_rep_frame m3 _ [t]); [done| |].
    + intros a Ha _. split_notin. by lk.
    + intros a Ha ->%list_elem_of_singleton. destruct Hrep3 as (Hr1 & Hr2 & _).
      apply elem_of_cons in Ha as [->|Ha]; [congruence|].
      destruct (dlseg_node _ _ _ _ _ Hr2 Ha). congruence.
  - intros a Ha [o Ho]. assert (a <> t) by congruence. rewrite lookup_insert_ne by done.
    pose proof (lookup_weaken _ _ _ _ Ho Hsub) as Ho2. rewrite (Hu3 a); [|done|by eexists]. congruence.
Qed.

(** [generic_tree_create] under a parent makes a fresh leaf holding the
    data, linked back to the parent, and appends it as the parent's last
    child; the siblings and every other object stay as they were. *)
Theorem generic_tree_create_correct k al m parent pd l pp xs d :
  store_ok (S (S (S k))) (Store al m) ->
  m !! parent = Some (OTree (GenTree pd l pp)) -> list_rep m l xs ->
  wp (generic_tree_create d parent) (fun t s' => exists subs n,
    store_ok k s' /\ m !! t = None /\
    s'.(objs) !! t = Some (OTree (GenTree d subs parent)) /\
    list_rep s'.(objs) subs [] /\ list_rep s'.(objs) l (xs ++ [(n, t)]) /\
    untouched (owned l xs) m s'.(objs)) (Store al m).
Proof.
  intros Hok Hp Hl. eapply wp_mono; [by eapply generic_tree_create_spec|].
  intros t s' (subs & n & ? & ? & _ & _ & ?). by exists subs, n.
Qed.

(** [generic_tree_destroy] frees exactly the tree's own structure: the
    [gen_tree_t], its children list and that list's nodes; the children
    themselves and everything else are untouched. *)
Theorem generic_tree_destroy_correct k al m tree d l p xs :
  store_ok k (Store al m) -> m !! tree = Some (OTree (GenTree d l p)) -> list_rep m l xs ->
  wp (generic_tree_destroy tree) (fun _ s' => store_ok k s' /\
    (forall a, a ∈ tree :: owned l xs -> s'.(objs) !! a = None) /\
    (forall a, a ∉ tree :: owned l xs -> s'.(objs) !! a = m !! a)) (Store al m).
Proof.
  intros Hok Ht Hl. pose proof (store_ok_zero _ _ _ Hok) as H0.
  assert (tree <> 0) by congruence. unfold generic_tree_destroy.
  destruct (Z.eqb_spec tree 0); [done|]. st_steps.
  assert (Hto : tree ∉ owned l xs).
  { destruct Hl as (Hll & Hls & _). intros [->|Hin]%elem_of_cons; [congruence|].
    destruct (dlseg_node _ _ _ _ _ Hls Hin). congruence. }
  assert (Hl2 : list_rep (<[tree := OTree (GenTree 0 l 0)]> (<[tree := OTree (GenTree 0 l p)]> m)) l xs).
  { eapply (list_rep_frame m _ [tree]); [done| |].
    - intros a Ha _. split_notin. by lk.
    - intros a Ha ->%list_elem_of_singleton. done. }
  eapply wp_mono; [eapply linked_list_destroy_spec; [by st_ok|exact Hl2]|].
  intros u [al1 m1] (Hok1 & Hin & Hout). cbn [objs] in *.
  eapply wp_free; [done|rewrite Hout by done; eexists; by lk|]. intros al2 Hok2. cbn [objs].
  split_and!; [done|..]; intros a Ha.
  - apply elem_of_cons in Ha as [->|Ha]; [by rewrite lookup_delete_eq|].
    rewrite lookup_delete_ne by (intros ->; contradiction). by apply Hin.
  - apply not_elem_of_cons in Ha as [? ?]. rewrite lookup_delete_ne by done.
    rewrite Hout by done. by lk.
Qed.
End proofs.

(** ** A concrete tree: a root 5 with children 6 and 7, the first with a child 8 *)

#[local] Existing Instance bump_allocator.

Definition demo_tree : rose :=
  Rose 1 5 2 [(3, Rose 4 6 8 [(9, Rose 10 8 11 [])]); (5, Rose 6 7 7 [])].
Definition demo_tree_store : store bump :=
  Store (bump_at 20 [1; 2; 3; 4; 5; 6; 7; 8; 9; 10; 11])
    (<[1 := OTree (GenTree 5 2 0)]> (<[2 := OList (LnkLst 3 5 2)]>
    (<[3 := ONode (DNode 0 5 4)]> (<[5 := ONode (DNode 3 0 6)]>
    (<[4 := OTree (GenTree 6 8 1)]> (<[8 := OList (LnkLst 9 9 1)]>
    (<[9 := ONode (DNode 0 0 10)]> (<[10 := OTree (GenTree 8 11 4)]>
    (<[11 := OList (LnkLst 0 0 0)]> (<[6 := OTree (GenTree 7 7 1)]>
    (<[7 := OList (LnkLst 0 0 0)]> ∅))))))))))).

Lemma demo_tree_ok : store_ok 100 demo_tree_store.
Proof.
  store_by_compute.
Qed.

Ltac demo_list := unfold list_rep; split_and!;
  first [done | by vm_compute | apply (bool_decide_unpack _); by vm_compute].

Lemma demo_tree_rep : tree_rep demo_tree_store.(objs) 0 demo_tree.
Proof. cbn [tree_rep demo_tree snd]. demo_list. Qed.

Lemma find_subtree_correct_witness :
  generic_tree_find_subtree 1 8 demo_tree_store =
    Ret (first_match (fun d => d =? 8) (preorder demo_tree), demo_tree_store) /\
  first_match (fun d => d =? 8) (preorder demo_tree) = 10.
Proof.
  split; [|done]. apply (find_subtree_correct 100 _ _ 0 demo_tree 8).
  - exact demo_tree_ok.
  - exact demo_tree_rep.
  - apply (bool_decide_unpack _). by vm_compute.
  - done.
Defined.

Lemma generic_tree_create_correct_witness :
  wp (generic_tree_create 9 6) (fun t s' => exists subs n,
    store_ok 97 s' /\ demo_tree_store.(objs) !! t = None /\
    s'.(objs) !! t = Some (OTree (GenTree 9 subs 6)) /\
    list_rep s'.(objs) subs [] /\ list_rep s'.(objs) 7 ([] ++ [(n, t)]) /\
    untouched (owned 7 []) demo_tree_store.(objs) s'.(objs)) demo_tree_store.
Proof.
  apply (generic_tree_create_correct 97 _ _ 6 7 7 1 [] 9); [exact demo_tree_ok|done|demo_list].
Defined.

Lemma generic_tree_destroy_correct_witness :
  wp (generic_tree_destroy 4) (fun _ s' => store_ok 100 s' /\
    (forall a, a ∈ 4 :: owned 8 [(9, 10)] -> s'.(objs) !! a = None) /\
    (forall a, a ∉ 4 :: owned 8 [(9, 10)] -> s'.(objs) !! a = demo_tree_store.(objs) !! a))
    demo_tree_store.
Proof.
  apply (generic_tree_destroy_correct 100 _ _ 4 6 8 1 [(9, 10)]); [exact demo_tree_ok|done|demo_list].
Defined.
