(* ===== verification/Paging.v ===== *)
(** [kernel/memory/memory_paging.c]: two-level page tables, the temporary
    mapping window, address-space cloning with copy-on-write, tear-down, and
    the page-fault handler.

    Memory is physical ([Kmem] bytes).  The kernel edits page structures
    through the page at 0xC0000000, whose page-table entry [temp_map_page]
    rewrites: that entry is the register [win_pte], and a virtual access inside
    the window goes to the frame it names at the time of the access.  Every
    other kernel virtual access is translated by the directory in [cr3]. *)
From stdpp Require Import base numbers gmap list.
From S2P Require Import Prelude Physmem Kmem.

Definition WINDOW : Z := 0xC0000000.
Definition VIRT_PAGE_DIR_ADDR : Z := 0xFFFFF000.
Definition LAST_PAGE_TABLE_INDEX : Z := 0x3FF.
Definition NO_OF_TABLE_ENTRIES : Z := 1024.
Definition TEMP_PAGE_ADDR : Z := 0xCFFFD000.

Record pstate := PState {
  pm : mem;
  win_pte : Z;
  frames : phys;
  page_directory : Z;
  kernel_pagedir : Z;
  paging_status : Z;
  temp_page : Z;
  cr3 : Z;
  isr14_installed : bool
}.

Definition set_pm (f : mem -> mem) (s : pstate) : pstate :=
  PState (f s.(pm)) s.(win_pte) s.(frames) s.(page_directory) s.(kernel_pagedir)
         s.(paging_status) s.(temp_page) s.(cr3) s.(isr14_installed).
Definition set_win (v : Z) (s : pstate) : pstate :=
  PState s.(pm) v s.(frames) s.(page_directory) s.(kernel_pagedir)
         s.(paging_status) s.(temp_page) s.(cr3) s.(isr14_installed).
Definition set_frames (f : phys) (s : pstate) : pstate :=
  PState s.(pm) s.(win_pte) f s.(page_directory) s.(kernel_pagedir)
         s.(paging_status) s.(temp_page) s.(cr3) s.(isr14_installed).

(** A call into the physical allocator. *)
Definition on_frames {A} (c : cmd phys A) : cmd pstate A :=
  fun s => match c s.(frames) with
           | Ret (a, f) => Ret (a, set_frames f s)
           | Fault => Fault
           | Hang => Hang
           end.

(** ** Page directory and page table entries

    [page_dir_en_t] and [page_tab_en_t] have the same layout for the fields
    the code uses: present (bit 0), read/write (1), user/supervisor (2) and the
    20-bit frame number (12..31). *)
Definition present_bit (e : Z) : Z := bf_get 0 1 e.
Definition read_write (e : Z) : Z := bf_get 1 1 e.
Definition user_supervisor (e : Z) : Z := bf_get 2 1 e.
Definition page_addr (e : Z) : Z := bf_get 12 20 e.
Definition set_present_bit (e v : Z) : Z := bf_set 0 1 e v.
Definition set_read_write (e v : Z) : Z := bf_set 1 1 e v.
Definition set_user_supervisor (e v : Z) : Z := bf_set 2 1 e v.
Definition set_page_addr (e v : Z) : Z := bf_set 12 20 e v.

(** [entry.page_addr << 12] *)
Definition entry_frame (e : Z) : Z := u32 (Z.shiftl (page_addr e) 12).

Definition get_page_directory_index (virt_addr : Z) : Z :=
  Z.land (Z.shiftr virt_addr 22) LAST_PAGE_TABLE_INDEX.
Definition get_page_table_index (virt_addr : Z) : Z :=
  Z.land (Z.shiftr virt_addr 12) LAST_PAGE_TABLE_INDEX.

(** The processor's translation through the directory at [dir]. *)
Definition mmu (m : mem) (dir va : Z) : Z :=
  let tab := entry_frame (rd32 m (dir + 4 * get_page_directory_index va)) in
  entry_frame (rd32 m (tab + 4 * get_page_table_index va)) + va mod 4096.

Definition phys_of (s : pstate) (va : Z) : Z :=
  if (WINDOW <=? va) && (va <? WINDOW + 4096) then entry_frame s.(win_pte) + (va - WINDOW)
  else mmu s.(pm) s.(cr3) va.

Definition vread (va : Z) : cmd pstate Z := gets (fun s => rd32 s.(pm) (phys_of s va)).
Definition vwrite (va v : Z) : cmd pstate unit :=
  modify (fun s => set_pm (fun m => wr32 m (phys_of s va) v) s).
(** [entry->field = v] through a pointer. *)
Definition vupdate (va : Z) (f : Z -> Z) : cmd pstate unit := v <- vread va ;; vwrite va (f v).

(** [memset_32(temp_map_page(...), 0, 1024)] and friends stay inside a page. *)
Definition vmemset_32 (va val len : Z) : cmd pstate unit :=
  modify (fun s => set_pm (fun m => memset_32 m (phys_of s va) val len) s).
Definition vmemcpy_32 (dest src len : Z) : cmd pstate unit :=
  modify (fun s => set_pm (fun m => memcpy_32 m (phys_of s dest) (phys_of s src) len) s).
Definition vmemset_8 (va val len : Z) : cmd pstate unit :=
  modify (fun s => set_pm (fun m => memset_8 m (phys_of s va) val len) s).

(** [memcpy_8] into the window, of bytes from outside. *)
Definition store_bytes (va : Z) (bytes : list Z) : cmd pstate unit :=
  modify (fun s => set_pm (fun m => put_bytes m (phys_of s va) bytes) s).

Definition get_page_directory_address : cmd pstate Z :=
  gets (fun s => if s.(paging_status) =? 0 then s.(page_directory) else s.(cr3)).

Definition temp_map_page (physical : Z) : cmd pstate Z :=
  modify (fun s => set_win (set_page_addr s.(win_pte) (Z.shiftr physical 12)) s) ;;;
  ret WINDOW.

Definition swap_page_directory (page_dir_addr : Z) : cmd pstate unit :=
  modify (fun s => PState s.(pm) s.(win_pte) s.(frames) page_dir_addr s.(kernel_pagedir)
                          s.(paging_status) s.(temp_page) page_dir_addr s.(isr14_installed)).

(** The translation cache is not modelled: flushing it changes nothing here. *)
Definition flush_tlb : cmd pstate unit := ret tt.

Definition map_kernel_entry (pdir i : Z) : cmd pstate unit :=
  tmp <- gets kernel_pagedir ;;
  v <- vread (tmp + 4 * i) ;;
  if negb (v =? 0x00000000) && negb (v =? 0xFFFFFFFF) then
    val <- vread (tmp + 4 * i) ;;
    pd <- temp_map_page pdir ;;
    vwrite (pd + 4 * i) val
  else ret tt.

Definition map_kernel_tables (pdir : Z) : cmd pstate unit :=
  w <- temp_map_page pdir ;;
  vmemset_32 w 0 1024 ;;;
  for_ 256 768 (map_kernel_entry pdir) ;;;
  pd <- temp_map_page pdir ;;
  vupdate (pd + 4 * 1023) (fun e => set_page_addr e (Z.shiftr pdir 12)).

(** The body of the inner loop of [clone_page_structures]. *)
Definition clone_entry (src_page_table new_page_table j : Z) : cmd pstate unit :=
  src_ptab <- temp_map_page src_page_table ;;
  e <- vread (src_ptab + 4 * j) ;;
  if negb (present_bit e =? 0) then
    vupdate (src_ptab + 4 * j) (fun e => set_read_write e 0) ;;;
    entry <- vread (src_ptab + 4 * j) ;;
    e <- vread (src_ptab + 4 * j) ;;
    let addr := entry_frame e in
    new_ptab <- temp_map_page new_page_table ;;
    vwrite (new_ptab + 4 * j) entry ;;;
    on_frames (alloc_phys_increase_refcount addr)
  else ret tt.

(** The body of the outer loop. *)
Definition clone_table (src_dir new_page_dir i : Z) : cmd pstate unit :=
  sdir <- temp_map_page src_dir ;;
  e <- vread (sdir + 4 * i) ;;
  if negb (present_bit e =? 0) then
    if 768 <=? i then
      entry <- vread (sdir + 4 * i) ;;
      ndir <- temp_map_page new_page_dir ;;
      vwrite (ndir + 4 * i) entry ;;;
      (if i =? 1023 then
         vupdate (ndir + 4 * i) (fun e => set_page_addr e (Z.shiftr new_page_dir 12))
       else ret tt)
    else
      e <- vread (sdir + 4 * i) ;;
      let src_page_table := entry_frame e in
      src_entry <- vread (sdir + 4 * i) ;;
      new_page_table <- on_frames alloc_phys_page ;;
      w <- temp_map_page new_page_table ;;
      vmemset_32 w 0 1024 ;;;
      for_ 1024 0 (clone_entry src_page_table new_page_table) ;;;
      ndir <- temp_map_page new_page_dir ;;
      vwrite (ndir + 4 * i) src_entry ;;;
      vupdate (ndir + 4 * i) (fun e => set_page_addr e (Z.shiftr new_page_table 12))
  else ret tt.

Definition clone_page_structures (src_dir : Z) : cmd pstate Z :=
  new_page_dir <- on_frames alloc_phys_page ;;
  w <- temp_map_page new_page_dir ;;
  vmemset_32 w 0 1024 ;;;
  for_ 1024 0 (clone_table src_dir new_page_dir) ;;;
  flush_tlb ;;;
  ret new_page_dir.

(** Dropping one reference to the frame behind a present entry. *)
Definition release_frame (phys_frame_addr : Z) : cmd pstate unit :=
  refcount <- on_frames (alloc_phys_get_refcount phys_frame_addr) ;;
  if refcount =? 1 then on_frames (alloc_phys_free phys_frame_addr)
  else on_frames (alloc_phys_decrease_refcount phys_frame_addr).

Definition remove_entry (ptab j : Z) : cmd pstate unit :=
  e <- vread (ptab + 4 * j) ;;
  if negb (present_bit e =? 0) then
    e <- vread (ptab + 4 * j) ;;
    release_frame (entry_frame e) ;;;
    vwrite (ptab + 4 * j) 0x00000000
  else ret tt.

Definition remove_table (page_dir i : Z) : cmd pstate unit :=
  pdir <- temp_map_page page_dir ;;
  e <- vread (pdir + 4 * i) ;;
  if negb (present_bit e =? 0) then
    e <- vread (pdir + 4 * i) ;;
    let ptab_phys := entry_frame e in
    vwrite (pdir + 4 * i) 0x00000000 ;;;
    ptab <- temp_map_page ptab_phys ;;
    for_ 1024 0 (remove_entry ptab) ;;;
    on_frames (alloc_phys_free ptab_phys)
  else ret tt.

Definition remove_address_space (page_dir : Z) : cmd pstate unit :=
  for_ 768 0 (remove_table page_dir) ;;;
  flush_tlb.

Definition nuke_entry (ptab j : Z) : cmd pstate unit :=
  e <- vread (ptab + 4 * j) ;;
  if negb (present_bit e =? 0) then
    e <- vread (ptab + 4 * j) ;;
    release_frame (entry_frame e)
  else ret tt.

Definition nuke_table (page_dir i : Z) : cmd pstate unit :=
  pdir <- temp_map_page page_dir ;;
  e <- vread (pdir + 4 * i) ;;
  if negb (present_bit e =? 0) then
    e <- vread (pdir + 4 * i) ;;
    let ptab_phys := entry_frame e in
    ptab <- temp_map_page ptab_phys ;;
    for_ 1024 0 (nuke_entry ptab) ;;;
    on_frames (alloc_phys_free ptab_phys)
  else ret tt.

Definition nuke_page_directory (page_dir : Z) : cmd pstate unit :=
  for_ 768 0 (nuke_table page_dir) ;;;
  on_frames (alloc_phys_free page_dir) ;;;
  flush_tlb.

Definition get_mapped_address (directory virt_addr : Z) : cmd pstate Z :=
  let virt_addr := align_page virt_addr in
  page_dir <- temp_map_page directory ;;
  let PDE_index := get_page_directory_index virt_addr in
  e <- vread (page_dir + 4 * PDE_index) ;;
  let page_tab := entry_frame e in
  if negb (page_tab =? 0) then
    page_tab <- temp_map_page page_tab ;;
    let PTE_index := get_page_table_index virt_addr in
    e <- vread (page_tab + 4 * PTE_index) ;;
    ret (entry_frame e)
  else ret 0x00000000.

Definition unset_page_table_entry (directory virt_addr : Z) : cmd pstate unit :=
  let virt_addr := align_page virt_addr in
  page_dir <- temp_map_page directory ;;
  let PDE_index := get_page_directory_index virt_addr in
  e <- vread (page_dir + 4 * PDE_index) ;;
  let page_tab := entry_frame e in
  if negb (page_tab =? 0) then
    page_tab <- temp_map_page page_tab ;;
    let PTE_index := get_page_table_index virt_addr in
    vwrite (page_tab + 4 * PTE_index) 0x00000000
  else ret tt.

(** Clearing an entry and setting its fields, as done for a new directory entry
    and for the table entry. *)
Definition fill_entry (entry present user frame : Z) : cmd pstate unit :=
  vmemset_8 entry 0 4 ;;;
  vupdate entry (fun e => set_present_bit e present) ;;;
  vupdate entry (fun e => set_read_write e 1) ;;;
  vupdate entry (fun e => set_user_supervisor e user) ;;;
  vupdate entry (fun e => set_page_addr e (Z.shiftr frame 12)).

Definition set_page_table_entry (directory virt_addr phys_addr present user : Z)
  : cmd pstate unit :=
  let virt_addr := align_page virt_addr in
  let phys_addr := align_page phys_addr in
  page_dir <- temp_map_page directory ;;
  let PDE_index := get_page_directory_index virt_addr in
  let page_dir_entry := page_dir + 4 * PDE_index in
  e <- vread page_dir_entry ;;
  page_tab <-
    (if entry_frame e =? 0 then
       page_tab <- on_frames alloc_phys_page ;;
       fill_entry page_dir_entry 1 user page_tab ;;;
       w <- temp_map_page page_tab ;;
       vmemset_32 w 0 1024 ;;;
       ret page_tab
     else ret (entry_frame e)) ;;
  page_tab <- temp_map_page page_tab ;;
  let PTE_index := get_page_table_index virt_addr in
  let page_tab_entry := page_tab + 4 * PTE_index in
  fill_entry page_tab_entry present user phys_addr.

(** [start] is the linker symbol [_start].  The kernel is at most the address
    space, which bounds the mapping loop. *)
Fixpoint map_kernel_range (fuel : nat) (dir addr_v addr_p end_v end_p : Z) : cmd pstate unit :=
  match fuel with
  | O => hang
  | S fuel' =>
      if (addr_v <? end_v) && (addr_p <? end_p) then
        set_page_table_entry dir addr_v addr_p 1 0 ;;;
        map_kernel_range fuel' dir (u32 (addr_v + 4096)) (u32 (addr_p + 4096)) end_v end_p
      else ret tt
  end.

Definition clear_pde (page_dir i : Z) : cmd pstate unit :=
  vupdate (page_dir + 4 * i) (fun e => set_present_bit e 0) ;;;
  vupdate (page_dir + 4 * i) (fun e => set_read_write e 0).

Definition init_paging (start phys_e_addr : Z) : cmd pstate unit :=
  dir <- on_frames alloc_phys_page ;;
  modify (fun s => PState s.(pm) s.(win_pte) s.(frames) dir s.(kernel_pagedir)
                          s.(paging_status) s.(temp_page) s.(cr3) s.(isr14_installed)) ;;;
  page_dir <- temp_map_page dir ;;
  vmemset_8 page_dir 0 4096 ;;;
  for_ (Z.to_nat NO_OF_TABLE_ENTRIES) 0 (clear_pde page_dir) ;;;
  let pde := page_dir + 4 * LAST_PAGE_TABLE_INDEX in
  vupdate pde (fun e => set_present_bit e 1) ;;;
  vupdate pde (fun e => set_read_write e 1) ;;;
  vupdate pde (fun e => set_page_addr e (Z.shiftr dir 12)) ;;;
  let virt_s_addr_k := start in
  let virt_e_addr_k := physical_to_virtual phys_e_addr in
  let phys_s_addr_k := virtual_to_physical virt_s_addr_k in
  let phys_e_addr_k := virtual_to_physical virt_e_addr_k in
  map_kernel_range (Z.to_nat (2 ^ 20)) dir virt_s_addr_k phys_s_addr_k virt_e_addr_k phys_e_addr_k ;;;
  set_page_table_entry dir WINDOW 0x00000000 1 0 ;;;
  modify (fun s => PState s.(pm) s.(win_pte) s.(frames) s.(page_directory) VIRT_PAGE_DIR_ADDR
                          s.(paging_status) s.(temp_page) s.(cr3) true).

Definition reset_paging : cmd pstate unit :=
  dir <- gets page_directory ;;
  swap_page_directory dir ;;;
  temp <- on_frames alloc_phys_page ;;
  dir <- gets page_directory ;;
  set_page_table_entry dir TEMP_PAGE_ADDR temp 1 0 ;;;
  modify (fun s => PState s.(pm) s.(win_pte) s.(frames) s.(page_directory) s.(kernel_pagedir)
                          1 TEMP_PAGE_ADDR s.(cr3) s.(isr14_installed)).

(** What the page-fault handler decides: resume the process, kill it and let
    the scheduler pick another, or stop the machine. *)
Inductive pf_action := PfResume | PfKill | PfHalt.

(** [proc_pdir]: the current process's directory; [fault]: the value of cr2. *)
Definition page_fault_handler (proc_pdir err_code fault : Z) : cmd pstate pf_action :=
  if negb (Z.land err_code 0x4 =? 0) && negb (Z.land err_code 0x2 =? 0)
     && negb (Z.land err_code 0x1 =? 0) then
    frame <- get_mapped_address proc_pdir fault ;;
    frame_refcount <- on_frames (alloc_phys_get_refcount frame) ;;
    (if 1 <? frame_refcount then
       on_frames (alloc_phys_decrease_refcount frame) ;;;
       new_frame <- on_frames alloc_phys_page ;;
       frame_v <- temp_map_page frame ;;
       temp <- gets temp_page ;;
       vmemcpy_32 temp frame_v 1024 ;;;
       new_frame_v <- temp_map_page new_frame ;;
       vmemcpy_32 new_frame_v temp 1024 ;;;
       set_page_table_entry proc_pdir fault new_frame 1 1
     else if frame_refcount =? 1 then
       set_page_table_entry proc_pdir fault frame 1 1
     else ret tt) ;;;
    ret PfResume
  else if negb (Z.land err_code 0x4 =? 0) then ret PfKill
  else ret PfHalt.

#[local] Opaque memset_8 memset_32 memcpy_32.

(** * Entries *)

Lemma page_addr_range e : 0 <= page_addr e < 2 ^ 20.
Proof. apply bf_get_range; lia. Qed.

Lemma entry_frame_alt e : entry_frame e = page_addr e * 4096.
Proof.
  unfold entry_frame. pose proof (page_addr_range e). rewrite Z.shiftl_mul_pow2 by lia.
  change (2 ^ 12) with 4096. apply u32_small. lia.
Qed.

Lemma entry_frame_aligned e : entry_frame e mod 4096 = 0 /\ 0 <= entry_frame e <= 2 ^ 32 - 4096.
Proof. rewrite entry_frame_alt. pose proof (page_addr_range e). zdm. Qed.

(** A frame address: page-aligned and 32-bit. *)
Definition is_frame (f : Z) : Prop := f mod 4096 = 0 /\ is_u32 f.

Lemma is_frame_entry e : is_frame (entry_frame e).
Proof. destruct (entry_frame_aligned e). split; [done|unfold is_u32; lia]. Qed.

Lemma set_page_addr_frame e f : is_frame f -> entry_frame (set_page_addr e (Z.shiftr f 12)) = f.
Proof.
  intros [Hm Hu]. rewrite entry_frame_alt. unfold page_addr, set_page_addr.
  rewrite bf_get_set_same by lia. rewrite Z.shiftr_div_pow2 by lia. unfold is_u32 in Hu.
  change (2 ^ 12) with 4096. change (2 ^ 20) with 1048576. zdm.
Qed.

(** The value [fill_entry] leaves. *)
Definition entry_val (present user frame : Z) : Z :=
  set_page_addr (set_user_supervisor (set_read_write (set_present_bit 0 present) 1) user)
                (Z.shiftr frame 12).

Lemma entry_val_fields p u f :
  is_frame f ->
  entry_frame (entry_val p u f) = f /\ present_bit (entry_val p u f) = p mod 2 /\
  read_write (entry_val p u f) = 1 /\ user_supervisor (entry_val p u f) = u mod 2 /\
  is_u32 (entry_val p u f).
Proof.
  intros Hf. split; [by apply set_page_addr_frame|].
  unfold entry_val, present_bit, read_write, user_supervisor, set_page_addr, set_user_supervisor,
    set_read_write, set_present_bit.
  split_and!.
  - by rewrite !bf_get_set_other, bf_get_set_same by lia.
  - by rewrite !bf_get_set_other, bf_get_set_same by lia.
  - by rewrite !bf_get_set_other, bf_get_set_same by lia.
  - repeat (apply bf_set_u32; [lia..|]). done.
Qed.

Lemma entry_frame_0 : entry_frame 0 = 0.
Proof. reflexivity. Qed.

(** Words of different pages do not overlap. *)
Lemma pages_disjoint f g i j :
  f mod 4096 = 0 -> g mod 4096 = 0 -> f <> g -> 0 <= i <= 4092 -> 0 <= j <= 4092 ->
  f + i + 4 <= g + j \/ g + j + 4 <= f + i.
Proof. intros. zdm. Qed.

Lemma pdi_range va : 0 <= get_page_directory_index va < 1024.
Proof.
  unfold get_page_directory_index, LAST_PAGE_TABLE_INDEX. change 0x3FF with (Z.ones 10).
  rewrite Z.land_ones by lia. apply Z.mod_pos_bound. lia.
Qed.
Lemma pti_range va : 0 <= get_page_table_index va < 1024.
Proof.
  unfold get_page_table_index, LAST_PAGE_TABLE_INDEX. change 0x3FF with (Z.ones 10).
  rewrite Z.land_ones by lia. apply Z.mod_pos_bound. lia.
Qed.

(** The two indices identify the page of a 32-bit address. *)
Lemma indices_inj a b :
  is_u32 a -> is_u32 b -> get_page_directory_index a = get_page_directory_index b ->
  get_page_table_index a = get_page_table_index b -> a / 4096 = b / 4096.
Proof.
  unfold is_u32, get_page_directory_index, get_page_table_index, LAST_PAGE_TABLE_INDEX.
  change 0x3FF with (Z.ones 10). rewrite !Z.land_ones, !Z.shiftr_div_pow2 by lia.
  change (2 ^ 22) with 4194304. change (2 ^ 12) with 4096. change (2 ^ 10) with 1024. intros. zdm.
Qed.

Lemma pdi_align a : is_u32 a -> get_page_directory_index (align_page a) = get_page_directory_index a.
Proof.
  intros Ha. rewrite align_page_spec by done. unfold is_u32, get_page_directory_index in *.
  rewrite !Z.shiftr_div_pow2 by lia. change (2 ^ 22) with 4194304. f_equal. zdm.
Qed.
Lemma pti_align a : is_u32 a -> get_page_table_index (align_page a) = get_page_table_index a.
Proof.
  intros Ha. rewrite align_page_spec by done. unfold is_u32, get_page_table_index in *.
  rewrite !Z.shiftr_div_pow2 by lia. change (2 ^ 12) with 4096. f_equal. zdm.
Qed.

(** * Access through the window *)

Lemma phys_of_window s o :
  0 <= o < 4096 -> phys_of s (WINDOW + o) = entry_frame s.(win_pte) + o.
Proof.
  intros Ho. unfold phys_of. rewrite (proj2 (Z.leb_le _ _)), (proj2 (Z.ltb_lt _ _)) by lia.
  cbn [andb]. f_equal. lia.
Qed.

Lemma temp_map_spec f s :
  is_frame f ->
  exists w, temp_map_page f s = Ret (WINDOW, set_win w s) /\ entry_frame w = f.
Proof. intros Hf. eexists. split; [done|]. by apply set_page_addr_frame. Qed.

Lemma vread_window o s :
  0 <= o < 4096 -> vread (WINDOW + o) s = Ret (rd32 s.(pm) (entry_frame s.(win_pte) + o), s).
Proof. intros. unfold vread, gets. by rewrite phys_of_window. Qed.

Lemma vwrite_window o v s :
  0 <= o < 4096 ->
  vwrite (WINDOW + o) v s = Ret (tt, set_pm (fun m => wr32 m (entry_frame s.(win_pte) + o) v) s).
Proof. intros. unfold vwrite, modify. by rewrite phys_of_window. Qed.

Lemma vupdate_window o f s :
  0 <= o < 4096 ->
  vupdate (WINDOW + o) f s =
  Ret (tt, set_pm (fun m => let a := entry_frame s.(win_pte) + o in wr32 m a (f (rd32 m a))) s).
Proof. intros. unfold vupdate, bind. rewrite vread_window by done. by rewrite vwrite_window. Qed.

Lemma vmemset_window v n s :
  vmemset_32 WINDOW v n s =
  Ret (tt, set_pm (fun m => memset_32 m (entry_frame s.(win_pte)) v n) s).
Proof.
  unfold vmemset_32, modify. pose proof (phys_of_window s 0 ltac:(lia)) as H.
  rewrite !Z.add_0_r in H. by rewrite H.
Qed.

Lemma phys_of_window0 s : phys_of s WINDOW = entry_frame s.(win_pte).
Proof. pose proof (phys_of_window s 0 ltac:(lia)) as H. by rewrite !Z.add_0_r in H. Qed.

Lemma vmemcpy_at dest src s d sr :
  phys_of s dest = d -> phys_of s src = sr ->
  vmemcpy_32 dest src 1024 s = Ret (tt, set_pm (fun m => memcpy_32 m d sr 1024) s).
Proof. intros <- <-. done. Qed.

(** [m'] is [m] with the word at [a] replaced by [v]. *)
Definition upd32 (m m' : mem) (a v : Z) : Prop :=
  rd32 m' a = v /\ forall x, x < a \/ a + 4 <= x -> rd8 m' x = rd8 m x.

Lemma upd32_other m m' a v b :
  upd32 m m' a v -> b + 4 <= a \/ a + 4 <= b -> rd32 m' b = rd32 m b.
Proof. intros [_ H] Hb. apply rd32_ext. intros. apply H. lia. Qed.

Lemma fill_entry_spec o p u f s :
  0 <= o <= 4092 -> is_frame f ->
  exists m', fill_entry (WINDOW + o) p u f s = Ret (tt, set_pm (fun _ => m') s) /\
    upd32 s.(pm) m' (entry_frame s.(win_pte) + o) (entry_val p u f).
Proof.
  intros Ho Hf. unfold fill_entry, bind, vmemset_8, modify.
  rewrite phys_of_window by lia. rewrite !vupdate_window by lia.
  cbn [set_pm win_pte pm]. cbn zeta. eexists. split; [reflexivity|].
  set (a := entry_frame (win_pte s) + o).
  assert (Hz : rd32 (memset_8 (pm s) a 0 4) a = 0).
  { unfold rd32, rd16. rewrite !memset_8_rd, !decide_True by lia. done. }
  split.
  - cbn [pm set_pm]. rewrite !rd32_wr32_u32. rewrite Hz.
    destruct (entry_val_fields p u f Hf) as (_ & _ & _ & _ & Hu).
    assert (Hs : forall v, u32 v = v -> u32 (set_read_write v 1) = set_read_write v 1).
    { intros v Hv. apply u32_small. apply bf_set_u32; [lia..|]. rewrite <- Hv. apply u32_range. }
    assert (Hp : u32 (set_present_bit 0 p) = set_present_bit 0 p).
    { apply u32_small, bf_set_u32; [lia..|done]. }
    assert (Hus : forall v, u32 v = v -> u32 (set_user_supervisor v u) = set_user_supervisor v u).
    { intros v Hv. apply u32_small. apply bf_set_u32; [lia..|]. rewrite <- Hv. apply u32_range. }
    rewrite Hp, (Hs _ Hp), (Hus _ (Hs _ Hp)). by apply u32_small.
  - intros x Hx. cbn [pm set_pm]. rewrite !rd8_wr32_ne by lia. by rewrite memset_8_rd, decide_False by lia.
Qed.


(** * Directories *)

Definition table_of (m : mem) (dir i : Z) : Z := entry_frame (rd32 m (dir + 4 * i)).

(** The page-table entry of an address; 0 where there is no table. *)
Definition pte_of (m : mem) (dir va : Z) : Z :=
  let t := table_of m dir (get_page_directory_index va) in
  if t =? 0 then 0 else rd32 m (t + 4 * get_page_table_index va).

(** A frame in use. *)
Definition used (fr : phys) (f : Z) : Prop := tracked fr f /\ 1 <= rc_of fr f.

(** A directory whose tables are frames in use, none shared and none the
    directory itself.  The last entry maps the directory onto itself. *)
Record dir_ok (m : mem) (fr : phys) (dir : Z) : Prop := {
  dok_dir : used fr dir;
  dok_nz : dir <> 0;
  dok_tab : forall i, 0 <= i < 1023 -> table_of m dir i = 0 \/
              (used fr (table_of m dir i) /\ table_of m dir i <> dir);
  dok_inj : forall i j, 0 <= i < 1023 -> 0 <= j < 1023 -> i <> j ->
              table_of m dir i = table_of m dir j -> table_of m dir i = 0
}.

(** Frames in use stay in use, on the same machine. *)
Definition keeps_used (fr fr' : phys) : Prop :=
  phys_wf fr' /\ same_machine fr fr' /\
  forall b, used fr b -> rc_of fr' b = rc_of fr b.

Lemma keeps_used_used fr fr' b : keeps_used fr fr' -> used fr b -> used fr' b.
Proof.
  intros (_ & Hsm & Hk) Hb. pose proof (Hk b Hb). destruct Hb as [Ht Hr]. split; [|lia].
  by apply (same_machine_tracked fr fr').
Qed.

Lemma keeps_used_refl fr : phys_wf fr -> keeps_used fr fr.
Proof. intros. split_and!; eauto with dbos. Qed.

Lemma keeps_used_trans fr1 fr2 fr3 :
  keeps_used fr1 fr2 -> keeps_used fr2 fr3 -> keeps_used fr1 fr3.
Proof.
  intros H12 H23. pose proof H12 as (_ & S12 & K12). pose proof H23 as (W & S23 & K23).
  split_and!; [done|by eapply same_machine_trans|]. intros b Hb.
  rewrite K23 by (by eapply keeps_used_used). by apply K12.
Qed.

Lemma tracked_frame fr f : phys_wf fr -> tracked fr f -> is_frame f.
Proof. intros Hwf Ht. split; [apply Ht|]. by eapply tracked_u32; [apply wf_cfg|]. Qed.

Lemma tracked_align fr f : phys_wf fr -> tracked fr f -> align_page f = f.
Proof. intros Hwf Ht. destruct (tracked_frame _ _ Hwf Ht). by apply align_page_id. Qed.

(** There is a frame to hand out, and it is not frame 0 (the value that also
    means there is none). *)
Definition has_frame (fr : phys) : Prop :=
  (tracked fr 0 -> rc_of fr 0 <> 0) /\ exists a, tracked fr a /\ rc_of fr a = 0.

Lemma alloc_page_frames s :
  phys_wf s.(frames) ->
  exists r fr', on_frames alloc_phys_page s = Ret (r, set_frames fr' s) /\
    is_frame r /\ keeps_used s.(frames) fr' /\
    (r = 0 \/ (used fr' r /\ rc_of s.(frames) r = 0 /\ tracked s.(frames) r)) /\
    (has_frame s.(frames) -> r <> 0) /\
    (forall b, tracked s.(frames) b -> b <> r -> rc_of fr' b = rc_of s.(frames) b) /\
    (r <> 0 -> rc_of fr' r = 1).
Proof.
  intros Hwf. unfold on_frames. destruct (alloc_page_cases _ Hwf) as [[Hall ->]|(a & Ht & Hz & _ & ->)].
  - exists 0, s.(frames). split; [done|]. split_and!; try done; [by apply keeps_used_refl|by left|].
    intros [_ (b & Htb & Hb)]. exfalso.
    destruct (get_alloc_spec s.(frames) b) as (_ & Hi & Hrc); try done.
    { by eapply tracked_u32; [apply wf_cfg|]. }
    { by rewrite (tracked_align _ _ Hwf Htb). }
    rewrite Hb in Hrc. rewrite Forall_forall in Hall. symmetry in Hrc. revert Hrc. apply Hall.
    apply list_elem_of_lookup_total_2. lia.
  - pose proof (tracked_frame _ _ Hwf Ht) as Hf. pose proof (tracked_align _ _ Hwf Ht) as Hal.
    assert (Hother : forall b, tracked s.(frames) b -> b <> a ->
                       rc_of (rc_set a 1 s.(frames)) b = rc_of s.(frames) b).
    { intros b Htb Hne. pose proof (tracked_align _ _ Hwf Htb) as Halb.
      apply rc_set_other; rewrite ?Hal, ?Halb; try done; [apply Hf|by eapply tracked_frame]. }
    assert (Hsame : rc_of (rc_set a 1 s.(frames)) a = 1).
    { rewrite rc_set_same; rewrite ?Hal; try done. apply Hf. }
    exists a, (rc_set a 1 s.(frames)). split; [done|]. split_and!; try done.
    + split_and!; [by apply rc_set_wf|apply same_machine_set|]. intros b [Htb Hb]. apply Hother; [done|]. intros ->. lia.
    + destruct (decide (a = 0)); [by left|right]. split_and!; try done.
      split; [done|]. lia.
    + intros [H0 _] ->. by apply H0.
Qed.

Lemma dir_ok_used m fr fr' dir :
  dir_ok m fr dir -> (forall b, used fr b -> used fr' b) -> dir_ok m fr' dir.
Proof.
  intros [H1 H2 H3 H4] Hk. split; try done; [by apply Hk|].
  intros i Hi. destruct (H3 i Hi) as [?|[Hu ?]]; [by left|right]. split; [|done]. by apply Hk.
Qed.

Lemma dir_ok_frames m fr fr' dir : dir_ok m fr dir -> keeps_used fr fr' -> dir_ok m fr' dir.
Proof. intros Hok Hk. eapply dir_ok_used; [done|]. intros b. by apply keeps_used_used. Qed.

Lemma dir_ok_tables m m' fr dir :
  dir_ok m fr dir -> (forall i, 0 <= i < 1023 -> table_of m' dir i = table_of m dir i) ->
  dir_ok m' fr dir.
Proof.
  intros [H1 H2 H3 H4] Ht. split; try done.
  - intros i Hi. rewrite Ht by done. by apply H3.
  - intros i j Hi Hj. rewrite !Ht by done. by apply H4.
Qed.

Section directory.
Context (m : mem) (fr : phys) (dir : Z) (Hwf : phys_wf fr) (Hok : dir_ok m fr dir).

Lemma dir_frame : is_frame dir.
Proof. eapply tracked_frame; [done|]. apply Hok. Qed.
Lemma table_frame i : is_frame (table_of m dir i).
Proof. apply is_frame_entry. Qed.
Lemma table_ne_dir i : 0 <= i < 1023 -> table_of m dir i <> dir.
Proof.
  intros Hi. destruct (dok_tab _ _ _ Hok i Hi) as [->|[_ ?]]; [|done]. intros <-. by destruct Hok.
Qed.

(** Writes outside the directory's page leave its tables. *)
Lemma tables_kept m' g i o v :
  upd32 m m' (g + o) v -> g mod 4096 = 0 -> g <> dir -> 0 <= o <= 4092 -> 0 <= i < 1024 ->
  table_of m' dir i = table_of m dir i.
Proof.
  intros Hu Hg Hne Ho Hi. unfold table_of. rewrite (upd32_other _ _ _ _ _ Hu); [done|].
  apply pages_disjoint; try done; [apply dir_frame|lia].
Qed.

(** Storing [v] in the table entry of [va]. *)
Lemma store_pte m' va v :
  let i := get_page_directory_index va in let t := table_of m dir i in
  i < 1023 -> t <> 0 -> upd32 m m' (t + 4 * get_page_table_index va) v ->
  dir_ok m' fr dir /\ pte_of m' dir va = v /\
  forall va', is_u32 va -> is_u32 va' -> va / 4096 <> va' / 4096 ->
    get_page_directory_index va' < 1023 -> pte_of m' dir va' = pte_of m dir va'.
Proof.
  intros i t Hi Ht Hu. pose proof (pdi_range va). pose proof (pti_range va).
  destruct (table_frame i) as [Htm _]. fold t in Htm.
  assert (Htab : forall k, 0 <= k < 1024 -> table_of m' dir k = table_of m dir k).
  { intros k Hk. eapply tables_kept; [exact Hu|done| |lia|lia]. apply table_ne_dir. lia. }
  split_and!.
  - eapply dir_ok_tables; [done|]. intros k Hk. apply Htab. lia.
  - unfold pte_of. fold i. rewrite Htab by lia. fold t. destruct (Z.eqb_spec t 0); [done|]. apply Hu.
  - intros va' Hva Hva' Hne Hi'. unfold pte_of. pose proof (pdi_range va'). pose proof (pti_range va').
    rewrite Htab by lia. set (i' := get_page_directory_index va') in *.
    destruct (Z.eqb_spec (table_of m dir i') 0); [done|]. apply (upd32_other _ _ _ _ _ Hu).
    destruct (decide (i' = i)) as [Heq|Hdi].
    + rewrite Heq. fold t. assert (get_page_table_index va' <> get_page_table_index va); [|lia].
      intros Hp. apply Hne. by apply indices_inj.
    + apply pages_disjoint; [apply table_frame|done| |lia..].
      intros Heq. apply n. eapply (dok_inj _ _ _ Hok i' i); [lia|lia|done|]. by rewrite Heq.
Qed.

(** Linking a cleared fresh table [r] at index [i]. *)
Lemma link_table m1 i e r :
  0 <= i < 1023 -> table_of m dir i = 0 -> entry_frame e = r -> is_frame r -> r <> dir ->
  (r = 0 \/ (used fr r /\ forall k, 0 <= k < 1023 -> table_of m dir k <> r)) ->
  upd32 m m1 (dir + 4 * i) e ->
  let m2 := memset_32 m1 r 0 1024 in
  dir_ok m2 fr dir /\ table_of m2 dir i = r /\
  forall va', get_page_directory_index va' < 1023 -> pte_of m2 dir va' = pte_of m dir va'.
Proof.
  intros Hi Ht He [Hrm Hru] Hrd Hr Hu m2.
  destruct dir_frame as [Hdm _].
  assert (H2 : forall f o, f mod 4096 = 0 -> f <> r -> 0 <= o <= 4092 -> rd32 m2 (f + o) = rd32 m1 (f + o)).
  { intros f o Hf Hfr Ho. unfold m2. apply rd32_memset32_ne. zdm. }
  assert (Htab : forall k, 0 <= k < 1023 -> table_of m2 dir k = if decide (k = i) then r else table_of m dir k).
  { intros k Hk. unfold table_of. rewrite H2 by (done || lia). case_decide as Hki.
    - subst k. destruct Hu as [-> _]. done.
    - rewrite (upd32_other _ _ _ _ _ Hu); [done|lia]. }
  split_and!.
  - split.
    + apply Hok.
    + apply Hok.
    + intros k Hk. rewrite Htab by done. case_decide; [|by apply Hok].
      destruct Hr as [?|[? _]]; [by left|right]. done.
    + intros k j Hk Hj Hkj. rewrite !Htab by done. repeat case_decide; subst; try done.
      * intros Heq. destruct Hr as [?|[_ Hr]]; [done|]. exfalso. by apply (Hr j).
      * intros Heq. destruct Hr as [Hr|[_ Hr]]; [congruence|]. exfalso. by apply (Hr k).
      * by apply Hok.
  - rewrite Htab by done. by rewrite decide_True.
  - intros va' Hva. pose proof (pdi_range va'). pose proof (pti_range va'). unfold pte_of.
    rewrite Htab by lia. case_decide as Hki.
    + rewrite Hki, Ht. cbn. destruct (Z.eqb_spec r 0); [done|]. apply rd32_memset32_zero; lia.
    + destruct (Z.eqb_spec (table_of m dir (get_page_directory_index va')) 0) as [|Hnz]; [done|].
      rewrite H2; [|apply table_frame| |lia].
      * apply (upd32_other _ _ _ _ _ Hu). apply pages_disjoint; [apply table_frame|done| |lia..].
        apply table_ne_dir. lia.
      * destruct Hr as [->|[_ Hr]]; [done|]. apply Hr. lia.
Qed.
End directory.

(** A write to a page that is neither the directory nor one of its tables. *)
Lemma write_elsewhere m m' fr dir g o v :
  phys_wf fr -> dir_ok m fr dir -> upd32 m m' (g + o) v -> g mod 4096 = 0 -> 0 <= o <= 4092 ->
  g <> dir -> (forall k, 0 <= k < 1023 -> table_of m dir k <> 0 -> table_of m dir k <> g) ->
  dir_ok m' fr dir /\
  forall va', get_page_directory_index va' < 1023 -> pte_of m' dir va' = pte_of m dir va'.
Proof.
  intros Hwf Hok Hu Hg Ho Hne Hk.
  assert (Htab : forall k, 0 <= k < 1024 -> table_of m' dir k = table_of m dir k).
  { intros k Hk'. by eapply tables_kept. }
  split.
  - eapply dir_ok_tables; [done|]. intros k Hk'. apply Htab. lia.
  - intros va' Hva. pose proof (pdi_range va'). pose proof (pti_range va'). unfold pte_of.
    rewrite Htab by lia. destruct (Z.eqb_spec (table_of m dir (get_page_directory_index va')) 0); [done|].
    apply (upd32_other _ _ _ _ _ Hu). apply pages_disjoint; [apply table_frame|done| |lia..].
    apply Hk; [lia|done].
Qed.

Definition same_regs (s s' : pstate) : Prop :=
  s'.(page_directory) = s.(page_directory) /\ s'.(kernel_pagedir) = s.(kernel_pagedir) /\
  s'.(paging_status) = s.(paging_status) /\ s'.(temp_page) = s.(temp_page) /\
  s'.(cr3) = s.(cr3) /\ s'.(isr14_installed) = s.(isr14_installed).

Definition page_kept (m m' : mem) (f : Z) : Prop := forall x, f <= x < f + 4096 -> rd8 m' x = rd8 m x.

Lemma page_kept_upd m m' f g o v :
  upd32 m m' (g + o) v -> f mod 4096 = 0 -> g mod 4096 = 0 -> f <> g -> 0 <= o <= 4092 ->
  page_kept m m' f.
Proof. intros [_ Hu] Hf Hg Hne Ho x Hx. apply Hu. zdm. Qed.

Lemma page_kept_clear m f g :
  f mod 4096 = 0 -> g mod 4096 = 0 -> f <> g -> page_kept m (memset_32 m g 0 1024) f.
Proof. intros Hf Hg Hne x Hx. apply memset_32_ne. zdm. Qed.

Lemma page_kept_trans m1 m2 m3 f : page_kept m1 m2 f -> page_kept m2 m3 f -> page_kept m1 m3 f.
Proof. intros H1 H2 x Hx. rewrite H2 by done. by apply H1. Qed.

(** At most one frame [r] is taken, a free one, and at most one table is new: [r]. *)
Definition one_table (s : pstate) (dir : Z) (s' : pstate) : Prop :=
  exists r, (r = 0 \/ (tracked s.(frames) r /\ rc_of s.(frames) r = 0)) /\
    (forall b, tracked s.(frames) b -> b <> r -> rc_of s'.(frames) b = rc_of s.(frames) b) /\
    forall k, 0 <= k < 1023 -> table_of s'.(pm) dir k = table_of s.(pm) dir k \/ table_of s'.(pm) dir k = r.

(** What [set_page_table_entry] guarantees: the address maps to the entry [v]
    unless there was no frame for a new table; no other address changes; the
    pages of frames in use that are not page structures keep their contents. *)
Definition set_post (s : pstate) (dir va v : Z) (s' : pstate) : Prop :=
  same_regs s s' /\ keeps_used s.(frames) s'.(frames) /\ dir_ok s'.(pm) s'.(frames) dir /\
  ((table_of s.(pm) dir (get_page_directory_index va) <> 0 \/ has_frame s.(frames)) ->
     pte_of s'.(pm) dir va = v) /\
  (forall va', is_u32 va' -> va / 4096 <> va' / 4096 -> get_page_directory_index va' < 1023 ->
     pte_of s'.(pm) dir va' = pte_of s.(pm) dir va') /\
  (forall f, used s.(frames) f -> f <> dir -> f <> 0 ->
     f <> table_of s.(pm) dir (get_page_directory_index va) -> page_kept s.(pm) s'.(pm) f) /\
  one_table s dir s'.

(** The other tables while a new one is linked and cleared. *)
Lemma linked_other m m1 dir i e r k :
  upd32 m m1 (dir + 4 * i) e -> is_frame dir -> is_frame r -> r <> dir -> k <> i -> 0 <= k < 1023 ->
  table_of (memset_32 m1 r 0 1024) dir k = table_of m dir k.
Proof.
  intros Hu [Hd _] [Hr _] Hne Hki Hk. unfold table_of. rewrite rd32_memset32_ne by zdm.
  rewrite (upd32_other _ _ _ _ _ Hu); [done|lia].
Qed.

(** The memory after a new table [r] was linked, cleared and its entry set. *)
Lemma set_new_table m m1 m3 fr fr' dir va e r v :
  let i := get_page_directory_index va in let j := get_page_table_index va in
  phys_wf fr -> dir_ok m fr dir -> is_u32 va -> i < 1023 -> table_of m dir i = 0 ->
  keeps_used fr fr' -> is_frame r -> entry_frame e = r ->
  (r = 0 \/ (used fr' r /\ rc_of fr r = 0 /\ tracked fr r)) ->
  upd32 m m1 (dir + 4 * i) e -> upd32 (memset_32 m1 r 0 1024) m3 (r + 4 * j) v ->
  dir_ok m3 fr' dir /\ (r <> 0 -> pte_of m3 dir va = v) /\
  (forall va', is_u32 va' -> va / 4096 <> va' / 4096 -> get_page_directory_index va' < 1023 ->
     pte_of m3 dir va' = pte_of m dir va') /\
  (forall f, used fr f -> f <> dir -> f <> 0 -> page_kept m m3 f) /\
  (forall k, 0 <= k < 1023 -> table_of m3 dir k = table_of m dir k \/ table_of m3 dir k = r).
Proof.
  intros i j Hwf Hok Hva Hi Ht Hku Hrf He Hr Hu1 Hu3.
  pose proof (dir_frame _ _ _ Hwf Hok) as Hdf. pose proof (pdi_range va) as Hpr. fold i in Hpr.
  pose proof (pti_range va) as Htr. fold j in Htr. pose proof Hku as (Hwf' & _ & _).
  pose proof (dir_ok_frames _ _ _ _ Hok Hku) as Hok'.
  assert (Hlive : forall f, used fr f -> f <> 0 -> f <> r).
  { intros f [_ Hf] Hf0 ->. destruct Hr as [?|(_ & Hz & _)]; [done|lia]. }
  assert (Hrd : r <> dir) by (intros Heq; by eapply Hlive; [apply Hok|apply Hok|]).
  assert (Hrt : forall k, 0 <= k < 1023 -> table_of m dir k <> 0 -> table_of m dir k <> r).
  { intros k Hk Hnz. destruct (dok_tab _ _ _ Hok k Hk) as [?|[? _]]; [done|by apply Hlive]. }
  assert (Hr2 : r = 0 \/ (used fr' r /\ forall k, 0 <= k < 1023 -> table_of m dir k <> r)).
  { destruct (decide (r = 0)) as [|Hnz]; [by left|right]. destruct Hr as [?|(Hur & _ & _)]; [done|].
    split; [exact Hur|]. intros k Hk Heq. apply (Hrt k Hk); congruence. }
  destruct (link_table m fr' dir Hwf' Hok' m1 i e r ltac:(lia) Ht He Hrf Hrd Hr2 Hu1)
    as (Hok2 & Ht2 & Hp2).
  set (m2 := memset_32 m1 r 0 1024) in *.
  assert (Hfr : forall f, used fr f -> f <> dir -> f <> 0 -> page_kept m m3 f).
  { intros f Hf Hfd Hf0. destruct (tracked_frame _ _ Hwf (proj1 Hf)) as [Hfm _].
    pose proof (Hlive f Hf Hf0) as Hfr.
    eapply page_kept_trans; [eapply (page_kept_upd _ _ _ _ _ _ Hu1); [done|apply Hdf|done|lia]|].
    eapply page_kept_trans; [apply (page_kept_clear _ _ r); [done|apply Hrf|done]|].
    eapply (page_kept_upd _ _ _ _ _ _ Hu3); [done|apply Hrf|done|lia]. }
  assert (Hts : forall k, 0 <= k < 1023 -> table_of m3 dir k = table_of m dir k \/ table_of m3 dir k = r).
  { intros k Hk. rewrite (tables_kept m2 fr' dir Hwf' Hok2 m3 r k _ _ Hu3) by (done || apply Hrf || lia).
    destruct (decide (k = i)) as [->|]; [by right|left]. by eapply linked_other. }
  destruct (decide (r = 0)) as [Hr0|Hr0].
  - destruct (write_elsewhere m2 m3 fr' dir r (4 * j) v Hwf' Hok2 Hu3 (proj1 Hrf) ltac:(lia) Hrd)
      as [Hok3 Hp3]; [intros k _ Hnz; congruence|].
    split_and!; [exact Hok3|intros Hn; by destruct Hn| |exact Hfr|exact Hts].
    intros va' Hva' Hne Hi'. by rewrite Hp3, Hp2.
  - destruct (store_pte m2 fr' dir Hwf' Hok2 m3 va v Hi) as (Hok3 & Hv & Hp3);
      [fold i; congruence|fold i j; by rewrite Ht2|].
    split_and!; [exact Hok3|intros _; exact Hv| |exact Hfr|exact Hts].
    intros va' Hva' Hne Hi'. by rewrite Hp3, Hp2.
Qed.

Lemma set_page_table_entry_spec s dir va pa p u :
  phys_wf s.(frames) -> dir_ok s.(pm) s.(frames) dir -> is_u32 va -> is_u32 pa ->
  get_page_directory_index va < 1023 ->
  wp (set_page_table_entry dir va pa p u)
     (fun _ => set_post s dir va (entry_val p u (align_page pa))) s.
Proof.
  intros Hwf Hok Hva Hpa Hi.
  pose proof (dir_frame _ _ _ Hwf Hok) as Hdf. pose proof (pdi_range va) as Hpr.
  pose proof (pti_range va) as Htr.
  assert (Hpf : is_frame (align_page pa)).
  { split; [by apply align_page_aligned|by apply align_page_u32]. }
  unfold wp, set_page_table_entry. unfold bind at 1.
  destruct (temp_map_spec dir s Hdf) as (w & -> & Hw). unfold bind at 1.
  rewrite pdi_align, pti_align by done.
  rewrite vread_window by lia. cbn [win_pte set_win pm]. rewrite Hw.
  fold (table_of s.(pm) dir (get_page_directory_index va)).
  set (i := get_page_directory_index va) in *. set (j := get_page_table_index va) in *.
  set (t := table_of (pm s) dir i). set (v := entry_val p u (align_page pa)).
  destruct (Z.eqb_spec t 0) as [Ht|Ht].
  - (* a new table *)
    unfold bind at 1. unfold bind at 1.
    destruct (alloc_page_frames (set_win w s) Hwf) as (r & fr' & -> & Hrf & Hku & Hr & Hhas & Hone & _).
    cbn [frames set_win] in *. unfold bind at 1.
    destruct (fill_entry_spec (4 * i) 1 u r (set_frames fr' (set_win w s)) ltac:(lia) Hrf)
      as (m1 & -> & Hu1).
    cbn [win_pte set_win set_frames pm] in Hu1. rewrite Hw in Hu1.
    unfold bind at 1. destruct (temp_map_spec r (set_pm (fun _ => m1) (set_frames fr' (set_win w s))) Hrf)
      as (w2 & -> & Hw2).
    unfold bind at 1. rewrite vmemset_window. cbn [win_pte set_win]. rewrite Hw2. unfold ret.
    cbn [set_pm set_win set_frames pm win_pte]. unfold bind at 1.
    match goal with |- context [temp_map_page r ?st] =>
      destruct (temp_map_spec r st Hrf) as (w3 & -> & Hw3) end.
    match goal with |- context [fill_entry (WINDOW + 4 * j) p u _ ?st] =>
      destruct (fill_entry_spec (4 * j) p u (align_page pa) st ltac:(lia) Hpf) as (m3 & -> & Hu3) end.
    cbn [win_pte set_win set_frames pm] in Hu3. rewrite Hw3 in Hu3. fold v in Hu3.
    destruct (set_new_table s.(pm) m1 m3 s.(frames) fr' dir va (entry_val 1 u r) r v
      Hwf Hok Hva Hi Ht Hku Hrf (proj1 (entry_val_fields 1 u r Hrf)) Hr Hu1 Hu3)
      as (Hok3 & Hv & Hp3 & Hfr & Hts).
    split; [done|]. cbn [frames pm set_pm set_win set_frames].
    split; [exact Hku|]. split; [exact Hok3|]. split; [intros [?|Hh]; [done|]; by apply Hv, Hhas|].
    split; [exact Hp3|]. split; [intros f Hf Hfd Hf0 _; by apply Hfr|].
    exists r. split; [|by split]. destruct Hr as [?|(_ & ? & ?)]; [by left|by right].
  - (* the table is there *)
    unfold bind at 1. unfold ret at 1. unfold bind at 1.
    pose proof (table_frame s.(pm) dir i) as Htf.
    match goal with |- context [temp_map_page _ ?st] =>
      destruct (temp_map_spec t st Htf) as (w3 & Heq & Hw3) end.
    change (entry_frame _) with t. rewrite Heq. clear Heq.
    match goal with |- context [fill_entry (WINDOW + 4 * j) p u _ ?st] =>
      destruct (fill_entry_spec (4 * j) p u (align_page pa) st ltac:(lia) Hpf) as (m3 & -> & Hu3) end.
    cbn [win_pte set_win set_frames pm] in Hu3. rewrite Hw3 in Hu3. fold v in Hu3.
    destruct (store_pte s.(pm) s.(frames) dir Hwf Hok m3 va v) as (Hok3 & Hv & Hp3); try done.
    split; [done|]. cbn [frames pm set_pm set_win set_frames].
    split; [by apply keeps_used_refl|]. split; [done|]. split; [done|].
    split; [intros va' Hva' Hne Hi'; by apply Hp3|]. split.
    2: { exists 0. split; [by left|]. split; [done|]. intros k Hk. left. cbn [pm set_pm].
         apply (tables_kept s.(pm) s.(frames) dir Hwf Hok m3 t k _ _ Hu3); [apply Htf| |lia|lia].
         apply (table_ne_dir _ _ _ Hok). lia. }
    + intros f Hf Hfd Hf0 Hft. destruct (tracked_frame _ _ Hwf (proj1 Hf)) as [Hfm _].
      eapply (page_kept_upd _ _ _ _ _ _ Hu3); [done|apply Htf|done|lia].
Qed.

Lemma get_mapped_spec s dir va :
  is_frame dir -> is_u32 va ->
  exists w, get_mapped_address dir va s = Ret (entry_frame (pte_of s.(pm) dir va), set_win w s).
Proof.
  intros Hdf Hva. pose proof (pdi_range va). pose proof (pti_range va).
  unfold get_mapped_address. unfold bind at 1.
  destruct (temp_map_spec dir s Hdf) as (w & -> & Hw). unfold bind at 1.
  rewrite pdi_align, pti_align by done. rewrite vread_window by lia.
  cbn [win_pte set_win pm]. rewrite Hw.
  fold (table_of s.(pm) dir (get_page_directory_index va)). unfold pte_of.
  set (t := table_of (pm s) dir (get_page_directory_index va)).
  destruct (Z.eqb_spec t 0) as [Ht|Ht]; cbn [negb].
  - by exists w.
  - unfold bind at 1. destruct (temp_map_spec t (set_win w s) (table_frame _ _ _)) as (w2 & -> & Hw2).
    unfold bind. rewrite vread_window by lia. cbn [win_pte set_win pm]. rewrite Hw2. by exists w2.
Qed.

Lemma unset_spec s dir va :
  phys_wf s.(frames) -> dir_ok s.(pm) s.(frames) dir -> is_u32 va ->
  get_page_directory_index va < 1023 ->
  wp (unset_page_table_entry dir va) (fun _ s' =>
    s'.(frames) = s.(frames) /\ dir_ok s'.(pm) s'.(frames) dir /\ pte_of s'.(pm) dir va = 0 /\
    forall va', is_u32 va' -> va / 4096 <> va' / 4096 -> get_page_directory_index va' < 1023 ->
      pte_of s'.(pm) dir va' = pte_of s.(pm) dir va') s.
Proof.
  intros Hwf Hok Hva Hi. pose proof (pdi_range va). pose proof (pti_range va).
  pose proof (dir_frame _ _ _ Hwf Hok) as Hdf.
  unfold wp, unset_page_table_entry. unfold bind at 1.
  destruct (temp_map_spec dir s Hdf) as (w & -> & Hw). unfold bind at 1.
  rewrite pdi_align, pti_align by done. rewrite vread_window by lia.
  cbn [win_pte set_win pm]. rewrite Hw.
  fold (table_of s.(pm) dir (get_page_directory_index va)).
  set (t := table_of (pm s) dir (get_page_directory_index va)).
  destruct (Z.eqb_spec t 0) as [Ht|Ht]; cbn [negb].
  - split_and!; try done. cbn [pm set_win]. unfold pte_of. fold t. by rewrite Ht.
  - unfold bind at 1. destruct (temp_map_spec t (set_win w s) (table_frame _ _ _)) as (w2 & -> & Hw2).
    rewrite vwrite_window by lia. cbn [win_pte set_win pm set_pm frames]. rewrite Hw2.
    destruct (store_pte s.(pm) s.(frames) dir Hwf Hok
      (wr32 s.(pm) (t + 4 * get_page_table_index va) 0) va 0 Hi Ht) as (Hok' & Hv & Hp).
    { split; [by rewrite rd32_wr32_same|]. intros x Hx. apply rd8_wr32_ne. lia. }
    split_and!; [done|exact Hok'|exact Hv|]. intros va' Hva' Hne Hi'. by apply Hp.
Qed.

(** A page whose entry is not zero has a page table. *)
Lemma pte_table m dir va : pte_of m dir va <> 0 -> table_of m dir (get_page_directory_index va) <> 0.
Proof. unfold pte_of. intros Hp Ht. rewrite Ht in Hp. done. Qed.

Lemma entry_val_present u f : is_frame f -> entry_val 1 u f <> 0.
Proof. intros Hf E. destruct (entry_val_fields 1 u f Hf) as (_ & Hb & _). rewrite E in Hb. done. Qed.

(** What is entered where there was no table: the table is a frame that was free. *)
Lemma set_post_table s dir va v s' :
  set_post s dir va v s' -> table_of s.(pm) dir (get_page_directory_index va) = 0 -> v <> 0 ->
  get_page_directory_index va < 1023 -> has_frame s.(frames) ->
  let t := table_of s'.(pm) dir (get_page_directory_index va) in
  t <> 0 /\ tracked s.(frames) t /\ rc_of s.(frames) t = 0 /\ used s'.(frames) t.
Proof.
  intros (_ & _ & Hok & Hv & _ & _ & (r & Hr & _ & Ht)) H0 Hnz Hi Hh t.
  assert (Htn : t <> 0) by (apply pte_table; rewrite Hv by auto; done). pose proof (pdi_range va) as Hpr.
  assert (t = r) as Htr by (destruct (Ht _ (conj (proj1 Hpr) Hi)) as [Hs|?]; [|done]; subst t; congruence).
  destruct Hr as [?|[? ?]]; [congruence|]. split_and!; [done|congruence|congruence|].
  by destruct (dok_tab _ _ _ Hok _ (conj (proj1 Hpr) Hi)) as [?|[? _]].
Qed.

(** The page through which the code reaches page structures; its own entry is
    rewritten by every one of these calls. *)
Definition window_page (va : Z) : Prop := va / 4096 = WINDOW / 4096.

(** C29: mapping and looking up agree: after [set_page_table_entry] maps the
    page of [va] to a frame, [get_mapped_address] of any address in that page
    returns the frame (page-aligned), of any other address what the tables said
    before, and [unset_page_table_entry] takes exactly that mapping away again.
    A page table that is missing is made from a frame that was free and is in use
    from then on.  All this is for a well-formed directory, addresses below its
    last entry (which maps the directory itself) and outside the page at
    0xC0000000, whose entry the calls themselves change; and where a table is
    missing there has to be a free frame. *)
Theorem mapping_roundtrip s dir va pa u :
  phys_wf s.(frames) -> dir_ok s.(pm) s.(frames) dir -> is_u32 va -> is_u32 pa ->
  get_page_directory_index va < 1023 -> ~ window_page va ->
  table_of s.(pm) dir (get_page_directory_index va) <> 0 \/ has_frame s.(frames) ->
  wp (set_page_table_entry dir va pa 1 u) (fun _ s1 =>
    dir_ok s1.(pm) s1.(frames) dir /\
    (let t := table_of s1.(pm) dir (get_page_directory_index va) in
     table_of s.(pm) dir (get_page_directory_index va) = 0 ->
     t <> 0 /\ tracked s.(frames) t /\ rc_of s.(frames) t = 0 /\ used s1.(frames) t) /\
    (forall va', is_u32 va' -> get_page_directory_index va' < 1023 -> ~ window_page va' ->
       wp (get_mapped_address dir va') (fun r _ =>
         r = if decide (va / 4096 = va' / 4096) then align_page pa
             else entry_frame (pte_of s.(pm) dir va')) s1) /\
    wp (unset_page_table_entry dir va) (fun _ s2 =>
      forall va', is_u32 va' -> get_page_directory_index va' < 1023 -> ~ window_page va' ->
       wp (get_mapped_address dir va') (fun r _ =>
         r = if decide (va / 4096 = va' / 4096) then 0
             else entry_frame (pte_of s.(pm) dir va')) s2) s1) s.
Proof.
  intros Hwf Hok Hva Hpa Hi _ Hroom. pose proof (dir_frame _ _ _ Hwf Hok) as Hdf.
  eapply wp_mono; [by apply set_page_table_entry_spec|].
  intros ? s1 Hpost. pose proof Hpost as (_ & Hku & Hok1 & Hv & Hp & _). specialize (Hv Hroom). pose proof Hku as (Hwf1 & _).
  assert (Hpf : is_frame (align_page pa)).
  { split; [by apply align_page_aligned|by apply align_page_u32]. }
  assert (Hsame : forall m va', va / 4096 = va' / 4096 -> pte_of m dir va' = pte_of m dir va).
  { intros m va' Heq. unfold pte_of, get_page_directory_index, get_page_table_index.
    rewrite !Z.shiftr_div_pow2 by lia. change (2 ^ 22) with (4096 * 1024). change (2 ^ 12) with 4096.
    rewrite <- !Z.div_div by lia. by rewrite Heq. }
  split_and!; [exact Hok1| | |].
  - intros t Ht. apply (set_post_table _ _ _ _ _ Hpost Ht); [by apply entry_val_present|done|by destruct Hroom].
  - intros va' Hva' Hi' _. unfold wp. destruct (get_mapped_spec s1 dir va' Hdf Hva') as (w & ->).
    case_decide as Heq.
    + rewrite Hsame, Hv by done. by apply entry_val_fields.
    + by rewrite Hp.
  - eapply wp_mono; [by apply unset_spec|]. intros _ s2 (_ & Hok2 & Hv2 & Hp2) va' Hva' Hi' _.
    unfold wp. destruct (get_mapped_spec s2 dir va' Hdf Hva') as (w & ->). case_decide as Heq.
    + by rewrite Hsame, Hv2.
    + by rewrite Hp2, Hp.
Qed.

(** ** Copy on write *)

Lemma rd32_kept m m' f o : page_kept m m' f -> 0 <= o <= 4092 -> rd32 m' (f + o) = rd32 m (f + o).
Proof. intros Hk Ho. apply rd32_ext. intros. apply Hk. lia. Qed.

(** The work page [temp_page] is mapped by the running directory, to a frame
    that is not a page structure of it. *)
Record temp_ok (s : pstate) (tf : Z) : Prop := {
  tok_page : s.(temp_page) mod 4096 = 0 /\ s.(temp_page) <> WINDOW;
  tok_cr3 : used s.(frames) s.(cr3);
  tok_table : used s.(frames) (table_of s.(pm) s.(cr3) (get_page_directory_index s.(temp_page)));
  tok_map : tf = entry_frame (rd32 s.(pm) (table_of s.(pm) s.(cr3)
              (get_page_directory_index s.(temp_page)) + 4 * get_page_table_index s.(temp_page)));
  tok_used : used s.(frames) tf;
  tok_sep : tf <> s.(cr3) /\ tf <> table_of s.(pm) s.(cr3) (get_page_directory_index s.(temp_page))
}.

Lemma temp_phys s s' tf :
  temp_ok s tf -> s'.(cr3) = s.(cr3) ->
  page_kept s.(pm) s'.(pm) s.(cr3) ->
  page_kept s.(pm) s'.(pm) (table_of s.(pm) s.(cr3) (get_page_directory_index s.(temp_page))) ->
  phys_of s' s.(temp_page) = tf.
Proof.
  intros [[Hm Hne] _ _ -> _ _] Hc Hk1 Hk2. unfold phys_of.
  pose proof (pdi_range s.(temp_page)). pose proof (pti_range s.(temp_page)).
  assert (((WINDOW <=? temp_page s) && (temp_page s <? WINDOW + 4096)) = false) as ->.
  { apply andb_false_iff. unfold WINDOW in *.
    destruct (Z.leb_spec 0xC0000000 (temp_page s)); [right|by left]. apply Z.ltb_ge. zdm. }
  unfold mmu. rewrite Hm, Z.add_0_r, Hc. fold (table_of s'.(pm) s.(cr3) (get_page_directory_index (temp_page s))).
  assert (table_of s'.(pm) s.(cr3) (get_page_directory_index (temp_page s)) =
          table_of s.(pm) s.(cr3) (get_page_directory_index (temp_page s))) as ->.
  { unfold table_of. by rewrite (rd32_kept _ _ _ _ Hk1) by lia. }
  by rewrite (rd32_kept _ _ _ _ Hk2) by lia.
Qed.

Lemma copy_page_kept m d s f :
  d mod 4096 = 0 -> s mod 4096 = 0 -> f mod 4096 = 0 -> d <> s -> f <> d ->
  page_kept m (memcpy_32 m d s 1024) f.
Proof.
  intros Hd Hs Hf Hds Hfd x Hx. rewrite memcpy_32_rd by zdm. rewrite decide_False; [done|]. zdm.
Qed.

Lemma copy_page m d s o :
  d mod 4096 = 0 -> s mod 4096 = 0 -> d <> s -> 0 <= o < 4096 ->
  rd8 (memcpy_32 m d s 1024) (d + o) = rd8 m (s + o).
Proof.
  intros Hd Hs Hds Ho. rewrite memcpy_32_rd by zdm. rewrite decide_True by lia. f_equal. lia.
Qed.

Lemma decrease_frames s f :
  phys_wf s.(frames) -> used s.(frames) f -> 1 < rc_of s.(frames) f ->
  exists fr', on_frames (alloc_phys_decrease_refcount f) s = Ret (tt, set_frames fr' s) /\
    phys_wf fr' /\ same_machine s.(frames) fr' /\ rc_of fr' f = rc_of s.(frames) f - 1 /\
    (forall b, tracked s.(frames) b -> b <> f -> rc_of fr' b = rc_of s.(frames) b).
Proof.
  intros Hwf [Ht Hrc] Hgt. pose proof (tracked_align _ _ Hwf Ht) as Hal.
  destruct (tracked_frame _ _ Hwf Ht) as [_ Hu].
  assert (Hr : rc_of s.(frames) f < 256).
  { destruct (get_alloc_spec s.(frames) f Hwf Hu ltac:(by rewrite Hal)) as (_ & Hi & ->).
    pose proof (wf_counts _ Hwf) as Hc. rewrite Forall_forall in Hc. apply Hc.
    apply list_elem_of_lookup_total_2. lia. }
  unfold on_frames. rewrite decrease_refcount_spec; [|done|done|by rewrite Hal].
  rewrite decide_True by lia. eexists. split; [done|]. split_and!.
  - by apply rc_set_wf.
  - apply same_machine_set.
  - rewrite rc_set_same by (done || by rewrite Hal). apply u8_small. lia.
  - intros b Hb Hne. pose proof (tracked_align _ _ Hwf Hb) as Hbl.
    apply rc_set_other; rewrite ?Hal, ?Hbl; try done. by eapply tracked_frame.
Qed.

Definition write_fault (err : Z) : Prop :=
  Z.land err 0x4 <> 0 /\ Z.land err 0x2 <> 0 /\ Z.land err 0x1 <> 0.

Lemma write_fault_test err :
  write_fault err ->
  negb (Z.land err 0x4 =? 0) && negb (Z.land err 0x2 =? 0) && negb (Z.land err 0x1 =? 0) = true.
Proof.
  intros (H1 & H2 & H3). by rewrite (proj2 (Z.eqb_neq _ _) H1), (proj2 (Z.eqb_neq _ _) H2),
    (proj2 (Z.eqb_neq _ _) H3).
Qed.

(** Pages that are kept keep the mapping. *)
Lemma pte_of_kept m m' fr dir :
  dir_ok m fr dir -> page_kept m m' dir ->
  (forall k, 0 <= k < 1023 -> table_of m dir k <> 0 -> page_kept m m' (table_of m dir k)) ->
  dir_ok m' fr dir /\
  (forall k, 0 <= k < 1024 -> table_of m' dir k = table_of m dir k) /\
  forall va, get_page_directory_index va < 1023 -> pte_of m' dir va = pte_of m dir va.
Proof.
  intros Hok Hd Ht.
  assert (Htab : forall k, 0 <= k < 1024 -> table_of m' dir k = table_of m dir k).
  { intros k Hk. unfold table_of. by rewrite (rd32_kept _ _ _ _ Hd) by lia. }
  split_and!; [|done|].
  - eapply dir_ok_tables; [done|]. intros. apply Htab. lia.
  - intros va Hva. pose proof (pdi_range va). pose proof (pti_range va). unfold pte_of.
    rewrite Htab by lia.
    destruct (Z.eqb_spec (table_of m dir (get_page_directory_index va)) 0) as [|Hnz]; [done|].
    apply rd32_kept; [|lia]. apply Ht; [lia|done].
Qed.

(** The copy: two transfers through the work page. *)
Lemma cow_copy {B} (k : cmd pstate B) s frame nf tf fr w :
  temp_ok s tf -> is_frame frame -> is_frame nf -> is_frame tf ->
  frame <> tf -> nf <> tf -> frame <> nf -> nf <> s.(cr3) ->
  nf <> table_of s.(pm) s.(cr3) (get_page_directory_index s.(temp_page)) ->
  is_frame s.(cr3) ->
  let m2 := memcpy_32 (memcpy_32 s.(pm) tf frame 1024) nf tf 1024 in
  exists w', (frame_v <- temp_map_page frame ;; temp <- gets temp_page ;;
              vmemcpy_32 temp frame_v 1024 ;;; new_frame_v <- temp_map_page nf ;;
              vmemcpy_32 new_frame_v temp 1024 ;;; k) (set_frames fr (set_win w s)) =
    k (set_pm (fun _ => m2) (set_win w' (set_frames fr s))).
Proof.
  intros Htok Hf Hn Ht Hft Hnt Hfn Hnc Hntab Hc. pose proof (tok_sep _ _ Htok) as [Htc Httab].
  cbn zeta. unfold bind at 1.
  destruct (temp_map_spec frame (set_frames fr (set_win w s)) Hf) as (w1 & -> & Hw1).
  set (s1 := set_win w1 _). unfold bind at 1, gets. cbn [temp_page s1 set_win set_frames].
  unfold bind at 1. rewrite (vmemcpy_at _ _ s1 tf frame).
  2: by apply (temp_phys s).
  2: by rewrite phys_of_window0.
  unfold bind at 1.
  destruct (temp_map_spec nf (set_pm (fun m => memcpy_32 m tf frame 1024) s1) Hn) as (w2 & -> & Hw2).
  set (s2 := set_win w2 _). unfold bind at 1. rewrite (vmemcpy_at _ _ s2 nf tf).
  - exists w2. unfold set_pm. cbn. reflexivity.
  - by rewrite phys_of_window0.
  - apply (temp_phys s); [done|done|..]; apply copy_page_kept; try done;
      first [apply Ht | apply Hf | apply Hc | apply table_frame].
Qed.

(** C23: a write fault on a shared frame gives the process its own copy: the
    handler resumes the process with the page mapped read/write to a frame
    that was free, holding the same 4096 bytes; the shared frame keeps its
    contents and loses exactly one reference, and no other address of the
    process changes its mapping. *)
Theorem cow_fault_copies s dir err fault tf :
  let frame := entry_frame (pte_of s.(pm) dir fault) in
  phys_wf s.(frames) -> dir_ok s.(pm) s.(frames) dir -> is_u32 fault ->
  get_page_directory_index fault < 1023 -> write_fault err ->
  used s.(frames) frame -> 1 < rc_of s.(frames) frame ->
  frame <> 0 -> frame <> dir -> frame <> tf ->
  frame <> table_of s.(pm) dir (get_page_directory_index fault) ->
  temp_ok s tf -> tf <> dir -> (forall k, 0 <= k < 1023 -> tf <> table_of s.(pm) dir k) ->
  has_frame s.(frames) ->
  wp (page_fault_handler dir err fault) (fun act s' =>
    act = PfResume /\ exists nf,
      rc_of s.(frames) nf = 0 /\ rc_of s'.(frames) nf = 1 /\
      rc_of s'.(frames) frame = rc_of s.(frames) frame - 1 /\
      pte_of s'.(pm) dir fault = entry_val 1 1 nf /\
      (forall o, 0 <= o < 4096 -> rd8 s'.(pm) (nf + o) = rd8 s.(pm) (frame + o)) /\
      page_kept s.(pm) s'.(pm) frame /\
      (forall va', is_u32 va' -> fault / 4096 <> va' / 4096 ->
         get_page_directory_index va' < 1023 -> pte_of s'.(pm) dir va' = pte_of s.(pm) dir va')) s.
Proof.
  intros frame Hwf Hok Hfa Hi Herr Hus Hrc Hf0 Hfd Hft Hftab Htok Htd Httab Hhas.
  pose proof (dir_frame _ _ _ Hwf Hok) as Hdf.
  assert (Hff : is_frame frame) by apply is_frame_entry.
  pose proof (tok_used _ _ Htok) as Htu. pose proof (tracked_frame _ _ Hwf (proj1 Htu)) as Htf.
  unfold page_fault_handler. rewrite write_fault_test by done.
  apply wp_bind. unfold wp. destruct (get_mapped_spec s dir fault Hdf Hfa) as (w & ->). fold frame.
  unfold bind at 1. unfold on_frames at 1. cbn [frames set_win].
  assert (Hal : align_page frame = frame) by (by eapply tracked_align; [|apply Hus]).
  rewrite get_refcount_spec; [|done|apply Hff|rewrite Hal; apply Hus].
  change (set_frames (frames s) (set_win w s)) with (set_win w s).
  destruct (Z.ltb_spec 1 (rc_of (frames s) frame)); [|lia].
  destruct (decrease_frames (set_win w s) frame Hwf Hus Hrc) as (fr1 & E1 & Hwf1 & Hsm1 & Hrc1 & Ho1).
  cbn [frames set_win] in Hrc1, Ho1, Hsm1.
  assert (Hus1 : forall b, used s.(frames) b -> used fr1 b).
  { intros b [Hb Hbr]. split; [by apply (same_machine_tracked _ _ _ Hsm1)|].
    destruct (decide (b = frame)) as [->|]; [lia|]. rewrite Ho1; [lia|done|done]. }
  destruct (alloc_page_frames (set_frames fr1 (set_win w s)) Hwf1)
    as (nf & fr2 & E2 & Hnf & Hku & Hr & Hh & _ & Hrn).
  cbn [frames set_frames] in *.
  assert (Hh1 : has_frame fr1).
  { destruct Hhas as [H0 (a & Hta & Ha)]. split.
    - intros Ht0%(same_machine_tracked _ _ _ Hsm1). destruct (decide (0 = frame)); [congruence|].
      rewrite Ho1 by done. by apply H0.
    - exists a. split; [by apply (same_machine_tracked _ _ _ Hsm1)|].
      rewrite Ho1; [done|done|]. intros ->. lia. }
  specialize (Hh Hh1). destruct Hr as [?|(Hun & Hnz & Hnt)]; [contradiction|].
  apply (same_machine_tracked _ _ _ Hsm1) in Hnt.
  assert (Hnew : forall b, used s.(frames) b -> nf <> b).
  { intros b Hb ->. apply Hus1 in Hb. destruct Hb. lia. }
  assert (Hnz0 : rc_of s.(frames) nf = 0) by (rewrite <- Ho1; [done|done|by apply Hnew]).
  unfold bind at 1, bind at 1. rewrite E1. unfold bind at 1. rewrite E2.
  change (set_frames fr2 (set_frames fr1 (set_win w s))) with (set_frames fr2 (set_win w s)).
  destruct (cow_copy (set_page_table_entry dir fault nf 1 1) s frame nf tf fr2 w Htok Hff Hnf Htf
    Hft ltac:(by apply Hnew) ltac:(by apply not_eq_sym, Hnew) ltac:(apply Hnew, Htok)
    ltac:(apply Hnew, Htok) ltac:(eapply tracked_frame; [exact Hwf|apply Htok])) as (w' & ->).
  set (m2 := memcpy_32 _ nf tf 1024). set (s2 := set_pm _ _).
  assert (Hkeep : forall f, used s.(frames) f -> f <> tf -> page_kept s.(pm) m2 f).
  { intros f Hf Hne. destruct (tracked_frame _ _ Hwf (proj1 Hf)) as [Hfm _].
    eapply page_kept_trans; apply copy_page_kept;
      first [exact Hfm | apply Htf | apply Hff | apply Hnf | idtac];
      [exact (not_eq_sym Hft)|exact Hne|by apply Hnew|by apply not_eq_sym, Hnew]. }
  assert (Hok2 : dir_ok s.(pm) fr2 dir).
  { eapply dir_ok_frames; [|exact Hku]. by eapply dir_ok_used. }
  destruct (pte_of_kept s.(pm) m2 fr2 dir Hok2) as (Hok3 & Htab & Hpte).
  { apply Hkeep; [apply Hok|by apply not_eq_sym]. }
  { intros k Hk Hnzk. apply Hkeep; [|by apply not_eq_sym, Httab].
    by destruct (dok_tab _ _ _ Hok k Hk) as [?|[? _]]. }
  pose proof Hku as (Hwf2 & _ & Hkr2).
  destruct (wp_inv _ _ _ (set_page_table_entry_spec s2 dir fault nf 1 1 Hwf2 Hok3 Hfa (proj2 Hnf) Hi))
    as ([] & s' & -> & _ & Hku' & _ & Hv & Hp & Hpk & _).
  pose proof (pdi_range fault) as Hpr. change (s2.(pm)) with m2 in *. change (s2.(frames)) with fr2 in *.
  assert (Ht0 : table_of s.(pm) dir (get_page_directory_index fault) <> 0).
  { intros Hz. apply Hf0. unfold frame, pte_of. by rewrite Hz. }
  rewrite (Htab _ Hpr) in Hv, Hpk. specialize (Hv (or_introl Ht0)).
  pose proof Hku' as (_ & _ & Hkr').
  assert (Hal2 : align_page nf = nf) by (apply align_page_id; apply Hnf). rewrite Hal2 in Hv.
  split; [done|]. exists nf. split_and!; [done| | |done| | |].
  - rewrite Hkr' by done. by apply Hrn.
  - rewrite Hkr' by (by eapply keeps_used_used, Hus1). rewrite Hkr2 by (by apply Hus1). exact Hrc1.
  - intros o Ho. rewrite Hpk; [|done|by apply Hnew, Hok|done| |lia].
    + unfold m2. rewrite copy_page; [|apply Hnf|apply Htf|by apply Hnew|done].
      apply copy_page; [apply Htf|apply Hff|by apply not_eq_sym|done].
    + apply Hnew. by destruct (dok_tab _ _ _ Hok (get_page_directory_index fault) ltac:(lia)) as [?|[? _]].
  - eapply page_kept_trans; [by apply Hkeep|]. apply Hpk; [|done|done|done].
    by eapply keeps_used_used, Hus1.
  - intros va' Hva' Hne Hi'. rewrite Hp by done. by apply Hpte.
Qed.

(** ** A concrete address space

    A directory at 0x101000 with one user table (0x102000) mapping 0x40000000
    read-only to the frame 0x103000, which has two references, and a kernel
    table (0x105000) mapping the work page to 0x104000. *)
Definition demo_frames : phys :=
  rc_set 0 1 (rc_set 0x101000 1 (rc_set 0x102000 1 (rc_set 0x103000 2
    (rc_set 0x104000 1 (rc_set 0x105000 1 demo_phys))))).
Definition demo_pm : mem :=
  wr32 (wr32 (wr32 (wr32 ∅ (0x101000 + 4 * 256) 0x102007) (0x101000 + 4 * 831) 0x105003)
    0x102000 0x103005) (0x105000 + 4 * 0x3FD) 0x104003.
Definition demo_paging : pstate :=
  PState demo_pm 3 demo_frames 0x101000 VIRT_PAGE_DIR_ADDR 1 TEMP_PAGE_ADDR 0x101000 true.

Lemma demo_frames_wf : phys_wf demo_frames.
Proof. repeat apply rc_set_wf. apply demo_phys_wf. Qed.

Lemma demo_used f : bool_decide (tracked demo_frames f) && (1 <=? rc_of demo_frames f) = true -> used demo_frames f.
Proof. intros [H1%bool_decide_eq_true_1 H2%Z.leb_le]%andb_true_iff. done. Qed.

Lemma demo_tables i :
  0 <= i < 1023 -> table_of demo_pm 0x101000 i =
  if decide (i = 256) then 0x102000 else if decide (i = 831) then 0x105000 else 0.
Proof.
  intros Hi. repeat case_decide; [subst; by vm_compute..|].
  unfold table_of, demo_pm. by rewrite !rd32_wr32_ne by lia.
Qed.

Lemma demo_dir_ok : dir_ok demo_pm demo_frames 0x101000.
Proof.
  split.
  - apply demo_used. by vm_compute.
  - done.
  - intros i Hi. rewrite demo_tables by done. repeat case_decide; [right..|by left].
    all: split; [apply demo_used; by vm_compute|done].
  - intros i j Hi Hj Hne. rewrite !demo_tables by done. repeat case_decide; done || congruence.
Qed.

Lemma demo_has_frame : has_frame demo_frames.
Proof.
  split; [by vm_compute|]. exists 0x106000. split; [|by vm_compute].
  apply (bool_decide_unpack _). by vm_compute.
Qed.

Lemma demo_temp_ok : temp_ok demo_paging 0x104000.
Proof.
  split; first [apply demo_used; by vm_compute | by vm_compute].
Qed.

Lemma mapping_roundtrip_witness :
  wp (set_page_table_entry 0x101000 0x50001234 0x106000 1 1) (fun _ s1 =>
    dir_ok s1.(pm) s1.(frames) 0x101000 /\
    (let t := table_of s1.(pm) 0x101000 (get_page_directory_index 0x50001234) in
     table_of demo_pm 0x101000 (get_page_directory_index 0x50001234) = 0 ->
     t <> 0 /\ tracked demo_frames t /\ rc_of demo_frames t = 0 /\ used s1.(frames) t) /\
    (forall va', is_u32 va' -> get_page_directory_index va' < 1023 -> ~ window_page va' ->
       wp (get_mapped_address 0x101000 va') (fun r _ =>
         r = if decide (0x50001234 / 4096 = va' / 4096) then align_page 0x106000
             else entry_frame (pte_of demo_pm 0x101000 va')) s1) /\
    wp (unset_page_table_entry 0x101000 0x50001234) (fun _ s2 =>
      forall va', is_u32 va' -> get_page_directory_index va' < 1023 -> ~ window_page va' ->
       wp (get_mapped_address 0x101000 va') (fun r _ =>
         r = if decide (0x50001234 / 4096 = va' / 4096) then 0
             else entry_frame (pte_of demo_pm 0x101000 va')) s2) s1) demo_paging.
Proof.
  apply (mapping_roundtrip demo_paging 0x101000 0x50001234 0x106000 1).
  - exact demo_frames_wf.
  - exact demo_dir_ok.
  - split; done.
  - split; done.
  - done.
  - by vm_compute.
  - right. exact demo_has_frame.
Defined.

Lemma cow_fault_copies_witness :
  let frame := 0x103000 in
  wp (page_fault_handler 0x101000 7 0x40000123) (fun act s' =>
    act = PfResume /\ exists nf,
      rc_of demo_frames nf = 0 /\ rc_of s'.(frames) nf = 1 /\
      rc_of s'.(frames) frame = rc_of demo_frames frame - 1 /\
      pte_of s'.(pm) 0x101000 0x40000123 = entry_val 1 1 nf /\
      (forall o, 0 <= o < 4096 -> rd8 s'.(pm) (nf + o) = rd8 demo_pm (frame + o)) /\
      page_kept demo_pm s'.(pm) frame /\
      (forall va', is_u32 va' -> 0x40000123 / 4096 <> va' / 4096 ->
         get_page_directory_index va' < 1023 ->
         pte_of s'.(pm) 0x101000 va' = pte_of demo_pm 0x101000 va')) demo_paging.
Proof.
  apply (cow_fault_copies demo_paging 0x101000 7 0x40000123 0x104000).
  - exact demo_frames_wf.
  - exact demo_dir_ok.
  - split; done.
  - done.
  - split_and!; done.
  - apply demo_used. by vm_compute.
  - by vm_compute.
  - by vm_compute.
  - by vm_compute.
  - by vm_compute.
  - by vm_compute.
  - exact demo_temp_ok.
  - done.
  - intros k Hk. change (pm demo_paging) with demo_pm. rewrite demo_tables by done.
    repeat case_decide; done.
  - exact demo_has_frame.
Defined.
