(* ===== verification/UserSpace.v ===== *)
(** The user part of an address space, abstractly: which pages are mapped to
    which private frames and what they hold.  [image s dir M] relates a page
    directory to such a map; the loader's two ways of changing it, a fresh
    cleared page and bytes stored in a page, are updates of the map. *)
From stdpp Require Import base numbers gmap list.
From S2P Require Import Prelude Physmem Kmem Paging.

#[local] Opaque memset_32 memset_8.

(** ** Frames to hand out *)

(** There are [n] free frames, and frame 0, if it exists, is taken. *)
Definition frames_left (fr : phys) (n : nat) : Prop :=
  (tracked fr 0 -> 1 <= rc_of fr 0) /\
  exists l, NoDup l /\ length l = n /\ Forall (fun a => tracked fr a /\ rc_of fr a = 0) l.

Lemma left_has fr n : frames_left fr (S n) -> has_frame fr.
Proof.
  intros [H0 (l & _ & Hl & HF)]. split; [intros Ht; specialize (H0 Ht); lia|].
  destruct l as [|a l]; [done|]. exists a. by inversion HF.
Qed.

(** Taking one frame leaves the others. *)
Lemma left_take fr fr' r n :
  frames_left fr (S n) -> keeps_used fr fr' ->
  (forall b, tracked fr b -> b <> r -> rc_of fr' b = rc_of fr b) -> frames_left fr' n.
Proof.
  intros [H0 (l & Hnd & Hl & HF)] (_ & Hsm & Hk) Hone. split.
  { intros Ht%(same_machine_tracked _ _ _ Hsm). specialize (H0 Ht). rewrite Hk; [done|by split]. }
  assert (exists l', NoDup l' /\ (r ∉ l') /\ length l' = n /\ l' ⊆ l) as (l' & Hnd' & Hr & Hl' & Hsub).
  { destruct (decide (r ∈ l)) as [(l1 & l2 & ->)%list_elem_of_split|Hr].
    - exists (l1 ++ l2). apply NoDup_app in Hnd as (Hn1 & Hd & [Hr2 Hn2]%NoDup_cons).
      rewrite length_app in *. cbn in Hl. split_and!; [|rewrite elem_of_app|lia|].
      + apply NoDup_app. split_and!; [done| |done]. intros x Hx Hx2. apply (Hd x Hx). by right.
      + intros [Hx|Hx]; [|done]. apply (Hd r Hx). by left.
      + intros x. rewrite !elem_of_app, elem_of_cons. tauto.
    - destruct l as [|a l]; [done|]. exists l. apply NoDup_cons in Hnd as [_ ?].
      split_and!; [done|by intros ?; apply Hr; right|cbn in Hl; lia|by intros x ?; right]. }
  exists l'. split_and!; [done|done|]. rewrite Forall_forall in HF |- *. intros a Ha.
  destruct (HF a (Hsub a Ha)) as [Ht Hz]. split; [by apply (same_machine_tracked fr fr')|].
  rewrite Hone; [done|done|]. by intros ->.
Qed.

Lemma left_mono fr n n' : (n' <= n)%nat -> frames_left fr n -> frames_left fr n'.
Proof.
  intros Hn [H0 (l & Hnd & Hl & HF)]. split; [done|]. exists (take n' l). split_and!.
  - rewrite <- (take_drop n' l) in Hnd. by apply NoDup_app in Hnd as [? _].
  - rewrite length_take. lia.
  - by apply Forall_take.
Qed.

(** ** Pages *)

(** A page-aligned address below the window. *)
Definition user_page (va : Z) : Prop := va mod 4096 = 0 /\ 0 <= va < WINDOW.

Lemma user_page_u32 va : user_page va -> is_u32 va.
Proof. unfold user_page, is_u32, WINDOW. lia. Qed.

Lemma user_pdi va : 0 <= va < WINDOW -> get_page_directory_index va < 1023.
Proof.
  unfold WINDOW, get_page_directory_index. intros. change LAST_PAGE_TABLE_INDEX with (Z.ones 10).
  rewrite Z.land_ones, Z.shiftr_div_pow2 by lia. change (2 ^ 22) with 4194304. change (2 ^ 10) with 1024.
  assert (0 <= va / 4194304 < 1023) by (split; [apply Z.div_pos; lia|apply Z.div_lt_upper_bound; lia]).
  rewrite Z.mod_small; lia.
Qed.

Lemma user_page_ne va va' : user_page va -> user_page va' -> va <> va' -> va / 4096 <> va' / 4096.
Proof. intros [H _] [H' _] Hne. zdm. Qed.

Section image.
Context (dir : Z).
Implicit Types (s : pstate) (c : Z -> Z).

(** A frame in use that is no page structure of [dir]. *)
Definition private s (f : Z) : Prop :=
  used s.(frames) f /\ f <> 0 /\ f <> dir /\ forall k, 0 <= k < 1023 -> table_of s.(pm) dir k <> f.

(** The page [va] is mapped, for the user, to the private frame [f] that holds [c]. *)
Definition page_at s (va f : Z) c : Prop :=
  user_page va /\ pte_of s.(pm) dir va = entry_val 1 1 f /\ private s f /\
  forall i, 0 <= i < 4096 -> rd8 s.(pm) (f + i) = c i.

Record image s (M : gmap Z (Z * (Z -> Z))) : Prop := {
  im_wf : phys_wf s.(frames);
  im_dir : dir_ok s.(pm) s.(frames) dir;
  im_page : forall va f c, M !! va = Some (f, c) -> page_at s va f c;
  im_inj : forall va va' f c c', M !! va = Some (f, c) -> M !! va' = Some (f, c') -> va = va'
}.

Lemma image_frame s M f : image s M -> used s.(frames) f -> is_frame f.
Proof. intros Hi [Ht _]. eapply tracked_frame; [apply Hi|done]. Qed.

Lemma image_delete s M va : image s M -> image s (delete va M).
Proof.
  intros [H1 H2 H3 H4]. split; [done|done| |].
  - intros va' f c [_ ?]%lookup_delete_Some. by apply H3.
  - intros va1 va2 f c c' [_ ?]%lookup_delete_Some [_ ?]%lookup_delete_Some. by eapply H4.
Qed.

Lemma image_insert s M va f c :
  image s M -> page_at s va f c -> (forall va' c', va' <> va -> M !! va' <> Some (f, c')) ->
  image s (<[va := (f, c)]> M).
Proof.
  intros [H1 H2 H3 H4] Hp Hf. split; [done|done| |].
  - intros va' f' c'. rewrite lookup_insert_Some. intros [[<- [= <- <-]]|[_ ?]]; [done|by apply H3].
  - intros va1 va2 f' c1 c2. rewrite !lookup_insert_Some.
    intros [[<- [= <- <-]]|[Hn1 Hm1]] [[<- E]|[Hn2 Hm2]]; [done| | |by eapply H4].
    + exfalso. by eapply (Hf va2).
    + injection E as -> ->. exfalso. by eapply (Hf va1).
Qed.

(** A write to a frame [g] that is no page structure leaves the pages on other
    frames. *)
Lemma image_write s s' M g :
  image s M -> s'.(frames) = s.(frames) ->
  (forall f, is_frame f -> f <> g -> page_kept s.(pm) s'.(pm) f) ->
  g <> dir -> (forall k, 0 <= k < 1023 -> table_of s.(pm) dir k <> g) ->
  (forall va c, M !! va <> Some (g, c)) ->
  image s' M /\ (forall f, private s f -> private s' f) /\
  forall va, user_page va -> pte_of s'.(pm) dir va = pte_of s.(pm) dir va.
Proof.
  intros Hi Hfr Hk Hgd Hgt HM. pose proof Hi as [Hwf Hok Hp Hinj].
  destruct (pte_of_kept s.(pm) s'.(pm) s.(frames) dir Hok) as (Hok' & Htab & Hpte).
  { apply Hk; [by eapply dir_frame|by apply not_eq_sym]. }
  { intros k Hk' _. apply Hk; [apply is_frame_entry|by apply Hgt]. }
  assert (Hpriv : forall f, private s f -> private s' f).
  { intros f (Hu & H0 & Hd & Ht). split_and!; [by rewrite Hfr|done|done|].
    intros k Hk'. rewrite Htab by lia. by apply Ht. }
  assert (Hpte' : forall va, user_page va -> pte_of s'.(pm) dir va = pte_of s.(pm) dir va).
  { intros va [_ ?]. by apply Hpte, user_pdi. }
  split_and!; [|done|done]. split; [by rewrite Hfr|by rewrite Hfr| |done].
  intros va f c Hva. destruct (Hp _ _ _ Hva) as (Hu & Hv & Hpr & Hc). split_and!; [apply Hu..| | |].
  - rewrite Hpte' by done. done.
  - by apply Hpriv.
  - intros i Hi'. rewrite (Hk f); [by apply Hc| |intros ->; by eapply HM|lia].
    eapply image_frame; [done|apply Hpr].
Qed.

(** A fresh page: a free frame, cleared through the window, mapped at [va]. *)
Definition fresh_page (va : Z) : cmd pstate Z :=
  physical <- on_frames alloc_phys_page ;;
  w <- temp_map_page physical ;;
  vmemset_32 w 0x00000000 1024 ;;;
  set_page_table_entry dir va physical 1 1 ;;;
  ret physical.

Lemma memset_page_zero m f i : 0 <= i < 4096 -> rd8 (memset_32 m f 0 1024) (f + i) = 0.
Proof.
  intros Hi. pose proof (rd32_memset32_zero m f 1024 (i / 4) ltac:(zdm)) as Hz.
  assert (f + i = f + 4 * (i / 4) + i mod 4) as -> by zdm.
  rewrite <- rd8_of_rd32 by zdm. by rewrite Hz.
Qed.

(** The table entry of a fresh page, and what its setting leaves. *)
Lemma image_map s s' M va f c :
  image s M -> user_page va -> private s f -> (forall va' c', M !! va' <> Some (f, c')) ->
  (forall i, 0 <= i < 4096 -> rd8 s.(pm) (f + i) = c i) -> has_frame s.(frames) ->
  set_post s dir va (entry_val 1 1 f) s' -> image s' (<[va := (f, c)]> (delete va M)).
Proof.
  intros Hi Hva Hf HM Hc Hhas (_ & Hku & Hok' & Hv & Hpte & Hkept & r & Hr & _ & Htab).
  specialize (Hv (or_intror Hhas)). pose proof Hku as (Hwf' & _).
  assert (Hpriv : forall g, private s g -> private s' g /\ page_kept s.(pm) s'.(pm) g).
  { intros g (Hu & H0 & Hd & Ht). split; [|apply Hkept; try done].
    - split_and!; [by eapply keeps_used_used|done|done|]. intros k Hk.
      destruct (Htab k Hk) as [->| ->]; [by apply Ht|]. intros ->.
      destruct Hr as [?|[_ Hz]]; [done|]. destruct Hu. lia.
    - pose proof (pdi_range va). pose proof (user_pdi va (proj2 Hva)). apply not_eq_sym, Ht. lia. }
  assert (Hcont : forall g d, private s g -> (forall i, 0 <= i < 4096 -> rd8 s.(pm) (g + i) = d i) ->
            forall i, 0 <= i < 4096 -> rd8 s'.(pm) (g + i) = d i).
  { intros g d Hg Hd i Hi'. rewrite (proj2 (Hpriv g Hg)) by lia. by apply Hd. }
  apply image_insert; [split; [done|done| |]| |].
  - intros va' g d [Hne Hg]%lookup_delete_Some. destruct (im_page _ _ Hi _ _ _ Hg) as (Hu & He & Hg' & Hd).
    split_and!; [apply Hu..| |by apply Hpriv|by apply Hcont].
    rewrite Hpte; [done|by apply user_page_u32|by apply user_page_ne|by apply user_pdi, Hu].
  - intros va1 va2 g d d' [_ H1]%lookup_delete_Some [_ H2]%lookup_delete_Some. by eapply Hi.
  - split_and!; [apply Hva..|done|by apply Hpriv|by apply Hcont].
  - intros va' c' _ [_ H]%lookup_delete_Some. by eapply HM.
Qed.

(** The next frame: it was free, so nothing of the address space is on it. *)
Lemma fresh_frame s M n :
  image s M -> frames_left s.(frames) (S n) ->
  exists r fr, on_frames alloc_phys_page s = Ret (r, set_frames fr s) /\ is_frame r /\
    image (set_frames fr s) M /\ private (set_frames fr s) r /\ (forall va c, M !! va <> Some (r, c)) /\
    frames_left fr n.
Proof.
  intros Hi Hroom. pose proof (im_wf _ _ Hi) as Hwf.
  destruct (alloc_page_frames s Hwf) as (r & fr & Heq & Hrf & Hku & Hr & Hhas & Hone & _).
  specialize (Hhas (left_has _ _ Hroom)). destruct Hr as [?|(Hru & Hr0 & Hrt)]; [done|].
  assert (Hlive : forall g, used s.(frames) g -> g <> r) by (intros g [_ ?] ->; lia).
  exists r, fr. split_and!; [done|apply Hrf..| | | |by eapply left_take].
  - destruct Hi as [H1 H2 H3 H4]. split; [apply Hku|by eapply dir_ok_frames| |done].
    intros va' g d Hg. destruct (H3 _ _ _ Hg) as (Hu & He & (Hgu & Hg') & Hd).
    split; [done|]. split; [done|]. split; [|done]. split; [by eapply keeps_used_used|done].
  - split_and!; [done..|by apply not_eq_sym, Hlive, Hi|]. intros k Hk.
    cbn [pm set_frames]. destruct (dok_tab _ _ _ (im_dir _ _ Hi) k Hk) as [->|[? _]]; [by apply not_eq_sym|by apply Hlive].
  - intros va' c Hm. destruct (im_page _ _ Hi _ _ _ Hm) as (_ & _ & (? & _) & _). by eapply Hlive.
Qed.

(** Mapping a private frame that is on no page yet. *)
Lemma map_page_spec s M va f c n :
  image s M -> user_page va -> private s f -> (forall va' c', M !! va' <> Some (f, c')) ->
  (forall i, 0 <= i < 4096 -> rd8 s.(pm) (f + i) = c i) -> frames_left s.(frames) (S n) ->
  wp (set_page_table_entry dir va f 1 1) (fun _ s' =>
    image s' (<[va := (f, c)]> (delete va M)) /\ frames_left s'.(frames) n) s.
Proof.
  intros Hi Hva Hf HM Hc Hroom. pose proof (image_frame _ _ _ Hi (proj1 Hf)) as Hff. eapply wp_mono.
  { apply (set_page_table_entry_spec s dir va f 1 1); [apply Hi..|by apply user_page_u32|apply Hff|by apply user_pdi, Hva]. }
  intros [] s' Hpost. rewrite align_page_id in Hpost by apply Hff. split.
  - eapply image_map; [exact Hi|done|done|done|done|by eapply left_has|done].
  - destruct Hpost as (_ & Hku2 & _ & _ & _ & _ & r2 & _ & Hone2 & _). by eapply left_take.
Qed.

Lemma fresh_page_spec s M va n :
  image s M -> user_page va -> frames_left s.(frames) (S (S n)) ->
  wp (fresh_page va) (fun f s' =>
    image s' (<[va := (f, fun _ => 0)]> (delete va M)) /\ frames_left s'.(frames) n) s.
Proof.
  intros Hi Hva Hroom. unfold fresh_page. apply wp_bind. unfold wp at 1.
  destruct (fresh_frame s M _ Hi Hroom) as (r & fr & -> & Hrf & Hi0 & Hr & HM & Hroom1).
  apply wp_bind. unfold wp at 1. destruct (temp_map_spec r (set_frames fr s) Hrf) as (w & -> & Hw).
  apply wp_bind. unfold wp at 1. rewrite vmemset_window. cbn [win_pte set_win]. rewrite Hw. set (s1 := set_pm _ _).
  destruct (image_write (set_frames fr s) s1 M r Hi0) as (Hi1 & Hpriv & _); [reflexivity| |apply Hr..|exact HM|].
  { intros f [Hf _] Hne. apply page_kept_clear; [done|apply Hrf|done]. }
  apply wp_bind. eapply wp_mono.
  { apply (map_page_spec s1 M va r (fun _ => 0) n Hi1 Hva (Hpriv _ Hr) HM); [|done].
    intros i Hi'. cbn [s1 pm set_pm set_win set_frames]. by apply memset_page_zero. }
  intros [] s' Hpost. by apply wp_ret.
Qed.

(** Bytes stored at the start of a mapped page. *)
Definition over (bytes : list Z) c : Z -> Z :=
  fun i => if i <? Z.of_nat (length bytes) then u8 (default 0 (bytes !! Z.to_nat i)) else c i.

(** A write to the frame of a mapped page. *)
Lemma image_rewrite s s' M va f c c' :
  image s M -> M !! va = Some (f, c) -> s'.(frames) = s.(frames) ->
  (forall g, is_frame g -> g <> f -> page_kept s.(pm) s'.(pm) g) ->
  (forall i, 0 <= i < 4096 -> rd8 s'.(pm) (f + i) = c' i) -> image s' (<[va := (f, c')]> M).
Proof.
  intros Hi Hm Hfr Hk Hc'. destruct (im_page _ _ Hi _ _ _ Hm) as (Hu & He & Hf & _).
  pose proof Hf as (_ & _ & Hfd & Hft). rewrite <- (insert_delete_eq M va).
  assert (Hrest : forall va' d, delete va M !! va' <> Some (f, d)).
  { intros va' d [Hne ?]%lookup_delete_Some. apply Hne. by eapply Hi. }
  destruct (image_write s s' (delete va M) f) as (Hi' & Hpriv & Hpte); try done; [by apply image_delete|].
  apply image_insert; [done| |done]. split; [done|]. rewrite Hpte by done. split; [done|].
  split; [by apply Hpriv|done].
Qed.

Lemma store_page_spec s M va f c bytes :
  image s M -> M !! va = Some (f, c) -> Z.of_nat (length bytes) <= 4096 ->
  wp (w <- temp_map_page f ;; store_bytes w bytes) (fun _ s' =>
    image s' (<[va := (f, over bytes c)]> M) /\ s'.(frames) = s.(frames)) s.
Proof.
  intros Hi Hm Hlen. destruct (im_page _ _ Hi _ _ _ Hm) as (_ & _ & Hf & Hc).
  pose proof (image_frame _ _ _ Hi (proj1 Hf)) as Hff.
  apply wp_bind. unfold wp at 1. destruct (temp_map_spec f s Hff) as (w & -> & Hw).
  apply wp_modify. rewrite phys_of_window0. cbn [win_pte set_win]. rewrite Hw. split; [|done].
  eapply image_rewrite; [exact Hi|exact Hm|done| |].
  - intros g [Hg _] Hne x Hx. cbn [pm set_pm set_win]. apply put_bytes_out. destruct Hff. zdm.
  - intros i Hi2. unfold over. cbn [pm set_pm set_win].
    destruct (Z.ltb_spec i (Z.of_nat (length bytes))); [apply put_bytes_in; lia|].
    rewrite put_bytes_out by lia. by apply Hc.
Qed.

(** What the processor sees at a mapped address. *)
Lemma image_mmu s M va f c i :
  image s M -> M !! va = Some (f, c) -> 0 <= i < 4096 ->
  present_bit (pte_of s.(pm) dir (va + i)) = 1 /\ user_supervisor (pte_of s.(pm) dir (va + i)) = 1 /\
  read_write (pte_of s.(pm) dir (va + i)) = 1 /\ mmu s.(pm) dir (va + i) = f + i /\ rd8 s.(pm) (f + i) = c i.
Proof.
  intros Hi Hm Hr. destruct (im_page _ _ Hi _ _ _ Hm) as ([Hal Hva] & He & Hf & Hc).
  pose proof (image_frame _ _ _ Hi (proj1 Hf)) as Hff.
  destruct (entry_val_fields 1 1 f Hff) as (Hef & Hp & Hrw & Hus & _).
  assert (Hpd : get_page_directory_index (va + i) = get_page_directory_index va /\
                get_page_table_index (va + i) = get_page_table_index va).
  { unfold get_page_directory_index, get_page_table_index. rewrite !Z.shiftr_div_pow2 by lia.
    change (2 ^ 22) with 4194304. change (2 ^ 12) with 4096. split; f_equal; zdm. }
  destruct Hpd as [Hd Ht].
  assert (Hpte : pte_of s.(pm) dir (va + i) = entry_val 1 1 f) by (unfold pte_of; rewrite Hd, Ht; exact He).
  rewrite Hpte. split_and!; [done|done|done| |by apply Hc]. unfold mmu. rewrite Hd, Ht. unfold pte_of in He.
  change (entry_frame (rd32 (pm s) (dir + 4 * get_page_directory_index va))) with (table_of s.(pm) dir (get_page_directory_index va)).
  destruct (Z.eqb_spec (table_of (pm s) dir (get_page_directory_index va)) 0) as [|_].
  { exfalso. destruct Hf as (_ & Hf0 & _). rewrite <- He in Hef. by apply Hf0. }
  rewrite He, Hef. zdm.
Qed.
End image.
