(* ===== verification/KernelHeap.v ===== *)
(** The kernel heap over paging: [initialise_heap] and [increase_heap] call
    [alloc_phys_page] and [set_page_table_entry]; here the page supply that
    [Heap] assumes is that pair of calls, and the assembled heap discharges the
    allocator interface of the kernel's data structures. *)
From stdpp Require Import base numbers gmap list.
From S2P Require Import Prelude Physmem Kmem Allocator Heap Paging Store LinkedList.

(** The two calls in the body of [increase_heap] (and of [initialise_heap]). *)
Definition map_fresh_page (va : Z) : cmd pstate unit :=
  heap_phys <- on_frames alloc_phys_page ;;
  dir <- get_page_directory_address ;;
  set_page_table_entry dir va heap_phys 1 0.

(** The directory [get_page_directory_address] returns. *)
Definition current_dir (s : pstate) : Z :=
  if s.(paging_status) =? 0 then s.(page_directory) else s.(cr3).

Definition paging_ok (s : pstate) : Prop :=
  phys_wf s.(frames) /\ dir_ok s.(pm) s.(frames) (current_dir s).

Lemma pdi_below_tables va : 0 < va < HEAP_TOP -> get_page_directory_index va < 1023.
Proof.
  unfold HEAP_TOP, get_page_directory_index. change LAST_PAGE_TABLE_INDEX with (Z.ones 10).
  rewrite Z.land_ones, Z.shiftr_div_pow2 by lia. change (2 ^ 22) with 4194304. change (2 ^ 10) with 1024.
  intros Hva. assert (0 <= va / 4194304 < 1023).
  { split; [apply Z.div_pos; lia|apply Z.div_lt_upper_bound; lia]. }
  rewrite Z.mod_small; lia.
Qed.

(** Frames for a page and for its table. *)
Definition two_frames (fr : phys) : Prop :=
  (tracked fr 0 -> rc_of fr 0 <> 0) /\
  exists a b, a <> b /\ (tracked fr a /\ rc_of fr a = 0) /\ (tracked fr b /\ rc_of fr b = 0).

(** Mapping a fresh page, with or without frames left.  Where there are two, the
    page is mapped to one that was free. *)
Lemma map_fresh_page_spec va s :
  paging_ok s -> 0 < va < HEAP_TOP ->
  wp (map_fresh_page va) (fun _ s' => let dir := current_dir s in
    paging_ok s' /\ current_dir s' = dir /\ keeps_used s.(frames) s'.(frames) /\
    (forall f, used s.(frames) f -> f <> 0 -> f <> dir -> (forall k, 0 <= k < 1023 -> table_of s.(pm) dir k <> f) ->
       page_kept s.(pm) s'.(pm) f /\ forall k, 0 <= k < 1023 -> table_of s'.(pm) dir k <> f) /\
    (forall va', is_u32 va' -> va / 4096 <> va' / 4096 -> get_page_directory_index va' < 1023 ->
       pte_of s'.(pm) dir va' = pte_of s.(pm) dir va') /\
    (two_frames s.(frames) -> exists r, r <> 0 /\ tracked s.(frames) r /\ rc_of s.(frames) r = 0 /\ rc_of s'.(frames) r = 1 /\
       pte_of s'.(pm) dir va = entry_val 1 0 r)) s.
Proof.
  intros [Hwf Hok] Hva. unfold map_fresh_page. apply wp_bind. unfold wp at 1.
  destruct (alloc_page_frames s Hwf) as (r & fr' & -> & Hrf & Hku & Hr & Hhas & Hother & H1).
  pose proof Hku as (Hwf' & Hsm & _). apply wp_bind, wp_gets. cbn [paging_status page_directory cr3 set_frames].
  fold (current_dir s). set (dir := current_dir s) in *. pose proof (pdi_below_tables va Hva) as Hi.
  eapply wp_mono.
  { apply (set_page_table_entry_spec (set_frames fr' s)); [done| | |apply Hrf|done].
    - by eapply dir_ok_frames.
    - unfold is_u32, HEAP_TOP in *. lia. }
  intros _ s' ((Hpd & _ & Hps & _ & Hcr & _) & Hku2 & Hok2 & Hv & Hp & Hkept & (t & Ht & _ & Htabs)).
  cbn [frames pm set_frames] in *.
  assert (Hdir : current_dir s' = dir) by (unfold current_dir; by rewrite Hps, Hpd, Hcr).
  pose proof Hku2 as (Hwf2 & _ & Hk2). split_and!; [split; [done|by rewrite Hdir]|done|by eapply keeps_used_trans| |exact Hp|].
  - intros f Hf Hf0 Hfd Hft. pose proof (keeps_used_used _ _ _ Hku Hf) as Hf'. pose proof (pdi_range va) as Hpr. split.
    + apply Hkept; [done|done|done|]. intros E. by apply (Hft _ (conj (proj1 Hpr) Hi)).
    + intros k Hk E. destruct (Htabs k Hk) as [Es|Es]; [apply (Hft k Hk); congruence|].
      destruct Ht as [?|[_ Ht]]; [congruence|]. destruct Hf' as [_ ?]. assert (f = t) by congruence. subst. lia.
  - intros (H0 & a & b & Hab & [Hta Ha] & [Htb Hb]).
    assert (Hr0 : r <> 0) by (apply Hhas; split; [done|by exists a]).
    destruct Hr as [?|(Hur & Hrz & Hrt)]; [done|]. exists r. split_and!; [done|done|done|rewrite Hk2 by done; by apply H1|].
    rewrite Hv; [by rewrite (tracked_align _ _ Hwf Hrt)|]. right. split.
    + intros Ht0%(same_machine_tracked _ _ _ Hsm). rewrite Hother; [by apply H0|done|congruence].
    + destruct (decide (a = r)) as [->|Hne]; [exists b|exists a];
        (split; [by apply (same_machine_tracked _ _ _ Hsm)|rewrite Hother by congruence; done]).
Qed.

Lemma map_fresh_page_safe va s :
  paging_ok s -> 0 < va < HEAP_TOP -> wp (map_fresh_page va) (fun _ => paging_ok) s.
Proof. intros Hok Hva. eapply wp_mono; [by apply map_fresh_page_spec|]. by intros [] s' [? _]. Qed.

#[export] Instance paging_supply : PageSupply pstate := {|
  supply_page := map_fresh_page; supply_ok := paging_ok; supply_safe := map_fresh_page_safe |}.

(** C33: booting the kernel heap on any well-formed page directory establishes
    what the kernel's data structures assume of [kern_malloc]: the empty one-page
    heap at 0xD0000000 is well-formed, nothing is in use, and there is address
    space for over 90000 further small allocations.  Where two frames are free
    (one may be needed for a page table) the page at 0xD0000000 is mapped,
    writable and for the kernel only, to a frame that was free and now has one
    reference, and [get_mapped_address] finds it there; every other page outside
    the window page stays mapped as it was. *)
Theorem initialise_heap_correct (s : hstate pstate) :
  let dir := current_dir s.(h_pages) in
  paging_ok s.(h_pages) ->
  wp initialise_heap (fun _ s' =>
    s'.(h_start) = KERNEL_HEAP_INIT_ADDR /\ s'.(h_end) = KERNEL_HEAP_INIT_ADDR + 4096 /\
    a_inv s' /\ a_extent s' = ∅ /\ (forall k, Z.of_nat k <= 90000 -> a_room k s') /\
    (two_frames s.(h_pages).(frames) -> exists r, r <> 0 /\ tracked s.(h_pages).(frames) r /\
       rc_of s.(h_pages).(frames) r = 0 /\ rc_of s'.(h_pages).(frames) r = 1 /\
       pte_of s'.(h_pages).(pm) dir 0xD0000000 = entry_val 1 0 r /\
       wp (get_mapped_address dir 0xD0000000) (fun a _ => a = r) s'.(h_pages)) /\
    (forall va, is_u32 va -> va / 4096 <> 0xD0000000 / 4096 -> get_page_directory_index va < 1023 -> ~ window_page va ->
       pte_of s'.(h_pages).(pm) dir va = pte_of s.(h_pages).(pm) dir va)) s.
Proof.
  intros dir Hok. unfold initialise_heap. apply wp_bind, wp_modify, wp_bind.
  unfold wp at 1, on_pages. cbn [h_pages supply_page paging_supply].
  destruct (wp_inv _ _ _ (map_fresh_page_spec KERNEL_HEAP_INIT_ADDR s.(h_pages) Hok ltac:(by vm_compute)))
    as ([] & p & -> & Hp & Hd & _ & _ & Hoth & Hmap).
  apply wp_modify. cbn [h_start h_end h_pages].
  set (s' := HState _ _ _ _ _ _).
  assert (Hrep : heap_rep s' []) by (repeat split; by vm_compute).
  split_and!; [done|done| | | | |].
  - eapply heap_inv_rep; [done|done|done].
  - cbn [a_extent heap_allocator]. by rewrite (heap_extent_rep _ _ Hrep).
  - intros k Hk. cbn [a_room heap_allocator]. unfold heap_room, HEAP_TOP, SMALL. cbn [h_end h_start s'].
    unfold KERNEL_HEAP_INIT_ADDR, HEAP_PAGE. rewrite u32_small by lia. lia.
  - intros H2. destruct (Hmap H2) as (r & Hr0 & Hrt & Hrz & Hr1 & Hpte). exists r. split_and!; try done. cbn [h_pages s'].
    destruct Hok as [Hwf Hdok].
    destruct (get_mapped_spec p dir 0xD0000000 (dir_frame _ _ _ Hwf Hdok) ltac:(by vm_compute)) as (w & Hw).
    eapply wp_Ret; [exact Hw|]. change 0xD0000000 with KERNEL_HEAP_INIT_ADDR. fold dir in Hpte. rewrite Hpte.
    apply entry_val_fields. by eapply tracked_frame.
  - intros va Hva Hne Hi _. cbn [h_pages s']. apply Hoth; [done| |done]. unfold KERNEL_HEAP_INIT_ADDR. congruence.
Qed.

Definition boot_heap : hstate pstate := HState 0 0 0 0 ∅ demo_paging.

Lemma demo_paging_ok : paging_ok demo_paging.
Proof. split; [exact demo_frames_wf|exact demo_dir_ok]. Qed.

Lemma demo_two_frames : two_frames demo_frames.
Proof.
  split; [by vm_compute|]. exists 0x106000, 0x107000. split; [done|].
  split; (split; [apply (bool_decide_unpack _)|]; by vm_compute).
Qed.

Lemma initialise_heap_correct_witness : exists s',
  initialise_heap boot_heap = Ret (tt, s') /\ a_extent s' = ∅ /\
  exists r, tracked demo_frames r /\ rc_of demo_frames r = 0 /\ pte_of s'.(h_pages).(pm) 0x101000 0xD0000000 = entry_val 1 0 r.
Proof.
  destruct (wp_inv _ _ _ (initialise_heap_correct boot_heap demo_paging_ok))
    as ([] & s' & Hr & _ & _ & _ & Hx & _ & Hmap & _).
  exists s'. split; [exact Hr|]. split; [exact Hx|]. destruct (Hmap demo_two_frames) as (r & _ & Ht & Hz & _ & Hp & _).
  by exists r.
Defined.
