(* ===== verification/KString.v ===== *)
(** [kernel/util/string.c]: the kernel's string functions, over byte memory.

    A string is a pointer to bytes ending in 0.  A run of non-zero bytes is no
    longer than the memory has bytes, which bounds every scanning loop. *)
From stdpp Require Import base numbers gmap list.
From S2P Require Import Prelude Kmem.

Definition schar (b : Z) : Z := if b <? 128 then b else b - 256.

Definition str_fuel (m : mem) : nat := S (size m).

Definition peek (p : Z) : cmd mem Z := gets (fun m => rd8 m p).
Definition poke (p v : Z) : cmd mem unit := modify (fun m => wr8 m p v).

(** ** The functions *)

Fixpoint strlen_loop (fuel : nat) (string i : Z) : cmd mem Z :=
  match fuel with
  | O => hang
  | S fuel' =>
      c <- peek (string + i) ;;
      if negb (c =? 0) then strlen_loop fuel' string (i + 1) else ret i
  end.
Definition strlen (string : Z) : cmd mem Z :=
  fuel <- gets str_fuel ;; strlen_loop fuel string 0.

Fixpoint strcmp_loop (fuel : nat) (str1 str2 : Z) : cmd mem Z :=
  match fuel with
  | O => hang
  | S fuel' =>
      a <- peek str1 ;;
      b <- peek str2 ;;
      if negb (a =? 0) || negb (b =? 0) then
        if (schar b <? schar a) || (schar a <? schar b) then ret 1
        else strcmp_loop fuel' (str1 + 1) (str2 + 1)
      else ret 0
  end.
Definition strcmp (str1 str2 : Z) : cmd mem Z :=
  fuel <- gets str_fuel ;; strcmp_loop fuel str1 str2.

Fixpoint strncmp_loop (n : nat) (str1 str2 i : Z) : cmd mem Z :=
  match n with
  | O => ret 0
  | S n' =>
      a <- peek (str1 + i) ;;
      b <- peek (str2 + i) ;;
      if a <? b then ret (-1)
      else if b <? a then ret 1
      else if a =? 0 then ret 0
      else strncmp_loop n' str1 str2 (i + 1)
  end.
Definition strncmp (str1 str2 length : Z) : cmd mem Z :=
  strncmp_loop (Z.to_nat length) str1 str2 0.

Fixpoint strcpy_loop (fuel : nat) (destination source i : Z) : cmd mem unit :=
  match fuel with
  | O => hang
  | S fuel' =>
      c <- peek (source + i) ;;
      poke (destination + i) c ;;;
      if negb (c =? 0) then strcpy_loop fuel' destination source (i + 1) else ret tt
  end.
Definition strcpy (destination source : Z) : cmd mem unit :=
  fuel <- gets str_fuel ;; strcpy_loop fuel destination source 0.

Fixpoint strncpy_loop (fuel : nat) (destination source len i : Z) : cmd mem unit :=
  match fuel with
  | O => hang
  | S fuel' =>
      c <- peek (source + i) ;;
      poke (destination + i) c ;;;
      if negb (c =? 0) && (i <? len) then strncpy_loop fuel' destination source len (i + 1)
      else ret tt
  end.
Definition strncpy (destination source len : Z) : cmd mem unit :=
  strncpy_loop (S (Z.to_nat len)) destination source len 0.

(** Running [dest] over the string and back by one: the address of its
    terminator. *)
Fixpoint str_end (fuel : nat) (dest : Z) : cmd mem Z :=
  match fuel with
  | O => hang
  | S fuel' =>
      c <- peek dest ;;
      if negb (c =? 0) then str_end fuel' (dest + 1) else ret dest
  end.
Fixpoint strcat_loop (fuel : nat) (dest string : Z) : cmd mem Z :=
  match fuel with
  | O => hang
  | S fuel' =>
      c <- peek string ;;
      poke dest c ;;;
      if negb (c =? 0) then strcat_loop fuel' (dest + 1) (string + 1) else ret (dest + 1)
  end.
Definition strcat (dest string : Z) : cmd mem Z :=
  fuel <- gets str_fuel ;;
  dest <- str_end fuel dest ;;
  strcat_loop fuel dest string.

Fixpoint strchr_loop (fuel : nat) (string character : Z) : cmd mem Z :=
  match fuel with
  | O => hang
  | S fuel' =>
      c <- peek string ;;
      if negb (c =? character) then
        if c =? 0 then ret 0 else strchr_loop fuel' (string + 1) character
      else ret string
  end.
Definition strchr (string character : Z) : cmd mem Z :=
  fuel <- gets str_fuel ;; strchr_loop fuel string character.

Fixpoint strrchr_loop (fuel : nat) (string character r : Z) : cmd mem Z :=
  match fuel with
  | O => hang
  | S fuel' =>
      c <- peek string ;;
      let r := if c =? character then string else r in
      if negb (c =? 0) then strrchr_loop fuel' (string + 1) character r else ret r
  end.
Definition strrchr (string character : Z) : cmd mem Z :=
  fuel <- gets str_fuel ;; strrchr_loop fuel string character 0.

Fixpoint strcspn_loop (fuel : nat) (string1 string2 len : Z) : cmd mem Z :=
  match fuel with
  | O => hang
  | S fuel' =>
      c <- peek string1 ;;
      if negb (c =? 0) then
        temp <- strchr string2 c ;;
        if negb (temp =? 0) then ret len else strcspn_loop fuel' (string1 + 1) string2 (len + 1)
      else ret len
  end.
Definition strcspn (string1 string2 : Z) : cmd mem Z :=
  fuel <- gets str_fuel ;; strcspn_loop fuel string1 string2 0.

Fixpoint strspn_loop (fuel : nat) (string1 string2 len : Z) : cmd mem Z :=
  match fuel with
  | O => hang
  | S fuel' =>
      c <- peek string1 ;;
      if negb (c =? 0) then
        temp <- strchr string2 c ;;
        if negb (temp =? 0) then strspn_loop fuel' (string1 + 1) string2 (len + 1) else ret len
      else ret len
  end.
Definition strspn (string1 string2 : Z) : cmd mem Z :=
  fuel <- gets str_fuel ;; strspn_loop fuel string1 string2 0.

(** [strtok] and its static variable. *)
Record tok_state := TokState { tok_mem : mem; stored_string : Z }.

Definition on_mem {A} (c : cmd mem A) : cmd tok_state A :=
  fun s => match c s.(tok_mem) with
           | Ret (a, m) => Ret (a, TokState m s.(stored_string))
           | Fault => Fault
           | Hang => Hang
           end.

(** The delimiter-skipping loop: [None] at the end of the string, otherwise the
    address after the first other character. *)
Fixpoint skip_delims (fuel : nat) (string delimiters : Z) : cmd mem (option Z) :=
  match fuel with
  | O => hang
  | S fuel' =>
      character <- peek string ;;
      let string := string + 1 in
      if character =? 0 then ret None
      else
        d <- strchr delimiters character ;;
        if negb (d =? 0) then skip_delims fuel' string delimiters else ret (Some string)
  end.

Definition strtok (string delimiters : Z) : cmd tok_state Z :=
  stored <- gets stored_string ;;
  let string := if string =? 0 then stored else string in
  fuel <- gets (fun s => str_fuel s.(tok_mem)) ;;
  r <- on_mem (skip_delims fuel string delimiters) ;;
  match r with
  | None => ret 0
  | Some string =>
      let string := string - 1 in
      n <- on_mem (strcspn string delimiters) ;;
      modify (fun s => TokState s.(tok_mem) (string + n)) ;;;
      c <- on_mem (peek (string + n)) ;;
      (if negb (c =? 0) then
         on_mem (poke (string + n) 0) ;;;
         modify (fun s => TokState s.(tok_mem) (string + n + 1))
       else ret tt) ;;;
      ret string
  end.

Fixpoint atoi_loop (fuel : nat) (str acum : Z) : cmd mem Z :=
  match fuel with
  | O => hang
  | S fuel' =>
      c <- peek str ;;
      if (48 <=? schar c) && (schar c <=? 57) then
        let acum := i32 (acum * 10) in
        let acum := i32 (acum + (schar c - 48)) in
        atoi_loop fuel' (str + 1) acum
      else ret acum
  end.
Definition atoi (str : Z) : cmd mem Z :=
  fuel <- gets str_fuel ;;
  c <- peek str ;;
  if c =? 45 then
    acum <- atoi_loop fuel (str + 1) 0 ;; ret (i32 (-1 * acum))
  else
    acum <- atoi_loop fuel str 0 ;; ret (i32 (1 * acum)).

(** [strstr]: [adv] first runs over the needle. *)
Fixpoint adv_loop (fuel : nat) (oper2 adv : Z) : cmd mem Z :=
  match fuel with
  | O => hang
  | S fuel' =>
      c <- peek (oper2 + 1) ;;
      if negb (c =? 0) then adv_loop fuel' (oper2 + 1) (adv + 1) else ret adv
  end.
Fixpoint match_loop (fuel : nat) (oper1 oper2 : Z) : cmd mem Z :=
  match fuel with
  | O => hang
  | S fuel' =>
      a <- peek oper1 ;;
      b <- peek oper2 ;;
      if negb (a =? 0) && negb (b =? 0) && (a =? b) then match_loop fuel' (oper1 + 1) (oper2 + 1)
      else ret oper2
  end.
Fixpoint strstr_loop (fuel : nat) (needle oper1 adv : Z) : cmd mem Z :=
  match fuel with
  | O => hang
  | S fuel' =>
      c <- peek adv ;;
      if negb (c =? 0) then
        let oper1s := oper1 in
        inner <- gets str_fuel ;;
        oper2 <- match_loop inner oper1 needle ;;
        e <- peek oper2 ;;
        if e =? 0 then ret oper1s
        else strstr_loop fuel' needle (oper1s + 1) (adv + 1)
      else ret 0
  end.
Definition strstr (haystack needle : Z) : cmd mem Z :=
  if (haystack =? 0) || (needle =? 0) then ret 0
  else
    h0 <- peek haystack ;;
    n0 <- peek needle ;;
    if (h0 =? 0) || (n0 =? 0) then ret 0
    else
      fuel <- gets str_fuel ;;
      adv <- adv_loop fuel needle haystack ;;
      strstr_loop fuel needle haystack adv.

(** * Strings in memory *)

Fixpoint cstr (m : mem) (p : Z) (l : list Z) : Prop :=
  match l with
  | [] => rd8 m p = 0
  | c :: l' => rd8 m p = c /\ c <> 0 /\ cstr m (p + 1) l'
  end.

Lemma rd8_nonzero_dom m p : rd8 m p <> 0 -> p ∈ dom m.
Proof.
  intros H. apply elem_of_dom. unfold rd8 in H. destruct (m !! p); [by eexists|done].
Qed.

Fixpoint addrs (p : Z) (n : nat) : list Z :=
  match n with O => [] | S n' => p :: addrs (p + 1) n' end.

Lemma addrs_range p n x : x ∈ addrs p n -> p <= x < p + Z.of_nat n.
Proof.
  revert p. induction n as [|n IH]; intros p; cbn [addrs]; intros Hin.
  - by apply not_elem_of_nil in Hin.
  - apply elem_of_cons in Hin as [->|Hin]; [lia|]. apply IH in Hin. lia.
Qed.

Lemma cstr_size m p l : cstr m p l -> (length l <= size m)%nat.
Proof.
  intros H. assert (Hin : forall x, x ∈ addrs p (length l) -> x ∈ dom m).
  { revert p H. induction l as [|c l IH]; intros p H x; cbn [addrs length]; intros Hx.
    - by apply not_elem_of_nil in Hx.
    - destruct H as (Hc & Hz & Hl). apply elem_of_cons in Hx as [->|Hx]; [|by eapply IH].
      apply rd8_nonzero_dom. congruence. }
  assert (Hnd : NoDup (addrs p (length l))).
  { clear. revert p. induction l as [|c l IH]; intros p; cbn; constructor; [|done].
    intros Hin%addrs_range. lia. }
  assert (Hlen : length (addrs p (length l)) = length l).
  { clear. revert p. induction l as [|c l IH]; intros p; cbn; [done|by rewrite IH]. }
  rewrite <- Hlen, <- (size_list_to_set (C := gset Z)) by done. rewrite <- size_dom.
  apply subseteq_size. intros x Hx%elem_of_list_to_set. by apply Hin.
Qed.

Lemma cstr_ext m m' p l :
  (forall x, p <= x <= p + Z.of_nat (length l) -> rd8 m' x = rd8 m x) -> cstr m p l -> cstr m' p l.
Proof.
  revert p. induction l as [|c l IH]; intros p Hx; cbn [cstr length] in *.
  - by rewrite Hx by lia.
  - rewrite Hx by lia. intros (? & ? & ?). split_and!; try done. apply IH; [|done].
    intros. apply Hx. lia.
Qed.

Lemma cstr_app m p l1 l2 : cstr m p (l1 ++ l2) -> cstr m (p + Z.of_nat (length l1)) l2.
Proof.
  revert p. induction l1 as [|c l1 IH]; intros p; cbn [app length]; [by rewrite Z.add_0_r|].
  intros (_ & _ & H). apply IH in H. by replace (p + Z.of_nat (S (length l1)))
    with (p + 1 + Z.of_nat (length l1)) by lia.
Qed.

(** Cutting a string short by writing 0 over one of its characters. *)
Lemma cstr_cut m p l1 c l2 :
  cstr m p (l1 ++ c :: l2) -> cstr (wr8 m (p + Z.of_nat (length l1)) 0) p l1.
Proof.
  revert p. induction l1 as [|d l1 IH]; intros p; cbn [app length cstr].
  - intros _. by rewrite Z.add_0_r, rd8_wr8_same.
  - intros (H1 & H2 & H). rewrite rd8_wr8_ne by lia. split_and!; try done.
    replace (p + Z.of_nat (S (length l1))) with (p + 1 + Z.of_nat (length l1)) by lia. by apply IH.
Qed.

Lemma cstr_range m p l c : cstr m p l -> c ∈ l -> 0 < c < 256.
Proof.
  revert p. induction l as [|d l IH]; intros p H Hin; [by apply not_elem_of_nil in Hin|].
  destruct H as (H1 & H2 & H). apply elem_of_cons in Hin as [->|Hin]; [|by eapply IH].
  pose proof (rd8_range m p). lia.
Qed.

(** * What the functions compute *)

Ltac ret_lia := apply f_equal, pair_equal_spec; split; [cbn [length]; lia|reflexivity].
Ltac str_fuel_tac :=
  match goal with
  | |- (_ < str_fuel ?m)%nat => unfold str_fuel; apply Nat.lt_succ_r; eapply cstr_size; eassumption
  end.

Lemma strlen_loop_spec fuel m p l i :
  cstr m (p + i) l -> (length l < fuel)%nat ->
  strlen_loop fuel p i m = Ret (i + Z.of_nat (length l), m).
Proof.
  revert fuel i. induction l as [|c l IH]; intros fuel i H Hf;
    (destruct fuel as [|fuel]; [cbn in Hf; lia|]); cbn [strlen_loop]; unfold bind, peek, gets.
  - cbn in H. rewrite H. cbn. unfold ret. ret_lia.
  - destruct H as (-> & Hc & H). destruct (Z.eqb_spec c 0); [done|]. cbn [negb].
    rewrite IH; [ret_lia| |cbn in Hf |- *; lia].
    by replace (p + (i + 1)) with (p + i + 1) by lia.
Qed.

Lemma strlen_spec m p l : cstr m p l -> strlen p m = Ret (Z.of_nat (length l), m).
Proof.
  intros H. unfold strlen, bind, gets. apply (strlen_loop_spec _ _ _ _ 0); [by rewrite Z.add_0_r|].
  str_fuel_tac.
Qed.

Lemma schar_inj a b : 0 <= a < 256 -> 0 <= b < 256 -> schar a = schar b -> a = b.
Proof. unfold schar. destruct (Z.ltb_spec a 128), (Z.ltb_spec b 128); lia. Qed.

Lemma strcmp_loop_spec fuel m p1 l1 p2 l2 :
  cstr m p1 l1 -> cstr m p2 l2 -> (length l1 < fuel)%nat ->
  strcmp_loop fuel p1 p2 m = Ret ((if decide (l1 = l2) then 0 else 1), m).
Proof.
  revert fuel p1 p2 l2. induction l1 as [|a l1 IH]; intros fuel p1 p2 l2 H1 H2 Hf;
    (destruct fuel as [|fuel]; [cbn in Hf; lia|]); cbn [strcmp_loop]; unfold bind, peek, gets.
  - cbn in H1. rewrite H1. destruct l2 as [|b l2]; cbn in H2.
    + rewrite H2. cbn. by rewrite decide_True.
    + destruct H2 as (Hb & Hz & _). pose proof (rd8_range m p2). rewrite Hb in *.
      destruct (Z.eqb_spec b 0); [done|]. cbn [Z.eqb negb orb].
      assert ((schar b <? schar 0) || (schar 0 <? schar b) = true) as ->.
      { apply orb_true_iff. rewrite !Z.ltb_lt. assert (schar b <> schar 0); [|lia].
        intros He. apply schar_inj in He; [done|lia|lia]. }
      by rewrite decide_False.
  - destruct H1 as (Ha & Hz & H1). pose proof (rd8_range m p1). rewrite Ha in *.
    destruct (Z.eqb_spec a 0); [done|]. cbn [negb orb].
    assert (Hne : forall b, 0 <= b < 256 -> a <> b -> (schar b <? schar a) || (schar a <? schar b) = true).
    { intros b Hb Hab. apply orb_true_iff. rewrite !Z.ltb_lt. assert (schar a <> schar b); [|lia].
      intros He. by apply schar_inj in He. }
    destruct l2 as [|b l2].
    + cbn in H2. rewrite H2. rewrite Hne by (done || lia). by rewrite decide_False.
    + destruct H2 as (Hb & Hzb & H2). pose proof (rd8_range m p2). rewrite Hb in *.
      destruct (decide (a = b)) as [->|Hab].
      * rewrite Z.ltb_irrefl. cbn [orb]. rewrite (IH _ _ _ l2); try done; [|cbn in Hf; lia].
        repeat case_decide; congruence.
      * rewrite Hne by done. rewrite decide_False by congruence. done.
Qed.

Lemma strcmp_spec m p1 l1 p2 l2 :
  cstr m p1 l1 -> cstr m p2 l2 ->
  strcmp p1 p2 m = Ret ((if decide (l1 = l2) then 0 else 1), m).
Proof. intros H1 H2. unfold strcmp, bind, gets. eapply strcmp_loop_spec; try done. str_fuel_tac. Qed.

(** Position of the first occurrence. *)
Fixpoint index_of (c : Z) (l : list Z) : option nat :=
  match l with
  | [] => None
  | d :: l' => if d =? c then Some O else S <$> index_of c l'
  end.

Lemma strchr_loop_spec fuel m p l c :
  cstr m p l -> (length l < fuel)%nat -> c <> 0 ->
  strchr_loop fuel p c m =
  Ret (match index_of c l with Some i => p + Z.of_nat i | None => 0 end, m).
Proof.
  revert fuel p. induction l as [|d l IH]; intros fuel p H Hf Hc;
    (destruct fuel as [|fuel]; [cbn in Hf; lia|]); cbn [strchr_loop index_of]; unfold bind, peek, gets.
  - cbn in H. rewrite H. destruct (Z.eqb_spec 0 c); [congruence|]. done.
  - destruct H as (-> & Hd & H). destruct (Z.eqb_spec d c) as [->|Hdc]; cbn [negb].
    + by rewrite Z.add_0_r.
    + destruct (Z.eqb_spec d 0); [done|]. rewrite IH by (done || cbn in Hf; lia).
      destruct (index_of c l); cbn; [ret_lia|done].
Qed.

Lemma strchr_spec m p l c :
  cstr m p l -> c <> 0 ->
  strchr p c m = Ret (match index_of c l with Some i => p + Z.of_nat i | None => 0 end, m).
Proof. intros H Hc. unfold strchr, bind, gets. apply strchr_loop_spec; try done. str_fuel_tac. Qed.

(** As a test: is the character one of the string's? *)
Definition in_str (l : list Z) (c : Z) : bool := bool_decide (c ∈ l).

Lemma index_of_in c l : index_of c l = None <-> c ∉ l.
Proof.
  induction l as [|d l IH]; cbn; [split; [intros _; apply not_elem_of_nil|done]|].
  rewrite not_elem_of_cons. destruct (Z.eqb_spec d c) as [->|].
  - split; [done|]. by intros [? _].
  - rewrite fmap_None, IH. split; [intros; split; [congruence|done]|by intros [_ ?]].
Qed.

Lemma strchr_test m p l c :
  cstr m p l -> c <> 0 -> 0 < p ->
  exists r, strchr p c m = Ret (r, m) /\ negb (r =? 0) = in_str l c.
Proof.
  intros H Hc Hp. rewrite (strchr_spec m p l c H Hc). eexists. split; [done|]. unfold in_str.
  destruct (index_of c l) as [i|] eqn:Hi.
  - rewrite bool_decide_true; [destruct (Z.eqb_spec (p + Z.of_nat i) 0); [lia|done]|].
    destruct (decide (c ∈ l)) as [|Hn]; [done|]. apply index_of_in in Hn. congruence.
  - rewrite bool_decide_false; [done|]. by apply index_of_in.
Qed.

(** ** Tokens *)

Fixpoint split_while (f : Z -> bool) (l : list Z) : list Z * list Z :=
  match l with
  | [] => ([], [])
  | c :: l' => if f c then let '(a, b) := split_while f l' in (c :: a, b) else ([], l)
  end.

Lemma split_while_app f l : (split_while f l).1 ++ (split_while f l).2 = l.
Proof.
  induction l as [|c l IH]; cbn; [done|]. destruct (f c); [|done].
  destruct (split_while f l). cbn in *. by rewrite IH.
Qed.

Lemma split_while_all f l : Forall (fun c => f c = true) (split_while f l).1.
Proof.
  induction l as [|c l IH]; cbn; [constructor|]. destruct (f c) eqn:Hc; [|constructor].
  destruct (split_while f l). cbn in *. by constructor.
Qed.

Lemma split_while_stop f l c l' : (split_while f l).2 = c :: l' -> f c = false.
Proof.
  induction l as [|d l IH]; cbn; [done|]. destruct (f d) eqn:Hd.
  - destruct (split_while f l) as [a b]. cbn in *. exact IH.
  - cbn. intros. by simplify_eq.
Qed.

Lemma skip_delims_spec fuel m p l d ds :
  cstr m p l -> cstr m d ds -> 0 < d -> (length l < fuel)%nat ->
  skip_delims fuel p d m =
  Ret (match (split_while (in_str ds) l).2 with
       | [] => None
       | _ => Some (p + Z.of_nat (length (split_while (in_str ds) l).1) + 1)
       end, m).
Proof.
  intros H Hd H0. revert fuel p H. induction l as [|c l IH]; intros fuel p H Hf;
    (destruct fuel as [|fuel]; [cbn in Hf; lia|]); cbn [skip_delims split_while];
    unfold bind, peek, gets.
  - cbn in H. by rewrite H.
  - destruct H as (-> & Hc & H). destruct (Z.eqb_spec c 0); [done|].
    destruct (strchr_test m d ds c Hd Hc H0) as (r & -> & ->).
    destruct (in_str ds c).
    + rewrite IH by (done || cbn in Hf; lia). destruct (split_while (in_str ds) l) as [a b]. cbn.
      destruct b; [done|]. do 2 f_equal. f_equal. lia.
    + cbn. by rewrite Z.add_0_r.
Qed.

Lemma strcspn_loop_spec fuel m p l d ds n :
  cstr m p l -> cstr m d ds -> 0 < d -> (length l < fuel)%nat ->
  strcspn_loop fuel p d n m =
  Ret (n + Z.of_nat (length (split_while (fun c => negb (in_str ds c)) l).1), m).
Proof.
  intros H Hd H0. revert fuel p n H. induction l as [|c l IH]; intros fuel p n H Hf;
    (destruct fuel as [|fuel]; [cbn in Hf; lia|]); cbn [strcspn_loop split_while];
    unfold bind, peek, gets.
  - cbn in H. rewrite H. cbn. by rewrite Z.add_0_r.
  - destruct H as (-> & Hc & H). destruct (Z.eqb_spec c 0); [done|]. cbn [negb].
    destruct (strchr_test m d ds c Hd Hc H0) as (r & -> & ->).
    destruct (in_str ds c); cbn [negb].
    + cbn. by rewrite Z.add_0_r.
    + rewrite IH by (done || cbn in Hf; lia).
      destruct (split_while (fun c => negb (in_str ds c)) l) as [a b]. cbn. ret_lia.
Qed.

Lemma strcspn_spec m p l d ds :
  cstr m p l -> cstr m d ds -> 0 < d ->
  strcspn p d m = Ret (Z.of_nat (length (split_while (fun c => negb (in_str ds c)) l).1), m).
Proof.
  intros H Hd H0. unfold strcspn, bind, gets. rewrite (strcspn_loop_spec _ m p l d ds 0); try done.
  str_fuel_tac.
Qed.

Section strtok_proof.
Context (d : Z) (ds : list Z).

Definition skipped (l : list Z) := (split_while (in_str ds) l).1.
Definition after_skip (l : list Z) := (split_while (in_str ds) l).2.
Definition first_token (l : list Z) := (split_while (fun c => negb (in_str ds c)) (after_skip l)).1.
Definition after_token (l : list Z) := (split_while (fun c => negb (in_str ds c)) (after_skip l)).2.

Lemma strtok_parts l : l = skipped l ++ first_token l ++ after_token l.
Proof.
  unfold first_token, after_token. rewrite split_while_app. unfold skipped, after_skip.
  by rewrite split_while_app.
Qed.

(** One call, on the string [l] at [q] (the argument, or the saved position
    when the argument is NULL). *)
Lemma strtok_spec m st p l :
  let q := if p =? 0 then st else p in
  let a := q + Z.of_nat (length (skipped l)) in
  let e := a + Z.of_nat (length (first_token l)) in
  cstr m q l -> cstr m d ds -> 0 < d ->
  strtok p d (TokState m st) =
  match after_skip l with
  | [] => Ret (0, TokState m st)
  | _ => match after_token l with
         | [] => Ret (a, TokState m e)
         | _ => Ret (a, TokState (wr8 m e 0) (e + 1))
         end
  end.
Proof.
  intros q a e Hl Hd H0. unfold strtok, bind at 1 2, gets. fold q. cbn [tok_mem stored_string].
  unfold bind at 1, on_mem at 1. cbn [tok_mem].
  rewrite (skip_delims_spec _ m q l d ds) by (done || str_fuel_tac).
  fold (skipped l) (after_skip l). destruct (after_skip l) as [|c r] eqn:Hr; [done|].
  fold a. unfold bind at 1, on_mem at 1. cbn [tok_mem stored_string].
  replace (a + 1 - 1) with a by lia.
  assert (Hrest : cstr m a (after_skip l)).
  { unfold a. apply cstr_app. unfold skipped, after_skip. by rewrite split_while_app. }
  rewrite (strcspn_spec m a (after_skip l) d ds) by done. fold (first_token l). fold e.
  unfold bind, modify, on_mem, peek, poke, gets. cbn [tok_mem stored_string].
  assert (Hend : cstr m e (after_token l)).
  { unfold e. apply cstr_app. unfold first_token, after_token. by rewrite split_while_app. }
  destruct (after_token l) as [|c' r']; cbn in Hend.
  - rewrite Hend. done.
  - destruct Hend as (-> & Hc & _). destruct (Z.eqb_spec c' 0); done.
Qed.

(** The tokens of a string: maximal runs of characters outside [ds]. *)
Fixpoint toks (acc l : list Z) : list (list Z) :=
  match l with
  | [] => match acc with [] => [] | _ => [rev acc] end
  | c :: l' =>
      if in_str ds c then match acc with [] => toks [] l' | _ => rev acc :: toks [] l' end
      else toks (c :: acc) l'
  end.
Definition tokens (l : list Z) : list (list Z) := toks [] l.

Lemma toks_skip pre l : Forall (fun c => in_str ds c = true) pre -> toks [] (pre ++ l) = toks [] l.
Proof. induction 1 as [|c pre Hc _ IH]; cbn; [done|]. by rewrite Hc. Qed.

Lemma toks_run t acc l :
  Forall (fun c => negb (in_str ds c) = true) t -> toks acc (t ++ l) = toks (rev t ++ acc) l.
Proof.
  intros Ht. revert acc. induction Ht as [|c t Hc _ IH]; intros acc; cbn; [done|].
  apply negb_true_iff in Hc. rewrite Hc, IH. by rewrite <- app_assoc.
Qed.

Lemma tokens_step l :
  tokens l = match after_skip l with
             | [] => []
             | _ => first_token l :: tokens (tl (after_token l))
             end.
Proof.
  unfold tokens. rewrite (strtok_parts l) at 1.
  rewrite toks_skip by apply split_while_all.
  destruct (after_skip l) as [|c r] eqn:Hr.
  - unfold first_token, after_token. rewrite Hr. done.
  - rewrite toks_run by apply split_while_all. rewrite app_nil_r.
    assert (Hne : first_token l <> []).
    { unfold first_token. rewrite Hr. cbn. apply split_while_stop in Hr. rewrite Hr. cbn.
      by destruct (split_while _ r). }
    assert (Hrev : rev (first_token l) <> []).
    { intros E. apply Hne. apply (f_equal (@rev Z)) in E. by rewrite rev_involutive in E. }
    destruct (after_token l) as [|c' r'] eqn:Ha; cbn.
    + destruct (rev (first_token l)) eqn:E; [done|]. by rewrite <- E, rev_involutive.
    + apply split_while_stop in Ha. apply negb_false_iff in Ha. rewrite Ha.
      destruct (rev (first_token l)) eqn:E; [done|]. by rewrite <- E, rev_involutive.
Qed.

(** The usual loop: [strtok(s, d)], then [strtok(NULL, d)] until it is NULL. *)
Fixpoint strtok_all (fuel : nat) (p : Z) : cmd tok_state (list Z) :=
  match fuel with
  | O => hang
  | S fuel' =>
      t <- strtok p d ;;
      if t =? 0 then ret [] else ts <- strtok_all fuel' 0 ;; ret (t :: ts)
  end.

Lemma strtok_all_spec fuel m st p l :
  let q := if p =? 0 then st else p in
  cstr m q l -> cstr m d ds -> 0 < d -> 0 < q ->
  q + Z.of_nat (length l) < d \/ d + Z.of_nat (length ds) < q ->
  (length l < fuel)%nat ->
  wp (strtok_all fuel p) (fun ps s' =>
    Forall2 (cstr s'.(tok_mem)) ps (tokens l) /\
    forall x, x < q \/ q + Z.of_nat (length l) < x -> rd8 s'.(tok_mem) x = rd8 m x) (TokState m st).
Proof.
  revert m st p l. induction fuel as [|fuel IH]; intros m st p l q Hl Hd H0 Hq Hsep Hf; [lia|].
  cbn [strtok_all]. unfold wp, bind at 1. rewrite (strtok_spec m st p l) by done. fold q.
  rewrite tokens_step. destruct (after_skip l) as [|c r] eqn:Hr.
  { cbn. split; [constructor|done]. }
  set (a := q + Z.of_nat (length (skipped l))). set (e := a + Z.of_nat (length (first_token l))).
  assert (Hlen : (length l = length (skipped l) + length (first_token l) + length (after_token l))%nat).
  { rewrite (strtok_parts l) at 1. rewrite !length_app. lia. }
  assert (Hrest : cstr m a (first_token l ++ after_token l)).
  { unfold a. apply cstr_app. by rewrite <- strtok_parts. }
  destruct (after_token l) as [|c' r'] eqn:Ha.
  - destruct (Z.eqb_spec a 0); [lia|]. unfold bind at 1.
    assert (He : cstr m e []).
    { apply cstr_app in Hrest. exact Hrest. }
    destruct fuel as [|fuel]; [cbn in Hlen; rewrite Hlen in Hf|].
    { exfalso. assert (first_token l <> []); [|destruct (first_token l); cbn in *; done || lia].
      unfold first_token. rewrite Hr. cbn. apply split_while_stop in Hr. rewrite Hr. cbn.
      by destruct (split_while _ r). }
    cbn [strtok_all]. unfold bind at 1. rewrite (strtok_spec m e 0 []) by done. cbn.
    split; [|done]. constructor; [|constructor]. by rewrite app_nil_r in Hrest.
  - destruct (Z.eqb_spec a 0); [lia|]. cbn [tl]. cbn [length] in Hlen.
    assert (Hnext : cstr (wr8 m e 0) (e + 1) r').
    { apply cstr_app in Hrest. destruct Hrest as (_ & _ & Hrest).
      eapply cstr_ext; [|exact Hrest]. intros x Hx. apply rd8_wr8_ne. unfold e in *. lia. }
    assert (Hd' : cstr (wr8 m e 0) d ds).
    { eapply cstr_ext; [|exact Hd]. intros x Hx. apply rd8_wr8_ne. unfold e, a. lia. }
    unfold bind at 1.
    destruct (wp_inv _ _ _ (IH (wr8 m e 0) (e + 1) 0 r' Hnext Hd' H0 ltac:(unfold e, a; cbn; lia)
      ltac:(unfold e, a; cbn; lia) ltac:(lia))) as (ps & s' & -> & Hps & Hout).
    cbn [Z.eqb] in Hout. cbn. split.
    + constructor; [|exact Hps]. eapply cstr_ext; [|by eapply (cstr_cut m a (first_token l) c' r')].
      intros x Hx. apply Hout. unfold e. lia.
    + intros x Hx. rewrite Hout by (unfold e, a; lia). apply rd8_wr8_ne. unfold e, a. lia.
Qed.
End strtok_proof.

(** The [strtok] loop splits a string into its tokens: calling it on a
    string and then on NULL until NULL comes back terminates and yields, in
    order, pointers to strings that are exactly the maximal runs of
    non-delimiter characters, and no byte outside the string changes. *)
Theorem strtok_tokenizes m st p l d ds :
  cstr m p l -> cstr m d ds -> 0 < d -> 0 < p ->
  p + Z.of_nat (length l) < d \/ d + Z.of_nat (length ds) < p ->
  wp (strtok_all d (S (length l)) p) (fun ps s' =>
    Forall2 (cstr s'.(tok_mem)) ps (tokens ds l) /\
    forall x, x < p \/ p + Z.of_nat (length l) < x -> rd8 s'.(tok_mem) x = rd8 m x) (TokState m st).
Proof.
  intros Hl Hd H0 Hp Hsep.
  pose proof (strtok_all_spec d ds (S (length l)) m st p l) as Hspec. cbn zeta in Hspec.
  destruct (Z.eqb_spec p 0); [lia|]. apply Hspec; done || lia.
Qed.

(** "/usr//bin" at 100 and "/" at 200. *)
Fixpoint put_str (m : mem) (p : Z) (l : list Z) : mem :=
  match l with [] => wr8 m p 0 | c :: l' => put_str (wr8 m p c) (p + 1) l' end.
Definition demo_path : list Z := [47; 117; 115; 114; 47; 47; 98; 105; 110].
Definition demo_str : mem := put_str (put_str ∅ 100 demo_path) 200 [47].

Lemma strtok_tokenizes_witness :
  tokens [47] demo_path = [[117; 115; 114]; [98; 105; 110]] /\
  wp (strtok_all 200 10 100) (fun ps s' =>
    Forall2 (cstr s'.(tok_mem)) ps (tokens [47] demo_path) /\
    forall x, x < 100 \/ 100 + 9 < x -> rd8 s'.(tok_mem) x = rd8 demo_str x) (TokState demo_str 0).
Proof.
  split; [by vm_compute|]. apply (strtok_tokenizes demo_str 0 100 demo_path 200 [47]).
  - by vm_compute.
  - by vm_compute.
  - lia.
  - lia.
  - left. by vm_compute.
Defined.

Lemma strncpy_loop_spec fuel m0 dst src l len i m :
  cstr m0 (src + i) l -> 0 <= i <= len -> len - i < Z.of_nat (length l) ->
  (forall x, src + i <= x <= src + len -> rd8 m x = rd8 m0 x) ->
  dst + len < src \/ src + len < dst -> Z.of_nat fuel = len - i + 1 ->
  exists m', strncpy_loop fuel dst src len i m = Ret (tt, m') /\
    (forall k, i <= k <= len -> rd8 m' (dst + k) = rd8 m0 (src + k)) /\
    (forall x, x < dst + i \/ dst + len < x -> rd8 m' x = rd8 m x).
Proof.
  revert l i m. induction fuel as [|fuel IH]; intros l i m Hl Hi Hlen Hsrc Hsep Hf; [lia|].
  destruct l as [|c l]; [cbn in Hlen; lia|]. destruct Hl as (Hc & Hz & Hl).
  cbn [strncpy_loop]. unfold bind, peek, poke, gets, modify.
  rewrite Hsrc, Hc by lia. destruct (Z.eqb_spec c 0); [done|]. cbn [negb andb].
  assert (Hc8 : u8 c = c) by (apply u8_small; rewrite <- Hc; apply rd8_range).
  destruct (Z.ltb_spec i len).
  - destruct (IH l (i + 1) (wr8 m (dst + i) c)) as (m' & -> & Hin & Hout); try lia.
    + by replace (src + (i + 1)) with (src + i + 1) by lia.
    + cbn [length] in Hlen. lia.
    + intros x Hx. rewrite rd8_wr8_ne by lia. apply Hsrc. lia.
    + exists m'. split; [done|]. split.
      * intros k Hk. destruct (decide (k = i)) as [->|]; [|apply Hin; lia].
        rewrite Hout by lia. rewrite rd8_wr8_same. congruence.
      * intros x Hx. rewrite Hout by lia. apply rd8_wr8_ne. lia.
  - exists (wr8 m (dst + i) c). split; [done|]. split.
    + intros k Hk. replace k with i by lia. rewrite rd8_wr8_same. congruence.
    + intros x Hx. apply rd8_wr8_ne. lia.
Qed.

(** [strncpy] copies one character more than asked: on a source longer than
    [len] it writes [len + 1] bytes, the last of them not a terminator. *)
Theorem strncpy_overruns m dst src l len :
  cstr m src l -> 0 <= len < Z.of_nat (length l) -> dst + len < src \/ src + len < dst ->
  exists m', strncpy dst src len m = Ret (tt, m') /\
    (forall k, 0 <= k <= len -> rd8 m' (dst + k) = rd8 m (src + k)) /\
    rd8 m' (dst + len) <> 0 /\
    (forall x, x < dst \/ dst + len < x -> rd8 m' x = rd8 m x).
Proof.
  intros Hl Hlen Hsep. unfold strncpy.
  destruct (strncpy_loop_spec (S (Z.to_nat len)) m dst src l len 0 m) as (m' & -> & Hin & Hout);
    try lia; try done; [by rewrite Z.add_0_r|].
  exists m'. split_and!; [done| | |].
  - intros k Hk. by apply Hin.
  - rewrite Hin by lia. destruct (lookup_lt_is_Some_2 l (Z.to_nat len)) as [c Hc]; [lia|].
    rewrite <- (take_drop_middle _ _ _ Hc) in Hl. apply cstr_app in Hl.
    rewrite length_take, Nat.min_l in Hl by lia. destruct Hl as (Hr & Hz & _).
    rewrite Z2Nat.id in Hr by lia. congruence.
  - intros x Hx. apply Hout. lia.
Qed.

Lemma strncpy_overruns_witness :
  exists m', strncpy 300 100 3 demo_str = Ret (tt, m') /\
    (forall k, 0 <= k <= 3 -> rd8 m' (300 + k) = rd8 demo_str (100 + k)) /\
    rd8 m' (300 + 3) <> 0 /\
    (forall x, x < 300 \/ 300 + 3 < x -> rd8 m' x = rd8 demo_str x).
Proof.
  apply (strncpy_overruns demo_str 300 100 demo_path 3); [by vm_compute|by vm_compute|lia].
Defined.

(** [strstr] can search past the end of the haystack: for a needle longer
    than the haystack the advance pointer starts beyond the terminator, and the
    function returns a match that lies outside the string ("a" searched for
    "abc", with "abc" stored right behind it). *)
Theorem strstr_reads_past_end :
  let m := put_str (put_str (put_str ∅ 100 [97]) 102 [97; 98; 99]) 200 [97; 98; 99] in
  cstr m 100 [97] /\ cstr m 200 [97; 98; 99] /\ exists m', strstr 100 200 m = Ret (102, m').
Proof. split_and!; [by vm_compute|by vm_compute|]. eexists. by vm_compute. Qed.

(** ** Last occurrence, prefixes, one-character needles *)

Lemma strrchr_loop_none fuel m p l c r :
  cstr m p l -> (length l < fuel)%nat -> c <> 0 -> c ∉ l -> strrchr_loop fuel p c r m = Ret (r, m).
Proof.
  revert fuel p. induction l as [|d l IH]; intros fuel p H Hf Hc Hin;
    (destruct fuel as [|fuel]; [cbn in Hf; lia|]); cbn [strrchr_loop]; unfold bind, peek, gets.
  - cbn in H. rewrite H. destruct (Z.eqb_spec 0 c); [congruence|]. done.
  - apply not_elem_of_cons in Hin as [Hcd Hin]. destruct H as (-> & Hd & H).
    destruct (Z.eqb_spec d c); [congruence|]. destruct (Z.eqb_spec d 0); [done|]. cbn [negb].
    apply IH; try done. cbn in Hf. lia.
Qed.

Lemma strrchr_loop_spec fuel m p l1 c l2 r :
  cstr m p (l1 ++ c :: l2) -> (length (l1 ++ c :: l2) < fuel)%nat -> c ∉ l2 ->
  strrchr_loop fuel p c r m = Ret (p + Z.of_nat (length l1), m).
Proof.
  revert fuel p r. induction l1 as [|d l1 IH]; intros fuel p r H Hf Hin;
    (destruct fuel as [|fuel]; [cbn in Hf; lia|]); cbn [strrchr_loop app] in *; unfold bind, peek, gets.
  - destruct H as (-> & Hd & H). rewrite Z.eqb_refl. destruct (Z.eqb_spec c 0); [done|]. cbn [negb].
    rewrite (strrchr_loop_none _ _ _ l2) by (done || cbn in Hf; lia). ret_lia.
  - destruct H as (-> & Hd & H). destruct (Z.eqb_spec d 0); [done|]. cbn [negb].
    rewrite IH by (done || cbn in Hf; lia). ret_lia.
Qed.

Lemma strrchr_spec m p l1 c l2 :
  cstr m p (l1 ++ c :: l2) -> c ∉ l2 -> strrchr p c m = Ret (p + Z.of_nat (length l1), m).
Proof. intros H Hc. unfold strrchr, bind, gets. eapply strrchr_loop_spec; try done. str_fuel_tac. Qed.

Lemma strncmp_loop_spec m p1 l1 p2 l2 i :
  cstr m (p1 + i) l1 -> cstr m (p2 + i) l2 ->
  exists r, strncmp_loop (length l2) p1 p2 i m = Ret (r, m) /\ (r = 0 <-> l2 `prefix_of` l1).
Proof.
  revert i l1. induction l2 as [|b l2 IH]; intros i l1 H1 H2; cbn [length strncmp_loop].
  { exists 0. split; [done|]. split; [intros _; apply prefix_nil|done]. }
  destruct H2 as (Hb & Hz & H2). unfold bind, peek, gets. rewrite Hb. destruct l1 as [|a l1].
  - cbn in H1. rewrite H1. pose proof (rd8_range m (p2 + i)). destruct (Z.ltb_spec 0 b); [|lia].
    exists (-1). split; [done|]. split; [done|]. by intros ?%prefix_nil_inv.
  - destruct H1 as (Ha & Hza & H1). rewrite Ha.
    destruct (Z.ltb_spec a b); [|destruct (Z.ltb_spec b a)].
    1,2: eexists; (split; [reflexivity|]); split; [done|]; intros ?%prefix_cons_inv_1; lia.
    assert (a = b) as -> by lia. destruct (Z.eqb_spec b 0); [done|].
    destruct (IH (i + 1) l1) as (r & -> & Hr); [by rewrite Z.add_assoc..|].
    exists r. split; [done|]. rewrite Hr. split; [by apply prefix_cons|by intros ?%prefix_cons_inv_2].
Qed.

(** Comparing as many characters as the second string has tests a prefix. *)
Lemma strncmp_spec m p1 l1 p2 l2 :
  cstr m p1 l1 -> cstr m p2 l2 ->
  exists r, strncmp p1 p2 (Z.of_nat (length l2)) m = Ret (r, m) /\ (r = 0 <-> l2 `prefix_of` l1).
Proof.
  intros H1 H2. unfold strncmp. rewrite Nat2Z.id. apply strncmp_loop_spec; by rewrite Z.add_0_r.
Qed.

(** A needle of one character that the haystack starts with. *)
Lemma strstr_first m p c l q :
  cstr m p (c :: l) -> cstr m q [c] -> 0 < p -> 0 < q -> strstr p q m = Ret (p, m).
Proof.
  intros (Hp & Hz & Hl) (Hq & _ & Hq1) Hp0 Hq0. unfold strstr.
  destruct (Z.eqb_spec p 0), (Z.eqb_spec q 0); try lia. cbn [orb]. unfold bind, peek, gets.
  rewrite Hp, Hq. destruct (Z.eqb_spec c 0); [done|]. cbn [orb]. unfold str_fuel.
  cbn in Hq1. cbn [adv_loop]. unfold bind, peek, gets. rewrite Hq1. cbn [Z.eqb negb]. unfold ret.
  cbn [strstr_loop]. unfold bind, peek, gets. rewrite Hp. destruct (Z.eqb_spec c 0); [done|]. cbn [negb].
  pose proof (cstr_size m p (c :: l)) as Hs. cbn [cstr length] in Hs. specialize (Hs ltac:(done)).
  destruct (str_fuel m) as [|f] eqn:Hf; [unfold str_fuel in Hf; lia|].
  cbn [match_loop]. unfold bind, peek, gets. rewrite Hp, Hq. destruct (Z.eqb_spec c 0); [done|].
  rewrite Z.eqb_refl. cbn [negb andb]. destruct f as [|f]; [unfold str_fuel in Hf; lia|].
  cbn [match_loop]. unfold bind, peek, gets. rewrite Hq1. cbn [Z.eqb negb andb].
  rewrite andb_false_r. cbn [andb]. unfold ret. by rewrite Hq1.
Qed.
