(* ===== verification/Kstdio.v ===== *)
(** [kernel/util/kstdio.c] (formatted output to the console and to buffers) and
    [kernel/util/logging.c] (the serial log).

    Numbers printed by the kernel are read back by [atoi] of [KString]. *)
From stdpp Require Import base numbers gmap list.
From S2P Require Import Prelude Kmem KString.

(** ** Digits *)

(** [while( (uinteg / divisor == 0) && (divisor >= 10) ) divisor /= 10;]  The
    divisor starts at 10^9, so nine rounds are enough. *)
Fixpoint shrink_divisor (n : nat) (uinteg divisor : Z) : Z :=
  match n with
  | O => divisor
  | S n' =>
      if (uinteg / divisor =? 0) && (10 <=? divisor) then shrink_divisor n' uinteg (divisor / 10)
      else divisor
  end.

(** The contents of [unsigned_string] up to its terminator. *)
Fixpoint fill_digits (n : nat) (num divisor : Z) : list Z :=
  match n with
  | O => [u8 (48 + num)]
  | S n' =>
      if 10 <=? divisor then u8 (48 + num / divisor) :: fill_digits n' (num mod divisor) (divisor / 10)
      else [u8 (48 + num)]
  end.

Definition unsigned_string (uinteg : Z) : list Z :=
  fill_digits 9 uinteg (shrink_divisor 9 uinteg 1000000000).

(** One hexadecimal digit. *)
Definition hex_char (temp : Z) : Z := if 0xA <=? temp then temp - 0xA + 65 else temp + 48.

(** ** The console *)

(** [console] and [base_init], what was written to the terminal and what was
    logged to the serial line. *)
Record kout := KOut { base_init : Z; console : Z; con_out : list Z; ser_out : list Z }.

(** [logchar] sends a carriage return after a newline; [log] adds another. *)
Definition logchar (c : Z) : cmd kout unit :=
  modify (fun s => KOut s.(base_init) s.(console) s.(con_out)
                        (s.(ser_out) ++ [c] ++ if c =? 10 then [13] else [])).
Fixpoint log_loop (string : list Z) : cmd kout unit :=
  match string with
  | [] => ret tt
  | c :: string' => logchar c ;;; (when c =? 10 do logchar 13) ;;; log_loop string'
  end.
Definition log (string : list Z) : cmd kout unit := log_loop string.

Definition kstdio_base_init : cmd kout unit :=
  modify (fun s => KOut 1 s.(console) s.(con_out) s.(ser_out)).

Section printing.
(** The node [vfs_find_node("/dev/gtty")] returns (0 when there is none), and
    what its [node_status] answers. *)
Variables (gtty gtty_status : Z).

Definition kputchar (c : Z) : cmd kout unit :=
  b <- gets base_init ;;
  if negb (b =? 0) then
    con <- gets console ;;
    (when con =? 0 do modify (fun s => KOut s.(base_init) gtty s.(con_out) s.(ser_out))) ;;;
    con <- gets console ;;
    if negb (con =? 0) && negb (gtty_status =? 0) then
      modify (fun s => KOut s.(base_init) s.(console) (s.(con_out) ++ [c]) s.(ser_out))
    else logchar c
  else logchar c.

Fixpoint kputchars (cs : list Z) : cmd kout unit :=
  match cs with [] => ret tt | c :: cs' => kputchar c ;;; kputchars cs' end.

Definition kputuint (uinteg : Z) : cmd kout unit := kputchars (unsigned_string uinteg).

Definition kputint (num : Z) : cmd kout unit :=
  if 0 <=? num then kputuint (u32 num) else kputchar 45 ;;; kputuint (u32 (- num)).

(** [for (; i > 0; i -= 4)] *)
Fixpoint kputhex_loop (n : nat) (hex i : Z) (no_ze : bool) : cmd kout unit :=
  match n with
  | O => ret tt
  | S n' =>
      let temp := Z.land (Z.shiftr hex i) 0xF in
      if (temp =? 0) && no_ze then kputhex_loop n' hex (i - 4) no_ze
      else kputchar (hex_char temp) ;;; kputhex_loop n' hex (i - 4) false
  end.
Definition kputhex (hex : Z) : cmd kout unit :=
  kputchar 48 ;;;
  kputchar 120 ;;;
  kputhex_loop 7 hex 28 true ;;;
  kputchar (hex_char (Z.land hex 0xF)).

(** [kprintf]: the format and the strings its arguments point to are read from
    memory [m]; [args] are the words [va_arg] takes. *)
Fixpoint kput_str (fuel : nat) (m : mem) (p : Z) : cmd kout unit :=
  match fuel with
  | O => hang
  | S fuel' =>
      let c := rd8 m p in
      if c =? 0 then ret tt else kputchar c ;;; kput_str fuel' m (p + 1)
  end.

Fixpoint kprintf_loop (fuel : nat) (m : mem) (string i : Z) (args : list Z) : cmd kout unit :=
  match fuel with
  | O => hang
  | S fuel' =>
      let c := rd8 m (string + i) in
      if c =? 0 then ret tt
      else if c =? 37 then
        let d := rd8 m (string + (i + 1)) in
        let next := kprintf_loop fuel' m string (i + 2) in
        if d =? 115 then
          match args with a :: args' => kput_str (str_fuel m) m a ;;; next args' | [] => fault end
        else if d =? 99 then
          match args with a :: args' => kputchar (u8 a) ;;; next args' | [] => fault end
        else if d =? 100 then
          match args with a :: args' => kputint (i32 a) ;;; next args' | [] => fault end
        else if d =? 117 then
          match args with a :: args' => kputuint (u32 a) ;;; next args' | [] => fault end
        else if d =? 120 then
          match args with a :: args' => kputhex (u32 a) ;;; next args' | [] => fault end
        else kputchar d ;;; next args
      else kputchar c ;;; kprintf_loop fuel' m string (i + 1) args
  end.
Definition kprintf (m : mem) (string : Z) (args : list Z) : cmd kout unit :=
  kprintf_loop (str_fuel m) m string 0 args.
End printing.

(** ** Buffers *)

Definition kputcharatbuf (c buffer at_ : Z) : cmd mem unit := poke (buffer + at_) c.

Fixpoint put_digits (cs : list Z) (buffer at_ c : Z) : cmd mem Z :=
  match cs with
  | [] => ret c
  | d :: cs' => kputcharatbuf d buffer at_ ;;; put_digits cs' buffer (at_ + 1) (c + 1)
  end.
Definition kputuintbufat (uinteg buffer at_ : Z) : cmd mem Z :=
  put_digits (unsigned_string uinteg) buffer at_ 0.

Definition kputintbufat (num buffer at_ : Z) : cmd mem Z :=
  if 0 <=? num then kputuintbufat (u32 num) buffer at_
  else
    kputcharatbuf 45 buffer at_ ;;;
    c <- kputuintbufat (u32 (- num)) buffer (at_ + 1) ;;
    ret (1 + c).

Fixpoint hexbuf_loop (n : nat) (hex i : Z) (no_ze : bool) (buffer at_ c : Z) : cmd mem (Z * Z) :=
  match n with
  | O => ret (at_, c)
  | S n' =>
      let temp := Z.land (Z.shiftr hex i) 0xF in
      if (temp =? 0) && no_ze then hexbuf_loop n' hex (i - 4) no_ze buffer at_ c
      else
        kputcharatbuf (hex_char temp) buffer (at_ + 1) ;;;
        hexbuf_loop n' hex (i - 4) false buffer (at_ + 1) (c + 1)
  end.
Definition kputhexbufat (hex buffer at_ : Z) : cmd mem Z :=
  poke (buffer + at_) 48 ;;;
  poke (buffer + (at_ + 1)) 120 ;;;
  ac <- hexbuf_loop 7 hex 28 true buffer (at_ + 1) 2 ;;
  let '(at_, c) := ac in
  kputcharatbuf (hex_char (Z.land hex 0xF)) buffer (at_ + 1) ;;;
  ret (c + 1).

Fixpoint put_str_at (fuel : nat) (p buffer count : Z) : cmd mem Z :=
  match fuel with
  | O => hang
  | S fuel' =>
      c <- peek p ;;
      if c =? 0 then ret count
      else kputcharatbuf c buffer count ;;; put_str_at fuel' (p + 1) buffer (count + 1)
  end.

Fixpoint ksprintf_loop (fuel : nat) (dest text i count : Z) (args : list Z) : cmd mem Z :=
  match fuel with
  | O => hang
  | S fuel' =>
      t <- peek (text + i) ;;
      if t =? 0 then ret count
      else if t =? 37 then
        d <- peek (text + (i + 1)) ;;
        let next := ksprintf_loop fuel' dest text (i + 2) in
        if d =? 115 then
          match args with
          | a :: args' =>
              n <- gets str_fuel ;; count <- put_str_at n a dest count ;; next count args'
          | [] => fault
          end
        else if d =? 99 then
          match args with
          | a :: args' => kputcharatbuf (u8 a) dest count ;;; next (count + 1) args'
          | [] => fault
          end
        else if d =? 100 then
          match args with
          | a :: args' => c <- kputintbufat (i32 a) dest count ;; next (count + c) args'
          | [] => fault
          end
        else if d =? 117 then
          match args with
          | a :: args' => c <- kputuintbufat (u32 a) dest count ;; next (count + c) args'
          | [] => fault
          end
        else if d =? 120 then
          match args with
          | a :: args' => c <- kputhexbufat (u32 a) dest count ;; next (count + c) args'
          | [] => fault
          end
        else kputcharatbuf d dest count ;;; next (count + 1) args
      else kputcharatbuf t dest count ;;; ksprintf_loop fuel' dest text (i + 1) (count + 1) args
  end.
Definition ksprintf (dest text : Z) (args : list Z) : cmd mem unit :=
  fuel <- gets str_fuel ;;
  count <- ksprintf_loop fuel dest text 0 0 args ;;
  poke (dest + count) 0.

(** * Reading back what was printed *)

Definition digits_value (a : Z) (ds : list Z) : Z := fold_left (fun a c => a * 10 + (c - 48)) ds a.

Lemma fill_digits_spec k n num a :
  (k <= n)%nat -> 0 <= num < 10 ^ (Z.of_nat k + 1) ->
  let ds := fill_digits n num (10 ^ Z.of_nat k) in
  Forall (fun c => 48 <= c <= 57) ds /\ digits_value a ds = a * 10 ^ (Z.of_nat k + 1) + num /\
  ds <> [] /\ (length ds <= S k)%nat.
Proof.
  revert n num a. induction k as [|k IH]; intros n num a Hn Hnum.
  - change (10 ^ Z.of_nat 0) with 1. change (10 ^ (Z.of_nat 0 + 1)) with 10 in *. cbn zeta.
    assert (fill_digits n num 1 = [u8 (48 + num)]) as -> by (by destruct n).
    rewrite u8_small by lia. split_and!; [constructor; [lia|constructor]|cbn; lia|done|done].
  - destruct n as [|n]; [lia|]. cbn [fill_digits].
    assert (Hp : 0 < 10 ^ Z.of_nat k) by (apply Z.pow_pos_nonneg; lia).
    assert (H10 : 10 ^ Z.of_nat (S k) = 10 * 10 ^ Z.of_nat k).
    { rewrite Nat2Z.inj_succ, Z.pow_succ_r by lia. done. }
    assert (H11 : 10 ^ (Z.of_nat (S k) + 1) = 10 * 10 ^ Z.of_nat (S k)).
    { rewrite Z.pow_add_r by lia. lia. }
    assert (H12 : 10 ^ (Z.of_nat k + 1) = 10 * 10 ^ Z.of_nat k) by (rewrite Z.pow_add_r by lia; lia).
    rewrite H11 in Hnum. rewrite (proj2 (Z.leb_le _ _)) by lia.
    assert (Hd : 10 ^ Z.of_nat (S k) / 10 = 10 ^ Z.of_nat k) by (rewrite H10, Z.mul_comm; apply Z.div_mul; lia).
    rewrite Hd. cbn zeta.
    assert (Hq : 0 <= num / 10 ^ Z.of_nat (S k) < 10).
    { split; [apply Z.div_pos; lia|apply Z.div_lt_upper_bound; lia]. }
    destruct (IH n (num mod 10 ^ Z.of_nat (S k)) (a * 10 + num / 10 ^ Z.of_nat (S k)) ltac:(lia))
      as (Hall & Hval & Hne & Hlen).
    { rewrite H12, <- H10. apply Z.mod_pos_bound. lia. }
    rewrite u8_small by lia. split_and!.
    + constructor; [lia|done].
    + cbn [digits_value fold_left]. replace (a * 10 + (48 + num / 10 ^ Z.of_nat (S k) - 48))
        with (a * 10 + num / 10 ^ Z.of_nat (S k)) by lia.
      fold (digits_value (a * 10 + num / 10 ^ Z.of_nat (S k))
              (fill_digits n (num mod 10 ^ Z.of_nat (S k)) (10 ^ Z.of_nat k))).
      rewrite Hval, H11, H12.
      pose proof (Z.div_mod num (10 ^ Z.of_nat (S k)) ltac:(lia)). rewrite H10 in *. lia.
    + done.
    + cbn [length]. lia.
Qed.

Lemma shrink_divisor_spec n u k :
  (k <= n)%nat -> 0 <= u < 10 ^ (Z.of_nat k + 1) ->
  exists j, (j <= k)%nat /\ shrink_divisor n u (10 ^ Z.of_nat k) = 10 ^ Z.of_nat j /\
    u < 10 ^ (Z.of_nat j + 1) /\ (10 ^ Z.of_nat j <= u \/ j = O).
Proof.
  revert k. induction n as [|n IH]; intros k Hk Hu.
  - exists k. split_and!; [lia|done|lia|right; lia].
  - cbn [shrink_divisor]. assert (Hpk : 0 < 10 ^ Z.of_nat k) by (apply Z.pow_pos_nonneg; lia).
    destruct ((u / 10 ^ Z.of_nat k =? 0) && (10 <=? 10 ^ Z.of_nat k)) eqn:Hc.
    2:{ exists k. split_and!; [lia|done|lia|]. apply andb_false_iff in Hc as [Hq%Z.eqb_neq|Ht%Z.leb_gt].
        - left. destruct (Z.le_gt_cases (10 ^ Z.of_nat k) u); [done|]. by rewrite Z.div_small in Hq by lia.
        - right. destruct k as [|k]; [done|]. rewrite Nat2Z.inj_succ, Z.pow_succ_r in Ht by lia.
          assert (0 < 10 ^ Z.of_nat k) by (apply Z.pow_pos_nonneg; lia). lia. }
    apply andb_true_iff in Hc as [Hq%Z.eqb_eq Ht%Z.leb_le].
    destruct k as [|k]; [cbn in Ht; lia|].
    assert (Hp : 0 < 10 ^ Z.of_nat k) by (apply Z.pow_pos_nonneg; lia).
    assert (H10 : 10 ^ Z.of_nat (S k) = 10 * 10 ^ Z.of_nat k).
    { rewrite Nat2Z.inj_succ, Z.pow_succ_r by lia. done. }
    assert (10 ^ Z.of_nat (S k) / 10 = 10 ^ Z.of_nat k) as -> by (rewrite H10, Z.mul_comm; apply Z.div_mul; lia).
    destruct (IH k ltac:(lia)) as (j & Hj & Hs & Hju & Hlow).
    { split; [lia|]. apply Z.div_small_iff in Hq; [|lia]. rewrite Z.pow_add_r by lia. lia. }
    exists j. split_and!; [lia|done|done|done].
Qed.

Lemma unsigned_string_spec u a :
  is_u32 u ->
  Forall (fun c => 48 <= c <= 57) (unsigned_string u) /\ unsigned_string u <> [] /\
  (length (unsigned_string u) <= 10)%nat /\
  exists b, 0 <= b /\ digits_value a (unsigned_string u) = a * b + u.
Proof.
  intros Hu. unfold is_u32 in Hu. unfold unsigned_string.
  change 1000000000 with (10 ^ Z.of_nat 9).
  destruct (shrink_divisor_spec 9 u 9) as (j & Hj & -> & Hju & _); [done|cbn; lia|].
  destruct (fill_digits_spec j 9 u a Hj) as (Hall & Hval & Hne & Hlen); [lia|].
  split_and!; [done|done|lia|]. exists (10 ^ (Z.of_nat j + 1)). split; [apply Z.pow_nonneg; lia|done].
Qed.

Lemma atoi_loop_digits fuel m p ds a :
  cstr m p ds -> Forall (fun c => 48 <= c <= 57) ds -> (length ds < fuel)%nat ->
  atoi_loop fuel p (i32 a) m = Ret (i32 (digits_value a ds), m).
Proof.
  revert fuel p a. induction ds as [|c ds IH]; intros fuel p a H Hall Hf;
    (destruct fuel as [|fuel]; [cbn in Hf; lia|]); cbn [atoi_loop]; unfold bind, peek, gets.
  - cbn in H. by rewrite H.
  - destruct H as (-> & _ & H). apply Forall_cons_1 in Hall as [Hc Hall].
    assert (schar c = c) as -> by (unfold schar; case_zbool; lia).
    rewrite (proj2 (Z.leb_le 48 c)), (proj2 (Z.leb_le c 57)) by lia. cbn [andb].
    assert (i32 (i32 (i32 a * 10) + (c - 48)) = i32 (a * 10 + (c - 48))) as ->.
    { unfold i32. zdm. }
    rewrite IH; [done|done|done|cbn in Hf; lia].
Qed.

Lemma put_digits_spec cs buffer at_ c m :
  put_digits cs buffer at_ c m =
  Ret (c + Z.of_nat (length cs), put_bytes m (buffer + at_) cs).
Proof.
  revert at_ c m. induction cs as [|d cs IH]; intros at_ c m; cbn [put_digits put_bytes length].
  - by rewrite Z.add_0_r.
  - unfold bind, kputcharatbuf, poke, modify. rewrite IH.
    replace (buffer + (at_ + 1)) with (buffer + at_ + 1) by lia. ret_lia.
Qed.

Lemma put_bytes_cstr m p cs :
  Forall (fun c => 0 < c < 256) cs ->
  cstr (wr8 (put_bytes m p cs) (p + Z.of_nat (length cs)) 0) p cs.
Proof.
  intros Hall. revert m p. induction Hall as [|c cs Hc _ IH]; intros m p; cbn [put_bytes cstr length].
  - by rewrite Z.add_0_r, rd8_wr8_same.
  - split_and!; [|lia|].
    + rewrite rd8_wr8_ne by lia. rewrite put_bytes_out by lia. rewrite rd8_wr8_same. apply u8_small. lia.
    + replace (p + Z.of_nat (S (length cs))) with (p + 1 + Z.of_nat (length cs)) by lia. apply IH.
Qed.

(** What [kputintbufat] leaves in the buffer. *)
Definition int_chars (n : Z) : list Z :=
  if 0 <=? n then unsigned_string (u32 n) else 45 :: unsigned_string (u32 (- n)).

Lemma kputintbufat_spec n buffer at_ m :
  kputintbufat n buffer at_ m =
  Ret (Z.of_nat (length (int_chars n)), put_bytes m (buffer + at_) (int_chars n)).
Proof.
  unfold kputintbufat, kputuintbufat, int_chars. destruct (0 <=? n).
  - by rewrite put_digits_spec.
  - unfold bind, kputcharatbuf, poke, modify. rewrite put_digits_spec. cbn [put_bytes].
    replace (buffer + (at_ + 1)) with (buffer + at_ + 1) by lia. unfold ret. ret_lia.
Qed.

Lemma int_chars_spec n :
  - 2 ^ 31 <= n < 2 ^ 31 ->
  Forall (fun c => 0 < c < 256) (int_chars n) /\ (length (int_chars n) <= 11)%nat.
Proof.
  intros Hn. unfold int_chars. destruct (Z.leb_spec 0 n).
  - destruct (unsigned_string_spec (u32 n) 0 (u32_range _)) as (Hall & _ & Hlen & _). split; [|lia].
    eapply Forall_impl; [exact Hall|]. cbn. lia.
  - destruct (unsigned_string_spec (u32 (- n)) 0 (u32_range _)) as (Hall & _ & Hlen & _).
    split; [|cbn [length]; lia]. constructor; [lia|]. eapply Forall_impl; [exact Hall|]. cbn. lia.
Qed.

Lemma atoi_int_chars n m p :
  - 2 ^ 31 <= n < 2 ^ 31 -> cstr m p (int_chars n) -> atoi p m = Ret (n, m).
Proof.
  intros Hn H. unfold atoi, bind at 1, gets. pose proof (cstr_size _ _ _ H) as Hsz.
  unfold int_chars in *. destruct (Z.leb_spec 0 n).
  - destruct (unsigned_string_spec (u32 n) 0 (u32_range _)) as (Hall & Hne & _ & b & _ & Hval).
    rewrite (u32_small n) in * by lia. unfold bind at 1, peek, gets.
    assert (Hc : (rd8 m p =? 45) = false).
    { destruct (unsigned_string n) as [|c l]; [done|]. destruct H as (-> & _ & _).
      apply Forall_cons_1 in Hall as [Hc _]. apply Z.eqb_neq. lia. }
    rewrite Hc. unfold bind. rewrite <- (i32_small 0) at 1 by lia.
    rewrite (atoi_loop_digits _ m p (unsigned_string n) 0 H Hall) by (unfold str_fuel; lia).
    unfold ret. rewrite Hval, Z.mul_0_l, Z.add_0_l, !Z.mul_1_l, !i32_small by (rewrite ?i32_small; lia).
    done.
  - destruct (unsigned_string_spec (u32 (- n)) 0 (u32_range _)) as (Hall & Hne & _ & b & _ & Hval).
    rewrite (u32_small (- n)) in * by lia. unfold bind at 1, peek, gets.
    destruct H as (Hc & _ & H). rewrite Hc. cbn [Z.eqb Pos.eqb]. unfold bind.
    rewrite <- (i32_small 0) at 1 by lia. cbn [length] in Hsz.
    rewrite (atoi_loop_digits _ m (p + 1) (unsigned_string (- n)) 0 H Hall) by (unfold str_fuel; lia).
    unfold ret. rewrite Hval, Z.mul_0_l, Z.add_0_l.
    assert (i32 (-1 * i32 (- n)) = n) as -> by (unfold i32; zdm). done.
Qed.

Lemma ksprintf_loop_end fuel dest text i count args m :
  rd8 m (text + i) = 0 -> ksprintf_loop (S fuel) dest text i count args m = Ret (count, m).
Proof. intros H. cbn [ksprintf_loop]. unfold bind, peek, gets. by rewrite H. Qed.

Lemma ksprintf_loop_d fuel dest text i count a args m :
  rd8 m (text + i) = 37 -> rd8 m (text + (i + 1)) = 100 ->
  ksprintf_loop (S fuel) dest text i count (a :: args) m =
  ksprintf_loop fuel dest text (i + 2) (count + Z.of_nat (length (int_chars (i32 a)))) args
    (put_bytes m (dest + count) (int_chars (i32 a))).
Proof.
  intros H0 H1. cbn [ksprintf_loop]. unfold bind, peek, gets. rewrite H0. cbn [Z.eqb Pos.eqb].
  rewrite H1. cbn [Z.eqb Pos.eqb]. by rewrite kputintbufat_spec.
Qed.

(** Printing a number and reading it back gives the number: for every
    32-bit signed [n], [INT_MIN] included, [ksprintf(dest, "%d", n)] leaves a
    string at [dest] that [atoi] turns back into [n], and writes no byte outside
    [dest .. dest + 11]. *)
Theorem ksprintf_atoi_roundtrip m dest text n :
  - 2 ^ 31 <= n < 2 ^ 31 -> cstr m text [37; 100] ->
  text + 2 < dest \/ dest + 11 < text ->
  wp (ksprintf dest text [u32 n]) (fun _ m' =>
    atoi dest m' = Ret (n, m') /\
    forall x, x < dest \/ dest + 11 < x -> rd8 m' x = rd8 m x) m.
Proof.
  intros Hn Ht Hsep. pose proof (cstr_size _ _ _ Ht) as Hsz. cbn [length] in Hsz.
  pose proof Ht as (H0 & _ & H1 & _ & H2).
  destruct (int_chars_spec n Hn) as [Hall Hlen].
  assert (Hi : i32 (u32 n) = n) by (unfold i32, u32; zdm).
  apply wp_bind, wp_gets, wp_bind. unfold str_fuel.
  destruct (size m) as [|[|k]] eqn:Hk; [lia|lia|].
  eapply wp_Ret.
  { rewrite ksprintf_loop_d by (rewrite ?Z.add_0_r, ?Z.add_0_l; done). apply ksprintf_loop_end.
    rewrite put_bytes_out by (rewrite Hi; lia).
    replace (text + (0 + 2)) with (text + 1 + 1) by lia. exact H2. }
  rewrite Hi, Z.add_0_r, Z.add_0_l. apply wp_modify. split.
  - apply atoi_int_chars; [done|]. by apply put_bytes_cstr.
  - intros x Hx. rewrite rd8_wr8_ne by lia. apply put_bytes_out. lia.
Qed.

Definition demo_fmt : mem := put_str ∅ 100 [37; 100].

Lemma ksprintf_atoi_roundtrip_witness :
  wp (ksprintf 200 100 [u32 (-2147483648)]) (fun _ m' =>
    atoi 200 m' = Ret (-2147483648, m') /\
    forall x, x < 200 \/ 200 + 11 < x -> rd8 m' x = rd8 demo_fmt x) demo_fmt.
Proof. apply (ksprintf_atoi_roundtrip demo_fmt 200 100 (-2147483648)); [lia|by vm_compute|lia]. Defined.

(** A format string that ends in ['%'] is read past its end: the directive
    character is the terminator, which is printed, and scanning goes on behind
    it ("%" followed in memory by "A" prints the terminator and then "A"). *)
Theorem trailing_percent_overreads :
  let m := put_str (put_str ∅ 100 [37]) 102 [65] in
  cstr m 100 [37] /\
  exists s, kprintf 1 1 m 100 [] (KOut 1 0 [] []) = Ret (tt, s) /\ s.(con_out) = [0; 65].
Proof. split; [by vm_compute|]. eexists. by vm_compute. Qed.
