(* ===== verification/MemoryManager.v ===== *)
(** [kernel/memory/memory_manager.c] and the video-memory address of
    [kernel/kernel.c]: the set-up of memory at boot, and the copies of what the
    boot loader left in physical memory.

    The state is the kernel heap on paging ([KernelHeap]), the address of the
    video memory and the flag of [kstdio.c].  Before paging is on, the boot
    structures are read at their physical addresses; afterwards they are read
    through the window of [temp_map_page] and copied to the heap. *)
From stdpp Require Import base numbers gmap list.
From S2P Require Import Prelude Physmem Kmem Allocator Heap Paging KernelHeap KString Kstdio.

Record memman := Memman { mm_heap : hstate pstate; vid_mem : Z; mm_out : kout }.

Definition on_kheap {A} (c : cmd (hstate pstate) A) : cmd memman A :=
  fun s => match c s.(mm_heap) with
           | Ret (a, h) => Ret (a, Memman h s.(vid_mem) s.(mm_out))
           | Fault => Fault
           | Hang => Hang
           end.
Definition set_h_pages (p : pstate) (h : hstate pstate) : hstate pstate :=
  HState h.(allocated_size) h.(h_start) h.(h_end) h.(h_head) h.(h_mem) p.
Definition in_pages {A} (c : cmd pstate A) : cmd (hstate pstate) A :=
  fun s => match c s.(h_pages) with
           | Ret (a, p) => Ret (a, set_h_pages p s)
           | Fault => Fault
           | Hang => Hang
           end.

(** ** [kernel.c] *)
Definition set_video_memory_addr (addr : Z) : cmd memman unit :=
  modify (fun s => Memman s.(mm_heap) addr s.(mm_out)).
Definition get_video_memory_addr : cmd memman Z := gets vid_mem.

(** ** Copies *)

(** A byte read through a virtual address. *)
Definition vread8 (va : Z) : cmd pstate Z := gets (fun s => rd8 s.(pm) (phys_of s va)).
(** [memcpy_8] of [n] bytes at the virtual address [src] to the heap. *)
Definition copy_to_heap (temp src n : Z) : cmd (hstate pstate) unit :=
  for_ (Z.to_nat n) 0 (fun i => c <- in_pages (vread8 (src + i)) ;; modify (set_mem (fun m => wr8 m (temp + i) c))).

Definition window_offset (src : Z) : Z :=
  let page_aligned := align_page src in
  if negb (src =? page_aligned) then u16 (src - page_aligned) else 0x0000.

Definition copy_phys_to_virt (src len : Z) : cmd (hstate pstate) Z :=
  temp <- kern_malloc len ;;
  w <- in_pages (temp_map_page src) ;;
  copy_to_heap temp (w + window_offset src) len ;;;
  ret temp.

Fixpoint vstrlen (fuel : nat) (va len : Z) : cmd pstate Z :=
  match fuel with
  | O => hang
  | S fuel' => c <- vread8 (va + len) ;; if c =? 0 then ret len else vstrlen fuel' va (len + 1)
  end.
(** [uninitialised]: what the local [temp] holds. *)
Definition copy_phys_to_virt_string (uninitialised src : Z) : cmd (hstate pstate) Z :=
  w <- in_pages (temp_map_page src) ;;
  let temp_mapped := w + window_offset src in
  n <- in_pages (fuel <- gets (fun s => str_fuel s.(pm)) ;; vstrlen fuel temp_mapped 0) ;;
  let len := i32 (n + 1) in
  if negb (len =? 0) then
    temp <- kern_malloc len ;;
    copy_to_heap temp temp_mapped len ;;;
    ret temp
  else ret uninitialised.

(** ** Boot *)

(** Fields of [kmain_params_t] and [multiboot_info_t], by offset. *)
Definition SIZEOF_KPARAMS : Z := 34.
Definition KP_MBOOT : Z := 4.
Definition KP_FIRST_MOD_START : Z := 12.
Definition KP_LAST_MOD_END : Z := 16.
Definition KP_PAGE_DIR_PHYS : Z := 20.
Definition SIZEOF_MULTIBOOT : Z := 116.
Definition MB_FLAGS : Z := 0.
Definition MB_LOWER : Z := 4.
Definition MB_UPPER : Z := 8.
Definition MB_CMD : Z := 16.
Definition MB_MODS_COUNT : Z := 20.
Definition MB_MODS_ADDR : Z := 24.
Definition MB_MMAP_LENGTH : Z := 44.
Definition MB_MMAP_ADDR : Z := 48.
Definition MB_DRIVES_LENGTH : Z := 52.
Definition MB_DRIVES_ADDR : Z := 56.
Definition MB_BOOTLOADER : Z := 64.
Definition MB_VBE_CONTROL : Z := 72.
Definition MB_VBE_MODE : Z := 76.
Definition VBE_OEM_STRING : Z := 8.
Definition VBE_VIDEO_MODE : Z := 16.
Definition SIZEOF_VBE_MODE_INFO : Z := 50.
Definition SIZEOF_MBOOT_MODULE : Z := 16.

(** A word of physical memory, and a word on the heap. *)
Definition phys_word (a : Z) : cmd (hstate pstate) Z := gets (fun s => rd32 s.(h_pages).(pm) a).
Definition kload (a : Z) : cmd (hstate pstate) Z := gets (fun s => rd32 s.(h_mem) a).
Definition kstore (a v : Z) : cmd (hstate pstate) unit := modify (set_mem (fun m => wr32 m a v)).
(** [*a = f( *a)] on the heap. *)
Definition kupdate (a : Z) (f : Z -> cmd (hstate pstate) Z) : cmd (hstate pstate) unit :=
  v <- kload a ;; r <- f v ;; kstore a r.
Definition to_virtual (v : Z) : cmd (hstate pstate) Z := ret (physical_to_virtual v).
Definition flag_set (mboot bit : Z) : cmd (hstate pstate) bool :=
  f <- kload (mboot + MB_FLAGS) ;; ret (negb (Z.land f (Z.shiftl 1 bit) =? 0)).

(** One module of the list. *)
Definition remap_module (uninit defs i : Z) : cmd (hstate pstate) unit :=
  let m := defs + SIZEOF_MBOOT_MODULE * i in
  kupdate m to_virtual ;;;
  kupdate (m + 4) to_virtual ;;;
  kupdate (m + 8) (copy_phys_to_virt_string uninit) ;;;
  kupdate (m + 12) to_virtual.

(** From "remap multiboot info" on: [mboot] is the copy on the heap. *)
Definition remap_multiboot (uninit mboot : Z) : cmd (hstate pstate) unit :=
  f2 <- flag_set mboot 2 ;;
  (when f2 do kupdate (mboot + MB_CMD) (copy_phys_to_virt_string uninit)) ;;;
  f3 <- flag_set mboot 3 ;;
  (when f3 do
     (count <- kload (mboot + MB_MODS_COUNT) ;;
      kupdate (mboot + MB_MODS_ADDR) (fun a => copy_phys_to_virt a (i32 (u32 (SIZEOF_MBOOT_MODULE * count)))) ;;;
      defs <- kload (mboot + MB_MODS_ADDR) ;;
      for_ (Z.to_nat (i32 count)) 0 (remap_module uninit defs))) ;;;
  f6 <- flag_set mboot 6 ;;
  (when f6 do (len <- kload (mboot + MB_MMAP_LENGTH) ;; kupdate (mboot + MB_MMAP_ADDR) (fun a => copy_phys_to_virt a (i32 len)))) ;;;
  f7 <- flag_set mboot 7 ;;
  (when f7 do (len <- kload (mboot + MB_DRIVES_LENGTH) ;; kupdate (mboot + MB_DRIVES_ADDR) (fun a => copy_phys_to_virt a (i32 len)))) ;;;
  f9 <- flag_set mboot 9 ;;
  (when f9 do kupdate (mboot + MB_BOOTLOADER) (copy_phys_to_virt_string uninit)) ;;;
  f11 <- flag_set mboot 11 ;;
  when f11 do
    (kupdate (mboot + MB_VBE_CONTROL) (fun a => copy_phys_to_virt a 512) ;;;
     vbe <- kload (mboot + MB_VBE_CONTROL) ;;
     kupdate (vbe + VBE_OEM_STRING) (copy_phys_to_virt_string uninit) ;;;
     kupdate (vbe + VBE_VIDEO_MODE) to_virtual ;;;
     kupdate (mboot + MB_VBE_MODE) (fun a => copy_phys_to_virt a SIZEOF_VBE_MODE_INFO)).

(** The physical memory that is in use at boot, and paging. *)
Definition initialise_frames (start end_ kparams mboot : Z) : cmd (hstate pstate) unit :=
  flags <- phys_word (mboot + MB_FLAGS) ;;
  last <- phys_word (kparams + KP_LAST_MOD_END) ;;
  let new_end := if negb (Z.land flags (Z.shiftl 1 3) =? 0) then last else virtual_to_physical end_ in
  lower <- phys_word (mboot + MB_LOWER) ;;
  upper <- phys_word (mboot + MB_UPPER) ;;
  in_pages (on_frames (init_phys_memory (MbootMem lower upper) new_end)) ;;;
  allocations_size <- in_pages (on_frames alloc_phys_get_allocations_size) ;;
  allocations_addr <- in_pages (on_frames alloc_phys_get_allocations_address) ;;
  in_pages (on_frames (alloc_range (Z.to_nat (2 ^ 20)) 0 allocations_addr)) ;;;
  in_pages (init_paging start (u32 (allocations_addr + u32 allocations_size))).

(** [start] and [end_] are the addresses of the kernel's first and last bytes. *)
Definition initialise_memory (start end_ uninit kparams : Z) : cmd memman Z :=
  mboot <- on_kheap (phys_word (kparams + KP_MBOOT)) ;;
  on_kheap (initialise_frames start end_ kparams mboot) ;;;
  vid_phys <- get_video_memory_addr ;;
  on_kheap (in_pages (on_frames (alloc_phys_addr vid_phys))) ;;;
  on_kheap (in_pages (dir <- get_page_directory_address ;; set_page_table_entry dir 0xCFFFF000 vid_phys 1 0)) ;;;
  set_video_memory_addr 0xCFFFF000 ;;;
  on_kheap (in_pages (on_frames (a <- alloc_phys_get_allocations_address ;; alloc_phys_set_allocations_address (physical_to_virtual a)))) ;;;
  on_kheap (in_pages reset_paging) ;;;
  on_kheap initialise_heap ;;;
  kparams <- on_kheap (copy_phys_to_virt kparams SIZEOF_KPARAMS) ;;
  on_kheap (
    kupdate (kparams + KP_FIRST_MOD_START) to_virtual ;;;
    kupdate (kparams + KP_LAST_MOD_END) to_virtual ;;;
    dir <- in_pages get_page_directory_address ;;
    kstore (kparams + KP_PAGE_DIR_PHYS) dir ;;;
    kupdate (kparams + KP_MBOOT) (fun a => copy_phys_to_virt a SIZEOF_MULTIBOOT) ;;;
    mboot <- kload (kparams + KP_MBOOT) ;;
    remap_multiboot uninit mboot) ;;;
  (fun s => match kstdio_base_init s.(mm_out) with
            | Ret (_, o) => Ret (tt, Memman s.(mm_heap) s.(vid_mem) o)
            | Fault => Fault
            | Hang => Hang
            end) ;;;
  ret kparams.

(** * A copy is the bytes of physical memory *)

(** The [n] bytes of memory at [a]. *)
Definition bytes_of (m : mem) (a : Z) (n : nat) : list Z := (fun k => rd8 m (a + Z.of_nat k)) <$> seq 0 n.

Lemma bytes_of_S m a n : bytes_of m a (S n) = bytes_of m a n ++ [rd8 m (a + Z.of_nat n)].
Proof. unfold bytes_of. by rewrite seq_S, fmap_app. Qed.

Lemma bytes_of_length m a n : length (bytes_of m a n) = n.
Proof. unfold bytes_of. by rewrite length_fmap, length_seq. Qed.

Lemma window_offset_spec src : is_u32 src -> window_offset src = src mod 4096.
Proof.
  intros Hs. unfold window_offset. rewrite align_page_spec by done. unfold is_u32 in Hs.
  destruct (Z.eqb_spec src (4096 * (src / 4096))) as [E|E]; cbn [negb].
  - symmetry. apply Z.mod_divide; [lia|]. exists (src / 4096). lia.
  - pose proof (Z.mod_pos_bound src 4096 ltac:(lia)). pose proof (Z.div_mod src 4096 ltac:(lia)).
    unfold u16. rewrite Z.mod_small by lia. lia.
Qed.

Lemma frame_of_window w src : is_u32 src -> entry_frame (set_page_addr w (Z.shiftr src 12)) = 4096 * (src / 4096).
Proof.
  intros Hs. rewrite <- (set_page_addr_frame w (4096 * (src / 4096))).
  - do 2 f_equal. rewrite !Z.shiftr_div_pow2 by lia. change (2 ^ 12) with 4096. by rewrite Z.mul_comm, Z.div_mul by lia.
  - unfold is_frame, is_u32 in *. zdm.
Qed.

Lemma copy_to_heap_spec temp o n frame (s : hstate pstate) :
  entry_frame s.(h_pages).(win_pte) = frame -> 0 <= o -> 0 <= n -> o + n <= 4096 ->
  wp (copy_to_heap temp (WINDOW + o) n) (fun _ s' =>
    s' = set_mem (fun m => put_bytes m temp (bytes_of s.(h_pages).(pm) (frame + o) (Z.to_nat n))) s) s.
Proof.
  intros Hf Ho Hn Hon. unfold copy_to_heap.
  eapply wp_mono; [apply (wp_for (fun j s' => s' = set_mem (fun m => put_bytes m temp (bytes_of s.(h_pages).(pm) (frame + o) (Z.to_nat j))) s) _ (Z.to_nat n) 0)|].
  - by destruct s.
  - intros j t Hj ->. apply wp_bind. eapply (wp_Ret _ _ _ (rd8 s.(h_pages).(pm) (frame + o + j))).
    { unfold in_pages, vread8, gets. cbn [h_pages set_mem]. rewrite <- Z.add_assoc, phys_of_window, Hf by lia. by rewrite Z.add_assoc. }
    apply wp_modify. replace (Z.to_nat (j + 1)) with (S (Z.to_nat j)) by lia. rewrite bytes_of_S, Z2Nat.id by lia.
    unfold set_mem, set_h_pages. cbn. f_equal. rewrite put_bytes_app, bytes_of_length, Z2Nat.id by lia. done.
  - cbv beta. intros _ s'. by rewrite Z.add_0_l, Z2Nat.id by lia.
Qed.

(** The frame [f] is in use, is not frame 0 and is no part of the current page
    structures: what the heap never takes or writes when it grows. *)
Definition plain_frame (p : pstate) (f : Z) : Prop :=
  used p.(frames) f /\ f <> 0 /\ f <> current_dir p /\
  forall k, 0 <= k < 1023 -> table_of p.(pm) (current_dir p) k <> f.

(** Growing the heap keeps such a frame and its bytes. *)
Definition frame_kept (m : mem) (f : Z) (p : pstate) : Prop := paging_ok p /\ plain_frame p f /\ page_kept m p.(pm) f.

Lemma frame_kept_supply m f va p :
  frame_kept m f p -> 0 < va < HEAP_TOP -> wp (supply_page va) (fun _ => frame_kept m f) p.
Proof.
  intros (Hok & (Hu & H0 & Hd & Ht) & Hm) Hva. eapply wp_mono; [by apply map_fresh_page_spec|].
  intros _ p' (Hok' & Hdir & Hku & Hk & _). destruct (Hk f Hu H0 Hd Ht) as [Hpk Ht'].
  split; [done|]. split; [|by eapply page_kept_trans]. unfold plain_frame. rewrite Hdir.
  split_and!; [by eapply keeps_used_used|done|done|done].
Qed.

(** C12: what [copy_phys_to_virt] returns is a fresh block of the heap that holds
    the bytes that were at the physical address when it was called, and the
    frame they are in is left as it was; the heap stays well-formed and blocks in
    use keep their contents.  The object lies in one page, and its frame is in
    use, not frame 0 and no page table or directory.  The conditions on the heap
    are those of [kern_malloc]: paging is in order, the request is at most one
    page, the heap can grow by it below its top, and if nothing was ever
    allocated it fits into the heap as it is. *)
Theorem copy_phys_correct src len (s : hstate pstate) bs :
  heap_rep s bs -> paging_ok s.(h_pages) -> s.(h_end) + len + 16 + 4096 < HEAP_TOP ->
  (bs = [] -> s.(h_start) + 9 + len < s.(h_end)) ->
  is_u32 src -> 0 < len -> src mod 4096 + len <= 4096 -> plain_frame s.(h_pages) (4096 * (src / 4096)) ->
  wp (copy_phys_to_virt src len) (fun p s' => exists bs' sz,
    heap_rep s' bs' /\ p <> 0 /\ len <= sz /\ live s.(h_start) bs' ≡ₚ (p, sz) :: live s.(h_start) bs /\
    payload_kept s.(h_mem) s'.(h_mem) (live s.(h_start) bs) /\
    (forall i, 0 <= i < len -> rd8 s'.(h_mem) (p + i) = rd8 s.(h_pages).(pm) (src + i)) /\
    page_kept s.(h_pages).(pm) s'.(h_pages).(pm) (4096 * (src / 4096))) s.
Proof.
  intros Hrep Hpg Htop Hfirst Hsrc Hlen Hpage Hframe. set (f := 4096 * (src / 4096)) in *.
  pose proof (Z.mod_pos_bound src 4096 ltac:(lia)) as Hmb. pose proof (Z.div_mod src 4096 ltac:(lia)) as Hdm.
  unfold copy_phys_to_virt. apply wp_bind. eapply wp_mono.
  { apply (malloc_body_correct _ (fun _ => frame_kept s.(h_pages).(pm) f) HEAP_TOP); [by vm_compute| |exact Hrep|].
    - apply increase_heap_keeps. apply frame_kept_supply.
    - unfold room. split_and!; [lia|lia|lia|by split_and!|]. intros Hh. apply Hfirst. by apply (heap_rep_head s). }
  intros p s1 (bs' & sz & Hrep' & Hst & Hp & Hsz & Hlive & _ & Hk & _ & (_ & _ & Hpk) & _).
  apply wp_bind. eapply wp_Ret; [reflexivity|]. rewrite window_offset_spec by done. apply wp_bind.
  eapply wp_mono; [apply (copy_to_heap_spec p _ len f); [by apply frame_of_window|lia|lia|lia]|].
  intros _ s' ->. apply wp_ret. exists bs', sz. cbn [h_pages set_h_pages set_mem pm h_mem set_win].
  set (data := bytes_of _ _ _). assert (Hdl : Z.of_nat (length data) = len) by (unfold data; rewrite bytes_of_length; lia).
  assert (Hin : (p, sz) ∈ live s1.(h_start) bs') by (rewrite Hst, Hlive; left).
  split_and!; try done.
  - apply (heap_rep_payload (set_h_pages (set_win _ _) s1) bs' p sz (put_bytes s1.(h_mem) p data) Hrep' Hin).
    intros x Hx. apply put_bytes_out. lia.
  - intros q qsz Hq x Hx. rewrite put_bytes_out; [by apply (Hk q qsz)|].
    assert (Hq' : (q, qsz) ∈ live s1.(h_start) bs') by (rewrite Hst, Hlive; by right).
    destruct (decide (p = q)) as [<-|Hne]; [|destruct (heap_live_apart s1 bs' p sz q qsz Hrep' Hin Hq' Hne); lia].
    exfalso. pose proof (heap_live_nodup s1 bs' Hrep') as Hnd. rewrite Hst, Hlive in Hnd. cbn [fmap list_fmap fst] in Hnd.
    apply NoDup_cons in Hnd as [Hnin _]. apply Hnin. apply list_elem_of_fmap. by exists (p, qsz).
  - intros i Hi. rewrite put_bytes_in by lia. unfold data, bytes_of. rewrite list_lookup_fmap, lookup_seq_lt by lia.
    cbn [fmap option_fmap option_map default from_option id]. rewrite u8_small by apply rd8_range.
    replace (f + src mod 4096 + Z.of_nat (0 + Z.to_nat i)) with (src + i) by lia. apply Hpk. lia.
Qed.

(** ** A fresh heap *)

Definition fresh_heap : hstate pstate := HState 0 KERNEL_HEAP_INIT_ADDR (KERNEL_HEAP_INIT_ADDR + 4096) 0 ∅ demo_paging.

Lemma fresh_plain_frame : plain_frame demo_paging 0x103000.
Proof.
  split; [apply demo_used; by vm_compute|]. split; [done|]. split; [done|]. change (current_dir demo_paging) with 0x101000.
  intros k Hk. cbn [pm demo_paging]. rewrite demo_tables by done. repeat case_decide; done.
Qed.

Lemma copy_phys_correct_witness : exists p s',
  copy_phys_to_virt 0x103FFC 4 fresh_heap = Ret (p, s') /\ p <> 0 /\
  forall i, 0 <= i < 4 -> rd8 s'.(h_mem) (p + i) = rd8 demo_pm (0x103FFC + i).
Proof.
  destruct (wp_inv _ _ _ (copy_phys_correct 0x103FFC 4 fresh_heap [] ltac:(by vm_compute) demo_paging_ok ltac:(by vm_compute)
    ltac:(by vm_compute) ltac:(by vm_compute) ltac:(lia) ltac:(by vm_compute) fresh_plain_frame))
    as (p & s' & Hr & bs' & sz & _ & Hp & _ & _ & _ & Hb & _).
  exists p, s'. split; [exact Hr|]. split; [exact Hp|exact Hb].
Defined.
