(* ===== verification/Libc.v ===== *)
(** The C library of user programs: [libraries/libc/string.c] and the integer
    parts of [libraries/libc/stdlib.c].

    The kernel's string functions are [KString]; the library's differ from them
    in results and in what they write, so they are modelled on their own. *)
From stdpp Require Import base numbers gmap list.
From S2P Require Import Prelude Kmem KString Kstdio.

(** ** Memory blocks *)

Fixpoint memcmp_loop (n : nat) (p1 p2 : Z) : cmd mem Z :=
  match n with
  | O => ret 0
  | S n' =>
      a <- peek p1 ;;
      b <- peek p2 ;;
      if negb (a =? b) then ret (a - b) else memcmp_loop n' (p1 + 1) (p2 + 1)
  end.
Definition memcmp (s1 s2 n : Z) : cmd mem Z := memcmp_loop (Z.to_nat n) s1 s2.

Fixpoint memcpy_loop (n : nat) (dst src i : Z) : cmd mem unit :=
  match n with
  | O => ret tt
  | S n' => c <- peek (src + i) ;; poke (dst + i) c ;;; memcpy_loop n' dst src (i + 1)
  end.
Definition memcpy (destination source num : Z) : cmd mem Z :=
  memcpy_loop (Z.to_nat num) destination source 0 ;;; ret destination.

(** The two backward loops of [memmove]: [long] is 4 bytes. *)
Fixpoint move_words (i : nat) (d s : Z) : cmd mem unit :=
  match i with
  | O => ret tt
  | S i' =>
      w <- gets (fun m => rd32 m (s + 4 * Z.of_nat i')) ;;
      modify (fun m => wr32 m (d + 4 * Z.of_nat i') w) ;;;
      move_words i' d s
  end.
Fixpoint move_bytes (i : nat) (d s : Z) : cmd mem unit :=
  match i with
  | O => ret tt
  | S i' =>
      c <- peek (s + Z.of_nat i') ;;
      poke (d + Z.of_nat i') c ;;;
      move_bytes i' d s
  end.
Definition memmove (dst src len : Z) : cmd mem Z :=
  if dst <? src then memcpy dst src len
  else
    (if (dst mod 4 =? 0) && (src mod 4 =? 0) && (len mod 4 =? 0) then
       move_words (Z.to_nat (len / 4)) dst src
     else move_bytes (Z.to_nat len) dst src) ;;;
    ret dst.

Fixpoint memset_loop (n : nat) (p value i : Z) : cmd mem unit :=
  match n with
  | O => ret tt
  | S n' => poke (p + i) value ;;; memset_loop n' p value (i + 1)
  end.
Definition memset (ptr value num : Z) : cmd mem Z :=
  memset_loop (Z.to_nat num) ptr value 0 ;;; ret ptr.

(** ** Strings *)

Fixpoint strchr_loop (fuel : nat) (string c : Z) : cmd mem Z :=
  match fuel with
  | O => hang
  | S fuel' =>
      b <- peek string ;;
      if b =? u8 c then ret string
      else if b =? 0 then ret 0
      else strchr_loop fuel' (string + 1) c
  end.
Definition strchr (string character : Z) : cmd mem Z :=
  fuel <- gets str_fuel ;; strchr_loop fuel string character.

Fixpoint strlen_loop (fuel : nat) (str i : Z) : cmd mem Z :=
  match fuel with
  | O => hang
  | S fuel' => c <- peek (str + i) ;; if negb (c =? 0) then strlen_loop fuel' str (i + 1) else ret i
  end.
Definition strlen (str : Z) : cmd mem Z := fuel <- gets str_fuel ;; strlen_loop fuel str 0.

Fixpoint strcpy_loop (fuel : nat) (destination source i : Z) : cmd mem unit :=
  match fuel with
  | O => hang
  | S fuel' =>
      c <- peek (source + i) ;;
      poke (destination + i) c ;;;
      if negb (c =? 0) then strcpy_loop fuel' destination source (i + 1) else ret tt
  end.
Definition strcpy (destination source : Z) : cmd mem Z :=
  fuel <- gets str_fuel ;; strcpy_loop fuel destination source 0 ;;; ret destination.

Fixpoint strncpy_loop (n : nat) (destination source i : Z) : cmd mem unit :=
  match n with
  | O => ret tt
  | S n' =>
      c <- peek (source + i) ;;
      if negb (c =? 0) then poke (destination + i) c ;;; strncpy_loop n' destination source (i + 1)
      else ret tt
  end.
Definition strncpy (destination source n : Z) : cmd mem Z :=
  strncpy_loop (Z.to_nat n) destination source 0 ;;; ret destination.

Fixpoint strcmp_loop (fuel : nat) (str1 str2 : Z) : cmd mem Z :=
  match fuel with
  | O => hang
  | S fuel' =>
      a <- peek str1 ;;
      b <- peek str2 ;;
      if a =? b then if a =? 0 then ret 0 else strcmp_loop fuel' (str1 + 1) (str2 + 1)
      else ret (a - b)
  end.
Definition strcmp (str1 str2 : Z) : cmd mem Z :=
  fuel <- gets str_fuel ;; strcmp_loop fuel str1 str2.

Fixpoint strncmp_loop (n : nat) (str1 str2 : Z) : cmd mem Z :=
  match n with
  | O => ret 0
  | S n' =>
      a <- peek str1 ;;
      b <- peek str2 ;;
      if negb (a =? 0) && negb (b =? 0) then
        if schar b <? schar a then ret 1
        else if schar a <? schar b then ret (-1)
        else strncmp_loop n' (str1 + 1) (str2 + 1)
      else ret 0
  end.
Definition strncmp (str1 str2 n : Z) : cmd mem Z := strncmp_loop (Z.to_nat n) str1 str2.

(** The two loops of [strcat]: to the end of [dest], then copying. *)
Fixpoint string_end (fuel : nat) (dest : Z) : cmd mem Z :=
  match fuel with
  | O => hang
  | S fuel' => c <- peek dest ;; if negb (c =? 0) then string_end fuel' (dest + 1) else ret dest
  end.
Fixpoint append_loop (fuel : nat) (dest str : Z) : cmd mem unit :=
  match fuel with
  | O => hang
  | S fuel' =>
      c <- peek str ;;
      poke dest c ;;;
      if negb (c =? 0) then append_loop fuel' (dest + 1) (str + 1) else ret tt
  end.
Definition strcat (dest src : Z) : cmd mem Z :=
  fuel <- gets str_fuel ;;
  d <- string_end fuel dest ;;
  append_loop fuel d src ;;;
  ret dest.

Definition sappend (str c : Z) : cmd mem Z :=
  len <- strlen str ;;
  poke (str + len) c ;;;
  poke (str + (len + 1)) 0 ;;;
  ret str.

(** [l] is the length, passed as a pointer. *)
Fixpoint strrev_loop (n : nat) (s i j : Z) : cmd mem unit :=
  match n with
  | O => ret tt
  | S n' =>
      if i <? j then
        c <- peek (s + i) ;;
        d <- peek (s + j) ;;
        poke (s + i) d ;;;
        poke (s + j) c ;;;
        strrev_loop n' s (i + 1) (j - 1)
      else ret tt
  end.
Definition strrev (s l : Z) : cmd mem unit := strrev_loop (Z.to_nat l) s 0 (i32 (l - 1)).

Fixpoint strcspn_loop (fuel : nat) (string1 string2 len : Z) : cmd mem Z :=
  match fuel with
  | O => hang
  | S fuel' =>
      c <- peek string1 ;;
      if negb (c =? 0) then
        temp <- strchr string2 c ;;
        if negb (temp =? 0) then ret len else strcspn_loop fuel' (string1 + 1) string2 (len + 1)
      else ret len
  end.
Definition strcspn (string1 string2 : Z) : cmd mem Z :=
  fuel <- gets str_fuel ;; strcspn_loop fuel string1 string2 0.

(** ** Numbers *)

(** The digits below the top one, from bit [4 * k] down to bit 4. *)
Fixpoint sputhex_loop (k : nat) (str uinteg no_ze str_i : Z) : cmd mem (Z * Z) :=
  match k with
  | O => ret (no_ze, str_i)
  | S k' =>
      let temp := Z.land (Z.shiftr uinteg (4 * Z.of_nat k)) 0xF in
      if (temp =? 0) && negb (no_ze =? 0) then sputhex_loop k' str uinteg no_ze str_i
      else
        poke (str + (str_i + 1)) (hex_char temp) ;;;
        sputhex_loop k' str uinteg 0 (str_i + 1)
  end.
Definition sputhex (str uinteg : Z) : cmd mem Z :=
  poke str 48 ;;;
  poke (str + 1) 120 ;;;
  r <- sputhex_loop 7 str uinteg 1 1 ;;
  let str_i := r.2 in
  let temp := Z.land uinteg 0xF in
  poke (str + (str_i + 1)) (hex_char temp) ;;;
  ret (str_i + 2).

(** [while((uinteg / divisor == 0) && (divisor >= 10))]: nine divisions by ten
    make 1 of the first divisor. *)
Fixpoint sput_divisor (n : nat) (uinteg divisor : Z) : Z :=
  match n with
  | O => divisor
  | S n' => if (uinteg / divisor =? 0) && (10 <=? divisor) then sput_divisor n' uinteg (divisor / 10) else divisor
  end.
(** [while(divisor >= 10)]: what is left of the number, and the index. *)
Fixpoint sput_digits (n : nat) (str num divisor index : Z) : cmd mem (Z * Z) :=
  match n with
  | O => ret (num, index)
  | S n' =>
      if 10 <=? divisor then
        poke (str + index) (u8 (48 + num / divisor)) ;;;
        sput_digits n' str (num mod divisor) (divisor / 10) (index + 1)
      else ret (num, index)
  end.
Definition sputuint (str uinteg : Z) : cmd mem Z :=
  let divisor := sput_divisor 9 uinteg 1000000000 in
  ni <- sput_digits 9 str uinteg divisor 0 ;;
  poke (str + ni.2) (u8 (48 + ni.1)) ;;;
  poke (str + (ni.2 + 1)) 0 ;;;
  ret (ni.2 + 1).

Definition sputint (str num : Z) : cmd mem Z :=
  if 0 <=? num then sputuint str (u32 num)
  else
    poke str 45 ;;;
    written <- sputuint (str + 1) (u32 (- num)) ;;
    ret (written + 1).

Definition isdigit (c : Z) : bool := (48 <=? c) && (c <=? 57).
Definition isspace (c : Z) : bool := (c =? 32) || (c =? 10) || (c =? 9).
Definition islower (c : Z) : bool := (97 <=? c) && (c <=? 122).
Definition isxdigit (c : Z) : bool :=
  isdigit c || ((97 <=? c) && (c <=? 102)) || ((65 <=? c) && (c <=? 70)).
Definition toupper (c : Z) : Z := if islower c then c - 32 else c.
Definition digit_value (c : Z) : Z := if isdigit c then c - 48 else toupper c - 65 + 10.

Fixpoint strtoul_loop (fuel : nat) (width cp base result : Z) : cmd mem (Z * Z) :=
  match fuel with
  | O => hang
  | S fuel' =>
      c <- peek cp ;;
      let c := schar c in
      if isxdigit c && (digit_value c <? base) then
        strtoul_loop fuel' width (cp + 1) base ((result * base + digit_value c) mod 2 ^ width)
      else ret (result, cp)
  end.

(** The prefix: base 0 means 10, or 8 after '0', or 16 after '0x' and a digit. *)
Definition number_base (cp base : Z) : cmd mem (Z * Z) :=
  if base =? 0 then
    c <- peek cp ;;
    if c =? 48 then
      c <- peek (cp + 1) ;;
      d <- peek (cp + 2) ;;
      if (c =? 120) && isxdigit (schar d) then ret (cp + 2, 16) else ret (cp + 1, 8)
    else ret (cp, 10)
  else ret (cp, base).

(** The result and the end pointer, stored through [endp] unless it is NULL. *)
Definition parse_number (width cp endp base : Z) : cmd mem Z :=
  r <- number_base cp base ;;
  fuel <- gets str_fuel ;;
  v <- strtoul_loop fuel width r.1 r.2 0 ;;
  (if negb (endp =? 0) then modify (fun m => wr32 m endp v.2) else ret tt) ;;;
  ret v.1.

Definition strtoul (cp endp base : Z) : cmd mem Z := parse_number 32 cp endp base.
Definition strtol (cp endp base : Z) : cmd mem Z :=
  c <- peek cp ;;
  if c =? 45 then v <- strtoul (cp + 1) endp base ;; ret (i32 (- v))
  else v <- strtoul cp endp base ;; ret (i32 v).
Definition strtoull (cp endp base : Z) : cmd mem Z := parse_number 64 cp endp base.
Definition i64 (x : Z) : Z := (x + 2 ^ 63) mod 2 ^ 64 - 2 ^ 63.
Definition strtoll (cp endp base : Z) : cmd mem Z :=
  c <- peek cp ;;
  if c =? 45 then v <- strtoull (cp + 1) endp base ;; ret (i64 (- v))
  else v <- strtoull cp endp base ;; ret (i64 v).

(** ** [stdlib.c] *)

Fixpoint atoi_digits (fuel : nat) (str acum cur_len : Z) : cmd mem (Z * Z) :=
  match fuel with
  | O => hang
  | S fuel' =>
      c <- peek str ;;
      let c := schar c in
      if (48 <=? c) && (c <=? 57) then
        atoi_digits fuel' (str + 1) (i32 (i32 (acum * 10) + (c - 48))) (cur_len + 1)
      else ret (acum, cur_len)
  end.
Definition atoi (str : Z) : cmd mem Z :=
  len <- strlen str ;;
  fuel <- gets str_fuel ;;
  c <- peek str ;;
  r <- (if c =? 45 then atoi_digits fuel (str + 1) 0 0 else atoi_digits fuel str 0 0) ;;
  let factor := if c =? 45 then -1 else 1 in
  if negb (r.2 =? len) then ret (-1) else ret (i32 (factor * r.1)).

(** The digits of [n], least significant first: at most ten for 32 bits. *)
Fixpoint itoa_loop (k : nat) (n s : Z) : cmd mem Z :=
  match k with
  | O => hang
  | S k' =>
      poke s (Z.rem n 10 + 48) ;;;
      let n := Z.quot n 10 in
      if 0 <? n then itoa_loop k' n (s + 1) else ret (s + 1)
  end.
Definition itoa (value s : Z) : cmd mem Z :=
  let n := if value <? 0 then i32 (- value) else value in
  rev <- (if value <? 0 then poke s 45 ;;; ret (s + 1) else ret s) ;;
  e <- itoa_loop 10 n rev ;;
  strrev rev (e - rev) ;;;
  len <- strlen e ;;
  poke (e + len) 0 ;;;
  ret (e - s).

(** * Moving overlapping blocks *)

(** Memory after [len] bytes were moved from [src] to [dst]. *)
Definition moved (m m' : mem) (dst src len : Z) : Prop :=
  forall x, rd8 m' x = if decide (dst <= x < dst + len) then rd8 m (src + (x - dst)) else rd8 m x.

Lemma memcpy_loop_run n d s i m : memcpy_loop n d s i m = Ret (tt, memcpy_loop8 n m d s i).
Proof.
  revert i m. induction n as [|n IH]; intros i m; cbn [memcpy_loop memcpy_loop8]; [done|].
  unfold bind, peek, poke, gets, modify. apply IH.
Qed.

Lemma move_bytes_run i d s m :
  s <= d -> exists m', move_bytes i d s m = Ret (tt, m') /\ moved m m' d s (Z.of_nat i).
Proof.
  intros Hsd. revert m. induction i as [|i IH]; intros m; cbn [move_bytes].
  { exists m. split; [done|]. intros x. by rewrite decide_False by lia. }
  unfold bind, peek, poke, gets, modify.
  destruct (IH (wr8 m (d + Z.of_nat i) (rd8 m (s + Z.of_nat i)))) as (m' & Hrun & Hm). exists m'.
  split; [done|]. intros x. rewrite Hm, !rd8_wr8.
  repeat case_decide; try lia; try done.
  - subst x. rewrite u8_small by apply rd8_range. f_equal. lia.
Qed.

Lemma move_words_run i d s m :
  s <= d -> s mod 4 = 0 -> d mod 4 = 0 ->
  exists m', move_words i d s m = Ret (tt, m') /\ moved m m' d s (4 * Z.of_nat i).
Proof.
  intros Hsd Hs Hd. revert m. induction i as [|i IH]; intros m; cbn [move_words].
  { exists m. split; [done|]. intros x. by rewrite decide_False by lia. }
  unfold bind, gets, modify.
  destruct (IH (wr32 m (d + 4 * Z.of_nat i) (rd32 m (s + 4 * Z.of_nat i)))) as (m' & Hrun & Hm).
  exists m'. split; [done|]. intros x. rewrite Hm.
  destruct (decide (d <= x < d + 4 * Z.of_nat i)).
  - rewrite decide_True by lia. apply rd8_wr32_ne. zdm.
  - destruct (decide (d + 4 * Z.of_nat i <= x < d + 4 * Z.of_nat i + 4)).
    + rewrite decide_True by lia. rewrite rd8_wr32_in by lia.
      replace (s + (x - d)) with (s + 4 * Z.of_nat i + (x - (d + 4 * Z.of_nat i))) by lia.
      apply rd8_of_rd32. lia.
    + rewrite decide_False by lia. apply rd8_wr32_ne. lia.
Qed.

(** [memmove] is correct for every overlap and on all three of its paths
    (forward copy, backward by words, backward by bytes): afterwards the
    destination holds what the source held before, every other byte is
    unchanged, and the destination pointer is returned. *)
Theorem memmove_correct m dst src len :
  0 <= len -> wp (memmove dst src len) (fun r m' => r = dst /\ moved m m' dst src len) m.
Proof.
  intros Hl. unfold memmove. destruct (Z.ltb_spec dst src).
  - unfold memcpy. apply wp_bind. eapply wp_Ret; [apply memcpy_loop_run|]. apply wp_ret. split; [done|].
    intros x. rewrite memcpy_loop8_rd by lia. by rewrite Z.add_0_r, Z2Nat.id by lia.
  - apply wp_bind. destruct ((dst mod 4 =? 0) && (src mod 4 =? 0) && (len mod 4 =? 0)) eqn:Hw.
    + apply andb_true_iff in Hw as [[Hd%Z.eqb_eq Hs%Z.eqb_eq]%andb_true_iff Hm%Z.eqb_eq].
      destruct (move_words_run (Z.to_nat (len / 4)) dst src m) as (m' & Hrun & Hmv); [done..|].
      eapply wp_Ret; [exact Hrun|]. apply wp_ret. split; [done|].
      rewrite Z2Nat.id in Hmv by zdm. by replace (4 * (len / 4)) with len in Hmv by zdm.
    + destruct (move_bytes_run (Z.to_nat len) dst src m) as (m' & Hrun & Hmv); [done|].
      eapply wp_Ret; [exact Hrun|]. apply wp_ret. split; [done|]. by rewrite Z2Nat.id in Hmv by lia.
Qed.

Lemma memmove_correct_witness :
  wp (memmove 102 100 5) (fun r m' => r = 102 /\ moved (put_str ∅ 100 [65; 66; 67; 68; 69]) m' 102 100 5)
     (put_str ∅ 100 [65; 66; 67; 68; 69]).
Proof. apply (memmove_correct (put_str ∅ 100 [65; 66; 67; 68; 69]) 102 100 5). lia. Defined.

(** * Parsing *)

Lemma libc_strlen_run m p l fuel i :
  cstr m (p + i) l -> (length l < fuel)%nat ->
  strlen_loop fuel p i m = Ret (i + Z.of_nat (length l), m).
Proof.
  revert fuel i. induction l as [|c l IH]; intros fuel i H Hf;
    (destruct fuel as [|fuel]; [cbn in Hf; lia|]); cbn [strlen_loop length]; unfold bind, peek, gets.
  - cbn in H. rewrite H. cbn. by rewrite Z.add_0_r.
  - destruct H as (-> & Hc & H). rewrite (proj2 (Z.eqb_neq c 0)) by lia. cbn [negb].
    rewrite IH; [f_equal; f_equal; lia|by rewrite Z.add_assoc|cbn in Hf; lia].
Qed.

Lemma atoi_digits_count m p ds fuel a n :
  cstr m p ds -> (length ds < fuel)%nat ->
  exists v k, atoi_digits fuel p a n m = Ret ((v, n + k), m) /\ k <= Z.of_nat (length ds).
Proof.
  revert fuel p a n. induction ds as [|c ds IH]; intros fuel p a n H Hf;
    (destruct fuel as [|fuel]; [cbn in Hf; lia|]); cbn [atoi_digits]; unfold bind, peek, gets.
  - cbn in H. rewrite H. exists a, 0. rewrite Z.add_0_r. done.
  - destruct H as (-> & _ & H). case_match.
    + destruct (IH fuel (p + 1) (i32 (i32 (a * 10) + (schar c - 48))) (n + 1) H ltac:(cbn in Hf; lia))
        as (v & k & -> & Hk).
      exists v, (k + 1). split; [f_equal; f_equal; f_equal; lia|cbn; lia].
    + exists a, 0. rewrite Z.add_0_r. split; [done|cbn; lia].
Qed.

(** The library's [atoi] rejects every negative number: the sign is counted
    in the length of the string but not among the digits read, so whatever
    follows the '-', the result is -1. *)
Theorem libc_atoi_rejects_negative m p l : cstr m p (45 :: l) -> atoi p m = Ret (-1, m).
Proof.
  intros H. pose proof (cstr_size _ _ _ H) as Hsz. cbn [length] in Hsz.
  unfold atoi, strlen, bind, gets, peek. rewrite (libc_strlen_run m p (45 :: l));
    [|by rewrite Z.add_0_r|cbn; unfold str_fuel; lia].
  pose proof H as (Hc & _ & Hl). unfold gets. rewrite Hc. cbn [Z.eqb Pos.eqb].
  destruct (atoi_digits_count m (p + 1) l (str_fuel m) 0 0 Hl ltac:(unfold str_fuel; lia))
    as (v & k & -> & Hk).
  cbn [snd fst length]. destruct (Z.eqb_spec (0 + k) (0 + Z.of_nat (S (length l)))); [lia|done].
Qed.

Lemma libc_atoi_rejects_negative_witness :
  atoi 100 (put_str ∅ 100 [45; 53]) = Ret (-1, put_str ∅ 100 [45; 53]).
Proof. apply (libc_atoi_rejects_negative (put_str ∅ 100 [45; 53]) 100 [53]). by vm_compute. Defined.
