(* ===== verification/LibcNum.v ===== *)
(** Numbers as text in the C library: [strrev] and [itoa] of
    [libraries/libc/string.c] and [stdlib.c] write the decimal text of an
    integer, and [atoi] reads it back. *)
From stdpp Require Import base numbers gmap list.
From S2P Require Import Prelude Kmem KString Kstdio Libc.

(** * Decimal text *)

(** At most [k] digits, least significant first. *)
Fixpoint dec_digits (k : nat) (n : Z) : list Z :=
  match k with
  | O => []
  | S k' => (n mod 10 + 48) :: (if 0 <? n / 10 then dec_digits k' (n / 10) else [])
  end.
Definition decimal (n : Z) : list Z := reverse (dec_digits 10 n).
(** The smallest [int] has no negation: its digit is the character [(]. *)
Definition int_text (n : Z) : list Z :=
  if n =? - 2 ^ 31 then [45; 40] else if n <? 0 then 45 :: decimal (- n) else decimal n.

(** ** Digits of any base *)

Section radix.
Variables (b : Z) (ch : Z -> Z).
Hypothesis base : 1 < b.

(** The digits of [n], least significant first and without leading zeros, at
    most [k] of them; and exactly [k] of them, most significant first. *)
Fixpoint low_digits (k : nat) (n : Z) : list Z :=
  match k with
  | O => []
  | S k' => ch (n mod b) :: (if 0 <? n / b then low_digits k' (n / b) else [])
  end.
Fixpoint fixed_digits (k : nat) (n : Z) : list Z :=
  match k with O => [] | S k' => fixed_digits k' (n / b) ++ [ch (n mod b)] end.

Lemma base_pow_pos (k : nat) : 0 < b ^ Z.of_nat k.
Proof. apply Z.pow_pos_nonneg; lia. Qed.
Lemma base_pow_S (k : nat) : b ^ Z.of_nat (S k) = b * b ^ Z.of_nat k.
Proof. by rewrite Nat2Z.inj_succ, Z.pow_succ_r by lia. Qed.

(** The first digit. *)
Lemma fixed_digits_S k n : fixed_digits (S k) n = ch (n / b ^ Z.of_nat k mod b) :: fixed_digits k n.
Proof.
  revert n. induction k as [|k IH]; intros n.
  - cbn. by rewrite Z.div_1_r.
  - change (fixed_digits (S (S k)) n) with (fixed_digits (S k) (n / b) ++ [ch (n mod b)]). rewrite IH. cbn [app].
    rewrite base_pow_S. pose proof (base_pow_pos k). by rewrite Z.div_div by lia.
Qed.

(** They depend on the low part only. *)
Lemma fixed_digits_mod k n : fixed_digits k (n mod b ^ Z.of_nat k) = fixed_digits k n.
Proof.
  revert n. induction k as [|k IH]; intros n; [done|]. cbn [fixed_digits]. rewrite base_pow_S. pose proof (base_pow_pos k) as Hp.
  rewrite Z.rem_mul_r by lia. set (q := (n / b) mod b ^ Z.of_nat k).
  assert (Hm : 0 <= n mod b < b) by (apply Z.mod_pos_bound; lia).
  assert ((n mod b + b * q) / b = q) as -> by (rewrite Z.mul_comm, Z.div_add by lia; rewrite Z.div_small by lia; lia).
  assert ((n mod b + b * q) mod b = n mod b) as -> by (rewrite Z.mul_comm, Z.mod_add by lia; apply Z.mod_small; lia).
  unfold q. by rewrite IH.
Qed.

Lemma low_digits_fixed j k n :
  (j < k)%nat -> 0 <= n < b ^ Z.of_nat (S j) -> b ^ Z.of_nat j <= n \/ j = O -> reverse (low_digits k n) = fixed_digits (S j) n.
Proof.
  revert k n. induction j as [|j IH]; intros [|k] n Hk Hn Hlow; try lia; cbn [low_digits];
    rewrite reverse_cons; rewrite base_pow_S in Hn.
  - cbn [fixed_digits]. change (b ^ Z.of_nat 0) with 1 in Hn. rewrite Z.div_small by lia. done.
  - destruct Hlow as [Hlow|]; [|lia]. rewrite base_pow_S in Hlow, Hn. pose proof (base_pow_pos j) as Hp.
    assert (Hq : b ^ Z.of_nat j <= n / b) by (apply Z.div_le_lower_bound; lia).
    rewrite (proj2 (Z.ltb_lt 0 (n / b))) by lia.
    change (fixed_digits (S (S j)) n) with (fixed_digits (S j) (n / b) ++ [ch (n mod b)]). f_equal.
    apply IH; [lia| |by left]. split; [apply Z.div_pos; lia|]. apply Z.div_lt_upper_bound; [lia|]. rewrite base_pow_S. lia.
Qed.
End radix.

Lemma dec_digits_low k n : dec_digits k n = low_digits 10 (fun d => d + 48) k n.
Proof. revert n. induction k as [|k IH]; intros n; [done|]. cbn. by rewrite IH. Qed.

Lemma fill_digits_fixed k f num :
  (k <= f)%nat -> 0 <= num < 10 ^ Z.of_nat (S k) -> fill_digits f num (10 ^ Z.of_nat k) = fixed_digits 10 (fun d => d + 48) (S k) num.
Proof.
  revert f num. induction k as [|k IH]; intros f num Hf Hn.
  - change (10 ^ Z.of_nat 0) with 1. change (10 ^ Z.of_nat 1) with 10 in Hn.
    assert (fill_digits f num 1 = [u8 (48 + num)]) as -> by (by destruct f).
    cbn [fixed_digits app]. rewrite u8_small by lia. rewrite Z.mod_small by lia. by rewrite Z.add_comm.
  - destruct f as [|f]; [lia|]. cbn [fill_digits]. rewrite fixed_digits_S by lia. rewrite (base_pow_S 10) in Hn by lia.
    pose proof (base_pow_pos 10 ltac:(lia) k) as Hp. pose proof (base_pow_S 10 k) as HS.
    rewrite (proj2 (Z.leb_le _ _)) by lia.
    assert (10 ^ Z.of_nat (S k) / 10 = 10 ^ Z.of_nat k) as -> by (rewrite HS, Z.mul_comm; apply Z.div_mul; lia).
    assert (Hq : 0 <= num / 10 ^ Z.of_nat (S k) < 10) by (split; [apply Z.div_pos; lia|apply Z.div_lt_upper_bound; lia]).
    rewrite IH by (lia || apply Z.mod_pos_bound; lia). rewrite fixed_digits_mod by lia. rewrite u8_small, Z.mod_small by lia. f_equal. lia.
Qed.

(** The routines that print an [unsigned] print its decimal text. *)
Lemma unsigned_decimal u : is_u32 u -> unsigned_string u = decimal u.
Proof.
  intros Hu. unfold is_u32 in Hu. unfold unsigned_string, decimal. rewrite dec_digits_low.
  change 1000000000 with (10 ^ Z.of_nat 9). destruct (shrink_divisor_spec 9 u 9) as (j & Hj & -> & Hju & Hlow); [done|cbn; lia|].
  replace (Z.of_nat j + 1) with (Z.of_nat (S j)) in Hju by lia.
  rewrite fill_digits_fixed by lia. symmetry. apply low_digits_fixed; [lia|lia|lia|done].
Qed.

(** The text of a signed number. *)
Definition signed_decimal (n : Z) : list Z := if n <? 0 then 45 :: decimal (- n) else decimal n.

Lemma int_chars_decimal n : - 2 ^ 31 <= n < 2 ^ 31 -> int_chars n = signed_decimal n.
Proof.
  intros Hn. unfold int_chars, signed_decimal. rewrite !unsigned_decimal by apply u32_range.
  destruct (Z.leb_spec 0 n), (Z.ltb_spec n 0); try lia; by rewrite u32_small by lia.
Qed.

Lemma dec_digits_chars k n : 0 <= n -> Forall (fun c => 48 <= c <= 57) (dec_digits k n).
Proof.
  revert n. induction k as [|k IH]; intros n Hn; cbn; [done|].
  constructor; [zdm|]. destruct (Z.ltb_spec 0 (n / 10)); [|done]. apply IH. lia.
Qed.

Lemma dec_digits_value k n : 0 <= n < 10 ^ Z.of_nat k -> digits_value 0 (reverse (dec_digits k n)) = n.
Proof.
  revert n. induction k as [|k IH]; intros n Hn; [cbn in Hn; cbn; lia|]. cbn [dec_digits].
  rewrite reverse_cons. unfold digits_value. rewrite fold_left_app. cbn [fold_left].
  rewrite Nat2Z.inj_succ, Z.pow_succ_r in Hn by lia.
  destruct (Z.ltb_spec 0 (n / 10)).
  - assert (E : digits_value 0 (reverse (dec_digits k (n / 10))) = n / 10) by (apply IH; zdm).
    unfold digits_value in E. rewrite E. zdm.
  - cbn. zdm.
Qed.

Lemma dec_digits_length k n : (length (dec_digits k n) <= k)%nat.
Proof. revert n. induction k as [|k IH]; intros n; cbn; [lia|]. case_match; cbn; [specialize (IH (n / 10)); lia|lia]. Qed.

Lemma dec_digits_nonempty k n : dec_digits (S k) n <> [].
Proof. done. Qed.

Lemma decimal_chars n : 0 <= n -> Forall (fun c => 48 <= c <= 57) (decimal n).
Proof. intros. unfold decimal. apply Forall_reverse. by apply dec_digits_chars. Qed.

(** * Reversing a block *)

Lemma strrev_loop_spec n s i j m :
  0 <= i -> j <= i + 2 * Z.of_nat n ->
  exists m', strrev_loop n s i j m = Ret (tt, m') /\
    forall x, rd8 m' x = if decide (s + i <= x <= s + j) then rd8 m (2 * s + i + j - x) else rd8 m x.
Proof.
  revert i j m. induction n as [|n IH]; intros i j m Hi Hn; cbn [strrev_loop].
  { exists m. split; [done|]. intros x. case_decide; [|done]. f_equal. lia. }
  destruct (Z.ltb_spec i j) as [Hij|Hij].
  2:{ exists m. split; [done|]. intros x. case_decide; [|done]. f_equal. lia. }
  unfold bind, peek, poke, Prelude.gets, modify.
  destruct (IH (i + 1) (j - 1) (wr8 (wr8 m (s + i) (rd8 m (s + j))) (s + j) (rd8 m (s + i)))) as (m' & -> & Hm'); [lia..|].
  exists m'. split; [done|]. intros x. rewrite Hm', !rd8_wr8. unfold u8.
  pose proof (rd8_range m (s + i)). pose proof (rd8_range m (s + j)).
  rewrite !(Z.mod_small (rd8 m _)) by lia.
  destruct (decide (x = s + i)) as [->|]; [|destruct (decide (x = s + j)) as [->|]].
  - rewrite !decide_False by lia. rewrite decide_True by lia. f_equal. lia.
  - rewrite decide_False by lia. rewrite decide_True by lia. f_equal. lia.
  - destruct (decide (s + (i + 1) <= x <= s + (j - 1))).
    + rewrite !decide_False by lia. rewrite decide_True by lia. f_equal. lia.
    + rewrite decide_False by lia. done.
Qed.

Lemma strrev_spec s l m :
  0 <= l < 2 ^ 31 ->
  exists m', strrev s l m = Ret (tt, m') /\
    forall x, rd8 m' x = if decide (s <= x < s + l) then rd8 m (2 * s + l - 1 - x) else rd8 m x.
Proof.
  intros Hl. unfold strrev. rewrite i32_small by lia.
  destruct (strrev_loop_spec (Z.to_nat l) s 0 (l - 1) m) as (m' & E & H); [lia..|].
  exists m'. split; [done|]. intros x. rewrite H.
  destruct (decide (s <= x < s + l)).
  - rewrite decide_True by lia. f_equal. lia.
  - by rewrite decide_False by lia.
Qed.

(** * Writing a number *)

Lemma itoa_loop_spec k n s m :
  0 <= n < 10 ^ Z.of_nat (S k) ->
  exists m', itoa_loop (S k) n s m = Ret (s + Z.of_nat (length (dec_digits (S k) n)), m') /\
    m' = put_bytes m s (dec_digits (S k) n).
Proof.
  revert n s m. induction k as [|k IH]; intros n s m Hn.
  - assert (n / 10 = 0) as Hq by (cbn in Hn; zdm).
    cbn. unfold bind, poke, modify. rewrite (Z.quot_div_nonneg n 10), (Z.rem_mod_nonneg n 10) by lia. rewrite Hq. cbn.
    eexists. split; [done|]. done.
  - set (k1 := S k) in *. clearbody k1. cbn [itoa_loop dec_digits]. unfold bind at 1, poke, modify. rewrite (Z.quot_div_nonneg n 10), (Z.rem_mod_nonneg n 10) by lia.
    destruct (Z.ltb_spec 0 (n / 10)) as [Hq|Hq].
    + destruct (IH (n / 10) (s + 1) (wr8 m s (n mod 10 + 48))) as (m' & E & ->).
      { rewrite Nat2Z.inj_succ, Z.pow_succ_r in Hn by lia. zdm. }
      rewrite E. eexists. split; [|done]. do 2 f_equal. cbn [length]. lia.
    + eexists. split; [|done]. by do 2 f_equal.
Qed.

Lemma rd8_put_bytes m p cs x :
  Forall (fun c => 0 <= c < 256) cs ->
  rd8 (put_bytes m p cs) x =
    if decide (p <= x < p + Z.of_nat (length cs)) then default 0 (cs !! Z.to_nat (x - p)) else rd8 m x.
Proof.
  intros Hc. case_decide as Hx.
  - destruct (lookup_lt_is_Some_2 cs (Z.to_nat (x - p))) as [c E]; [lia|]. rewrite E. cbn.
    replace x with (p + Z.of_nat (Z.to_nat (x - p))) at 1 by lia. rewrite put_bytes_in by lia.
    replace (Z.to_nat (Z.of_nat (Z.to_nat (x - p)))) with (Z.to_nat (x - p)) by lia. rewrite E.
    apply u8_small. by eapply Forall_lookup_1 in Hc.
  - apply put_bytes_out. lia.
Qed.

Lemma Forall_bytes cs : Forall (fun c => 48 <= c <= 57) cs -> Forall (fun c => 0 <= c < 256) cs.
Proof. intros H. eapply Forall_impl; [exact H|]. cbn. lia. Qed.

(** Reversing written bytes is writing them reversed. *)
Lemma rd8_put_reverse m p cs x :
  Forall (fun c => 0 <= c < 256) cs -> p <= x < p + Z.of_nat (length cs) ->
  rd8 (put_bytes m p cs) (2 * p + Z.of_nat (length cs) - 1 - x) = rd8 (put_bytes m p (reverse cs)) x.
Proof.
  intros Hc Hx. rewrite !rd8_put_bytes; [|by apply Forall_reverse|done]. rewrite length_reverse, !decide_True by lia.
  rewrite reverse_lookup by lia. do 2 f_equal. lia.
Qed.

(** Bytes that are not zero are stored. *)
Lemma nonzero_run m p n : (forall x, 0 <= x < Z.of_nat n -> rd8 m (p + x) <> 0) -> (n <= size m)%nat.
Proof.
  intros Hn. set (q := p + Z.of_nat n).
  assert (Hd : forall x, x <> q -> rd8 (delete q m) x = rd8 m x) by (intros; unfold rd8; by rewrite lookup_delete_ne).
  assert (Hc : forall l k, (k + l = n)%nat -> cstr (delete q m) (p + Z.of_nat k) ((fun x => rd8 m (p + Z.of_nat x)) <$> seq k l)).
  { induction l as [|l IH]; intros k Hk; cbn [seq fmap list_fmap cstr].
    - replace (p + Z.of_nat k) with q by lia. unfold rd8. by rewrite lookup_delete_eq.
    - split; [apply Hd; lia|]. split; [apply Hn; lia|].
      replace (p + Z.of_nat k + 1) with (p + Z.of_nat (S k)) by lia. apply IH. lia. }
  specialize (Hc n 0%nat eq_refl). apply cstr_size in Hc. rewrite length_fmap, length_seq in Hc.
  pose proof (map_subseteq_size _ _ (delete_subseteq m q)). lia.
Qed.

(** Every string of the memory ends: at the first zero byte from [p] on. *)
Lemma strlen_ends m p : exists k, strlen p m = Ret (k, m) /\ rd8 m (p + k) = 0.
Proof.
  unfold strlen, bind, Prelude.gets.
  enough (forall fuel i, 0 <= i -> (forall x, 0 <= x < i -> rd8 m (p + x) <> 0) -> (size m < Z.to_nat i + fuel)%nat ->
    exists k, strlen_loop fuel p i m = Ret (k, m) /\ rd8 m (p + k) = 0) as H.
  { apply H; [lia|lia|unfold str_fuel; lia]. }
  induction fuel as [|fuel IH]; intros i Hi Hn Hf.
  - pose proof (nonzero_run m p (Z.to_nat i) ltac:(intros; apply Hn; lia)). lia.
  - cbn [strlen_loop]. unfold bind, peek, Prelude.gets. destruct (Z.eqb_spec (rd8 m (p + i)) 0) as [E|E]; cbn.
    + by exists i.
    + apply IH; [lia| |lia]. intros x Hx. destruct (decide (x = i)) as [->|]; [done|]. apply Hn. lia.
Qed.

(** The unsigned part of [itoa]. *)
Lemma itoa_digits n p m :
  0 <= n < 2 ^ 31 ->
  exists e m', itoa_loop 10 n p m = Ret (e, m') /\ e = p + Z.of_nat (length (decimal n)) /\
    exists m2, strrev p (e - p) m' = Ret (tt, m2) /\ forall x, rd8 m2 x = rd8 (put_bytes m p (decimal n)) x.
Proof.
  intros Hn. destruct (itoa_loop_spec 9 n p m) as (m' & E & ->); [cbn; lia|].
  pose proof (Forall_bytes _ (dec_digits_chars 10 n ltac:(lia))) as Hc. pose proof (dec_digits_length 10 n) as Hl.
  unfold decimal. rewrite length_reverse. set (ds := dec_digits 10 n) in *.
  exists (p + Z.of_nat (length ds)), (put_bytes m p ds). split; [done|]. split; [done|].
  replace (p + Z.of_nat (length ds) - p) with (Z.of_nat (length ds)) by lia.
  destruct (strrev_spec p (Z.of_nat (length ds)) (put_bytes m p ds)) as (m2 & E2 & Hm2); [lia|].
  exists m2. split; [done|]. intros x. rewrite Hm2. case_decide as Hx.
  - by rewrite <- rd8_put_reverse.
  - rewrite !put_bytes_out; [done|rewrite length_reverse; lia|lia].
Qed.

(** What [itoa] leaves in memory; it returns the number of characters. *)
Lemma itoa_spec n p m :
  - 2 ^ 31 <= n < 2 ^ 31 ->
  wp (itoa n p) (fun len m' => len = Z.of_nat (length (int_text n)) /\
    forall x, rd8 m' x = rd8 (put_bytes m p (int_text n)) x) m.
Proof.
  intros Hn. unfold itoa, int_text.
  assert (Hend : forall e m', wp (len <- strlen e ;; poke (e + len) 0 ;;; ret (e - p)) (fun l m2 => l = e - p /\ forall x, rd8 m2 x = rd8 m' x) m').
  { intros e m'. destruct (strlen_ends m' e) as (k & E & Hz). apply wp_bind. eapply wp_Ret; [exact E|].
    apply wp_bind, wp_modify, wp_ret. split; [done|]. intros x. rewrite rd8_wr8. case_decide; [|done]. by subst. }
  destruct (Z.eqb_spec n (- 2 ^ 31)) as [->|Hmin].
  { apply wp_bind, wp_bind, wp_modify, wp_ret. change (i32 (- - 2 ^ 31)) with (- 2 ^ 31).
    apply wp_bind. apply (wp_Ret _ _ _ (p + 1 + 1) (wr8 (wr8 m p 45) (p + 1) 40)); [reflexivity|]. apply wp_bind.
    replace (p + 1 + 1 - (p + 1)) with 1 by lia.
    apply (wp_Ret _ _ _ tt (wr8 (wr8 m p 45) (p + 1) 40)); [reflexivity|].
    eapply wp_mono; [apply Hend|]. intros len m3 [-> H3]. split; [cbn [length]; lia|]. exact H3. }
  destruct (Z.ltb_spec n 0) as [Hneg|Hpos].
  - rewrite i32_small by lia. apply wp_bind, wp_bind, wp_modify, wp_ret.
    destruct (itoa_digits (- n) (p + 1) (wr8 m p 45)) as (e & m' & E & -> & m2 & E2 & H2); [lia|].
    apply wp_bind. eapply wp_Ret; [exact E|]. apply wp_bind. eapply wp_Ret; [exact E2|].
    eapply wp_mono; [apply Hend|]. intros len m3 [-> H3]. split; [cbn [length]; lia|]. intros x. by rewrite H3, H2.
  - apply wp_bind, wp_ret. destruct (itoa_digits n p m) as (e & m' & E & -> & m2 & E2 & H2); [lia|].
    apply wp_bind. eapply wp_Ret; [exact E|]. apply wp_bind. eapply wp_Ret; [exact E2|].
    eapply wp_mono; [apply Hend|]. intros len m3 [-> H3]. split; [lia|]. intros x. by rewrite H3, H2.
Qed.

(** * Reading it back *)

Lemma libc_atoi_digits_run fuel m p ds a n :
  cstr m p ds -> Forall (fun c => 48 <= c <= 57) ds -> (length ds < fuel)%nat ->
  atoi_digits fuel p (i32 a) n m = Ret ((i32 (digits_value a ds), n + Z.of_nat (length ds)), m).
Proof.
  revert fuel p a n. induction ds as [|c ds IH]; intros fuel p a n H Hall Hf;
    (destruct fuel as [|fuel]; [cbn in Hf; lia|]); cbn [atoi_digits]; unfold bind, peek, Prelude.gets.
  - cbn in H. rewrite H. cbn. by rewrite Z.add_0_r.
  - destruct H as (-> & _ & H). apply Forall_cons_1 in Hall as [Hc Hall].
    assert (schar c = c) as -> by (unfold schar; case_zbool; lia).
    rewrite (proj2 (Z.leb_le 48 c)), (proj2 (Z.leb_le c 57)) by lia. cbn [andb].
    assert (i32 (i32 (i32 a * 10) + (c - 48)) = i32 (a * 10 + (c - 48))) as -> by (unfold i32; zdm).
    rewrite IH; [|done|done|cbn in Hf; lia]. do 3 f_equal. cbn [length]. lia.
Qed.

Lemma int_text_bytes n : - 2 ^ 31 <= n -> Forall (fun c => 0 < c < 256) (int_text n).
Proof.
  intros Hn. unfold int_text. destruct (Z.eqb_spec n (- 2 ^ 31)); [by repeat constructor|]. destruct (Z.ltb_spec n 0).
  - constructor; [lia|]. eapply Forall_impl; [apply decimal_chars; lia|]. cbn. lia.
  - eapply Forall_impl; [apply decimal_chars; lia|]. cbn. lia.
Qed.

Lemma int_text_length n : (length (int_text n) <= 11)%nat.
Proof.
  unfold int_text, decimal. pose proof (dec_digits_length 10 n). pose proof (dec_digits_length 10 (- n)).
  repeat case_match; cbn [length]; rewrite ?length_reverse; lia.
Qed.

(** Text written over a place where a zero byte follows is a string. *)
Lemma text_cstr m m' p cs :
  Forall (fun c => 0 < c < 256) cs -> rd8 m (p + Z.of_nat (length cs)) = 0 ->
  (forall x, rd8 m' x = rd8 (put_bytes m p cs) x) -> cstr m' p cs.
Proof.
  intros Hc Hz Hm. eapply cstr_ext; [|apply (put_bytes_cstr m p cs Hc)]. intros x Hx. rewrite Hm, rd8_wr8.
  case_decide as He; [|done]. rewrite He, put_bytes_out by lia. by rewrite Hz.
Qed.

(** The two functions one after the other, as a program calls them. *)
Definition itoa_atoi (n p : Z) : cmd mem Z := itoa n p ;;; atoi p.

(** [atoi] reads back what [itoa] writes: for every non-negative [int], in a
    buffer whose next byte is zero ([itoa] itself writes no terminator), the
    text is the decimal one and its value is the number. *)
Theorem itoa_atoi_roundtrip n p m :
  0 <= n < 2 ^ 31 -> (forall x, p <= x <= p + 10 -> rd8 m x = 0) ->
  exists m', itoa n p m = Ret (Z.of_nat (length (decimal n)), m') /\ cstr m' p (decimal n) /\
    itoa_atoi n p m = Ret (n, m').
Proof.
  intros Hn Hz. destruct (wp_inv _ _ _ (itoa_spec n p m ltac:(lia))) as (len & m' & E & -> & Hm).
  unfold int_text in *. rewrite (proj2 (Z.eqb_neq n _)), (proj2 (Z.ltb_ge n 0)) in E, Hm by lia.
  assert (Hl : (length (decimal n) <= 10)%nat) by (unfold decimal; rewrite length_reverse; apply dec_digits_length).
  pose proof (decimal_chars n ltac:(lia)) as Hd.
  assert (Hs : cstr m' p (decimal n)).
  { eapply text_cstr; [|apply Hz; lia|exact Hm]. eapply Forall_impl; [exact Hd|]. cbn. lia. }
  exists m'. split; [done|]. split; [done|]. unfold itoa_atoi, bind at 1. rewrite E.
  pose proof (cstr_size _ _ _ Hs) as Hsz. unfold atoi, strlen, bind, Prelude.gets, peek.
  rewrite (libc_strlen_run m' p (decimal n)); [|by rewrite Z.add_0_r|unfold str_fuel; lia].
  assert (Hv : digits_value 0 (decimal n) = n).
  { apply dec_digits_value. change (10 ^ Z.of_nat 10) with 10000000000. lia. }
  assert (rd8 m' p <> 45) as Hc.
  { destruct (decimal n) as [|c ds] eqn:Ed.
    - cbn in Hs. lia.
    - destruct Hs as [-> _]. apply Forall_cons_1 in Hd as [Hd _]. lia. }
  unfold Prelude.gets. rewrite (proj2 (Z.eqb_neq _ _) Hc).
  change 0 with (i32 0) at 1. rewrite (libc_atoi_digits_run (str_fuel m') m' p (decimal n) 0 0 Hs Hd) by (unfold str_fuel; lia).
  rewrite Hv. cbn [fst snd]. rewrite Z.eqb_refl. cbn [negb]. rewrite Z.mul_1_l, (i32_small n), i32_small by lia. done.
Qed.

Lemma itoa_atoi_roundtrip_witness : exists m', itoa 2026 64 ∅ = Ret (4, m') /\ cstr m' 64 [50; 48; 50; 54] /\
  itoa_atoi 2026 64 ∅ = Ret (2026, m').
Proof. apply (itoa_atoi_roundtrip 2026 64 ∅); [lia|]. intros x _. done. Defined.
