(* ===== verification/Libm.v ===== *)
(** The mathematical library, [libraries/libm]: one definition per function, over
    an interface of double-precision arithmetic.

    [Double] has the operations the compiler provides (arithmetic, comparison,
    conversion, literals) and the two views of [union dshape].  The series and
    scaling loops take fuel: whether they end depends on the arithmetic. *)
From stdpp Require Import base numbers list.
From S2P Require Import Prelude.

(** [d_lit m e] is the literal [m] times ten to the [e]; [d_p2 k] two to the [k];
    [d_trunc] the conversion to [int]. *)
Class Double (D : Type) := {
  d_add : D -> D -> D;
  d_sub : D -> D -> D;
  d_mul : D -> D -> D;
  d_div : D -> D -> D;
  d_opp : D -> D;
  d_ltb : D -> D -> bool;
  d_leb : D -> D -> bool;
  d_eqb : D -> D -> bool;
  d_int : Z -> D;
  d_trunc : D -> Z;
  d_lit : Z -> Z -> D;
  d_p2 : Z -> D;
  d_bits : D -> Z;
  d_of_bits : Z -> D
}.

Declare Scope double_scope.
Delimit Scope double_scope with D.
Infix "+" := d_add : double_scope.
Infix "-" := d_sub : double_scope.
Infix "*" := d_mul : double_scope.
Infix "/" := d_div : double_scope.
Notation "- x" := (d_opp x) : double_scope.

(** [(uint64_t) x] *)
Definition u64 (x : Z) : Z := x mod 2 ^ 64.

Section libm.
Context {D S : Type} `{Double D}.
#[local] Abbreviation dbl := (cmd S D).
#[local] Open Scope double_scope.

Definition PI : D := d_lit 31415926535897932384626433832795 (-31).
Definition LN10 : D := d_lit 23025850929940456840179914546844 (-31).
Definition LN2 : D := d_lit 69314718055994530941723212145818 (-32).
Definition HUGE_VAL : D := d_lit 9999999999999999999999 51.
Definition DBL_MIN : D := d_lit 1 (-37).
(** The literals 0.0, 1.0, 2.0, 3.0, 4.0. *)
Definition d0 : D := d_lit 0 0.
Definition d1 : D := d_lit 1 0.
Definition d2 : D := d_lit 2 0.
Definition d3 : D := d_lit 3 0.
Definition d4 : D := d_lit 4 0.

Definition fabs (x : D) : D := if d_ltb x d0 then - x else x.

Definition floor (x : D) : D :=
  let y := if d_ltb x d0 then
             let y := d_trunc x in
             if negb (d_eqb (d_int y) x) then i32 (y - 1)%Z else y
           else d_trunc x in
  d_int y.

Definition ceil (x : D) : D :=
  let y := d_trunc x in
  d_int (if d_ltb (d_int y) x then i32 (y + 1)%Z else y).

Definition fmod (x y : D) : D :=
  if d_eqb y d0 then d0
  else let imod := d_trunc (x / y) in x - d_int imod * y.

(** The second result is what is stored through [e]. *)
Definition modf (x : D) : D * D :=
  let neg := d_ltb x d0 in
  let x := if neg then - x else x in
  let i := d_trunc x in
  let x := x - d_int i in
  if neg then (- x, d_int (i32 (- i)%Z)) else (x, d_int i).

Definition huge : D := d_lit 1 300.

(** [i0] and [i1] are the two words of the number, [j0] its exponent. *)
Definition trunc (x : D) : D :=
  let bits := d_bits x in
  let i0 := i32 (Z.shiftr bits 32) in
  let i1 := i32 (u32 bits) in
  let j0 := (Z.land (Z.shiftr i0 20) 0x7ff - 0x3ff)%Z in
  let pack i0 i1 := d_of_bits (Z.lor (u64 (Z.shiftl (u64 i0) 32)) (u32 i1)) in
  let positive := d_ltb d0 (huge + x) in
  if (j0 <? 20)%Z then
    if (j0 <? 0)%Z then
      if positive then pack (i32 (Z.land (u32 i0) 0x80000000)) 0%Z else pack i0 i1
    else
      let i := Z.shiftr 0x000fffff j0 in
      if (Z.lor (Z.land (u32 i0) i) (u32 i1) =? 0)%Z then x
      else if positive then pack (i32 (Z.ldiff (u32 i0) i)) 0%Z else pack i0 i1
  else if (51 <? j0)%Z then
    if (j0 =? 0x400)%Z then x + x else x
  else
    let i := Z.shiftr 0xffffffff (j0 - 20)%Z in
    if (Z.land (u32 i1) i =? 0)%Z then x
    else if positive then pack i0 (i32 (Z.ldiff (u32 i1) i)) else pack i0 i1.

(** [e] is what the variable behind the pointer holds before the call. *)
Fixpoint frexp (fuel : nat) (x : D) (e : Z) : cmd S (D * Z) :=
  match fuel with
  | O => hang
  | Datatypes.S fuel' =>
      let i := d_bits x in
      let ee := Z.land (Z.shiftr i 52) 0x7ff in
      if (ee =? 0)%Z then
        if negb (d_eqb x d0) then
          r <- frexp fuel' (x * d_p2 64) e ;; ret (r.1, i32 (r.2 - 64)%Z)
        else ret (x, 0%Z)
      else if (ee =? 0x7ff)%Z then ret (x, e)
      else ret (d_of_bits (Z.lor (Z.land i 0x800fffffffffffff) 0x3fe0000000000000), (ee - 0x3fe)%Z)
  end.

(** The scale of [ldexp]: the word that is stored in [u.bits]. *)
Definition ldexp_bits (n : Z) : Z := Z.lor (u32 (Z.shiftl (u32 (0x3ff + n)%Z) 20)) 0.
Definition ldexp (x : D) (n : Z) : D :=
  let finish x n := x * d_of_bits (ldexp_bits n) in
  if (1023 <? n)%Z then
    let x := x * d_p2 1023 in
    let n := (n - 1023)%Z in
    if (1023 <? n)%Z then
      let x := x * d_p2 1023 in
      let n := (n - 1023)%Z in
      if (1023 <? n)%Z then x * d_p2 1023 else finish x n
    else finish x n
  else if (n <? -1022)%Z then
    let x := x * d_p2 (-1022) in
    let n := (n + 1022)%Z in
    if (n <? -1022)%Z then
      let x := x * d_p2 (-1022) in
      let n := (n + 1022)%Z in
      if (n <? -1022)%Z then x * d_p2 (-1022) else finish x n
    else finish x n
  else finish x n.

(** ** Roots *)

Fixpoint scale_up (fuel : nat) (xs pow1 : D) : cmd S (D * D) :=
  match fuel with
  | O => hang
  | Datatypes.S fuel' => if d_ltb xs d1 then scale_up fuel' (xs * d4) (pow1 / d2) else ret (xs, pow1)
  end.
Fixpoint scale_down (fuel : nat) (xs pow1 : D) : cmd S (D * D) :=
  match fuel with
  | O => hang
  | Datatypes.S fuel' => if d_leb d4 xs then scale_down fuel' (xs / d4) (pow1 * d2) else ret (xs, pow1)
  end.
(** The loop leaves when [i] exceeds 10, so thirteen rounds are enough. *)
Fixpoint newton (fuel : nat) (xs yn : D) (i : Z) : dbl :=
  match fuel with
  | O => hang
  | Datatypes.S fuel' =>
      let ynn := (yn + xs / yn) * d_lit 5 (-1) in
      if d_leb (fabs (ynn - yn)) (d_lit 10 0 * DBL_MIN) then ret ynn
      else if (10 <? i)%Z then ret ynn
      else newton fuel' xs ynn (i + 1)%Z
  end.
Definition sqrt (fuel : nat) (x : D) : dbl :=
  if d_ltb x d0 then ret d0
  else if d_eqb x d0 then ret d0
  else
    r <- scale_up fuel x (d_int 1) ;;
    r <- scale_down fuel r.1 r.2 ;;
    ynn <- newton 13 r.1 (r.1 / d2) 0 ;;
    ret (ynn * r.2).

Definition B1 : Z := 715094163.
Definition B2 : Z := 696219795.
Definition cbrt (x : D) : D :=
  let P0 := d_lit 187595182427177009643 (-20) in
  let P1 := - d_lit 188497979543377169875 (-20) in
  let P2 := d_lit 1621429720105354466140 (-21) in
  let P3 := - d_lit 758397934778766047437 (-21) in
  let P4 := d_lit 145996192886612446982 (-21) in
  let hx := i32 (Z.shiftr (d_bits x) 32) in
  let low := u32 (d_bits x) in
  let sign := Z.land (u32 hx) 0x80000000 in
  let hx := i32 (Z.lxor (u32 hx) sign) in
  let pack w := d_of_bits (Z.lor (u64 (Z.shiftl (u32 w) 32)) 0) in
  let finish t :=
    let r := (t * t) * (t / x) in
    let t := t * ((P0 + r * (P1 + r * P2)) + ((r * r) * r) * (P3 + r * P4)) in
    let t := d_of_bits (Z.land (u64 (d_bits t + 0x80000000)%Z) 0xffffffffc0000000) in
    let s := t * t in
    let r := x / s in
    let w := t + t in
    let r := (r - t) / (w + r) in
    t + t * r in
  if (0x7ff00000 <=? hx)%Z then x + x
  else if (hx <? 0x00100000)%Z then
    if (Z.lor (u32 hx) low =? 0)%Z then x
    else
      let t := d_of_bits (Z.lor (Z.land (d_bits d0) 0xffffffff) (u64 (Z.shiftl 0x43500000 32))) in
      let t := t * x in
      let high := u32 (Z.shiftr (d_bits t) 32) in
      finish (pack (Z.lor sign (u32 (Z.land high 0x7fffffff / 3 + B2)%Z)))
  else finish (pack (Z.lor sign (u32 (Z.quot hx 3 + B1)%Z))).

(** ** Exponential and logarithm *)

Fixpoint exp_loop (fuel : nat) (x term answer : D) (i : Z) : dbl :=
  match fuel with
  | O => hang
  | Datatypes.S fuel' =>
      let work := d_int i in
      let term := (term * x) / work in
      if d_eqb answer (answer + term) then ret answer else exp_loop fuel' x term (answer + term) (i + 1)%Z
  end.
Definition exp (fuel : nat) (x : D) : dbl := answer <- exp_loop fuel x x x 2 ;; ret (answer + d1).

Definition cosh (fuel : nat) (x : D) : dbl := dexpx <- exp fuel x ;; ret (d_lit 5 (-1) * (dexpx + d1 / dexpx)).
Definition sinh (fuel : nat) (x : D) : dbl := dexpx <- exp fuel x ;; ret (d_lit 5 (-1) * (dexpx - d1 / dexpx)).
Definition tanh (fuel : nat) (x : D) : dbl := dexp2 <- exp fuel (- d2 * x) ;; ret ((d1 - dexp2) / (d1 + dexp2)).

Fixpoint log_loop (fuel : nat) (xs term answer : D) (i : Z) : dbl :=
  match fuel with
  | O => hang
  | Datatypes.S fuel' =>
      let work := d_int i in
      let term := - (term * xs) in
      if d_eqb answer (answer + term / work) then ret answer else log_loop fuel' xs term (answer + term / work) (i + 1)%Z
  end.
(** [uninitialised]: what the local [scale] holds. *)
Definition log (fuel : nat) (uninitialised : Z) (x : D) : dbl :=
  if d_leb x (d_int 0) then ret HUGE_VAL
  else if d_eqb x d1 then ret d0
  else
    r <- frexp fuel x uninitialised ;;
    let xs := d1 * r.1 - d1 in
    answer <- log_loop fuel xs xs xs 2 ;;
    ret (answer + d_int r.2 * LN2).
Definition log10 (fuel : nat) (uninitialised : Z) (x : D) : dbl := l <- log fuel uninitialised x ;; ret (l / LN10).
Definition log2 (fuel : nat) (uninitialised : Z) (x : D) : dbl := l <- log fuel uninitialised x ;; ret (l / LN2).

(** [while(j>0)] runs [j] times. *)
Fixpoint pow_loop (n : nat) (xx x : D) : D :=
  match n with O => xx | Datatypes.S n' => pow_loop n' (xx * x) x end.
Definition pow (fuel : nat) (uninitialised : Z) (x y : D) : dbl :=
  let j := d_trunc y in
  let yy := d_int j in
  if d_eqb yy y then
    let neg := d_ltb y (d_int 0) in
    let j := if neg then i32 (- j)%Z else j in
    if d_eqb y (d_int 0) then ret d1
    else
      let xx := pow_loop (Z.to_nat (i32 (j - 1)%Z)) x x in
      ret (if neg then d1 / xx else xx)
  else if d_ltb x d0 then ret d0
  else if d_eqb y d0 then ret d1
  else l <- log fuel uninitialised x ;; exp fuel (y * l).

(** ** Trigonometry *)

Definition reduce (two x : D) : D := let i := d_trunc (x / (two * PI)) in x - d_int i * (d2 * PI).

Fixpoint sin_loop (fuel : nat) (x1 term answer : D) (i : Z) : dbl :=
  match fuel with
  | O => hang
  | Datatypes.S fuel' =>
      let work := d_int (i + 1)%Z in
      let term := (- (term * x1 * x1)) / (work * (work + d1)) in
      if d_eqb answer (answer + term) then ret answer else sin_loop fuel' x1 term (answer + term) (i + 2)%Z
  end.
Definition sin (fuel : nat) (x : D) : dbl := let x1 := reduce d2 x in sin_loop fuel x1 x1 x1 1.

Fixpoint cos_loop (fuel : nat) (x1 term answer : D) (i : Z) : dbl :=
  match fuel with
  | O => hang
  | Datatypes.S fuel' =>
      let work := d_int i in
      let term := (- (term * x1 * x1)) / (work * (work + d1)) in
      if d_eqb answer (answer + term) then ret answer else cos_loop fuel' x1 term (answer + term) (i + 2)%Z
  end.
Definition cos (fuel : nat) (x : D) : dbl := let x1 := reduce (d_int 2) x in cos_loop fuel x1 (d_int 1) (d_int 1) 1.

Definition tan (fuel : nat) (x : D) : dbl :=
  temp <- cos fuel x ;;
  if d_eqb temp d0 then ret HUGE_VAL
  else s <- sin fuel x ;; c <- cos fuel x ;; ret (s / c).

Fixpoint asin_loop (fuel : nat) (x coef powx answer : D) (i : Z) : dbl :=
  match fuel with
  | O => hang
  | Datatypes.S fuel' =>
      let work := d_int i in
      let coef := (coef * work) / (work + d_int 1) in
      let powx := powx * x * x in
      let term := coef * powx / (work + d2) in
      if d_eqb answer (answer + term) then ret answer else asin_loop fuel' x coef powx (answer + term) (i + 2)%Z
  end.
Fixpoint asin (fuel : nat) (y : D) : dbl :=
  match fuel with
  | O => hang
  | Datatypes.S fuel' =>
      let x := y in
      if d_ltb x d0 then r <- asin fuel' (- x) ;; ret (- r)
      else if d_ltb d1 x then ret HUGE_VAL
      else if d_ltb (d_lit 75 (-2)) x then
        x <- sqrt fuel (d1 - x * x) ;;
        r <- asin fuel' x ;;
        ret (PI / d2 - r)
      else asin_loop fuel x (d_int 1) x x 1
  end.

Fixpoint acos (fuel : nat) (x : D) : dbl :=
  match fuel with
  | O => hang
  | Datatypes.S fuel' =>
      if d_ltb d1 (fabs x) then ret HUGE_VAL
      else if d_ltb x d0 then r <- acos fuel' (- x) ;; ret (PI - r)
      else r <- sqrt fuel (d1 - x * x) ;; asin fuel r
  end.

Fixpoint atan_loop (fuel : nat) (x powx answer : D) (i : Z) : dbl :=
  match fuel with
  | O => hang
  | Datatypes.S fuel' =>
      let work := d_int i in
      let powx := d0 - powx * x * x in
      let term := powx / (work + d2) in
      if d_eqb answer (answer + term) then ret answer else atan_loop fuel' x powx (answer + term) (i + 2)%Z
  end.
Fixpoint atan (fuel : nat) (x : D) : dbl :=
  match fuel with
  | O => hang
  | Datatypes.S fuel' =>
      if d_ltb x d0 then r <- atan fuel' (- x) ;; ret (- r)
      else if d_ltb d1 x then r <- atan fuel' (d1 / x) ;; ret (PI / d_int 2 - r)
      else
        s3 <- sqrt fuel d3 ;;
        if d_ltb (d2 - s3) x then
          s3 <- sqrt fuel d3 ;;
          s3' <- sqrt fuel d3 ;;
          r <- atan fuel' ((x * s3 - d1) / (x + s3')) ;;
          ret (PI / d_lit 6 0 + r)
        else atan_loop fuel x x x 1
  end.
Definition atan2 (fuel : nat) (y x : D) : dbl :=
  if d_leb y x then
    if d_leb (- y) x then atan fuel (y / x)
    else r <- atan fuel (x / y) ;; ret (- PI / d_int 2 - r)
  else if d_leb (- y) x then r <- atan fuel (x / y) ;; ret (PI / d_int 2 - r)
  else if d_leb (d_int 0) y then r <- atan fuel (y / x) ;; ret (PI + r)
  else r <- atan fuel (y / x) ;; ret (- PI + r).
End libm.
