(* ===== verification/LibmSpec.v ===== *)
(** What the functions of [Libm] compute: [trunc] and [ldexp] on the bits of a
    number, and an instance of the arithmetic with the floats of the standard
    library, on which the functions run. *)
From stdpp Require Import base numbers list.
From Stdlib Require Import SpecFloat.
From S2P Require Import Prelude Libm.
#[local] Open Scope Z_scope.

(** * Bits of a double *)

(** Sign, exponent and mantissa; the size of a finite number in units of the
    smallest one, two to the -1074. *)
Definition sign_of (b : Z) : Z := b / 2 ^ 63.
Definition exponent_of (b : Z) : Z := (b / 2 ^ 52) mod 2 ^ 11.
Definition mantissa_of (b : Z) : Z := b mod 2 ^ 52.
Definition magnitude (b : Z) : Z :=
  if exponent_of b =? 0 then mantissa_of b else (2 ^ 52 + mantissa_of b) * 2 ^ (exponent_of b - 1).

(** The number with the fraction cut off: the sign alone, or the lowest bits of
    the mantissa cleared. *)
Definition trunc_bits (b : Z) : Z :=
  if exponent_of b <? 1023 then sign_of b * 2 ^ 63
  else if exponent_of b <? 1075 then b - b mod 2 ^ (1075 - exponent_of b)
  else b.

Lemma ldiff_ones a n : 0 <= n -> Z.ldiff a (Z.ones n) = a - a mod 2 ^ n.
Proof.
  intros Hn. rewrite Z.ldiff_ones_r, Z.shiftl_mul_pow2, Z.shiftr_div_pow2 by done.
  pose proof (Z.div_mod a (2 ^ n) ltac:(lia)). lia.
Qed.

Lemma ones_shiftr n k : 0 <= k <= n -> Z.shiftr (Z.ones n) k = Z.ones (n - k).
Proof. intros. rewrite Z.shiftr_div_pow2, Z.ones_div_pow2 by lia. done. Qed.

(** Clearing [32 + k] low bits clears [k] bits of the high word. *)
Lemma high_cleared b k : 0 <= b -> 0 <= k -> b - b mod 2 ^ (32 + k) = (b / 2 ^ 32 - (b / 2 ^ 32) mod 2 ^ k) * 2 ^ 32.
Proof.
  intros Hb Hk. rewrite Z.pow_add_r, Z.rem_mul_r by lia.
  pose proof (Z.div_mod b (2 ^ 32) ltac:(lia)). lia.
Qed.

Lemma mod_mod_pow b k n : 0 <= k <= n -> (b mod 2 ^ n) mod 2 ^ k = b mod 2 ^ k.
Proof.
  intros Hk. apply Z.mod_mod_divide. exists (2 ^ (n - k)). rewrite <- Z.pow_add_r by lia. f_equal. lia.
Qed.

Lemma low_cleared b k : 0 <= b -> 0 <= k <= 32 -> b - b mod 2 ^ k = b / 2 ^ 32 * 2 ^ 32 + (b mod 2 ^ 32 - (b mod 2 ^ 32) mod 2 ^ k).
Proof.
  intros Hb Hk. rewrite mod_mod_pow by lia. pose proof (Z.div_mod b (2 ^ 32) ltac:(lia)). lia.
Qed.

(** The exponent as the code reads it off the high word. *)
Lemma exponent_high b : 0 <= b < 2 ^ 64 ->
  Z.land (Z.shiftr (i32 (Z.shiftr b 32)) 20) 0x7ff = exponent_of b.
Proof.
  intros Hb. change 0x7ff with (Z.ones 11). rewrite Z.land_ones, !Z.shiftr_div_pow2 by lia.
  unfold exponent_of. change (2 ^ 52) with (2 ^ 32 * 2 ^ 20). rewrite <- Z.div_div by lia.
  remember (b / 2 ^ 32) as h. assert (0 <= h < 2 ^ 32) by (subst h; split; [apply Z.div_pos|apply Z.div_lt_upper_bound]; lia).
  assert (i32 h = h \/ i32 h = h + (-2) * 2 ^ 11 * 2 ^ 20) as [->| ->] by (unfold i32; zdm); [done|].
  by rewrite Z.div_add, Z.mod_add by lia.
Qed.

(** Packing the two words. *)
Lemma pack_words a c : Z.lor (u64 (Z.shiftl (u64 a) 32)) (u32 c) = u32 a * 2 ^ 32 + u32 c.
Proof.
  assert (u64 (Z.shiftl (u64 a) 32) = u32 a * 2 ^ 32) as ->.
  { unfold u64, u32. rewrite Z.shiftl_mul_pow2 by lia. rewrite Z.mul_mod_idemp_l by lia.
    change (2 ^ 64) with (2 ^ 32 * 2 ^ 32). by rewrite Z.mul_mod_distr_r by lia. }
  pose proof (u32_range c) as Hc. unfold is_u32 in Hc.
  rewrite <- (lor_add (u32 a) (u32 c) 32) by lia. by rewrite Z.shiftl_mul_pow2.
Qed.

Lemma land_ldiff a b c : Z.land a (Z.ldiff b c) = Z.ldiff (Z.land a b) c.
Proof. apply Z.bits_inj'. intros n _. rewrite ?Z.land_spec, ?Z.ldiff_spec, ?Z.land_spec. apply andb_assoc. Qed.

(** The sign bit kept alone. *)
Lemma sign_kept h : is_u32 h -> Z.land h 0x80000000 = h / 2 ^ 31 * 2 ^ 31.
Proof.
  intros Hh. change 0x80000000 with (Z.ldiff (Z.ones 32) (Z.ones 31)).
  rewrite land_ldiff, ldiff_ones, Z.land_ones, (Z.mod_small h) by (unfold is_u32 in Hh; lia).
  pose proof (Z.div_mod h (2 ^ 31) ltac:(lia)). lia.
Qed.

(** * Truncation *)

Section trunc.
Context {D : Type} `{Double D}.

(** The two words of a number, as the code takes them apart. *)
Lemma high_word b : 0 <= b < 2 ^ 64 -> u32 (i32 (Z.shiftr b 32)) = b / 2 ^ 32.
Proof.
  intros Hb. rewrite u32_i32, Z.shiftr_div_pow2 by lia. apply u32_small.
  split; [apply Z.div_pos|apply Z.div_lt_upper_bound]; lia.
Qed.
Lemma low_word b : u32 (i32 (u32 b)) = b mod 2 ^ 32.
Proof. by rewrite u32_i32, u32_idemp. Qed.

(** What [trunc] returns: on a number below one, with the fraction in the high
    word, in the low word, and on a number without one. *)
Lemma trunc_small (x : D) :
  0 <= d_bits x < 2 ^ 64 -> exponent_of (d_bits x) < 1023 -> d_ltb d0 (d_add huge x) = true ->
  trunc x = d_of_bits (sign_of (d_bits x) * 2 ^ 63).
Proof.
  intros Hb He Hp. unfold trunc. rewrite exponent_high, Hp, pack_words, u32_i32, high_word by done.
  destruct (Z.ltb_spec (exponent_of (d_bits x) - 1023) 20), (Z.ltb_spec (exponent_of (d_bits x) - 1023) 0); try lia.
  pose proof (u32_range (Z.shiftr (d_bits x) 32)) as Hh. rewrite <- u32_i32, high_word in Hh by done.
  rewrite sign_kept, Z.div_div by (done || lia). unfold sign_of. change (2 ^ 32 * 2 ^ 31) with (2 ^ 63).
  f_equal. change (u32 0) with 0. rewrite u32_small; [lia|]. unfold is_u32 in Hh.
  assert (d_bits x / 2 ^ 63 < 2) by (apply Z.div_lt_upper_bound; lia).
  assert (0 <= d_bits x / 2 ^ 63) by (apply Z.div_pos; lia). lia.
Qed.

Lemma trunc_high (x : D) k :
  0 <= d_bits x < 2 ^ 64 -> 1023 <= exponent_of (d_bits x) < 1043 -> d_ltb d0 (d_add huge x) = true ->
  k = 1075 - exponent_of (d_bits x) ->
  trunc x = if d_bits x mod 2 ^ k =? 0 then x else d_of_bits (d_bits x - d_bits x mod 2 ^ k).
Proof.
  intros Hb He Hp ->. unfold trunc. rewrite exponent_high, Hp, !pack_words, u32_i32, high_word, low_word by done.
  change 0x000fffff with (Z.ones 20). change (u32 0) with 0.
  destruct (Z.ltb_spec (exponent_of (d_bits x) - 1023) 20), (Z.ltb_spec (exponent_of (d_bits x) - 1023) 0); try lia.
  rewrite ones_shiftr, Z.land_ones, ldiff_ones by lia.
  set (k := 20 - (exponent_of (d_bits x) - 1023)).
  replace (1075 - exponent_of (d_bits x)) with (32 + k) by lia.
  rewrite high_cleared, Z.pow_add_r, Z.rem_mul_r by lia.
  set (h := d_bits x / 2 ^ 32). set (l := d_bits x mod 2 ^ 32).
  assert (0 <= h < 2 ^ 32) by (split; [apply Z.div_pos|apply Z.div_lt_upper_bound]; lia).
  assert (0 <= l < 2 ^ 32) by (apply Z.mod_pos_bound; lia).
  pose proof (Z.mod_pos_bound h (2 ^ k) ltac:(lia)). pose proof (Z.mod_le h (2 ^ k) ltac:(lia) ltac:(lia)).
  rewrite u32_i32, u32_small, Z.add_0_r by lia.
  assert (Z.lor (h mod 2 ^ k) l = 0 <-> l + 2 ^ 32 * (h mod 2 ^ k) = 0) by (rewrite Z.lor_eq_0_iff; lia).
  destruct (Z.eqb_spec (Z.lor (h mod 2 ^ k) l) 0), (Z.eqb_spec (l + 2 ^ 32 * (h mod 2 ^ k)) 0); tauto.
Qed.

Lemma trunc_low (x : D) k :
  0 <= d_bits x < 2 ^ 64 -> 1043 <= exponent_of (d_bits x) < 1075 -> d_ltb d0 (d_add huge x) = true ->
  k = 1075 - exponent_of (d_bits x) ->
  trunc x = if d_bits x mod 2 ^ k =? 0 then x else d_of_bits (d_bits x - d_bits x mod 2 ^ k).
Proof.
  intros Hb He Hp ->. unfold trunc. rewrite exponent_high, Hp, !pack_words, u32_i32, high_word, low_word by done.
  change 0xffffffff with (Z.ones 32).
  destruct (Z.ltb_spec (exponent_of (d_bits x) - 1023) 20), (Z.ltb_spec 51 (exponent_of (d_bits x) - 1023)); try lia.
  rewrite ones_shiftr, Z.land_ones, ldiff_ones by lia.
  replace (32 - (exponent_of (d_bits x) - 1023 - 20)) with (1075 - exponent_of (d_bits x)) by lia.
  set (k := 1075 - exponent_of (d_bits x)).
  rewrite (low_cleared (d_bits x) k), !mod_mod_pow by lia.
  assert (d_bits x mod 2 ^ 32 mod 2 ^ k = d_bits x mod 2 ^ k) as Hm by (apply mod_mod_pow; lia).
  pose proof (Z.mod_pos_bound (d_bits x) (2 ^ 32) ltac:(lia)) as Hl.
  pose proof (Z.mod_pos_bound (d_bits x) (2 ^ k) ltac:(lia)).
  assert (d_bits x mod 2 ^ 32 mod 2 ^ k <= d_bits x mod 2 ^ 32) as Hle by (apply Z.mod_le; [apply Hl|apply Z.pow_pos_nonneg; lia]).
  rewrite Hm in Hle.
  by rewrite u32_i32, u32_small by lia.
Qed.

(** The bits of the result. *)
Lemma trunc_bits_eq (x : D) :
  0 <= d_bits x < 2 ^ 64 -> exponent_of (d_bits x) < 0x7ff ->
  (exponent_of (d_bits x) < 1075 -> d_ltb d0 (d_add huge x) = true) ->
  d_bits (d_of_bits (trunc_bits (d_bits x))) = trunc_bits (d_bits x) ->
  d_bits (trunc x) = trunc_bits (d_bits x).
Proof.
  intros Hb He Hp. unfold trunc_bits.
  destruct (Z.ltb_spec (exponent_of (d_bits x)) 1023); [by rewrite trunc_small by auto with lia|].
  destruct (Z.ltb_spec (exponent_of (d_bits x)) 1075).
  - intros Hr. set (k := 1075 - exponent_of (d_bits x)) in *.
    assert (trunc x = if d_bits x mod 2 ^ k =? 0 then x else d_of_bits (d_bits x - d_bits x mod 2 ^ k)) as ->.
    { destruct (decide (exponent_of (d_bits x) < 1043)); [apply trunc_high|apply trunc_low]; auto with lia. }
    destruct (Z.eqb_spec (d_bits x mod 2 ^ k) 0) as [->|]; [lia|done].
  - intros _. unfold trunc. rewrite exponent_high by done.
    destruct (Z.ltb_spec (exponent_of (d_bits x) - 1023) 20); [lia|].
    destruct (Z.ltb_spec 51 (exponent_of (d_bits x) - 1023)); [|lia].
    destruct (Z.eqb_spec (exponent_of (d_bits x) - 1023) 0x400); [lia|done].
Qed.
End trunc.

(** * The size of the truncated number *)

Lemma fields_range b : 0 <= exponent_of b < 2 ^ 11 /\ 0 <= mantissa_of b < 2 ^ 52.
Proof. split; apply Z.mod_pos_bound; lia. Qed.

Lemma fields_of s e m : 0 <= e < 2 ^ 11 -> 0 <= m < 2 ^ 52 ->
  sign_of (s * 2 ^ 63 + e * 2 ^ 52 + m) = s /\
  exponent_of (s * 2 ^ 63 + e * 2 ^ 52 + m) = e /\
  mantissa_of (s * 2 ^ 63 + e * 2 ^ 52 + m) = m.
Proof. intros He Hm. unfold sign_of, exponent_of, mantissa_of. zdm. Qed.

Lemma fields_eq b : b = sign_of b * 2 ^ 63 + exponent_of b * 2 ^ 52 + mantissa_of b.
Proof. unfold sign_of, exponent_of, mantissa_of. zdm. Qed.

(** A number of which some low mantissa bits are cleared. *)
Lemma clear_fields b k : 0 <= k <= 52 ->
  b - b mod 2 ^ k = sign_of b * 2 ^ 63 + exponent_of b * 2 ^ 52 + (mantissa_of b - mantissa_of b mod 2 ^ k).
Proof.
  intros Hk. unfold mantissa_of at 2. rewrite mod_mod_pow by lia.
  pose proof (fields_eq b). lia.
Qed.

Lemma mod_shift m k : 0 <= k <= 52 -> (2 ^ 52 + m) mod 2 ^ k = m mod 2 ^ k.
Proof.
  intros Hk. replace (2 ^ 52) with (2 ^ (52 - k) * 2 ^ k) by (rewrite <- Z.pow_add_r by lia; f_equal; lia).
  by rewrite Z.add_comm, Z.mod_add by lia.
Qed.

Lemma trunc_bits_sign b : sign_of (trunc_bits b) = sign_of b.
Proof.
  unfold trunc_bits. destruct (fields_range b) as [He Hm].
  destruct (Z.ltb_spec (exponent_of b) 1023).
  - rewrite <- (Z.add_0_r (sign_of b * 2 ^ 63)), <- (Z.add_0_r (_ * _ + 0)).
    change 0 with (0 * 2 ^ 52) at 1. by apply fields_of.
  - destruct (Z.ltb_spec (exponent_of b) 1075); [|done]. rewrite clear_fields by lia. apply fields_of; [done|].
    pose proof (Z.mod_pos_bound (mantissa_of b) (2 ^ (1075 - exponent_of b)) ltac:(lia)).
    pose proof (Z.mod_le (mantissa_of b) (2 ^ (1075 - exponent_of b)) ltac:(lia) ltac:(lia)). lia.
Qed.

Lemma trunc_bits_magnitude b : magnitude (trunc_bits b) = 2 ^ 1074 * (magnitude b / 2 ^ 1074).
Proof.
  unfold trunc_bits. destruct (fields_range b) as [He Hm].
  destruct (Z.ltb_spec (exponent_of b) 1023).
  - destruct (fields_of (sign_of b) 0 0 ltac:(lia) ltac:(lia)) as (_ & Ee & Em).
    rewrite Z.mul_0_l, !Z.add_0_r in Ee, Em. unfold magnitude. rewrite Ee, Em. cbn [Z.eqb].
    rewrite Z.div_small; [lia|]. destruct (Z.eqb_spec (exponent_of b) 0); [lia|].
    assert (2 ^ (exponent_of b - 1) <= 2 ^ 1021) by (apply Z.pow_le_mono_r; lia).
    change (2 ^ 1074) with (2 ^ 53 * 2 ^ 1021). split; [lia|].
    apply Z.lt_le_trans with (2 ^ 53 * 2 ^ (exponent_of b - 1)); [|lia]. apply Z.mul_lt_mono_pos_r; lia.
  - destruct (Z.ltb_spec (exponent_of b) 1075).
    + rewrite clear_fields by lia. set (k := 1075 - exponent_of b).
      pose proof (Z.mod_pos_bound (mantissa_of b) (2 ^ k) ltac:(lia)).
      pose proof (Z.mod_le (mantissa_of b) (2 ^ k) ltac:(lia) ltac:(lia)).
      destruct (fields_of (sign_of b) (exponent_of b) (mantissa_of b - mantissa_of b mod 2 ^ k) He ltac:(lia)) as (_ & Ee & Em).
      unfold magnitude. rewrite Ee, Em. destruct (Z.eqb_spec (exponent_of b) 0); [lia|].
      replace (2 ^ 1074) with (2 ^ k * 2 ^ (exponent_of b - 1)) by (rewrite <- Z.pow_add_r by lia; f_equal; lia).
      rewrite Z.div_mul_cancel_r by lia.
      rewrite <- (mod_shift (mantissa_of b) k) by lia.
      pose proof (Z.div_mod (2 ^ 52 + mantissa_of b) (2 ^ k) ltac:(lia)). nia.
    + unfold magnitude. destruct (Z.eqb_spec (exponent_of b) 0); [lia|].
      replace (2 ^ (exponent_of b - 1)) with (2 ^ (exponent_of b - 1075) * 2 ^ 1074) by (rewrite <- Z.pow_add_r by lia; f_equal; lia).
      rewrite Z.mul_assoc, Z.div_mul by lia. lia.
Qed.

Section claims.
Context {D : Type} `{Double D}.

(** C13: [trunc] cuts the fraction off: for every finite number, the result has
    the sign of the argument and the largest whole number not above its size
    (sizes are counted in units of the smallest number, of which 2^1074 make one).
    The number is a 64-bit word, the sum with [huge] is above zero where the code
    tests it, and the result survives the way through [union dshape]. *)
Theorem trunc_correct (x : D) :
  0 <= d_bits x < 2 ^ 64 ->
  exponent_of (d_bits x) < 0x7ff ->
  (exponent_of (d_bits x) < 1075 -> d_ltb d0 (d_add huge x) = true) ->
  d_bits (d_of_bits (trunc_bits (d_bits x))) = trunc_bits (d_bits x) ->
  sign_of (d_bits (trunc x)) = sign_of (d_bits x) /\
  magnitude (d_bits (trunc x)) = 2 ^ 1074 * (magnitude (d_bits x) / 2 ^ 1074).
Proof.
  intros Hb He Hp Hr. rewrite trunc_bits_eq by done. split; [apply trunc_bits_sign|apply trunc_bits_magnitude].
Qed.

(** [ldexp] builds its scale in the low word: between the two scaling branches
    the factor is not two to the [n], whose size is 2^(1074 + n), but a number
    below the smallest normal one, of size (1023 + n) * 2^20. *)
Lemma ldexp_scale (x : D) n :
  -1022 <= n <= 1023 ->
  ldexp x n = d_mul x (d_of_bits (ldexp_bits n)) /\
  exponent_of (ldexp_bits n) = 0 /\ magnitude (ldexp_bits n) = (1023 + n) * 2 ^ 20.
Proof.
  intros Hn. split.
  - unfold ldexp. destruct (Z.ltb_spec 1023 n), (Z.ltb_spec n (-1022)); done || lia.
  - unfold ldexp_bits. rewrite Z.lor_0_r, (u32_small (0x3ff + n)) by lia.
    rewrite Z.shiftl_mul_pow2, u32_small by lia.
    assert (exponent_of ((1023 + n) * 2 ^ 20) = 0) as He.
    { unfold exponent_of. rewrite Z.div_small by lia. done. }
    split; [done|]. unfold magnitude. rewrite He. apply Z.mod_small. lia.
Qed.
End claims.

(** * IEEE arithmetic *)

(** The floats of the standard library at 53 bits of precision. *)
Module Binary64.
Definition prec : Z := 53.
Definition emax : Z := 1024.
Definition of_Z (m e : Z) : spec_float :=
  binary_normalize prec emax m e false.
Definition bits (x : spec_float) : Z :=
  let sgn (s : bool) := if s then 2 ^ 63 else 0 in
  match x with
  | S754_zero s => sgn s
  | S754_infinity s => sgn s + 0x7ff * 2 ^ 52
  | S754_nan => 0x7ff * 2 ^ 52 + 2 ^ 51
  | S754_finite s m e =>
      if Z.pos m <? 2 ^ 52 then sgn s + Z.pos m else sgn s + (e + 1075) * 2 ^ 52 + (Z.pos m - 2 ^ 52)
  end.
Definition of_bits (b : Z) : spec_float :=
  let s := 2 ^ 63 <=? b in
  let finite m e := match m with Z.pos p => S754_finite s p e | _ => S754_zero s end in
  if exponent_of b =? 0x7ff then if mantissa_of b =? 0 then S754_infinity s else S754_nan
  else if exponent_of b =? 0 then finite (mantissa_of b) (-1074)
  else finite (2 ^ 52 + mantissa_of b) (exponent_of b - 1075).
Definition to_int (x : spec_float) : Z :=
  match x with
  | S754_finite s m e => (if s then -1 else 1) * (if 0 <=? e then Z.pos m * 2 ^ e else Z.pos m / 2 ^ (- e))
  | _ => 0
  end.

#[global] Instance double : Double spec_float := {
  d_add := SFadd prec emax;
  d_sub := SFsub prec emax;
  d_mul := SFmul prec emax;
  d_div := SFdiv prec emax;
  d_opp := SFopp;
  d_ltb := SFltb;
  d_leb := SFleb;
  d_eqb := SFeqb;
  d_int n := of_Z n 0;
  d_trunc := to_int;
  d_lit m e := if 0 <=? e then of_Z (m * 10 ^ e) 0 else SFdiv prec emax (of_Z m 0) (of_Z (10 ^ (- e)) 0);
  d_p2 k := of_Z 1 k;
  d_bits := bits;
  d_of_bits := of_bits
}.
End Binary64.

(** -2.75 is cut to -2. *)
Lemma trunc_correct_witness :
  let x : spec_float := d_lit (-275) (-2) in
  d_bits x = 0xc006000000000000 /\ d_bits (trunc x) = 0xc000000000000000 /\
  sign_of (d_bits (trunc x)) = sign_of (d_bits x) /\
  magnitude (d_bits (trunc x)) = 2 ^ 1074 * (magnitude (d_bits x) / 2 ^ 1074).
Proof.
  intros x. split; [by vm_compute|]. split; [by vm_compute|].
  apply trunc_correct; [vm_compute; done|vm_compute; done|intros _; by vm_compute|by vm_compute].
Defined.

(** The functions run: the square root of two is one unit in the last place off,
    the sine of one is exact; one scaled by [ldexp] with exponent zero comes out
    near zero. *)
Example sqrt_two : sqrt (S := unit) 10 (d2 : spec_float) tt = Ret (Binary64.of_bits 0x3ff6a09e667f3bcc, tt).
Proof. by vm_compute. Qed.
Example sin_one : sin (S := unit) 40 (d1 : spec_float) tt = Ret (Binary64.of_bits 4605754516372524270, tt).
Proof. by vm_compute. Qed.
Example ldexp_one : d_bits (ldexp (d1 : spec_float) 0) = 0x3ff00000.
Proof. by vm_compute. Qed.
