(* ===== verification/LibcFloat.v ===== *)
(** Doubles in the C library: [sputfpoint] of [libraries/libc/string.c], which
    prints one, over the arithmetic of [Libm].

    In exact arithmetic it prints the first digits of a number of at least a
    tenth; smaller numbers it prints as zero, and the length it returns is 1
    whatever it wrote. *)
From stdpp Require Import base numbers gmap list.
From Stdlib Require Import QArith Qround Lqa.
From S2P Require Import Prelude Kmem KString Libc Libm.
#[local] Open Scope Z_scope.

Section printing.
Context {D : Type} `{Double D}.
#[local] Open Scope double_scope.

(** [while(num >= 1.0)] and [while(num < 0.1)]: the number and its exponent. *)
Fixpoint fp_down (fuel : nat) (num : D) (exponent : Z) : cmd mem (D * Z) :=
  match fuel with
  | O => hang
  | Datatypes.S fuel' =>
      if d_leb d1 num then fp_down fuel' (num / d_lit 10 0) (exponent + 1)%Z else ret (num, exponent)
  end.
Fixpoint fp_up (fuel : nat) (num : D) (exponent : Z) : cmd mem (D * Z) :=
  match fuel with
  | O => hang
  | Datatypes.S fuel' =>
      if d_ltb num (d_lit 1 (-1)) then fp_up fuel' (num * d_lit 10 0) (exponent - 1)%Z else ret (num, exponent)
  end.
(** [n] digits: where the string goes on, and what is left of the number. *)
Fixpoint fp_digits (n : nat) (ten : D) (str : Z) (num : D) : cmd mem (Z * D) :=
  match n with
  | O => ret (str, num)
  | Datatypes.S n' =>
      let digit := d_trunc (num * ten) in
      poke str (digit + 48)%Z ;;;
      fp_digits n' ten (str + 1)%Z (num * ten - d_int digit)
  end.
(** [while(exponent < 0 && places < width)]: the exponent goes down, so the loop
    leaves with [places = width] once it is entered. *)
Fixpoint fp_zeros (fuel : nat) (str exponent places : Z) : cmd mem (Z * Z) :=
  match fuel with
  | O => hang
  | Datatypes.S fuel' =>
      if ((exponent <? 0) && (places <? 4))%Z then
        poke str 48 ;;; fp_zeros fuel' (str + 1)%Z (exponent - 1)%Z (places + 1)%Z
      else ret (str, places)
  end.

(** The part behind the sign.  [places] counts the digits of the whole part, one
    for each step of [exponent] down to 0. *)
Definition fp_body (fuel : nat) (str : Z) (num : D) : cmd mem Z :=
  r <- fp_down fuel num 0 ;;
  r <- fp_up fuel r.1 r.2 ;;
  let exponent := r.2 in
  let places := Z.max 0 exponent in
  t <- fp_digits (Z.to_nat exponent) (d_int 10) str r.1 ;;
  str <- (if (places =? 0)%Z then poke t.1 48 ;;; ret (t.1 + 1)%Z else ret t.1) ;;
  poke str 46 ;;;
  z <- fp_zeros 5 (str + 1)%Z (Z.min 0 exponent) places ;;
  t <- fp_digits (Z.to_nat (4 - z.2)) (d_lit 10 0) z.1 t.2 ;;
  poke t.1 0 ;;;
  n <- strlen t.1 ;;
  ret (i32 (n + 1)).
Definition sputfpoint (fuel : nat) (str : Z) (num : D) : cmd mem Z :=
  if d_eqb num d0 then poke str 48 ;;; poke (str + 1)%Z 0 ;;; ret 3%Z
  else if d_ltb num d0 then poke str 45 ;;; fp_body fuel (str + 1)%Z (- num)
  else fp_body fuel str num.

(** As the formatting functions call it, with the two words of an argument. *)
Definition sputfpoint_words (fuel : nat) (str lo hi : Z) : cmd mem Z :=
  sputfpoint fuel str (d_of_bits (u32 hi * 2 ^ 32 + u32 lo)%Z).
End printing.

(** * Exact arithmetic *)

#[global] Instance exact : Double Q := {
  d_add := Qplus; d_sub := Qminus; d_mul := Qmult; d_div := Qdiv; d_opp := Qopp;
  d_ltb x y := negb (Qle_bool y x); d_leb := Qle_bool; d_eqb := Qeq_bool;
  d_int := inject_Z; d_trunc x := Z.quot (Qnum x) (QDen x);
  d_lit m e := if 0 <=? e then inject_Z (m * 10 ^ e) else Qmake m (Z.to_pos (10 ^ (- e)));
  d_p2 k := Qpower (inject_Z 2) k;
  d_bits _ := 0; d_of_bits _ := 0%Q
}.

(** The decimal digits of a number, the highest of [n] first. *)
Fixpoint digits (n : nat) (N : Z) : list Z :=
  match n with
  | O => []
  | S n' => 48 + N / 10 ^ Z.of_nat n' :: digits n' (N mod 10 ^ Z.of_nat n')
  end.

(** [v] with [f] digits behind the point and [e] before it. *)
Definition decimal (e f : nat) (v : Q) : list Z :=
  let N := Qfloor (v * inject_Z (10 ^ Z.of_nat f)) in
  digits e (N / 10 ^ Z.of_nat f) ++ 46 :: digits f (N mod 10 ^ Z.of_nat f).

#[local] Abbreviation p10 n := (inject_Z (10 ^ Z.of_nat n)).

Lemma p10_S n : (p10 (S n) == inject_Z 10 * p10 n)%Q.
Proof. rewrite Nat2Z.inj_succ, Z.pow_succ_r, inject_Z_mult by lia. reflexivity. Qed.
Lemma p10_pos n : (0 < p10 n)%Q.
Proof. change 0%Q with (inject_Z 0). rewrite <- Zlt_Qlt. apply Z.pow_pos_nonneg; lia. Qed.

Lemma trunc_floor x : (0 <= x)%Q -> d_trunc x = Qfloor x.
Proof.
  intros Hx. cbn. destruct x as [a b]. unfold Qle in Hx. cbn in Hx. cbn. rewrite Z.quot_div_nonneg by lia. done.
Qed.
Lemma floor_bound x z : (inject_Z z <= x)%Q -> (x < inject_Z (z + 1))%Q -> Qfloor x = z.
Proof.
  intros H1 H2. pose proof (Qfloor_le x). pose proof (Qlt_floor x).
  assert (inject_Z z < inject_Z (Qfloor x + 1))%Q as H3 by lra. assert (inject_Z (Qfloor x) < inject_Z (z + 1))%Q as H4 by lra.
  rewrite <- Zlt_Qlt in H3, H4. lia.
Qed.

(** A number times a power of ten, split at the point. *)
Lemma floor_split x n : (0 <= x)%Q ->
  let r := (x - inject_Z (Qfloor x))%Q in
  0 <= Qfloor (r * p10 n) < 10 ^ Z.of_nat n /\
  Qfloor (x * p10 n) = Qfloor x * 10 ^ Z.of_nat n + Qfloor (r * p10 n).
Proof.
  intros Hx r. pose proof (p10_pos n) as Hp. pose proof (Qfloor_le x) as H1. pose proof (Qlt_floor x) as H2.
  rewrite inject_Z_plus in H2. assert (0 <= r < 1)%Q as [Hr0 Hr1] by (unfold r; change (inject_Z 1) with 1%Q in H2; lra).
  assert (0 <= r * p10 n < p10 n)%Q as [Hm0 Hm1] by nra.
  pose proof (Qfloor_le (r * p10 n)) as H3. pose proof (Qlt_floor (r * p10 n)) as H4. split.
  - split.
    + change 0 with (Qfloor 0). apply Qfloor_resp_le. done.
    + rewrite Zlt_Qlt. lra.
  - apply floor_bound; rewrite ?inject_Z_plus, ?inject_Z_mult in *.
    + assert (x * p10 n == inject_Z (Qfloor x) * p10 n + r * p10 n)%Q as -> by (unfold r; ring). lra.
    + assert (x * p10 n == inject_Z (Qfloor x) * p10 n + r * p10 n)%Q as -> by (unfold r; ring). lra.
Qed.

Lemma floor_digit d r n : 0 <= r < 10 ^ Z.of_nat n ->
  (d * 10 ^ Z.of_nat n + r) / 10 ^ Z.of_nat n = d /\ (d * 10 ^ Z.of_nat n + r) mod 10 ^ Z.of_nat n = r.
Proof.
  intros Hr. split.
  - rewrite Z.div_add_l by lia. rewrite Z.div_small by lia. lia.
  - rewrite Z.add_comm, Z.mod_add by lia. by apply Z.mod_small.
Qed.

(** The digit loop writes the digits and leaves the fraction. *)
Lemma fp_digits_run n ten str (x : Q) m :
  (ten == inject_Z 10)%Q -> (0 <= x < 1)%Q ->
  exists x', fp_digits n ten str x m = Ret ((str + Z.of_nat n, x'), put_bytes m str (digits n (Qfloor (x * p10 n)))) /\
    (x' == x * p10 n - inject_Z (Qfloor (x * p10 n)))%Q.
Proof.
  intros Ht. revert str x m. induction n as [|n IH]; intros str x m Hx; cbn [fp_digits digits put_bytes].
  - exists x. rewrite Z.add_0_r. split; [done|]. assert (Qfloor (x * p10 0) = 0) as ->.
    { apply floor_bound; change (inject_Z (10 ^ Z.of_nat 0)) with 1%Q; change (inject_Z (0 + 1)) with 1%Q; change (inject_Z 0) with 0%Q; lra. }
    change (p10 0) with 1%Q. change (inject_Z 0) with 0%Q. ring.
  - change (inject_Z 10) with 10%Q in Ht. assert (0 <= x * ten)%Q as Hx0 by (rewrite Ht; lra).
    cbn [d_mul d_sub d_int exact]. rewrite (trunc_floor (x * ten)%Q Hx0). set (d := Qfloor (x * ten)).
    destruct (floor_split (x * ten) n Hx0) as [Hr Hs]. fold d in Hr, Hs.
    pose proof (Qfloor_le (x * ten)) as H1. pose proof (Qlt_floor (x * ten)) as H2. fold d in H1, H2.
    rewrite inject_Z_plus in H2. change (inject_Z 1) with 1%Q in H2.
    destruct (IH (str + 1) (x * ten - inject_Z d)%Q (wr8 m str (d + 48)) ltac:(lra)) as (x' & Hrun & Hx').
    assert (Qfloor (x * p10 (S n)) = d * 10 ^ Z.of_nat n + Qfloor ((x * ten - inject_Z d) * p10 n)) as ->.
    { rewrite <- Hs. apply Qfloor_comp. rewrite p10_S, Ht. change (inject_Z 10) with 10%Q. ring. }
    destruct (floor_digit d _ n Hr) as [-> ->]. exists x'. split.
    + unfold bind, poke, modify. rewrite Hrun. rewrite (Z.add_comm 48 d). do 3 f_equal. lia.
    + pose proof (p10_S n) as Hp. change (inject_Z 10) with 10%Q in Hp. revert Hx'.
      generalize (Qfloor ((x * ten - inject_Z d) * p10 n)). clearbody d. intros q Hx'.
      rewrite inject_Z_plus, inject_Z_mult, Hx', Hp, Ht. ring.
Qed.

(** ** Scaling *)

Lemma le_bool_true x y : (x <= y)%Q -> Qle_bool x y = true.
Proof. apply Qle_bool_iff. Qed.
Lemma le_bool_false x y : (y < x)%Q -> Qle_bool x y = false.
Proof. intros Hlt. destruct (Qle_bool x y) eqn:E; [|done]. apply Qle_bool_iff in E. lra. Qed.

Lemma p10_ge_1 n : (1 <= p10 n)%Q.
Proof. change 1%Q with (inject_Z 1). rewrite <- Zle_Qle. pose proof (Z.pow_pos_nonneg 10 (Z.of_nat n)). lia. Qed.

Lemma fp_down_run e fuel (x : Q) ex m :
  (e < fuel)%nat -> (p10 e <= 10 * x)%Q -> (x < p10 e)%Q ->
  exists x', fp_down fuel x ex m = Ret ((x', ex + Z.of_nat e), m) /\ (x' * p10 e == x)%Q.
Proof.
  revert fuel x ex. induction e as [|e IH]; intros [|fuel] x ex Hf Hle Hlt; try lia; cbn [fp_down].
  - exists x. change (d_leb d1 x) with (Qle_bool 1 x). change (p10 0) with 1%Q in *. rewrite le_bool_false by lra.
    rewrite Z.add_0_r. split; [done|]. ring.
  - rewrite p10_S in Hle, Hlt. change (inject_Z 10) with 10%Q in *. pose proof (p10_ge_1 e).
    change (d_leb d1 x) with (Qle_bool 1 x). rewrite le_bool_true by lra. change (d_div x _) with (x / 10)%Q.
    set (y := (x / 10)%Q). assert (x == 10 * y)%Q as Hy by (unfold y; field).
    destruct (IH fuel y (ex + 1) ltac:(lia)) as (x' & Hrun & Hx'); [lra|lra|].
    exists x'. rewrite Hrun. split; [do 3 f_equal; lia|]. pose proof (p10_S e) as Hp. change (inject_Z 10) with 10%Q in Hp.
    rewrite Hp, Hy, <- Hx'. ring.
Qed.

Lemma fp_up_run fuel (x : Q) ex m : (0 < fuel)%nat -> (1 <= 10 * x)%Q -> fp_up fuel x ex m = Ret ((x, ex), m).
Proof.
  intros Hf Hx. destruct fuel as [|fuel]; [lia|]. cbn [fp_up d_ltb d_lit exact]. rewrite le_bool_true; [done|].
  change (Qle (1 # 10) x). lra.
Qed.

(** ** The text *)

Lemma digits_length n N : length (digits n N) = n.
Proof. revert N. induction n as [|n IH]; intros N; cbn [digits length]; [done|]. by rewrite IH. Qed.

Lemma strlen_end m p : rd8 m p = 0 -> strlen p m = Ret (0, m).
Proof.
  intros Hz. unfold strlen, bind, gets. rewrite (libc_strlen_run m p []); [done| |unfold str_fuel; cbn; lia].
  by rewrite Z.add_0_r.
Qed.

Lemma lit_ten : (@d_lit Q exact 10 0 == inject_Z 10)%Q.
Proof. reflexivity. Qed.
Lemma int_ten : (@d_int Q exact 10 == inject_Z 10)%Q.
Proof. reflexivity. Qed.

(** What follows the point and the end of the string: [n] digits. *)
Lemma fp_finish n str (x : Q) m :
  (0 <= x < 1)%Q ->
  (t <- fp_digits n (d_lit 10 0) str x ;; poke t.1 0 ;;; k <- strlen t.1 ;; ret (i32 (k + 1))) m =
  Ret (1, put_bytes m str (digits n (Qfloor (x * p10 n)) ++ [0])).
Proof.
  intros Hx. destruct (fp_digits_run n (d_lit 10 0) str x m lit_ten Hx) as (x' & Hrun & _).
  unfold bind at 1. rewrite Hrun. cbn [fst]. unfold bind, poke, modify.
  rewrite strlen_end by (by rewrite rd8_wr8_same). rewrite put_bytes_app, digits_length. done.
Qed.

Lemma fp_body_run fuel str (v : Q) e m :
  (e < fuel)%nat -> (p10 e <= 10 * v)%Q -> (v < p10 e)%Q ->
  fp_body fuel str v m = Ret (1, put_bytes m str (decimal (max 1 e) (4 - e) v ++ [0])).
Proof.
  intros Hf Hle Hlt. pose proof (p10_ge_1 e) as H1. destruct (fp_down_run e fuel v 0 m Hf Hle Hlt) as (x & Hd & Hx).
  assert (0 <= x < 1 /\ 1 <= 10 * x)%Q as [Hx1 Hx2].
  { rewrite <- Hx in Hle, Hlt. pose proof (p10_pos e). split; nra. }
  unfold fp_body, bind at 1. rewrite Hd. unfold bind at 1. rewrite fp_up_run by (done || lia). cbn [fst snd].
  rewrite Z.add_0_l, Nat2Z.id, Z.max_r, Z.min_l by lia.
  destruct (fp_digits_run e (d_int 10) str x m int_ten Hx1) as (x1 & Hi & Hx1').
  unfold bind at 1. rewrite Hi. cbn [fst snd].
  assert (Qfloor (x * p10 e) = Qfloor v) as Ev by (by apply Qfloor_comp). rewrite Ev in *.
  assert (0 <= v)%Q as Hv by lra. pose proof (Qfloor_le v) as Hfl. pose proof (Qlt_floor v) as Hfu.
  rewrite inject_Z_plus in Hfu. change (inject_Z 1) with 1%Q in Hfu. rewrite Hx in Hx1'.
  assert (0 <= x1 < 1)%Q as Hx1b by lra. destruct (floor_split v (4 - e) Hv) as [Hr Hs].
  unfold decimal. rewrite Hs. destruct (floor_digit (Qfloor v) _ (4 - e) Hr) as [-> ->].
  rewrite (Qfloor_comp ((v - inject_Z (Qfloor v)) * p10 (4 - e)) (x1 * p10 (4 - e))) by (rewrite Hx1'; reflexivity).
  assert (forall s0 m0, (poke s0 46 ;;; z <- fp_zeros 5 (s0 + 1) 0 (Z.of_nat e) ;;
      t <- fp_digits (Z.to_nat (4 - z.2)) (d_lit 10 0) z.1 x1 ;; poke t.1 0 ;;; n <- strlen t.1 ;; ret (i32 (n + 1))) m0 =
      Ret (1, put_bytes m0 s0 (46 :: digits (4 - e) (Qfloor (x1 * p10 (4 - e))) ++ [0]))) as Hrest.
  { intros s0 m0. unfold bind at 1, poke at 1, modify. unfold bind at 1. cbn [fp_zeros Z.ltb Z.compare andb ret fst snd].
    replace (Z.to_nat (4 - Z.of_nat e)) with (4 - e)%nat by lia. by apply fp_finish. }
  destruct e as [|e].
  - assert (Qfloor v = 0) as ->.
    { apply floor_bound; [done|]. exact Hlt. }
    etransitivity; [exact (Hrest (str + 0 + 1) (wr8 m (str + 0) 48))|]. by rewrite Z.add_0_r.
  - rewrite (proj2 (Z.eqb_neq _ _)) by lia. unfold bind at 1, ret at 1. rewrite Hrest.
    rewrite Nat.max_r by lia. by rewrite <- app_assoc, put_bytes_app, digits_length.
Qed.

Lemma opp_opp (v : Q) : (- - v)%Q = v.
Proof. destruct v as [a b]. unfold Qopp. cbn. by rewrite Z.opp_involutive. Qed.

(** C16: In exact arithmetic [sputfpoint] prints a number of at least a tenth with
    its whole part and as many digits of its fraction as make four digits in all,
    cut off, behind a minus sign where it is negative, and a terminator; it
    returns 1, not the length. *)
Theorem sputfpoint_decimal fuel str (v : Q) e m :
  (e < fuel)%nat -> (p10 e <= 10 * v)%Q -> (v < p10 e)%Q ->
  sputfpoint fuel str v m = Ret (1, put_bytes m str (decimal (max 1 e) (4 - e) v ++ [0])) /\
  sputfpoint fuel str (- v)%Q m = Ret (1, put_bytes m str (45 :: decimal (max 1 e) (4 - e) v ++ [0])).
Proof.
  intros Hf Hle Hlt. pose proof (p10_ge_1 e). assert (0 < v)%Q as Hv by lra. unfold sputfpoint.
  assert (forall x : Q, d_eqb x d0 = Qeq_bool x 0) as He by done.
  assert (forall x : Q, d_ltb x d0 = negb (Qle_bool 0 x)) as Hl by done. split; rewrite He, Hl.
  - rewrite le_bool_true by lra. destruct (Qeq_bool v 0) eqn:E; [apply Qeq_bool_eq in E; lra|]. by apply fp_body_run.
  - rewrite le_bool_false by lra. destruct (Qeq_bool (- v) 0) eqn:E; [apply Qeq_bool_eq in E; lra|].
    cbn [negb d_opp exact]. rewrite opp_opp. exact (fp_body_run fuel (str + 1) v e (wr8 m str 45) Hf Hle Hlt).
Qed.

(** 12.3456 is printed as 12.34. *)
Lemma sputfpoint_decimal_witness :
  sputfpoint 10 0x1000 (123456 # 10000)%Q ∅ = Ret (1, put_bytes ∅ 0x1000 [49; 50; 46; 51; 52; 0]) /\
  sputfpoint 10 0x1000 (- (123456 # 10000))%Q ∅ = Ret (1, put_bytes ∅ 0x1000 [45; 49; 50; 46; 51; 52; 0]).
Proof. apply (sputfpoint_decimal 10 0x1000 (123456 # 10000) 2 ∅); [lia|vm_compute; discriminate|by vm_compute]. Defined.

(** A twentieth is printed as 0.0000. *)
Example small_number_lost :
  sputfpoint 10 0x1000 (1 # 20)%Q ∅ = Ret (1, put_bytes ∅ 0x1000 [48; 46; 48; 48; 48; 48; 0]).
Proof. by vm_compute. Qed.
