(* ===== verification/Text.v ===== *)
(** String literals of the sources as lists of character codes. *)
From stdpp Require Import base numbers list strings.
From S2P Require Import Prelude.

Definition chars (s : string) : list Z := (fun c => Z.of_nat (Ascii.nat_of_ascii c)) <$> String.list_ascii_of_string s.
