(* ===== verification/Calc.v ===== *)
(** The calculator, [userland/calc.c], with [atof] and [strtod] of
    [libraries/libc/stdlib.c]: a line is cut into tokens, parsed by recursive
    descent while it is evaluated, and the value printed.

    Numbers are doubles; the theorems need nothing of their arithmetic, which is
    the interface [Num].  A string is the list of its characters.  A token
    object is in one slot of the array [tokens], so a pointer to it is the
    number of its slot. *)
From stdpp Require Import base numbers gmap list strings.
From S2P Require Import Prelude Text Arrays Kmem KString Kstdio Libc.

Inductive sym :=
| add_s | sub_s | mul_s | exp_s | lpar_s | rpar_s | dig_s | div_s | dec_s | txt_s | comma_s | num_s
| inval_s | eof_s | ceil_f | fmod_f | floor_f | fabs_f | atan_f | acos_f | asin_f | atan2_f | cos_f
| sin_f | tan_f | cosh_f | sinh_f | tanh_f | sqrt_f | log_f | log10_f | log2_f | cbrt_f | trunc_f | inval_f.

#[global] Instance sym_eq_dec : EqDecision sym.
Proof. solve_decision. Defined.

Record tok := Tok { symbol : sym; txt : list Z }.

#[global] Instance tok_eq_dec : EqDecision tok.
Proof. solve_decision. Defined.

Definition MAX_TOK_LEN : Z := 32.
Definition MAX_INP_LEN : Z := 256.
Definition MAX_OUT_LEN : Z := 256.
Definition MAX_TOKENS : nat := 64.

(** What the calculator uses of doubles and of [libm]; a conversion to [int] is
    an [int]. *)
Class Num := {
  num : Type;
  of_int : Z -> num;
  to_int : num -> Z;
  tenth : num;
  n_add : num -> num -> num;
  n_sub : num -> num -> num;
  n_mul : num -> num -> num;
  n_div : num -> num -> num;
  n_is_zero : num -> bool;
  m_pow : num -> num -> num;
  m_fmod : num -> num -> num;
  m_atan2 : num -> num -> num;
  m_fabs : num -> num;
  m_fun : sym -> num -> num;
  to_int_range n : - 2 ^ 31 <= to_int n < 2 ^ 31
}.

(** The program's variables.  [printed] is what it wrote, [static_frees] how
    often it called [free] on the static [eof_token]; [bytes] is memory, with
    the buffer for results. *)
Record calc := Calc {
  tokens : list (option tok);
  tokens_len : Z;
  current_idx : Z;
  next_tok : option nat;
  printed : list (list Z);
  static_frees : Z;
  bytes : mem
}.

Definition eof_token : tok := Tok eof_s (chars "EOF").

Definition set_tokens l (s : calc) := Calc l s.(tokens_len) s.(current_idx) s.(next_tok) s.(printed) s.(static_frees) s.(bytes).
Definition set_tokens_len n (s : calc) := Calc s.(tokens) n s.(current_idx) s.(next_tok) s.(printed) s.(static_frees) s.(bytes).
Definition set_current_idx n (s : calc) := Calc s.(tokens) s.(tokens_len) n s.(next_tok) s.(printed) s.(static_frees) s.(bytes).
Definition set_next_tok n (s : calc) := Calc s.(tokens) s.(tokens_len) s.(current_idx) n s.(printed) s.(static_frees) s.(bytes).
Definition set_printed l (s : calc) := Calc s.(tokens) s.(tokens_len) s.(current_idx) s.(next_tok) l s.(static_frees) s.(bytes).
Definition set_static_frees n (s : calc) := Calc s.(tokens) s.(tokens_len) s.(current_idx) s.(next_tok) s.(printed) n s.(bytes).
Definition set_bytes m (s : calc) := Calc s.(tokens) s.(tokens_len) s.(current_idx) s.(next_tok) s.(printed) s.(static_frees) m.

Definition print (l : list Z) : cmd calc unit := modify (fun s => set_printed (s.(printed) ++ [l]) s).
Definition on_bytes {A} (c : cmd mem A) : cmd calc A := fun s =>
  match c s.(bytes) with Ret (a, m) => Ret (a, set_bytes m s) | Fault => Fault | Hang => Hang end.

(** ** Characters and tokens *)

Definition error (e : string) : cmd calc unit := print (10 :: chars "[ERR]: " ++ chars e).

Definition IS_ALPHA (c : Z) : bool := ((97 <=? c) && (c <=? 122)) || ((65 <=? c) && (c <=? 90)).

(** [end > str]: the first character of what remains is never dropped. *)
Fixpoint skip_space (str : list Z) : list Z :=
  match str with
  | c :: str' => if isspace c then skip_space str' else str
  | [] => []
  end.
Definition trim (str : list Z) : list Z :=
  match skip_space str with
  | [] => []
  | c :: str' => c :: reverse (skip_space (reverse str'))
  end.

Definition sym_of (c : Z) : sym :=
  let c := schar c in
  if isdigit c then dig_s
  else if IS_ALPHA c then txt_s
  else if c =? 43 then add_s
  else if c =? 45 then sub_s
  else if c =? 42 then mul_s
  else if c =? 47 then div_s
  else if c =? 94 then exp_s
  else if c =? 40 then lpar_s
  else if c =? 41 then rpar_s
  else if c =? 46 then dec_s
  else if c =? 44 then comma_s
  else inval_s.

(** The chain of string comparisons of [get_func], in its order. *)
Definition func_names : list (string * sym) :=
  [("ceil", ceil_f); ("fmod", fmod_f); ("floor", floor_f); ("fabs", fabs_f); ("atan", atan_f);
   ("acos", acos_f); ("asin", asin_f); ("atan2", atan2_f); ("cos", cos_f); ("sin", sin_f);
   ("tan", tan_f); ("cosh", cosh_f); ("sinh", sinh_f); ("tanh", tanh_f); ("sqrt", sqrt_f);
   ("log", log_f); ("log10", log10_f); ("log2", log2_f); ("cbrt", cbrt_f); ("trunc", trunc_f)]%string.
Fixpoint func_of (names : list (string * sym)) (t : list Z) : sym :=
  match names with
  | [] => inval_f
  | (n, f) :: names' => if bool_decide (chars n = t) then f else func_of names' t
  end.
Definition get_func (t : tok) : cmd calc sym :=
  let f := func_of func_names t.(txt) in
  (when bool_decide (f = inval_f) do error "Invalid function name!") ;;;
  ret f.

(** ** Cutting a line into tokens *)

(** The loops that collect the characters of a number or a name: at most
    [n] more, as long as [p] holds. *)
Fixpoint scan (n : nat) (p : Z -> bool) (str : list Z) : list Z * list Z :=
  match n, str with
  | S n', c :: str' => if p c then let r := scan n' p str' in (c :: r.1, r.2) else ([], str)
  | _, _ => ([], str)
  end.
Definition num_char (c : Z) : bool := bool_decide (sym_of c = dig_s \/ sym_of c = dec_s).
Definition name_char (c : Z) : bool := bool_decide (sym_of c = txt_s \/ sym_of c = dig_s).

(** The text is written with its terminator into a block of [MAX_TOK_LEN]. *)
Definition token_text (t : list Z) : cmd calc unit :=
  if Z.of_nat (length t) <? MAX_TOK_LEN then ret tt else fault.

Definition add_token (t : tok) : cmd calc unit :=
  s <- gets id ;;
  i <- (if (0 <=? s.(tokens_len)) && (s.(tokens_len) <? Z.of_nat MAX_TOKENS) then ret (Z.to_nat s.(tokens_len)) else fault) ;;
  modify (set_tokens (<[i := Some t]> s.(tokens))) ;;;
  modify (set_tokens_len (s.(tokens_len) + 1)).

(** [tokens[tokens_len - 1]->symbol == txt_s]. *)
Definition after_name : cmd calc bool :=
  s <- gets id ;;
  if 0 <? s.(tokens_len) then
    match s.(tokens) !! Z.to_nat (s.(tokens_len) - 1) with
    | Some (Some t) => ret (bool_decide (t.(symbol) = txt_s))
    | _ => fault
    end
  else ret false.

(** One token from its first character [ch] on: the rest of the line, or
    [None] where the code returns -1. *)
Definition lex_num (ch : Z) (str : list Z) : cmd calc (option (list Z)) :=
  let r := scan (Z.to_nat MAX_TOK_LEN - 1) num_char str in
  token_text (ch :: r.1) ;;; add_token (Tok num_s (ch :: r.1)) ;;; ret (Some r.2).
Definition lex_name (ch : Z) (str : list Z) : cmd calc (option (list Z)) :=
  let r := scan (Z.to_nat MAX_TOK_LEN - 1) name_char str in
  let t := Tok txt_s (ch :: r.1) in
  token_text (ch :: r.1) ;;;
  f <- get_func t ;;
  if bool_decide (f = inval_f) then ret None
  else add_token t ;;; ret (Some r.2).
Definition lex (ch : Z) (str : list Z) : cmd calc (option (list Z)) :=
  match sym_of ch with
  | inval_s => ret None
  | dig_s => b <- after_name ;; if (b : bool) then lex_name ch str else lex_num ch str
  | txt_s => lex_name ch str
  | symb => add_token (Tok symb [ch]) ;;; ret (Some str)
  end.

(** Each turn takes at least one character. *)
Fixpoint tokenize_loop (fuel : nat) (str : list Z) : cmd calc Z :=
  match fuel with
  | O => hang
  | S fuel' =>
      match str with
      | [] => add_token eof_token ;;; ret 0
      | ch :: str' =>
          if ch =? 32 then tokenize_loop fuel' str'
          else
            r <- lex ch str' ;;
            match r with Some rest => tokenize_loop fuel' rest | None => ret (-1) end
      end
  end.
Definition tokenize (str : list Z) : cmd calc Z := tokenize_loop (S (length str)) str.

(** ** Numbers *)

Section calculator.
Context {N : Num}.

(** [atof]: the digits up to a character that is none, that character, and what
    follows it. *)
Fixpoint atof_digits (s : list Z) (a : num) (e step : Z) : num * Z * Z * list Z :=
  match s with
  | [] => (a, e, 0, [])
  | c :: s' =>
      if isdigit (schar c) then atof_digits s' (n_add (n_mul a (of_int 10)) (of_int (schar c - 48))) (e + step) step
      else (a, e, schar c, s')
  end.
Fixpoint atof_exponent (s : list Z) (i : Z) : Z :=
  match s with
  | c :: s' => if isdigit (schar c) then atof_exponent s' (i32 (i * 10 + (schar c - 48))) else i
  | [] => i
  end.
Definition atof (s : list Z) : num :=
  let '(a, e, c, s) := atof_digits s (of_int 0) 0 0 in
  let '(a, e, c, s) := if c =? 46 then atof_digits s a e (-1) else (a, e, c, s) in
  let e :=
    if (c =? 101) || (c =? 69) then
      match s with
      | 43 :: s' => i32 (e + atof_exponent s' 0)
      | 45 :: s' => i32 (e - atof_exponent s' 0)
      | _ => i32 (e + atof_exponent s 0)
      end
    else e in
  let a := Nat.iter (Z.to_nat e) (fun a => n_mul a (of_int 10)) a in
  Nat.iter (Z.to_nat (- e)) (fun a => n_mul a tenth) a.

Definition string_to_num (t : list Z) : num := atof t.

(** [fp * pow(10, 5)]. *)
Definition num_to_string (n : num) (res : Z) : cmd calc unit :=
  let ip := to_int n in
  let fp := n_sub n (of_int ip) in
  i <- on_bytes (itoa ip res) ;;
  on_bytes (poke (res + i) 46) ;;;
  let fp := n_mul fp (m_pow (of_int 10) (of_int 5)) in
  on_bytes (itoa (to_int (m_fabs fp)) (res + i + 1)) ;;;
  ret tt.

(** ** Performing an operation

    A status and, when it is 0, the value written to the result. *)
Definition status : Type := Z * option num.

Definition deref (p : option nat) : cmd calc tok :=
  match p with
  | Some i => l <- gets tokens ;; match l !! i with Some (Some t) => ret t | _ => fault end
  | None => fault
  end.

(** The switch of [perf_op]; [None] where it sets the status to -1. *)
Definition op_result (op : sym) (op1 op2 : num) : option num :=
  match op with
  | add_s => Some (n_add op1 op2)
  | sub_s => Some (n_sub op1 op2)
  | mul_s => Some (n_mul op1 op2)
  | div_s => if n_is_zero op2 then None else Some (n_div op1 op2)
  | exp_s => Some (m_pow op1 op2)
  | _ => None
  end.
Definition perf_op (op : option nat) (op1 op2 : num) : cmd calc status :=
  match op with
  | None => ret (-1, None)
  | Some _ =>
      t <- deref op ;;
      (when bool_decide (t.(symbol) = div_s) && n_is_zero op2 do error "Division by 0!") ;;;
      match op_result t.(symbol) op1 op2 with
      | Some v => ret (0, Some v)
      | None => ret (-1, None)
      end
  end.

(** The switch of [perf_func]: functions of one and of two operands. *)
Definition func_result (f : sym) (op1 : num) (op2 : option num) : option num :=
  match f with
  | fmod_f => m_fmod op1 <$> op2
  | atan2_f => m_atan2 op1 <$> op2
  | fabs_f => match op2 with None => Some (m_fabs op1) | Some _ => None end
  | ceil_f | floor_f | atan_f | acos_f | asin_f | cos_f | sin_f | tan_f | cosh_f | sinh_f | tanh_f
  | sqrt_f | log_f | log10_f | log2_f | cbrt_f | trunc_f =>
      match op2 with None => Some (m_fun f op1) | Some _ => None end
  | _ => None
  end.
Definition is_func (f : sym) : bool := bool_decide (f ∈ func_names.*2).
Definition perf_func (func : option nat) (op1 : num) (op2 : option num) : cmd calc status :=
  match func with
  | None => ret (-1, None)
  | Some _ =>
      t <- deref func ;;
      (when negb (is_func t.(symbol)) do error "Invalid function operand(s)!") ;;;
      match func_result t.(symbol) op1 op2 with
      | Some v => ret (0, Some v)
      | None => ret (-1, None)
      end
  end.

(** ** The parser *)

Definition get_next : cmd calc (option nat) :=
  s <- gets id ;;
  i <- (if (0 <=? s.(current_idx)) && (s.(current_idx) <? Z.of_nat MAX_TOKENS) then ret (Z.to_nat s.(current_idx)) else fault) ;;
  t <- of_option (s.(tokens) !! i) ;;
  modify (set_current_idx (s.(current_idx) + 1)) ;;;
  ret (match t with Some _ => Some i | None => None end).

Definition next_sym : cmd calc sym := p <- gets next_tok ;; t <- deref p ;; ret t.(symbol).

Definition _accept_token (sy : sym) : cmd calc Z :=
  c <- next_sym ;;
  if bool_decide (c = sy) then t <- get_next ;; modify (set_next_tok t) ;;; ret 0
  else ret (-1).

(** [if(c){ return -1; }] before the rest [k], and the same for a call that
    leaves a value: reading a value that was not written is a fault. *)
Definition check (c : cmd calc Z) (k : cmd calc status) : cmd calc status :=
  st <- c ;; if negb (st =? 0) then ret (-1, None) else k.
Definition operand (c : cmd calc status) (k : num -> cmd calc status) : cmd calc status :=
  r <- c ;; if negb (r.1 =? 0) then ret (-1, None) else v <- of_option r.2 ;; k v.

(** [_parse_atom] on a number or a function, and [_parse_expression] on a sum or
    a difference, end without a [return]: what their callers see is the
    parameter [fall]. *)
Section parser.
Variable fall : Z.

Section atoms.
(** [_parse_atom], which the others call. *)
Variable atom : cmd calc status.

Definition _parse_func_rest : cmd calc status :=
  sy <- next_sym ;;
  if bool_decide (sy = rpar_s) then st <- _accept_token rpar_s ;; ret (st, None)
  else if bool_decide (sy = comma_s) then
    check (_accept_token comma_s) (
    operand atom (fun op2 =>
    check (_accept_token rpar_s) (
    ret (1, Some op2))))
  else ret (-1, None).

Definition set_symbol (p : option nat) (f : sym) : cmd calc unit :=
  t <- deref p ;;
  match p with
  | Some i => modify (fun s => set_tokens (<[i := Some (Tok f t.(txt))]> s.(tokens)) s)
  | None => fault
  end.

Definition _parse_func : cmd calc status :=
  func_tok <- gets next_tok ;;
  t <- deref func_tok ;;
  f <- get_func t ;;
  set_symbol func_tok f ;;;
  t <- deref func_tok ;;
  check (_accept_token t.(symbol)) (
  check (_accept_token lpar_s) (
  operand atom (fun op1 =>
  r <- _parse_func_rest ;;
  if r.1 =? 1 then op2 <- of_option r.2 ;; perf_func func_tok op1 (Some op2)
  else if r.1 =? 0 then perf_func func_tok op1 None
  else ret (-1, None)))).

Definition _parse_numb : cmd calc status :=
  t <- gets next_tok ;;
  check (_accept_token num_s) (
  t <- deref t ;; ret (0, Some (string_to_num t.(txt)))).

Definition _parse_s_atom : cmd calc status :=
  sy <- next_sym ;;
  if bool_decide (sy = sub_s) then
    check (_accept_token sub_s) (
    operand atom (fun v => ret (0, Some (n_sub (of_int 0) v))))
  else operand atom (fun v => ret (0, Some v)).

Definition _parse_factor : cmd calc status :=
  operand _parse_s_atom (fun op1 =>
  sy <- next_sym ;;
  if bool_decide (sy = exp_s) then
    tmp <- gets next_tok ;;
    check (_accept_token exp_s) (
    operand _parse_s_atom (fun op2 =>
    operand (perf_op tmp op1 op2) (fun v => ret (0, Some v))))
  else ret (0, Some op1)).

Definition _parse_term : cmd calc status :=
  operand _parse_factor (fun op1 =>
  sy <- next_sym ;;
  if bool_decide (sy = mul_s) then
    tmp <- gets next_tok ;;
    check (_accept_token sy) (
    operand _parse_factor (fun op2 =>
    operand (perf_op tmp op1 op2) (fun v => ret (0, Some v))))
  else if bool_decide (sy = div_s) then
    tmp <- gets next_tok ;;
    check (_accept_token sy) (
    operand _parse_factor (fun op2 =>
    operand (perf_op tmp op1 op2) (fun v => ret (0, Some v))))
  else ret (0, Some op1)).

Definition _parse_expression : cmd calc status :=
  operand _parse_term (fun op1 =>
  sy <- next_sym ;;
  if bool_decide (sy = add_s) then
    tmp <- gets next_tok ;;
    check (_accept_token sy) (
    operand _parse_term (fun op2 =>
    operand (perf_op tmp op1 op2) (fun v => ret (fall, Some v))))
  else if bool_decide (sy = sub_s) then
    tmp <- gets next_tok ;;
    check (_accept_token sy) (
    operand _parse_term (fun op2 =>
    operand (perf_op tmp op1 op2) (fun v => ret (fall, Some v))))
  else ret (0, Some op1)).
End atoms.

(** One step of fuel per nesting: every call accepts a token before the next. *)
Fixpoint _parse_atom (fuel : nat) : cmd calc status :=
  match fuel with
  | O => hang
  | S fuel' =>
      sy <- next_sym ;;
      if bool_decide (sy = lpar_s) then
        check (_accept_token lpar_s) (
        operand (_parse_expression (_parse_atom fuel')) (fun v =>
        check (_accept_token rpar_s) (
        ret (0, Some v))))
      else if bool_decide (sy = num_s) then
        operand _parse_numb (fun v => ret (fall, Some v))
      else if bool_decide (sy = txt_s) then
        operand (_parse_func (_parse_atom fuel')) (fun v => ret (fall, Some v))
      else ret (-1, None)
  end.

Definition parse : cmd calc status :=
  t <- get_next ;;
  modify (set_next_tok t) ;;;
  r <- _parse_expression (_parse_atom (S MAX_TOKENS)) ;;
  if r.1 =? -1 then ret (-1, None)
  else
    st <- _accept_token eof_token.(symbol) ;;
    if st =? -1 then ret (-1, None) else ret (st, r.2).

(** ** Requests *)

(** [free] on a token that [malloc] gave, and on the static one. *)
Fixpoint clear_loop (n : nat) (i : nat) : cmd calc unit :=
  match n with
  | O => ret tt
  | S n' =>
      t <- deref (Some i) ;;
      (when bool_decide (t = eof_token) do modify (fun s => set_static_frees (s.(static_frees) + 1) s)) ;;;
      modify (fun s => set_tokens (<[i := None]> s.(tokens)) s) ;;;
      clear_loop n' (S i)
  end.
Definition clear_toks : cmd calc unit := n <- gets tokens_len ;; clear_loop (Z.to_nat n) 0.

Definition process_request (req : list Z) (res : Z) : cmd calc Z :=
  clear_toks ;;;
  modify (set_tokens_len 0) ;;;
  modify (set_current_idx 0) ;;;
  modify (set_next_tok None) ;;;
  stat <- tokenize (trim req) ;;
  if stat =? -1 then error "Couldn't tokenize the expression!" ;;; ret (-1)
  else
    r <- parse ;;
    if r.1 =? -1 then error "Couldn't parse the expression!" ;;; ret (-1)
    else
      num_to_string (default (of_int 0) r.2) res ;;;
      ret 0.

(** ** The session *)

(** [!strncmp(line, word, n)] on the characters of [line]: the comparison also
    ends, as equal, where either string does. *)
Fixpoint starts (line word : list Z) : bool :=
  match line, word with
  | a :: line', b :: word' => if a =? b then starts line' word' else false
  | _, _ => true
  end.

(** The characters of the string at [p], for [%s]. *)
Fixpoint string_at (fuel : nat) (p : Z) : cmd mem (list Z) :=
  match fuel with
  | O => hang
  | S fuel' => c <- peek p ;; if c =? 0 then ret [] else l <- string_at fuel' (p + 1) ;; ret (c :: l)
  end.

Definition do_help : cmd calc unit :=
  let line (s : string) := print (10 :: chars s) in
  line "***************************************************************" ;;;
  line "               [---]: DBOS CALCULATOR :[---]" ;;;
  line "***************************************************************" ;;;
  line "[INF]: Type in any expression in the form of: (1 * 2) + 3 ... " ;;;
  line "[INF]: Operators: '+', '-', '*', '/', '^ (power)'" ;;;
  line "[INF]: Functions[1]: ceil(x), fmod(x, y), floor(x), fabs(x)" ;;;
  line "[INF]: Functions[2]: atan(x), atan2(x, y), acos(x), asin(x)" ;;;
  line "[INF]: Functions[3]: cos(x), sin(x), tan(x), cosh(x), sinh(x)" ;;;
  line "[INF]: Functions[4]: tanh(x), sqrt(x), log(x), log10(x)" ;;;
  line "[INF]: Functions[5]: log2(x), cbrt(x), trunc(x)" ;;;
  line "".
Definition do_exit : cmd calc unit := print (10 :: chars "[EXT]: GOODBYE").
Definition prompt : cmd calc unit := print (10 :: chars "[---]:> ").

(** The loop of [main] over the lines that [gets] delivers, the last one
    followed by its NULL. *)
Fixpoint main_loop (lines : list (list Z)) (res : Z) : cmd calc unit :=
  match lines with
  | [] => ret tt
  | line :: lines' =>
      if starts line (chars "exit") then ret tt
      else
        (if starts line (chars "help") then do_help
         else
           r <- process_request line res ;;
           (if r =? 0 then
              fuel <- gets (fun s => str_fuel s.(bytes)) ;;
              l <- on_bytes (string_at fuel res) ;; print (chars " = " ++ l)
            else ret tt) ;;;
           on_bytes (memset res 0 MAX_OUT_LEN) ;;; ret tt) ;;;
        prompt ;;;
        main_loop lines' res
  end.
Definition main (lines : list (list Z)) (res : Z) : cmd calc unit :=
  prompt ;;; main_loop lines res ;;; do_exit.
End parser.
End calculator.
