(* ===== verification/CalcSpec.v ===== *)
(** What the calculator accepts and computes: the grammar as syntax trees with a
    printer, a value and a reference parser, and [calc.c]'s parser against it. *)
From Stdlib Require Import QArith Qabs Qround.
From stdpp Require Import base numbers gmap list strings.
From S2P Require Import Prelude Text Arrays Kmem KString Kstdio Libc Calc.

#[local] Open Scope Z_scope.

(** * The grammar

    A level of the grammar is one operand or two with an operator between
    them. *)
Inductive chain (A : Type) :=
| One (a : A)
| Two (op : sym) (a b : A).
Scheme All for chain.
Arguments One {A} a.
Arguments Two {A} op a b.

(** An operand is an atom with or without a minus sign. *)
Inductive signed (A : Type) :=
| Pos (a : A)
| Neg (a : A).
Scheme All for signed.
Arguments Pos {A} a.
Arguments Neg {A} a.
Definition unsigned {A} (s : signed A) : A := match s with Pos a | Neg a => a end.

Inductive atom :=
| APar (e : chain (chain (chain (signed atom))))
| ANum (t : list Z)
| AFun1 (f : list Z) (a : atom)
| AFun2 (f : list Z) (a b : atom).

Abbreviation expr := (chain (chain (chain (signed atom)))).

Definition exp_ops : list sym := [exp_s].
Definition term_ops : list sym := [mul_s; div_s].
Definition sum_ops : list sym := [add_s; sub_s].

Definition op_char (o : sym) : Z :=
  match o with
  | add_s => 43 | sub_s => 45 | mul_s => 42 | div_s => 47 | exp_s => 94
  | lpar_s => 40 | rpar_s => 41 | dec_s => 46 | comma_s => 44 | _ => 0
  end.
Definition op_tok (o : sym) : tok := Tok o [op_char o].

(** ** Printing *)
Definition p_chain {A} (f : A -> list tok) (c : chain A) : list tok :=
  match c with One a => f a | Two op a b => f a ++ op_tok op :: f b end.
Definition p_signed {A} (f : A -> list tok) (s : signed A) : list tok :=
  match s with Pos a => f a | Neg a => op_tok sub_s :: f a end.
Fixpoint p_atom (a : atom) : list tok :=
  match a with
  | APar e => op_tok lpar_s :: p_chain (p_chain (p_chain (p_signed p_atom))) e ++ [op_tok rpar_s]
  | ANum t => [Tok num_s t]
  | AFun1 f a => Tok txt_s f :: op_tok lpar_s :: p_atom a ++ [op_tok rpar_s]
  | AFun2 f a b => Tok txt_s f :: op_tok lpar_s :: p_atom a ++ op_tok comma_s :: p_atom b ++ [op_tok rpar_s]
  end.
Definition p_expr : expr -> list tok := p_chain (p_chain (p_chain (p_signed p_atom))).

(** ** Operators at their level *)
Definition w_chain {A} (ops : list sym) (f : A -> bool) (c : chain A) : bool :=
  match c with One a => f a | Two op a b => bool_decide (op ∈ ops) && f a && f b end.
Fixpoint w_atom (a : atom) : bool :=
  match a with
  | APar e => w_chain sum_ops (w_chain term_ops (w_chain exp_ops (fun s => w_atom (unsigned s)))) e
  | ANum _ => true
  | AFun1 _ a => w_atom a
  | AFun2 _ a b => w_atom a && w_atom b
  end.
Definition w_expr : expr -> bool := w_chain sum_ops (w_chain term_ops (w_chain exp_ops (fun s => w_atom (unsigned s)))).

(** ** Values: [None] for a division by zero or a function with the wrong number
    of operands *)
Section values.
Context {N : Num}.

Definition e_chain {A} (ev : A -> option num) (c : chain A) : option num :=
  match c with
  | One a => ev a
  | Two op a b => x ← ev a; y ← ev b; op_result op x y
  end.
Definition e_signed {A} (ev : A -> option num) (s : signed A) : option num :=
  match s with Pos a => ev a | Neg a => v ← ev a; Some (n_sub (of_int 0) v) end.
Fixpoint e_atom (a : atom) : option num :=
  match a with
  | APar e => e_chain (e_chain (e_chain (e_signed e_atom))) e
  | ANum t => Some (string_to_num t)
  | AFun1 f a => x ← e_atom a; func_result (func_of func_names f) x None
  | AFun2 f a b => x ← e_atom a; y ← e_atom b; func_result (func_of func_names f) x (Some y)
  end.
Definition e_expr : expr -> option num := e_chain (e_chain (e_chain (e_signed e_atom))).
End values.

(** * A reference parser *)

Definition parser (A : Type) : Type := list tok -> option (A * list tok).

Definition r_chain {A} (ops : list sym) (p : parser A) : parser (chain A) := fun ts =>
  '(a, ts1) ← p ts;
  match ts1 with
  | t :: ts2 =>
      if bool_decide (t.(symbol) ∈ ops) then '(b, ts3) ← p ts2; Some (Two t.(symbol) a b, ts3)
      else Some (One a, ts1)
  | [] => Some (One a, [])
  end.
Definition r_signed {A} (p : parser A) : parser (signed A) := fun ts =>
  match ts with
  | t :: ts1 =>
      if bool_decide (t.(symbol) = sub_s) then '(a, ts2) ← p ts1; Some (Neg a, ts2)
      else '(a, ts2) ← p ts; Some (Pos a, ts2)
  | [] => None
  end.
Definition r_expect (o : sym) (ts : list tok) : option (list tok) :=
  match ts with t :: ts' => if bool_decide (t.(symbol) = o) then Some ts' else None | [] => None end.
Definition r_expr_of (p : parser atom) : parser expr :=
  r_chain sum_ops (r_chain term_ops (r_chain exp_ops (r_signed p))).
Definition r_rest (p : parser atom) : parser (option atom) := fun ts =>
  match ts with
  | t :: ts1 =>
      if bool_decide (t.(symbol) = rpar_s) then Some (None, ts1)
      else if bool_decide (t.(symbol) = comma_s) then
        '(b, ts2) ← p ts1; ts3 ← r_expect rpar_s ts2; Some (Some b, ts3)
      else None
  | [] => None
  end.
Definition call (f : list Z) (a : atom) (b : option atom) : atom :=
  match b with None => AFun1 f a | Some b => AFun2 f a b end.
Definition r_func (p : parser atom) (f : list Z) : parser atom := fun ts =>
  ts1 ← r_expect lpar_s ts;
  '(a, ts2) ← p ts1;
  '(b, ts3) ← r_rest p ts2;
  Some (call f a b, ts3).
Fixpoint r_atom (n : nat) : parser atom := fun ts =>
  match n, ts with
  | S n', t :: ts1 =>
      if bool_decide (t.(symbol) = lpar_s) then
        '(e, ts2) ← r_expr_of (r_atom n') ts1; ts3 ← r_expect rpar_s ts2; Some (APar e, ts3)
      else if bool_decide (t.(symbol) = num_s) then Some (ANum t.(txt), ts1)
      else if bool_decide (t.(symbol) = txt_s) then r_func (r_atom n') t.(txt) ts1
      else None
  | _, _ => None
  end.

(** [syms] evaluates comparisons of symbols. *)
Ltac syms :=
  repeat match goal with
  | |- context [bool_decide (?a = ?b)] =>
      first [rewrite (bool_decide_true (a = b)) by done | rewrite (bool_decide_false (a = b)) by done]
  end.

(** Tokens as the lexer makes them: the text of an operator is its character. *)
Definition plain (t : tok) : Prop :=
  t.(symbol) = num_s \/ t.(symbol) = txt_s \/ (t = op_tok t.(symbol) /\ t.(symbol) ≠ eof_s).

(** ** It finds printed trees only *)

Definition sound {A} (p : parser A) (f : A -> list tok) (w : A -> bool) : Prop :=
  forall ts a ts', Forall plain ts -> p ts = Some (a, ts') -> ts = f a ++ ts' /\ w a.

Lemma plain_op t o : plain t -> t.(symbol) = o -> o ≠ num_s -> o ≠ txt_s -> t = op_tok o.
Proof. intros [H|[H|[H _]]] Ho ??; congruence. Qed.

Lemma sound_chain {A} ops (p : parser A) f w :
  sound p f w -> num_s ∉ ops -> txt_s ∉ ops -> sound (r_chain ops p) (p_chain f) (w_chain ops w).
Proof.
  intros Hp Hn Ht ts c ts' Hts H. unfold r_chain in H.
  destruct (p ts) as [[a ts1]|] eqn:E; [|done]. cbn in H.
  destruct (Hp _ _ _ Hts E) as [-> Ha]. apply Forall_app in Hts as [_ Hts].
  destruct ts1 as [|t ts2]; [by simplify_eq/=|].
  case_bool_decide as Hop; [|by simplify_eq/=].
  inversion Hts as [|?? Hpt Hts2]; subst.
  destruct (p ts2) as [[b ts3]|] eqn:E2; [|done]. cbn in H. simplify_eq/=.
  destruct (Hp _ _ _ Hts2 E2) as [-> Hb].
  rewrite <- (plain_op t (symbol t)); [|done|done|congruence|congruence].
  split; [by rewrite <- app_assoc|]. rewrite bool_decide_true by done. by destruct (w a), (w b).
Qed.

Lemma sound_signed {A} (p : parser A) f w : sound p f w -> sound (r_signed p) (p_signed f) (fun s => w (unsigned s)).
Proof.
  intros Hp [|t ts1] c ts' Hts H; [done|]. cbn in H. case_bool_decide as Ho.
  - inversion Hts as [|?? Hpt Hts1]; subst. destruct (p ts1) as [[a ts2]|] eqn:E; [|done]. simplify_eq/=.
    destruct (Hp _ _ _ Hts1 E) as [-> Ha]. by rewrite (plain_op t sub_s).
  - destruct (p (t :: ts1)) as [[a ts2]|] eqn:E; [|done]. simplify_eq/=. by apply Hp.
Qed.

Lemma expect_inv o ts ts' :
  Forall plain ts -> r_expect o ts = Some ts' -> o ≠ num_s -> o ≠ txt_s -> ts = op_tok o :: ts' /\ Forall plain ts'.
Proof.
  intros Hts H ??. destruct ts as [|t ts1]; [done|]. cbn in H. case_bool_decide as Ho; [|done]. simplify_eq.
  inversion Hts; subst. by rewrite <- (plain_op t (symbol t)).
Qed.

Lemma sound_expr (p : parser atom) : sound p p_atom w_atom -> sound (r_expr_of p) p_expr w_expr.
Proof.
  intros Hp. apply sound_chain; [|by compute_done..]. apply sound_chain; [|by compute_done..].
  apply sound_chain; [|by compute_done..]. by apply sound_signed.
Qed.

Lemma sound_func (p : parser atom) f ts a ts' :
  sound p p_atom w_atom -> Forall plain ts -> r_func p f ts = Some (a, ts') -> Tok txt_s f :: ts = p_atom a ++ ts' /\ w_atom a.
Proof.
  intros Hp Hts H. unfold r_func in H. destruct (r_expect lpar_s ts) as [ts1|] eqn:E1; [|done].
  apply expect_inv in E1 as [-> Hts1]; [|done..]. cbn in H.
  destruct (p ts1) as [[a1 ts2]|] eqn:E2; [|done]. cbn in H.
  destruct (Hp _ _ _ Hts1 E2) as [-> Ha]. apply Forall_app in Hts1 as [_ Hts2].
  destruct ts2 as [|t ts3]; [done|]. inversion Hts2 as [|?? Hpt Hts3]; subst. cbn [r_rest] in H.
  case_bool_decide as Ho; [|case_bool_decide as Ho2; [|done]]; cbn in H.
  - simplify_eq/=. rewrite (plain_op t rpar_s) by done. by rewrite <- app_assoc.
  - destruct (p ts3) as [[b ts4]|] eqn:E3; [|done]. cbn in H.
    destruct (Hp _ _ _ Hts3 E3) as [-> Hb]. apply Forall_app in Hts3 as [_ Hts4].
    destruct (r_expect rpar_s ts4) as [ts5|] eqn:E4; [|done].
    apply expect_inv in E4 as [-> _]; [|done..]. simplify_eq/=. rewrite (plain_op t comma_s) by done.
    rewrite <- app_assoc. cbn. rewrite <- app_assoc. split; [done|by apply andb_True].
Qed.

Lemma sound_atom n : sound (r_atom n) p_atom w_atom.
Proof.
  induction n as [|n IH]; intros [|t ts1] a ts' Hts H; try done.
  inversion Hts as [|?? Hpt Hts1]; subst. cbn [r_atom] in H.
  case_bool_decide as Ho; [|case_bool_decide as Ho2; [|case_bool_decide as Ho3; [|done]]].
  - destruct (r_expr_of (r_atom n) ts1) as [[e ts2]|] eqn:E; [|done]. cbn in H.
    destruct (sound_expr _ IH _ _ _ Hts1 E) as [-> He]. apply Forall_app in Hts1 as [_ Hts2].
    destruct (r_expect rpar_s ts2) as [ts3|] eqn:E2; [|done].
    apply expect_inv in E2 as [-> _]; [|done..]. simplify_eq/=. rewrite (plain_op t lpar_s) by done.
    by rewrite <- app_assoc.
  - simplify_eq/=. by destruct t; cbn in *; subst.
  - destruct t as [o f]; cbn in *; subst. by apply (sound_func (r_atom n)).
Qed.

(** ** It finds every printed tree *)

(** The next token, if any, is none of [L]: it does not continue what was
    parsed. *)
Definition follow (L : list sym) (ts : list tok) : Prop :=
  match ts with t :: _ => t.(symbol) ∉ L | [] => True end.

Lemma follow_nil ts : follow [] ts.
Proof. destruct ts; [done|]. apply not_elem_of_nil. Qed.

(** On texts of at most [k] tokens. *)
Definition complete {A} (k : nat) (L : list sym) (p : parser A) (f : A -> list tok) (w : A -> bool) : Prop :=
  forall a ts, w a -> (length (f a) <= k)%nat -> follow L ts -> p (f a ++ ts) = Some (a, ts).

Lemma complete_chain {A} k L ops (p : parser A) f w :
  complete k L p f w -> (forall o, o ∈ ops -> o ∉ L) ->
  complete k (L ++ ops) (r_chain ops p) (p_chain f) (w_chain ops w).
Proof.
  intros Hp Hd c ts Hw Hk Hf. unfold r_chain. destruct c as [a|op a b]; cbn [p_chain w_chain] in *.
  - rewrite Hp; [|done|done|by destruct ts; [|set_solver]]. cbn.
    destruct ts as [|t ts]; [done|]. rewrite bool_decide_false; [done|]. cbn in Hf. set_solver.
  - rewrite length_app in Hk. cbn in Hk.
    apply andb_True in Hw as [Hw Hb]. apply andb_True in Hw as [Hop%bool_decide_unpack Ha].
    rewrite <- app_assoc. cbn. rewrite Hp; [|done|lia|by apply Hd]. cbn.
    rewrite bool_decide_true by done. rewrite Hp; [done|done|lia|]. by destruct ts; [|set_solver].
Qed.

Lemma complete_signed {A} k L (p : parser A) f w :
  complete k L p f w -> (forall a, exists t ts, f a = t :: ts /\ t.(symbol) ≠ sub_s) ->
  complete k L (r_signed p) (p_signed f) (fun s => w (unsigned s)).
Proof.
  intros Hp Hh [a|a] ts Hw Hk Hf; cbn [p_signed] in *.
  - pose proof (Hp a ts Hw Hk Hf) as E. destruct (Hh a) as (t & l & Ht & Hs). rewrite Ht in *. cbn in *.
    rewrite bool_decide_false by done. by rewrite E.
  - cbn in *. rewrite Hp; [done|done|lia|done].
Qed.

Lemma p_atom_head a : exists t ts, p_atom a = t :: ts /\ t.(symbol) ≠ sub_s.
Proof. by destruct a; cbn; do 2 eexists. Qed.

Lemma complete_expr k (p : parser atom) :
  complete k [] p p_atom w_atom -> complete k ([exp_s] ++ [mul_s; div_s] ++ [add_s; sub_s]) (r_expr_of p) p_expr w_expr.
Proof.
  intros Hp.
  apply (complete_chain _ ([exp_s] ++ [mul_s; div_s])); [|set_solver].
  apply (complete_chain _ [exp_s]); [|set_solver].
  apply (complete_chain _ []); [|set_solver].
  apply complete_signed; [done|apply p_atom_head].
Qed.

Lemma complete_atom n k : (k <= n)%nat -> complete k [] (r_atom n) p_atom w_atom.
Proof.
  revert k. induction n as [|n IH]; intros k Hkn a ts Hw Hk _.
  { destruct (p_atom_head a) as (t & l & E & _). rewrite E in Hk. cbn in Hk. lia. }
  destruct a as [e|t|f a|f a b]; cbn [p_atom length app] in *;
    repeat (rewrite length_app in Hk || cbn [length] in Hk); cbn [r_atom symbol op_tok txt]; syms; try done;
    rewrite <- app_assoc.
  - rewrite (complete_expr n _ (IH n (le_n n)) e); [|done|unfold p_expr; lia|cbn; set_solver]. cbn. by syms.
  - unfold r_func. cbn. syms. cbn. rewrite (IH n (le_n n)); [|done|lia|apply follow_nil]. cbn. by syms.
  - apply andb_True in Hw as [Ha Hb]. unfold r_func. cbn. syms. cbn.
    rewrite (IH n (le_n n)); [|done|lia|apply follow_nil]. cbn. syms. cbn. rewrite <- app_assoc.
    rewrite (IH n (le_n n)); [|done|lia|apply follow_nil]. cbn. by syms.
Qed.

(** * The program's parser *)

(** The parser stands before the tokens [ts], the next of which is in slot
    [i]. *)
Record at_tokens (s : calc) (i : nat) (ts : list tok) : Prop := {
  at_len : length s.(tokens) = MAX_TOKENS;
  at_next : s.(next_tok) = Some i;
  at_idx : s.(current_idx) = Z.of_nat i + 1;
  at_rest : exists tl, drop i s.(tokens) = (Some <$> ts) ++ Some eof_token :: tl;
  at_room : (i + length ts + 1 < MAX_TOKENS)%nat
}.

Definition head_sym (ts : list tok) : sym := match ts with t :: _ => t.(symbol) | [] => eof_s end.

Lemma at_slot s i ts : at_tokens s i ts -> s.(tokens) !! i = Some (Some (default eof_token (head ts))).
Proof.
  intros H. destruct (at_rest _ _ _ H) as [tl E]. rewrite <- (Nat.add_0_r i), <- lookup_drop, E. by destruct ts.
Qed.

Lemma deref_slot s i t : s.(tokens) !! i = Some (Some t) -> deref (Some i) s = Ret (t, s).
Proof. intros H. unfold deref, bind, Prelude.gets. by rewrite H. Qed.

Lemma next_sym_at s i ts : at_tokens s i ts -> next_sym s = Ret (head_sym ts, s).
Proof.
  intros H. unfold next_sym, bind, Prelude.gets. rewrite (at_next _ _ _ H).
  rewrite (deref_slot s i _ (at_slot _ _ _ H)). by destruct ts.
Qed.

Definition advance (i : nat) (s : calc) : calc := set_next_tok (Some (S i)) (set_current_idx (Z.of_nat i + 1 + 1) s).

Lemma accept_at s i t ts :
  at_tokens s i (t :: ts) ->
  _accept_token t.(symbol) s = Ret (0, advance i s) /\ at_tokens (advance i s) (S i) ts.
Proof.
  intros H. pose proof (at_room _ _ _ H) as Hr. cbn in Hr. destruct (at_rest _ _ _ H) as [tl E].
  assert (Hd : drop (S i) s.(tokens) = (Some <$> ts) ++ Some eof_token :: tl).
  { replace (S i) with (i + 1)%nat by lia. rewrite <- drop_drop, E. done. }
  assert (Hs : s.(tokens) !! S i = Some (Some (default eof_token (head ts)))).
  { rewrite <- (Nat.add_0_r (S i)), <- lookup_drop, Hd. by destruct ts. }
  split.
  - unfold _accept_token. unfold bind at 1. rewrite (next_sym_at _ _ _ H). cbn [head_sym].
    rewrite bool_decide_true by done. unfold get_next, bind, Prelude.gets, id, of_option. rewrite (at_idx _ _ _ H).
    unfold MAX_TOKENS in *.
    replace (0 <=? Z.of_nat i + 1) with true by (symmetry; apply Z.leb_le; lia).
    replace (Z.of_nat i + 1 <? Z.of_nat 64) with true by (symmetry; apply Z.ltb_lt; lia). cbn.
    replace (Z.to_nat (Z.of_nat i + 1)) with (S i) by lia. by rewrite Hs.
  - split; cbn.
    + apply H.
    + done.
    + lia.
    + by exists tl.
    + lia.
Qed.

Lemma refuse_at s i ts o : at_tokens s i ts -> head_sym ts ≠ o -> _accept_token o s = Ret (-1, s).
Proof.
  intros H Hne. unfold _accept_token, bind. rewrite (next_sym_at _ _ _ H). by rewrite bool_decide_false.
Qed.

Section correspondence.
Context {N : Num}.

Lemma wp_operand c k (Q : status -> calc -> Prop) s :
  wp c (fun r s' => (r.1 = -1 /\ Q (-1, None) s') \/ exists v, r = (0, Some v) /\ wp (k v) Q s') s ->
  wp (operand c k) Q s.
Proof.
  intros H. apply wp_bind. eapply wp_mono; [exact H|]. intros r s' [[Hr HQ]|(v & -> & HQ)]; [|done].
  rewrite Hr. by apply wp_ret.
Qed.

Lemma wp_check c k (Q : status -> calc -> Prop) s :
  wp c (fun r s' => (r = -1 /\ Q (-1, None) s') \/ (r = 0 /\ wp k Q s')) s -> wp (check c k) Q s.
Proof.
  intros H. apply wp_bind. eapply wp_mono; [exact H|]. by intros r s' [[-> HQ]|[-> HQ]].
Qed.

(** Only slots from [i] on have changed between [s] and [s']. *)
Definition keeps (i : nat) (s s' : calc) : Prop := take i s'.(tokens) = take i s.(tokens).

(** What a parsing function does where the reference parser [p] finds a tree
    with value [ev]. *)
Definition parsed {A} (p : parser A) (ev : A -> option num) (s : calc) (i : nat) (ts : list tok) (r : status) (s' : calc) : Prop :=
  match p ts with
  | Some (a, ts') =>
      match ev a with
      | Some v =>
          r = (0, Some v) /\
          exists i', at_tokens s' i' ts' /\ (i' + length ts' = i + length ts)%nat /\ (i <= i')%nat /\ keeps i s s'
      | None => r.1 = -1
      end
  | None => r.1 = -1
  end.
Definition parses {A} (n : nat) (p : parser A) (ev : A -> option num) (c : cmd calc status) : Prop :=
  forall s i ts, at_tokens s i ts -> (length ts < n)%nat -> wp c (parsed p ev s i ts) s.

Lemma keeps_trans i j s s' s'' : (i <= j)%nat -> keeps i s s' -> keeps j s' s'' -> keeps i s s''.
Proof.
  unfold keeps. intros Hij H1 H2. rewrite <- H1.
  replace i with (i `min` j)%nat by lia. by rewrite <- !take_take, H2.
Qed.

(** One operand of a level, inside the level. *)
Lemma parses_operand {A} n (p : parser A) ev c k (Q : status -> calc -> Prop) s i ts :
  parses n p ev c -> at_tokens s i ts -> (length ts < n)%nat ->
  (forall s', (p ts = None \/ exists a ts', p ts = Some (a, ts') /\ ev a = None) -> Q (-1, None) s') ->
  (forall a v ts' i' s', p ts = Some (a, ts') -> ev a = Some v -> at_tokens s' i' ts' ->
    (i' + length ts' = i + length ts)%nat -> (i <= i')%nat -> keeps i s s' -> wp (k v) Q s') ->
  wp (operand c k) Q s.
Proof.
  intros Hc Hat Hn Hbad Hgood. apply wp_operand. eapply wp_mono; [by apply Hc|]. unfold parsed. intros r s' H.
  destruct (p ts) as [[a ts']|] eqn:E; [destruct (ev a) as [v|] eqn:Ev|].
  - destruct H as (-> & i' & H1 & H2 & H3 & H4). right. exists v. split; [done|]. by eapply Hgood.
  - left. split; [done|]. apply Hbad. right. by exists a, ts'.
  - left. split; [done|]. apply Hbad. by left.
Qed.

(** The shape the three levels of binary operators share. *)
Definition level (c : cmd calc status) (ops : list sym) (fl : Z) : cmd calc status :=
  operand c (fun op1 =>
  sy <- next_sym ;;
  if bool_decide (sy ∈ ops) then
    tmp <- gets next_tok ;;
    check (_accept_token sy) (
    operand c (fun op2 =>
    operand (perf_op tmp op1 op2) (fun v => ret (fl, Some v))))
  else ret (0, Some op1)).

Lemma perf_op_spec i s t op1 op2 :
  s.(tokens) !! i = Some (Some t) ->
  wp (perf_op (Some i) op1 op2) (fun r s' => s'.(tokens) = s.(tokens) /\ s'.(next_tok) = s.(next_tok) /\
    s'.(current_idx) = s.(current_idx) /\
    r = match op_result t.(symbol) op1 op2 with Some v => (0, Some v) | None => (-1, None) end) s.
Proof.
  intros H. unfold perf_op. apply wp_bind. eapply wp_Ret; [by apply deref_slot|].
  apply wp_bind. destruct (_ && _); cbn; by destruct (op_result _ _ _).
Qed.

Lemma parsed_here {A} (p : parser A) ev s i ts a v ts' i' s' :
  p ts = Some (a, ts') -> ev a = Some v -> at_tokens s' i' ts' -> (i' + length ts' = i + length ts)%nat ->
  (i <= i')%nat -> keeps i s s' -> parsed p ev s i ts (0, Some v) s'.
Proof. intros E Ev ????. unfold parsed. rewrite E, Ev. split; [done|]. by exists i'. Qed.

Lemma parsed_none {A} (p : parser A) ev s i ts s' :
  (forall a ts', p ts = Some (a, ts') -> ev a = None) -> parsed p ev s i ts (-1, None) s'.
Proof. intros H. unfold parsed. destruct (p ts) as [[a ts']|]; [|done]. by rewrite (H a ts'). Qed.

Lemma chain_none {A} ops (p : parser A) ev ts :
  (p ts = None \/ exists a ts', p ts = Some (a, ts') /\ ev a = None) ->
  forall c ts', r_chain ops p ts = Some (c, ts') -> e_chain ev c = None.
Proof.
  unfold r_chain. intros [->|(a & ts1 & -> & He)] c ts' H; [done|]. cbn in H.
  destruct ts1 as [|t ts2]; [by simplify_eq/=|]. case_bool_decide; [|by simplify_eq/=].
  destruct (p ts2) as [[b ts3]|]; [|done]. simplify_eq/=. by rewrite He.
Qed.

Lemma wp_accept s i t ts k (Q : status -> calc -> Prop) :
  at_tokens s i (t :: ts) -> (at_tokens (advance i s) (S i) ts -> wp k Q (advance i s)) ->
  wp (check (_accept_token t.(symbol)) k) Q s.
Proof.
  intros Hat Hk. destruct (accept_at _ _ _ _ Hat) as [E Hat'].
  apply wp_check. eapply wp_Ret; [exact E|]. right. split; [done|by apply Hk].
Qed.

Lemma parses_level {A} n (p : parser A) ev c ops :
  parses n p ev c -> eof_s ∉ ops -> parses n (r_chain ops p) (e_chain ev) (level c ops 0).
Proof.
  intros Hc Hops s i ts Hat Hn. unfold level.
  eapply parses_operand; [exact Hc|exact Hat|exact Hn| |].
  { intros s' Hb. apply parsed_none. by apply chain_none. }
  intros a v ts1 i1 s1 E1 Ev1 Hat1 Hl1 Hi1 Hk1. apply wp_bind. eapply wp_Ret; [by eapply next_sym_at|].
  assert (Hrest : r_chain ops p ts = match ts1 with
    | t :: ts2 => if bool_decide (t.(symbol) ∈ ops) then '(b, ts3) ← p ts2; Some (Two t.(symbol) a b, ts3) else Some (One a, ts1)
    | [] => Some (One a, []) end) by (unfold r_chain; by rewrite E1).
  destruct ts1 as [|t ts2]; cbn [head_sym].
  { rewrite bool_decide_false by done. apply wp_ret. by eapply parsed_here. }
  case_bool_decide as Ho.
  2:{ apply wp_ret. by eapply parsed_here. }
  apply wp_bind, wp_gets. rewrite (at_next _ _ _ Hat1). pose proof (at_slot _ _ _ Hat1) as Hslot. cbn in Hslot.
  eapply wp_accept; [exact Hat1|]. intros Hat2.
  eapply parses_operand; [exact Hc|exact Hat2|cbn in Hl1; lia| |].
  { intros s' Hb. apply parsed_none. intros c' ts' E. rewrite Hrest in E.
    destruct Hb as [Hb|(b & ts3 & Hb & Hev)]; rewrite Hb in E; cbn in E; simplify_eq/=. by rewrite Ev1, Hev. }
  intros b v2 ts3 i3 s3 E3 Ev3 Hat3 Hl3 Hi3 Hk3.
  assert (Hslot3 : s3.(tokens) !! i1 = Some (Some t)).
  { rewrite <- (lookup_take_lt _ (S i1)) by lia. rewrite Hk3. rewrite lookup_take_lt by lia. done. }
  apply wp_operand. eapply wp_mono; [by apply perf_op_spec|]. intros r s4 (Ht4 & Hn4 & Hc4 & ->).
  assert (Hr : r_chain ops p ts = Some (Two t.(symbol) a b, ts3)) by (rewrite Hrest; by rewrite E3).
  destruct (op_result t.(symbol) v v2) as [w|] eqn:Eo.
  2:{ left. split; [done|]. apply parsed_none. intros c' ts'. rewrite Hr. intros ?. simplify_eq/=. by rewrite Ev1, Ev3. }
  right. exists w. split; [done|]. apply wp_ret.
  eapply parsed_here with (i' := i3); [exact Hr| | |cbn in *; lia|lia|].
  - cbn. by rewrite Ev1, Ev3.
  - destruct Hat3 as [H1 H2 H3 H4 H5]. split; rewrite ?Ht4, ?Hn4, ?Hc4; done.
  - unfold keeps. rewrite Ht4. apply (keeps_trans i (S i1) s (advance i1 s1)); [lia|exact Hk1|exact Hk3].
Qed.

Lemma bind_ext {A B} (c : cmd calc A) (k k' : A -> cmd calc B) s :
  (forall a s, k a s = k' a s) -> bind c k s = bind c k' s.
Proof. intros H. unfold bind. by destruct (c s) as [[a s']| |]. Qed.

Lemma operand_ext c (k k' : num -> cmd calc status) s : (forall v s, k v s = k' v s) -> operand c k s = operand c k' s.
Proof.
  intros H. apply bind_ext. intros r s1. destruct (negb _); [done|]. by apply bind_ext.
Qed.

Lemma factor_level atom s : _parse_factor atom s = level (_parse_s_atom atom) exp_ops 0 s.
Proof.
  apply operand_ext. intros op1 s1. apply bind_ext. intros o s2. unfold exp_ops.
  case_bool_decide as Ho; case_bool_decide as Ho2; [by subst|set_solver|set_solver|done].
Qed.

Lemma term_level atom s : _parse_term atom s = level (_parse_factor atom) term_ops 0 s.
Proof.
  apply operand_ext. intros op1 s1. apply bind_ext. intros o s2. unfold term_ops.
  repeat case_bool_decide; set_solver.
Qed.

Lemma sum_level fall atom s : _parse_expression fall atom s = level (_parse_term atom) sum_ops fall s.
Proof.
  apply operand_ext. intros op1 s1. apply bind_ext. intros o s2. unfold sum_ops.
  repeat case_bool_decide; set_solver.
Qed.

Lemma parses_ext {A} n (p : parser A) ev c c' : (forall s, c s = c' s) -> parses n p ev c' -> parses n p ev c.
Proof. intros H Hp s i ts Hat Hn. unfold wp. rewrite H. by apply Hp. Qed.

Lemma parses_signed n (p : parser atom) c :
  (forall ts, p ts = None \/ ts ≠ []) -> parses n p e_atom c -> parses n (r_signed p) (e_signed e_atom) (_parse_s_atom c).
Proof.
  intros Hp Hc s i ts Hat Hn. apply wp_bind. eapply wp_Ret; [by eapply next_sym_at|].
  destruct ts as [|t ts1]; cbn [head_sym].
  - syms. eapply parses_operand; [exact Hc|exact Hat|exact Hn| |].
    + intros s' _. by apply parsed_none.
    + intros a v ts' i' s' E. by destruct (Hp []) as [H|H]; [rewrite H in E|].
  - case_bool_decide as Ho.
    + rewrite <- Ho. eapply wp_accept; [exact Hat|]. intros Hat2. cbn in Hn.
      eapply parses_operand; [exact Hc|exact Hat2|lia| |].
      * intros s' Hb. apply parsed_none. intros a ts' E. cbn in E. rewrite bool_decide_true in E by done.
        destruct Hb as [Hb|(a' & ts2 & Hb & Hev)]; rewrite Hb in E; simplify_eq/=. by rewrite Hev.
      * intros a v ts' i' s' E Ev Hat' Hl Hi Hk. apply wp_ret.
        apply (parsed_here _ _ _ _ _ (Neg a) _ ts' i'); [|cbn; by rewrite Ev|done|cbn in *; lia|lia|].
        -- cbn. rewrite bool_decide_true by done. by rewrite E.
        -- by apply (keeps_trans i (S i) s (advance i s)); [lia| |].
    + eapply parses_operand; [exact Hc|exact Hat|exact Hn| |].
      * intros s' Hb. apply parsed_none. intros a ts' E. cbn in E. rewrite bool_decide_false in E by done.
        destruct Hb as [Hb|(a' & ts2 & Hb & Hev)]; rewrite Hb in E; simplify_eq/=. done.
      * intros a v ts' i' s' E Ev Hat' Hl Hi Hk. apply wp_ret.
        apply (parsed_here _ _ _ _ _ (Pos a) _ ts' i'); [|done|done|done|done|done].
        cbn. rewrite bool_decide_false by done. by rewrite E.
Qed.

Lemma parses_expr n (p : parser atom) c :
  (forall ts, p ts = None \/ ts ≠ []) -> parses n p e_atom c -> parses n (r_expr_of p) e_expr (_parse_expression 0 c).
Proof.
  intros Hp Hc. eapply parses_ext; [intros; apply sum_level|]. apply parses_level; [|by compute_done].
  eapply parses_ext; [intros; apply term_level|]. apply parses_level; [|by compute_done].
  eapply parses_ext; [intros; apply factor_level|]. apply parses_level; [|by compute_done].
  by apply parses_signed.
Qed.

(** Functions: the value of a call, and how the code leaves it. *)
Definition e_args (f : list Z) (x : num) (b : option atom) : option num :=
  match b with
  | None => func_result (func_of func_names f) x None
  | Some b => y ← e_atom b; func_result (func_of func_names f) x (Some y)
  end.

Lemma e_call f a b : e_atom (call f a b) = x ← e_atom a; e_args f x b.
Proof. by destruct b. Qed.

Definition rest_done (p : parser atom) (s : calc) (i : nat) (ts : list tok) (r : status) (s' : calc) : Prop :=
  match r_rest p ts with
  | Some (b, ts') =>
      match b with
      | None => r = (0, None)
      | Some b => match e_atom b with Some y => r = (1, Some y) | None => r.1 = -1 end
      end /\
      (r.1 ≠ -1 -> exists i', at_tokens s' i' ts' /\ (i' + length ts' = i + length ts)%nat /\ (i <= i')%nat /\ keeps i s s')
  | None => r.1 = -1
  end.

Lemma func_rest_spec n (p : parser atom) c s i ts :
  parses n p e_atom c -> at_tokens s i ts -> (length ts <= n)%nat -> wp (_parse_func_rest c) (rest_done p s i ts) s.
Proof.
  intros Hc Hat Hn. unfold _parse_func_rest. apply wp_bind. eapply wp_Ret; [by eapply next_sym_at|].
  destruct ts as [|t ts1]; cbn [head_sym]; [by syms|]. cbn in Hn.
  case_bool_decide as Ho.
  { rewrite <- Ho. destruct (accept_at _ _ _ _ Hat) as [E Hat']. apply wp_bind. eapply wp_Ret; [exact E|]. apply wp_ret.
    unfold rest_done. cbn [r_rest]. rewrite bool_decide_true by done. split; [done|]. intros _. exists (S i).
    split; [done|]. split; [cbn; lia|]. by split; [lia|]. }
  case_bool_decide as Ho2.
  2:{ apply wp_ret. unfold rest_done. cbn [r_rest]. by rewrite !bool_decide_false. }
  rewrite <- Ho2. eapply wp_accept; [exact Hat|]. intros Hat2.
  assert (Hr : r_rest p (t :: ts1) = '(b, ts2) ← p ts1; ts3 ← r_expect rpar_s ts2; Some (Some b, ts3)).
  { cbn [r_rest]. by rewrite bool_decide_false, bool_decide_true. }
  eapply parses_operand; [exact Hc|exact Hat2|lia| |].
  { intros s' Hb. unfold rest_done. rewrite Hr. destruct Hb as [->|(b & ts2 & -> & Hev)]; [done|]. cbn.
    destruct (r_expect rpar_s ts2); [|done]. cbn. by rewrite Hev. }
  intros b y ts2 i2 s2 E Ev Hat3 Hl Hi Hk. apply wp_check.
  assert (Hr2 : r_rest p (t :: ts1) = ts3 ← r_expect rpar_s ts2; Some (Some b, ts3)) by (rewrite Hr, E; done).
  destruct ts2 as [|t2 ts3].
  { eapply wp_Ret; [eapply refuse_at; [exact Hat3|done]|]. left. split; [done|]. unfold rest_done. by rewrite Hr2. }
  destruct (decide (t2.(symbol) = rpar_s)) as [Ho3|Ho3].
  - rewrite <- Ho3. destruct (accept_at _ _ _ _ Hat3) as [E3 Hat4]. eapply wp_Ret; [exact E3|]. right. split; [done|].
    apply wp_ret. unfold rest_done. rewrite Hr2. cbn [r_expect]. rewrite bool_decide_true by done. cbn. rewrite Ev. split; [done|]. intros _.
    exists (S i2). split; [done|]. cbn in *. split; [lia|]. split; [lia|].
    apply (keeps_trans i (S i) s (advance i s)); [lia|done|exact Hk].
  - eapply wp_Ret; [eapply refuse_at; [exact Hat3|done]|]. left. split; [done|]. unfold rest_done.
    rewrite Hr2. cbn [r_expect]. by rewrite bool_decide_false.
Qed.

(** The fields the parser works on. *)
Definition same_toks (s s' : calc) : Prop :=
  s'.(tokens) = s.(tokens) /\ s'.(next_tok) = s.(next_tok) /\ s'.(current_idx) = s.(current_idx).

Lemma at_same s s' i ts : same_toks s s' -> at_tokens s i ts -> at_tokens s' i ts.
Proof. intros (H1 & H2 & H3) []. split; rewrite ?H1, ?H2, ?H3; done. Qed.

Lemma get_func_spec t s : wp (get_func t) (fun f s' => f = func_of func_names t.(txt) /\ same_toks s s') s.
Proof. unfold get_func. apply wp_bind. by case_bool_decide. Qed.

Lemma perf_func_spec i s t op1 op2 :
  s.(tokens) !! i = Some (Some t) ->
  wp (perf_func (Some i) op1 op2) (fun r s' => same_toks s s' /\
    r = match func_result t.(symbol) op1 op2 with Some v => (0, Some v) | None => (-1, None) end) s.
Proof.
  intros H. unfold perf_func. apply wp_bind. eapply wp_Ret; [by apply deref_slot|].
  apply wp_bind. destruct (negb _); cbn; by destruct (func_result _ _ _).
Qed.

(** [func_tok->symbol = get_func(func_tok)]. *)
Lemma set_symbol_spec s i t ts f :
  at_tokens s i (t :: ts) ->
  wp (set_symbol (Some i) f) (fun _ s' => at_tokens s' i (Tok f t.(txt) :: ts) /\ keeps i s s') s.
Proof.
  intros Hat. pose proof (at_slot _ _ _ Hat) as Hs. cbn in Hs. unfold set_symbol. apply wp_bind.
  eapply wp_Ret; [by apply deref_slot|]. apply wp_modify.
  destruct Hat as [H1 H2 H3 [tl H4] H5]. split; [split; cbn|].
  - by rewrite length_insert.
  - done.
  - done.
  - exists tl. rewrite drop_insert_ge by lia. rewrite H4, Nat.sub_diag. done.
  - done.
  - unfold keeps. cbn. by rewrite take_insert_ge.
Qed.

Definition p_func_of (p : parser atom) : parser atom := fun ts =>
  match ts with t :: ts1 => r_func p t.(txt) ts1 | [] => None end.

(** After the opening parenthesis. *)
Lemma func_args_spec n (p : parser atom) c s0 s j t ts0 ts f :
  parses n p e_atom c -> (forall ts a ts', p ts = Some (a, ts') -> (length ts' <= length ts)%nat) ->
  s.(tokens) !! j = Some (Some (Tok (func_of func_names f) f)) -> at_tokens s (S (S j)) ts -> (length ts < n)%nat ->
  keeps j s0 s -> t.(txt) = f -> r_expect lpar_s ts0 = Some ts -> length ts0 = S (length ts) ->
  wp (operand c (fun op1 =>
      r <- _parse_func_rest c ;;
      if r.1 =? 1 then op2 <- of_option r.2 ;; perf_func (Some j) op1 (Some op2)
      else if r.1 =? 0 then perf_func (Some j) op1 None
      else ret (-1, None)))
    (parsed (p_func_of p) e_atom s0 j (t :: ts0)) s.
Proof.
  intros Hc Hsh Hslot Hat Hn Hk0 <- Hexp Hlen0.
  assert (Hpf : p_func_of p (t :: ts0) = '(a, ts2) ← p ts; '(b, ts3) ← r_rest p ts2; Some (call t.(txt) a b, ts3))
    by (cbn; unfold r_func; by rewrite Hexp).
  eapply parses_operand; [exact Hc|exact Hat|exact Hn| |].
  { intros s' Hb. apply parsed_none. intros a ts' E. rewrite Hpf in E.
    destruct Hb as [Hb|(a1 & ts1 & Hb & Hev)]; rewrite Hb in E; cbn in E; [done|].
    destruct (r_rest p ts1) as [[b ts3]|]; [|done]. simplify_eq/=. by rewrite e_call, Hev. }
  intros a x ts2 i2 s2 E Ev Hat2 Hl2 Hi2 Hk2.
  assert (Hpf2 : p_func_of p (t :: ts0) = '(b, ts3) ← r_rest p ts2; Some (call t.(txt) a b, ts3)) by (rewrite Hpf, E; done).
  apply wp_bind. eapply wp_mono; [eapply func_rest_spec; [exact Hc|exact Hat2|]|].
  { pose proof (Hsh _ _ _ E). lia. }
  intros r s3. unfold rest_done. destruct (r_rest p ts2) as [[b ts3]|] eqn:Er.
  2:{ intros Hr. rewrite Hr. apply wp_ret. apply parsed_none. intros ??. by rewrite Hpf2. }
  assert (Hpc : p_func_of p (t :: ts0) = Some (call t.(txt) a b, ts3)) by exact Hpf2.
  intros [Hr Hpos].
  assert (Hdone : forall y, r.1 ≠ -1 -> e_args t.(txt) x b = func_result (func_of func_names t.(txt)) x y ->
    wp (perf_func (Some j) x y) (parsed (p_func_of p) e_atom s0 j (t :: ts0)) s3).
  { intros y Hne Hy. destruct (Hpos Hne) as (i3 & Hat3 & Hl3 & Hi3 & Hk3).
    assert (Hk : keeps (S (S j)) s s3) by (eapply keeps_trans; [|exact Hk2|exact Hk3]; lia).
    eapply wp_mono; [apply perf_func_spec|].
    { rewrite <- (lookup_take_lt _ (S (S j))) by lia. rewrite Hk. rewrite lookup_take_lt by lia. exact Hslot. }
    intros r' s4 [Hs ->]. cbn [symbol]. destruct (func_result _ x y) as [v|] eqn:Ef.
    - eapply parsed_here with (i' := i3); [exact Hpc|by rewrite e_call, Ev; cbn; rewrite Hy| |cbn [length]; rewrite Hlen0; lia|lia|].
      + by eapply at_same.
      + unfold keeps. destruct Hs as [-> _]. apply (keeps_trans j (S (S j)) s0 s); [lia|done|exact Hk].
    - apply parsed_none. rewrite Hpc. intros ???. simplify_eq. rewrite e_call, Ev. cbn. by rewrite Hy. }
  destruct b as [b|]; [|rewrite Hr in *; cbn; by apply Hdone].
  destruct (e_atom b) as [y|] eqn:Eb.
  - rewrite Hr in *. cbn. apply Hdone; [done|]. cbn. by rewrite Eb.
  - rewrite Hr. cbn. apply wp_ret, parsed_none. rewrite Hpc. intros ???. simplify_eq. rewrite e_call, Ev. cbn. by rewrite Eb.
Qed.

Lemma parses_func n (p : parser atom) c s i t ts :
  parses n p e_atom c -> (forall ts a ts', p ts = Some (a, ts') -> (length ts' <= length ts)%nat) ->
  at_tokens s i (t :: ts) -> (length ts <= n)%nat -> wp (_parse_func c) (parsed (p_func_of p) e_atom s i (t :: ts)) s.
Proof.
  intros Hc Hsh Hat Hn. pose proof (at_slot _ _ _ Hat) as Hs. cbn in Hs. unfold _parse_func.
  apply wp_bind, wp_gets. rewrite (at_next _ _ _ Hat). apply wp_bind. eapply wp_Ret; [by apply deref_slot|].
  apply wp_bind. eapply wp_mono; [apply get_func_spec|]. intros f s1 [-> Hs1].
  apply wp_bind. eapply wp_mono; [apply set_symbol_spec; by eapply at_same|]. intros [] s2 [Hat2 Hk2].
  pose proof (at_slot _ _ _ Hat2) as Hslot. cbn in Hslot.
  apply wp_bind. eapply wp_Ret; [by apply deref_slot|]. eapply (wp_accept _ _ (Tok _ _)); [exact Hat2|]. intros Hat3.
  assert (Hk : keeps i s (advance i s2)). { unfold keeps. cbn. rewrite Hk2. by destruct Hs1 as [-> _]. }
  destruct ts as [|t2 ts2].
  { apply wp_check. eapply wp_Ret; [eapply refuse_at; [exact Hat3|done]|]. left. split; [done|]. by apply parsed_none. }
  destruct (decide (t2.(symbol) = lpar_s)) as [Ho|Ho].
  - rewrite <- Ho. eapply wp_accept; [exact Hat3|]. intros Hat4.
    eapply func_args_spec; [exact Hc|exact Hsh|exact Hslot|exact Hat4|cbn in Hn; lia|exact Hk|done| |done].
    cbn. by rewrite bool_decide_true.
  - apply wp_check. eapply wp_Ret; [eapply refuse_at; [exact Hat3|done]|]. left. split; [done|]. apply parsed_none.
    intros a ts'. cbn. unfold r_func. cbn. by rewrite bool_decide_false.
Qed.

(** The reference parser takes tokens from the front. *)
Definition shorter {A} (p : parser A) : Prop := forall ts a ts', p ts = Some (a, ts') -> (length ts' <= length ts)%nat.

Lemma expect_shorter o ts ts' : r_expect o ts = Some ts' -> (length ts' <= length ts)%nat.
Proof. destruct ts; [done|]. cbn. case_bool_decide; [|done]. intros. simplify_eq. lia. Qed.

Lemma shorter_chain {A} ops (p : parser A) : shorter p -> shorter (r_chain ops p).
Proof.
  intros Hp ts c ts' H. unfold r_chain in H. destruct (p ts) as [[a ts1]|] eqn:E; [|done]. cbn in H. apply Hp in E.
  destruct ts1 as [|t ts2]; [by simplify_eq/=|]. case_bool_decide; [|by simplify_eq/=].
  destruct (p ts2) as [[b ts3]|] eqn:E2; [|done]. simplify_eq/=. apply Hp in E2. lia.
Qed.

Lemma shorter_signed {A} (p : parser A) : shorter p -> shorter (r_signed p).
Proof.
  intros Hp [|t ts1] c ts' H; [done|]. cbn in H. case_bool_decide.
  - destruct (p ts1) as [[a ts2]|] eqn:E; [|done]. simplify_eq/=. apply Hp in E. lia.
  - destruct (p (t :: ts1)) as [[a ts2]|] eqn:E; [|done]. simplify_eq/=. by apply Hp in E.
Qed.

Lemma shorter_func (p : parser atom) f : shorter p -> shorter (r_func p f).
Proof.
  intros Hp ts a ts' H. unfold r_func in H. destruct (r_expect lpar_s ts) as [ts1|] eqn:E1; [|done].
  apply expect_shorter in E1. cbn in H. destruct (p ts1) as [[a1 ts2]|] eqn:E2; [|done]. apply Hp in E2. cbn in H.
  destruct (r_rest p ts2) as [[b ts3]|] eqn:E3; [|done]. simplify_eq/=.
  destruct ts2 as [|t ts4]; [done|]. cbn in E3. case_bool_decide; [simplify_eq/=; lia|].
  case_bool_decide; [|done]. destruct (p ts4) as [[b' ts5]|] eqn:E4; [|done]. cbn in E3. apply Hp in E4.
  destruct (r_expect rpar_s ts5) eqn:E5; [|done]. apply expect_shorter in E5. simplify_eq/=. lia.
Qed.

Lemma shorter_expr (p : parser atom) : shorter p -> shorter (r_expr_of p).
Proof. intros. by repeat apply shorter_chain; apply shorter_signed. Qed.

Lemma shorter_atom n : shorter (r_atom n).
Proof.
  induction n as [|n IH]; intros [|t ts] a ts' H; try done. cbn [r_atom] in H. cbn.
  case_bool_decide; [|case_bool_decide; [by simplify_eq/=; lia|case_bool_decide; [|done]]].
  - destruct (r_expr_of (r_atom n) ts) as [[e ts2]|] eqn:E; [|done]. apply (shorter_expr _ IH) in E. cbn in H.
    destruct (r_expect rpar_s ts2) eqn:E2; [|done]. apply expect_shorter in E2. simplify_eq/=. lia.
  - apply shorter_func in H; [lia|done].
Qed.

Lemma atom_nil n ts : r_atom n ts = None \/ ts ≠ [].
Proof. destruct n, ts; auto. Qed.

Lemma parses_paren n s i t ts :
  parses n (r_atom n) e_atom (_parse_atom 0 n) -> at_tokens s i (t :: ts) -> (length ts < n)%nat -> t.(symbol) = lpar_s ->
  wp (check (_accept_token lpar_s) (
      operand (_parse_expression 0 (_parse_atom 0 n)) (fun v =>
      check (_accept_token rpar_s) (ret (0, Some v)))))
    (parsed (r_atom (S n)) e_atom s i (t :: ts)) s.
Proof.
  intros IH Hat Hn Ho. rewrite <- Ho at 1. eapply wp_accept; [exact Hat|]. intros Hat2.
  assert (Hr : r_atom (S n) (t :: ts) = '(e, ts2) ← r_expr_of (r_atom n) ts; ts3 ← r_expect rpar_s ts2; Some (APar e, ts3))
    by (cbn [r_atom]; by rewrite bool_decide_true).
  eapply parses_operand; [eapply parses_expr; [apply atom_nil|exact IH]|exact Hat2|lia| |].
  { intros s' Hb. apply parsed_none. intros a ts' E. rewrite Hr in E.
    destruct Hb as [Hb|(e & ts2 & Hb & Hev)]; rewrite Hb in E; [done|]. cbn in E.
    destruct (r_expect rpar_s ts2); [|done]. simplify_eq/=. exact Hev. }
  intros e v ts2 i2 s2 E Ev Hat3 Hl Hi Hk.
  assert (Hr2 : r_atom (S n) (t :: ts) = ts3 ← r_expect rpar_s ts2; Some (APar e, ts3)) by (rewrite Hr, E; done).
  apply wp_check. destruct ts2 as [|t2 ts3].
  { eapply wp_Ret; [eapply refuse_at; [exact Hat3|done]|]. left. split; [done|]. apply parsed_none. intros ??. by rewrite Hr2. }
  cbn [r_expect] in Hr2. destruct (decide (t2.(symbol) = rpar_s)) as [Ho3|Ho3].
  - rewrite <- Ho3 at 1. destruct (accept_at _ _ _ _ Hat3) as [E3 Hat4]. eapply wp_Ret; [exact E3|]. right. split; [done|].
    apply wp_ret. rewrite bool_decide_true in Hr2 by done.
    eapply parsed_here with (i' := S i2); [exact Hr2|exact Ev|exact Hat4|cbn in *; lia|lia|].
    apply (keeps_trans i (S i) s (advance i s)); [lia|done|exact Hk].
  - eapply wp_Ret; [eapply refuse_at; [exact Hat3|done]|]. left. split; [done|]. apply parsed_none.
    intros ??. by rewrite Hr2, bool_decide_false.
Qed.

Lemma parses_atom n : parses n (r_atom n) e_atom (_parse_atom 0 n).
Proof.
  induction n as [|n IH]; intros s i ts Hat Hn; [lia|]. cbn [_parse_atom]. apply wp_bind.
  eapply wp_Ret; [by eapply next_sym_at|].
  destruct ts as [|t ts1]; cbn [head_sym]; [by syms; apply wp_ret|]. cbn in Hn.
  case_bool_decide as Ho; [|case_bool_decide as Ho2; [|case_bool_decide as Ho3]].
  - apply parses_paren; [exact IH|exact Hat|lia|exact Ho].
  - apply wp_operand. unfold _parse_numb. apply wp_bind, wp_gets. rewrite (at_next _ _ _ Hat), <- Ho2.
    pose proof (at_slot _ _ _ Hat) as Hs. cbn in Hs. eapply wp_accept; [exact Hat|]. intros Hat2.
    apply wp_bind. eapply wp_Ret; [by apply deref_slot|]. apply wp_ret. right. eexists. split; [done|]. apply wp_ret.
    apply (parsed_here _ _ _ _ _ (ANum t.(txt)) _ ts1 (S i)); [|done|done|cbn; lia|lia|done].
    cbn [r_atom]. by rewrite bool_decide_false, bool_decide_true.
  - apply wp_operand. eapply wp_mono; [eapply parses_func; [exact IH|apply shorter_atom|exact Hat|lia]|].
    assert (Hr : r_atom (S n) (t :: ts1) = p_func_of (r_atom n) (t :: ts1))
      by (cbn [r_atom]; do 2 rewrite bool_decide_false by done; by rewrite bool_decide_true).
    intros r s'. unfold parsed at 1. rewrite <- Hr. destruct (r_atom (S n) (t :: ts1)) as [[a ts']|] eqn:E.
    2:{ intros ->. left. split; [done|]. apply parsed_none. congruence. }
    destruct (e_atom a) as [v|] eqn:Ev; [|intros ->; left; split; [done|]; apply parsed_none; congruence].
    intros (-> & i' & H1 & H2 & H3 & H4). right. exists v. split; [done|]. apply wp_ret.
    by eapply parsed_here.
  - apply wp_ret. apply parsed_none. intros a ts'. cbn [r_atom]. by rewrite !bool_decide_false.
Qed.

Lemma accept_eof s i : at_tokens s i [] -> wp (_accept_token eof_s) (fun r _ => r = 0) s.
Proof.
  intros Hat. unfold _accept_token. apply wp_bind. eapply wp_Ret; [by eapply next_sym_at|]. cbn [head_sym].
  rewrite bool_decide_true by done. destruct Hat as [H1 H2 H3 [tl H4] H5]. cbn in H5.
  assert (exists o, s.(tokens) !! S i = Some o) as [o Ho] by (apply lookup_lt_is_Some; unfold MAX_TOKENS in *; lia).
  apply wp_bind. unfold get_next. apply wp_bind, wp_gets. unfold id. rewrite H3. unfold MAX_TOKENS in *.
  replace (0 <=? Z.of_nat i + 1) with true by (symmetry; apply Z.leb_le; lia).
  replace (Z.of_nat i + 1 <? Z.of_nat 64) with true by (symmetry; apply Z.ltb_lt; lia).
  replace (Z.to_nat (Z.of_nat i + 1)) with (S i) by lia. cbn [andb]. apply wp_bind, wp_ret. by rewrite Ho.
Qed.

(** The tokens [ts] are in the array, from its start, and nothing was taken. *)
Record tokenized (s : calc) (ts : list tok) : Prop := {
  tk_len : length s.(tokens) = MAX_TOKENS;
  tk_idx : s.(current_idx) = 0;
  tk_toks : exists tl, s.(tokens) = (Some <$> ts) ++ Some eof_token :: tl;
  tk_room : (length ts + 1 < MAX_TOKENS)%nat
}.

Lemma parse_start s ts : tokenized s ts ->
  wp get_next (fun p s' => at_tokens (set_next_tok p s') 0 ts) s.
Proof.
  intros [H1 H2 [tl H3] H4]. unfold get_next. apply wp_bind, wp_gets. unfold id. rewrite H2.
  apply wp_bind. apply (wp_ret 0%nat).
  assert (H0 : s.(tokens) !! 0%nat = Some (Some (default eof_token (head ts)))) by (rewrite H3; by destruct ts).
  rewrite H0. cbn. split; cbn; [done|done|done|by exists tl|lia].
Qed.

(** What the code computes for a line of tokens: the value of its tree with the
    code's own operations. *)
Definition computed (ts : list tok) (v : num) : Prop := exists e, w_expr e /\ ts = p_expr e /\ e_expr e = Some v.

Lemma expr_complete e ts : w_expr e -> (length (p_expr e ++ ts) < MAX_TOKENS)%nat ->
  follow ([exp_s] ++ [mul_s; div_s] ++ [add_s; sub_s]) ts ->
  r_expr_of (r_atom (S MAX_TOKENS)) (p_expr e ++ ts) = Some (e, ts).
Proof.
  intros Hw Hl Hf. rewrite length_app in Hl. apply (complete_expr (S MAX_TOKENS)); [|done|lia|done].
  by apply complete_atom.
Qed.

Lemma parse_computes s ts :
  tokenized s ts -> Forall plain ts ->
  wp (parse 0) (fun r _ => (exists v, r = (0, Some v) /\ computed ts v) \/ (r = (-1, None) /\ forall v, ~ computed ts v)) s.
Proof.
  intros Htk Hpl. pose proof (tk_room _ _ Htk) as Hroom. unfold parse. apply wp_bind.
  eapply wp_mono; [by apply parse_start|]. intros p s1 Hat. apply wp_bind, wp_modify. apply wp_bind.
  eapply wp_mono; [eapply parses_expr; [apply atom_nil|apply parses_atom|exact Hat|unfold MAX_TOKENS in *; lia]|].
  assert (Hbad : forall e ts', r_expr_of (r_atom (S MAX_TOKENS)) ts = Some (e, ts') -> e_expr e = None \/ ts' ≠ [] ->
    forall v, ~ computed ts v).
  { intros e ts' E Hor v (e' & Hw & -> & Hev). rewrite <- (app_nil_r (p_expr e')), expr_complete in E;
      [|done|rewrite app_nil_r; lia|done]. destruct Hor; simplify_eq. }
  intros r s2. unfold parsed. destruct (r_expr_of _ ts) as [[e ts']|] eqn:E.
  2:{ intros ->. apply wp_ret. right. split; [done|]. intros v (e & Hw & -> & _).
      rewrite <- (app_nil_r (p_expr e)), expr_complete in E; [done|done|rewrite app_nil_r; lia|done]. }
  destruct (e_expr e) as [v|] eqn:Ev.
  2:{ intros ->. apply wp_ret. right. split; [done|]. by eapply Hbad; [|left]. }
  intros (-> & i & Hat2 & Hl & _ & _). cbn. apply wp_bind. destruct ts' as [|t ts'].
  - eapply wp_mono; [by eapply accept_eof|]. intros ? s3 ->. apply wp_ret. left. exists v. split; [done|]. exists e.
    destruct (sound_expr _ (sound_atom _) _ _ _ Hpl E) as [-> Hw]. by rewrite app_nil_r.
  - destruct (sound_expr _ (sound_atom _) _ _ _ Hpl E) as [-> Hw]. apply Forall_app in Hpl as [_ Hpl].
    inversion Hpl as [|?? Hp _]; subst.
    eapply wp_Ret; [eapply refuse_at; [exact Hat2|]|].
    { cbn. destruct Hp as [->|[->|[_ ?]]]; done. }
    apply wp_ret. right. split; [done|]. by eapply Hbad; [|right].
Qed.

(** ** What the expressions mean

    The evaluator above uses the switches of [calc.c].  This one is written from
    the notation: an operator by its character, a function by its name, a number
    by its digits. *)
Definition v_op (c : Z) (x y : num) : option num :=
  if c =? 43 then Some (n_add x y)
  else if c =? 45 then Some (n_sub x y)
  else if c =? 42 then Some (n_mul x y)
  else if c =? 47 then (if n_is_zero y then None else Some (n_div x y))
  else if c =? 94 then Some (m_pow x y)
  else None.

Definition unary : list (string * (num -> num)) :=
  [("ceil", m_fun ceil_f); ("floor", m_fun floor_f); ("trunc", m_fun trunc_f); ("fabs", m_fabs);
   ("sin", m_fun sin_f); ("cos", m_fun cos_f); ("tan", m_fun tan_f); ("asin", m_fun asin_f); ("acos", m_fun acos_f);
   ("atan", m_fun atan_f); ("sinh", m_fun sinh_f); ("cosh", m_fun cosh_f); ("tanh", m_fun tanh_f);
   ("sqrt", m_fun sqrt_f); ("cbrt", m_fun cbrt_f); ("log", m_fun log_f); ("log10", m_fun log10_f);
   ("log2", m_fun log2_f)]%string.
Definition binary : list (string * (num -> num -> num)) := [("fmod", m_fmod); ("atan2", m_atan2)]%string.
Fixpoint named {B} (table : list (string * B)) (name : list Z) : option B :=
  match table with
  | [] => None
  | (n, f) :: table' => if bool_decide (name = chars n) then Some f else named table' name
  end.

(** The digits before and behind the point; a second point ends the number. *)
Definition is_digit (c : Z) : bool := (48 <=? c) && (c <=? 57).
Fixpoint digits (t : list Z) : list Z :=
  match t with c :: t' => if is_digit c then c :: digits t' else [] | [] => [] end.
Fixpoint behind_digits (t : list Z) : list Z :=
  match t with c :: t' => if is_digit c then behind_digits t' else t | [] => [] end.
Definition fraction (t : list Z) : list Z :=
  match behind_digits t with 46 :: t' => digits t' | _ => [] end.
(** All the digits as one number, divided by ten for each one of the fraction. *)
Definition v_num (t : list Z) : num :=
  Nat.iter (length (fraction t)) (fun a => n_mul a tenth)
    (foldl (fun a d => n_add (n_mul a (of_int 10)) (of_int (d - 48))) (of_int 0) (digits t ++ fraction t)).

Definition v_chain {A} (ev : A -> option num) (c : chain A) : option num :=
  match c with One a => ev a | Two op a b => x ← ev a; y ← ev b; v_op (op_char op) x y end.
Definition v_signed {A} (ev : A -> option num) (s : signed A) : option num :=
  match s with Pos a => ev a | Neg a => v ← ev a; Some (n_sub (of_int 0) v) end.
Fixpoint v_atom (a : atom) : option num :=
  match a with
  | APar e => v_chain (v_chain (v_chain (v_signed v_atom))) e
  | ANum t => Some (v_num t)
  | AFun1 f a => x ← v_atom a; (fun g => g x) <$> named unary f
  | AFun2 f a b => x ← v_atom a; y ← v_atom b; (fun g => g x y) <$> named binary f
  end.
Definition v_expr : expr -> option num := v_chain (v_chain (v_chain (v_signed v_atom))).

(** The text of a number has digits and points only. *)
Definition numeral (t : tok) : Prop := t.(symbol) = num_s -> Forall (fun c => is_digit c || (c =? 46)) t.(txt).

Lemma op_means op x y : op_result op x y = v_op (op_char op) x y.
Proof. by destruct op. Qed.

Lemma named_none {B} (table : list (string * B)) t : t ∉ chars <$> table.*1 -> named table t = None.
Proof.
  induction table as [|[n f] table IH]; [done|]. cbn. intros Hn. rewrite bool_decide_false by set_solver. apply IH. set_solver.
Qed.
Lemma func_of_none names t : t ∉ chars <$> names.*1 -> func_of names t = inval_f.
Proof.
  induction names as [|[n f] names IH]; [done|]. cbn. intros Hn. rewrite bool_decide_false by set_solver. apply IH. set_solver.
Qed.

Lemma func_means t x :
  func_result (func_of func_names t) x None = (fun g => g x) <$> named unary t /\
  forall y, func_result (func_of func_names t) x (Some y) = (fun g => g x y) <$> named binary t.
Proof.
  destruct (decide (t ∈ chars <$> func_names.*1)) as [Hin|Hout].
  - cbn [func_names fmap list_fmap fst] in Hin.
    repeat (apply elem_of_cons in Hin as [->|Hin]; [split; intros; reflexivity|]). by apply not_elem_of_nil in Hin.
  - rewrite func_of_none by done.
    assert (Hu : t ∉ chars <$> unary.*1) by (intros Hu; apply Hout; revert Hu; cbn; set_solver).
    assert (Hb : t ∉ chars <$> binary.*1) by (intros Hb; apply Hout; revert Hb; cbn; set_solver).
    by rewrite !named_none.
Qed.

Lemma digit_means c : is_digit c || (c =? 46) -> isdigit (schar c) = is_digit c /\ (is_digit c -> schar c = c) /\ (c = 46 -> schar c = 46).
Proof.
  unfold is_digit, isdigit, schar. intros Hc.
  assert (0 <= c < 128) by (apply orb_True in Hc as [Hc|Hc]; [apply andb_True in Hc as [?%Is_true_true%Z.leb_le ?%Is_true_true%Z.leb_le]; lia|apply Is_true_true, Z.eqb_eq in Hc; lia]).
  replace (c <? 128) with true by (symmetry; apply Z.ltb_lt; lia). done.
Qed.

Lemma atof_whole t a e step :
  Forall (fun c => is_digit c || (c =? 46)) t ->
  atof_digits t a e step = (foldl (fun a d => n_add (n_mul a (of_int 10)) (of_int (d - 48))) a (digits t),
    e + step * Z.of_nat (length (digits t)),
    match behind_digits t with [] => 0 | c :: _ => c end, match behind_digits t with [] => [] | _ :: t' => t' end) /\
  match behind_digits t with [] => True | c :: t' => c = 46 /\ Forall (fun c => is_digit c || (c =? 46)) t' end.
Proof.
  revert a e. induction t as [|c t IH]; intros a e Ht; cbn [atof_digits digits behind_digits].
  - cbn [length foldl]. rewrite Z.mul_0_r, Z.add_0_r. done.
  - apply Forall_cons in Ht as [Hc Ht]. destruct (digit_means c Hc) as (Hd & Hs & H46). rewrite Hd.
    destruct (is_digit c) eqn:E.
    + rewrite (Hs ltac:(done)). destruct (IH (n_add (n_mul a (of_int 10)) (of_int (c - 48))) (e + step) Ht) as [-> Hb].
      split; [|done]. cbn [foldl length]. by replace (e + step * Z.of_nat (S (length (digits t)))) with (e + step + step * Z.of_nat (length (digits t))) by lia.
    + cbn [orb] in Hc. apply Is_true_true, Z.eqb_eq in Hc. rewrite (H46 Hc). split; [|done]. cbn [foldl length]. subst c. by rewrite Z.mul_0_r, Z.add_0_r.
Qed.

Lemma num_means t : Forall (fun c => is_digit c || (c =? 46)) t -> string_to_num t = v_num t.
Proof.
  intros Ht. unfold string_to_num, atof, v_num, fraction. destruct (atof_whole t (of_int 0) 0 0 Ht) as [-> Hb].
  destruct (behind_digits t) as [|c t'].
  - cbn. by rewrite app_nil_r.
  - destruct Hb as [-> Ht']. cbn [Z.eqb Pos.eqb]. rewrite foldl_app.
    destruct (atof_whole t' (foldl (fun a d => n_add (n_mul a (of_int 10)) (of_int (d - 48))) (of_int 0) (digits t)) (0 + 0 * Z.of_nat (length (digits t))) (-1) Ht') as [-> Hb'].
    assert (Hc : (match behind_digits t' with [] => 0 | c :: _ => c end =? 101) || (match behind_digits t' with [] => 0 | c :: _ => c end =? 69) = false)
      by (destruct (behind_digits t') as [|c t'']; [done|]; by destruct Hb' as [-> _]).
    rewrite Hc. set (n := length (digits t')). replace (Z.to_nat (0 + 0 * Z.of_nat (length (digits t)) + -1 * Z.of_nat n)) with 0%nat by lia.
    replace (Z.to_nat (- (0 + 0 * Z.of_nat (length (digits t)) + -1 * Z.of_nat n))) with n by lia. done.
Qed.

Lemma chain_means {A} (PA : A -> Type) (pr : A -> list tok) (ev ev' : A -> option num) c :
  (forall a, PA a -> Forall numeral (pr a) -> ev a = ev' a) -> chain_all A PA c -> Forall numeral (p_chain pr c) ->
  e_chain ev c = v_chain ev' c.
Proof.
  intros Hp Hc Hn. destruct Hc as [a Ha|op a Ha b Hb]; cbn in *; [by apply Hp|].
  apply Forall_app in Hn as [Hna Hnb]. apply Forall_cons in Hnb as [_ Hnb].
  rewrite (Hp a Ha Hna), (Hp b Hb Hnb). destruct (ev' a); [|done]. cbn. destruct (ev' b); [|done]. apply op_means.
Qed.

Lemma signed_means {A} (PA : A -> Prop) (pr : A -> list tok) (ev ev' : A -> option num) s :
  (forall a, PA a -> Forall numeral (pr a) -> ev a = ev' a) -> signed_all A PA s -> Forall numeral (p_signed pr s) ->
  e_signed ev s = v_signed ev' s.
Proof.
  intros Hp Hs Hn. destruct Hs as [a Ha|a Ha]; cbn in *; [by apply Hp|]. apply Forall_cons in Hn as [_ Hn]. by rewrite (Hp a Ha Hn).
Qed.

Definition atom_meant (a : atom) : Prop := Forall numeral (p_atom a) -> e_atom a = v_atom a.

Lemma tree_means e :
  chain_all _ (chain_all _ (chain_all _ (signed_all _ atom_meant))) e -> Forall numeral (p_expr e) -> e_expr e = v_expr e.
Proof.
  apply chain_means. intros c. apply chain_means. intros d. apply chain_means. intros x. apply signed_means. by intros a.
Qed.

Lemma atom_means a : atom_meant a.
Proof.
  induction a as [e He|t|f a Ha|f a Ha b Hb]; intros Hn; cbn [p_atom] in Hn.
  - apply Forall_cons in Hn as [_ Hn]. apply Forall_app in Hn as [Hn _]. cbn [e_atom v_atom]. by apply tree_means.
  - apply Forall_cons in Hn as [Ht _]. cbn. by rewrite num_means by by apply Ht.
  - do 2 apply Forall_cons in Hn as [_ Hn]. apply Forall_app in Hn as [Hn _]. cbn. rewrite (Ha Hn).
    destruct (v_atom a); [|done]. cbn. apply func_means.
  - do 2 apply Forall_cons in Hn as [_ Hn]. apply Forall_app in Hn as [Hna Hn]. apply Forall_cons in Hn as [_ Hn].
    apply Forall_app in Hn as [Hnb _]. cbn. rewrite (Ha Hna), (Hb Hnb). destruct (v_atom a); [|done]. cbn.
    destruct (v_atom b); [|done]. cbn. apply func_means.
Qed.

Lemma expr_means e : Forall numeral (p_expr e) -> e_expr e = v_expr e.
Proof.
  apply tree_means. apply chain_all_forall. intros c. apply chain_all_forall. intros d. apply chain_all_forall. intros x.
  apply signed_all_forall. intros a. apply atom_means.
Qed.

(** The value of a line of tokens: that of its tree, if it is one. *)
Definition value (ts : list tok) (v : num) : Prop := exists e, w_expr e /\ ts = p_expr e /\ v_expr e = Some v.

Lemma computed_value ts v : Forall numeral ts -> computed ts v <-> value ts v.
Proof.
  intros Hn. split; intros (e & Hw & -> & Hv); exists e; (split; [done|]); (split; [done|]); [by rewrite <- expr_means|by rewrite expr_means].
Qed.

Lemma value_unique ts v v' : (length ts < MAX_TOKENS)%nat -> value ts v -> value ts v' -> v = v'.
Proof.
  intros Hl (e & Hw & -> & Hv) (e' & Hw' & He & Hv'). pose proof (expr_complete e [] Hw) as E1.
  pose proof (expr_complete e' [] Hw') as E2. rewrite <- He in E2. rewrite app_nil_r in *. rewrite E1 in E2 by done.
  specialize (E2 Hl I). simplify_eq. congruence.
Qed.

Lemma parse_spec s ts :
  tokenized s ts -> Forall plain ts -> Forall numeral ts ->
  wp (parse 0) (fun r _ => (exists v, r = (0, Some v) /\ value ts v) \/ (r = (-1, None) /\ forall v, ~ value ts v)) s.
Proof.
  intros Htk Hpl Hn. eapply wp_mono; [by apply (parse_computes s ts)|]. intros r s' [(v & -> & Hv)|[-> Hno]]; [left|right].
  - exists v. by rewrite <- computed_value.
  - split; [done|]. intros v. by rewrite <- computed_value.
Qed.

(** A token array that holds the tokens of a line. *)
Definition ready (ts : list tok) : calc :=
  Calc ((Some <$> ts) ++ Some eof_token :: replicate (MAX_TOKENS - length ts - 1) None)
    (Z.of_nat (length ts) + 1) 0 None [] 0 ∅.

(** C17: [parse] is the grammar.  For any tokens as the tokenizer makes them that
    fit in the array, it returns, and either with status 0 and a value, or with
    status -1.  It is the first exactly when the tokens are the print of an
    expression tree that has a value, and then the value is the tree's: sums,
    differences, products, quotients and powers by their signs, the twenty
    functions by their names, numbers by their digits.  A tree has no value when
    it divides by zero or gives a function the wrong number of operands.  A level
    of the grammar takes at most one operator, so 1 + 2 + 3 is not a tree.  Two
    functions of the code end without a return on some paths; the theorem is for
    the case that the caller then reads 0. *)
Theorem parse_grammar s ts :
  tokenized s ts -> Forall plain ts -> Forall numeral ts ->
  exists r s', parse 0 s = Ret (r, s') /\
    ((exists v, r = (0, Some v) /\ value ts v /\ forall v', value ts v' -> v' = v) \/
     (r = (-1, None) /\ forall v, ~ value ts v)).
Proof.
  intros Htk Hpl Hn. destruct (wp_inv _ _ _ (parse_spec s ts Htk Hpl Hn)) as (r & s' & E & H). exists r, s'. split; [done|].
  destruct H as [(v & -> & Hv)|?]; [left|by right]. exists v. split; [done|]. split; [done|]. intros v' Hv'.
  apply (value_unique ts); [|done|done]. pose proof (tk_room _ _ Htk). lia.
Qed.
End correspondence.

(** * An instance: rational numbers *)

Definition rational_int (q : Q) : Z :=
  let n := Z.quot (Qnum q) (Z.pos (Qden q)) in
  if (- 2 ^ 31 <=? n) && (n <? 2 ^ 31) then n else - 2 ^ 31.

Lemma rational_int_range q : - 2 ^ 31 <= rational_int q < 2 ^ 31.
Proof. unfold rational_int. repeat case_zbool; cbn; lia. Qed.

Definition rational : Num := {|
  num := Q;
  of_int := inject_Z;
  to_int := rational_int;
  tenth := Qmake 1 10;
  n_add := Qplus;
  n_sub := Qminus;
  n_mul := Qmult;
  n_div := Qdiv;
  n_is_zero q := Qeq_bool q (inject_Z 0);
  m_pow x y := Qpower x (rational_int y);
  m_fmod x y := Qminus x (Qmult y (inject_Z (rational_int (Qdiv x y))));
  m_atan2 x _ := x;
  m_fabs := Qabs;
  m_fun f x := match f with floor_f => inject_Z (Qfloor x) | ceil_f => inject_Z (Qceiling x) | _ => x end;
  to_int_range := rational_int_range
|}.

(** 6 * 7 and a division by zero. *)
Lemma parse_grammar_witness :
  (exists r s' v, parse (N := rational) 0 (ready [Tok num_s (chars "6"); op_tok mul_s; Tok num_s (chars "7")]) = Ret (r, s') /\
     r = (0, Some v) /\ v = Qmake 42 1) /\
  exists s', parse (N := rational) 0 (ready [Tok num_s (chars "6"); op_tok div_s; Tok num_s (chars "0")]) = Ret ((-1, None), s').
Proof.
  assert (Hready : forall o, o = mul_s \/ o = div_s -> forall b, b = chars "7" \/ b = chars "0" ->
    let ts := [Tok num_s (chars "6"); op_tok o; Tok num_s b] in
    tokenized (ready ts) ts /\ Forall plain ts /\ Forall numeral ts).
  { intros o Ho b Hb ts. split; [|split].
    - split; [done|done|by eexists|unfold MAX_TOKENS; cbn; lia].
    - destruct Ho as [-> | ->]; repeat (constructor; [unfold plain; cbn; auto|]); constructor.
    - destruct Ho as [-> | ->], Hb as [-> | ->]; repeat (constructor; [intros [=]; by repeat constructor|]); constructor. }
  split.
  - destruct (Hready mul_s ltac:(auto) (chars "7") ltac:(auto)) as (H1 & H2 & H3).
    destruct (parse_grammar (N := rational) _ _ H1 H2 H3) as (r & s' & E & [(v & -> & Hv & Hu)|[_ Hno]]).
    + exists (0, Some v), s', v. split; [done|]. split; [done|]. symmetry. apply Hu.
      exists (One (Two mul_s (One (Pos (ANum (chars "6")))) (One (Pos (ANum (chars "7")))))). by repeat split.
    + exfalso. apply (Hno (Qmake 42 1)).
      exists (One (Two mul_s (One (Pos (ANum (chars "6")))) (One (Pos (ANum (chars "7")))))). by repeat split.
  - destruct (Hready div_s ltac:(auto) (chars "0") ltac:(auto)) as (H1 & H2 & H3).
    destruct (parse_grammar (N := rational) _ _ H1 H2 H3) as (r & s' & E & [(v & -> & (e & Hw & He & Hv) & _)|[-> _]]); [|by exists s'].
    exfalso. pose proof (expr_complete e [] Hw) as Hc. rewrite <- He, app_nil_r in Hc.
    specialize (Hc ltac:(cbn; unfold MAX_TOKENS; lia) I). vm_compute in Hc. injection Hc as <-. vm_compute in Hv. discriminate.
Defined.
