(* ===== verification/CalcLine.v ===== *)
(** The calculator on a whole line: cutting it into tokens, and what
    [process_request] answers. *)
From stdpp Require Import base numbers gmap list strings.
From S2P Require Import Prelude Text Arrays Kmem KString Kstdio Libc LibcNum Calc CalcSpec.

(** * Lines as layouts of tokens *)

Definition breaks (p : Z -> bool) (str : list Z) : Prop := match str with c :: _ => p c = false | [] => True end.

Definition op_syms : list sym := [add_s; sub_s; mul_s; div_s; exp_s; lpar_s; rpar_s; dec_s; comma_s].

(** [not_in H] refutes a false membership of constants. *)
Ltac not_in H := exfalso; apply (bool_decide_pack _) in H; vm_compute in H; exact H.

(** [layout b ts str]: [str] is a way to write the tokens [ts], with blanks
    between them or not; [b] says that a name came before, in which case a
    digit does not start a number. *)
Inductive layout : bool -> list tok -> list Z -> Prop :=
| lay_nil b : layout b [] []
| lay_space b ts str : layout b ts str -> layout b ts (32 :: str)
| lay_op b o ts str : o ∈ op_syms -> layout false ts str -> layout b (op_tok o :: ts) (op_char o :: str)
| lay_num d l ts str :
    sym_of d = dig_s -> Forall (fun c => num_char c = true) l -> breaks num_char str ->
    layout false ts str -> layout false (Tok num_s (d :: l) :: ts) (d :: l ++ str)
| lay_name b d l ts str :
    sym_of d = txt_s \/ (b = true /\ sym_of d = dig_s) -> Forall (fun c => name_char c = true) l -> breaks name_char str ->
    func_of func_names (d :: l) ≠ inval_f ->
    layout true ts str -> layout b (Tok txt_s (d :: l) :: ts) (d :: l ++ str).

Lemma layout_plain b ts str : layout b ts str -> Forall plain ts.
Proof.
  induction 1 as [| |b o ts str Ho _ IH|d l ts str ? ? ? _ IH|b d l ts str ? ? ? ? _ IH]; [done|done| | |];
    (constructor; [|done]); unfold plain; cbn; [right; right|by left|by right; left].
  split; [done|]. intros ->. not_in Ho.
Qed.

Lemma layout_length b ts str : layout b ts str -> (length ts <= length str)%nat.
Proof. induction 1; cbn in *; rewrite ?length_app in *; lia. Qed.

(** ** The scanner takes as much as it can *)

Lemma scan_spec n p str :
  let r := scan n p str in
  str = r.1 ++ r.2 /\ Forall (fun c => p c = true) r.1 /\ ((length str <= n)%nat -> breaks p r.2) /\ (length r.1 <= length str)%nat.
Proof.
  revert str. induction n as [|n IH]; intros [|c str]; cbn; try (split; [done|]; split; [done|]; split; [cbn; done || lia|cbn; lia]).
  destruct (p c) eqn:E; cbn.
  - destruct (IH str) as (H1 & H2 & H3 & H4). split; [by f_equal|]. split; [by constructor|].
    split; [intros; apply H3; lia|lia].
  - split; [done|]. split; [done|]. split; [done|lia].
Qed.

(** Maximal munch: there is one way to cut a string in characters that satisfy
    [p] and a rest that does not continue them. *)
Lemma munch_unique p (l1 l2 r1 r2 : list Z) :
  Forall (fun c => p c = true) l1 -> Forall (fun c => p c = true) l2 -> breaks p r1 -> breaks p r2 ->
  l1 ++ r1 = l2 ++ r2 -> l1 = l2 /\ r1 = r2.
Proof.
  revert l2. induction l1 as [|c l1 IH]; intros [|d l2] H1 H2 B1 B2 E; cbn in E; [done| | |].
  - subst r1. apply Forall_cons_1 in H2 as [H2 _]. cbn in B1. congruence.
  - subst r2. apply Forall_cons_1 in H1 as [H1 _]. cbn in B2. congruence.
  - apply Forall_cons_1 in H1 as [_ H1]. apply Forall_cons_1 in H2 as [_ H2]. injection E as -> E.
    by destruct (IH l2 H1 H2 B1 B2 E) as [-> ->].
Qed.

(** ** Characters *)

Lemma sym_of_space : sym_of 32 = inval_s.
Proof. done. Qed.

Lemma sym_of_op c o : 0 <= c < 256 -> sym_of c = o -> o ∉ [dig_s; txt_s; inval_s] -> c = op_char o /\ o ∈ op_syms.
Proof.
  intros Hc <- Ho. unfold sym_of in *.
  assert (Hs : forall k, 0 <= k < 128 -> schar c = k -> c = k) by (unfold schar; intros k ?; case_zbool; lia).
  destruct (isdigit (schar c)); [set_solver|]. destruct (IS_ALPHA (schar c)); [set_solver|].
  repeat (case_zbool; [split; [cbn; apply Hs; [lia|done]|apply (bool_decide_unpack _); by vm_compute]|]). set_solver.
Qed.

Lemma sym_of_op_char o : o ∈ op_syms -> sym_of (op_char o) = o.
Proof. intros H. repeat (apply elem_of_cons in H as [->|H]; [done|]). by apply not_elem_of_nil in H. Qed.

Lemma op_not_space o : o ∈ op_syms -> op_char o ≠ 32.
Proof. intros H. repeat (apply elem_of_cons in H as [->|H]; [done|]). by apply not_elem_of_nil in H. Qed.

Lemma op_not_class o : o ∈ op_syms -> o ∉ [dig_s; txt_s; inval_s].
Proof. intros H. repeat (apply elem_of_cons in H as [->|H]; [by compute_done|]). by apply not_elem_of_nil in H. Qed.

(** ** Reading a layout from its first character *)

Lemma layout_space b ts str : layout b ts (32 :: str) -> layout b ts str.
Proof.
  inversion 1 as [|? ? ? H'|? o ? ? Ho H' E1 E2|d l ? ? Hd|? d l ? ? Hd]; subst; [done| | |].
  - exfalso. by apply (op_not_space o).
  - by rewrite sym_of_space in Hd.
  - rewrite sym_of_space in Hd. by destruct Hd as [|[]].
Qed.

Lemma layout_op b ts c str o :
  layout b ts (c :: str) -> sym_of c = o -> o ∉ [dig_s; txt_s; inval_s] -> exists ts0, ts = op_tok o :: ts0 /\ layout false ts0 str.
Proof.
  intros H Hc Ho. inversion H as [|? ? ? H'|? o' ts0 ? Ho' H' E1 E2|d l ? ? Hd|? d l ? ? Hd]; subst.
  - rewrite sym_of_space in Ho. set_solver.
  - rewrite sym_of_op_char by done. by exists ts0.
  - rewrite Hd in Ho. set_solver.
  - destruct Hd as [Hd|[_ Hd]]; rewrite Hd in Ho; set_solver.
Qed.

Lemma layout_num ts c str :
  layout false ts (c :: str) -> sym_of c = dig_s ->
  exists l r ts0, str = l ++ r /\ Forall (fun c => num_char c = true) l /\ breaks num_char r /\
    ts = Tok num_s (c :: l) :: ts0 /\ layout false ts0 r.
Proof.
  intros H Hc. inversion H as [|? ? ? H'|? o ts0 ? Ho' H' E1 E2|d l ts0 r Hd|? d l ? ? Hd]; subst.
  - done.
  - rewrite sym_of_op_char in Hc by done. subst. not_in Ho'.
  - by exists l, r, ts0.
  - destruct Hd as [Hd|[? _]]; congruence.
Qed.

Lemma layout_name b ts c str :
  layout b ts (c :: str) -> sym_of c = txt_s \/ (b = true /\ sym_of c = dig_s) ->
  exists l r ts0, str = l ++ r /\ Forall (fun c => name_char c = true) l /\ breaks name_char r /\
    func_of func_names (c :: l) ≠ inval_f /\ ts = Tok txt_s (c :: l) :: ts0 /\ layout true ts0 r.
Proof.
  intros H Hc. inversion H as [|? ? ? H'|? o ts0 ? Ho' H' E1 E2|d l ts0 r Hd|? d l ts0 r Hd]; subst.
  - rewrite sym_of_space in Hc. by destruct Hc as [|[]].
  - exfalso. apply (op_not_class o Ho'). rewrite sym_of_op_char in Hc by done. destruct Hc as [->|[_ ->]]; set_solver.
  - destruct Hc as [Hc|[? _]]; congruence.
  - by exists l, r, ts0.
Qed.

Lemma layout_invalid b ts c str : layout b ts (c :: str) -> sym_of c = inval_s -> c = 32.
Proof.
  intros H Hc. inversion H as [|? ? ? H'|? o ts0 ? Ho' H' E1 E2|d l ts0 r Hd|? d l ts0 r Hd]; subst.
  - done.
  - rewrite sym_of_op_char in Hc by done. subst. not_in Ho'.
  - congruence.
  - destruct Hd as [Hd|[_ Hd]]; congruence.
Qed.

(** * Lines as they are written

    The same without the classes of characters of [calc.c]. *)
Definition is_letter (c : Z) : bool := ((97 <=? c) && (c <=? 122)) || ((65 <=? c) && (c <=? 90)).
Definition in_number (c : Z) : bool := is_digit c || (c =? 46).
Definition in_name (c : Z) : bool := is_letter c || is_digit c.
Definition function_names : list string :=
  ["ceil"; "floor"; "trunc"; "fabs"; "fmod"; "sin"; "cos"; "tan"; "asin"; "acos"; "atan"; "atan2"; "sinh"; "cosh"; "tanh";
   "sqrt"; "cbrt"; "log"; "log10"; "log2"]%string.

(** [written b ts str]: [str] writes the tokens [ts], with blanks between them or
    not: a sign of the grammar by its character, a number as a digit and all the
    digits and points that follow it, a function as its name, which is as long as
    letters and digits follow.  Behind a name ([b]) a digit does not start a
    number. *)
Inductive written : bool -> list tok -> list Z -> Prop :=
| wr_nil b : written b [] []
| wr_space b ts str : written b ts str -> written b ts (32 :: str)
| wr_op b o ts str : o ∈ op_syms -> written false ts str -> written b (op_tok o :: ts) (op_char o :: str)
| wr_num d l ts str :
    is_digit d = true -> Forall (fun c => in_number c = true) l -> breaks in_number str ->
    written false ts str -> written false (Tok num_s (d :: l) :: ts) (d :: l ++ str)
| wr_name b d l ts str :
    is_letter d = true \/ (b = true /\ is_digit d = true) -> Forall (fun c => in_name c = true) l -> breaks in_name str ->
    d :: l ∈ chars <$> function_names ->
    written true ts str -> written b (Tok txt_s (d :: l) :: ts) (d :: l ++ str).

Lemma class_of c : 0 <= c < 256 ->
  bool_decide (sym_of c = dig_s) = is_digit c /\ bool_decide (sym_of c = txt_s) = is_letter c /\
  num_char c = in_number c /\ name_char c = in_name c.
Proof.
  intros Hc.
  assert (Hall : forallb (fun c => bool_decide (bool_decide (sym_of c = dig_s) = is_digit c /\ bool_decide (sym_of c = txt_s) = is_letter c /\
    num_char c = in_number c /\ name_char c = in_name c)) (seqZ 0 256) = true) by by vm_compute.
  rewrite forallb_forall in Hall. eapply bool_decide_eq_true_1, Hall. apply list_elem_of_In, elem_of_seqZ. lia.
Qed.

Lemma digit_class c : 0 <= c < 256 -> sym_of c = dig_s <-> is_digit c = true.
Proof. intros Hc. destruct (class_of c Hc) as (<- & _). by rewrite bool_decide_eq_true. Qed.
Lemma letter_class c : 0 <= c < 256 -> sym_of c = txt_s <-> is_letter c = true.
Proof. intros Hc. destruct (class_of c Hc) as (_ & <- & _). by rewrite bool_decide_eq_true. Qed.

Lemma chars_class (p q : Z -> bool) l :
  (forall c, 0 <= c < 256 -> p c = q c) -> Forall (fun c => 0 <= c < 256) l ->
  Forall (fun c => p c = true) l <-> Forall (fun c => q c = true) l.
Proof.
  intros Hpq Hl. split; intros Hp; rewrite Forall_lookup in Hl, Hp |- *; intros i c Hi.
  - rewrite <- Hpq by (by eapply Hl). by eapply Hp.
  - rewrite Hpq by (by eapply Hl). by eapply Hp.
Qed.
Lemma breaks_class (p q : Z -> bool) str :
  (forall c, 0 <= c < 256 -> p c = q c) -> Forall (fun c => 0 <= c < 256) str -> breaks p str <-> breaks q str.
Proof. intros Hpq Hs. destruct str as [|c str]; [done|]. apply Forall_cons in Hs as [Hc _]. cbn. by rewrite Hpq. Qed.

Lemma name_known t : func_of func_names t ≠ inval_f <-> t ∈ chars <$> function_names.
Proof.
  split; intros Ht.
  - destruct (decide (t ∈ chars <$> func_names.*1)) as [Hin|Hout]; [|by rewrite func_of_none in Ht].
    revert Hin. cbn [func_names function_names fmap list_fmap fst]. set_solver.
  - cbn [function_names fmap list_fmap] in Ht.
    repeat (apply elem_of_cons in Ht as [->|Ht]; [by vm_compute|]). by apply not_elem_of_nil in Ht.
Qed.

Lemma written_layout b ts str : Forall (fun c => 0 <= c < 256) str -> written b ts str <-> layout b ts str.
Proof.
  assert (Hn : forall c, 0 <= c < 256 -> num_char c = in_number c) by (intros c Hc; by destruct (class_of c Hc) as (_ & _ & ? & _)).
  assert (Hm : forall c, 0 <= c < 256 -> name_char c = in_name c) by (intros c Hc; by destruct (class_of c Hc) as (_ & _ & _ & ?)).
  intros Hs. split; intros H; revert Hs.
  - induction H as [|b ts str _ IH|b o ts str Ho _ IH|d l ts str Hd Hl Hb _ IH|b d l ts str Hd Hl Hb Hf _ IH]; intros Hs;
      [constructor|..]; apply Forall_cons in Hs as [Hc Hs]; [constructor; auto..| |];
      apply Forall_app in Hs as [Hs1 Hs2].
    + apply lay_num; [by apply digit_class|by apply (chars_class _ _ _ Hn)|by apply (breaks_class _ _ _ Hn)|auto].
    + apply lay_name; [|by apply (chars_class _ _ _ Hm)|by apply (breaks_class _ _ _ Hm)|by apply name_known|auto].
      rewrite digit_class, letter_class by done. done.
  - induction H as [|b ts str _ IH|b o ts str Ho _ IH|d l ts str Hd Hl Hb _ IH|b d l ts str Hd Hl Hb Hf _ IH]; intros Hs;
      [constructor|..]; apply Forall_cons in Hs as [Hc Hs]; [constructor; auto..| |];
      apply Forall_app in Hs as [Hs1 Hs2].
    + apply wr_num; [by apply digit_class|by apply (chars_class _ _ _ Hn)|by apply (breaks_class _ _ _ Hn)|auto].
    + apply wr_name; [|by apply (chars_class _ _ _ Hm)|by apply (breaks_class _ _ _ Hm)|by apply name_known|auto].
      rewrite digit_class, letter_class in Hd by done. done.
Qed.

Lemma written_numeral b ts str : written b ts str -> Forall numeral ts.
Proof.
  induction 1 as [|b ts str _ IH|b o ts str Ho _ IH|d l ts str Hd Hl Hb _ IH|b d l ts str Hd Hl Hb Hf _ IH]; [done|done| | |];
    (constructor; [|done]); intros Hs; [|clear Hs|done].
  - cbn in Hs. subst o. not_in Ho.
  - cbn. constructor; [by rewrite Hd|]. eapply Forall_impl; [exact Hl|]. intros c Hc. unfold in_number in Hc. by rewrite Hc.
Qed.

(** ** Blanks around the line *)

Definition blank (c : Z) : Prop := c = 32 \/ c = 9 \/ c = 10.

Lemma isspace_blank c : isspace c = true <-> blank c.
Proof. unfold isspace, blank. rewrite !orb_true_iff, !Z.eqb_eq. tauto. Qed.

Lemma skip_blanks l str : Forall blank l -> (forall c, head str = Some c -> ~ blank c) -> skip_space (l ++ str) = str.
Proof.
  intros Hl Hs. induction Hl as [|c l Hc _ IH]; cbn.
  - destruct str as [|c str]; [done|]. cbn. destruct (isspace c) eqn:E; [|done]. exfalso. by apply (Hs c), isspace_blank.
  - by rewrite (proj2 (isspace_blank c) Hc).
Qed.

(** The blanks are taken off, and nothing else. *)
Lemma trim_blanks lead line trail :
  Forall blank lead -> Forall blank trail -> (forall c, head line = Some c \/ last line = Some c -> ~ blank c) ->
  trim (lead ++ line ++ trail) = line.
Proof.
  intros Hl Ht Hn. unfold trim. destruct line as [|c line]; cbn [app].
  - rewrite <- (app_nil_r (lead ++ trail)), skip_blanks; [done| |done]. by apply Forall_app.
  - rewrite skip_blanks by (done || (intros c' Hc'; apply Hn; by left)). f_equal. rewrite reverse_app, skip_blanks.
    + by rewrite reverse_involutive.
    + by apply Forall_reverse.
    + intros c' Hc'. apply Hn. right. rewrite head_reverse in Hc'. destruct line as [|d line]; [done|].
      by rewrite last_cons, Hc'.
Qed.

(** * The tokenizer *)

(** The array begins with the tokens [ts]. *)
Record lexed (s : calc) (ts : list tok) : Prop := {
  lx_len : length s.(tokens) = MAX_TOKENS;
  lx_count : s.(tokens_len) = Z.of_nat (length ts);
  lx_toks : take (length ts) s.(tokens) = Some <$> ts
}.

(** What the tokenizer leaves alone. *)
Definition same_rest (s s' : calc) : Prop := s'.(current_idx) = s.(current_idx) /\ s'.(bytes) = s.(bytes).

Lemma add_token_spec s ts t :
  lexed s ts -> (length ts < MAX_TOKENS)%nat -> wp (add_token t) (fun _ s' => lexed s' (ts ++ [t]) /\ same_rest s s') s.
Proof.
  intros [H1 H2 H3] Hl. unfold add_token. apply wp_bind, wp_gets. unfold id. rewrite H2. unfold MAX_TOKENS in *.
  rewrite (proj2 (Z.leb_le 0 _)), (proj2 (Z.ltb_lt (Z.of_nat (length ts)) _)) by lia. cbn [andb].
  apply wp_bind, wp_ret. rewrite Nat2Z.id. apply wp_bind, wp_modify, wp_modify. split; [|done]. split; cbn.
  - by rewrite length_insert.
  - rewrite length_app. cbn. lia.
  - rewrite length_app. cbn. rewrite Nat.add_1_r, (take_S_r _ _ (Some t)) by (apply list_lookup_insert_eq; lia).
    rewrite take_insert_ge by lia. by rewrite H3, fmap_app.
Qed.

Definition last_name (ts : list tok) : bool := match last ts with Some t => bool_decide (t.(symbol) = txt_s) | None => false end.

Lemma last_name_app ts t : last_name (ts ++ [t]) = bool_decide (t.(symbol) = txt_s).
Proof. unfold last_name. by rewrite last_snoc. Qed.

Lemma after_name_spec s ts : lexed s ts -> after_name s = Ret (last_name ts, s).
Proof.
  intros [H1 H2 H3]. unfold after_name, bind, Prelude.gets, id, last_name. rewrite H2.
  destruct ts as [|t ts _] using rev_ind; [done|]. rewrite last_snoc. rewrite length_app in *. cbn in *.
  rewrite (proj2 (Z.ltb_lt 0 _)) by lia.
  replace (Z.to_nat (Z.of_nat (length ts + 1) - 1)) with (length ts) by lia.
  rewrite <- (lookup_take_lt _ (length ts + 1)), H3 by lia. by rewrite fmap_app, lookup_app_r, length_fmap, Nat.sub_diag by (rewrite length_fmap; lia).
Qed.

(** The outcome of cutting [str] behind the tokens [ts]. *)
Definition cut (s : calc) (ts : list tok) (b : bool) (str : list Z) (r : Z) (s' : calc) : Prop :=
  same_rest s s' /\
  ((r = 0 /\ exists ts', layout b ts' str /\ lexed s' (ts ++ ts' ++ [eof_token])) \/
   (r = -1 /\ (exists ts', lexed s' ts') /\ forall ts', ~ layout b ts' str)).

(** The outcome of one token at the start of [str]. *)
Definition cut_one (s : calc) (ts : list tok) (b : bool) (str : list Z) (r : option (list Z)) (s' : calc) : Prop :=
  same_rest s s' /\
  match r with
  | None => (exists ts', lexed s' ts') /\ forall ts', ~ layout b ts' str
  | Some rest => exists t, lexed s' (ts ++ [t]) /\ (length rest < length str)%nat /\ rest ⊆ str /\
      (forall ts', layout (bool_decide (t.(symbol) = txt_s)) ts' rest -> layout b (t :: ts') str) /\
      (forall ts', layout b ts' str -> exists ts0, ts' = t :: ts0 /\ layout (bool_decide (t.(symbol) = txt_s)) ts0 rest)
  end.

Lemma rest_sub (c : Z) (l r : list Z) : r ⊆ c :: l ++ r.
Proof. intros x Hx. apply elem_of_cons. right. apply elem_of_app. by right. Qed.

Lemma token_text_ok t s : (length t <= 31)%nat -> token_text t s = Ret (tt, s).
Proof. intros H. unfold token_text, MAX_TOK_LEN. by rewrite (proj2 (Z.ltb_lt _ _)) by lia. Qed.

Lemma lex_num_spec s ts c str :
  lexed s ts -> (length ts < MAX_TOKENS)%nat -> (length (c :: str) <= 31)%nat -> sym_of c = dig_s ->
  wp (lex_num c str) (cut_one s ts false (c :: str)) s.
Proof.
  intros Hlx Hl Hstr Hc. unfold lex_num. pose proof (scan_spec (Z.to_nat MAX_TOK_LEN - 1) num_char str) as H.
  destruct (scan _ _ str) as [l rest]. cbn in H. destruct H as (-> & H2 & H3 & _). cbn in Hstr. rewrite length_app in *. specialize (H3 ltac:(unfold MAX_TOK_LEN; lia)).
  apply wp_bind. eapply wp_Ret; [apply token_text_ok; cbn; lia|].
  apply wp_bind. eapply wp_mono; [by apply add_token_spec|]. intros [] s' [Hlx' Hs]. apply wp_ret. split; [done|].
  eexists. split; [exact Hlx'|]. split; [cbn; rewrite length_app; lia|]. split; [apply rest_sub|]. cbn [symbol]. syms. split.
  - intros ts' H. by apply lay_num.
  - intros ts' H. destruct (layout_num _ _ _ H Hc) as (l' & r' & ts0 & E & Hl1 & Hb & -> & Hr).
    destruct (munch_unique _ _ _ _ _ H2 Hl1 H3 Hb E) as [<- <-]. by exists ts0.
Qed.

Lemma lex_name_spec s ts b c str :
  lexed s ts -> (length ts < MAX_TOKENS)%nat -> (length (c :: str) <= 31)%nat ->
  sym_of c = txt_s \/ (b = true /\ sym_of c = dig_s) ->
  wp (lex_name c str) (cut_one s ts b (c :: str)) s.
Proof.
  intros Hlx Hl Hstr Hc. unfold lex_name. pose proof (scan_spec (Z.to_nat MAX_TOK_LEN - 1) name_char str) as H.
  destruct (scan _ _ str) as [l rest]. cbn in H. destruct H as (-> & H2 & H3 & _). cbn in Hstr. rewrite length_app in *. specialize (H3 ltac:(unfold MAX_TOK_LEN; lia)).
  apply wp_bind. eapply wp_Ret; [apply token_text_ok; cbn; lia|].
  assert (Hinv : forall ts', layout b ts' (c :: l ++ rest) -> exists ts0, ts' = Tok txt_s (c :: l) :: ts0 /\
    func_of func_names (c :: l) ≠ inval_f /\ layout true ts0 rest).
  { intros ts' H. destruct (layout_name _ _ _ _ H Hc) as (l' & r' & ts0 & E & Hl1 & Hb & Hf & -> & Hr).
    destruct (munch_unique _ _ _ _ _ H2 Hl1 H3 Hb E) as [<- <-]. by exists ts0. }
  unfold get_func. apply wp_bind, wp_bind. cbn [txt]. case_bool_decide as Hf.
  - apply wp_modify. apply wp_ret. rewrite bool_decide_true by done. apply wp_ret. split; [done|].
    split; [exists ts; by destruct Hlx|]. intros ts' H. by destruct (Hinv _ H) as (? & ? & ? & ?).
  - apply wp_ret, wp_ret. rewrite bool_decide_false by done. apply wp_bind.
    eapply wp_mono; [by apply add_token_spec|]. intros [] s' [Hlx' Hs]. apply wp_ret. split; [done|].
    eexists. split; [exact Hlx'|]. split; [cbn; rewrite length_app; lia|]. split; [apply rest_sub|]. cbn [symbol]. syms. split.
    + intros ts' H. by apply lay_name.
    + intros ts' H. destruct (Hinv _ H) as (ts0 & -> & _ & H'). by exists ts0.
Qed.

Lemma lex_spec s ts c str :
  lexed s ts -> (length ts < MAX_TOKENS)%nat -> (length (c :: str) <= 31)%nat -> 0 <= c < 256 -> c ≠ 32 ->
  wp (lex c str) (cut_one s ts (last_name ts) (c :: str)) s.
Proof.
  intros Hlx Hl Hstr Hc Hsp. unfold lex.
  assert (Hop : forall o, sym_of c = o -> o ∉ [dig_s; txt_s; inval_s] ->
    wp (add_token (Tok o [c]) ;;; ret (Some str)) (cut_one s ts (last_name ts) (c :: str)) s).
  { intros o Ho Hn. destruct (sym_of_op c o Hc Ho Hn) as [-> Hin]. apply wp_bind.
    eapply wp_mono; [by apply add_token_spec|]. intros [] s' [Hlx' Hs]. apply wp_ret. split; [done|].
    exists (op_tok o). split; [done|]. split; [cbn; lia|]. split; [apply (rest_sub _ [])|]. cbn [op_tok symbol].
    rewrite bool_decide_false by (intros ->; set_solver). split.
    - intros. by apply lay_op.
    - intros ts' H. by apply (layout_op _ _ _ _ o) in H. }
  destruct (sym_of c) eqn:Ec; try (apply Hop; [done|by compute_done]).
  - apply wp_bind. eapply wp_Ret; [by eapply after_name_spec|]. destruct (last_name ts).
    + apply lex_name_spec; [done|done|done|by right].
    + by apply lex_num_spec.
  - apply lex_name_spec; [done|done|done|by left].
  - apply wp_ret. split; [done|]. split; [by exists ts|]. intros ts' H. by apply layout_invalid in H.
Qed.

Lemma tokenize_loop_spec fuel s ts str :
  lexed s ts -> (length str < fuel)%nat -> (length str <= 31)%nat -> (length ts + length str < MAX_TOKENS)%nat ->
  Forall (fun c => 0 <= c < 256) str ->
  wp (tokenize_loop fuel str) (cut s ts (last_name ts) str) s.
Proof.
  revert s ts str. induction fuel as [|fuel IH]; intros s ts str Hlx Hf Hshort Hroom Hb; [lia|]. cbn [tokenize_loop].
  destruct str as [|c str].
  { apply wp_bind. eapply wp_mono; [apply add_token_spec; [exact Hlx|cbn in Hroom; lia]|]. intros [] s' [Hlx' Hs].
    apply wp_ret. split; [done|]. left. split; [done|]. exists []. split; [constructor|done]. }
  apply Forall_cons_1 in Hb as [Hc Hb]. cbn in Hf, Hroom. destruct (Z.eqb_spec c 32) as [->|Hc32].
  { eapply wp_mono; [apply IH; [done|lia|cbn in Hshort; lia|lia|done]|]. intros r s' [Hs H]. split; [done|].
    destruct H as [(-> & ts' & H1 & H2)|(-> & H1 & H2)]; [left|right].
    - split; [done|]. exists ts'. split; [by constructor|done].
    - split; [done|]. split; [done|]. intros ts' H%layout_space. by eapply H2. }
  apply wp_bind. eapply wp_mono; [apply lex_spec; [exact Hlx|lia|exact Hshort|done|done]|].
  intros [rest|] s1 [Hs1 H]; [|apply wp_ret; split; [done|]; right; by split].
  destruct H as (t & Hlx1 & Hlen & Hsub & Hto & Hfrom). cbn in Hlen, Hshort.
  assert (Hbr : Forall (fun c => 0 <= c < 256) rest).
  { apply Forall_forall. intros x Hx%Hsub. apply elem_of_cons in Hx as [->|Hx]; [done|]. by eapply Forall_forall in Hb. }
  eapply wp_mono; [apply (IH s1 (ts ++ [t]) rest); [done|lia|lia|rewrite length_app; cbn; lia|done]|].
  intros r s2 [Hs2 H]. split; [by destruct Hs1, Hs2; split; congruence|]. rewrite last_name_app in H.
  destruct H as [(-> & ts' & H1 & H2)|(-> & H1 & H2)]; [left|right].
  - split; [done|]. exists (t :: ts'). split; [by apply Hto|]. by rewrite <- app_assoc in H2.
  - split; [done|]. split; [done|]. intros ts' H. destruct (Hfrom _ H) as (ts0 & -> & H0). by eapply H2.
Qed.

(** * Requests *)

(** Invariants of a command. *)
Definition stable {A} (I : calc -> Prop) (c : cmd calc A) : Prop := forall s a s', I s -> c s = Ret (a, s') -> I s'.

Section stable.
Context (I : calc -> Prop).
Lemma stable_ret {A} (a : A) : stable I (ret a).
Proof. intros s b s' HI [= <- <-]. done. Qed.
Lemma stable_fault {A} : stable I (fault (A := A)).
Proof. intros ? ? ? _ H. discriminate H. Qed.
Lemma stable_hang {A} : stable I (hang (A := A)).
Proof. intros ? ? ? _ H. discriminate H. Qed.
Lemma stable_gets {A} (f : calc -> A) : stable I (gets f).
Proof. intros s a s' HI [= <- <-]. done. Qed.
Lemma stable_of_option {A} (o : option A) : stable I (of_option o).
Proof. destruct o; [apply stable_ret|apply stable_fault]. Qed.
Lemma stable_modify f : (forall s, I s -> I (f s)) -> stable I (modify f).
Proof. intros Hf s a s' HI [= <- <-]. by apply Hf. Qed.
Lemma stable_bind {A B} (c : cmd calc A) (k : A -> cmd calc B) : stable I c -> (forall a, stable I (k a)) -> stable I (bind c k).
Proof.
  intros Hc Hk s b s' HI. unfold bind. destruct (c s) as [[a s1]| |] eqn:E; [|done|done]. apply Hk. by eapply Hc.
Qed.
End stable.

Create HintDb stable.
#[export] Hint Resolve stable_ret stable_fault stable_hang stable_gets stable_of_option : stable.

(** [stable_tac] follows the code, like [ends_tac]. *)
Ltac stable_tac :=
  repeat first
    [ solve [eauto with stable]
    | match goal with |- stable _ (bind _ _) => apply stable_bind; [|intros ?] end
    | match goal with |- stable _ (match ?o with _ => _ end) => destruct o end ].

(** The array is filled up to the number of tokens. *)
Definition filled (l : list (option tok)) (n : Z) : Prop :=
  length l = MAX_TOKENS /\ 0 <= n <= Z.of_nat MAX_TOKENS /\ forall i : nat, Z.of_nat i < n -> exists t, l !! i = Some (Some t).
Definition idle (s : calc) : Prop := filled s.(tokens) s.(tokens_len).

(** What the parser keeps. *)
Definition kept (n : Z) (m : mem) (s : calc) : Prop := filled s.(tokens) n /\ s.(tokens_len) = n /\ s.(bytes) = m.

Lemma filled_insert l n i t : filled l n -> filled (<[i := Some t]> l) n.
Proof.
  intros (H1 & H2 & H3). split; [by rewrite length_insert|]. split; [done|]. intros j Hj.
  destruct (decide (i = j)) as [<-|Hne]; [|rewrite list_lookup_insert_ne by done; by apply H3].
  exists t. apply list_lookup_insert_eq. destruct (H3 i Hj) as [t' Ht]. by eapply lookup_lt_Some.
Qed.

Lemma lexed_filled s ts : lexed s ts -> filled s.(tokens) s.(tokens_len).
Proof.
  intros [H1 H2 H3]. assert (Hl : (length ts <= MAX_TOKENS)%nat).
  { apply (f_equal length) in H3. rewrite length_take, length_fmap in H3. lia. }
  split; [done|]. rewrite H2. split; [lia|]. intros i Hi.
  rewrite <- (lookup_take_lt _ (length ts)), H3, list_lookup_fmap by lia.
  destruct (lookup_lt_is_Some_2 ts i) as [t ->]; [lia|]. by exists t.
Qed.

Section requests.
Context {N : Num} (n : Z) (m : mem).

Lemma stable_print l : stable (kept n m) (print l).
Proof. by apply stable_modify. Qed.
#[local] Hint Resolve stable_print : stable.

Lemma stable_error e : stable (kept n m) (error e).
Proof. apply stable_print. Qed.
#[local] Hint Resolve stable_error : stable.

Lemma stable_deref p : stable (kept n m) (deref p).
Proof. unfold deref. stable_tac. Qed.
#[local] Hint Resolve stable_deref : stable.

Lemma stable_get_next : stable (kept n m) get_next.
Proof. unfold get_next. stable_tac. by apply stable_modify. Qed.
#[local] Hint Resolve stable_get_next : stable.

Lemma stable_next_sym : stable (kept n m) next_sym.
Proof. unfold next_sym. stable_tac. Qed.
#[local] Hint Resolve stable_next_sym : stable.

Lemma stable_accept o : stable (kept n m) (_accept_token o).
Proof. unfold _accept_token. stable_tac. by apply stable_modify. Qed.
#[local] Hint Resolve stable_accept : stable.

Lemma stable_check c k : stable (kept n m) c -> stable (kept n m) k -> stable (kept n m) (check c k).
Proof. intros. unfold check. stable_tac. Qed.

Lemma stable_operand c k : stable (kept n m) c -> (forall v, stable (kept n m) (k v)) -> stable (kept n m) (operand c k).
Proof. intros. unfold operand. stable_tac. Qed.
#[local] Hint Resolve stable_check stable_operand : stable.

Lemma stable_perf_op p x y : stable (kept n m) (perf_op p x y).
Proof. unfold perf_op. stable_tac. Qed.
Lemma stable_perf_func p x y : stable (kept n m) (perf_func p x y).
Proof. unfold perf_func. stable_tac. Qed.
Lemma stable_get_func t : stable (kept n m) (get_func t).
Proof. unfold get_func. stable_tac. Qed.
Lemma stable_set_symbol p f : stable (kept n m) (set_symbol p f).
Proof.
  unfold set_symbol. stable_tac. apply stable_modify. intros s (H1 & H2 & H3). split; [|done]. by apply filled_insert.
Qed.
#[local] Hint Resolve stable_perf_op stable_perf_func stable_get_func stable_set_symbol : stable.

Section atoms.
Context (fall : Z) (c : cmd calc status) (Hc : stable (kept n m) c).
#[local] Hint Resolve Hc : stable.

Lemma stable_func_rest : stable (kept n m) (_parse_func_rest c).
Proof. unfold _parse_func_rest. stable_tac. Qed.
#[local] Hint Resolve stable_func_rest : stable.

Lemma stable_func : stable (kept n m) (_parse_func c).
Proof.
  unfold _parse_func. apply stable_bind; [eauto with stable|intros p]. apply stable_bind; [eauto with stable|intros t].
  apply stable_bind; [eauto with stable|intros f]. apply stable_bind; [eauto with stable|intros []].
  apply stable_bind; [eauto with stable|intros t2]. apply stable_check; [eauto with stable|].
  apply stable_check; [eauto with stable|]. apply stable_operand; [done|intros x]. stable_tac.
Qed.

Lemma stable_s_atom : stable (kept n m) (_parse_s_atom c).
Proof. unfold _parse_s_atom. stable_tac. Qed.
#[local] Hint Resolve stable_s_atom : stable.

Lemma stable_level d ops fl : stable (kept n m) d -> stable (kept n m) (level d ops fl).
Proof.
  intros Hd. unfold level. apply stable_operand; [done|intros x]. apply stable_bind; [eauto with stable|intros o].
  case_bool_decide; [|eauto with stable]. apply stable_bind; [eauto with stable|intros p].
  apply stable_check; [eauto with stable|]. apply stable_operand; [done|intros y].
  apply stable_operand; eauto with stable.
Qed.

Lemma stable_expression : stable (kept n m) (_parse_expression fall c).
Proof.
  assert (Hext : forall d d' : cmd calc status, (forall s, d s = d' s) -> stable (kept n m) d' -> stable (kept n m) d).
  { intros d d' He Hd s a s' HI. rewrite He. by apply Hd. }
  eapply Hext; [intros; apply sum_level|]. apply stable_level. eapply Hext; [intros; apply term_level|]. apply stable_level.
  eapply Hext; [intros; apply factor_level|]. apply stable_level, stable_s_atom.
Qed.
End atoms.
#[local] Hint Resolve stable_expression stable_func : stable.

Lemma stable_atom fall k : stable (kept n m) (_parse_atom fall k).
Proof.
  induction k as [|k IH]; cbn [_parse_atom]; [eauto with stable|].
  apply stable_bind; [eauto with stable|intros o]. case_bool_decide; [|case_bool_decide; [|case_bool_decide; [|eauto with stable]]].
  - apply stable_check; [eauto with stable|]. apply stable_operand; eauto 6 with stable.
  - apply stable_operand; [unfold _parse_numb; stable_tac|eauto with stable].
    apply stable_check; [eauto with stable|stable_tac].
  - apply stable_operand; eauto with stable.
Qed.

Lemma stable_parse fall : stable (kept n m) (parse fall).
Proof.
  unfold parse. apply stable_bind; [eauto with stable|intros p]. apply stable_bind; [by apply stable_modify|intros []].
  apply stable_bind; [apply stable_expression, stable_atom|intros r]. stable_tac.
Qed.
End requests.

Section answers.
Context {N : Num}.

Lemma clear_loop_spec n i s :
  (forall j : nat, (i <= j < i + n)%nat -> exists t, s.(tokens) !! j = Some (Some t)) ->
  wp (clear_loop n i) (fun _ s' => length s'.(tokens) = length s.(tokens) /\ s'.(bytes) = s.(bytes)) s.
Proof.
  revert i s. induction n as [|n IH]; intros i s H; cbn [clear_loop]; [by apply wp_ret|].
  destruct (H i) as [t Ht]; [lia|]. apply wp_bind. eapply wp_Ret; [by apply deref_slot|].
  assert (Hgo : forall s1, s1.(tokens) = s.(tokens) -> s1.(bytes) = s.(bytes) ->
    wp (modify (fun s => set_tokens (<[i := None]> s.(tokens)) s) ;;; clear_loop n (S i))
      (fun _ s' => length s'.(tokens) = length s.(tokens) /\ s'.(bytes) = s.(bytes)) s1).
  { intros s1 E1 E2. apply wp_bind, wp_modify. eapply wp_mono; [apply IH|].
    - intros j Hj. cbn. rewrite E1. rewrite list_lookup_insert_ne by lia. apply H. lia.
    - intros [] s' [H1 H2]. cbn in H1, H2. rewrite length_insert, E1 in H1. by rewrite H1, H2, E2. }
  apply wp_bind. case_bool_decide; [apply wp_modify|apply wp_ret]; by apply Hgo.
Qed.

Lemma clear_toks_spec s :
  idle s -> wp clear_toks (fun _ s' => length s'.(tokens) = MAX_TOKENS /\ s'.(bytes) = s.(bytes)) s.
Proof.
  intros (H1 & H2 & H3). unfold clear_toks. apply wp_bind, wp_gets. rewrite <- H1. apply clear_loop_spec.
  intros j Hj. apply H3. lia.
Qed.

(** The text of a result: integer part, point, five digits of the fraction
    without its leading zeros. *)
Definition shown (v : num) : list Z :=
  int_text (to_int v) ++ [46] ++
  int_text (to_int (m_fabs (n_mul (n_sub v (of_int (to_int v))) (m_pow (of_int 10) (of_int 5))))).

Lemma wp_on_bytes {A} (c : cmd mem A) (Q : A -> calc -> Prop) s :
  wp c (fun a m => Q a (set_bytes m s)) s.(bytes) -> wp (on_bytes c) Q s.
Proof. unfold wp, on_bytes. by destruct (c s.(bytes)) as [[a m]| |]. Qed.

Lemma num_to_string_spec v res s :
  wp (num_to_string v res) (fun _ s' => s'.(tokens) = s.(tokens) /\ s'.(tokens_len) = s.(tokens_len) /\
    forall x, rd8 s'.(bytes) x = rd8 (put_bytes s.(bytes) res (shown v)) x) s.
Proof.
  unfold num_to_string, shown. set (ip := to_int v). set (fr := to_int (m_fabs _)).
  apply wp_bind, wp_on_bytes. eapply wp_mono; [apply itoa_spec, to_int_range|]. intros len m1 [-> H1].
  apply wp_bind, wp_on_bytes, wp_modify. cbn [bytes set_bytes]. apply wp_bind, wp_on_bytes.
  eapply wp_mono; [apply itoa_spec, to_int_range|]. intros len m2 [_ H2]. apply wp_ret. cbn [bytes set_bytes tokens tokens_len].
  split; [done|]. split; [done|]. intros x. rewrite H2, put_bytes_app. cbn [app put_bytes].
  apply put_bytes_ext. intros y. cbn [bytes set_bytes]. by rewrite !rd8_wr8, H1.
Qed.

(** The line is an expression with value [v]. *)
Definition line_value (line : list Z) (v : num) : Prop :=
  exists e, w_expr e /\ written false (p_expr e) line /\ v_expr e = Some v.

Definition answered (s : calc) (line : list Z) (res : Z) (r : Z) (s' : calc) : Prop :=
  idle s' /\
  ((r = 0 /\ exists v, line_value line v /\ forall x, rd8 s'.(bytes) x = rd8 (put_bytes s.(bytes) res (shown v)) x) \/
   (r = -1 /\ s'.(bytes) = s.(bytes) /\ forall v, ~ line_value line v)).

Lemma layout_unique b ts ts' str : layout b ts str -> layout b ts' str -> ts = ts'.
Proof.
  intros H. revert ts'. induction H as [b|b ts str H IH|b o ts str Ho H IH|d l ts str Hd Hl Hb H IH|b d l ts str Hd Hl Hb Hf H IH];
    intros ts' H'.
  - by inversion H'.
  - apply layout_space in H'. by apply IH.
  - apply (layout_op _ _ _ _ o) in H'; [|by apply sym_of_op_char|by apply op_not_class].
    destruct H' as (ts0 & -> & H'). f_equal. by apply IH.
  - apply layout_num in H' as (l' & r & ts0 & E & Hl' & Hb' & -> & H'); [|done].
    destruct (munch_unique _ _ _ _ _ Hl Hl' Hb Hb' E) as [<- <-]. f_equal. by apply IH.
  - apply layout_name in H' as (l' & r & ts0 & E & Hl' & Hb' & Hf' & -> & H'); [|done].
    destruct (munch_unique _ _ _ _ _ Hl Hl' Hb Hb' E) as [<- <-]. f_equal. by apply IH.
Qed.

Lemma lexed_tokenized s ts :
  lexed s (ts ++ [eof_token]) -> s.(current_idx) = 0 -> (length ts + 1 < MAX_TOKENS)%nat -> tokenized s ts.
Proof.
  intros [H1 H2 H3] Hi Hl. split; [done|done| |done]. rewrite fmap_app in H3. cbn in H3.
  exists (drop (length (ts ++ [eof_token])) s.(tokens)).
  rewrite <- (take_drop (length (ts ++ [eof_token])) s.(tokens)) at 1. rewrite H3. by rewrite <- app_assoc.
Qed.

Lemma process_request_spec s req res :
  idle s -> (length (trim req) <= 31)%nat -> Forall (fun c => 0 <= c < 256) (trim req) ->
  wp (process_request 0 req res) (answered s (trim req) res) s.
Proof.
  intros Hid Hl Hb. unfold process_request. apply wp_bind. eapply wp_mono; [by apply clear_toks_spec|].
  intros [] s1 [H1 Hm1]. do 3 apply wp_bind, wp_modify. apply wp_bind.
  eapply wp_mono; [apply (tokenize_loop_spec _ _ []); [|lia|done|unfold MAX_TOKENS; cbn; lia|done]|].
  { split; [done|done|done]. }
  set (line := trim req) in *. intros r s2 ([Hi2 Hm2] & H2). cbn in Hi2, Hm2.
  destruct H2 as [(-> & ts & Hlay & Hlx)|(-> & [ts Hlx] & Hno)]; cbn [Z.eqb Z.opp].
  2:{ apply wp_bind, wp_modify, wp_ret. split; [by apply (lexed_filled s2 ts)|]. right. split; [done|].
      split; [cbn; congruence|]. intros v (e & _ & He%written_layout & _); [|done]. by eapply Hno. }
  pose proof (layout_length _ _ _ Hlay). cbn [app] in Hlx.
  pose proof (lexed_filled _ _ Hlx) as Hfill. apply wp_bind.
  pose proof (proj2 (written_layout _ _ _ Hb) Hlay) as Hwr.
  pose proof (parse_spec s2 ts) as Hp. specialize (Hp ltac:(apply lexed_tokenized; [done|done|unfold MAX_TOKENS; lia])).
  specialize (Hp ltac:(by eapply layout_plain) ltac:(by eapply written_numeral)). destruct (wp_inv _ _ _ Hp) as (r & s3 & E & Hr). eapply wp_Ret; [exact E|].
  assert (Hk : kept s2.(tokens_len) s2.(bytes) s3) by (eapply stable_parse; [|exact E]; done).
  destruct Hk as (Hf3 & Hn3 & Hm3).
  assert (Hval : forall v, line_value line v <-> value ts v).
  { intros v. split; intros (e & Hw & He & Hv); exists e; (split; [done|]); (split; [|done]).
    - apply written_layout in He; [|done]. by apply (layout_unique false _ _ line).
    - by rewrite <- He. }
  destruct Hr as [(v & -> & Hv)|[-> Hno]]; cbn [fst snd default Z.eqb Z.opp].
  - apply wp_bind. eapply wp_mono; [apply num_to_string_spec|]. intros [] s4 (Ht4 & Hn4 & Hm4). apply wp_ret.
    split; [unfold idle; by rewrite Ht4, Hn4, Hn3|]. left. split; [done|]. exists v. split; [by apply Hval|].
    intros x. rewrite Hm4, Hm3, Hm2, Hm1. done.
  - apply wp_bind, wp_modify, wp_ret. split; [unfold idle; cbn; by rewrite Hn3|]. right. split; [done|].
    split; [cbn; congruence|]. intros v Hv%Hval. by eapply Hno.
Qed.

(** C18: the calculator answers every line of at most 31 characters between the
    blanks around it, from any state a session can be in, and stays in such a
    state.  It succeeds exactly when the line writes an expression tree that has a
    value, and then the result buffer, if it was clear, holds the text of that
    value; on every other line it reports an error and leaves the buffer alone.
    The trees are those of the grammar of [parse], where a level takes at most
    one operator (1 + 2 + 3 is an error).  The text is the integer part, a point,
    and the fraction times 10^5 as an integer: leading zeros of the fraction and
    the sign of a number between -1 and 0 are not shown (1.05 appears as 1.5000),
    and an integer part of -2^31, which is also what does not fit an [int], comes
    out as minus and a parenthesis. *)
Theorem calc_answers s lead line trail res :
  idle s -> Forall blank lead -> Forall blank trail -> (forall c, head line = Some c \/ last line = Some c -> ~ blank c) ->
  (length line <= 31)%nat -> Forall (fun c => 0 <= c < 256) line ->
  (forall x, res <= x <= res + 23 -> rd8 s.(bytes) x = 0) ->
  exists r s', process_request 0 (lead ++ line ++ trail) res s = Ret (r, s') /\ idle s' /\
    ((r = 0 /\ exists v, line_value line v /\ cstr s'.(bytes) res (shown v)) \/
     (r = -1 /\ s'.(bytes) = s.(bytes) /\ forall v, ~ line_value line v)).
Proof.
  intros Hid Hle Htr Hends Hl Hb Hz. pose proof (trim_blanks lead line trail Hle Htr Hends) as Et.
  destruct (wp_inv _ _ _ (process_request_spec s (lead ++ line ++ trail) res Hid ltac:(by rewrite Et) ltac:(by rewrite Et)))
    as (r & s' & E & Hi & H). rewrite Et in H.
  exists r, s'. split; [done|]. split; [done|]. destruct H as [(-> & v & Hv & Hm)|H]; [left|by right].
  split; [done|]. exists v. split; [done|]. eapply text_cstr; [| |exact Hm].
  - unfold shown. apply Forall_app. split; [apply int_text_bytes, to_int_range|].
    apply Forall_app. split; [by repeat constructor|apply int_text_bytes, to_int_range].
  - apply Hz. unfold shown. rewrite !length_app. cbn [length].
    pose proof (int_text_length (to_int v)). pose proof (int_text_length (to_int (m_fabs
      (n_mul (n_sub v (of_int (to_int v))) (m_pow (of_int 10) (of_int 5)))))). lia.
Qed.

(** Operators do not chain: a sum of three numbers is an error whatever the
    numbers are, since a level of the grammar takes at most two operands. *)
Theorem three_operands_rejected s a b c :
  tokenized s [Tok num_s a; op_tok add_s; Tok num_s b; op_tok add_s; Tok num_s c] ->
  exists s', parse 0 s = Ret ((-1, None), s').
Proof.
  intros H. destruct (wp_inv _ _ _ (parse_computes s _ H ltac:(by repeat (constructor; [unfold plain; cbn; auto|]))))
    as (r & s' & E & Hr). exists s'. rewrite E. destruct Hr as [(v & -> & e & Hw & He & _)|[-> _]]; [exfalso|done].
  pose proof (expr_complete e [] Hw) as Hc. rewrite <- He, app_nil_r in Hc.
  specialize (Hc ltac:(cbn; unfold MAX_TOKENS; lia) I). vm_compute in Hc. discriminate.
Qed.
End answers.

(** ** A session on rational numbers *)

Definition fresh : calc := Calc (replicate MAX_TOKENS None) 0 0 None [] 0 ∅.
Definition asked : list Z := chars "-(1 + 2) * fmod(7, 4.5)".

Lemma calc_answers_witness : exists r s' v,
  process_request (N := rational) 0 (chars " " ++ asked ++ [10]) 4096 fresh = Ret (r, s') /\ r = 0 /\
  line_value (N := rational) asked v /\ cstr s'.(bytes) 4096 (shown (N := rational) v).
Proof.
  destruct (calc_answers (N := rational) fresh (chars " ") asked [10] 4096)
    as (r & s' & E & _ & H).
  - split; [done|]. split; [done|]. intros i Hi. cbn in Hi. lia.
  - by repeat (constructor; [unfold blank; auto|]).
  - by repeat (constructor; [unfold blank; auto|]).
  - intros c [Hc|Hc]; vm_compute in Hc; injection Hc as <-; unfold blank; lia.
  - apply (bool_decide_unpack _). by vm_compute.
  - apply (bool_decide_unpack _). by vm_compute.
  - done.
  - destruct H as [(-> & v & Hv & Hc)|(-> & _ & _)].
    + exists 0, s', v. split; [exact E|]. split; [reflexivity|]. split; [exact Hv|exact Hc].
    + exfalso. vm_compute in E. discriminate.
Defined.

Lemma three_operands_rejected_witness :
  exists s', parse (N := rational) 0 (ready [Tok num_s (chars "1"); op_tok add_s; Tok num_s (chars "2"); op_tok add_s; Tok num_s (chars "3")])
    = Ret ((-1, None), s').
Proof.
  apply (three_operands_rejected (N := rational) _ (chars "1") (chars "2") (chars "3")).
  split; [done|done|by eexists|unfold MAX_TOKENS; cbn; lia].
Defined.

(** A session: the answers as they appear on the screen. *)
Definition session (lines : list string) : option (list (list Z)) :=
  match main (N := rational) 0 (chars <$> lines) 4096 fresh with Ret (_, s) => Some s.(printed) | _ => None end.

(** The fraction is printed without its leading zeros and the sign of a number
    between -1 and 0 is lost; an empty line, like [exit], ends the program. *)
Example misprints : session ["2.5 * 2"; "1 + 0.05"; "0 - 0.5"; "1 + 2 + 3"; ""; "4"]%string = Some
  [10 :: chars "[---]:> "; chars " = 5.0"; 10 :: chars "[---]:> "; chars " = 1.5000"; 10 :: chars "[---]:> ";
   chars " = 0.50000"; 10 :: chars "[---]:> "; 10 :: chars "[ERR]: Couldn't parse the expression!";
   10 :: chars "[---]:> "; 10 :: chars "[EXT]: GOODBYE"].
Proof. by vm_compute. Qed.
