(* ===== verification/Pci.v ===== *)
(** [drivers/devices/pci.c]: the list of PCI devices the kernel finds at boot.

    The driver talks to the bus through two ports: it writes the address of a
    configuration register to one and reads the register from the other.  What
    the bus answers is a parameter, a function of the port writes so far; the
    tables of names of [pci_database_devices.h] are parameters too, their
    strings given by address. *)
From stdpp Require Import base numbers gmap list strings.
From S2P Require Import Prelude Text Allocator Store LinkedList.

Definition PCI_CONFIG_PORT : Z := 0xCF8.
Definition PCI_DATA_PORT : Z := 0xCFC.
Definition PCI_FAIL : Z := 0xFFFF.
Definition PCI_MULTI_FUNC : Z := 0x80.
Definition PCI_VEN_ID : Z := 0x00.
Definition PCI_DEV_ID : Z := 0x02.
Definition PCI_REVISION_ID : Z := 0x08.
Definition PCI_PROG_IF : Z := 0x09.
Definition PCI_SUB_CLASS : Z := 0x0A.
Definition PCI_CLASS_CODE : Z := 0x0B.
Definition PCI_CACHE_LINE : Z := 0x0C.
Definition PCI_LATENCY_TIMER : Z := 0x0D.
Definition PCI_HEADER_TYPE : Z := 0x0E.
Definition PCI_BIST : Z := 0x0F.
Definition PCI_FUN_PER_DEV : Z := 8.
Definition PCI_DEV_PER_BUS : Z := 32.
Definition PCI_BAR0 : Z := 0x10.
Definition PCI_BAR1 : Z := 0x14.
Definition PCI_BAR2 : Z := 0x18.
Definition PCI_BAR3 : Z := 0x1C.
Definition PCI_BAR4 : Z := 0x20.
Definition PCI_BAR5 : Z := 0x24.
Definition PCI_CARDBUS_CIS : Z := 0x28.
Definition PCI_SUBSYS_VENDOR : Z := 0x2C.
Definition PCI_SUBSYS : Z := 0x2E.
Definition PCI_EXPANSION_ROM : Z := 0x30.
Definition PCI_CAPABILITIES : Z := 0x34.
Definition PCI_IRQ_LINE : Z := 0x3C.
Definition PCI_IRQ_PIN : Z := 0x3D.
Definition PCI_MIN_GRANT : Z := 0x3E.
Definition PCI_MAX_LATENCY : Z := 0x3F.
Definition PCI_SECONDARY_BUS : Z := 0x19.
Definition PCI_BASE_CLASS_BRIDGE : Z := 0x06.
Definition PCI_SUB_CLASS_BRIDGE : Z := 0x04.
Definition SIZEOF_PCI_DEV : Z := 48.
Definition SIZEOF_PCI_STD_HDR : Z := 44.

(** Rows of the tables of [pci_database_devices.h]. *)
Record PCI_DEVTABLE := DevRow { dt_VenId : Z; dt_DevId : Z; dt_Chip : Z; dt_ChipDesc : Z }.
Record PCI_VENTABLE := VenRow { vt_VenId : Z; vt_VenShort : Z; vt_VenFull : Z }.
Record PCI_CLASSCODETABLE := ClassRow {
  ct_BaseClass : Z; ct_SubClass : Z; ct_ProgIf : Z; ct_BaseDesc : Z; ct_SubDesc : Z; ct_ProgDesc : Z
}.

(** A write of [pw_size] bytes to a port. *)
Record port_write := PortWrite { pw_port : Z; pw_size : Z; pw_data : Z }.

(** [pci_ports]: the writes so far, the last one first.  [pci_console]: what was
    printed. *)
Record pci_state (A : Type) := PciState {
  pci_store : store A;
  pci_devices : Z;
  pci_ports : list port_write;
  pci_console : list Z
}.
Arguments PciState {A}.
Arguments pci_store {A}.
Arguments pci_devices {A}.
Arguments pci_ports {A}.
Arguments pci_console {A}.

Definition zero_pci_dev : pci_dev := PciDev 0 0 0 0 0 0 0 0 0 0 0 0 0 0 0 0 0 0 0 0.
Definition zero_std_hdr : pci_std_hdr := PciStdHdr 0 0 0 0 0 0 0 0 0 0 0 0 0 0 0.

(** Assignments to fields of a device. *)
Definition set_dev_names (name desc : Z) (d : pci_dev) : pci_dev :=
  PciDev d.(pd_bus) d.(pd_dev) d.(pd_ven_id) d.(pd_dev_id) d.(pd_rev_id) d.(pd_prog_if) d.(pd_sub_class)
         d.(pd_class_code) d.(pd_cache_line_size) d.(pd_latency_timer) d.(pd_header_type) d.(pd_bist)
         d.(pd_ven_name) d.(pd_ven_desc) name desc
         d.(pd_base_class_desc) d.(pd_sub_class_desc) d.(pd_prog_if_desc) d.(pd_additional_info).
Definition set_ven_names (name desc : Z) (d : pci_dev) : pci_dev :=
  PciDev d.(pd_bus) d.(pd_dev) d.(pd_ven_id) d.(pd_dev_id) d.(pd_rev_id) d.(pd_prog_if) d.(pd_sub_class)
         d.(pd_class_code) d.(pd_cache_line_size) d.(pd_latency_timer) d.(pd_header_type) d.(pd_bist)
         name desc d.(pd_dev_name) d.(pd_dev_desc)
         d.(pd_base_class_desc) d.(pd_sub_class_desc) d.(pd_prog_if_desc) d.(pd_additional_info).
Definition set_class_descs (base sub prog : Z) (d : pci_dev) : pci_dev :=
  PciDev d.(pd_bus) d.(pd_dev) d.(pd_ven_id) d.(pd_dev_id) d.(pd_rev_id) d.(pd_prog_if) d.(pd_sub_class)
         d.(pd_class_code) d.(pd_cache_line_size) d.(pd_latency_timer) d.(pd_header_type) d.(pd_bist)
         d.(pd_ven_name) d.(pd_ven_desc) d.(pd_dev_name) d.(pd_dev_desc) base sub prog d.(pd_additional_info).
Definition set_additional_info (v : Z) (d : pci_dev) : pci_dev :=
  PciDev d.(pd_bus) d.(pd_dev) d.(pd_ven_id) d.(pd_dev_id) d.(pd_rev_id) d.(pd_prog_if) d.(pd_sub_class)
         d.(pd_class_code) d.(pd_cache_line_size) d.(pd_latency_timer) d.(pd_header_type) d.(pd_bist)
         d.(pd_ven_name) d.(pd_ven_desc) d.(pd_dev_name) d.(pd_dev_desc)
         d.(pd_base_class_desc) d.(pd_sub_class_desc) d.(pd_prog_if_desc) v.

Section driver.
Context {A : Type} `{Allocator A}.
Variable PciDevTable : list PCI_DEVTABLE.
Variable PciVenTable : list PCI_VENTABLE.
Variable PciClassCodeTable : list PCI_CLASSCODETABLE.
(** What the data port answers after these port writes. *)
Variable data_port : list port_write -> Z.
#[local] Abbreviation pci := (pci_state A).

Definition on_store {B} (c : cmd (store A) B) : cmd pci B :=
  fun s => match c s.(pci_store) with
           | Ret (b, st) => Ret (b, PciState st s.(pci_devices) s.(pci_ports) s.(pci_console))
           | Fault => Fault
           | Hang => Hang
           end.
Definition write_port (port size data : Z) : cmd pci unit :=
  modify (fun s => PciState s.(pci_store) s.(pci_devices) (PortWrite port size data :: s.(pci_ports)) s.(pci_console)).
Definition read_port_32 : cmd pci Z := gets (fun s => u32 (data_port s.(pci_ports))).
Definition kprint (text : list Z) : cmd pci unit :=
  modify (fun s => PciState s.(pci_store) s.(pci_devices) s.(pci_ports) (s.(pci_console) ++ text)).
Definition upd_dev (p : Z) (f : pci_dev -> pci_dev) : cmd (store A) unit :=
  d <- get_pci_dev p ;; put_obj p (OPciDev (f d)).

Definition pci_make_config_space (bus_no device_no function_no reg_no : Z) : Z :=
  Z.lor (Z.lor (Z.lor (Z.lor 0x80000000 (u32 (Z.shiftl bus_no 16))) (u32 (Z.shiftl device_no 11)))
               (u32 (Z.shiftl function_no 8))) (Z.land reg_no 0xFC).

Definition pci_read_base (reg_no : Z) : cmd pci Z :=
  read <- read_port_32 ;;
  ret (u16 (Z.land (Z.shiftr read (Z.land reg_no 2 * 8)) PCI_FAIL)).

Definition pci_read (bus_no device_no function_no reg_no : Z) : cmd pci Z :=
  write_port PCI_CONFIG_PORT 4 (pci_make_config_space bus_no device_no function_no reg_no) ;;;
  pci_read_base reg_no.

Definition pci_write_base (base size data : Z) : cmd pci unit :=
  if size =? 4 then write_port base 4 data
  else if size =? 2 then write_port base 2 (u16 data)
  else if size =? 1 then write_port base 1 (u8 data)
  else ret tt.

Definition pci_write (bus_no device_no function_no reg_no size data : Z) : cmd pci unit :=
  write_port PCI_CONFIG_PORT 4 (pci_make_config_space bus_no device_no function_no reg_no) ;;;
  pci_write_base (PCI_DATA_PORT + Z.land reg_no 0x03) size data.

(** The three loops of [pci_set_names]; the last one has no [break]. *)
Fixpoint name_device (rows : list PCI_DEVTABLE) (device : Z) : cmd (store A) unit :=
  match rows with
  | [] => ret tt
  | r :: rows' =>
      d <- get_pci_dev device ;;
      if (r.(dt_VenId) =? d.(pd_ven_id)) && (r.(dt_DevId) =? d.(pd_dev_id))
      then upd_dev device (set_dev_names r.(dt_Chip) r.(dt_ChipDesc))
      else name_device rows' device
  end.
Fixpoint name_vendor (rows : list PCI_VENTABLE) (device : Z) : cmd (store A) unit :=
  match rows with
  | [] => ret tt
  | r :: rows' =>
      d <- get_pci_dev device ;;
      if r.(vt_VenId) =? d.(pd_ven_id) then upd_dev device (set_ven_names r.(vt_VenShort) r.(vt_VenFull))
      else name_vendor rows' device
  end.
Fixpoint name_class (rows : list PCI_CLASSCODETABLE) (device : Z) : cmd (store A) unit :=
  match rows with
  | [] => ret tt
  | temp :: rows' =>
      d <- get_pci_dev device ;;
      (when (temp.(ct_BaseClass) =? d.(pd_class_code)) && (temp.(ct_SubClass) =? d.(pd_sub_class)) &&
            (temp.(ct_ProgIf) =? d.(pd_prog_if)) do
         upd_dev device (set_class_descs temp.(ct_BaseDesc) temp.(ct_SubDesc) temp.(ct_ProgDesc))) ;;;
      name_class rows' device
  end.
Definition pci_set_names (device : Z) : cmd pci unit :=
  on_store (name_device PciDevTable device ;;; name_vendor PciVenTable device ;;; name_class PciClassCodeTable device).

(** A 32-bit register in two halves: [x = pci_read(reg); x |= pci_read(reg + 2) << 16]. *)
Definition pci_read_pair (bus dev reg : Z) : cmd pci Z :=
  low <- pci_read bus dev 0 reg ;;
  high <- pci_read bus dev 0 (reg + 2) ;;
  ret (Z.lor low (u32 (Z.shiftl high 16))).

(** The reads of [pci_set_standard_header], in order. *)
Definition read_std_header (bus dev : Z) : cmd pci pci_std_hdr :=
  bar0 <- pci_read_pair bus dev PCI_BAR0 ;;
  bar1 <- pci_read_pair bus dev PCI_BAR1 ;;
  bar2 <- pci_read_pair bus dev PCI_BAR2 ;;
  bar3 <- pci_read_pair bus dev PCI_BAR3 ;;
  bar4 <- pci_read_pair bus dev PCI_BAR4 ;;
  bar5 <- pci_read_pair bus dev PCI_BAR5 ;;
  cis <- pci_read_pair bus dev PCI_CARDBUS_CIS ;;
  vendor <- pci_read bus dev 0 PCI_SUBSYS_VENDOR ;;
  subsys <- pci_read bus dev 0 PCI_SUBSYS ;;
  rom <- pci_read_pair bus dev PCI_EXPANSION_ROM ;;
  caps <- pci_read bus dev 0 PCI_CAPABILITIES ;;
  line <- pci_read bus dev 0 PCI_IRQ_LINE ;;
  pin <- pci_read bus dev 0 PCI_IRQ_PIN ;;
  grant <- pci_read bus dev 0 PCI_MIN_GRANT ;;
  latency <- pci_read bus dev 0 PCI_MAX_LATENCY ;;
  ret (PciStdHdr bar0 bar1 bar2 bar3 bar4 bar5 cis vendor subsys rom caps (u8 line) (u8 pin) (u8 grant) (u8 latency)).

Definition pci_set_standard_header (pci_device : Z) : cmd pci unit :=
  std_hdr <- on_store (new_obj SIZEOF_PCI_STD_HDR (OPciHdr zero_std_hdr)) ;;
  d <- on_store (get_pci_dev pci_device) ;;
  h <- read_std_header d.(pd_bus) d.(pd_dev) ;;
  on_store (get_pci_hdr std_hdr ;;; put_obj std_hdr (OPciHdr h) ;;; upd_dev pci_device (set_additional_info std_hdr)).

Definition pci_set_header (pci_device : Z) : cmd pci unit :=
  d <- on_store (get_pci_dev pci_device) ;;
  let header := d.(pd_header_type) in
  if header =? 0x00 then pci_set_standard_header pci_device
  else if header =? 0x01 then kprint (chars "Header type 0x01")
  else if header =? 0x02 then kprint (chars "Header type 0x02")
  else if header =? 0x80 then pci_set_standard_header pci_device
  else ret tt.

Definition pci_build_device (bus dev ven bc sc hdr : Z) : cmd pci unit :=
  device <- on_store (new_obj SIZEOF_PCI_DEV (OPciDev zero_pci_dev)) ;;
  dev_id <- pci_read bus dev 0 PCI_DEV_ID ;;
  rev_id <- pci_read bus dev 0 PCI_REVISION_ID ;;
  prog_if <- pci_read bus dev 0 PCI_PROG_IF ;;
  cache <- pci_read bus dev 0 PCI_CACHE_LINE ;;
  latency <- pci_read bus dev 0 PCI_LATENCY_TIMER ;;
  bist <- pci_read bus dev 0 PCI_BIST ;;
  on_store (upd_dev device (fun d =>
    PciDev bus dev ven dev_id (u8 rev_id) (u8 prog_if) sc bc (u8 cache) (u8 latency) hdr (u8 bist)
           d.(pd_ven_name) d.(pd_ven_desc) d.(pd_dev_name) d.(pd_dev_desc)
           d.(pd_base_class_desc) d.(pd_sub_class_desc) d.(pd_prog_if_desc) d.(pd_additional_info))) ;;;
  pci_set_names device ;;;
  pci_set_header device ;;;
  l <- gets pci_devices ;;
  on_store (linked_list_append l device) ;;;
  ret tt.

(** One function of a multi-function device; [scan] is the recursive call. *)
Definition pci_scan_function (scan : Z -> cmd pci unit) (bus_no d f : Z) : cmd pci unit :=
  ven <- pci_read bus_no d f PCI_VEN_ID ;;
  when negb (ven =? PCI_FAIL) do
    (bc <- pci_read bus_no d f PCI_CLASS_CODE ;;
     sc <- pci_read bus_no d f PCI_SUB_CLASS ;;
     when (u8 bc =? PCI_BASE_CLASS_BRIDGE) && (u8 sc =? PCI_SUB_CLASS_BRIDGE) do
       (sec <- pci_read bus_no d f PCI_SECONDARY_BUS ;; scan (u8 sec))).

(** The body of the loop of [pci_scan_bus]. *)
Definition pci_scan_device (scan : Z -> cmd pci unit) (bus_no d : Z) : cmd pci unit :=
  ven_id <- pci_read bus_no d 0 PCI_VEN_ID ;;
  when negb (ven_id =? PCI_FAIL) do
    (base_class <- pci_read bus_no d 0 PCI_CLASS_CODE ;;
     sub_class <- pci_read bus_no d 0 PCI_SUB_CLASS ;;
     header_type <- pci_read bus_no d 0 PCI_HEADER_TYPE ;;
     (when (u8 base_class =? PCI_BASE_CLASS_BRIDGE) && (u8 sub_class =? PCI_SUB_CLASS_BRIDGE) do
        (sec <- pci_read bus_no d 0 PCI_SECONDARY_BUS ;; scan (u8 sec))) ;;;
     (when negb (Z.land (u8 header_type) PCI_MULTI_FUNC =? 0) do
        for_ (Z.to_nat PCI_FUN_PER_DEV) 0 (pci_scan_function scan bus_no d)) ;;;
     pci_build_device bus_no d ven_id (u8 base_class) (u8 sub_class) (u8 header_type)).

(** Fuel bounds the depth of the recursion over bridges. *)
Fixpoint pci_scan_bus (fuel : nat) (bus_no : Z) : cmd pci unit :=
  match fuel with
  | O => hang
  | S fuel' => for_ (Z.to_nat PCI_DEV_PER_BUS) 0 (pci_scan_device (pci_scan_bus fuel') bus_no)
  end.

(** [for(int i=0; i < PCI_FUN_PER_DEV; i++)] with its [break]. *)
Fixpoint pci_scan_hosts (n fuel : nat) (i : Z) : cmd pci unit :=
  match n with
  | O => ret tt
  | S n' =>
      ven <- pci_read 0 0 i PCI_VEN_ID ;;
      if negb (ven =? PCI_FAIL) then ret tt
      else pci_scan_bus fuel i ;;; pci_scan_hosts n' fuel (i + 1)
  end.

Definition pci_initialise (fuel : nat) : cmd pci unit :=
  l <- on_store linked_list_create ;;
  modify (fun s => PciState s.(pci_store) l s.(pci_ports) s.(pci_console)) ;;;
  header <- pci_read 0 0 0 PCI_HEADER_TYPE ;;
  if Z.land (u8 header) PCI_MULTI_FUNC =? 0 then pci_scan_bus fuel 0
  else pci_scan_hosts (Z.to_nat PCI_FUN_PER_DEV) fuel 0.

Fixpoint get_device_loop (fuel : nat) (item vendor_id device_id : Z) : cmd (store A) Z :=
  match fuel with
  | O => hang
  | S fuel' =>
      if item =? 0 then ret 0
      else
        n <- get_node item ;;
        temp <- get_pci_dev n.(data) ;;
        if (temp.(pd_ven_id) =? vendor_id) && (temp.(pd_dev_id) =? device_id) then ret n.(data)
        else get_device_loop fuel' n.(next) vendor_id device_id
  end.
Definition pci_get_device (vendor_id device_id : Z) : cmd pci Z :=
  dl <- gets pci_devices ;;
  on_store (l <- get_list dl ;; fuel <- gets chain_fuel ;; get_device_loop fuel l.(list_head) vendor_id device_id).

Fixpoint get_devices_loop (fuel : nat) (item temp class_code sub_class_code : Z) : cmd (store A) Z :=
  match fuel with
  | O => hang
  | S fuel' =>
      if item =? 0 then ret temp
      else
        n <- get_node item ;;
        dev <- get_pci_dev n.(data) ;;
        if (dev.(pd_class_code) =? class_code) && (dev.(pd_sub_class) =? sub_class_code) then
          temp <- (if temp =? 0 then linked_list_create else ret temp) ;;
          linked_list_append temp n.(data) ;;;
          m <- get_node item ;;
          get_devices_loop fuel' m.(next) temp class_code sub_class_code
        else get_devices_loop fuel' n.(next) temp class_code sub_class_code
  end.
Definition pci_get_devices (class_code sub_class_code : Z) : cmd pci Z :=
  dl <- gets pci_devices ;;
  on_store (l <- get_list dl ;; fuel <- gets chain_fuel ;; get_devices_loop fuel l.(list_head) 0 class_code sub_class_code).
End driver.

(** * What the driver finds *)

(** The configuration registers, by configuration address.  After writes of
    addresses only, the data port answers with the register last addressed. *)
Definition is_address (w : port_write) : Prop := w.(pw_port) = PCI_CONFIG_PORT /\ w.(pw_size) = 4.
Definition config_bus (data_port : list port_write -> Z) (config : Z -> Z) : Prop :=
  forall a t, Forall is_address t -> data_port (PortWrite PCI_CONFIG_PORT 4 a :: t) = config a.

Section found.
Context {A : Type} `{Allocator A}.
Variable PciDevTable : list PCI_DEVTABLE.
Variable PciVenTable : list PCI_VENTABLE.
Variable PciClassCodeTable : list PCI_CLASSCODETABLE.
Variable data_port : list port_write -> Z.
Variable config : Z -> Z.
Hypothesis bus_answers : config_bus data_port config.
Implicit Types (s : pci_state A).
#[local] Abbreviation read := (pci_read (A := A) data_port).

(** The 16 bits [pci_read] takes from a register. *)
Definition reg16 (b d f r : Z) : Z :=
  u16 (Z.land (Z.shiftr (u32 (config (pci_make_config_space b d f r))) (Z.land r 2 * 8)) PCI_FAIL).
Definition reg32 (b d r : Z) : Z := Z.lor (reg16 b d 0 r) (u32 (Z.shiftl (reg16 b d 0 (r + 2)) 16)).
Definition present (b d : Z) : bool := negb (reg16 b d 0 PCI_VEN_ID =? PCI_FAIL).

Lemma wp_pci_read b d f r (Q : Z -> pci_state A -> Prop) st l t c :
  Forall is_address t -> (forall t', Forall is_address t' -> Q (reg16 b d f r) (PciState st l t' c)) ->
  wp (read b d f r) Q (PciState st l t c).
Proof.
  intros Ht HQ. unfold wp, pci_read, pci_read_base, read_port_32, write_port, bind, modify, gets, ret. cbn.
  rewrite bus_answers by done. apply HQ. by constructor.
Qed.

Lemma wp_read_pair b d r (Q : Z -> pci_state A -> Prop) st l t c :
  Forall is_address t -> (forall t', Forall is_address t' -> Q (reg32 b d r) (PciState st l t' c)) ->
  wp (pci_read_pair (A := A) data_port b d r) Q (PciState st l t c).
Proof.
  intros Ht HQ. unfold pci_read_pair. apply wp_bind, wp_pci_read; [done|]. intros t1 H1.
  apply wp_bind, wp_pci_read; [done|]. intros t2 H2. by apply wp_ret, HQ.
Qed.

Lemma wp_store {B} (c : cmd (store A) B) (Q : B -> pci_state A -> Prop) al m l t con :
  wp c (fun b st => Q b (PciState (Store st.(alloc) st.(objs)) l t con)) (Store al m) ->
  wp (on_store c) Q (PciState (Store al m) l t con).
Proof. unfold wp, on_store. cbn. by destruct (c (Store al m)) as [[b []]| |]. Qed.

(** ** One device *)

Definition dev_named (d : pci_dev) : pci_dev :=
  match List.find (fun r => (r.(dt_VenId) =? d.(pd_ven_id)) && (r.(dt_DevId) =? d.(pd_dev_id))) PciDevTable with
  | Some r => set_dev_names r.(dt_Chip) r.(dt_ChipDesc) d
  | None => d
  end.
Definition ven_named (d : pci_dev) : pci_dev :=
  match List.find (fun r => r.(vt_VenId) =? d.(pd_ven_id)) PciVenTable with
  | Some r => set_ven_names r.(vt_VenShort) r.(vt_VenFull) d
  | None => d
  end.
Definition class_row (d : pci_dev) (r : PCI_CLASSCODETABLE) : bool :=
  (r.(ct_BaseClass) =? d.(pd_class_code)) && (r.(ct_SubClass) =? d.(pd_sub_class)) && (r.(ct_ProgIf) =? d.(pd_prog_if)).
Definition class_named (d : pci_dev) : pci_dev :=
  match last (List.filter (class_row d) PciClassCodeTable) with
  | Some r => set_class_descs r.(ct_BaseDesc) r.(ct_SubDesc) r.(ct_ProgDesc) d
  | None => d
  end.

Lemma wp_upd_dev al (m : gmap Z obj) p d f (Q : unit -> store A -> Prop) :
  m !! p = Some (OPciDev d) -> Q tt (Store al (<[p := OPciDev (f d)]> m)) -> wp (upd_dev p f) Q (Store al m).
Proof. intros Hp HQ. unfold upd_dev. by st_steps. Qed.

Lemma name_device_spec rows (al : A) (m : gmap Z obj) p d :
  m !! p = Some (OPciDev d) ->
  wp (name_device rows p) (fun _ st => st = Store al (<[p := OPciDev
    (match List.find (fun r => (r.(dt_VenId) =? d.(pd_ven_id)) && (r.(dt_DevId) =? d.(pd_dev_id))) rows with
     | Some r => set_dev_names r.(dt_Chip) r.(dt_ChipDesc) d | None => d end)]> m)) (Store al m).
Proof.
  intros Hp. induction rows as [|r rows IH]; cbn [name_device List.find].
  - apply wp_ret. by rewrite insert_id.
  - st_steps. destruct (_ && _); [|exact IH]. by eapply wp_upd_dev.
Qed.
Lemma name_vendor_spec rows (al : A) (m : gmap Z obj) p d :
  m !! p = Some (OPciDev d) ->
  wp (name_vendor rows p) (fun _ st => st = Store al (<[p := OPciDev
    (match List.find (fun r => r.(vt_VenId) =? d.(pd_ven_id)) rows with
     | Some r => set_ven_names r.(vt_VenShort) r.(vt_VenFull) d | None => d end)]> m)) (Store al m).
Proof.
  intros Hp. induction rows as [|r rows IH]; cbn [name_vendor List.find].
  - apply wp_ret. by rewrite insert_id.
  - st_steps. destruct (_ =? _); [|exact IH]. by eapply wp_upd_dev.
Qed.
Lemma name_class_spec rows (al : A) (m : gmap Z obj) p d :
  m !! p = Some (OPciDev d) ->
  wp (name_class rows p) (fun _ st => st = Store al (<[p := OPciDev
    (match last (List.filter (class_row d) rows) with
     | Some r => set_class_descs r.(ct_BaseDesc) r.(ct_SubDesc) r.(ct_ProgDesc) d | None => d end)]> m)) (Store al m).
Proof.
  revert m d. induction rows as [|r rows IH]; intros m d Hp; cbn [name_class List.filter].
  - apply wp_ret. by rewrite insert_id.
  - st_steps. change ((_ =? _) && _ && _) with (class_row d r). destruct (class_row d r) eqn:Hr.
    + eapply wp_upd_dev; [done|]. eapply wp_mono; [apply IH; lkp|]. intros [] st ->. f_equal.
      rewrite insert_insert_eq. f_equal. f_equal.
      replace (List.filter (class_row (set_class_descs _ _ _ d)) rows) with (List.filter (class_row d) rows)
        by (apply List.filter_ext; done).
      rewrite last_cons. by destruct (last _).
    + apply wp_ret. by apply IH.
Qed.

(** The fields of the device in slot [d] of bus [b], its names not yet set. *)
Definition raw_device (b d : Z) : pci_dev :=
  PciDev b d (reg16 b d 0 PCI_VEN_ID) (reg16 b d 0 PCI_DEV_ID) (u8 (reg16 b d 0 PCI_REVISION_ID))
         (u8 (reg16 b d 0 PCI_PROG_IF)) (u8 (reg16 b d 0 PCI_SUB_CLASS)) (u8 (reg16 b d 0 PCI_CLASS_CODE))
         (u8 (reg16 b d 0 PCI_CACHE_LINE)) (u8 (reg16 b d 0 PCI_LATENCY_TIMER)) (u8 (reg16 b d 0 PCI_HEADER_TYPE))
         (u8 (reg16 b d 0 PCI_BIST)) 0 0 0 0 0 0 0 0.
Definition header_of (b d : Z) : pci_std_hdr :=
  PciStdHdr (reg32 b d PCI_BAR0) (reg32 b d PCI_BAR1) (reg32 b d PCI_BAR2) (reg32 b d PCI_BAR3)
            (reg32 b d PCI_BAR4) (reg32 b d PCI_BAR5) (reg32 b d PCI_CARDBUS_CIS)
            (reg16 b d 0 PCI_SUBSYS_VENDOR) (reg16 b d 0 PCI_SUBSYS) (reg32 b d PCI_EXPANSION_ROM)
            (reg16 b d 0 PCI_CAPABILITIES) (u8 (reg16 b d 0 PCI_IRQ_LINE)) (u8 (reg16 b d 0 PCI_IRQ_PIN))
            (u8 (reg16 b d 0 PCI_MIN_GRANT)) (u8 (reg16 b d 0 PCI_MAX_LATENCY)).
Definition has_header (b d : Z) : bool :=
  let h := u8 (reg16 b d 0 PCI_HEADER_TYPE) in (h =? 0x00) || (h =? 0x80).

(** The object at [p] describes the device in slot [d] of bus [b]. *)
Definition describes (m : gmap Z obj) (b p d : Z) : Prop :=
  exists info, m !! p = Some (OPciDev (set_additional_info info (class_named (ven_named (dev_named (raw_device b d)))))) /\
    if has_header b d then m !! info = Some (OPciHdr (header_of b d)) else info = 0.

(** What is printed for it. *)
Definition announced (b d : Z) : list Z :=
  let h := u8 (reg16 b d 0 PCI_HEADER_TYPE) in
  if h =? 0x01 then chars "Header type 0x01" else if h =? 0x02 then chars "Header type 0x02" else [].

Definition full_names (d : pci_dev) : pci_dev := class_named (ven_named (dev_named d)).

Lemma pci_set_names_spec (Q : unit -> pci_state A -> Prop) al (m : gmap Z obj) p d l t c :
  m !! p = Some (OPciDev d) -> Q tt (PciState (Store al (<[p := OPciDev (full_names d)]> m)) l t c) ->
  wp (pci_set_names PciDevTable PciVenTable PciClassCodeTable p) Q (PciState (Store al m) l t c).
Proof.
  intros Hp HQ. unfold pci_set_names. apply wp_store, wp_bind.
  eapply wp_mono; [by apply name_device_spec|]. intros [] st ->. apply wp_bind.
  eapply wp_mono; [apply name_vendor_spec; lkp|]. intros [] st ->.
  eapply wp_mono; [apply name_class_spec; lkp|]. intros [] st ->. cbn [alloc objs].
  by rewrite !insert_insert_eq.
Qed.

(** [reads] runs the register reads at the head of a command. *)
#[local] Ltac reads := repeat (apply wp_bind; first [apply wp_read_pair|apply wp_pci_read]; [done|intros ? ?]).

Lemma wp_read_std_header b d (Q : pci_std_hdr -> pci_state A -> Prop) st l t c :
  Forall is_address t -> (forall t', Forall is_address t' -> Q (header_of b d) (PciState st l t' c)) ->
  wp (read_std_header (A := A) data_port b d) Q (PciState st l t c).
Proof. intros Ht HQ. unfold read_std_header. reads. apply wp_ret. by apply HQ. Qed.

Lemma pci_set_standard_header_spec k al (m : gmap Z obj) p d l t c :
  store_ok (S k) (Store al m) -> m !! p = Some (OPciDev d) -> Forall is_address t ->
  wp (pci_set_standard_header (A := A) data_port p) (fun _ s' => exists info al' t',
    s' = PciState (Store al' (<[p := OPciDev (set_additional_info info d)]>
                             (<[info := OPciHdr (header_of d.(pd_bus) d.(pd_dev))]> m))) l t' c /\
    m !! info = None /\ store_ok k s'.(pci_store) /\ Forall is_address t') (PciState (Store al m) l t c).
Proof.
  intros Hok Hp Ht. unfold pci_set_standard_header. apply wp_bind, wp_store.
  eapply wp_new; [done|unfold SIZEOF_PCI_STD_HDR, SMALL; cbn; lia|]. intros info al' Hi Hf Hok'. cbn [alloc objs].
  assert (Hne : info <> p) by congruence.
  apply wp_bind, wp_store. eapply wp_get_pci_dev; [lkp|]. cbn [alloc objs].
  apply wp_bind, wp_read_std_header; [done|]. intros t' Ht'. apply wp_store. st_steps. eapply wp_upd_dev; [lkp|].
  cbn [alloc objs]. rewrite insert_insert_eq.
  eexists info, al', _. split; [reflexivity|]. split_and!; [done| |done].
  cbn [pci_store]. apply store_ok_insert; [|lkp|done]. by eapply store_ok_over.
Qed.

(** ** Building a device *)

(** After [pci_build_device]: one more node in the list, with the device. *)
Definition built k m l xs b d c (s' : pci_state A) : Prop :=
  exists n p t', let m' := s'.(pci_store).(objs) in
  s'.(pci_devices) = l /\ s'.(pci_ports) = t' /\ s'.(pci_console) = c ++ announced b d /\
  Forall is_address t' /\ store_ok k s'.(pci_store) /\ list_rep m' l (xs ++ [(n, p)]) /\ p <> 0 /\
  m !! p = None /\ m !! n = None /\ describes m' b p d /\ untouched (owned l xs) m m'.

Lemma set_header_none al (m : gmap Z obj) p d l t c :
  m !! p = Some (OPciDev d) -> (d.(pd_header_type) =? 0x00) || (d.(pd_header_type) =? 0x80) = false ->
  wp (pci_set_header (A := A) data_port p) (fun _ s' => s' = PciState (Store al m) l t (c ++
     (if d.(pd_header_type) =? 0x01 then chars "Header type 0x01"
      else if d.(pd_header_type) =? 0x02 then chars "Header type 0x02" else []))) (PciState (Store al m) l t c).
Proof.
  intros Hp [H0 H8]%orb_false_iff. unfold pci_set_header. apply wp_bind, wp_store. st_steps. cbn [alloc objs].
  rewrite H0, H8. repeat case_match; unfold kprint; try by apply wp_modify.
  apply wp_ret. by rewrite app_nil_r.
Qed.

Lemma full_names_fields d :
  (full_names d).(pd_header_type) = d.(pd_header_type) /\ (full_names d).(pd_bus) = d.(pd_bus) /\
  (full_names d).(pd_dev) = d.(pd_dev) /\ (full_names d).(pd_additional_info) = d.(pd_additional_info) /\
  (full_names d).(pd_ven_id) = d.(pd_ven_id) /\ (full_names d).(pd_dev_id) = d.(pd_dev_id).
Proof.
  unfold full_names. set (d1 := dev_named d). set (d2 := ven_named d1). assert (H1 : forall f : pci_dev -> Z,
    (f = pd_header_type \/ f = pd_bus \/ f = pd_dev \/ f = pd_additional_info \/ f = pd_ven_id \/ f = pd_dev_id) ->
    f (class_named d2) = f d).
  { intros f Hf. transitivity (f d2); [|transitivity (f d1)].
    - unfold class_named. case_match; [|done]. naive_solver.
    - unfold d2, ven_named. case_match; [|done]. naive_solver.
    - unfold d1, dev_named. case_match; [|done]. naive_solver. }
  split_and!; apply H1; tauto.
Qed.

Lemma pci_set_header_spec k al (m : gmap Z obj) p b d l t c :
  store_ok (S k) (Store al m) -> m !! p = Some (OPciDev (full_names (raw_device b d))) -> Forall is_address t ->
  wp (pci_set_header (A := A) data_port p) (fun _ s' => exists al' m' t',
    s' = PciState (Store al' m') l t' (c ++ announced b d) /\ store_ok k (Store al' m') /\ Forall is_address t' /\
    describes m' b p d /\ untouched [p] m m') (PciState (Store al m) l t c).
Proof.
  intros Hok Hp Ht. destruct (full_names_fields (raw_device b d)) as (Hh & Hb & Hd & Hi & _).
  destruct (has_header b d) eqn:Hhas.
  - unfold pci_set_header. apply wp_bind, wp_store. st_steps. cbn [alloc objs].
    assert (Hc : forall x y z : cmd (pci_state A) unit,
      (if (full_names (raw_device b d)).(pd_header_type) =? 0 then x
       else if (full_names (raw_device b d)).(pd_header_type) =? 1 then y
       else if (full_names (raw_device b d)).(pd_header_type) =? 2 then z
       else if (full_names (raw_device b d)).(pd_header_type) =? 128 then x else ret tt) = x).
    { intros x y z. rewrite Hh. unfold has_header in Hhas. apply orb_true_iff in Hhas as [He|He];
      apply Z.eqb_eq in He; cbn [pd_header_type raw_device]; by rewrite He. }
    rewrite Hc. eapply wp_mono; [by apply (pci_set_standard_header_spec k)|].
    intros [] s' (info & al' & t' & -> & Hf & Hok' & Ht'). rewrite Hb, Hd in *. cbn [pd_bus pd_dev raw_device] in *.
    eexists _, _, _. split; [|split_and!; [exact Hok'|exact Ht'| |]].
    + unfold announced. unfold has_header in Hhas. apply orb_true_iff in Hhas as [He|He]; apply Z.eqb_eq in He;
        rewrite He; by rewrite app_nil_r.
    + exists info. split; [lkp|]. rewrite Hhas. rewrite lookup_insert_ne by congruence. lkp.
    + intros a Ha [o Ho]. assert (a <> p) by set_solver. assert (a <> info) by congruence. lk. done.
  - eapply wp_mono.
    { apply set_header_none; [done|]. rewrite Hh. exact Hhas. }
    intros [] s' ->. rewrite Hh. eexists _, _, _. split; [reflexivity|]. split_and!; [by apply store_ok_mono|done| |done].
    exists 0. split; [|by rewrite Hhas]. rewrite Hp. do 2 f_equal. unfold set_additional_info. cbn in Hi.
    fold (full_names (raw_device b d)). by destruct (full_names (raw_device b d)); cbn in *; subst.
Qed.

Lemma describes_kept X (m m' : gmap Z obj) b p d :
  untouched X m m' -> (forall a, a ∈ X -> exists o, m !! a = Some o /\ match o with ONode _ | OList _ => True | _ => False end) ->
  describes m b p d -> describes m' b p d.
Proof.
  intros Hu HX (info & Hp & Hi).
  assert (Hkeep : forall a o, m !! a = Some o -> match o with ONode _ | OList _ => False | _ => True end -> m' !! a = Some o).
  { intros a o Ha Ho. rewrite Hu; [done| |by eexists]. intros Hin. destruct (HX a Hin) as (o' & Ha' & Ho').
    rewrite Ha in Ha'. simplify_eq. by destruct o'. }
  exists info. split; [by apply Hkeep|]. case_match; [|done]. by apply Hkeep.
Qed.

Lemma owned_links (m : gmap Z obj) l xs a :
  list_rep m l xs -> a ∈ owned l xs -> exists o, m !! a = Some o /\ match o with ONode _ | OList _ => True | _ => False end.
Proof.
  intros (Hl & Hs & _) [->|Hin]%elem_of_cons; [by eexists|].
  destruct (dlseg_node _ _ _ _ _ Hs Hin) as [n Hn]. by eexists.
Qed.

#[local] Abbreviation build := (pci_build_device (A := A) PciDevTable PciVenTable PciClassCodeTable data_port).

Lemma pci_build_device_spec k al (m : gmap Z obj) b d l xs t c :
  store_ok (3 + k) (Store al m) -> list_rep m l xs -> Forall is_address t ->
  wp (build b d (reg16 b d 0 PCI_VEN_ID) (u8 (reg16 b d 0 PCI_CLASS_CODE)) (u8 (reg16 b d 0 PCI_SUB_CLASS))
        (u8 (reg16 b d 0 PCI_HEADER_TYPE))) (fun _ => built k m l xs b d c) (PciState (Store al m) l t c).
Proof.
  intros Hok Hl Ht. unfold pci_build_device. apply wp_bind, wp_store.
  eapply wp_new; [done|unfold SIZEOF_PCI_DEV, SMALL; cbn; lia|]. intros p al1 Hp0 Hpf Hok1. cbn [alloc objs].
  do 6 (apply wp_bind, wp_pci_read; [done|]; intros ? ?). apply wp_bind, wp_store. eapply wp_upd_dev; [lkp|].
  cbn [alloc objs]. rewrite insert_insert_eq. apply wp_bind. eapply pci_set_names_spec; [lkp|]. rewrite insert_insert_eq.
  fold (raw_device b d). apply wp_bind. eapply wp_mono.
  { apply (pci_set_header_spec (S k)); [by eapply store_ok_over|lkp|done]. }
  intros [] s' (al2 & m2 & t2 & -> & Hok2 & Ht2 & Hd & Hu2). apply wp_bind, wp_gets. cbn [pci_devices].
  assert (Hu : untouched [] m m2).
  { intros a _ Ha. assert (a <> p) by (intros ->; rewrite Hpf in Ha; by apply is_Some_None in Ha).
    rewrite Hu2; [by lk|set_solver|by lk]. }
  assert (Hl2 : list_rep m2 l xs) by (eapply list_rep_frame; [exact Hl|exact Hu|set_solver]).
  apply wp_bind, wp_store. eapply wp_mono; [by apply (linked_list_append_spec k)|].
  intros n [al3 m3] (Hok3 & Hl3 & Hn3 & Hu3). apply wp_ret. rewrite app_nil_r in Hu3. cbn [alloc objs] in *.
  exists n, p, t2. cbn [pci_store objs pci_devices pci_ports pci_console]. split_and!; try done.
  - destruct (m !! n) eqn:He; [|done]. rewrite Hu in Hn3; [congruence|set_solver|by eexists].
  - eapply describes_kept; [exact Hu3| |exact Hd]. intros a. by apply owned_links.
  - intros a Ha Hs. assert (Hk : m2 !! a = m !! a) by (apply Hu; [set_solver|done]).
    rewrite <- Hk. apply Hu3; [done|by rewrite Hk].
Qed.

(** ** Scanning a bus *)

(** The class code is read from the low byte of a register whose high byte it
    is, so it is the sub-class; no device passes the test for a bridge. *)
Lemma class_is_sub_class b d f : reg16 b d f PCI_CLASS_CODE = reg16 b d f PCI_SUB_CLASS.
Proof. reflexivity. Qed.

Lemma never_a_bridge b d f :
  (u8 (reg16 b d f PCI_CLASS_CODE) =? PCI_BASE_CLASS_BRIDGE) && (u8 (reg16 b d f PCI_SUB_CLASS) =? PCI_SUB_CLASS_BRIDGE) = false.
Proof.
  rewrite class_is_sub_class. unfold PCI_BASE_CLASS_BRIDGE, PCI_SUB_CLASS_BRIDGE.
  destruct (Z.eqb_spec (u8 (reg16 b d f PCI_SUB_CLASS)) 6) as [->|]; done.
Qed.

Lemma pci_scan_function_spec scan b d f st l t c :
  Forall is_address t ->
  wp (pci_scan_function (A := A) data_port scan b d f)
     (fun _ s' => exists t', s' = PciState st l t' c /\ Forall is_address t') (PciState st l t c).
Proof.
  intros Ht. unfold pci_scan_function. apply wp_bind, wp_pci_read; [done|]. intros t1 H1.
  destruct (negb _); [|apply wp_ret; by eexists]. do 2 (apply wp_bind, wp_pci_read; [done|]; intros ? ?).
  rewrite never_a_bridge. apply wp_ret. by eexists.
Qed.

(** The slots below [n] that hold a device. *)
Definition slots (b n : Z) : list Z := List.filter (present b) (seqZ 0 n).

Lemma slots_step b n : 0 <= n -> slots b (n + 1) = slots b n ++ (if present b n then [n] else []).
Proof.
  intros Hn. unfold slots. rewrite seqZ_app by lia. rewrite List.filter_app. f_equal.
Qed.

(** After the first [n] slots of bus [b]: the list has, behind the nodes [xs0]
    it had, the devices of the slots that hold one, in order. *)
Definition scanned k (m0 : gmap Z obj) b l (xs0 : list (Z * Z)) c0 (n : Z) s : Prop :=
  exists ys, let m := s.(pci_store).(objs) in
  s.(pci_devices) = l /\ Forall is_address s.(pci_ports) /\
  store_ok (3 * Z.to_nat (PCI_DEV_PER_BUS - n) + k) s.(pci_store) /\
  list_rep m l (xs0 ++ ys) /\ Forall2 (describes m b) ys.*2 (slots b n) /\
  s.(pci_console) = c0 ++ List.concat (announced b <$> slots b n) /\
  untouched (owned l xs0) m0 m /\ (forall a, a ∈ ys.*1 -> m0 !! a = None).

#[local] Abbreviation scan_device := (pci_scan_device (A := A) PciDevTable PciVenTable PciClassCodeTable data_port).
#[local] Abbreviation scan_bus := (pci_scan_bus (A := A) PciDevTable PciVenTable PciClassCodeTable data_port).

Lemma built_scanned k m0 b l xs0 c0 n (s s' : pci_state A) ys :
  0 <= n < PCI_DEV_PER_BUS -> present b n = true -> s.(pci_devices) = l ->
  list_rep s.(pci_store).(objs) l (xs0 ++ ys) -> Forall2 (describes s.(pci_store).(objs) b) ys.*2 (slots b n) ->
  s.(pci_console) = c0 ++ List.concat (announced b <$> slots b n) -> untouched (owned l xs0) m0 s.(pci_store).(objs) ->
  (forall a, a ∈ ys.*1 -> m0 !! a = None) ->
  built (3 * Z.to_nat (PCI_DEV_PER_BUS - (n + 1)) + k) s.(pci_store).(objs) l (xs0 ++ ys) b n s.(pci_console) s' ->
  scanned k m0 b l xs0 c0 (n + 1) s'.
Proof.
  intros Hn Hpr Hdev Hl Hds Hc Hu Hnew (nd & p & t' & Hd' & Ht & Hc' & Hf & Hok & Hl' & Hp & Hpn & Hnn & Hdesc & Hu').
  exists (ys ++ [(nd, p)]). rewrite slots_step, Hpr by lia. split_and!; try done.
  - by rewrite Ht.
  - by rewrite app_assoc.
  - rewrite fmap_app. apply Forall2_app; [|by repeat constructor].
    eapply Forall2_impl; [exact Hds|]. intros q d Hq. eapply describes_kept; [exact Hu'| |exact Hq].
    intros a. by apply owned_links.
  - rewrite Hc', Hc, fmap_app, List.concat_app. cbn. by rewrite app_nil_r, app_assoc.
  - intros a Ha Hs. assert (Hk : s.(pci_store).(objs) !! a = m0 !! a) by by apply Hu.
    rewrite <- Hk in Hs |- *. apply Hu'; [|done].
    unfold owned in *. rewrite fmap_app. intros [->|[Hin|Hin]%elem_of_app]%elem_of_cons; [set_solver|set_solver|].
    rewrite Hk, Hnew in Hs by done. by apply is_Some_None in Hs.
  - intros a. rewrite fmap_app. intros [Hin|Hin]%elem_of_app; [by apply Hnew|].
    cbn in Hin. apply list_elem_of_singleton in Hin as ->. destruct (m0 !! nd) eqn:He; [|done].
    rewrite (Hu nd) in Hnn; [congruence| |by eexists]. intros Hin.
    destruct (owned_links _ l (xs0 ++ ys) nd Hl) as (o' & Ho' & _); [|congruence].
    unfold owned in *. rewrite fmap_app. set_solver.
Qed.

Lemma pci_scan_device_spec scan k m0 b l xs0 c0 n s :
  0 <= n < PCI_DEV_PER_BUS -> scanned k m0 b l xs0 c0 n s ->
  wp (scan_device scan b n) (fun _ => scanned k m0 b l xs0 c0 (n + 1)) s.
Proof.
  intros Hn (ys & Hd & Ht & Hok & Hl & Hds & Hc & Hu & Hnew). destruct s as [[al m] dv t c]. cbn in *. subst dv.
  unfold PCI_DEV_PER_BUS in *.
  unfold pci_scan_device. apply wp_bind, wp_pci_read; [done|]. intros t1 H1. fold (present b n).
  destruct (present b n) eqn:Hpr.
  - do 3 (apply wp_bind, wp_pci_read; [done|]; intros ? ?). apply wp_bind. rewrite never_a_bridge. apply wp_ret, wp_bind.
    assert (Hf : forall (t : list port_write) (Q : unit -> pci_state A -> Prop), Forall is_address t ->
      (forall t', Forall is_address t' -> Q tt (PciState (Store al m) l t' c)) ->
      wp (if negb (Z.land (u8 (reg16 b n 0 PCI_HEADER_TYPE)) PCI_MULTI_FUNC =? 0)
          then for_ (Z.to_nat PCI_FUN_PER_DEV) 0 (pci_scan_function (A := A) data_port scan b n) else ret tt)
         Q (PciState (Store al m) l t c)).
    { intros t3 Q Ht3 HQ. destruct (negb _); [|by apply wp_ret, HQ]. eapply wp_mono.
      { apply (wp_for (fun _ s => exists t', s = PciState (Store al m) l t' c /\ Forall is_address t')); [by eexists|].
        intros j s' _ (t4 & -> & Ht4). by apply pci_scan_function_spec. }
      intros [] s' (t4 & -> & Ht4). by apply HQ. }
    apply Hf; [done|]. intros t3 Ht3. eapply wp_mono.
    { apply (pci_build_device_spec (3 * Z.to_nat (32 - (n + 1)) + k)); [|exact Hl|done].
      eapply store_ok_le; [|exact Hok]. lia. }
    intros [] s' Hb. by apply (built_scanned k m0 b l xs0 c0 n (PciState (Store al m) l t3 c) s' ys).
  - apply wp_ret. exists ys. cbn. rewrite slots_step, Hpr, app_nil_r by lia. split_and!; try done.
    eapply store_ok_le; [|exact Hok]. unfold PCI_DEV_PER_BUS. lia.
Qed.

(** Whatever the recursive call would do, it is never reached. *)
Lemma pci_scan_bus_spec fuel k al (m : gmap Z obj) b l xs t c :
  store_ok (96 + k) (Store al m) -> list_rep m l xs -> Forall is_address t ->
  wp (scan_bus (S fuel) b) (fun _ => scanned k m b l xs c PCI_DEV_PER_BUS) (PciState (Store al m) l t c).
Proof.
  intros Hok Hl Ht. cbn [pci_scan_bus].
  change PCI_DEV_PER_BUS with (0 + Z.of_nat (Z.to_nat PCI_DEV_PER_BUS)) at 2. apply wp_for.
  - exists []. cbn. rewrite !app_nil_r. split_and!; try done. set_solver.
  - intros n s Hn Hs. apply pci_scan_device_spec; [|done]. unfold PCI_DEV_PER_BUS in *. lia.
Qed.

#[local] Abbreviation initialise := (pci_initialise (A := A) PciDevTable PciVenTable PciClassCodeTable data_port).

(** The list of devices at [l]: those of the slots [ds] of bus 0, in order. *)
Definition found (m : gmap Z obj) (l : Z) (ds : list Z) : Prop :=
  exists xs, list_rep m l xs /\ Forall2 (describes m 0) xs.*2 ds.

Definition multi_host : bool := negb (Z.land (u8 (reg16 0 0 0 PCI_HEADER_TYPE)) PCI_MULTI_FUNC =? 0).

(** The start of [pci_initialise]. *)
Lemma initialise_start fuel k al (m : gmap Z obj) t c l0 Q :
  store_ok (S k) (Store al m) -> Forall is_address t ->
  (forall al' m' l t', store_ok k (Store al' m') -> list_rep m' l [] -> untouched [] m m' -> m !! l = None ->
     Forall is_address t' ->
     wp (if multi_host then pci_scan_hosts PciDevTable PciVenTable PciClassCodeTable data_port (Z.to_nat PCI_FUN_PER_DEV) fuel 0
         else scan_bus fuel 0) Q (PciState (Store al' m') l t' c)) ->
  wp (initialise fuel) Q (PciState (Store al m) l0 t c).
Proof.
  intros Hok Ht HQ. unfold pci_initialise. apply wp_bind, wp_store. eapply wp_mono; [by apply (linked_list_create_spec k)|].
  intros l [al' m'] (Hok' & Hlf & Hl & Hu). cbn [alloc objs] in *. apply wp_bind, wp_modify. cbn [pci_store pci_ports pci_console].
  apply wp_bind, wp_pci_read; [done|]. intros t' Ht'. specialize (HQ al' m' l t' Hok' Hl Hu Hlf Ht').
  unfold multi_host in HQ. by destruct (_ =? 0).
Qed.

Lemma pci_initialise_spec fuel k s :
  store_ok (97 + k) s.(pci_store) -> Forall is_address s.(pci_ports) -> multi_host = false ->
  wp (initialise (S fuel)) (fun _ s' =>
    store_ok k s'.(pci_store) /\ Forall is_address s'.(pci_ports) /\
    found s'.(pci_store).(objs) s'.(pci_devices) (slots 0 PCI_DEV_PER_BUS) /\
    s'.(pci_console) = s.(pci_console) ++ List.concat (announced 0 <$> slots 0 PCI_DEV_PER_BUS) /\
    untouched [] s.(pci_store).(objs) s'.(pci_store).(objs)) s.
Proof.
  destruct s as [[al m] l0 t c]. cbn. intros Hok Ht Hm. apply (initialise_start (S fuel) (96 + k)); [done|done|].
  intros al' m' l t' Hok' Hl Hu Hlf Ht'. rewrite Hm. eapply wp_mono; [by apply (pci_scan_bus_spec fuel k)|].
  intros [] s' (ys & Hd & Ht2 & Hok2 & Hl2 & Hds & Hc & Hu2 & _). rewrite Hd. split_and!; try done.
  - by exists ys.
  - intros a _ Ha. assert (a <> l) by (intros ->; rewrite Hlf in Ha; by apply is_Some_None in Ha).
    assert (Hk : m' !! a = m !! a) by (apply Hu; [set_solver|done]). rewrite <- Hk.
    apply Hu2; [set_solver|by rewrite Hk].
Qed.

(** ** Finding a device *)

Definition matches (v i d : Z) : bool := (reg16 0 d 0 PCI_VEN_ID =? v) && (reg16 0 d 0 PCI_DEV_ID =? i).

Lemma describes_ids (m : gmap Z obj) p d :
  describes m 0 p d -> exists x, m !! p = Some (OPciDev x) /\ x.(pd_ven_id) = reg16 0 d 0 PCI_VEN_ID /\
    x.(pd_dev_id) = reg16 0 d 0 PCI_DEV_ID.
Proof.
  intros (info & Hp & _). eexists. split; [exact Hp|].
  destruct (full_names_fields (raw_device 0 d)) as (_ & _ & _ & _ & Hv & Hi). by split.
Qed.

(** The answer to a search: the object of the first matching slot, or NULL. *)
Definition answer (m : gmap Z obj) (v i : Z) (ds : list Z) (p : Z) : Prop :=
  match List.find (matches v i) ds with Some d => p <> 0 /\ describes m 0 p d | None => p = 0 end.

Lemma get_device_loop_spec fuel al (m : gmap Z obj) pv xs ds v i :
  dlseg m pv xs 0 -> m !! 0 = None -> Forall2 (describes m 0) xs.*2 ds -> (length xs < fuel)%nat ->
  wp (get_device_loop (A := A) fuel (hd_addr xs 0) v i) (fun p st => st = Store al m /\ answer m v i ds p) (Store al m).
Proof.
  revert fuel pv ds. induction xs as [|[a p] xs IH]; intros [|fuel] pv ds Hs H0 Hds Hf; try (cbn in Hf; lia).
  - inversion Hds; subst. apply wp_ret. by split.
  - cbn [fmap list_fmap snd] in Hds. inversion Hds as [|? d ? ds' Hd Hds']; subst. destruct Hs as [Ha Hs].
    destruct (describes_ids _ _ _ Hd) as (x & Hx & Hv & Hi). cbn [get_device_loop hd_addr].
    destruct (Z.eqb_spec a 0) as [->|]; [congruence|]. do 2 st_step. st_cbn. apply wp_bind.
    eapply wp_get_pci_dev; [exact Hx|]. unfold answer. cbn [List.find]. rewrite Hv, Hi. fold (matches v i d).
    destruct (matches v i d).
    + apply wp_ret. split_and!; [done| |done]. intros ->. congruence.
    + eapply IH; [exact Hs|done|exact Hds'|cbn in Hf; lia].
Qed.

Lemma pci_get_device_spec k s v i ds :
  store_ok k s.(pci_store) -> found s.(pci_store).(objs) s.(pci_devices) ds ->
  wp (pci_get_device v i) (fun p s' => s' = s /\ answer s.(pci_store).(objs) v i ds p) s.
Proof.
  destruct s as [[al m] l t c]. cbn. intros Hok (xs & Hl & Hds). unfold pci_get_device. apply wp_bind, wp_gets.
  cbn [pci_devices]. apply wp_store. pose proof (list_rep_length _ _ _ Hl) as Hlen. destruct Hl as (Hl & Hs & _).
  do 4 st_step. st_cbn. eapply wp_mono.
  { eapply get_device_loop_spec; [exact Hs|by eapply store_ok_zero|exact Hds|]. unfold chain_fuel. cbn. lia. }
  intros p st [-> Ha]. by split.
Qed.

Lemma describes_classes (m : gmap Z obj) p d :
  describes m 0 p d -> exists x, m !! p = Some (OPciDev x) /\ x.(pd_class_code) = x.(pd_sub_class).
Proof.
  intros (info & Hp & _). eexists. split; [exact Hp|]. cbn [set_additional_info pd_class_code pd_sub_class].
  assert (Hk : forall d0, (full_names d0).(pd_class_code) = d0.(pd_class_code) /\ (full_names d0).(pd_sub_class) = d0.(pd_sub_class)).
  { intros d0. unfold full_names, class_named. set (d1 := dev_named d0). set (d2 := ven_named d1).
    assert (d1.(pd_class_code) = d0.(pd_class_code) /\ d1.(pd_sub_class) = d0.(pd_sub_class))
      by (unfold d1, dev_named; by case_match).
    assert (d2.(pd_class_code) = d1.(pd_class_code) /\ d2.(pd_sub_class) = d1.(pd_sub_class))
      by (unfold d2, ven_named; by case_match).
    destruct (last _); cbn; destruct_and!; split; congruence. }
  destruct (Hk (raw_device 0 d)) as [Hc Hs]. fold (full_names (raw_device 0 d)). by rewrite Hc, Hs.
Qed.

Lemma get_devices_loop_none fuel al (m : gmap Z obj) pv xs ds cc sc :
  dlseg m pv xs 0 -> m !! 0 = None -> Forall2 (describes m 0) xs.*2 ds -> (length xs < fuel)%nat -> cc <> sc ->
  wp (get_devices_loop (A := A) fuel (hd_addr xs 0) 0 cc sc) (fun p st => st = Store al m /\ p = 0) (Store al m).
Proof.
  revert fuel pv ds. induction xs as [|[a p] xs IH]; intros [|fuel] pv ds Hs H0 Hds Hf Hne; try (cbn in Hf; lia).
  - by apply wp_ret.
  - cbn [fmap list_fmap snd] in Hds. inversion Hds as [|? d ? ds' Hd Hds']; subst. destruct Hs as [Ha Hs].
    destruct (describes_classes _ _ _ Hd) as (x & Hx & Hxx). cbn [get_devices_loop hd_addr].
    destruct (Z.eqb_spec a 0) as [->|]; [congruence|]. do 2 st_step. st_cbn. apply wp_bind.
    eapply wp_get_pci_dev; [exact Hx|]. rewrite Hxx.
    destruct (Z.eqb_spec x.(pd_sub_class) cc), (Z.eqb_spec x.(pd_sub_class) sc); try congruence; cbn [andb];
      (eapply IH; [exact Hs|done|exact Hds'|cbn in Hf; lia|done]).
Qed.

(** The list after the scan and a search in it, by what [pci_read] reads. *)
Lemma pci_boot_lists fuel k s v i :
  store_ok (97 + k) s.(pci_store) -> Forall is_address s.(pci_ports) -> multi_host = false ->
  wp (initialise (S fuel) ;;; pci_get_device v i) (fun p s' =>
    let m := s'.(pci_store).(objs) in
    found m s'.(pci_devices) (slots 0 PCI_DEV_PER_BUS) /\ answer m v i (slots 0 PCI_DEV_PER_BUS) p /\
    s'.(pci_console) = s.(pci_console) ++ List.concat (announced 0 <$> slots 0 PCI_DEV_PER_BUS) /\
    store_ok k s'.(pci_store) /\ untouched [] s.(pci_store).(objs) m) s.
Proof.
  intros Hok Ht Hm. apply wp_bind. eapply wp_mono; [by apply (pci_initialise_spec fuel k)|].
  intros [] s' (Hok' & _ & Hf & Hc & Hu). eapply wp_mono; [by eapply pci_get_device_spec|].
  intros p s'' [-> Ha]. by split_and!.
Qed.

(** C40: on a machine whose host controller has several functions, the loop over
    them stops at the first that is present instead of scanning its bus, so no
    device at all is found. *)
Theorem multi_function_host_unscanned fuel k s v i :
  store_ok (S k) s.(pci_store) -> Forall is_address s.(pci_ports) -> multi_host = true -> present 0 0 = true ->
  wp (initialise fuel ;;; pci_get_device v i) (fun p s' =>
    p = 0 /\ found s'.(pci_store).(objs) s'.(pci_devices) []) s.
Proof.
  destruct s as [[al m] l0 t c]. cbn [pci_store pci_ports]. intros Hok Ht Hm Hp. apply wp_bind.
  eapply initialise_start; [done|done|]. intros al' m' l t' Hok' Hl _ _ Ht'. rewrite Hm.
  change (Z.to_nat PCI_FUN_PER_DEV) with 8%nat. cbn [pci_scan_hosts]. apply wp_bind, wp_pci_read; [done|].
  intros t2 Ht2. fold (present 0 0). rewrite Hp. apply wp_ret.
  assert (Hf : found m' l []) by (exists []; by split).
  eapply wp_mono; [by eapply (pci_get_device_spec k _ v i [])|]. intros p s' [-> Ha]. by split.
Qed.

(** A search by class finds nothing unless the two codes are equal. *)
Theorem class_search_blind fuel k s cc sc :
  store_ok (97 + k) s.(pci_store) -> Forall is_address s.(pci_ports) -> multi_host = false -> cc <> sc ->
  wp (initialise (S fuel) ;;; pci_get_devices cc sc) (fun p _ => p = 0) s.
Proof.
  intros Hok Ht Hm Hne. apply wp_bind. eapply wp_mono; [by apply (pci_initialise_spec fuel k)|].
  intros [] [[al m] l t c] (Hok' & _ & (xs & Hl & Hds) & _). cbn [pci_store pci_devices objs] in *.
  unfold pci_get_devices. apply wp_bind, wp_gets. apply wp_store.
  pose proof (list_rep_length _ _ _ Hl) as Hlen. destruct Hl as (Hl & Hs & _).
  do 4 st_step. st_cbn. eapply wp_mono.
  { eapply get_devices_loop_none; [exact Hs|by eapply store_ok_zero|exact Hds| |done]. unfold chain_fuel. cbn. lia. }
  by intros p st [_ ->].
Qed.
End found.

(** * The registers behind the ports *)

(** The section above speaks of what [pci_read] reads.  Here the machine is
    described without the driver: [conf b d f r] is byte [r] of the
    configuration space of function [f] of device [d] on bus [b], and the data
    port decodes the address last written to the configuration port: the enable
    bit, eight bits of bus, five of device, three of function and the number of
    a 32-bit register, its bytes in little-endian order. *)
Section registers.
Variable conf : Z -> Z -> Z -> Z -> Z.

Definition conf_long (b d f r : Z) : Z :=
  conf b d f r + 2 ^ 8 * conf b d f (r + 1) + 2 ^ 16 * conf b d f (r + 2) + 2 ^ 24 * conf b d f (r + 3).
Definition decode_config (a : Z) : Z :=
  if a / 2 ^ 31 =? 1 then conf_long (a / 2 ^ 16 mod 256) (a / 2 ^ 11 mod 32) (a / 2 ^ 8 mod 8) (a mod 256 / 4 * 4)
  else 0xFFFFFFFF.

(** 16 and 32 bits of the configuration space of function 0 of a slot of bus 0. *)
Definition conf16 (d r : Z) : Z := conf 0 d 0 r + 2 ^ 8 * conf 0 d 0 (r + 1).
Definition conf32 (d r : Z) : Z := conf16 d r + 2 ^ 16 * conf16 d (r + 2).

Definition answers (d : Z) : bool := negb (conf16 d 0x00 =? 0xFFFF).
(** The slots of bus 0 that hold a device, in order. *)
Definition occupied : list Z := List.filter answers (seqZ 0 32).

(** What the driver records of the device in slot [d].  The vendor (0x00), the
    device (0x02), the revision (0x08), the sub-class (0x0A), the cache line
    (0x0C) and the header type (0x0E) are the device's own.  Programming
    interface, class code, latency timer and self test are at 0x09, 0x0B, 0x0D
    and 0x0F, but the fields for them hold the byte before. *)
Definition recorded_device (d : Z) : pci_dev :=
  PciDev 0 d (conf16 d 0x00) (conf16 d 0x02) (conf 0 d 0 0x08) (conf 0 d 0 0x08) (conf 0 d 0 0x0A) (conf 0 d 0 0x0A)
         (conf 0 d 0 0x0C) (conf 0 d 0 0x0C) (conf 0 d 0 0x0E) (conf 0 d 0 0x0E) 0 0 0 0 0 0 0 0.
(** Interrupt pin (0x3D) and maximal latency (0x3F) likewise. *)
Definition recorded_header (d : Z) : pci_std_hdr :=
  PciStdHdr (conf32 d 0x10) (conf32 d 0x14) (conf32 d 0x18) (conf32 d 0x1C) (conf32 d 0x20) (conf32 d 0x24)
            (conf32 d 0x28) (conf16 d 0x2C) (conf16 d 0x2E) (conf32 d 0x30) (conf16 d 0x34)
            (conf 0 d 0 0x3C) (conf 0 d 0 0x3C) (conf 0 d 0 0x3E) (conf 0 d 0 0x3E).
Definition plain_header (d : Z) : bool := (conf 0 d 0 0x0E =? 0x00) || (conf 0 d 0 0x0E =? 0x80).
Definition header_printed (d : Z) : list Z :=
  if conf 0 d 0 0x0E =? 1 then chars "Header type 0x01" else if conf 0 d 0 0x0E =? 2 then chars "Header type 0x02" else [].

(** ** The driver's addresses reach the registers they name *)

Lemma config_address b d f r : 0 <= b < 256 -> 0 <= d < 32 -> 0 <= f < 8 -> 0 <= r < 256 ->
  pci_make_config_space b d f r = 2 ^ 31 + b * 2 ^ 16 + d * 2 ^ 11 + f * 2 ^ 8 + r / 4 * 4.
Proof.
  intros Hb Hd Hf Hr. unfold pci_make_config_space.
  assert (Er : Z.land r 0xFC = r / 4 * 4).
  { apply Z.eqb_eq. assert (Hall : forallb (fun x => Z.land x 0xFC =? x / 4 * 4) (seqZ 0 256) = true) by by vm_compute.
    rewrite forallb_forall in Hall. apply Hall. apply list_elem_of_In, elem_of_seqZ. lia. }
  rewrite Er, !Z.shiftl_mul_pow2, !u32_small by lia.
  assert (Hl : forall x y n, 0 <= n -> 0 <= y < 2 ^ n -> Z.lor (x * 2 ^ n) y = x * 2 ^ n + y)
    by (intros x y n ? ?; rewrite <- Z.shiftl_mul_pow2 by done; rewrite lor_add by done; by rewrite Z.shiftl_mul_pow2).
  assert (Hr4 : 0 <= r / 4 * 4 < 2 ^ 8) by (Z.div_mod_to_equations; lia).
  change 0x80000000 with (1 * 2 ^ 31). rewrite (Hl 1) by lia.
  replace (1 * 2 ^ 31 + b * 2 ^ 16) with ((2 ^ 15 + b) * 2 ^ 16) by lia. rewrite (Hl (2 ^ 15 + b)) by lia.
  replace ((2 ^ 15 + b) * 2 ^ 16 + d * 2 ^ 11) with ((2 ^ 20 + 32 * b + d) * 2 ^ 11) by lia. rewrite (Hl (2 ^ 20 + 32 * b + d)) by lia.
  replace ((2 ^ 20 + 32 * b + d) * 2 ^ 11 + f * 2 ^ 8) with ((2 ^ 23 + 256 * b + 8 * d + f) * 2 ^ 8) by lia.
  rewrite Hl by lia. lia.
Qed.

Hypothesis conf_bytes : forall b d f r, 0 <= conf b d f r < 256.

Lemma decode_address b d f r : 0 <= b < 256 -> 0 <= d < 32 -> 0 <= f < 8 -> 0 <= r < 256 ->
  decode_config (pci_make_config_space b d f r) = conf_long b d f (r / 4 * 4).
Proof.
  intros Hb Hd Hf Hr. rewrite config_address by done. unfold decode_config. set (a := _ + r / 4 * 4).
  assert (Hr4 : 0 <= r / 4 * 4 < 256) by (Z.div_mod_to_equations; lia).
  assert (a / 2 ^ 31 = 1) as -> by (subst a; Z.div_mod_to_equations; lia).
  assert (a / 2 ^ 16 mod 256 = b) as ->
    by (assert (E : a / 2 ^ 16 = 2 ^ 15 + b) by (subst a; Z.div_mod_to_equations; lia); rewrite E; Z.div_mod_to_equations; lia).
  assert (a / 2 ^ 11 mod 32 = d) as ->
    by (assert (E : a / 2 ^ 11 = 2 ^ 20 + 32 * b + d) by (subst a; Z.div_mod_to_equations; lia); rewrite E; Z.div_mod_to_equations; lia).
  assert (a / 2 ^ 8 mod 8 = f) as ->
    by (assert (E : a / 2 ^ 8 = 2 ^ 23 + 256 * b + 8 * d + f) by (subst a; Z.div_mod_to_equations; lia); rewrite E; Z.div_mod_to_equations; lia).
  assert (a mod 256 / 4 * 4 = r / 4 * 4) as ->; [|done].
  assert (E : a mod 256 = r / 4 * 4) by (subst a; Z.div_mod_to_equations; lia). rewrite E. by rewrite Z.div_mul.
Qed.

(** What [pci_read] takes from a register of bus 0: the 16 bits that hold it. *)
Lemma reg16_conf d r : 0 <= d < 32 -> 0 <= r < 256 -> reg16 decode_config 0 d 0 r = conf16 d (r / 2 * 2).
Proof.
  intros Hd Hr. unfold reg16, conf16. rewrite decode_address by lia.
  assert (E2 : Z.land r 2 = 2 * (r / 2 mod 2)).
  { apply Z.eqb_eq. assert (Hall : forallb (fun x => Z.land x 2 =? 2 * (x / 2 mod 2)) (seqZ 0 256) = true) by by vm_compute.
    rewrite forallb_forall in Hall. apply Hall, list_elem_of_In, elem_of_seqZ. lia. }
  change PCI_FAIL with (Z.ones 16). rewrite E2, Z.land_ones, Z.shiftr_div_pow2 by (Z.div_mod_to_equations; lia).
  unfold conf_long. pose proof (conf_bytes 0 d 0) as Hc. set (q := r / 4 * 4) in *.
  pose proof (Hc q). pose proof (Hc (q + 1)). pose proof (Hc (q + 2)). pose proof (Hc (q + 3)).
  rewrite (u32_small (_ + _)) by lia. unfold u16. rewrite Z.mod_mod by lia.
  destruct (decide (r / 2 mod 2 = 0)) as [E|E].
  - rewrite E. replace (r / 2 * 2) with q by (subst q; Z.div_mod_to_equations; lia).
    change (2 ^ (2 * 0 * 8)) with 1. rewrite Z.div_1_r. Z.div_mod_to_equations. lia.
  - assert (E1 : r / 2 mod 2 = 1) by (Z.div_mod_to_equations; lia). rewrite E1.
    replace (r / 2 * 2) with (q + 2) by (subst q; Z.div_mod_to_equations; lia).
    replace (q + 2 + 1) with (q + 3) by lia. change (2 ^ (2 * 1 * 8)) with (2 ^ 16). Z.div_mod_to_equations. lia.
Qed.

Lemma reg8_conf d r : 0 <= d < 32 -> 0 <= r < 256 -> u8 (reg16 decode_config 0 d 0 r) = conf 0 d 0 (r / 2 * 2).
Proof.
  intros Hd Hr. rewrite reg16_conf by done. unfold conf16, u8.
  pose proof (conf_bytes 0 d 0 (r / 2 * 2)). change (2 ^ 8) with 256. rewrite (Z.mul_comm 256), Z.mod_add by lia.
  by apply Z.mod_small.
Qed.

Lemma reg32_conf d r : 0 <= d < 32 -> 0 <= r < 254 -> r mod 2 = 0 -> reg32 decode_config 0 d r = conf32 d r.
Proof.
  intros Hd Hr He. unfold reg32, conf32. rewrite !reg16_conf by lia.
  replace (r / 2 * 2) with r by (Z.div_mod_to_equations; lia).
  replace ((r + 2) / 2 * 2) with (r + 2) by (Z.div_mod_to_equations; lia).
  assert (Hw : forall x, 0 <= conf16 d x < 2 ^ 16)
    by (intros x; unfold conf16; pose proof (conf_bytes 0 d 0 x); pose proof (conf_bytes 0 d 0 (x + 1)); lia).
  pose proof (Hw r). pose proof (Hw (r + 2)).
  rewrite u32_small by (rewrite Z.shiftl_mul_pow2; lia). rewrite Z.lor_comm, lor_add by lia. lia.
Qed.

(** [conf_rewrite] turns what the driver reads into bytes of the space. *)
#[local] Ltac conf_rewrite := rewrite ?reg8_conf, ?reg16_conf, ?reg32_conf by (done || lia).

Lemma raw_recorded d : 0 <= d < 32 -> raw_device decode_config 0 d = recorded_device d.
Proof. intros Hd. unfold raw_device. by conf_rewrite. Qed.
Lemma header_recorded d : 0 <= d < 32 -> header_of decode_config 0 d = recorded_header d.
Proof. intros Hd. unfold header_of. by conf_rewrite. Qed.
Lemma present_answers d : 0 <= d < 32 -> present decode_config 0 d = answers d.
Proof. intros Hd. unfold present. by conf_rewrite. Qed.
Lemma announced_printed d : 0 <= d < 32 -> announced decode_config 0 d = header_printed d.
Proof. intros Hd. unfold announced. by conf_rewrite. Qed.
Lemma has_header_plain d : 0 <= d < 32 -> has_header decode_config 0 d = plain_header d.
Proof. intros Hd. unfold has_header. by conf_rewrite. Qed.

Lemma slots_occupied : slots decode_config 0 PCI_DEV_PER_BUS = occupied.
Proof.
  unfold slots, occupied, PCI_DEV_PER_BUS. apply List.filter_ext_in. intros d Hd%list_elem_of_In%elem_of_seqZ.
  apply present_answers. lia.
Qed.
Lemma occupied_slot d : d ∈ occupied -> 0 <= d < 32.
Proof. unfold occupied. intros [Hd%list_elem_of_In%elem_of_seqZ _]%list_elem_of_In%List.filter_In. lia. Qed.

(** ** The claim *)

Context {A : Type} `{Allocator A}.
Variable PciDevTable : list PCI_DEVTABLE.
Variable PciVenTable : list PCI_VENTABLE.
Variable PciClassCodeTable : list PCI_CLASSCODETABLE.
Variable data_port : list port_write -> Z.
Hypothesis bus_decodes : config_bus data_port decode_config.

(** The object at [p] is the record of the device in slot [d]: what was read,
    the names of the first row of each table that fits (the last one for the
    class), and for a header of the plain kind the registers behind it. *)
Definition records (m : gmap Z obj) (p d : Z) : Prop :=
  exists info, m !! p = Some (OPciDev (set_additional_info info
    (full_names PciDevTable PciVenTable PciClassCodeTable (recorded_device d)))) /\
    if plain_header d then m !! info = Some (OPciHdr (recorded_header d)) else info = 0.

(** What [pci_get_device] returns: the record of the first slot that holds the
    vendor [v] and the device [i], or NULL. *)
Definition first_with (m : gmap Z obj) (v i p : Z) : Prop :=
  match List.find (fun d => (conf16 d 0x00 =? v) && (conf16 d 0x02 =? i)) occupied with
  | Some d => p <> 0 /\ records m p d
  | None => p = 0
  end.

Lemma describes_records m p d : 0 <= d < 32 ->
  describes PciDevTable PciVenTable PciClassCodeTable decode_config m 0 p d -> records m p d.
Proof.
  intros Hd (info & Hp & Hi). exists info. rewrite has_header_plain, header_recorded in Hi by done.
  split; [|exact Hi]. by rewrite <- raw_recorded.
Qed.

Lemma find_ext_in {B} (f g : B -> bool) l : (forall x, x ∈ l -> f x = g x) -> List.find f l = List.find g l.
Proof.
  induction l as [|x l IH]; intros Hfg; [done|]. cbn. rewrite (Hfg x) by left. case_match; [done|]. apply IH. intros. apply Hfg. by right.
Qed.

Lemma answer_first m v i p :
  answer PciDevTable PciVenTable PciClassCodeTable decode_config m v i occupied p -> first_with m v i p.
Proof.
  unfold answer, first_with. rewrite (find_ext_in _ (fun d => (conf16 d 0x00 =? v) && (conf16 d 0x02 =? i))).
  - destruct (List.find _ _) as [d|] eqn:Hf; [|done]. intros [Hp Hd]. split; [done|]. apply describes_records; [|done].
    apply List.find_some in Hf as [Hin _]. by apply occupied_slot, list_elem_of_In.
  - intros d Hd%occupied_slot. unfold matches. by conf_rewrite.
Qed.

(** C9: the scan at boot, on a machine whose configuration space is [conf] and
    whose host controller has one function (bit 7 of its header type is clear).
    [pci_initialise] leaves the list of the devices of bus 0: one record per
    slot that answers, in the order of the slots, with the device's vendor,
    device, revision, sub-class, cache line and header type, its base addresses
    and its names in the tables.  The fields for class code, programming
    interface, latency timer, self test, interrupt pin and maximal latency hold
    the byte before the one they should.  [pci_get_device] then returns the
    record of the first device with the given vendor and device, or NULL.
    Nothing else is stored, and no bus behind a bridge is scanned, because the
    test for a bridge compares the sub-class with itself: one step of recursion
    is enough.  The store has room for the records, and only addresses were
    written to the ports before. *)
Theorem pci_boot_finds fuel k (s : pci_state A) v i :
  store_ok (97 + k) s.(pci_store) -> Forall is_address s.(pci_ports) -> conf 0 0 0 0x0E < 128 ->
  wp (pci_initialise PciDevTable PciVenTable PciClassCodeTable data_port (S fuel) ;;; pci_get_device v i) (fun p s' =>
    let m := s'.(pci_store).(objs) in
    (exists xs, list_rep m s'.(pci_devices) xs /\ Forall2 (records m) xs.*2 occupied) /\ first_with m v i p /\
    s'.(pci_console) = s.(pci_console) ++ List.concat (header_printed <$> occupied) /\
    store_ok k s'.(pci_store) /\ untouched [] s.(pci_store).(objs) m) s.
Proof.
  intros Hok Ht Hh. eapply wp_mono.
  { eapply (pci_boot_lists _ _ _ _ decode_config); [done|exact Hok|done|]. unfold multi_host. rewrite reg8_conf by (done || lia).
    change (PCI_HEADER_TYPE / 2 * 2) with 0x0E. pose proof (conf_bytes 0 0 0 0x0E) as Hc. apply negb_false_iff, Z.eqb_eq.
    change PCI_MULTI_FUNC with (Z.shiftl 1 7). rewrite Z.land_comm.
    apply Z.bits_inj'. intros n Hn. rewrite Z.land_spec, Z.bits_0, Z.shiftl_spec by lia.
    destruct (decide (n < 7)); [by rewrite Z.testbit_neg_r by lia|].
    rewrite <- (Z.mod_small (conf 0 0 0 14) (2 ^ 7)) by lia. rewrite Z.mod_pow2_bits_high by lia. apply andb_false_r. }
  intros p s' ((xs & Hl & Hds) & Ha & Hc & Hok' & Hu). rewrite slots_occupied in *. split_and!; [|by apply answer_first| |done|done].
  - exists xs. split; [done|]. apply Forall2_same_length_lookup in Hds as [Hlen Hds].
    apply Forall2_same_length_lookup. split; [done|]. intros j q d Hq Hd.
    apply describes_records; [by eapply occupied_slot, list_elem_of_lookup_2|by eapply Hds].
  - rewrite Hc. do 2 f_equal. apply list_fmap_ext. intros j d Hd. by apply announced_printed, occupied_slot, (list_elem_of_lookup_2 _ j).
Qed.
End registers.

(** * A machine *)

#[local] Existing Instance bump_allocator.

(** Registers by address: a host bridge in slot 0 and a display in slot 2 whose
    frame buffer is at 0xE0000000.  [host] is the header type of the bridge. *)
Definition demo_config (host a : Z) : Z :=
  if a =? 0x80000000 then 0x12378086 else if a =? 0x80000008 then 0x06000002 else if a =? 0x8000000C then Z.shiftl host 16
  else if a =? 0x80001000 then 0x11111234 else if a =? 0x80001008 then 0x03000000 else if a =? 0x80001010 then 0xE0000008
  else if Z.land a 0xFF =? 0 then 0xFFFFFFFF else 0.
Definition demo_port (host : Z) (t : list port_write) : Z :=
  match t with w :: _ => demo_config host w.(pw_data) | [] => 0 end.
Definition demo_pci : pci_state bump := PciState (Store (Bump 4096 ∅) ∅) 0 [] [].

Lemma demo_pci_ok k : (k <= 100)%nat -> store_ok k demo_pci.(pci_store).
Proof.
  intros Hk. unfold store_ok. split_and!; [refine (bool_decide_unpack (bump_inv _) _); by vm_compute| |done|done].
  cbn. unfold bump_room. cbn. lia.
Qed.

(** The same machine by bytes of its configuration space. *)
Definition demo_conf (b d f r : Z) : Z :=
  let space := match b, d, f with
               | 0, 0, 0 => [0x86; 0x80; 0x37; 0x12; 0; 0; 0; 0; 2; 0; 0; 6]
               | 0, 2, 0 => [0x34; 0x12; 0x11; 0x11; 0; 0; 0; 0; 0; 0; 0; 3; 0; 0; 0; 0; 8; 0; 0; 0xE0]
               | _, _, _ => [0xFF; 0xFF]
               end in
  if r <? 0 then 0 else nth (Z.to_nat r) space 0.
Definition demo_decoder (t : list port_write) : Z :=
  match t with w :: _ => decode_config demo_conf w.(pw_data) | [] => 0 end.

Lemma demo_conf_bytes b d f r : 0 <= demo_conf b d f r < 256.
Proof.
  unfold demo_conf. case_match; [lia|].
  assert (Hn : forall n l, Forall (fun x => 0 <= x < 256) l -> 0 <= nth n l 0 < 256).
  { intros n l Hl. revert n. induction Hl; intros [|n]; cbn; try lia. apply IHHl. }
  apply Hn. repeat case_match; repeat constructor; lia.
Qed.

Lemma pci_boot_finds_witness : exists p s',
  (pci_initialise [] [] [] demo_decoder 1 ;;; pci_get_device 0x1234 0x1111) demo_pci = Ret (p, s') /\
  occupied demo_conf = [0; 2] /\ records demo_conf [] [] [] s'.(pci_store).(objs) p 2 /\
  sh_bar0 (recorded_header demo_conf 2) = 0xE0000008.
Proof.
  destruct (wp_inv _ _ _ (pci_boot_finds demo_conf demo_conf_bytes [] [] [] demo_decoder (fun a t _ => eq_refl) 0 0 demo_pci
    0x1234 0x1111 (demo_pci_ok 97 ltac:(lia)) (Forall_nil_2 _) ltac:(by vm_compute))) as (p & s' & Hr & _ & Ha & _).
  exists p, s'. split; [exact Hr|]. split; [by vm_compute|]. split; [|by vm_compute].
  unfold first_with in Ha. change (List.find _ _) with (Some 2) in Ha. apply Ha.
Defined.

Lemma multi_function_host_unscanned_witness : exists s',
  (pci_initialise [] [] [] (demo_port 0x80) 1 ;;; pci_get_device 0x1234 0x1111) demo_pci = Ret (0, s').
Proof.
  destruct (wp_inv _ _ _ (multi_function_host_unscanned [] [] [] (demo_port 0x80) (demo_config 0x80) (fun a t _ => eq_refl)
    1 0 demo_pci 0x1234 0x1111 (demo_pci_ok 1 ltac:(lia)) (Forall_nil_2 _) ltac:(by vm_compute) ltac:(by vm_compute)))
    as (p & s' & Hr & -> & _).
  exists s'. exact Hr.
Defined.
