(* ===== verification/Interrupts.v ===== *)
(** Segments and interrupts: [kernel/memory/gdt.c], [kernel/interrupts/idt.c],
    [isr.c] and [interrupts.c].

    [Gdt] fills the segment table; [Idt] builds the interrupt table, installs
    and dispatches handlers and acknowledges interrupts.  Writes to I/O ports
    are a trace; the assembly entry points are addresses. *)
From stdpp Require Import base numbers gmap list.
From S2P Require Import Prelude Arrays.

Definition KERN_NULL_GATE : Z := 0x00.
Definition KERN_CODE_GATE : Z := 0x08.
Definition KERN_DATA_GATE : Z := 0x10.
Definition USER_CODE_GATE : Z := 0x18.
Definition USER_DATA_GATE : Z := 0x20.
Definition TSS_GATE : Z := 0x28.
Definition GDT_ENTRIES : Z := 6.

Module Gdt.

Record gdt_entry := GdtEntry {
  limit_low : Z; base_low : Z; base_middle : Z; access : Z; granularity : Z; base_high : Z
}.

(** The fields of [tss_t] that [gdt_initialise] and the scheduler set. *)
Record tss := Tss {
  esp0 : Z; ss0 : Z; t_es : Z; t_cs : Z; t_ss : Z; t_ds : Z; t_fs : Z; t_gs : Z; io_map : Z
}.

Record gdt_state := GdtState {
  gdt : list gdt_entry;
  gp_limit : Z;
  tss_table : tss;
  gdt_loaded : bool
}.

Definition SIZEOF_GDT_ENTRY : Z := 8.
Definition SIZEOF_TSS : Z := 104.

(** The descriptor [initialise_gate] writes. *)
Definition gate_entry (bas lim acc grn : Z) : gdt_entry :=
  GdtEntry (Z.land (u16 lim) 0xFFFF) (Z.land (u16 bas) 0xFFFF)
    (Z.land (u8 (Z.shiftr bas 16)) 0xFF) acc
    (Z.lor (Z.land (u8 (Z.shiftr lim 16)) 0x0F) (Z.land grn 0xF0))
    (Z.land (u8 (Z.shiftr bas 24)) 0xFF).

(** The address of the static [tss_table]. *)
Section gdt.
Variable tss_address : Z.

Definition initialise_gate (sel bas lim acc grn : Z) : cmd gdt_state unit :=
  let index := Z.quot sel 8 in
  fun s =>
    match arr_set s.(gdt) index (gate_entry bas lim acc grn) with
    | Some g => Ret (tt, GdtState g s.(gp_limit) s.(tss_table) s.(gdt_loaded))
    | None => Fault
    end.

Definition get_tss : Z := tss_address.

Definition gdt_initialise : cmd gdt_state unit :=
  modify (fun s => GdtState (replicate (Z.to_nat GDT_ENTRIES) (GdtEntry 0 0 0 0 0 0))
                            (SIZEOF_GDT_ENTRY * GDT_ENTRIES - 1) s.(tss_table) s.(gdt_loaded)) ;;;
  initialise_gate KERN_NULL_GATE 0x00000000 0x00000000 0x00 0x00 ;;;
  initialise_gate KERN_CODE_GATE 0x00000000 0xFFFFFFFF 0x9A 0xCF ;;;
  initialise_gate KERN_DATA_GATE 0x00000000 0xFFFFFFFF 0x92 0xCF ;;;
  initialise_gate USER_CODE_GATE 0x00000000 0xFFFFFFFF 0xFA 0xCF ;;;
  initialise_gate USER_DATA_GATE 0x00000000 0xFFFFFFFF 0xF2 0xCF ;;;
  initialise_gate TSS_GATE tss_address SIZEOF_TSS 0x89 0x00 ;;;
  modify (fun s => GdtState s.(gdt) s.(gp_limit)
                     (Tss 0x00 0x10 0x13 0x0b 0x13 0x13 0x13 0x13 SIZEOF_TSS) true).
End gdt.

(** How the processor reads a descriptor. *)
Definition seg_base (e : gdt_entry) : Z :=
  e.(base_low) + e.(base_middle) * 2 ^ 16 + e.(base_high) * 2 ^ 24.
Definition seg_limit (e : gdt_entry) : Z :=
  e.(limit_low) + Z.land e.(granularity) 0x0F * 2 ^ 16.
Definition seg_flags (e : gdt_entry) : Z := Z.shiftr e.(granularity) 4.
Definition seg_dpl (e : gdt_entry) : Z := Z.land (Z.shiftr e.(access) 5) 3.

Lemma gate_entry_base bas lim acc grn : is_u32 bas -> seg_base (gate_entry bas lim acc grn) = bas.
Proof.
  unfold is_u32, seg_base, gate_entry, u8, u16. cbn [base_low base_middle base_high]. intros Hx.
  change 0xFFFF with (Z.ones 16). change 0xFF with (Z.ones 8).
  rewrite !Z.land_ones, !Z.shiftr_div_pow2 by lia. zdm.
Qed.

Lemma gate_entry_limit bas lim acc grn :
  is_u32 lim -> seg_limit (gate_entry bas lim acc grn) = lim mod 2 ^ 20.
Proof.
  unfold is_u32, seg_limit, gate_entry, u8, u16. cbn [limit_low granularity]. intros Hx.
  rewrite Z.land_lor_distr_l, <- !Z.land_assoc.
  change (Z.land 0xF0 0x0F) with 0. change (Z.land 0x0F 0x0F) with (Z.ones 4).
  rewrite Z.land_0_r, Z.lor_0_r. change 0xFFFF with (Z.ones 16).
  rewrite !Z.land_ones, !Z.shiftr_div_pow2 by lia. zdm.
Qed.

#[local] Opaque gate_entry.

(** The six descriptors [gdt_initialise] loads, as the processor reads them:
    selector, base, limit, privilege level. *)
Definition segments (tss_address : Z) : list (Z * Z * Z * Z) :=
  [(KERN_CODE_GATE, 0, 0xFFFFF, 0); (KERN_DATA_GATE, 0, 0xFFFFF, 0);
   (USER_CODE_GATE, 0, 0xFFFFF, 3); (USER_DATA_GATE, 0, 0xFFFFF, 3);
   (TSS_GATE, tss_address, SIZEOF_TSS, 0)].

Definition segment_at (s : gdt_state) (sg : Z * Z * Z * Z) : Prop :=
  let '(sel, base, limit, dpl) := sg in
  exists e, arr_get s.(gdt) (sel / 8) = Some e /\ seg_base e = base /\
    seg_limit e = limit /\ seg_dpl e = dpl.

(** [gdt_initialise] loads flat 4 GiB code and data segments for the kernel
    at privilege level 0 and for processes at level 3, and a task segment whose
    base, split over three fields of the descriptor, is the address of
    [tss_table] and whose kernel stack segment is the kernel data segment. *)
Theorem gdt_initialise_correct tss_address s :
  is_u32 tss_address ->
  wp (gdt_initialise tss_address) (fun _ s' =>
    Forall (segment_at s') (segments tss_address) /\ s'.(tss_table).(ss0) = KERN_DATA_GATE /\
    s'.(gp_limit) = 47 /\ s'.(gdt_loaded) = true) s.
Proof.
  intros Hu.
  assert (H : exists s', gdt_initialise tss_address s = Ret (tt, s') /\
    s'.(gdt) = [gate_entry 0 0 0 0; gate_entry 0 0xFFFFFFFF 0x9A 0xCF; gate_entry 0 0xFFFFFFFF 0x92 0xCF;
                gate_entry 0 0xFFFFFFFF 0xFA 0xCF; gate_entry 0 0xFFFFFFFF 0xF2 0xCF;
                gate_entry tss_address SIZEOF_TSS 0x89 0] /\
    s'.(tss_table).(ss0) = KERN_DATA_GATE /\ s'.(gp_limit) = 47 /\ s'.(gdt_loaded) = true)
    by (eexists; split_and!; reflexivity).
  destruct H as (s' & Hrun & Hg & Htss & Hgp & Hl). eapply wp_Ret; [exact Hrun|].
  split_and!; try assumption. unfold segment_at. rewrite Hg.
  repeat (apply Forall_cons_2; [eexists; split_and!; [reflexivity|by rewrite gate_entry_base
    |by rewrite gate_entry_limit|reflexivity]|]). constructor.
Qed.

Lemma gdt_initialise_correct_witness :
  wp (gdt_initialise 0xC0123456) (fun _ s' =>
    Forall (segment_at s') (segments 0xC0123456) /\ s'.(tss_table).(ss0) = KERN_DATA_GATE /\
    s'.(gp_limit) = 47 /\ s'.(gdt_loaded) = true)
    (GdtState [] 0 (Tss 0 0 0 0 0 0 0 0 0) false).
Proof. apply (gdt_initialise_correct 0xC0123456). by vm_compute. Defined.
End Gdt.

Module Idt.

Definition IDT_ENTRIES : Z := 256.

Record idt_entry := IdtEntry {
  base_lo : Z; selector : Z; reserved_unknown : Z; gate_size : Z;
  privilege : Z; present : Z; base_hi : Z
}.

(** The tables, the interrupt flag, the port trace (oldest write first) and
    the rest of the kernel, [world], which handlers change. *)
Record istate (W : Type) := IState {
  idt : list idt_entry;
  interrupt_vector_catchers : list Z;
  interrupt_handlers : list Z;
  int_flag : bool;
  ports : list (Z * Z);
  idt_limit : Z;
  world : W
}.
Arguments IState {W}.
Arguments idt {W}.
Arguments interrupt_vector_catchers {W}.
Arguments interrupt_handlers {W}.
Arguments int_flag {W}.
Arguments ports {W}.
Arguments idt_limit {W}.
Arguments world {W}.

(** The assembly entry points of [isr_as.asm], the C function pointers that
    handlers are called through, and the interrupt number in a saved frame. *)
Section idt.
Context {W : Type}.
Variables (isr irq : Z -> Z) (isr50 ignore_isr ignore_isr_error ignore_irq_master ignore_irq_slave : Z).
Variable call : Z -> Z -> cmd (istate W) Z.
Variable frame_int_no : W -> Z -> Z.

Definition set_idt (t : list idt_entry) (s : istate W) : istate W :=
  IState t s.(interrupt_vector_catchers) s.(interrupt_handlers) s.(int_flag) s.(ports)
         s.(idt_limit) s.(world).
Definition set_flag (b : bool) : cmd (istate W) unit :=
  modify (fun s => IState s.(idt) s.(interrupt_vector_catchers) s.(interrupt_handlers) b s.(ports)
                          s.(idt_limit) s.(world)).
Definition write_port_8 (port data : Z) : cmd (istate W) unit :=
  modify (fun s => IState s.(idt) s.(interrupt_vector_catchers) s.(interrupt_handlers) s.(int_flag)
                          (s.(ports) ++ [(port, data)]) s.(idt_limit) s.(world)).

(** A command of the rest of the kernel. *)
Definition on_world {B} (c : cmd W B) : cmd (istate W) B :=
  fun s => match c s.(world) with
           | Ret (b, w) => Ret (b, IState s.(idt) s.(interrupt_vector_catchers) s.(interrupt_handlers)
                                          s.(int_flag) s.(ports) s.(idt_limit) w)
           | Fault => Fault
           | Hang => Hang
           end.

Definition enable_interrupts : cmd (istate W) unit := set_flag true.
Definition disable_interrupts : cmd (istate W) unit := set_flag false.

(** The address stored in a gate, as [check_if_vector_installed] puts it together. *)
Definition gate_addr (e : idt_entry) : Z :=
  Z.lxor (Z.land 0xFFFF0000 (u32 (Z.shiftl e.(base_hi) 16))) (Z.land 0x0000FFFF e.(base_lo)).

Definition check_if_vector_installed (int_no : Z) : cmd (istate W) Z :=
  fun s => match arr_get s.(idt) int_no with
           | Some e =>
               let addr := gate_addr e in
               Ret (if (addr =? 0) || (addr =? ignore_isr) || (addr =? ignore_isr_error)
                       || (addr =? ignore_irq_master) || (addr =? ignore_irq_slave)
                    then 0 else 1, s)
           | None => Fault
           end.

(** The gate [set_gate] writes; [size], [privilege] and [present] are bit
    fields of 5, 2 and 1 bits. *)
Definition gate (vector_catcher sel priv present : Z) : idt_entry :=
  IdtEntry (Z.land vector_catcher 0xFFFF) sel 0 0xE (priv mod 2 ^ 2) (present mod 2)
           (Z.shiftr (Z.land vector_catcher 0xFFFF0000) 16).

Definition set_gate (int_no vector_catcher sel priv present : Z) : cmd (istate W) unit :=
  fun s => match arr_set s.(idt) int_no (gate vector_catcher sel priv present) with
           | Some t => Ret (tt, set_idt t s)
           | None => Fault
           end.

Definition install_interrupt_vector (int_no privilege : Z) : cmd (istate W) unit :=
  if (0 <=? int_no) && (int_no <? IDT_ENTRIES) then
    vector_catcher <- bind (gets interrupt_vector_catchers) (fun c => of_option (arr_get c int_no)) ;;
    set_gate int_no vector_catcher KERN_CODE_GATE privilege 0x01
  else ret tt.

Definition uninstall_interrupt_vector (int_no : Z) : cmd (istate W) unit :=
  if (0 <=? int_no) && (int_no <? IDT_ENTRIES) then
    if ((0 <=? int_no) && (int_no <=? 7)) || (int_no =? 9) || ((15 <=? int_no) && (int_no <=? 31)) then
      set_gate int_no ignore_isr KERN_CODE_GATE 0x00 0x01
    else if (int_no =? 8) || ((10 <=? int_no) && (int_no <=? 14)) then
      set_gate int_no ignore_isr_error KERN_CODE_GATE 0x00 0x01
    else if (32 <=? int_no) && (int_no <=? 39) then
      set_gate int_no ignore_irq_master KERN_CODE_GATE 0x00 0x01
    else if (40 <=? int_no) && (int_no <=? 47) then
      set_gate int_no ignore_irq_slave KERN_CODE_GATE 0x00 0x01
    else ret tt
  else ret tt.

Definition set_catcher (n f : Z) : cmd (istate W) unit :=
  fun s => match arr_set s.(interrupt_vector_catchers) n f with
           | Some c => Ret (tt, IState s.(idt) c s.(interrupt_handlers) s.(int_flag) s.(ports)
                                       s.(idt_limit) s.(world))
           | None => Fault
           end.

Definition set_vector_catchers : cmd (istate W) unit :=
  for_ 32 0 (fun n => set_catcher n (isr n)) ;;;
  for_ 16 0 (fun n => set_catcher (32 + n) (irq n)) ;;;
  set_catcher 50 isr50.

Definition idt_initialise : cmd (istate W) unit :=
  set_flag false ;;;
  set_vector_catchers ;;;
  modify (fun s => IState (replicate (Z.to_nat IDT_ENTRIES) (IdtEntry 0 0 0 0 0 0 0))
                          s.(interrupt_vector_catchers) s.(interrupt_handlers) s.(int_flag)
                          s.(ports) (u16 (8 * IDT_ENTRIES - 1)) s.(world)) ;;;
  for_ (Z.to_nat IDT_ENTRIES) 0 uninstall_interrupt_vector ;;;
  for_ 32 0 (fun vector => install_interrupt_vector vector 0x00) ;;;
  write_port_8 0x20 0x11 ;;;
  write_port_8 0xA0 0x11 ;;;
  write_port_8 0x21 0x20 ;;;
  write_port_8 0xA1 0x28 ;;;
  write_port_8 0x21 0x04 ;;;
  write_port_8 0xA1 0x02 ;;;
  write_port_8 0x21 0x01 ;;;
  write_port_8 0xA1 0x01 ;;;
  write_port_8 0x21 0x00 ;;;
  write_port_8 0xA1 0x00 ;;;
  set_flag true.

Definition interrupts_initialise : cmd (istate W) unit := idt_initialise.

Definition register_interrupt_handler (n handler : Z) : cmd (istate W) unit :=
  fun s => match arr_set s.(interrupt_handlers) (u8 n) handler with
           | Some h => Ret (tt, IState s.(idt) s.(interrupt_vector_catchers) h s.(int_flag) s.(ports)
                                       s.(idt_limit) s.(world))
           | None => Fault
           end.

Definition install_interrupt_handler (int_no handler privilege : Z) : cmd (istate W) unit :=
  disable_interrupts ;;;
  installed <- check_if_vector_installed int_no ;;
  (if installed =? 0 then install_interrupt_vector int_no (u8 privilege) else ret tt) ;;;
  register_interrupt_handler int_no handler ;;;
  enable_interrupts.

Definition clear_irq (regs : Z) : cmd (istate W) unit :=
  n <- gets (fun s => frame_int_no s.(world) regs) ;;
  (if (32 <=? n) && (n <=? 47) then write_port_8 0x20 0x20 else ret tt) ;;;
  n <- gets (fun s => frame_int_no s.(world) regs) ;;
  if (40 <=? n) && (n <=? 47) then write_port_8 0xA0 0x20 else ret tt.

Definition isr_handler (regs : Z) : cmd (istate W) Z :=
  n <- gets (fun s => frame_int_no s.(world) regs) ;;
  interrupt_handler_func <- bind (gets interrupt_handlers) (fun h => of_option (arr_get h n)) ;;
  if negb (interrupt_handler_func =? 0) then
    ret_regs <- call interrupt_handler_func regs ;;
    clear_irq ret_regs ;;;
    ret ret_regs
  else
    clear_irq regs ;;;
    ret regs.

(** * The interrupt table *)

Lemma wp_bind_assoc {S A B C} (c : cmd S A) (k : A -> cmd S B) (l : B -> cmd S C) Q s :
  wp (bind c k) (fun b => wp (l b) Q) s -> wp (bind c (fun a => bind (k a) l)) Q s.
Proof.
  unfold wp, bind. destruct (c s) as [[a s']| |]; [|done|done].
  by destruct (k a s') as [[b s'']| |].
Qed.

Lemma gate_addr_gate v sel priv pr : is_u32 v -> gate_addr (gate v sel priv pr) = v.
Proof.
  unfold is_u32, gate_addr, gate. cbn [base_hi base_lo]. intros Hv.
  assert (H1 : Z.shiftr (Z.land v 0xFFFF0000) 16 = v / 2 ^ 16).
  { rewrite Z.shiftr_land. change (Z.shiftr 0xFFFF0000 16) with (Z.ones 16).
    rewrite Z.shiftr_div_pow2, Z.land_ones, Z.mod_small by (try zdm; lia). done. }
  assert (H2 : Z.land 0xFFFF (Z.land v 0xFFFF) = v mod 2 ^ 16).
  { rewrite Z.land_comm, <- Z.land_assoc. change (Z.land 0xFFFF 0xFFFF) with (Z.ones 16).
    by rewrite Z.land_ones. }
  rewrite H1, H2, u32_small by (rewrite Z.shiftl_mul_pow2 by lia; zdm).
  apply Z.bits_inj'. intros i Hi. rewrite Z.lxor_spec, Z.land_spec, Z.shiftl_spec by lia.
  change 0xFFFF0000 with (Z.shiftl (Z.ones 16) 16). rewrite Z.shiftl_spec by lia.
  destruct (Z.lt_ge_cases i 16).
  - rewrite !(Z.testbit_neg_r _ (i - 16)) by lia. cbn. by rewrite Z.mod_pow2_bits_low by lia.
  - rewrite Z.mod_pow2_bits_high by lia. rewrite Z.div_pow2_bits by lia.
    replace (i - 16 + 16) with i by lia. rewrite xorb_false_r. destruct (Z.lt_ge_cases i 32).
    + rewrite Z.ones_spec_low by lia. done.
    + rewrite Z.ones_spec_high by lia. cbn. symmetry.
      rewrite <- (Z.mod_small v (2 ^ 32)) by lia. apply Z.mod_pow2_bits_high. lia.
Qed.

(** The handlers and the trace are not changed by filling tables. *)
Definition tables_only (s s' : istate W) : Prop :=
  s'.(interrupt_handlers) = s.(interrupt_handlers) /\ s'.(int_flag) = s.(int_flag) /\
  s'.(ports) = s.(ports) /\ s'.(idt_limit) = s.(idt_limit) /\ s'.(world) = s.(world).

Lemma tables_only_trans s1 s2 s3 : tables_only s1 s2 -> tables_only s2 s3 -> tables_only s1 s3.
Proof.
  unfold tables_only. intros (-> & -> & -> & -> & ->) (-> & -> & -> & -> & ->). split_and!; reflexivity.
Qed.

Definition catcher_of (n : Z) : Z :=
  if n <? 32 then isr n else if n <? 48 then irq (n - 32) else isr50.

Lemma set_catcher_spec f g n v s :
  array_is IDT_ENTRIES s.(interrupt_vector_catchers) f -> 0 <= n < IDT_ENTRIES -> g n = v ->
  (forall j, j <> n -> g j = f j) ->
  wp (set_catcher n v) (fun _ s' => array_is IDT_ENTRIES s'.(interrupt_vector_catchers) g /\
    s'.(idt) = s.(idt) /\ tables_only s s') s.
Proof.
  intros Hf Hn Hg Ho. destruct (array_set _ _ _ _ _ _ Hf Hn Hg Ho) as (c & Hc & Hc').
  unfold wp, set_catcher. rewrite Hc. done.
Qed.

Lemma set_vector_catchers_spec f s :
  array_is IDT_ENTRIES s.(interrupt_vector_catchers) f ->
  wp set_vector_catchers (fun _ s' =>
    array_is IDT_ENTRIES s'.(interrupt_vector_catchers)
      (fun n => if (n <? 48) || (n =? 50) then catcher_of n else f n) /\
    s'.(idt) = s.(idt) /\ tables_only s s') s.
Proof.
  intros Hf. unfold set_vector_catchers, IDT_ENTRIES in *.
  set (I := fun k s' => array_is 256 s'.(interrupt_vector_catchers)
      (fun n => if n <? k then catcher_of n else f n) /\ s'.(idt) = s.(idt) /\ tables_only s s').
  assert (step : forall k v t, 0 <= k < 48 -> v = catcher_of k -> I k t -> wp (set_catcher k v) (fun _ => I (k + 1)) t).
  { intros k v t Hk -> (Ha & Hi & Ht). eapply wp_mono.
    { apply (set_catcher_spec (fun n => if n <? k then catcher_of n else f n) (fun n => if n <? k + 1 then catcher_of n else f n)); [exact Ha| | |].
      - unfold IDT_ENTRIES. lia.
      - by rewrite (proj2 (Z.ltb_lt k (k + 1))) by lia.
      - intros j Hj. destruct (Z.ltb_spec j (k + 1)), (Z.ltb_spec j k); try done; lia. }
    intros u s' (Ha' & Hi' & Ht'). split_and!; [exact Ha'|by rewrite Hi'|by eapply tables_only_trans]. }
  apply wp_bind. eapply wp_mono.
  { apply (wp_for I _ 32 0 s).
    - split_and!; [|done|done]. eapply array_ext; [exact Hf|]. intros j Hj.
      destruct (Z.ltb_spec j 0); [lia|done].
    - intros j t Hj. apply step; [lia|]. unfold catcher_of. destruct (Z.ltb_spec j 32); [done|lia]. }
  intros u s1 H1. apply wp_bind. eapply wp_mono.
  { apply (wp_for (fun k => I (32 + k)) _ 16 0 s1); [exact H1|]. intros j t Hj Ht.
    replace (32 + (j + 1)) with (32 + j + 1) by lia. apply step; [lia| |done]. unfold catcher_of.
    destruct (Z.ltb_spec (32 + j) 32); [lia|]. destruct (Z.ltb_spec (32 + j) 48); [|lia]. f_equal. lia. }
  intros u2 s2 (Ha & Hi & Ht). change (32 + (0 + Z.of_nat 16)) with 48 in Ha. eapply wp_mono.
  { apply (set_catcher_spec (fun n => if n <? 48 then catcher_of n else f n) (fun n => if (n <? 48) || (n =? 50) then catcher_of n else f n));
      [exact Ha|by vm_compute|done|].
    intros j Hj. rewrite (proj2 (Z.eqb_neq j 50)) by done. by rewrite orb_false_r. }
  intros u3 s3 (Ha' & Hi' & Ht'). split_and!; [exact Ha'|by rewrite Hi'|by eapply tables_only_trans].
Qed.

(** What a vector without a handler points to. *)
Definition disabler_of (n : Z) : option Z :=
  if ((0 <=? n) && (n <=? 7)) || (n =? 9) || ((15 <=? n) && (n <=? 31)) then Some ignore_isr
  else if (n =? 8) || ((10 <=? n) && (n <=? 14)) then Some ignore_isr_error
  else if (32 <=? n) && (n <=? 39) then Some ignore_irq_master
  else if (40 <=? n) && (n <=? 47) then Some ignore_irq_slave
  else None.
Definition disabled_gate (n : Z) (other : idt_entry) : idt_entry :=
  match disabler_of n with Some v => gate v KERN_CODE_GATE 0 1 | None => other end.

Lemma set_gate_spec f g n v sel priv pr s :
  array_is IDT_ENTRIES s.(idt) f -> 0 <= n < IDT_ENTRIES -> g n = gate v sel priv pr ->
  (forall j, j <> n -> g j = f j) ->
  wp (set_gate n v sel priv pr) (fun _ s' => array_is IDT_ENTRIES s'.(idt) g /\
    s'.(interrupt_vector_catchers) = s.(interrupt_vector_catchers) /\ tables_only s s') s.
Proof.
  intros Hf Hn Hg Ho. destruct (array_set _ _ _ _ _ _ Hf Hn Hg Ho) as (c & Hc & Hc').
  unfold wp, set_gate. rewrite Hc. done.
Qed.

Lemma uninstall_alt n :
  0 <= n < IDT_ENTRIES ->
  uninstall_interrupt_vector n =
  match disabler_of n with Some v => set_gate n v KERN_CODE_GATE 0 1 | None => ret tt end.
Proof.
  intros Hn. unfold uninstall_interrupt_vector, disabler_of.
  rewrite (proj2 (Z.leb_le 0 n)), (proj2 (Z.ltb_lt n _)) by lia. cbn [andb].
  repeat (match goal with |- (if ?b then _ else _) = _ => destruct b end; [done|]). done.
Qed.

Lemma uninstall_spec f n s :
  array_is IDT_ENTRIES s.(idt) f -> 0 <= n < IDT_ENTRIES ->
  wp (uninstall_interrupt_vector n) (fun _ s' =>
    array_is IDT_ENTRIES s'.(idt) (fun j => if j =? n then disabled_gate n (f n) else f j) /\
    s'.(interrupt_vector_catchers) = s.(interrupt_vector_catchers) /\ tables_only s s') s.
Proof.
  intros Hf Hn. rewrite uninstall_alt by done. unfold disabled_gate. destruct (disabler_of n) as [v|].
  - eapply set_gate_spec; [exact Hf|done|by rewrite Z.eqb_refl|].
    intros j Hj. by rewrite (proj2 (Z.eqb_neq j n)).
  - apply wp_ret. split_and!; [|done|done]. eapply array_ext; [exact Hf|].
    intros j _. by destruct (Z.eqb_spec j n) as [->|].
Qed.

Lemma install_vector_spec c f n priv s :
  array_is IDT_ENTRIES s.(interrupt_vector_catchers) c ->
  array_is IDT_ENTRIES s.(idt) f -> 0 <= n < IDT_ENTRIES ->
  wp (install_interrupt_vector n priv) (fun _ s' =>
    array_is IDT_ENTRIES s'.(idt) (fun j => if j =? n then gate (c n) KERN_CODE_GATE priv 1 else f j) /\
    s'.(interrupt_vector_catchers) = s.(interrupt_vector_catchers) /\ tables_only s s') s.
Proof.
  intros [_ Hc] Hf Hn. unfold install_interrupt_vector.
  rewrite (proj2 (Z.leb_le 0 n)), (proj2 (Z.ltb_lt n _)) by lia. cbn [andb].
  apply wp_bind, wp_bind, wp_gets. rewrite (Hc n Hn). apply wp_ret.
  eapply set_gate_spec; [exact Hf|done|by rewrite Z.eqb_refl|].
  intros j Hj. by rewrite (proj2 (Z.eqb_neq j n)).
Qed.

(** The gate of vector [n] after initialisation. *)
Definition boot_gate (n : Z) : idt_entry :=
  if n <? 32 then gate (isr n) KERN_CODE_GATE 0 1
  else disabled_gate n (IdtEntry 0 0 0 0 0 0 0).

(** The words that move the interrupt controllers to vectors 32 and 40. *)
Definition pic_remap : list (Z * Z) :=
  [(0x20, 0x11); (0xA0, 0x11); (0x21, 0x20); (0xA1, 0x28); (0x21, 0x04); (0xA1, 0x02);
   (0x21, 0x01); (0xA1, 0x01); (0x21, 0x00); (0xA1, 0x00)].

Lemma fill_idt_spec c s :
  array_is IDT_ENTRIES s.(interrupt_vector_catchers) c ->
  (forall n, 0 <= n < 32 -> c n = isr n) ->
  array_is IDT_ENTRIES s.(idt) (fun _ => IdtEntry 0 0 0 0 0 0 0) ->
  wp (for_ (Z.to_nat IDT_ENTRIES) 0 uninstall_interrupt_vector ;;;
      for_ 32 0 (fun vector => install_interrupt_vector vector 0x00)) (fun _ s' =>
    array_is IDT_ENTRIES s'.(idt) boot_gate /\
    s'.(interrupt_vector_catchers) = s.(interrupt_vector_catchers) /\ tables_only s s') s.
Proof.
  intros Hc Hisr Hz. set (Z0 := IdtEntry 0 0 0 0 0 0 0) in *.
  set (keep := fun s' => s'.(interrupt_vector_catchers) = s.(interrupt_vector_catchers) /\ tables_only s s').
  assert (trans : forall t t', keep t -> t'.(interrupt_vector_catchers) = t.(interrupt_vector_catchers) ->
    tables_only t t' -> keep t').
  { intros t t' [Hk1 Hk2] Hc' Ht'. split; [by rewrite Hc'|by eapply tables_only_trans]. }
  apply wp_bind. eapply wp_mono.
  { apply (wp_for (fun k s' => array_is IDT_ENTRIES s'.(idt) (fun n => if n <? k then disabled_gate n Z0 else Z0)
      /\ keep s')).
    - split; [|done]. eapply array_ext; [exact Hz|]. intros j Hj. cbn beta. destruct (Z.ltb_spec j 0); [lia|done].
    - intros k t Hk (Ha & Hkeep). eapply wp_mono; [apply uninstall_spec; [exact Ha|unfold IDT_ENTRIES in *; lia]|].
      intros u t' (Ha' & Hcat & Ht). split; [|by eapply trans]. eapply array_ext; [exact Ha'|]. intros j _.
      cbn beta. destruct (Z.eqb_spec j k) as [->|]; [rewrite Z.ltb_irrefl, (proj2 (Z.ltb_lt k (k + 1))) by lia; done|].
      destruct (Z.ltb_spec j k), (Z.ltb_spec j (k + 1)); try lia; done. }
  intros u s1 (Ha1 & Hk1). eapply wp_mono.
  { apply (wp_for (fun k s' => array_is IDT_ENTRIES s'.(idt)
        (fun n => if n <? k then gate (isr n) KERN_CODE_GATE 0 1 else disabled_gate n Z0) /\ keep s')).
    - split; [|done]. eapply array_ext; [exact Ha1|]. intros j Hj. cbn beta. unfold IDT_ENTRIES in *.
      destruct (Z.ltb_spec j 0), (Z.ltb_spec j (0 + Z.of_nat (Z.to_nat 256))); try lia; done.
    - intros k t Hk (Ha & Hkeep). eapply wp_mono.
      { apply (install_vector_spec c); [by destruct Hkeep as [-> _]|exact Ha|unfold IDT_ENTRIES; lia]. }
      intros u' t' (Ha' & Hcat & Ht). split; [|by eapply trans]. eapply array_ext; [exact Ha'|]. intros j _.
      cbn beta. destruct (Z.eqb_spec j k) as [->|].
      + rewrite Hisr, (proj2 (Z.ltb_lt k (k + 1))) by lia. done.
      + destruct (Z.ltb_spec j k), (Z.ltb_spec j (k + 1)); try lia; done. }
  intros u2 s2 (Ha2 & Hk2). split; [exact Ha2|exact Hk2].
Qed.

Definition add_ports (s : istate W) (ps : list (Z * Z)) : istate W :=
  IState s.(idt) s.(interrupt_vector_catchers) s.(interrupt_handlers) s.(int_flag)
         (s.(ports) ++ ps) s.(idt_limit) s.(world).

Lemma add_ports_app s ps qs : add_ports (add_ports s ps) qs = add_ports s (ps ++ qs).
Proof. unfold add_ports. cbn. by rewrite <- app_assoc. Qed.

Lemma wp_port {A} p d (k : cmd (istate W) A) Q s :
  wp k Q (add_ports s [(p, d)]) -> wp (write_port_8 p d ;;; k) Q s.
Proof. done. Qed.

(** [idt_initialise] leaves a complete table, whatever was in it: the 32
    processor exceptions go to their own entry points, the 16 hardware
    interrupts to stubs that acknowledge the right controller, every other
    vector is absent; the controllers are remapped to vectors 32 to 47, and
    interrupts are on. *)
Theorem idt_initialise_correct c s :
  array_is IDT_ENTRIES s.(interrupt_vector_catchers) c ->
  wp idt_initialise (fun _ s' =>
    array_is IDT_ENTRIES s'.(idt) boot_gate /\
    array_is IDT_ENTRIES s'.(interrupt_vector_catchers)
      (fun n => if (n <? 48) || (n =? 50) then catcher_of n else c n) /\
    s'.(interrupt_handlers) = s.(interrupt_handlers) /\
    s'.(ports) = s.(ports) ++ pic_remap /\ s'.(int_flag) = true /\ s'.(idt_limit) = 2047) s.
Proof.
  intros Hc. unfold idt_initialise. apply wp_bind, wp_modify, wp_bind.
  eapply wp_mono; [by apply (set_vector_catchers_spec c)|].
  intros u s1 (Hc1 & _ & Hh1 & Hf1 & Hp1 & Hl1 & Hw1). apply wp_bind, wp_modify.
  set (s2 := IState _ _ _ _ _ _ _).
  assert (Hfill := fill_idt_spec _ s2 Hc1).
  refine (wp_bind_assoc _ (fun _ => for_ 32 0 (fun vector => install_interrupt_vector vector 0x00)) _ _ _ _).
  eapply wp_mono.
  { apply Hfill.
    - intros n Hn. unfold catcher_of. by rewrite !(proj2 (Z.ltb_lt n _)) by lia.
    - apply array_replicate. by vm_compute. }
  intros u' s3 (Ha3 & Hc3 & Hh3 & _ & Hp3 & Hl3 & _).
  repeat apply wp_port. apply wp_modify. rewrite !add_ports_app.
  cbn [idt interrupt_vector_catchers interrupt_handlers int_flag ports idt_limit world add_ports app].
  rewrite Hc3, Hh3, Hp3, Hl3. subst s2. cbn [ports interrupt_handlers interrupt_vector_catchers idt_limit].
  rewrite Hh1, Hp1. split_and!; [exact Ha3|exact Hc1|reflexivity..].
Qed.

(** Is a handler gate already there? *)
Definition vacant (e : idt_entry) : bool :=
  (gate_addr e =? 0) || (gate_addr e =? ignore_isr) || (gate_addr e =? ignore_isr_error)
  || (gate_addr e =? ignore_irq_master) || (gate_addr e =? ignore_irq_slave).

Lemma install_handler_spec c f h n handler priv s :
  array_is IDT_ENTRIES s.(interrupt_vector_catchers) c -> array_is IDT_ENTRIES s.(idt) f ->
  array_is IDT_ENTRIES s.(interrupt_handlers) h -> 0 <= n < IDT_ENTRIES ->
  wp (install_interrupt_handler n handler priv) (fun _ s' =>
    array_is IDT_ENTRIES s'.(interrupt_handlers) (fun j => if j =? n then handler else h j) /\
    array_is IDT_ENTRIES s'.(idt)
      (fun j => if (j =? n) && vacant (f n) then gate (c n) KERN_CODE_GATE (u8 priv) 1 else f j) /\
    s'.(int_flag) = true /\ s'.(ports) = s.(ports) /\ s'.(world) = s.(world)) s.
Proof.
  intros Hc Hf Hh Hn. unfold install_interrupt_handler. apply wp_bind, wp_modify, wp_bind.
  unfold wp at 1, check_if_vector_installed. cbn [idt]. rewrite (proj2 Hf n Hn).
  fold (vacant (f n)). apply wp_bind. set (s1 := IState _ _ _ _ _ _ _).
  eapply (wp_mono _ (fun _ s' => array_is IDT_ENTRIES s'.(idt)
      (fun j => if (j =? n) && vacant (f n) then gate (c n) KERN_CODE_GATE (u8 priv) 1 else f j) /\
      tables_only s1 s')).
  { destruct (vacant (f n)); cbn [Z.eqb].
    - eapply wp_mono; [apply (install_vector_spec c f); [exact Hc|exact Hf|done]|].
      intros u s' (Ha & _ & Ht). split; [|done]. eapply array_ext; [exact Ha|].
      intros j _. by rewrite andb_true_r.
    - apply wp_ret. split; [|done]. eapply array_ext; [exact Hf|]. intros j _. by rewrite andb_false_r. }
  intros u s2 (Ha & Hh2 & _ & Hp2 & _ & Hw2). apply wp_bind. unfold wp at 1, register_interrupt_handler.
  rewrite u8_small by (unfold IDT_ENTRIES in *; lia). rewrite Hh2.
  change (interrupt_handlers s1) with (interrupt_handlers s).
  destruct (array_set _ _ _ (fun j => if j =? n then handler else h j) n handler Hh Hn) as (h' & -> & Hh').
  { by rewrite Z.eqb_refl. }
  { intros j Hj. by rewrite (proj2 (Z.eqb_neq j n)). }
  apply wp_modify. cbn. by rewrite Hp2, Hw2.
Qed.

(** [install_interrupt_handler] for any vector number registers the handler
    there and nowhere else; a vacant gate is made to point to the vector's entry
    point with the requested privilege level, an occupied one keeps its gate,
    and no other gate changes. *)
Theorem install_interrupt_handler_correct c f h n handler priv s :
  array_is IDT_ENTRIES s.(interrupt_vector_catchers) c -> array_is IDT_ENTRIES s.(idt) f ->
  array_is IDT_ENTRIES s.(interrupt_handlers) h -> 0 <= n < IDT_ENTRIES ->
  wp (install_interrupt_handler n handler priv) (fun _ s' =>
    array_is IDT_ENTRIES s'.(interrupt_handlers) (fun j => if j =? n then handler else h j) /\
    array_is IDT_ENTRIES s'.(idt)
      (fun j => if (j =? n) && vacant (f n) then gate (c n) KERN_CODE_GATE (u8 priv) 1 else f j) /\
    s'.(int_flag) = true /\ s'.(ports) = s.(ports) /\ s'.(world) = s.(world)) s.
Proof. apply install_handler_spec. Qed.

(** The acknowledgements owed for interrupt [n]. *)
Definition eoi (n : Z) : list (Z * Z) :=
  (if (32 <=? n) && (n <=? 47) then [(0x20, 0x20)] else []) ++
  (if (40 <=? n) && (n <=? 47) then [(0xA0, 0x20)] else []).

Lemma clear_irq_eoi regs s : clear_irq regs s = Ret (tt, add_ports s (eoi (frame_int_no s.(world) regs))).
Proof.
  unfold clear_irq, bind, gets, eoi. set (n := frame_int_no _ _).
  destruct ((32 <=? n) && (n <=? 47)) eqn:H1; cbn [write_port_8 modify ret world ports];
    unfold write_port_8, modify, ret; cbn [world]; fold n;
    (destruct ((40 <=? n) && (n <=? 47)) eqn:H2; unfold add_ports; cbn; rewrite ?app_nil_r, <- ?app_assoc; [done|]);
    by destruct s.
Qed.

(** Dispatch: an interrupt without a handler is acknowledged at the
    controllers that raised it and resumes the interrupted frame; one with a
    handler resumes the frame the handler returns, and what is acknowledged is
    the interrupt number stored in that frame. *)
Theorem isr_handler_correct h regs s r s1 :
  0 <= frame_int_no s.(world) regs < 256 -> array_is 256 s.(interrupt_handlers) h ->
  call (h (frame_int_no s.(world) regs)) regs s = Ret (r, s1) ->
  isr_handler regs s =
  if h (frame_int_no s.(world) regs) =? 0
  then Ret (regs, add_ports s (eoi (frame_int_no s.(world) regs)))
  else Ret (r, add_ports s1 (eoi (frame_int_no s1.(world) r))).
Proof.
  intros Hn [_ Hh] Hcall. unfold isr_handler, bind, gets. rewrite (Hh _ Hn). cbn [of_option ret].
  destruct (h _ =? 0) eqn:H0; cbn [negb].
  - by rewrite clear_irq_eoi.
  - rewrite Hcall, clear_irq_eoi. done.
Qed.

(** A timer interrupt that switches to a process that last entered the
    kernel through the system-call gate is not acknowledged: the frame returned
    carries number 50, so no end-of-interrupt is written to any port. *)
Theorem switch_loses_eoi h regs s r s1 :
  array_is 256 s.(interrupt_handlers) h -> h 32 <> 0 ->
  frame_int_no s.(world) regs = 32 -> call (h 32) regs s = Ret (r, s1) ->
  frame_int_no s1.(world) r = 50 -> s1.(ports) = s.(ports) ->
  exists s2, isr_handler regs s = Ret (r, s2) /\ s2.(ports) = s.(ports).
Proof.
  intros [_ Hh] H0 Hn Hcall Hr Hp. unfold isr_handler, bind, gets. rewrite Hn, (Hh 32) by lia.
  cbn [of_option ret]. rewrite (proj2 (Z.eqb_neq _ 0)) by done. cbn [negb].
  rewrite Hcall, clear_irq_eoi, Hr. eexists. split; [done|]. cbn. by rewrite app_nil_r.
Qed.

End idt.

(** ** A small machine

    Entry points at 1000 + n; the interrupt number of a frame is its address;
    handler 7 switches to frame 50. *)
Definition demo_call (f regs : Z) : cmd (istate unit) Z := ret (if f =? 7 then 50 else regs).
Definition demo_frame (_ : unit) (regs : Z) : Z := regs.
Definition demo_idt : istate unit :=
  IState (replicate 256 (IdtEntry 0 0 0 0 0 0 0)) (replicate 256 0) (<[32%nat := 7]> (replicate 256 0))
         false [] 0 tt.

Definition demo_vacant : idt_entry -> bool := vacant 1 2 3 4.

Lemma demo_handlers : array_is 256 demo_idt.(interrupt_handlers) (fun n => if n =? 32 then 7 else 0).
Proof.
  destruct (array_set 256 (replicate 256 0) (fun _ => 0) (fun n => if n =? 32 then 7 else 0) 32 7)
    as (a & Ha & Ha'); [by apply (array_replicate 256)|lia|done| |].
  - intros j Hj. by rewrite (proj2 (Z.eqb_neq j 32)).
  - rewrite arr_set_Some in Ha by (rewrite length_replicate; lia). by injection Ha as <-.
Qed.

Lemma idt_initialise_correct_witness :
  wp (idt_initialise (fun n => 1000 + n) (fun n => 2000 + n) 3000 1 2 3 4) (fun _ s' =>
    array_is 256 s'.(idt) (boot_gate (fun n => 1000 + n) 1 2 3 4) /\
    array_is 256 s'.(interrupt_vector_catchers) (fun n => if (n <? 48) || (n =? 50)
      then catcher_of (fun n => 1000 + n) (fun n => 2000 + n) 3000 n else 0) /\
    s'.(interrupt_handlers) = demo_idt.(interrupt_handlers) /\
    s'.(ports) = [] ++ pic_remap /\ s'.(int_flag) = true /\ s'.(idt_limit) = 2047) demo_idt.
Proof. apply (idt_initialise_correct _ _ _ _ _ _ _ (fun _ => 0)). by apply (array_replicate 256). Defined.

Lemma install_interrupt_handler_correct_witness :
  wp (install_interrupt_handler 1 2 3 4 50 99 3) (fun _ s' =>
    array_is 256 s'.(interrupt_handlers)
      (fun j => if j =? 50 then 99 else if j =? 32 then 7 else 0) /\
    array_is 256 s'.(idt) (fun j => if (j =? 50) && demo_vacant (IdtEntry 0 0 0 0 0 0 0)
      then gate 0 KERN_CODE_GATE (u8 3) 1 else IdtEntry 0 0 0 0 0 0 0) /\
    s'.(int_flag) = true /\ s'.(ports) = [] /\ s'.(world) = tt) demo_idt.
Proof.
  apply (install_interrupt_handler_correct 1 2 3 4 (fun _ => 0) (fun _ => IdtEntry 0 0 0 0 0 0 0)
    (fun n => if n =? 32 then 7 else 0)); [by apply (array_replicate 256)|by apply (array_replicate 256)
    |exact demo_handlers|unfold IDT_ENTRIES; lia].
Defined.

Lemma isr_handler_correct_witness :
  isr_handler demo_call demo_frame 45 demo_idt =
  Ret (45, add_ports demo_idt [(0x20, 0x20); (0xA0, 0x20)]).
Proof.
  apply (isr_handler_correct demo_call demo_frame (fun n => if n =? 32 then 7 else 0) 45 demo_idt 45 demo_idt);
    [unfold demo_frame; lia|exact demo_handlers|reflexivity].
Defined.

Lemma switch_loses_eoi_witness :
  exists s2, isr_handler demo_call demo_frame 32 demo_idt = Ret (50, s2) /\ s2.(ports) = [].
Proof.
  apply (switch_loses_eoi demo_call demo_frame (fun n => if n =? 32 then 7 else 0) 32 demo_idt 50 demo_idt);
    [exact demo_handlers|done|done|done|done|done].
Defined.
End Idt.
