(* ===== verification/KState.v ===== *)
(** The kernel state above the heap: what [process.c], [scheduler.c], [pit.c] and
    [fpu.c] keep in globals and in heap objects, and how their code reaches the
    heap, paging and saved register frames.

    Process structures, timers, queues, lists and the process tree are objects
    of the kernel heap ([Store]).  Saved register frames live on kernel stacks
    and are found by address in [kregs]. *)
From stdpp Require Import base numbers gmap list.
From S2P Require Import Prelude Allocator Paging Store LinkedList.

(** What the scheduler relies on below the heap: paging commands can be run on
    the allocator's state, and switching to one of the directories [dirs] keeps
    the allocator working. *)
Class Paged (A : Type) `{Allocator A} := {
  on_paging : forall {B}, cmd pstate B -> cmd A B;
  cur_dir : A -> Z;
  dirs : gset Z;
  on_swap_ok : forall d k s, d ∈ dirs -> a_inv s -> a_room k s ->
    wp (on_paging (swap_page_directory d)) (fun _ s' =>
      a_inv s' /\ a_room k s' /\ a_extent s' = a_extent s /\ cur_dir s' = d) s
}.

(** [registers_t] *)
Record registers := Regs {
  r_ds : Z; r_es : Z; r_fs : Z; r_gs : Z; r_edi : Z; r_esi : Z; r_ebp : Z; r_esp : Z;
  r_ebx : Z; r_edx : Z; r_ecx : Z; r_eax : Z; r_int_no : Z; r_err_code : Z;
  r_eip : Z; r_cs : Z; r_eflags : Z; r_useresp : Z; r_ss : Z
}.

(** The globals of [process.c], [scheduler.c] and [pit.c], the task segment's
    kernel stack, and the floating-point unit with the buffer [state] of [fpu.c]. *)
Record kstate (A : Type) := KState {
  kstore : store A;
  kregs : gmap Z registers;
  process_tree : Z;
  proc_pid : Z;
  kern_proc_stack : Z;
  current_process : Z;
  ready_queue : Z;
  dead_queue : Z;
  napping_list : Z;
  kernel_process : Z;
  sched_routine_id : Z;
  sched_timekeeper_routine_id : Z;
  pit_ticks : Z;
  routine_id : Z;
  routines : Z;
  tss_esp0 : Z;
  tss_ss0 : Z;
  fpu_unit : list Z;
  fpu_state : list Z
}.
Arguments KState {A}.
Arguments kstore {A}.
Arguments kregs {A}.
Arguments process_tree {A}.
Arguments proc_pid {A}.
Arguments kern_proc_stack {A}.
Arguments current_process {A}.
Arguments ready_queue {A}.
Arguments dead_queue {A}.
Arguments napping_list {A}.
Arguments kernel_process {A}.
Arguments sched_routine_id {A}.
Arguments sched_timekeeper_routine_id {A}.
Arguments pit_ticks {A}.
Arguments routine_id {A}.
Arguments routines {A}.
Arguments tss_esp0 {A}.
Arguments tss_ss0 {A}.
Arguments fpu_unit {A}.
Arguments fpu_state {A}.

Definition set_kstore {A} (v : store A) (s : kstate A) : kstate A :=
  KState v s.(kregs) s.(process_tree) s.(proc_pid) s.(kern_proc_stack) s.(current_process)
         s.(ready_queue) s.(dead_queue) s.(napping_list) s.(kernel_process)
         s.(sched_routine_id) s.(sched_timekeeper_routine_id) s.(pit_ticks) s.(routine_id)
         s.(routines) s.(tss_esp0) s.(tss_ss0) s.(fpu_unit) s.(fpu_state).
Definition set_kregs {A} (v : gmap Z registers) (s : kstate A) : kstate A :=
  KState s.(kstore) v s.(process_tree) s.(proc_pid) s.(kern_proc_stack) s.(current_process)
         s.(ready_queue) s.(dead_queue) s.(napping_list) s.(kernel_process)
         s.(sched_routine_id) s.(sched_timekeeper_routine_id) s.(pit_ticks) s.(routine_id)
         s.(routines) s.(tss_esp0) s.(tss_ss0) s.(fpu_unit) s.(fpu_state).
Definition set_process_tree {A} (v : Z) (s : kstate A) : kstate A :=
  KState s.(kstore) s.(kregs) v s.(proc_pid) s.(kern_proc_stack) s.(current_process)
         s.(ready_queue) s.(dead_queue) s.(napping_list) s.(kernel_process)
         s.(sched_routine_id) s.(sched_timekeeper_routine_id) s.(pit_ticks) s.(routine_id)
         s.(routines) s.(tss_esp0) s.(tss_ss0) s.(fpu_unit) s.(fpu_state).
Definition set_proc_pid {A} (v : Z) (s : kstate A) : kstate A :=
  KState s.(kstore) s.(kregs) s.(process_tree) v s.(kern_proc_stack) s.(current_process)
         s.(ready_queue) s.(dead_queue) s.(napping_list) s.(kernel_process)
         s.(sched_routine_id) s.(sched_timekeeper_routine_id) s.(pit_ticks) s.(routine_id)
         s.(routines) s.(tss_esp0) s.(tss_ss0) s.(fpu_unit) s.(fpu_state).
Definition set_current {A} (v : Z) (s : kstate A) : kstate A :=
  KState s.(kstore) s.(kregs) s.(process_tree) s.(proc_pid) s.(kern_proc_stack) v
         s.(ready_queue) s.(dead_queue) s.(napping_list) s.(kernel_process)
         s.(sched_routine_id) s.(sched_timekeeper_routine_id) s.(pit_ticks) s.(routine_id)
         s.(routines) s.(tss_esp0) s.(tss_ss0) s.(fpu_unit) s.(fpu_state).
Definition set_ready_queue {A} (v : Z) (s : kstate A) : kstate A :=
  KState s.(kstore) s.(kregs) s.(process_tree) s.(proc_pid) s.(kern_proc_stack)
         s.(current_process) v s.(dead_queue) s.(napping_list) s.(kernel_process)
         s.(sched_routine_id) s.(sched_timekeeper_routine_id) s.(pit_ticks) s.(routine_id)
         s.(routines) s.(tss_esp0) s.(tss_ss0) s.(fpu_unit) s.(fpu_state).
Definition set_dead_queue {A} (v : Z) (s : kstate A) : kstate A :=
  KState s.(kstore) s.(kregs) s.(process_tree) s.(proc_pid) s.(kern_proc_stack)
         s.(current_process) s.(ready_queue) v s.(napping_list) s.(kernel_process)
         s.(sched_routine_id) s.(sched_timekeeper_routine_id) s.(pit_ticks) s.(routine_id)
         s.(routines) s.(tss_esp0) s.(tss_ss0) s.(fpu_unit) s.(fpu_state).
Definition set_napping {A} (v : Z) (s : kstate A) : kstate A :=
  KState s.(kstore) s.(kregs) s.(process_tree) s.(proc_pid) s.(kern_proc_stack)
         s.(current_process) s.(ready_queue) s.(dead_queue) v s.(kernel_process)
         s.(sched_routine_id) s.(sched_timekeeper_routine_id) s.(pit_ticks) s.(routine_id)
         s.(routines) s.(tss_esp0) s.(tss_ss0) s.(fpu_unit) s.(fpu_state).
Definition set_kernel_process {A} (v : Z) (s : kstate A) : kstate A :=
  KState s.(kstore) s.(kregs) s.(process_tree) s.(proc_pid) s.(kern_proc_stack)
         s.(current_process) s.(ready_queue) s.(dead_queue) s.(napping_list) v
         s.(sched_routine_id) s.(sched_timekeeper_routine_id) s.(pit_ticks) s.(routine_id)
         s.(routines) s.(tss_esp0) s.(tss_ss0) s.(fpu_unit) s.(fpu_state).
Definition set_sched_routines {A} (v w : Z) (s : kstate A) : kstate A :=
  KState s.(kstore) s.(kregs) s.(process_tree) s.(proc_pid) s.(kern_proc_stack)
         s.(current_process) s.(ready_queue) s.(dead_queue) s.(napping_list)
         s.(kernel_process) v w s.(pit_ticks) s.(routine_id) s.(routines) s.(tss_esp0)
         s.(tss_ss0) s.(fpu_unit) s.(fpu_state).
Definition set_pit_ticks {A} (v : Z) (s : kstate A) : kstate A :=
  KState s.(kstore) s.(kregs) s.(process_tree) s.(proc_pid) s.(kern_proc_stack)
         s.(current_process) s.(ready_queue) s.(dead_queue) s.(napping_list)
         s.(kernel_process) s.(sched_routine_id) s.(sched_timekeeper_routine_id) v
         s.(routine_id) s.(routines) s.(tss_esp0) s.(tss_ss0) s.(fpu_unit) s.(fpu_state).
Definition set_routine_id {A} (v : Z) (s : kstate A) : kstate A :=
  KState s.(kstore) s.(kregs) s.(process_tree) s.(proc_pid) s.(kern_proc_stack)
         s.(current_process) s.(ready_queue) s.(dead_queue) s.(napping_list)
         s.(kernel_process) s.(sched_routine_id) s.(sched_timekeeper_routine_id)
         s.(pit_ticks) v s.(routines) s.(tss_esp0) s.(tss_ss0) s.(fpu_unit) s.(fpu_state).
Definition set_routines {A} (v : Z) (s : kstate A) : kstate A :=
  KState s.(kstore) s.(kregs) s.(process_tree) s.(proc_pid) s.(kern_proc_stack)
         s.(current_process) s.(ready_queue) s.(dead_queue) s.(napping_list)
         s.(kernel_process) s.(sched_routine_id) s.(sched_timekeeper_routine_id)
         s.(pit_ticks) s.(routine_id) v s.(tss_esp0) s.(tss_ss0) s.(fpu_unit) s.(fpu_state).
Definition set_tss {A} (esp0 ss0 : Z) (s : kstate A) : kstate A :=
  KState s.(kstore) s.(kregs) s.(process_tree) s.(proc_pid) s.(kern_proc_stack)
         s.(current_process) s.(ready_queue) s.(dead_queue) s.(napping_list)
         s.(kernel_process) s.(sched_routine_id) s.(sched_timekeeper_routine_id)
         s.(pit_ticks) s.(routine_id) s.(routines) esp0 ss0 s.(fpu_unit) s.(fpu_state).
Definition set_fpu {A} (unit state : list Z) (s : kstate A) : kstate A :=
  KState s.(kstore) s.(kregs) s.(process_tree) s.(proc_pid) s.(kern_proc_stack)
         s.(current_process) s.(ready_queue) s.(dead_queue) s.(napping_list)
         s.(kernel_process) s.(sched_routine_id) s.(sched_timekeeper_routine_id)
         s.(pit_ticks) s.(routine_id) s.(routines) s.(tss_esp0) s.(tss_ss0) unit state.

(** Field assignments of [proc_t]; a fresh one is zeroed. *)
Definition zero_proc : proc :=
  Proc 0 0 0 0 0 (replicate 512 0) 0 0 [] [] 0 0 0 0 0 0 0 0 0.
Definition set_proc_regs (v : Z) (p : proc) : proc :=
  Proc v p.(cpl) p.(proc_pdir) p.(sys_stack) p.(proc_tss) p.(fpu_regs) p.(heap_start)
       p.(heap_end) p.(p_name) p.(p_details) p.(pid) p.(p_state) p.(p_type)
       p.(proc_ustack_phys) p.(proc_ustack_pages) p.(waiters) p.(p_nodes) p.(p_parent)
       p.(where_am_i).
Definition set_cpl (v : Z) (p : proc) : proc :=
  Proc p.(proc_regs) v p.(proc_pdir) p.(sys_stack) p.(proc_tss) p.(fpu_regs) p.(heap_start)
       p.(heap_end) p.(p_name) p.(p_details) p.(pid) p.(p_state) p.(p_type)
       p.(proc_ustack_phys) p.(proc_ustack_pages) p.(waiters) p.(p_nodes) p.(p_parent)
       p.(where_am_i).
Definition set_proc_pdir (v : Z) (p : proc) : proc :=
  Proc p.(proc_regs) p.(cpl) v p.(sys_stack) p.(proc_tss) p.(fpu_regs) p.(heap_start)
       p.(heap_end) p.(p_name) p.(p_details) p.(pid) p.(p_state) p.(p_type)
       p.(proc_ustack_phys) p.(proc_ustack_pages) p.(waiters) p.(p_nodes) p.(p_parent)
       p.(where_am_i).
Definition set_sys_stack (v : Z) (p : proc) : proc :=
  Proc p.(proc_regs) p.(cpl) p.(proc_pdir) v p.(proc_tss) p.(fpu_regs) p.(heap_start)
       p.(heap_end) p.(p_name) p.(p_details) p.(pid) p.(p_state) p.(p_type)
       p.(proc_ustack_phys) p.(proc_ustack_pages) p.(waiters) p.(p_nodes) p.(p_parent)
       p.(where_am_i).
Definition set_proc_tss (v : Z) (p : proc) : proc :=
  Proc p.(proc_regs) p.(cpl) p.(proc_pdir) p.(sys_stack) v p.(fpu_regs) p.(heap_start)
       p.(heap_end) p.(p_name) p.(p_details) p.(pid) p.(p_state) p.(p_type)
       p.(proc_ustack_phys) p.(proc_ustack_pages) p.(waiters) p.(p_nodes) p.(p_parent)
       p.(where_am_i).
Definition set_fpu_regs (v : list Z) (p : proc) : proc :=
  Proc p.(proc_regs) p.(cpl) p.(proc_pdir) p.(sys_stack) p.(proc_tss) v p.(heap_start)
       p.(heap_end) p.(p_name) p.(p_details) p.(pid) p.(p_state) p.(p_type)
       p.(proc_ustack_phys) p.(proc_ustack_pages) p.(waiters) p.(p_nodes) p.(p_parent)
       p.(where_am_i).
Definition set_heap_start (v : Z) (p : proc) : proc :=
  Proc p.(proc_regs) p.(cpl) p.(proc_pdir) p.(sys_stack) p.(proc_tss) p.(fpu_regs) v
       p.(heap_end) p.(p_name) p.(p_details) p.(pid) p.(p_state) p.(p_type)
       p.(proc_ustack_phys) p.(proc_ustack_pages) p.(waiters) p.(p_nodes) p.(p_parent)
       p.(where_am_i).
Definition set_heap_end (v : Z) (p : proc) : proc :=
  Proc p.(proc_regs) p.(cpl) p.(proc_pdir) p.(sys_stack) p.(proc_tss) p.(fpu_regs)
       p.(heap_start) v p.(p_name) p.(p_details) p.(pid) p.(p_state) p.(p_type)
       p.(proc_ustack_phys) p.(proc_ustack_pages) p.(waiters) p.(p_nodes) p.(p_parent)
       p.(where_am_i).
Definition set_p_name (v : list Z) (p : proc) : proc :=
  Proc p.(proc_regs) p.(cpl) p.(proc_pdir) p.(sys_stack) p.(proc_tss) p.(fpu_regs)
       p.(heap_start) p.(heap_end) v p.(p_details) p.(pid) p.(p_state) p.(p_type)
       p.(proc_ustack_phys) p.(proc_ustack_pages) p.(waiters) p.(p_nodes) p.(p_parent)
       p.(where_am_i).
Definition set_p_details (v : list Z) (p : proc) : proc :=
  Proc p.(proc_regs) p.(cpl) p.(proc_pdir) p.(sys_stack) p.(proc_tss) p.(fpu_regs)
       p.(heap_start) p.(heap_end) p.(p_name) v p.(pid) p.(p_state) p.(p_type)
       p.(proc_ustack_phys) p.(proc_ustack_pages) p.(waiters) p.(p_nodes) p.(p_parent)
       p.(where_am_i).
Definition set_pid (v : Z) (p : proc) : proc :=
  Proc p.(proc_regs) p.(cpl) p.(proc_pdir) p.(sys_stack) p.(proc_tss) p.(fpu_regs)
       p.(heap_start) p.(heap_end) p.(p_name) p.(p_details) v p.(p_state) p.(p_type)
       p.(proc_ustack_phys) p.(proc_ustack_pages) p.(waiters) p.(p_nodes) p.(p_parent)
       p.(where_am_i).
Definition set_p_state (v : Z) (p : proc) : proc :=
  Proc p.(proc_regs) p.(cpl) p.(proc_pdir) p.(sys_stack) p.(proc_tss) p.(fpu_regs)
       p.(heap_start) p.(heap_end) p.(p_name) p.(p_details) p.(pid) v p.(p_type)
       p.(proc_ustack_phys) p.(proc_ustack_pages) p.(waiters) p.(p_nodes) p.(p_parent)
       p.(where_am_i).
Definition set_p_type (v : Z) (p : proc) : proc :=
  Proc p.(proc_regs) p.(cpl) p.(proc_pdir) p.(sys_stack) p.(proc_tss) p.(fpu_regs)
       p.(heap_start) p.(heap_end) p.(p_name) p.(p_details) p.(pid) p.(p_state) v
       p.(proc_ustack_phys) p.(proc_ustack_pages) p.(waiters) p.(p_nodes) p.(p_parent)
       p.(where_am_i).
Definition set_proc_ustack_phys (v : Z) (p : proc) : proc :=
  Proc p.(proc_regs) p.(cpl) p.(proc_pdir) p.(sys_stack) p.(proc_tss) p.(fpu_regs)
       p.(heap_start) p.(heap_end) p.(p_name) p.(p_details) p.(pid) p.(p_state) p.(p_type) v
       p.(proc_ustack_pages) p.(waiters) p.(p_nodes) p.(p_parent) p.(where_am_i).
Definition set_proc_ustack_pages (v : Z) (p : proc) : proc :=
  Proc p.(proc_regs) p.(cpl) p.(proc_pdir) p.(sys_stack) p.(proc_tss) p.(fpu_regs)
       p.(heap_start) p.(heap_end) p.(p_name) p.(p_details) p.(pid) p.(p_state) p.(p_type)
       p.(proc_ustack_phys) v p.(waiters) p.(p_nodes) p.(p_parent) p.(where_am_i).
Definition set_waiters (v : Z) (p : proc) : proc :=
  Proc p.(proc_regs) p.(cpl) p.(proc_pdir) p.(sys_stack) p.(proc_tss) p.(fpu_regs)
       p.(heap_start) p.(heap_end) p.(p_name) p.(p_details) p.(pid) p.(p_state) p.(p_type)
       p.(proc_ustack_phys) p.(proc_ustack_pages) v p.(p_nodes) p.(p_parent) p.(where_am_i).
Definition set_p_nodes (v : Z) (p : proc) : proc :=
  Proc p.(proc_regs) p.(cpl) p.(proc_pdir) p.(sys_stack) p.(proc_tss) p.(fpu_regs)
       p.(heap_start) p.(heap_end) p.(p_name) p.(p_details) p.(pid) p.(p_state) p.(p_type)
       p.(proc_ustack_phys) p.(proc_ustack_pages) p.(waiters) v p.(p_parent) p.(where_am_i).
Definition set_p_parent (v : Z) (p : proc) : proc :=
  Proc p.(proc_regs) p.(cpl) p.(proc_pdir) p.(sys_stack) p.(proc_tss) p.(fpu_regs)
       p.(heap_start) p.(heap_end) p.(p_name) p.(p_details) p.(pid) p.(p_state) p.(p_type)
       p.(proc_ustack_phys) p.(proc_ustack_pages) p.(waiters) p.(p_nodes) v p.(where_am_i).
Definition set_where_am_i (v : Z) (p : proc) : proc :=
  Proc p.(proc_regs) p.(cpl) p.(proc_pdir) p.(sys_stack) p.(proc_tss) p.(fpu_regs)
       p.(heap_start) p.(heap_end) p.(p_name) p.(p_details) p.(pid) p.(p_state) p.(p_type)
       p.(proc_ustack_phys) p.(proc_ustack_pages) p.(waiters) p.(p_nodes) p.(p_parent) v.

Section access.
Context {A : Type} `{Paged A}.

(** Commands of the heap objects, and of paging below them. *)
Definition on_store {B} (c : cmd (store A) B) : cmd (kstate A) B :=
  fun s => match c s.(kstore) with
           | Ret (b, st) => Ret (b, set_kstore st s)
           | Fault => Fault
           | Hang => Hang
           end.
Definition run_paging {B} (c : cmd pstate B) : cmd (kstate A) B :=
  on_store (fun st => match on_paging c st.(alloc) with
                      | Ret (b, al) => Ret (b, Store al st.(objs))
                      | Fault => Fault
                      | Hang => Hang
                      end).

Definition proc_at (p : Z) : cmd (kstate A) proc := on_store (get_proc p).
(** [process->field = v]. *)
Definition upd_proc (p : Z) (f : proc -> proc) : cmd (kstate A) unit :=
  on_store (x <- get_proc p ;; put_obj p (OProc (f x))).

(** [frame->field = v] on a saved register frame. *)
Definition upd_frame (a : Z) (f : registers -> registers) : cmd (kstate A) unit :=
  fun s => match s.(kregs) !! a with
           | Some r => Ret (tt, set_kregs (<[a := f r]> s.(kregs)) s)
           | None => Fault
           end.
Definition frame_at (a : Z) : cmd (kstate A) registers :=
  fun s => match s.(kregs) !! a with Some r => Ret (r, s) | None => Fault end.
Definition set_eax (v : Z) (r : registers) : registers :=
  Regs r.(r_ds) r.(r_es) r.(r_fs) r.(r_gs) r.(r_edi) r.(r_esi) r.(r_ebp) r.(r_esp) r.(r_ebx)
       r.(r_edx) r.(r_ecx) (u32 v) r.(r_int_no) r.(r_err_code) r.(r_eip) r.(r_cs) r.(r_eflags)
       r.(r_useresp) r.(r_ss).

(** [strcpy] and [strcat] into a buffer of [cap] bytes inside a structure. *)
Definition buf_copy (cap : Z) (text : list Z) : cmd (kstate A) (list Z) :=
  if Z.of_nat (length text) <? cap then ret text else fault.

(** [linked_list_each(item, list) body]: [body] gets the node. *)
Fixpoint each_loop (fuel : nat) (item : Z) (body : Z -> cmd (kstate A) unit) : cmd (kstate A) unit :=
  match fuel with
  | O => hang
  | S fuel' =>
      if item =? 0 then ret tt
      else
        body item ;;;
        n <- on_store (get_node item) ;;
        each_loop fuel' n.(next) body
  end.
Definition linked_list_each (list : Z) (body : Z -> cmd (kstate A) unit) : cmd (kstate A) unit :=
  l <- on_store (get_list list) ;;
  fuel <- gets (fun s => chain_fuel s.(kstore)) ;;
  each_loop fuel l.(list_head) body.
End access.

(** ** A machine for examples

    The bump allocator beside a paging state, with three page directories. *)

Definition on_bump {B} (c : cmd bump B) : cmd (bump * pstate) B :=
  fun s => match c s.1 with
           | Ret (b, x) => Ret (b, (x, s.2))
           | Fault => Fault
           | Hang => Hang
           end.

Lemma wp_on_bump {B} (c : cmd bump B) Q s :
  wp c (fun b x => Q b (x, s.2)) s.1 -> wp (on_bump c) Q s.
Proof. unfold wp, on_bump. by destruct (c s.1) as [[b x]| |]. Qed.

Lemma machine_malloc n k (s : bump * pstate) :
  bump_inv s.1 -> bump_room (S k) s.1 -> 0 <= n <= SMALL ->
  wp (on_bump (bump_malloc n)) (fun p s' =>
    exists m, 0 < p /\ p + m < 2 ^ 32 /\ n <= m /\ s.1.(b_blocks) !! p = None /\
    s'.1.(b_blocks) = <[p := m]> s.1.(b_blocks) /\ bump_inv s'.1 /\ bump_room k s'.1) s.
Proof. intros. apply wp_on_bump. by apply bump_malloc_law. Qed.

Lemma machine_free p k (s : bump * pstate) :
  bump_inv s.1 -> bump_room k s.1 -> is_Some (s.1.(b_blocks) !! p) ->
  wp (on_bump (bump_free p)) (fun _ s' =>
    s'.1.(b_blocks) = delete p s.1.(b_blocks) /\ bump_inv s'.1 /\ bump_room k s'.1) s.
Proof. intros. apply wp_on_bump. by apply bump_free_law. Qed.

Lemma machine_free_null k (s : bump * pstate) :
  bump_inv s.1 -> bump_room k s.1 ->
  wp (on_bump (bump_free 0)) (fun _ s' =>
    s'.1.(b_blocks) = s.1.(b_blocks) /\ bump_inv s'.1 /\ bump_room k s'.1) s.
Proof. intros. apply wp_on_bump. by apply bump_free_null. Qed.

Definition machine_allocator : Allocator (bump * pstate) := {|
  a_malloc n := on_bump (bump_malloc n); a_free p := on_bump (bump_free p);
  a_inv s := bump_inv s.1; a_extent s := s.1.(b_blocks); a_room k s := bump_room k s.1;
  a_base := 0; a_top := 2 ^ 29; a_base_nonneg := Z.le_refl 0; a_zone s := bump_zone_law s.1;
  a_count s := bump_count_law s.1; a_apart s := bump_apart_law s.1; a_room_mono k s := bump_room_mono k s.1;
  a_malloc_ok := machine_malloc; a_free_ok := machine_free;
  a_free_null := machine_free_null |}.

#[local] Existing Instance machine_allocator.

Definition machine_paging {B} (c : cmd pstate B) : cmd (bump * pstate) B :=
  fun s => match c s.2 with
           | Ret (b, p) => Ret (b, (s.1, p))
           | Fault => Fault
           | Hang => Hang
           end.

Lemma machine_swap d k (s : bump * pstate) :
  d ∈ ({[0x1000; 0x2000; 0x3000]} : gset Z) -> bump_inv s.1 -> bump_room k s.1 ->
  wp (machine_paging (swap_page_directory d)) (fun _ s' =>
    bump_inv s'.1 /\ bump_room k s'.1 /\ s'.1.(b_blocks) = s.1.(b_blocks) /\ s'.2.(cr3) = d) s.
Proof.
  intros _ Hi Hr. unfold wp, machine_paging, swap_page_directory, modify. cbn [fst snd cr3].
  split_and!; [exact Hi|exact Hr|reflexivity|reflexivity].
Qed.

Definition machine_paged : @Paged (bump * pstate) machine_allocator := {|
  on_paging B := @machine_paging B; cur_dir s := s.2.(cr3);
  dirs := {[0x1000; 0x2000; 0x3000]}; on_swap_ok := machine_swap |}.
