(* ===== verification/KernelMachine.v ===== *)
(** The kernel heap and the paging state as one machine: what the process code
    above them runs on.

    [Paged] asks of a heap that paging commands run beside it and that switching
    page directories does not disturb it.  [kernel_paged] shows it of the kernel
    heap of [Heap] over the paging state of [Paging], for any set of page
    directories of which none is a page table of another.  [PagingState] says
    that the paging state is a part of the heap's state. *)
From stdpp Require Import base numbers gmap list.
From S2P Require Import Prelude Physmem Kmem Allocator Heap Paging Store LinkedList KernelHeap KState.

(** Paging commands work on a component of the state. *)
Class PagingState (A : Type) `{Paged A} := {
  paging_of : A -> pstate;
  with_paging : pstate -> A -> A;
  on_paging_run : forall B (c : cmd pstate B) a,
    on_paging c a = match c (paging_of a) with
                    | Ret (b, ps) => Ret (b, with_paging ps a)
                    | Fault => Fault
                    | Hang => Hang
                    end;
  paging_of_with : forall ps a, paging_of (with_paging ps a) = ps
}.

(** A paging command of the kernel, by its effect on the paging state. *)
Lemma wp_run_paging {A} `{PagingState A} {B} (c : cmd pstate B) Q (s : kstate A) :
  wp c (fun b ps => Q b (set_kstore (Store (with_paging ps s.(kstore).(alloc)) s.(kstore).(objs)) s))
     (paging_of s.(kstore).(alloc)) ->
  wp (run_paging c) Q s.
Proof.
  unfold wp, run_paging, on_store. rewrite on_paging_run. by destruct (c _) as [[b ps]| |].
Qed.

Section kernel.
Context (D : gset Z).

(** The page directories of [D], each well-formed, none a table of another. *)
Record directories_ok (s : pstate) : Prop := {
  dd_frames : phys_wf s.(frames);
  dd_current : current_dir s ∈ D;
  dd_ok : forall d, d ∈ D -> dir_ok s.(pm) s.(frames) d;
  dd_apart : forall d e k, d ∈ D -> e ∈ D -> 0 <= k < 1023 -> table_of s.(pm) d k <> e
}.

Lemma table_of_kept m m' d k : page_kept m m' d -> 0 <= k < 1024 -> table_of m' d k = table_of m d k.
Proof. intros Hk Hi. unfold table_of. f_equal. apply rd32_ext. intros x Hx. apply Hk. lia. Qed.

(** A directory whose own frame is kept stays well-formed. *)
Lemma dir_ok_kept m m' fr fr' d :
  page_kept m m' d -> keeps_used fr fr' -> dir_ok m fr d -> dir_ok m' fr' d.
Proof.
  intros Hk Hu []. assert (forall k, 0 <= k < 1023 -> table_of m' d k = table_of m d k) as Ht
    by (intros; apply table_of_kept; [done|lia]). split; [by eapply keeps_used_used|done| |].
  - intros i Hi. rewrite Ht by done. destruct (dok_tab i Hi) as [?|[? ?]]; [by left|right].
    split; [by eapply keeps_used_used|done].
  - intros i j Hi Hj Hne. rewrite !Ht by done. by apply dok_inj.
Qed.

(** Growing the heap in the current directory leaves every directory fit. *)
Lemma map_fresh_page_directories va s :
  directories_ok s -> 0 < va < HEAP_TOP -> wp (map_fresh_page va) (fun _ => directories_ok) s.
Proof.
  intros [Hwf Hc Hok Hap] Hva. set (dir := current_dir s) in *.
  eapply wp_mono; [by apply map_fresh_page_spec; [split; [done|by apply Hok]|]|]. cbn zeta. fold dir.
  intros [] s' ([Hwf' Hok'] & Hdir & Hku & Hkept & _). rewrite Hdir in Hok'.
  assert (Hother : forall d, d ∈ D -> d <> dir -> page_kept s.(pm) s'.(pm) d /\ forall k, 0 <= k < 1023 -> table_of s'.(pm) dir k <> d).
  { intros d Hd Hne. pose proof (Hok d Hd) as []. apply Hkept; try done. intros k Hk. by apply Hap. }
  split; [done|by rewrite Hdir| |].
  - intros d Hd. destruct (decide (d = dir)) as [->|Hne]; [done|]. destruct (Hother d Hd Hne) as [Hk _].
    eapply dir_ok_kept; [done|done|by apply Hok].
  - intros d e k Hd He Hk. destruct (decide (d = dir)) as [->|Hne].
    + destruct (decide (e = dir)) as [->|Hne']; [|by apply Hother]. intros E.
      destruct (dok_tab _ _ _ Hok' k Hk) as [?|[_ ?]]; [|done]. pose proof (dok_nz _ _ _ Hok'). congruence.
    + destruct (Hother d Hd Hne) as [Hkd _]. rewrite (table_of_kept _ _ _ _ Hkd) by lia. by apply Hap.
Qed.

Definition kernel_supply : PageSupply pstate := {|
  supply_page := map_fresh_page; supply_ok := directories_ok; supply_safe := map_fresh_page_directories |}.
#[local] Existing Instance kernel_supply.

Definition kernel_allocator : Allocator (hstate pstate) := heap_allocator.
#[local] Existing Instance kernel_allocator.

Definition set_pages (ps : pstate) (s : hstate pstate) : hstate pstate :=
  HState s.(allocated_size) s.(h_start) s.(h_end) s.(h_head) s.(h_mem) ps.

Definition kernel_on_paging {B} (c : cmd pstate B) : cmd (hstate pstate) B :=
  fun s => match c s.(h_pages) with
           | Ret (b, ps) => Ret (b, set_pages ps s)
           | Fault => Fault
           | Hang => Hang
           end.

Lemma kernel_swap d k (s : hstate pstate) :
  d ∈ D -> a_inv s -> a_room k s ->
  wp (kernel_on_paging (swap_page_directory d)) (fun _ s' =>
    a_inv s' /\ a_room k s' /\ a_extent s' = a_extent s /\ current_dir s'.(h_pages) = d) s.
Proof.
  intros Hd (Hrep & [Hwf Hc Hok Hap] & Hbase) Hroom. unfold wp, kernel_on_paging, swap_page_directory, modify.
  set (ps := PState _ _ _ _ _ _ _ _ _). assert (Hcur : current_dir ps = d) by (unfold current_dir; by destruct (_ =? _)).
  split_and!; [|exact Hroom|reflexivity|exact Hcur].
  split; [exact Hrep|]. split; [|exact Hbase]. split; [exact Hwf|by rewrite <- Hcur in Hd|exact Hok|exact Hap].
Qed.

(** The kernel's own heap and paging are what the scheduler is proved against. *)
Definition kernel_paged : Paged (hstate pstate) := {|
  on_paging B := @kernel_on_paging B; cur_dir s := current_dir s.(h_pages); dirs := D; on_swap_ok := kernel_swap |}.
#[local] Existing Instance kernel_paged.

Lemma kernel_paging_run B (c : cmd pstate B) (s : hstate pstate) :
  on_paging c s = match c s.(h_pages) with Ret (b, ps) => Ret (b, set_pages ps s) | Fault => Fault | Hang => Hang end.
Proof. reflexivity. Qed.
Lemma kernel_paging_of (ps : pstate) (s : hstate pstate) : (set_pages ps s).(h_pages) = ps.
Proof. reflexivity. Qed.

Definition kernel_paging_state : PagingState (hstate pstate) := {|
  paging_of s := s.(h_pages); with_paging := set_pages;
  on_paging_run := kernel_paging_run; paging_of_with := kernel_paging_of |}.
End kernel.
