(* ===== verification/Pit.v ===== *)
(** The timer, [kernel/interrupts/pit.c]: the routines run on every tick. *)
From stdpp Require Import base numbers gmap list.
From S2P Require Import Prelude Arrays Allocator Paging Store LinkedList KState Interrupts.

Definition PIT_FREQUENCY : Z := 1193180.
Definition PIT_COMMAND_PORT : Z := 0x43.
Definition PIT_CHAN_0_PORT : Z := 0x40.
Definition PIT_NO_OF_ROUTINES : Z := 256.
Definition SIZEOF_ROUTINE : Z := 12.
Definition IRQ0 : Z := 32.
Definition DPL_KERNEL : Z := 0.

Section pit.
Context {A : Type} `{Paged A}.
(** Calls through routine pointers, the ignore stubs of [isr_as.asm], and the
    address of [pit_interrupt_handler]. *)
Variable call : Z -> Z -> cmd (kstate A) Z.
Variables (ignore_isr ignore_isr_error ignore_irq_master ignore_irq_slave : Z).
Variable pit_interrupt_handler_address : Z.

Definition initialise_pit : cmd (Idt.istate (kstate A)) unit :=
  let divisor := u16 (PIT_FREQUENCY / 1000) in
  Idt.install_interrupt_handler ignore_isr ignore_isr_error ignore_irq_master ignore_irq_slave
    IRQ0 pit_interrupt_handler_address DPL_KERNEL ;;;
  Idt.on_world (l <- on_store linked_list_create ;; modify (set_routines l)) ;;;
  Idt.write_port_8 PIT_COMMAND_PORT 0x36 ;;;
  Idt.write_port_8 PIT_CHAN_0_PORT (Z.land (u8 divisor) 0xFF) ;;;
  Idt.write_port_8 PIT_CHAN_0_PORT (Z.shiftr (u8 divisor) 8).

(** The loop over the installed routines. *)
Fixpoint tick_loop (fuel : nat) (item ret_regs : Z) : cmd (kstate A) Z :=
  match fuel with
  | O => hang
  | S fuel' =>
      if item =? 0 then ret ret_regs
      else
        n <- on_store (get_node item) ;;
        r <- on_store (get_routine n.(data)) ;;
        ticks <- gets pit_ticks ;;
        if r.(milis) =? 0 then fault
        else
          ret_regs <- (if Z.rem ticks r.(milis) =? 0 then call r.(routine) ret_regs else ret ret_regs) ;;
          n <- on_store (get_node item) ;;
          tick_loop fuel' n.(next) ret_regs
  end.

Definition pit_interrupt_handler (regs : Z) : cmd (kstate A) Z :=
  modify (fun s => set_pit_ticks (i32 (s.(pit_ticks) + 1)) s) ;;;
  list <- gets routines ;;
  l <- on_store (get_list list) ;;
  fuel <- gets (fun s => chain_fuel s.(kstore)) ;;
  tick_loop fuel l.(list_head) regs.

Definition install_pit_routine (func interval : Z) : cmd (kstate A) Z :=
  list <- gets routines ;;
  l <- on_store (get_list list) ;;
  if l.(list_length) <? PIT_NO_OF_ROUTINES then
    r <- on_store (new_obj SIZEOF_ROUTINE (ORoutine (PitRoutine 0 0 0))) ;;
    x <- on_store (get_routine r) ;;
    on_store (put_obj r (ORoutine (PitRoutine interval x.(pr_id) x.(routine)))) ;;;
    x <- on_store (get_routine r) ;;
    on_store (put_obj r (ORoutine (PitRoutine x.(milis) x.(pr_id) func))) ;;;
    id <- gets routine_id ;;
    x <- on_store (get_routine r) ;;
    on_store (put_obj r (ORoutine (PitRoutine x.(milis) id x.(routine)))) ;;;
    modify (fun s => set_routine_id (i32 (s.(routine_id) + 1)) s) ;;;
    list <- gets routines ;;
    on_store (linked_list_append list r) ;;;
    x <- on_store (get_routine r) ;;
    ret x.(pr_id)
  else ret (-1).

(** The node of the routine with the given id, or NULL. *)
Fixpoint find_routine (fuel : nat) (item id : Z) : cmd (kstate A) Z :=
  match fuel with
  | O => hang
  | S fuel' =>
      if item =? 0 then ret 0
      else
        n <- on_store (get_node item) ;;
        r <- on_store (get_routine n.(data)) ;;
        if r.(pr_id) =? id then ret item
        else
          n <- on_store (get_node item) ;;
          find_routine fuel' n.(next) id
  end.

Definition change_routine_timing (id new_interval : Z) : cmd (kstate A) unit :=
  list <- gets routines ;;
  l <- on_store (get_list list) ;;
  fuel <- gets (fun s => chain_fuel s.(kstore)) ;;
  item <- find_routine fuel l.(list_head) id ;;
  if item =? 0 then ret tt
  else
    n <- on_store (get_node item) ;;
    r <- on_store (get_routine n.(data)) ;;
    on_store (put_obj n.(data) (ORoutine (PitRoutine new_interval r.(pr_id) r.(routine)))).

Definition uninstall_pit_routine (id : Z) : cmd (kstate A) unit :=
  list <- gets routines ;;
  l <- on_store (get_list list) ;;
  fuel <- gets (fun s => chain_fuel s.(kstore)) ;;
  to_uninstall <- find_routine fuel l.(list_head) id ;;
  if negb (to_uninstall =? 0) then
    n <- on_store (get_node to_uninstall) ;;
    on_store (free_obj n.(data)) ;;;
    list <- gets routines ;;
    on_store (linked_list_remove list to_uninstall)
  else ret tt.

(** * Ticks *)

(** The routines [rs] are installed, in this order, in the list nodes [xs], at
    tick [t]. *)
Definition timer_ok (s : kstate A) (t : Z) (xs : list (Z * Z)) (rs : list pit_routine) : Prop :=
  list_rep s.(kstore).(objs) s.(routines) xs /\ s.(pit_ticks) = t /\ s.(kstore).(objs) !! 0 = None /\
  Forall2 (fun d r => s.(kstore).(objs) !! d = Some (ORoutine r) /\ r.(milis) <> 0) xs.*2 rs.

(** Calling the due routines one after the other, threading the frame. *)
Fixpoint run_due (t : Z) (rs : list pit_routine) (regs : Z) : cmd (kstate A) Z :=
  match rs with
  | [] => ret regs
  | r :: rs' =>
      regs <- (if Z.rem t r.(milis) =? 0 then call r.(routine) regs else ret regs) ;;
      run_due t rs' regs
  end.

Lemma timer_node s t ks a d ys rs :
  timer_ok s t (ks ++ (a, d) :: ys) rs ->
  a <> 0 /\ on_store (get_node a) s = Ret (DNode (last_addr 0 ks) (hd_addr ys 0) d, s).
Proof.
  intros ((_ & Hs & _) & _ & Hz & _). apply dlseg_app in Hs as [_ [Ha _]]. split; [congruence|].
  unfold on_store, get_node. rewrite Ha. by destruct s.
Qed.

Lemma timer_routine s t ks a d ys us r rs :
  timer_ok s t (ks ++ (a, d) :: ys) (us ++ r :: rs) -> length ks = length us ->
  r.(milis) <> 0 /\ on_store (get_routine d) s = Ret (r, s).
Proof.
  intros (_ & _ & _ & Hall) Hl. rewrite fmap_app in Hall. cbn in Hall.
  apply Forall2_app_inv in Hall as [_ Hall]; [|by rewrite length_fmap].
  apply Forall2_cons in Hall as [[Hd Hm] _]. split; [done|].
  unfold on_store, get_routine. rewrite Hd. by destruct s.
Qed.

(** No routine uninstalls or retimes another, or moves the clock. *)
Section tick.
Hypothesis call_keeps_timer : forall f r s r' s' t xs rs,
  timer_ok s t xs rs -> call f r s = Ret (r', s') -> timer_ok s' t xs rs.

Lemma tick_loop_run t ks ys us rs fuel regs s :
  timer_ok s t (ks ++ ys) (us ++ rs) -> length ks = length us -> (length ys < fuel)%nat ->
  tick_loop fuel (hd_addr ys 0) regs s = run_due t rs regs s.
Proof.
  revert ks us rs fuel regs s. induction ys as [|[a d] ys IH]; intros ks us rs fuel regs s Ht Hl Hf;
    (destruct fuel as [|fuel]; [cbn in Hf; lia|]); cbn [tick_loop hd_addr];
    pose proof (Forall2_length _ _ _ (proj2 (proj2 (proj2 Ht)))) as Hlen;
    rewrite length_fmap, !length_app in Hlen; cbn [length] in Hlen.
  - by destruct rs; [|cbn in Hlen; lia].
  - destruct rs as [|r rs]; [cbn in Hlen; lia|].
    destruct (timer_node _ _ _ _ _ _ _ Ht) as [Ha Hnode].
    destruct (timer_routine _ _ _ _ _ _ _ _ _ Ht Hl) as [Hm Hr].
    rewrite (proj2 (Z.eqb_neq a 0)) by done. unfold bind at 1. rewrite Hnode.
    cbn [data]. unfold bind at 1. rewrite Hr. unfold bind at 1, gets. cbn [run_due].
    rewrite (proj2 (Z.eqb_neq _ 0)) by done. destruct Ht as (Hrep & <- & Hrest). unfold bind at 1 3.
    assert (Hgo : forall regs' s', timer_ok s' (pit_ticks s) (ks ++ (a, d) :: ys) (us ++ r :: rs) ->
      (n <- on_store (get_node a) ;; tick_loop fuel n.(next) regs') s' = run_due (pit_ticks s) rs regs' s').
    { intros regs' s' Ht'. destruct (timer_node _ _ _ _ _ _ _ Ht') as [_ Hn']. unfold bind. rewrite Hn'.
      apply (IH (ks ++ [(a, d)]) (us ++ [r])); [by rewrite <- !app_assoc|rewrite !length_app; cbn; lia|cbn in Hf; lia]. }
    destruct (Z.rem (pit_ticks s) (milis r) =? 0).
    + destruct (call (routine r) regs s) as [[r' s']| |] eqn:Hc; [|done|done].
      apply Hgo. eapply call_keeps_timer; [|exact Hc]. done.
    + apply Hgo. done.
Qed.

(** A timer interrupt advances the clock by one and then calls exactly the
    installed routines whose interval divides the new tick count, in the order
    of installation, each on the frame the one before it returned; the frame of
    the last one is resumed. *)
Theorem pit_tick_runs_due t xs rs regs s :
  timer_ok s t xs rs ->
  pit_interrupt_handler regs s =
  run_due (i32 (t + 1)) rs regs (set_pit_ticks (i32 (t + 1)) s).
Proof.
  intros Ht. pose proof Ht as ((Hl & Hs & Hnd) & <- & Hrest). unfold pit_interrupt_handler.
  unfold bind at 1, modify, bind at 1, gets. set (s1 := set_pit_ticks _ s).
  unfold bind at 1, on_store, get_list. change (kstore s1) with (kstore s).
  change (routines s1) with (routines s). rewrite Hl. unfold bind at 1. cbn [list_head].
  replace (set_kstore (kstore s) s1) with s1 by (by destruct s).
  apply (tick_loop_run _ [] xs []); [by destruct Ht as (? & _ & ?)|done|].
  pose proof (list_rep_length _ _ _ (conj Hl (conj Hs Hnd))). unfold chain_fuel.
  change (kstore s1) with (kstore s). lia.
Qed.
End tick.

(** The timer is not programmed to 1 kHz: the divisor 1193 is cut to its low
    byte before it is split, so the bytes sent to channel 0 are 169 and 0, and
    the routines' millisecond intervals run about seven times too fast. *)
Theorem pit_divisor_truncated k c f h s :
  array_is 256 s.(Idt.interrupt_vector_catchers) c -> array_is 256 s.(Idt.idt) f ->
  array_is 256 s.(Idt.interrupt_handlers) h -> store_ok (S k) s.(Idt.world).(kstore) ->
  wp initialise_pit (fun _ s' =>
    s'.(Idt.ports) = s.(Idt.ports) ++ [(0x43, 0x36); (0x40, 169); (0x40, 0)] /\
    169 + 256 * 0 <> PIT_FREQUENCY / 1000 /\
    list_rep s'.(Idt.world).(kstore).(objs) s'.(Idt.world).(routines) []) s.
Proof.
  intros Hc Hf Hh Hok. unfold initialise_pit. apply wp_bind.
  eapply wp_mono; [apply (Idt.install_handler_spec _ _ _ _ c f h); try done|].
  intros u s1 (_ & _ & _ & Hp & Hw). apply wp_bind. unfold wp at 1, Idt.on_world. rewrite Hw.
  destruct (Idt.world s).(kstore) as [al m] eqn:Hst.
  destruct (wp_inv _ _ _ (linked_list_create_spec k al m Hok)) as (l & st & Hrun & _ & _ & Hrep & _).
  unfold bind at 1, on_store. rewrite Hst, Hrun. cbn [modify].
  apply Idt.wp_port, Idt.wp_port, wp_modify. cbn. rewrite <- !app_assoc, Hp. split_and!; done.
Qed.
End pit.

#[local] Existing Instances machine_allocator machine_paged.

(** Two routines, every tick and every third tick, at tick 5. *)
Definition demo_timer : kstate (bump * pstate) :=
  KState (Store (bump_at 20 [1; 2; 3; 4; 5], demo_paging)
    {[ 1 := OList (LnkLst 2 3 2); 2 := ONode (DNode 0 3 4); 3 := ONode (DNode 2 0 5);
       4 := ORoutine (PitRoutine 1 0 70); 5 := ORoutine (PitRoutine 3 1 80) ]})
    ∅ 0 0 0 0 0 0 0 0 0 0 5 2 1 0 0 [] [].

Definition demo_routine (f regs : Z) : cmd (kstate (bump * pstate)) Z := ret (regs + f).

Lemma demo_routine_keeps f r s r' s' t xs rs :
  timer_ok s t xs rs -> demo_routine f r s = Ret (r', s') -> timer_ok s' t xs rs.
Proof. intros Ht [= <- <-]. exact Ht. Qed.

Lemma pit_tick_runs_due_witness :
  pit_interrupt_handler demo_routine 1000 demo_timer = Ret (1150, set_pit_ticks 6 demo_timer).
Proof.
  apply (pit_tick_runs_due demo_routine demo_routine_keeps 5 [(2, 4); (3, 5)]
    [PitRoutine 1 0 70; PitRoutine 3 1 80]).
  split_and!; [|done|done|].
  - split_and!; [done|by vm_compute|]. by apply (bool_decide_unpack _); vm_compute.
  - repeat constructor; done.
Defined.

Definition demo_boot : Idt.istate (kstate (bump * pstate)) :=
  Idt.IState (replicate 256 (Idt.IdtEntry 0 0 0 0 0 0 0)) (replicate 256 0) (replicate 256 0)
    false [] 0 demo_timer.

Lemma pit_divisor_truncated_witness :
  wp (initialise_pit 1 2 3 4 5000) (fun _ s' =>
    s'.(Idt.ports) = [] ++ [(0x43, 0x36); (0x40, 169); (0x40, 0)] /\
    169 + 256 * 0 <> PIT_FREQUENCY / 1000 /\
    list_rep s'.(Idt.world).(kstore).(objs) s'.(Idt.world).(routines) []) demo_boot.
Proof.
  apply (pit_divisor_truncated 1 2 3 4 5000 10 (fun _ => 0) (fun _ => Idt.IdtEntry 0 0 0 0 0 0 0) (fun _ => 0));
    [by apply (array_replicate 256)|by apply (array_replicate 256)|by apply (array_replicate 256)|].
  store_by_compute.
Defined.
