(* ===== verification/Process.v ===== *)
(** Processes and the scheduler: [kernel/process/process.c],
    [kernel/process/scheduler.c] and [kernel/fpu/fpu.c]. *)
From stdpp Require Import base numbers gmap list.
From S2P Require Import Prelude Arrays Physmem Kmem Allocator Paging Store LinkedList QueueModel GenericTree KState Interrupts Pit.

Definition PROCESS_STATE_READY : Z := 0x01.
Definition PROCESS_STATE_LIVING : Z := 0x02.
Definition PROCESS_STATE_NAPPING : Z := 0x03.
Definition PROCESS_STATE_DEAD : Z := 0x04.
Definition PROCESS_TYPE_STANDALONE : Z := 0x01.
Definition PROCESS_TYPE_CLONE : Z := 0x02.
Definition PROCESS_PRV_KERN : Z := 0x01.
Definition PROCESS_PRV_USER : Z := 0x02.
Definition PROCESS_CODE : Z := 0x10000000.
Definition PROCESS_STACK : Z := 0x40000000.
Definition PROCESS_HEAP : Z := 0x50000000.
Definition PROCESS_STACK_PAGES : Z := 5.
Definition PROCESS_SYS_STACK_PAGES : Z := 2.
Definition SCHED_MAX_READY : Z := 256.
Definition SCHED_MAX_DEAD : Z := 256.
Definition SIZEOF_PROC : Z := 976.
Definition SIZEOF_TIMED : Z := 8.
Definition SIZEOF_REGISTERS : Z := 76.
Definition SIZEOF_NAME : Z := 128.
Definition SIZEOF_DETAILS : Z := 256.

Section operations.
Context {A : Type} `{Paged A}.

(** ** [fpu.c] *)

Definition fpu_save (process : Z) : cmd (kstate A) unit :=
  modify (fun s => set_fpu s.(fpu_unit) s.(fpu_unit) s) ;;;
  st <- gets fpu_state ;;
  upd_proc process (set_fpu_regs st).

Definition fpu_reload (process : Z) : cmd (kstate A) unit :=
  p <- proc_at process ;;
  modify (fun s => set_fpu p.(fpu_regs) p.(fpu_regs) s).

(** ** Queues and naps *)

Definition sched_make_ready (process : Z) : cmd (kstate A) unit :=
  upd_proc process (set_p_state PROCESS_STATE_READY) ;;;
  q <- gets ready_queue ;;
  on_store (queue_enqueue q process) ;;;
  ret tt.

Definition sched_make_dead (process : Z) : cmd (kstate A) unit :=
  upd_proc process (set_p_state PROCESS_STATE_DEAD) ;;;
  q <- gets dead_queue ;;
  on_store (queue_enqueue q process) ;;;
  ret tt.

Definition sched_purge_process (process : Z) : cmd (kstate A) unit :=
  q <- gets ready_queue ;;
  on_store (queue_force_remove q process) ;;;
  q <- gets dead_queue ;;
  on_store (queue_force_remove q process).

Definition sched_make_napping (process time : Z) : cmd (kstate A) unit :=
  p <- proc_at process ;;
  if negb (p.(p_state) =? PROCESS_STATE_DEAD) && negb (p.(p_state) =? PROCESS_STATE_NAPPING) then
    sched_purge_process process ;;;
    upd_proc process (set_p_state PROCESS_STATE_NAPPING) ;;;
    timed_process <- on_store (new_obj SIZEOF_TIMED (OTimed (TProcess 0 0))) ;;
    t <- on_store (get_timed timed_process) ;;
    on_store (put_obj timed_process (OTimed (TProcess process t.(counter)))) ;;;
    t <- on_store (get_timed timed_process) ;;
    on_store (put_obj timed_process (OTimed (TProcess t.(tp_process) time))) ;;;
    l <- gets napping_list ;;
    on_store (linked_list_append l timed_process) ;;;
    ret tt
  else ret tt.

(** The loop of [sched_wakeup]: the node, its timer and its process. *)
Fixpoint find_napping (fuel : nat) (item wanted : Z) : cmd (kstate A) (Z * Z * Z) :=
  match fuel with
  | O => hang
  | S fuel' =>
      if item =? 0 then ret (0, 0, 0)
      else
        n <- on_store (get_node item) ;;
        tproc <- on_store (get_timed n.(data)) ;;
        p <- proc_at tproc.(tp_process) ;;
        if p.(pid) =? wanted then ret (item, n.(data), tproc.(tp_process))
        else
          n <- on_store (get_node item) ;;
          find_napping fuel' n.(next) wanted
  end.

Definition sched_wakeup (wanted : Z) : cmd (kstate A) Z :=
  list <- gets napping_list ;;
  l <- on_store (get_list list) ;;
  fuel <- gets (fun s => chain_fuel s.(kstore)) ;;
  found <- find_napping fuel l.(list_head) wanted ;;
  let '(node, tproc, proc) := found in
  if negb (node =? 0) && negb (proc =? 0) then
    on_store (free_obj tproc) ;;;
    list <- gets napping_list ;;
    on_store (linked_list_remove list node) ;;;
    sched_purge_process proc ;;;
    sched_make_ready proc ;;;
    ret 0
  else ret (-1).

Definition sched_get_ready : cmd (kstate A) Z := q <- gets ready_queue ;; on_store (queue_dequeue q).
Definition sched_get_dead : cmd (kstate A) Z := q <- gets dead_queue ;; on_store (queue_dequeue q).

(** The loop of [sched_timekeeper]. *)
Fixpoint timekeeper_loop (fuel : nat) (head : Z) : cmd (kstate A) unit :=
  match fuel with
  | O => hang
  | S fuel' =>
      if head =? 0 then ret tt
      else
        n <- on_store (get_node head) ;;
        let t_proc := n.(data) in
        t <- on_store (get_timed t_proc) ;;
        on_store (put_obj t_proc (OTimed (TProcess t.(tp_process) (i32 (t.(counter) - 1))))) ;;;
        t <- on_store (get_timed t_proc) ;;
        if t.(counter) <=? 0 then
          let tmp := head in
          n <- on_store (get_node head) ;;
          list <- gets napping_list ;;
          on_store (linked_list_remove list tmp) ;;;
          t <- on_store (get_timed t_proc) ;;
          sched_make_ready t.(tp_process) ;;;
          on_store (free_obj t_proc) ;;;
          timekeeper_loop fuel' n.(next)
        else
          n <- on_store (get_node head) ;;
          timekeeper_loop fuel' n.(next)
  end.

Definition sched_timekeeper (regs : Z) : cmd (kstate A) Z :=
  list <- gets napping_list ;;
  l <- on_store (get_list list) ;;
  fuel <- gets (fun s => chain_fuel s.(kstore)) ;;
  timekeeper_loop fuel l.(list_head) ;;;
  ret regs.

(** ** [process.c] *)

Definition proc_set_current_proc (process : Z) : cmd (kstate A) unit := modify (set_current process).
Definition proc_get_current_proc : cmd (kstate A) Z := gets current_process.

Definition proc_get_pid : cmd (kstate A) Z :=
  modify (fun s => set_proc_pid (i32 (s.(proc_pid) + 1)) s) ;;;
  gets proc_pid.

Definition proc_attach_node (process node : Z) : cmd (kstate A) Z :=
  p <- proc_at process ;;
  on_store (linked_list_append p.(p_nodes) node) ;;;
  p <- proc_at process ;;
  l <- on_store (get_list p.(p_nodes)) ;;
  ret (i32 (l.(list_length) - 1)).

(** Two recursive searches of the process tree.  A tree in memory has at most
    one node per object, which bounds the depth. *)
Fixpoint proc_find_recur (fuel : nat) (tree wanted : Z) : cmd (kstate A) Z :=
  match fuel with
  | O => hang
  | S fuel' =>
      if (tree =? 0) || (wanted =? 0) then ret 0
      else
        t <- on_store (get_tree tree) ;;
        let process := t.(t_data) in
        if process =? 0 then ret 0
        else
          p <- proc_at process ;;
          if p.(pid) =? wanted then ret process
          else
            l <- on_store (get_list t.(sub_trees)) ;;
            find_in_children fuel' l.(list_head) wanted
  end
with find_in_children (fuel : nat) (child wanted : Z) : cmd (kstate A) Z :=
  match fuel with
  | O => hang
  | S fuel' =>
      if child =? 0 then ret 0
      else
        n <- on_store (get_node child) ;;
        let child_tree := n.(data) in
        t <- on_store (get_tree child_tree) ;;
        let process := t.(t_data) in
        if process =? 0 then find_in_children fuel' n.(next) wanted
        else
          p <- proc_at process ;;
          if p.(pid) =? wanted then ret process
          else proc_find_recur fuel' child_tree wanted
  end.

Definition proc_find (wanted : Z) : cmd (kstate A) Z :=
  tree <- gets process_tree ;;
  if tree =? 0 then ret 0
  else
    fuel <- gets (fun s => chain_fuel s.(kstore)) ;;
    proc_find_recur fuel tree wanted.

Fixpoint proc_get_next_in_tree_recurs (fuel : nat) (tree no cur_no : Z) : cmd (kstate A) Z :=
  match fuel with
  | O => hang
  | S fuel' =>
      if tree =? 0 then ret 0
      else
        t <- on_store (get_tree tree) ;;
        if no =? cur_no then ret t.(t_data)
        else
          l <- on_store (get_list t.(sub_trees)) ;;
          next_in_children fuel' l.(list_head) no cur_no
  end
with next_in_children (fuel : nat) (child no cur_no : Z) : cmd (kstate A) Z :=
  match fuel with
  | O => hang
  | S fuel' =>
      if child =? 0 then ret 0
      else
        n <- on_store (get_node child) ;;
        let cur_no := i32 (cur_no + 1) in
        proc <- proc_get_next_in_tree_recurs fuel' n.(data) no cur_no ;;
        if negb (proc =? 0) then ret proc
        else
          n <- on_store (get_node child) ;;
          next_in_children fuel' n.(next) no cur_no
  end.

Definition proc_get_next_in_tree (no : Z) : cmd (kstate A) Z :=
  tree <- gets process_tree ;;
  fuel <- gets (fun s => chain_fuel s.(kstore)) ;;
  proc_get_next_in_tree_recurs fuel tree no 0.

Definition sched_wait_for (process wanted : Z) : cmd (kstate A) Z :=
  wait_for <- proc_find wanted ;;
  if wait_for =? 0 then ret (-1)
  else
    w <- proc_at wait_for ;;
    if w.(p_state) =? PROCESS_STATE_DEAD then ret (-1)
    else
      upd_proc process (set_p_state PROCESS_STATE_NAPPING) ;;;
      w <- proc_at wait_for ;;
      on_store (linked_list_append w.(waiters) process) ;;;
      sched_purge_process process ;;;
      ret 0.

(** ** Creating, cloning and destroying processes

    [gtty] is [vfs_find_node("/dev/gtty")], [tss_address] the address [get_tss]
    returns, [get_heap_end] the end of the kernel heap, [stack] the boot stack. *)
Section lifecycle.
Variables (gtty : cmd (kstate A) Z) (tss_address : Z) (get_heap_end : A -> Z).

Definition STR_kernel : list Z := [107; 101; 114; 110; 101; 108].
Definition STR_SYSTEM_PROCESS : list Z := [83; 89; 83; 84; 69; 77; 32; 80; 82; 79; 67; 69; 83; 83].
Definition STR_clone : list Z := [32; 40; 99; 108; 111; 110; 101; 41].

Definition proc_create_kernel : cmd (kstate A) Z :=
  kernel <- on_store (new_obj SIZEOF_PROC (OProc zero_proc)) ;;
  upd_proc kernel (set_cpl PROCESS_PRV_KERN) ;;;
  upd_proc kernel (set_pid 1) ;;;
  upd_proc kernel (set_p_nodes 0) ;;;
  upd_proc kernel (set_p_state PROCESS_STATE_LIVING) ;;;
  upd_proc kernel (set_p_type PROCESS_TYPE_STANDALONE) ;;;
  upd_proc kernel (set_p_parent 0) ;;;
  dir <- run_paging get_page_directory_address ;;
  upd_proc kernel (set_proc_pdir dir) ;;;
  upd_proc kernel (set_heap_start 0xD0000000) ;;;
  hend <- gets (fun s => get_heap_end s.(kstore).(alloc)) ;;
  upd_proc kernel (set_heap_end hend) ;;;
  stk <- gets kern_proc_stack ;;
  upd_proc kernel (set_sys_stack (u32 (stk + 4 * 4))) ;;;
  upd_proc kernel (set_proc_tss tss_address) ;;;
  upd_proc kernel (set_fpu_regs (replicate 512 0)) ;;;
  tree <- on_store (generic_tree_create kernel 0) ;;
  modify (set_process_tree tree) ;;;
  upd_proc kernel (set_where_am_i tree) ;;;
  name <- buf_copy SIZEOF_NAME STR_kernel ;;
  upd_proc kernel (set_p_name name) ;;;
  details <- buf_copy SIZEOF_DETAILS STR_SYSTEM_PROCESS ;;
  upd_proc kernel (set_p_details details) ;;;
  ret kernel.

(** The body of the stack loop of [proc_create]. *)
Definition create_stack_page (process i : Z) : cmd (kstate A) unit :=
  phys <- run_paging (on_frames alloc_phys_page) ;;
  run_paging (w <- temp_map_page phys ;; vmemset_32 w 0x00000000 1024) ;;;
  p <- proc_at process ;;
  run_paging (set_page_table_entry p.(proc_pdir) (u32 (PROCESS_STACK + i * 4096)) phys 1 1) ;;;
  p <- proc_at process ;;
  ws <- on_store (get_words p.(proc_ustack_phys)) ;;
  ws' <- of_option (arr_set ws i phys) ;;
  on_store (put_obj p.(proc_ustack_phys) (OWords ws')).

(** The frame a new process starts from: user segments, interrupts enabled, the
    top of the user stack, the code address. *)
Definition first_frame : registers :=
  Regs 0x23 0x23 0x23 0x23 0 0 0 0 0 0 0 0 0x20 0 PROCESS_CODE 0x1B 0x0202
       (PROCESS_STACK + PROCESS_STACK_PAGES * 0x1000) 0x23.

Definition proc_create (parent : Z) : cmd (kstate A) Z :=
  process <- on_store (new_obj SIZEOF_PROC (OProc zero_proc)) ;;
  upd_proc process (set_cpl PROCESS_PRV_USER) ;;;
  id <- proc_get_pid ;;
  upd_proc process (set_pid id) ;;;
  nodes <- on_store linked_list_create ;;
  upd_proc process (set_p_nodes nodes) ;;;
  ws <- on_store linked_list_create ;;
  upd_proc process (set_waiters ws) ;;;
  upd_proc process (set_p_state PROCESS_STATE_READY) ;;;
  upd_proc process (set_p_type PROCESS_TYPE_STANDALONE) ;;;
  upd_proc process (set_p_parent parent) ;;;
  dir <- run_paging (on_frames alloc_phys_page) ;;
  upd_proc process (set_proc_pdir dir) ;;;
  run_paging (map_kernel_tables dir) ;;;
  upd_proc process (set_heap_start PROCESS_HEAP) ;;;
  upd_proc process (set_heap_end 0) ;;;
  upd_proc process (set_proc_ustack_pages PROCESS_STACK_PAGES) ;;;
  phys <- on_store (new_obj (4 * PROCESS_STACK_PAGES) (OWords (replicate (Z.to_nat PROCESS_STACK_PAGES) 0))) ;;
  upd_proc process (set_proc_ustack_phys phys) ;;;
  for_ (Z.to_nat PROCESS_STACK_PAGES) 0 (create_stack_page process) ;;;
  stack <- on_store (new_obj (4096 * PROCESS_SYS_STACK_PAGES) ORaw) ;;
  upd_proc process (set_sys_stack stack) ;;;
  let regs := stack + (4096 * PROCESS_SYS_STACK_PAGES - SIZEOF_REGISTERS) in
  upd_proc process (set_proc_regs regs) ;;;
  modify (fun s => set_kregs (<[regs := first_frame]> s.(kregs)) s) ;;;
  upd_proc process (set_proc_tss tss_address) ;;;
  upd_proc process (set_fpu_regs (replicate 512 0)) ;;;
  p <- proc_at process ;;
  par <- proc_at p.(p_parent) ;;
  tree <- on_store (generic_tree_create process par.(where_am_i)) ;;
  upd_proc process (set_where_am_i tree) ;;;
  node <- gtty ;;
  proc_attach_node process node ;;;
  ret process.

(** [memcpy_32] of a kernel stack moves the register frames on it. *)
Definition copy_frames (dst src len : Z) (regs : gmap Z registers) : gmap Z registers :=
  kmap (fun a => a - src + dst) (filter (fun ar => src <= ar.1 < src + len) regs)
  ∪ filter (fun ar => ~ (dst <= ar.1 < dst + len)) regs.

(** The body of the stack loop of [proc_clone]. *)
Definition clone_stack_page (process parent i : Z) : cmd (kstate A) unit :=
  par <- proc_at parent ;;
  pws <- on_store (get_words par.(proc_ustack_phys)) ;;
  phys <- of_option (arr_get pws i) ;;
  p <- proc_at process ;;
  ws <- on_store (get_words p.(proc_ustack_phys)) ;;
  ws' <- of_option (arr_set ws i phys) ;;
  on_store (put_obj p.(proc_ustack_phys) (OWords ws')) ;;;
  run_paging (on_frames (alloc_phys_increase_refcount phys)).

Definition proc_clone (parent : Z) : cmd (kstate A) Z :=
  process <- on_store (new_obj SIZEOF_PROC (OProc zero_proc)) ;;
  upd_proc process (set_cpl PROCESS_PRV_USER) ;;;
  id <- proc_get_pid ;;
  upd_proc process (set_pid id) ;;;
  nodes <- on_store linked_list_create ;;
  upd_proc process (set_p_nodes nodes) ;;;
  par <- proc_at parent ;;
  linked_list_each par.(p_nodes) (fun item =>
    n <- on_store (get_node item) ;;
    p <- proc_at process ;;
    on_store (linked_list_append p.(p_nodes) n.(data)) ;;;
    ret tt) ;;;
  ws <- on_store linked_list_create ;;
  upd_proc process (set_waiters ws) ;;;
  upd_proc process (set_p_state PROCESS_STATE_READY) ;;;
  upd_proc process (set_p_type PROCESS_TYPE_CLONE) ;;;
  upd_proc process (set_p_parent parent) ;;;
  par <- proc_at parent ;;
  dir <- run_paging (clone_page_structures par.(proc_pdir)) ;;
  upd_proc process (set_proc_pdir dir) ;;;
  par <- proc_at parent ;;
  upd_proc process (set_heap_start par.(heap_start)) ;;;
  upd_proc process (set_heap_end par.(heap_end)) ;;;
  upd_proc process (set_proc_ustack_pages par.(proc_ustack_pages)) ;;;
  phys <- on_store (new_obj (u32 (4 * par.(proc_ustack_pages)))
                            (OWords (replicate (Z.to_nat par.(proc_ustack_pages)) 0))) ;;
  upd_proc process (set_proc_ustack_phys phys) ;;;
  for_ (Z.to_nat (i32 par.(proc_ustack_pages))) 0 (clone_stack_page process parent) ;;;
  stack <- on_store (new_obj (4096 * PROCESS_SYS_STACK_PAGES) ORaw) ;;
  upd_proc process (set_sys_stack stack) ;;;
  upd_proc process (set_proc_regs (stack + (4096 * PROCESS_SYS_STACK_PAGES - SIZEOF_REGISTERS))) ;;;
  par <- proc_at parent ;;
  modify (fun s => set_kregs
    (copy_frames stack par.(sys_stack) (4 * (1024 * PROCESS_SYS_STACK_PAGES)) s.(kregs)) s) ;;;
  upd_proc process (set_proc_tss par.(proc_tss)) ;;;
  upd_proc process (set_fpu_regs par.(fpu_regs)) ;;;
  p <- proc_at process ;;
  par <- proc_at p.(p_parent) ;;
  tree <- on_store (generic_tree_create process par.(where_am_i)) ;;
  upd_proc process (set_where_am_i tree) ;;;
  par <- proc_at parent ;;
  name <- buf_copy SIZEOF_NAME par.(p_name) ;;
  name <- buf_copy SIZEOF_NAME (name ++ STR_clone) ;;
  upd_proc process (set_p_name name) ;;;
  details <- buf_copy SIZEOF_DETAILS par.(p_details) ;;
  details <- buf_copy SIZEOF_DETAILS (details ++ STR_clone) ;;
  upd_proc process (set_p_details details) ;;;
  ret process.

(** The body of the loop over waiting processes in [proc_destroy]. *)
Definition wake_waiter (process item : Z) : cmd (kstate A) unit :=
  n <- on_store (get_node item) ;;
  let waiter := n.(data) in
  p <- proc_at process ;;
  w <- proc_at waiter ;;
  upd_frame w.(proc_regs) (set_eax p.(pid)) ;;;
  sched_purge_process waiter ;;;
  sched_make_ready waiter.

(** The body of the loop over children in [proc_destroy]. *)
Definition reparent_child (parent_proc parent_tree item : Z) : cmd (kstate A) unit :=
  n <- on_store (get_node item) ;;
  let child_tree := n.(data) in
  t <- on_store (get_tree child_tree) ;;
  let child := t.(t_data) in
  upd_proc child (set_p_parent parent_proc) ;;;
  on_store (set_parent_tree child_tree parent_tree) ;;;
  pt <- on_store (get_tree parent_tree) ;;
  on_store (linked_list_append pt.(sub_trees) child_tree) ;;;
  upd_proc child (set_p_type PROCESS_TYPE_STANDALONE).

Definition proc_destroy (process : Z) : cmd (kstate A) unit :=
  p <- proc_at process ;;
  if p.(pid) =? 1 then ret tt
  else
    on_store (linked_list_destroy p.(p_nodes)) ;;;
    p <- proc_at process ;;
    linked_list_each p.(waiters) (wake_waiter process) ;;;
    p <- proc_at process ;;
    on_store (linked_list_destroy p.(waiters)) ;;;
    p <- proc_at process ;;
    on_store (free_obj p.(sys_stack)) ;;;
    p <- proc_at process ;;
    let parent_proc := p.(p_parent) in
    par <- proc_at parent_proc ;;
    let parent_tree := par.(where_am_i) in
    let tree := p.(where_am_i) in
    t <- on_store (get_tree tree) ;;
    l <- on_store (get_list t.(sub_trees)) ;;
    (if 0 <? l.(list_length) then
       linked_list_each t.(sub_trees) (reparent_child parent_proc parent_tree)
     else ret tt) ;;;
    pt <- on_store (get_tree parent_tree) ;;
    tree_node <- on_store (linked_list_find pt.(sub_trees) tree) ;;
    pt <- on_store (get_tree parent_tree) ;;
    on_store (linked_list_remove pt.(sub_trees) tree_node) ;;;
    on_store (generic_tree_destroy tree) ;;;
    p <- proc_at process ;;
    on_store (free_obj p.(proc_ustack_phys)) ;;;
    p <- proc_at process ;;
    run_paging (nuke_page_directory p.(proc_pdir)) ;;;
    on_store (free_obj process).
End lifecycle.

(** ** Preemption *)

Definition sched_get_next (current : Z) : cmd (kstate A) Z :=
  c <- proc_at current ;;
  (if c.(p_state) =? PROCESS_STATE_LIVING then sched_make_ready current else ret tt) ;;;
  ready <- sched_get_ready ;;
  dead <- sched_get_dead ;;
  kernel <- gets kernel_process ;;
  (if negb (dead =? 0) && (current =? kernel) then proc_destroy dead else ret tt) ;;;
  c <- proc_at current ;;
  (if c.(p_state) =? PROCESS_STATE_DEAD then sched_make_dead current else ret tt) ;;;
  ret ready.

Definition sched_preempt_handler (regs : Z) : cmd (kstate A) Z :=
  current <- proc_get_current_proc ;;
  upd_proc current (set_proc_regs regs) ;;;
  fpu_save current ;;;
  new <- sched_get_next current ;;
  n <- proc_at new ;;
  (if n.(cpl) =? PROCESS_PRV_USER then
     modify (fun s => set_tss s.(tss_esp0) 0x10 s) ;;;
     modify (fun s => set_tss (u32 (n.(sys_stack) + 4096 * PROCESS_SYS_STACK_PAGES)) s.(tss_ss0) s)
   else ret tt) ;;;
  n <- proc_at new ;;
  run_paging (swap_page_directory n.(proc_pdir)) ;;;
  upd_proc new (set_p_state PROCESS_STATE_LIVING) ;;;
  proc_set_current_proc new ;;;
  fpu_reload new ;;;
  n <- proc_at new ;;
  ret n.(proc_regs).

(** The addresses of [sched_preempt_handler] and [sched_timekeeper]. *)
Section boot.
Variables (preempt_address timekeeper_address : Z).

Definition initialise_scheduler (kernel : Z) : cmd (Idt.istate (kstate A)) unit :=
  Idt.disable_interrupts ;;;
  Idt.on_world (
    modify (set_kernel_process kernel) ;;;
    q <- on_store (create_queue SCHED_MAX_READY) ;;
    modify (set_ready_queue q) ;;;
    q <- on_store (create_queue SCHED_MAX_DEAD) ;;
    modify (set_dead_queue q) ;;;
    l <- on_store linked_list_create ;;
    modify (set_napping l) ;;;
    proc_set_current_proc kernel ;;;
    id <- install_pit_routine preempt_address 1 ;;
    modify (fun s => set_sched_routines id s.(sched_timekeeper_routine_id) s) ;;;
    id <- install_pit_routine timekeeper_address 1 ;;
    modify (fun s => set_sched_routines s.(sched_routine_id) id s)) ;;;
  Idt.enable_interrupts.

(** The timer's calls through routine pointers. *)
Definition pit_call (f regs : Z) : cmd (kstate A) Z :=
  if f =? preempt_address then sched_preempt_handler regs
  else if f =? timekeeper_address then sched_timekeeper regs
  else fault.
End boot.
End operations.
