(* ===== verification/Scheduler.v ===== *)
(** The scheduler's behaviour: what a preemption does to the ready queue, the
    current process and its context, and that rotation is fair. *)
From stdpp Require Import base numbers gmap list.
From S2P Require Import Prelude Allocator Paging Store LinkedList QueueModel KState Process.

(** * The two queues in memory *)

Lemma queue_rep_frame m m' X q lim xs :
  queue_rep m q lim xs -> untouched X m m' -> (forall a, a ∈ owned q xs -> a ∉ X) ->
  queue_rep m' q lim xs.
Proof.
  intros (Hl & Hs & Hnd) Hu Hd. split_and!; [| |done].
  - rewrite (Hu q); [done| |by eexists]. apply Hd. left.
  - eapply dlseg_ext; [|done]. intros a Ha. apply Hu; [apply Hd; by right|].
    destruct (dlseg_node _ _ _ _ _ Hs Ha). by eexists.
Qed.

(** Queues at [q1] and [q2], sharing no object, hold [d1] and [d2]. *)
Definition two_queues (m : gmap Z obj) (q1 q2 : Z) (d1 d2 : list Z) : Prop :=
  exists xs ys, queue_rep m q1 256 xs /\ queue_rep m q2 256 ys /\ xs.*2 = d1 /\ ys.*2 = d2 /\
    q1 <> q2 /\ forall a, a ∈ xs.*1 -> a ∉ ys.*1.

Lemma two_queues_swap m q1 q2 d1 d2 : two_queues m q1 q2 d1 d2 -> two_queues m q2 q1 d2 d1.
Proof.
  intros (xs & ys & H1 & H2 & H3 & H4 & H5 & H6). exists ys, xs. split_and!; try done.
  intros a Ha Hb. by apply (H6 a).
Qed.

Lemma queue_rep_live m q lim xs a : queue_rep m q lim xs -> a ∈ owned q xs ->
  exists o, m !! a = Some o /\ match o with ONode _ | OQueue _ => True | _ => False end.
Proof.
  intros (Hq & Hs & _) [->|Hin]%elem_of_cons; [by eexists|].
  destruct (dlseg_node _ _ _ _ _ Hs Hin) as [n Hn]. by exists (ONode n).
Qed.

(** The process at an address, and that processes survive a change of memory. *)
Definition proc_in (m : gmap Z obj) (p : Z) : option proc :=
  match m !! p with Some (OProc x) => Some x | _ => None end.
Definition keeps_procs (m m' : gmap Z obj) : Prop :=
  forall p x, proc_in m p = Some x -> proc_in m' p = Some x.

Lemma proc_in_Some m p x : proc_in m p = Some x <-> m !! p = Some (OProc x).
Proof. unfold proc_in. destruct (m !! p) as [[]|]; naive_solver. Qed.

Lemma keeps_procs_trans m1 m2 m3 : keeps_procs m1 m2 -> keeps_procs m2 m3 -> keeps_procs m1 m3.
Proof. intros H1 H2 p x Hx. by apply H2, H1. Qed.

Lemma proc_in_insert m p x q :
  proc_in (<[p := OProc x]> m) q = if decide (q = p) then Some x else proc_in m q.
Proof.
  unfold proc_in. case_decide as Hq; [subst; by rewrite lookup_insert_eq|].
  by rewrite lookup_insert_ne.
Qed.

Lemma queue_rep_no_proc m q lim xs p x :
  queue_rep m q lim xs -> proc_in m p = Some x -> p ∉ owned q xs.
Proof.
  intros Hrep Hp%proc_in_Some Hin. destruct (queue_rep_live _ _ _ _ _ Hrep Hin) as (o & Ho & Hm).
  rewrite Hp in Ho. by injection Ho as <-.
Qed.

Lemma untouched_keeps_procs m m' q lim xs :
  queue_rep m q lim xs -> untouched (owned q xs) m m' -> keeps_procs m m'.
Proof.
  intros Hrep Hu p x Hx. pose proof (queue_rep_no_proc _ _ _ _ _ _ Hrep Hx) as Hn.
  apply proc_in_Some in Hx. apply proc_in_Some. rewrite Hu; [done|done|by eexists].
Qed.

(** Writing a process structure does not disturb the queues. *)
Lemma two_queues_proc m q1 q2 d1 d2 p x y :
  two_queues m q1 q2 d1 d2 -> proc_in m p = Some x ->
  two_queues (<[p := OProc y]> m) q1 q2 d1 d2.
Proof.
  intros (xs & ys & H1 & H2 & H3 & H4 & H5 & H6) Hp.
  assert (Hu : untouched [p] m (<[p := OProc y]> m)).
  { intros a Ha _. rewrite lookup_insert_ne; [done|]. intros ->. apply Ha. left. }
  exists xs, ys. split_and!; try done.
  - eapply queue_rep_frame; [done|exact Hu|]. intros a Ha ->%list_elem_of_singleton.
    by eapply queue_rep_no_proc in Ha.
  - eapply queue_rep_frame; [done|exact Hu|]. intros a Ha ->%list_elem_of_singleton.
    by eapply queue_rep_no_proc in Ha.
Qed.

Section queues.
Context {A : Type} `{Allocator A}.
Implicit Types (st : store A).

(** An operation on the first queue that satisfies its own contract. *)
Lemma two_queues_post k m q1 q2 xs ys d1 st :
  queue_rep m q1 256 xs -> queue_rep m q2 256 ys -> q1 <> q2 ->
  (forall a, a ∈ xs.*1 -> a ∉ ys.*1) ->
  qpost k m q1 256 xs d1 st ->
  store_ok k st /\ two_queues st.(objs) q1 q2 d1 ys.*2 /\ keeps_procs m st.(objs).
Proof.
  intros H1 H2 Hne Hd (xs' & Hok & H1' & Hds & Hu & Hin).
  assert (Hsep : forall a, a ∈ owned q2 ys -> a ∉ owned q1 xs).
  { intros a Ha Hb. destruct (queue_rep_live _ _ _ _ _ H2 Ha) as (o & Ho & _).
    apply elem_of_cons in Ha as [->|Ha]; apply elem_of_cons in Hb as [->|Hb].
    - done.
    - destruct H1 as (_ & Hs & _). destruct (dlseg_node _ _ _ _ _ Hs Hb) as [n Hn].
      destruct H2 as (Hq & _). congruence.
    - destruct H2 as (_ & Hs & _). destruct (dlseg_node _ _ _ _ _ Hs Ha) as [n Hn].
      destruct H1 as (Hq & _). congruence.
    - exact (Hd a Hb Ha). }
  split; [done|]. split.
  - exists xs', ys. split_and!; try done; [by eapply queue_rep_frame|].
    intros a [Ha|Ha]%Hin Hb; [exact (Hd a Ha Hb)|].
    destruct H2 as (_ & Hs & _). destruct (dlseg_node _ _ _ _ _ Hs Hb). congruence.
  - exact (untouched_keeps_procs _ _ _ _ _ H1 Hu).
Qed.

Definition admit_to (ds : list Z) (d : Z) : list Z :=
  if Z.of_nat (length ds) <? 256 then ds ++ [d] else ds.

Lemma enqueue_first k al m q1 q2 d1 d2 d :
  store_ok (S k) (Store al m) -> two_queues m q1 q2 d1 d2 -> d <> 0 ->
  wp (queue_enqueue q1 d) (fun _ st =>
    store_ok k st /\ two_queues st.(objs) q1 q2 (admit_to d1 d) d2 /\ keeps_procs m st.(objs))
    (Store al m).
Proof.
  intros Hok (xs & ys & H1 & H2 & <- & <- & H5 & H6) Hd. eapply wp_mono; [by eapply queue_enqueue_spec|].
  intros r st [_ Hp]. unfold admit_to. rewrite length_fmap. unfold accepts in Hp.
  change (256 =? -1) with false in Hp. rewrite orb_false_r in Hp.
  eapply (two_queues_post k m q1 q2 xs ys); try done.
Qed.

Lemma dequeue_first k al m q1 q2 d1 d2 :
  store_ok k (Store al m) -> two_queues m q1 q2 d1 d2 ->
  wp (queue_dequeue q1) (fun r st => r = hd 0 d1 /\
    store_ok k st /\ two_queues st.(objs) q1 q2 (tl d1) d2 /\ keeps_procs m st.(objs))
    (Store al m).
Proof.
  intros Hok (xs & ys & H1 & H2 & <- & <- & H5 & H6). eapply wp_mono; [by eapply queue_dequeue_spec|].
  intros r st [-> Hp]. split; [done|]. eapply (two_queues_post k m q1 q2 xs ys); try done.
Qed.

Lemma force_remove_first k al m q1 q2 d1 d2 d :
  store_ok k (Store al m) -> two_queues m q1 q2 d1 d2 -> d <> 0 ->
  wp (queue_force_remove q1 d) (fun _ st =>
    store_ok k st /\ two_queues st.(objs) q1 q2 (others d d1) d2 /\ keeps_procs m st.(objs))
    (Store al m).
Proof.
  intros Hok (xs & ys & H1 & H2 & <- & <- & H5 & H6) Hd.
  eapply wp_mono; [by eapply queue_force_remove_spec|].
  intros u st Hp. eapply (two_queues_post k m q1 q2 xs ys); try done.
Qed.
End queues.

(** * Scheduling decisions *)

Section kernel.
Context {A : Type} `{Paged A}.
Implicit Types (s : kstate A).

Lemma wp_on_store {B} (c : cmd (store A) B) Q s :
  wp c (fun b st => Q b (set_kstore st s)) s.(kstore) -> wp (on_store c) Q s.
Proof. unfold wp, on_store. by destruct (c (kstore s)) as [[b st]| |]. Qed.

(** Processes in the kernel state. *)
Definition kproc s (p : Z) : option proc := proc_in s.(kstore).(objs) p.
Definition put_proc (p : Z) (x : proc) (st : store A) : store A :=
  Store st.(alloc) (<[p := OProc x]> st.(objs)).

Lemma wp_proc_at p x Q s : kproc s p = Some x -> Q x s -> wp (proc_at p) Q s.
Proof.
  intros Hp%proc_in_Some HQ. apply wp_on_store. unfold wp, get_proc. rewrite Hp. by destruct s.
Qed.

Lemma wp_upd_proc p f x (Q : unit -> kstate A -> Prop) s :
  kproc s p = Some x -> Q tt (set_kstore (put_proc p (f x) s.(kstore)) s) -> wp (upd_proc p f) Q s.
Proof.
  intros Hp%proc_in_Some HQ. apply wp_on_store, wp_bind. unfold wp at 1, get_proc. rewrite Hp. exact HQ.
Qed.

Lemma put_proc_ok k p x y st :
  store_ok k st -> proc_in st.(objs) p = Some x -> store_ok k (put_proc p y st).
Proof.
  intros Hok Hp%proc_in_Some. apply (store_ok_put k st p (OProc y)); [done|by eexists|done].
Qed.

Lemma proc_in_nonzero k st p x : store_ok k st -> proc_in st.(objs) p = Some x -> p <> 0.
Proof. intros (_ & _ & _ & Hz) Hp%proc_in_Some. congruence. Qed.

(** The queues of [s] hold [ready] and [dead]. *)
Definition queues s (st : store A) (ready dead : list Z) : Prop :=
  two_queues st.(objs) s.(ready_queue) s.(dead_queue) ready dead.

(** Only the store changed, the queues are as stated, and the processes are
    those of [m]. *)
Definition sched_post k s (m : gmap Z obj) ready dead s' : Prop :=
  exists st, s' = set_kstore st s /\ store_ok k st /\ queues s st ready dead /\
    keeps_procs m st.(objs).

Lemma sched_make_ready_spec k s p x ready dead :
  store_ok (S k) s.(kstore) -> queues s s.(kstore) ready dead -> kproc s p = Some x ->
  wp (sched_make_ready p) (fun _ =>
    sched_post k s (put_proc p (set_p_state PROCESS_STATE_READY x) s.(kstore)).(objs)
      (admit_to ready p) dead) s.
Proof.
  intros Hok Hq Hp. unfold sched_make_ready. apply wp_bind. eapply wp_upd_proc; [done|].
  apply wp_bind, wp_gets, wp_bind, wp_on_store. eapply wp_mono.
  { apply enqueue_first.
    - by eapply put_proc_ok.
    - by eapply two_queues_proc.
    - by eapply proc_in_nonzero. }
  intros r st (Hok' & Hq' & Hk). apply wp_ret. exists st. split_and!; done.
Qed.

Lemma sched_make_dead_spec k s p x ready dead :
  store_ok (S k) s.(kstore) -> queues s s.(kstore) ready dead -> kproc s p = Some x ->
  wp (sched_make_dead p) (fun _ =>
    sched_post k s (put_proc p (set_p_state PROCESS_STATE_DEAD x) s.(kstore)).(objs)
      ready (admit_to dead p)) s.
Proof.
  intros Hok Hq Hp. unfold sched_make_dead. apply wp_bind. eapply wp_upd_proc; [done|].
  apply wp_bind, wp_gets, wp_bind, wp_on_store. eapply wp_mono.
  { apply enqueue_first.
    - by eapply put_proc_ok.
    - apply two_queues_swap. by eapply two_queues_proc.
    - by eapply proc_in_nonzero. }
  intros r st (Hok' & Hq' & Hk). apply wp_ret. exists st. split_and!; try done. by apply two_queues_swap.
Qed.

Lemma sched_purge_spec k s p x ready dead :
  store_ok k s.(kstore) -> queues s s.(kstore) ready dead -> kproc s p = Some x ->
  wp (sched_purge_process p) (fun _ =>
    sched_post k s s.(kstore).(objs) (others p ready) (others p dead)) s.
Proof.
  intros Hok Hq Hp. pose proof (proc_in_nonzero _ _ _ _ Hok Hp) as Hz. unfold sched_purge_process.
  apply wp_bind, wp_gets, wp_bind, wp_on_store. destruct (kstore s) as [al m] eqn:Hst. eapply wp_mono.
  { by apply force_remove_first. }
  intros u [al' m'] (Hok' & Hq' & Hk). apply wp_bind, wp_gets, wp_on_store. eapply wp_mono.
  { apply force_remove_first; [exact Hok'|apply two_queues_swap; exact Hq'|done]. }
  intros u' st (Hok2 & Hq2 & Hk2). exists st. split_and!; [done|done|by apply two_queues_swap|].
  by eapply keeps_procs_trans.
Qed.

Lemma sched_get_ready_spec k s ready dead :
  store_ok k s.(kstore) -> queues s s.(kstore) ready dead ->
  wp sched_get_ready (fun r s' => r = hd 0 ready /\
    sched_post k s s.(kstore).(objs) (tl ready) dead s') s.
Proof.
  intros Hok Hq. apply wp_bind, wp_gets, wp_on_store. destruct (kstore s) as [al m] eqn:Hst.
  eapply wp_mono; [by apply dequeue_first|]. intros r st (-> & Hok' & Hq' & Hk).
  split; [done|]. exists st. split_and!; done.
Qed.

Lemma sched_get_dead_spec k s ready dead :
  store_ok k s.(kstore) -> queues s s.(kstore) ready dead ->
  wp sched_get_dead (fun r s' => r = hd 0 dead /\
    sched_post k s s.(kstore).(objs) ready (tl dead) s') s.
Proof.
  intros Hok Hq. apply wp_bind, wp_gets, wp_on_store. destruct (kstore s) as [al m] eqn:Hst.
  eapply wp_mono; [apply dequeue_first; [done|by apply two_queues_swap]|].
  intros r st (-> & Hok' & Hq' & Hk).
  split; [done|]. exists st. split_and!; try done. by apply two_queues_swap.
Qed.

Lemma sched_post_elim k s m ready dead s' :
  sched_post k s m ready dead s' ->
  store_ok k s'.(kstore) /\ queues s' s'.(kstore) ready dead /\
  (forall p x, proc_in m p = Some x -> kproc s' p = Some x) /\ s' = set_kstore s'.(kstore) s.
Proof. intros (st & -> & Hok & Hq & Hk). split_and!; try done. Qed.

Lemma sched_post_trans k1 k s m r1 d1 s1 r2 d2 s2 :
  sched_post k1 s m r1 d1 s1 -> sched_post k s1 s1.(kstore).(objs) r2 d2 s2 ->
  sched_post k s m r2 d2 s2.
Proof.
  intros (st1 & -> & _ & _ & Hk1) (st2 & -> & Hok & Hq & Hk2). exists st2. split_and!; try done.
  by eapply keeps_procs_trans.
Qed.

Lemma kproc_put s p x q :
  proc_in (put_proc p x s.(kstore)).(objs) q = if decide (q = p) then Some x else kproc s q.
Proof. apply proc_in_insert. Qed.

Lemma sched_get_next_living k s cur c ready dead :
  store_ok (S k) s.(kstore) -> queues s s.(kstore) ready dead ->
  kproc s cur = Some c -> c.(p_state) = PROCESS_STATE_LIVING ->
  dead = [] \/ cur <> s.(kernel_process) ->
  wp (sched_get_next cur) (fun r s' => r = hd 0 (admit_to ready cur) /\
    sched_post k s (put_proc cur (set_p_state PROCESS_STATE_READY c) s.(kstore)).(objs)
      (tl (admit_to ready cur)) (tl dead) s') s.
Proof.
  intros Hok Hq Hc Hl Hd. unfold sched_get_next. apply wp_bind. eapply wp_proc_at; [exact Hc|].
  rewrite Hl, Z.eqb_refl. apply wp_bind. eapply wp_mono; [by eapply sched_make_ready_spec|].
  intros u s1 Hp1. destruct (sched_post_elim _ _ _ _ _ _ Hp1) as (Hok1 & Hq1 & Hk1 & Hs1).
  apply wp_bind. eapply wp_mono; [by eapply sched_get_ready_spec|]. intros r s2 [-> Hp2].
  destruct (sched_post_elim _ _ _ _ _ _ Hp2) as (Hok2 & Hq2 & Hk2 & Hs2).
  apply wp_bind. eapply wp_mono; [by eapply sched_get_dead_spec|]. intros d s3 [-> Hp3].
  destruct (sched_post_elim _ _ _ _ _ _ Hp3) as (Hok3 & Hq3 & Hk3 & Hs3).
  apply wp_bind, wp_gets, wp_bind.
  assert (Hkp : kernel_process s3 = kernel_process s) by (rewrite Hs3, Hs2, Hs1; reflexivity).
  assert (Hg : negb (hd 0 dead =? 0) && (cur =? kernel_process s3) = false).
  { destruct Hd as [-> | Hd]; [done|]. rewrite Hkp, (proj2 (Z.eqb_neq cur _)) by done. by rewrite andb_false_r. }
  rewrite Hg. apply wp_ret, wp_bind.
  eapply wp_proc_at; [apply Hk3, Hk2, Hk1; rewrite kproc_put, decide_True by done; reflexivity|].
  cbn [p_state set_p_state]. apply wp_bind, wp_ret, wp_ret. split; [done|].
  exact (sched_post_trans _ _ _ _ _ _ _ _ _ _ Hp1 (sched_post_trans _ _ _ _ _ _ _ _ _ _ Hp2 Hp3)).
Qed.

(** What a preemption leaves: the process chosen, its context, the queues, and
    the processes of [m]. *)
Record switched k s (m : gmap Z obj) (new : Z) (n : proc) ready dead s' : Prop := {
  sw_store : store_ok k s'.(kstore);
  sw_queues : queues s' s'.(kstore) ready dead;
  sw_current : s'.(current_process) = new;
  sw_new : kproc s' new = Some (set_p_state PROCESS_STATE_LIVING n);
  sw_others : forall p x, p <> new -> proc_in m p = Some x -> kproc s' p = Some x;
  sw_dir : cur_dir s'.(kstore).(alloc) = n.(proc_pdir);
  sw_fpu : s'.(fpu_unit) = n.(fpu_regs);
  sw_tss : n.(cpl) = PROCESS_PRV_USER ->
    s'.(tss_esp0) = u32 (n.(sys_stack) + 8192) /\ s'.(tss_ss0) = 0x10;
  sw_kernel : s'.(kernel_process) = s.(kernel_process) /\ s'.(ready_queue) = s.(ready_queue) /\
    s'.(dead_queue) = s.(dead_queue) /\ s'.(kregs) = s.(kregs)
}.

(** The second half of the handler: switching to the chosen process. *)
Lemma switch_to_spec k s s1 m ready dead new n :
  sched_post k s m ready dead s1 -> proc_in m new = Some n -> n.(proc_pdir) ∈ dirs ->
  wp (n0 <- proc_at new ;;
      (if n0.(cpl) =? PROCESS_PRV_USER then
         modify (fun s => set_tss s.(tss_esp0) 0x10 s) ;;;
         modify (fun s => set_tss (u32 (n0.(sys_stack) + 4096 * PROCESS_SYS_STACK_PAGES)) s.(tss_ss0) s)
       else ret tt) ;;;
      n1 <- proc_at new ;;
      run_paging (swap_page_directory n1.(proc_pdir)) ;;;
      upd_proc new (set_p_state PROCESS_STATE_LIVING) ;;;
      proc_set_current_proc new ;;;
      fpu_reload new ;;;
      n2 <- proc_at new ;;
      ret n2.(proc_regs))
     (fun r s' => r = n.(proc_regs) /\ switched k s m new n ready dead s') s1.
Proof.
  intros (st & -> & Hok & Hq & Hk) Hn Hdir. pose proof (Hk _ _ Hn) as Hn1.
  apply wp_bind. eapply wp_proc_at; [exact Hn1|]. apply wp_bind.
  eapply (wp_mono _ (fun _ s2 => exists e z, s2 = set_tss e z (set_kstore st s) /\
    (n.(cpl) = PROCESS_PRV_USER -> e = u32 (n.(sys_stack) + 8192) /\ z = 0x10))).
  { destruct (Z.eqb_spec (cpl n) PROCESS_PRV_USER) as [Hu|Hu].
    - apply wp_bind, wp_modify, wp_modify. by eexists _, _.
    - apply wp_ret. by exists s.(tss_esp0), s.(tss_ss0). }
  intros u s2 (e & z & -> & Htss). apply wp_bind. eapply wp_proc_at; [exact Hn1|].
  apply wp_bind, wp_on_store. unfold wp at 1. cbn [kstore set_tss set_kstore].
  destruct Hok as (Hi & Hr & Hdom & Hz).
  destruct (wp_inv _ _ _ (on_swap_ok _ _ _ Hdir Hi Hr)) as ([] & al & -> & Hi' & Hr' & Hl & Hcd).
  assert (Hok' : store_ok k (Store al st.(objs))) by (split_and!; try done; cbn; by rewrite Hl).
  apply wp_bind. eapply wp_upd_proc; [exact Hn1|]. apply wp_bind, wp_modify, wp_bind.
  set (s3 := set_current _ _).
  assert (Hn3 : kproc s3 new = Some (set_p_state PROCESS_STATE_LIVING n)).
  { etransitivity; [exact (proc_in_insert st.(objs) new _ new)|]. by rewrite decide_True. }
  apply wp_bind. eapply wp_proc_at; [exact Hn3|]. apply wp_modify, wp_bind.
  eapply wp_proc_at; [exact Hn3|]. apply wp_ret. split; [done|]. split; try done.
  - apply (put_proc_ok _ _ n _ (Store al st.(objs))); [done|exact Hn1].
  - apply (two_queues_proc _ _ _ _ _ _ n); [exact Hq|exact Hn1].
  - intros p x Hp Hx. etransitivity; [exact (proc_in_insert st.(objs) new _ p)|].
    rewrite decide_False by done. by apply Hk.
Qed.

(** The current process as a preemption with frame [regs] parks it. *)
Definition parked s (regs : Z) (c : proc) : proc :=
  set_p_state PROCESS_STATE_READY (set_fpu_regs s.(fpu_unit) (set_proc_regs regs c)).

Lemma preempt_spec k s regs c n ready dead :
  store_ok (S k) s.(kstore) -> queues s s.(kstore) ready dead ->
  kproc s s.(current_process) = Some c -> c.(p_state) = PROCESS_STATE_LIVING ->
  dead = [] \/ s.(current_process) <> s.(kernel_process) ->
  let m := (put_proc s.(current_process) (parked s regs c) s.(kstore)).(objs) in
  let line := admit_to ready s.(current_process) in
  proc_in m (hd 0 line) = Some n -> n.(proc_pdir) ∈ dirs ->
  wp (sched_preempt_handler regs) (fun r s' => r = n.(proc_regs) /\
    switched k s m (hd 0 line) n (tl line) (tl dead) s') s.
Proof.
  intros Hok Hq Hc Hl Hd m line Hn Hdir. unfold sched_preempt_handler.
  apply wp_bind, wp_gets, wp_bind. eapply wp_upd_proc; [exact Hc|]. apply wp_bind, wp_bind, wp_modify, wp_bind, wp_gets.
  eapply wp_upd_proc.
  { etransitivity; [exact (proc_in_insert s.(kstore).(objs) s.(current_process) _ _)|]. by rewrite decide_True. }
  set (c2 := set_fpu_regs _ _). set (s2 := set_kstore _ _).
  assert (Hm2 : (put_proc s.(current_process) (set_p_state PROCESS_STATE_READY c2) s2.(kstore)).(objs) = m).
  { cbn. by rewrite !insert_insert_eq. }
  assert (Hc2 : kproc s2 s.(current_process) = Some c2).
  { etransitivity; [exact (proc_in_insert _ s.(current_process) c2 _)|]. by rewrite decide_True. }
  apply wp_bind. eapply wp_mono.
  { apply (sched_get_next_living k s2 s.(current_process) c2 ready dead); [| |exact Hc2|exact Hl|exact Hd].
    - eapply put_proc_ok; [eapply put_proc_ok; [exact Hok|exact Hc]|].
      etransitivity; [exact (proc_in_insert _ s.(current_process) _ _)|]. by rewrite decide_True.
    - eapply two_queues_proc; [eapply two_queues_proc; [exact Hq|exact Hc]|].
      etransitivity; [exact (proc_in_insert _ s.(current_process) _ _)|]. by rewrite decide_True. }
  intros r s3 [-> Hp3]. rewrite Hm2 in Hp3. eapply wp_mono; [by eapply switch_to_spec|].
  intros r s' [-> Hsw]. split; [done|]. destruct Hsw; split; try assumption.
Qed.

(** ** Rotation *)

Definition runnable s (p : Z) : Prop := exists x, kproc s p = Some x /\ x.(proc_pdir) ∈ dirs.

(** The line of processes: the current one, living and with its page directory
    loaded, followed by the ready queue; nobody waits to be destroyed. *)
Record rotation k s (line : list Z) : Prop := {
  ro_store : store_ok k s.(kstore);
  ro_queues : queues s s.(kstore) (tl line) [];
  ro_current : s.(current_process) = hd 0 line;
  ro_living : exists c, kproc s s.(current_process) = Some c /\ c.(p_state) = PROCESS_STATE_LIVING /\
    cur_dir s.(kstore).(alloc) = c.(proc_pdir);
  ro_runnable : Forall (runnable s) line
}.

Definition rotate1 (line : list Z) : list Z :=
  match line with [] => [] | p :: line' => line' ++ [p] end.

Lemma parked_runnable s regs c p :
  kproc s s.(current_process) = Some c -> runnable s s.(current_process) -> runnable s p ->
  exists x, proc_in (put_proc s.(current_process) (parked s regs c) s.(kstore)).(objs) p = Some x /\
    x.(proc_pdir) ∈ dirs.
Proof.
  intros Hc (c' & Hc' & Hd) (x & Hx & Hdx). rewrite kproc_put. case_decide as Hp.
  - eexists. split; [done|]. cbn. congruence.
  - by exists x.
Qed.

Lemma rotation_step k s regs line :
  rotation (S k) s line -> line <> [] -> (length line <= 256)%nat ->
  wp (sched_preempt_handler regs) (fun _ s' => rotation k s' (rotate1 line)) s.
Proof.
  intros Hr Hne Hlen. destruct line as [|cur ready]; [done|]. cbn [rotate1].
  destruct Hr as [Hok Hq Hcur (c & Hc & Hl & _) Hall]. cbn [hd tl] in *.
  assert (Hrun : forall p, p ∈ ready ++ [cur] -> runnable s p).
  { intros p Hp. rewrite Forall_forall in Hall. apply Hall. set_solver. }
  assert (Hline : admit_to ready s.(current_process) = ready ++ [cur]).
  { unfold admit_to. rewrite Hcur, (proj2 (Z.ltb_lt _ _)) by (cbn in Hlen; lia). done. }
  assert (Hhd : hd 0 (ready ++ [cur]) ∈ ready ++ [cur]) by (destruct ready; cbn; left).
  destruct (parked_runnable s regs c (hd 0 (ready ++ [cur])) Hc) as (n & Hn & Hd).
  { rewrite Hcur. apply Hrun. set_solver. }
  { by apply Hrun. }
  rewrite <- Hline in Hn. eapply wp_mono.
  { apply (preempt_spec k s regs c n ready []); [exact Hok|exact Hq|exact Hc|exact Hl|by left|exact Hn|exact Hd]. }
  intros r s' [_ Hsw]. rewrite Hline in Hsw. destruct Hsw. split; try done.
  - rewrite sw_current0. eexists. split_and!; [exact sw_new0|done|exact sw_dir0].
  - apply Forall_forall. intros p Hp. destruct (decide (p = hd 0 (ready ++ [cur]))) as [->|Hpn].
    + eexists. split; [exact sw_new0|exact Hd].
    + destruct (parked_runnable s regs c p Hc) as (x & Hx & Hdx).
      { rewrite Hcur. apply Hrun. set_solver. }
      { by apply Hrun. }
      exists x. split; [by apply sw_others0|exact Hdx].
Qed.

Fixpoint preempt_all (frames : list Z) : cmd (kstate A) unit :=
  match frames with
  | [] => ret tt
  | regs :: frames' => sched_preempt_handler regs ;;; preempt_all frames'
  end.

Lemma rotate1_length line : length (rotate1 line) = length line.
Proof. destruct line as [|p line]; [done|]. cbn. rewrite length_app. cbn. lia. Qed.

Lemma preempt_all_spec frames k s line :
  rotation (length frames + k) s line -> line <> [] -> (length line <= 256)%nat ->
  wp (preempt_all frames) (fun _ s' => rotation k s' (Nat.iter (length frames) rotate1 line)) s.
Proof.
  revert s line. induction frames as [|regs frames IH]; intros s line Hr Hne Hlen; cbn [preempt_all].
  { by apply wp_ret. }
  apply wp_bind. eapply wp_mono; [by apply (rotation_step (length frames + k))|]. intros r s' Hr'.
  cbn [length]. rewrite Nat.iter_succ_r. apply IH; [done| |].
  - intros Hnil. apply Hne, length_zero_iff_nil. by rewrite <- (rotate1_length line), Hnil.
  - by rewrite rotate1_length.
Qed.

Lemma iter_rotate1 i line :
  (i <= length line)%nat -> Nat.iter i rotate1 line = drop i line ++ take i line.
Proof.
  induction i as [|i IH]; intros Hi; [cbn; by rewrite drop_0, app_nil_r|].
  change (Nat.iter (S i) rotate1 line) with (rotate1 (Nat.iter i rotate1 line)). rewrite IH by lia.
  destruct (lookup_lt_is_Some_2 line i ltac:(lia)) as [x Hx].
  rewrite (drop_S _ _ _ Hx). cbn [rotate1 app]. by rewrite (take_S_r _ _ _ Hx), app_assoc.
Qed.

(** C4: round robin is fair: with the current process living, the ready queue
    behind it and nobody waiting to be destroyed, in a line of at most 256
    processes (the ready queue refuses more), the [i]-th process of that line is
    running after exactly [i] preemptions, whatever frames the interrupts saved; it
    is marked living and its page directory is loaded, and the line has only been
    rotated, so no process is lost or duplicated. *)
Theorem round_robin_fair i k s line p frames :
  rotation (i + k) s line -> (length line <= 256)%nat -> line !! i = Some p -> length frames = i ->
  wp (preempt_all frames) (fun _ s' =>
    s'.(current_process) = p /\ rotation k s' (drop i line ++ take i line) /\
    exists x, kproc s' p = Some x /\ x.(p_state) = PROCESS_STATE_LIVING /\ cur_dir s'.(kstore).(alloc) = x.(proc_pdir)) s.
Proof.
  intros Hr Hlen Hp <-. pose proof (lookup_lt_Some _ _ _ Hp) as Hi.
  eapply wp_mono; [apply preempt_all_spec; [exact Hr|intros ->; cbn in Hi; lia|done]|].
  intros u s' Hr'. rewrite iter_rotate1 in Hr' by lia.
  pose proof Hr' as [_ _ Hcur Hliv _]. rewrite (drop_S _ _ _ Hp) in Hcur. cbn [hd app] in Hcur.
  split_and!; [done|done|]. by rewrite <- Hcur.
Qed.

(** C28: a preemption of a living process, when no process waits to be destroyed
    or the process is not the kernel's (which would destroy it): the process is
    parked with the interrupt's frame and the floating-point unit's contents and
    queued behind the others, unless 256 are queued already: then it is in no queue
    any more.  The first process of the queue runs with its own frame, page
    directory, floating-point state and (in user mode) kernel stack, and is marked
    living; every other process is untouched, and one entry leaves the queue of the
    dead. *)
Theorem preempt_switches k s regs c n ready dead :
  store_ok (S k) s.(kstore) -> queues s s.(kstore) ready dead ->
  kproc s s.(current_process) = Some c -> c.(p_state) = PROCESS_STATE_LIVING ->
  dead = [] \/ s.(current_process) <> s.(kernel_process) ->
  let m := (put_proc s.(current_process) (parked s regs c) s.(kstore)).(objs) in
  let line := if decide (length ready < 256)%nat then ready ++ [s.(current_process)] else ready in
  proc_in m (hd 0 line) = Some n -> n.(proc_pdir) ∈ dirs ->
  wp (sched_preempt_handler regs) (fun r s' => r = n.(proc_regs) /\
    switched k s m (hd 0 line) n (tl line) (tl dead) s') s.
Proof.
  intros Hok Hq Hc Hl Hd m line Hn Hdir.
  assert (Hline : admit_to ready s.(current_process) = line).
  { unfold admit_to, line. by destruct (Z.ltb_spec (Z.of_nat (length ready)) 256), (decide _); try lia. }
  rewrite <- Hline in *. by apply (preempt_spec k s regs c n ready dead).
Qed.

(** A process that died is only reclaimed by a preemption of the kernel
    process.  When any other process is preempted, the first entry of the dead
    queue is removed and nothing else happens to it: its structure stays
    allocated, its waiters are not woken, and no queue refers to it. *)
Theorem dead_process_lost k s regs c n ready d x :
  store_ok (S k) s.(kstore) -> queues s s.(kstore) ready [d] ->
  kproc s s.(current_process) = Some c -> c.(p_state) = PROCESS_STATE_LIVING ->
  s.(current_process) <> s.(kernel_process) -> d <> s.(current_process) ->
  kproc s d = Some x ->
  let m := (put_proc s.(current_process) (parked s regs c) s.(kstore)).(objs) in
  let line := admit_to ready s.(current_process) in
  proc_in m (hd 0 line) = Some n -> n.(proc_pdir) ∈ dirs -> d ∉ line -> hd 0 line <> d ->
  wp (sched_preempt_handler regs) (fun r s' =>
    kproc s' d = Some x /\ queues s' s'.(kstore) (tl line) [] /\ d ∉ tl line) s.
Proof.
  intros Hok Hq Hc Hl Hk Hdc Hx m line Hn Hdir Hin Hhd. eapply wp_mono.
  { by apply (preempt_spec k s regs c n ready [d]); try right. }
  intros r s' [_ Hsw]. destruct Hsw. split_and!.
  - apply sw_others0; [done|]. unfold m. by rewrite kproc_put, decide_False.
  - done.
  - unfold line in *. intros Hd. apply Hin. destruct (admit_to _ _); [done|]. by right.
Qed.
End kernel.

(** * A machine with three processes *)

#[local] Existing Instances machine_allocator machine_paged.

Definition demo_proc (dir regs st user : Z) : proc :=
  Proc regs user dir 0x9000 0 (replicate 4 st) 0 0 [] [] 1 st 1 0 0 0 0 0 0.

Definition demo_objs (dead_node : bool) : gmap Z obj :=
  let m := {[ 1 := OQueue (Queue 2 3 2 256); 2 := ONode (DNode 0 3 11); 3 := ONode (DNode 2 0 12);
     10 := OProc (demo_proc 0x1000 500 PROCESS_STATE_LIVING PROCESS_PRV_USER);
     11 := OProc (demo_proc 0x2000 600 PROCESS_STATE_READY PROCESS_PRV_USER);
     12 := OProc (demo_proc 0x3000 700 PROCESS_STATE_READY PROCESS_PRV_USER) ]} in
  if dead_node then
    <[4 := OQueue (Queue 5 5 1 256)]> (<[5 := ONode (DNode 0 0 13)]>
      (<[13 := OProc (demo_proc 0x3000 800 PROCESS_STATE_DEAD PROCESS_PRV_USER)]> m))
  else <[4 := OQueue (Queue 0 0 0 256)]> m.

(** Paging with the directory of the first process. *)
Definition demo_pages : pstate :=
  PState demo_pm 3 demo_frames 0x101000 VIRT_PAGE_DIR_ADDR 1 TEMP_PAGE_ADDR 0x1000 true.
Definition demo_machine (dead_node : bool) : kstate (bump * pstate) :=
  KState (Store (bump_at 20 [1; 2; 3; 4; 5; 10; 11; 12; 13], demo_pages) (demo_objs dead_node))
    ∅ 0 0 0 10 1 4 0 99 0 0 0 0 0 0 0 (replicate 4 77) [].

Lemma demo_machine_store b : store_ok 100 (demo_machine b).(kstore).
Proof.
  destruct b; store_by_compute.
Qed.

Lemma demo_machine_queues b :
  queues (demo_machine b) (demo_machine b).(kstore) [11; 12] (if b then [13] else []).
Proof.
  exists [(2, 11); (3, 12)], (if b then [(5, 13)] else []).
  unfold queue_rep. destruct b; split_and!; try done; try (by vm_compute);
    try (by apply (bool_decide_unpack _); vm_compute); cbn; set_solver.
Qed.

Lemma demo_rotation : rotation 100 (demo_machine false) [10; 11; 12].
Proof.
  split; [apply demo_machine_store|apply (demo_machine_queues false)|done|eexists; split_and!; by vm_compute|].
  repeat (apply Forall_cons_2; [eexists; split; [done|by apply (bool_decide_unpack _); vm_compute]|]).
  constructor.
Qed.

Lemma round_robin_fair_witness :
  wp (preempt_all [900; 901]) (fun _ s' =>
    s'.(current_process) = 12 /\ rotation 98 s' [12; 10; 11] /\
    exists x, kproc s' 12 = Some x /\ x.(p_state) = PROCESS_STATE_LIVING /\ cur_dir s'.(kstore).(alloc) = x.(proc_pdir))
    (demo_machine false).
Proof.
  apply (round_robin_fair 2 98 (demo_machine false) [10; 11; 12] 12);
    [exact demo_rotation|cbn; lia|done|done].
Defined.

Lemma preempt_switches_witness :
  wp (sched_preempt_handler 900) (fun r s' => r = 600 /\
    switched 99 (demo_machine false)
      (put_proc 10 (parked (demo_machine false) 900 (demo_proc 0x1000 500 2 2)) (demo_machine false).(kstore)).(objs)
      11 (demo_proc 0x2000 600 1 2) [12; 10] [] s') (demo_machine false).
Proof.
  apply (preempt_switches 99 (demo_machine false) 900 (demo_proc 0x1000 500 2 2) (demo_proc 0x2000 600 1 2)
    [11; 12] []); [apply demo_machine_store|apply (demo_machine_queues false)|done|done|by left|done|].
  by apply (bool_decide_unpack _); vm_compute.
Defined.

Lemma dead_process_lost_witness :
  wp (sched_preempt_handler 900) (fun r s' =>
    kproc s' 13 = Some (demo_proc 0x3000 800 4 2) /\
    queues s' s'.(kstore) [12; 10] [] /\ 13 ∉ [12; 10]) (demo_machine true).
Proof.
  apply (dead_process_lost 99 (demo_machine true) 900 (demo_proc 0x1000 500 2 2) (demo_proc 0x2000 600 1 2)
    [11; 12] 13 (demo_proc 0x3000 800 4 2));
    [apply demo_machine_store|apply (demo_machine_queues true)|done|done|done|done|done|done| | |done];
    by apply (bool_decide_unpack _); vm_compute.
Defined.
