(* ===== verification/Elf.v ===== *)
(** Loading ELF executables, [kernel/process/elf.c].

    The loader reads headers and segments from a file of the mounted archive
    through [read_from_vfs_node] and builds the pages of a process: it works on
    the paging state, with the directory of the process as an argument.  A read
    is what the tar file system does for one ([TarfsSpec]): it fails outside
    the file and otherwise stores the bytes of the file in the caller's buffer,
    clipped to its end. *)
From stdpp Require Import base numbers gmap list.
From S2P Require Import Prelude Arrays Physmem Kmem Paging UserSpace.

Definition ELFMAG : list Z := [0x7F; 69; 76; 70].
Definition ELF_CLASS_32 : Z := 1.
Definition ELF_DATA_LITTLE_ENDIAN : Z := 1.
Definition ELF_CURRENT_VERSION : Z := 1.
Definition ELF_MACHINE_X86 : Z := 3.
Definition ET_REL : Z := 1.
Definition ET_EXEC : Z := 2.
Definition PT_LOAD : Z := 1.
Definition SIZEOF_EHDR : Z := 52.
Definition SIZEOF_PHDR : Z := 32.

(** [Elf32_Ehdr] and [Elf32_Phdr]. *)
Record Elf32_Ehdr := Ehdr {
  e_ident : list Z; e_type : Z; e_machine : Z; e_version : Z; e_entry : Z; e_phoff : Z; e_shoff : Z;
  e_flags : Z; e_ehsize : Z; e_phentsize : Z; e_phnum : Z; e_shentsize : Z; e_shnum : Z; e_shstrndx : Z
}.
Record Elf32_Phdr := Phdr {
  p_type : Z; p_offset : Z; p_vaddr : Z; p_paddr : Z; p_filesz : Z; p_memsz : Z; p_flags : Z; p_align : Z
}.

(** Little-endian fields of a structure that is stored as bytes. *)
Definition byte_at (l : list Z) (i : Z) : Z := u8 (default 0 (l !! Z.to_nat i)).
Definition half_at (l : list Z) (i : Z) : Z := byte_at l i + byte_at l (i + 1) * 2 ^ 8.
Definition word_at (l : list Z) (i : Z) : Z := half_at l i + half_at l (i + 2) * 2 ^ 16.

Definition ehdr_of (l : list Z) : Elf32_Ehdr :=
  Ehdr (map (byte_at l) (seqZ 0 16)) (half_at l 16) (half_at l 18) (word_at l 20) (word_at l 24) (word_at l 28)
       (word_at l 32) (word_at l 36) (half_at l 40) (half_at l 42) (half_at l 44) (half_at l 46)
       (half_at l 48) (half_at l 50).
Definition phdr_of (l : list Z) : Elf32_Phdr :=
  Phdr (word_at l 0) (word_at l 4) (word_at l 8) (word_at l 12) (word_at l 16) (word_at l 20)
       (word_at l 24) (word_at l 28).

(** The bytes [read_from_vfs_node(file, start, size, buffer)] stores in the
    buffer; both numbers are [int]s there. *)
Definition read_file (file : list Z) (start size : Z) : list Z :=
  let start := i32 start in
  if (start <? 0) || (Z.of_nat (length file) <=? start) then []
  else take (Z.to_nat size) (drop (Z.to_nat start) file).

(** What a buffer with the bytes [old] holds when [new] was stored in it. *)
Definition overwrite (new old : list Z) : list Z := new ++ drop (length new) old.

Definition ident (hdr : Elf32_Ehdr) (i : nat) : Z := default 0 (hdr.(e_ident) !! i).

Definition validate_elf (hdr : Elf32_Ehdr) : Z :=
  if negb (ident hdr 0 =? 0x7F) then -1
  else if negb (ident hdr 1 =? 69) then -1
  else if negb (ident hdr 2 =? 76) then -1
  else if negb (ident hdr 3 =? 70) then -1
  else if negb (ident hdr 4 =? ELF_CLASS_32) then -1
  else if negb (ident hdr 5 =? ELF_DATA_LITTLE_ENDIAN) then -1
  else if negb (ident hdr 6 =? ELF_CURRENT_VERSION) then -1
  else if negb (hdr.(e_machine) =? ELF_MACHINE_X86) then -1
  else if negb (hdr.(e_type) =? ET_REL) && negb (hdr.(e_type) =? ET_EXEC) then -1
  else 0.

(** The loop that allocates the pages of a segment, with the array [physicals]
    as its result. *)
Fixpoint load_pages (n : nat) (pdir start i : Z) : cmd pstate (list Z) :=
  match n with
  | O => ret []
  | S n' =>
      physical <- fresh_page pdir (u32 (start + i * 0x1000)) ;;
      rest <- load_pages n' pdir start (i + 1) ;;
      ret (physical :: rest)
  end.

(** [while(file_add_cur < file_end)].  An index outside [physicals] is a fault. *)
Fixpoint copy_pages (fuel : nat) (file physicals : list Z) (page_index file_add_cur file_end : Z)
  : cmd pstate unit :=
  if file_add_cur <? file_end then
    match fuel with
    | O => hang
    | S fuel' =>
        physical <- of_option (arr_get physicals page_index) ;;
        w <- temp_map_page physical ;;
        store_bytes w (read_file file file_add_cur
                         (if 0x1000 <? u32 (file_end - file_add_cur) then 4096
                          else u32 (file_end - file_add_cur))) ;;;
        copy_pages fuel' file physicals (page_index + 1) (u32 (file_add_cur + 0x1000)) file_end
    end
  else ret tt.

Definition size_in_pages (memsz : Z) : Z := memsz / 4096 + (if negb (memsz mod 4096 =? 0) then 1 else 0).

(** One loadable segment. *)
Definition load_segment (pdir : Z) (file : list Z) (p_hdr : Elf32_Phdr) : cmd pstate unit :=
  let start := p_hdr.(p_vaddr) in
  let end_ := u32 (p_hdr.(p_vaddr) + p_hdr.(p_memsz)) in
  let pages := i32 (size_in_pages (u32 (end_ - start))) in
  physicals <- load_pages (Z.to_nat pages) pdir start 0 ;;
  let file_start := p_hdr.(p_offset) in
  let file_end := u32 (file_start + p_hdr.(p_filesz)) in
  copy_pages (S (length physicals)) file physicals 0 file_start file_end.

(** The loop over the program headers; [stack addr] is what the local [p_hdr]
    holds before it is read.  At most 65536 headers fit the 16-bit count. *)
Fixpoint load_headers (fuel : nat) (stack : Z -> list Z) (pdir : Z) (file : list Z) (e_hdr : Elf32_Ehdr) (addr : Z)
  : cmd pstate unit :=
  if addr <? u32 (e_hdr.(e_phentsize) * e_hdr.(e_phnum)) then
    match fuel with
    | O => hang
    | S fuel' =>
        let p_hdr := phdr_of (overwrite (read_file file (u32 (e_hdr.(e_phoff) + addr)) SIZEOF_PHDR) (stack addr)) in
        (when negb (p_hdr.(p_vaddr) =? 0x00000000) && (p_hdr.(p_type) =? PT_LOAD) do
           load_segment pdir file p_hdr) ;;;
        load_headers fuel' stack pdir file e_hdr (u32 (addr + e_hdr.(e_phentsize)))
    end
  else ret tt.

(** [e_stack] is what the local [e_hdr] holds before it is read. *)
Definition elf_load_executable (e_stack : list Z) (stack : Z -> list Z) (pdir : Z) (file : list Z)
  : cmd pstate Elf32_Ehdr :=
  let e_hdr := ehdr_of (overwrite (read_file file 0 SIZEOF_EHDR) e_stack) in
  if validate_elf e_hdr =? -1 then ret e_hdr
  else
    load_headers (Z.to_nat (2 ^ 16)) stack pdir file e_hdr 0 ;;;
    ret e_hdr.

(** * Termination *)

#[local] Opaque memset_32 memset_8.

(** The counts of the frame allocator are well-formed; nothing else is assumed
    of memory. *)
Definition counted (s : pstate) : Prop := phys_wf s.(frames).

Lemma alloc_page_runs : runs counted (on_frames alloc_phys_page).
Proof.
  intros s Hs. unfold wp, on_frames. destruct (alloc_page_cases _ Hs) as [[_ ->]|(a & _ & _ & _ & ->)]; [done|].
  by apply rc_set_wf.
Qed.
#[local] Hint Resolve alloc_page_runs : runs.

Lemma fill_entry_runs e p u f : runs counted (fill_entry e p u f).
Proof. unfold fill_entry, vmemset_8, vupdate, vread, vwrite. runs_tac. Qed.
#[local] Hint Resolve fill_entry_runs : runs.

Lemma fresh_page_runs pdir va : runs counted (fresh_page pdir va).
Proof. unfold fresh_page, set_page_table_entry, temp_map_page, vmemset_32, vread. runs_tac. Qed.
#[local] Hint Resolve fresh_page_runs : runs.

Lemma load_pages_runs n pdir start i s :
  counted s -> wp (load_pages n pdir start i) (fun fs s' => length fs = n /\ counted s') s.
Proof.
  revert i s. induction n as [|n IH]; intros i s Hs; cbn [load_pages]; [by apply wp_ret|].
  apply wp_bind. eapply wp_mono; [by apply fresh_page_runs|]. intros f s1 Hs1. apply wp_bind.
  eapply wp_mono; [by apply IH|]. intros fs s2 [Hl Hs2]. apply wp_ret. cbn. by rewrite Hl.
Qed.

(** Every round uses another element of [physicals]. *)
Lemma copy_pages_runs fuel file fs i off filesz :
  0 <= i -> 0 <= off -> off + filesz <= 2 ^ 32 - 4096 -> filesz <= Z.of_nat (length fs) * 4096 ->
  Z.of_nat (length fs) < i + Z.of_nat fuel ->
  runs counted (copy_pages fuel file fs i (off + i * 4096) (off + filesz)).
Proof.
  intros Hi Ho He Hf. revert i Hi. induction fuel as [|fuel IH]; intros i Hi Hfuel; cbn [copy_pages];
    (destruct (Z.ltb_spec (off + i * 4096) (off + filesz)); [|runs_tac]); [lia|].
  destruct (arr_get_Some fs i) as [f ->]; [lia|]. cbn [of_option]. rewrite (u32_small (_ + 0x1000)) by lia.
  replace (off + i * 4096 + 0x1000) with (off + (i + 1) * 4096) by lia. unfold temp_map_page, store_bytes. runs_tac.
  apply IH; lia.
Qed.

(** The bytes a segment has in the file fit its pages, and its end in the file
    is not in the last page of the 32-bit numbers. *)
Definition segment_fits (p : Elf32_Phdr) : Prop :=
  p.(p_filesz) <= p.(p_memsz) /\ p.(p_offset) + p.(p_filesz) <= 2 ^ 32 - 4096.

Definition loadable (p : Elf32_Phdr) : bool := negb (p.(p_vaddr) =? 0x00000000) && (p.(p_type) =? PT_LOAD).

Lemma half_at_range l i : 0 <= half_at l i < 2 ^ 16.
Proof.
  unfold half_at, byte_at. pose proof (u8_range (default 0 (l !! Z.to_nat i))).
  pose proof (u8_range (default 0 (l !! Z.to_nat (i + 1)))). lia.
Qed.
Lemma word_at_range l i : is_u32 (word_at l i).
Proof. unfold is_u32, word_at. pose proof (half_at_range l i). pose proof (half_at_range l (i + 2)). lia. Qed.

Lemma load_segment_runs pdir file p :
  is_u32 p.(p_memsz) -> is_u32 p.(p_offset) -> is_u32 p.(p_filesz) -> segment_fits p ->
  runs counted (load_segment pdir file p).
Proof.
  unfold is_u32. intros Hm Ho Hf [Hfm Hend] s Hs. unfold load_segment. set (e := u32 (u32 _ - _)).
  assert (e = p.(p_memsz)) as -> by (unfold e, u32; zdm).
  assert (Hsz : 0 <= size_in_pages (p_memsz p) < 2 ^ 21 /\ p_memsz p <= size_in_pages (p_memsz p) * 4096).
  { unfold size_in_pages. destruct (Z.eqb_spec (p_memsz p mod 4096) 0); cbn [negb]; zdm. }
  rewrite i32_small by lia. apply wp_bind. eapply wp_mono; [by apply load_pages_runs|]. intros fs s1 [Hl Hs1].
  rewrite (u32_small (_ + p_filesz p)) by lia.
  pose proof (copy_pages_runs (S (length fs)) file fs 0 (p_offset p) (p_filesz p)) as Hc.
  rewrite Z.add_0_r in Hc. apply Hc; done || lia.
Qed.

Section headers.
Context (stack : Z -> list Z) (pdir : Z) (file : list Z) (h : Elf32_Ehdr).

(** The [k]-th program header as the loader sees it: what the file has there,
    over what the stack held. *)
Definition header_read (k : Z) : Elf32_Phdr :=
  phdr_of (overwrite (read_file file (u32 (h.(e_phoff) + k * h.(e_phentsize))) SIZEOF_PHDR) (stack (k * h.(e_phentsize)))).

Lemma load_headers_runs fuel k :
  0 <= h.(e_phentsize) < 2 ^ 16 -> 0 <= h.(e_phnum) < 2 ^ 16 -> 0 <= k <= h.(e_phnum) ->
  h.(e_phnum) - k <= Z.of_nat fuel ->
  (forall j, 0 <= j < h.(e_phnum) -> loadable (header_read j) = true -> segment_fits (header_read j)) ->
  runs counted (load_headers fuel stack pdir file h (k * h.(e_phentsize))).
Proof.
  intros He Hn Hk Hf Hfit. revert k Hk Hf. induction fuel as [|fuel IH]; intros k Hk Hf; cbn [load_headers];
    rewrite (u32_small (_ * _)) by nia;
    (destruct (Z.ltb_spec (k * e_phentsize h) (e_phentsize h * e_phnum h)) as [Hlt|]; [|runs_tac]).
  - assert (k = e_phnum h) as -> by lia. lia.
  - assert (Hk' : k < e_phnum h) by nia. apply runs_bind.
    + fold (header_read k). fold (loadable (header_read k)). destruct (loadable (header_read k)) eqn:Hld; [|runs_tac].
      apply load_segment_runs; [apply word_at_range..|]. by apply Hfit; [lia|].
    + intros _. replace (u32 (k * e_phentsize h + e_phentsize h)) with ((k + 1) * e_phentsize h) by (rewrite u32_small by nia; lia).
      apply IH; lia.
Qed.
End headers.


(** ** A damaged file *)

(** Two program headers are announced; the first names bytes behind the end of
    the file, the second is not there. *)
Definition demo_damaged : list Z :=
  [127; 69; 76; 70; 1; 1; 1; 0; 0; 0; 0; 0; 0; 0; 0; 0; 2; 0; 3; 0; 1; 0; 0; 0; 0; 0; 0; 16; 52; 0; 0; 0; 0; 0; 0; 0;
   0; 0; 0; 0; 52; 0; 32; 0; 2; 0; 0; 0; 0; 0; 0; 0] ++
  [1; 0; 0; 0; 0; 16; 0; 0; 0; 0; 0; 16; 0; 0; 0; 0; 3; 0; 0; 0; 8; 0; 0; 0; 5; 0; 0; 0; 0; 16; 0; 0].

