(* ===== verification/ElfSpec.v ===== *)
(** What the ELF loader does with a well-formed executable: every loadable
    segment is in the address space of the process, its bytes from the file and
    the rest of it zero; and what it does with a segment that does not start on
    a page boundary. *)
From stdpp Require Import base numbers gmap list.
From S2P Require Import Prelude Arrays Physmem Kmem Paging UserSpace Elf.

#[local] Opaque memset_32 memset_8.

Section loading.
Context (dir : Z) (file : list Z).

(** ** Files and segments *)

(** The [k]-th program header, from the bytes of the file. *)
Definition segment (k : Z) : Elf32_Phdr :=
  let h := ehdr_of file in phdr_of (drop (Z.to_nat (h.(e_phoff) + k * h.(e_phentsize))) file).

Definition pages (p : Elf32_Phdr) : Z := size_in_pages p.(p_memsz).

(** On a page boundary, below the kernel, no more bytes in the file than in
    memory, and all of them there. *)
Definition segment_ok (p : Elf32_Phdr) : Prop :=
  p.(p_vaddr) mod 4096 = 0 /\ p.(p_vaddr) + pages p * 4096 <= WINDOW /\
  p.(p_filesz) <= p.(p_memsz) /\ p.(p_offset) + p.(p_filesz) <= Z.of_nat (length file).

Definition apart (p q : Elf32_Phdr) : Prop :=
  p.(p_vaddr) + pages p * 4096 <= q.(p_vaddr) \/ q.(p_vaddr) + pages q * 4096 <= p.(p_vaddr).

Record elf_ok : Prop := {
  ok_size : SIZEOF_EHDR <= Z.of_nat (length file) < 2 ^ 31;
  ok_header : validate_elf (ehdr_of file) = 0;
  ok_entsize : SIZEOF_PHDR <= (ehdr_of file).(e_phentsize);
  ok_table : (ehdr_of file).(e_phoff) + (ehdr_of file).(e_phnum) * (ehdr_of file).(e_phentsize) <= Z.of_nat (length file);
  ok_segments : forall k, 0 <= k < (ehdr_of file).(e_phnum) -> loadable (segment k) = true -> segment_ok (segment k);
  ok_apart : forall j k, 0 <= j < k -> k < (ehdr_of file).(e_phnum) ->
    loadable (segment j) = true -> loadable (segment k) = true -> apart (segment j) (segment k)
}.

(** The pages of the segments from the [k]-th on. *)
Fixpoint pages_of (n : nat) (k : Z) : nat :=
  match n with
  | O => 0
  | S n' => (if loadable (segment k) then Z.to_nat (pages (segment k)) else 0) + pages_of n' (k + 1)
  end.

(** The byte that belongs at offset [j] of a segment. *)
Definition segment_byte (p : Elf32_Phdr) (j : Z) : Z :=
  if j <? p.(p_filesz) then byte_at file (p.(p_offset) + j) else 0.

(** ** Fields *)

Lemma read_file_in start size :
  Z.of_nat (length file) < 2 ^ 31 -> 0 <= start -> 0 <= size -> start + size <= Z.of_nat (length file) -> 0 < size ->
  read_file file start size = take (Z.to_nat size) (drop (Z.to_nat start) file).
Proof.
  intros Hl H0 Hs Hle Hpos. unfold read_file. rewrite i32_small by lia.
  destruct (Z.ltb_spec start 0), (Z.leb_spec (Z.of_nat (length file)) start); try lia. done.
Qed.

Lemma byte_at_read start size old i :
  Z.of_nat (length file) < 2 ^ 31 -> 0 <= start -> start + size <= Z.of_nat (length file) -> 0 <= i < size ->
  byte_at (overwrite (read_file file start size) old) i = byte_at (drop (Z.to_nat start) file) i.
Proof.
  intros Hl H0 Hle Hi. rewrite read_file_in by lia. unfold byte_at, overwrite.
  rewrite lookup_app_l by (rewrite length_take, length_drop; lia). by rewrite lookup_take_lt by lia.
Qed.

Lemma phdr_read start old :
  Z.of_nat (length file) < 2 ^ 31 -> 0 <= start -> start + SIZEOF_PHDR <= Z.of_nat (length file) ->
  phdr_of (overwrite (read_file file start SIZEOF_PHDR) old) = phdr_of (drop (Z.to_nat start) file).
Proof.
  intros Hl H0 Hle. unfold phdr_of, word_at, half_at, SIZEOF_PHDR in *. by rewrite !byte_at_read by lia.
Qed.

Lemma ehdr_read old :
  SIZEOF_EHDR <= Z.of_nat (length file) < 2 ^ 31 ->
  ehdr_of (overwrite (read_file file 0 SIZEOF_EHDR) old) = ehdr_of file.
Proof.
  intros [Hle Hl]. unfold ehdr_of, word_at, half_at, SIZEOF_EHDR in *. cbn [seqZ map].
  assert (forall i, 0 <= i < 52 -> byte_at (overwrite (read_file file 0 52) old) i = byte_at file i) as Hb.
  { intros i Hi. rewrite byte_at_read by lia. done. }
  rewrite !Hb by lia. f_equal. apply map_ext_in. intros i Hi%list_elem_of_In%elem_of_seqZ. apply Hb. lia.
Qed.

(** ** The loops *)

#[local] Abbreviation pages_map := (gmap Z (Z * (Z -> Z))).
Implicit Types (s : pstate) (M : pages_map).

(** Page [k] of a run of pages that starts at [start]. *)
Definition page_no (start k : Z) : Z := start + k * 4096.

Lemma load_pages_spec n start i s M m :
  image dir s M -> 0 <= i -> start mod 4096 = 0 -> 0 <= start -> start + (i + Z.of_nat n) * 4096 <= WINDOW ->
  frames_left s.(frames) (2 * n + m) ->
  wp (load_pages n dir start i) (fun fs s' => length fs = n /\ frames_left s'.(frames) m /\ exists M', image dir s' M' /\
    (forall k, 0 <= k < Z.of_nat n -> exists f, arr_get fs k = Some f /\ M' !! page_no start (i + k) = Some (f, fun _ => 0)) /\
    (forall va, (forall k, i <= k < i + Z.of_nat n -> va <> page_no start k) -> M' !! va = M !! va)) s.
Proof.
  intros Hi H0i Hst H0 Hend Hroom. revert i s M H0i Hend Hi Hroom.
  induction n as [|n IH]; intros i s M H0i Hend Hi Hroom; cbn [load_pages].
  { apply wp_ret. split_and!; [done|done|]. exists M. split_and!; [done| |done]. intros k Hk. lia. }
  unfold WINDOW in Hend. assert (Hp : user_page (page_no start i)).
  { unfold page_no. split; [zdm|unfold WINDOW; lia]. }
  apply wp_bind. rewrite u32_small by lia. eapply wp_mono.
  { apply (fresh_page_spec dir s M (page_no start i) (2 * n + m) Hi Hp).
    eapply left_mono; [|exact Hroom]. lia. }
  intros f s1 [Hi1 Hroom1]. apply wp_bind. eapply wp_mono; [apply (IH (i + 1) s1 _ ltac:(lia) ltac:(unfold WINDOW; lia) Hi1 Hroom1)|].
  intros fs s2 (Hlen & Hroom2 & M2 & Hi2 & Hpg & Hoth). apply wp_ret. split_and!; [cbn; lia|done|].
  exists M2. split_and!; [done| |].
  - intros k Hk. destruct (decide (k = 0)) as [->|].
    + exists f. split; [done|]. rewrite Z.add_0_r, Hoth; [apply lookup_insert_eq|].
      intros k Hk'. unfold page_no. lia.
    + destruct (Hpg (k - 1) ltac:(lia)) as (g & Hg & Hm). exists g. replace (i + 1 + (k - 1)) with (i + k) in Hm by lia.
      split; [|done]. unfold arr_get in *. destruct (Z.leb_spec 0 (k - 1)), (Z.leb_spec 0 k); try lia.
      replace (Z.to_nat k) with (S (Z.to_nat (k - 1))) by lia. done.
  - intros va Hva. rewrite Hoth by (intros k Hk; apply Hva; lia). rewrite lookup_insert_ne.
    + apply lookup_delete_ne. apply not_eq_sym, Hva. lia.
    + apply not_eq_sym, Hva. lia.
Qed.

(** What one round of the copy leaves in a cleared page. *)
Lemma copied_page off k filesz size i :
  Z.of_nat (length file) < 2 ^ 31 -> 0 <= off -> 0 <= k -> k * 4096 < filesz -> off + filesz <= Z.of_nat (length file) ->
  size = Z.min 4096 (filesz - k * 4096) -> 0 <= i < 4096 ->
  over (read_file file (off + k * 4096) size) (fun _ => 0) i =
  if k * 4096 + i <? filesz then byte_at file (off + (k * 4096 + i)) else 0.
Proof.
  intros Hl H0 Hk Hkf Hle Hsz Hi. unfold over. rewrite read_file_in by lia.
  rewrite length_take, length_drop.
  destruct (Z.ltb_spec i (Z.of_nat (Z.to_nat size `min` (length file - Z.to_nat (off + k * 4096))))) as [Hlt|Hge];
    destruct (Z.ltb_spec (k * 4096 + i) filesz); try lia.
  unfold byte_at. rewrite lookup_take_lt, lookup_drop by lia. do 3 f_equal. lia.
Qed.

Lemma copy_pages_spec fuel fs start off filesz idx s M :
  Z.of_nat (length file) < 2 ^ 31 -> image dir s M -> 0 <= off -> off + filesz <= Z.of_nat (length file) ->
  0 <= idx -> filesz <= Z.of_nat (length fs) * 4096 -> Z.of_nat (length fs) < idx + Z.of_nat fuel ->
  idx <= Z.of_nat (length fs) ->
  (forall k, idx <= k < Z.of_nat (length fs) -> exists f, arr_get fs k = Some f /\ M !! page_no start k = Some (f, fun _ => 0)) ->
  wp (copy_pages fuel file fs idx (off + idx * 4096) (off + filesz)) (fun _ s' =>
    s'.(frames) = s.(frames) /\ exists M', image dir s' M' /\
    (forall k, idx <= k < Z.of_nat (length fs) -> exists f c, M' !! page_no start k = Some (f, c) /\
       forall i, 0 <= i < 4096 -> c i = if k * 4096 + i <? filesz then byte_at file (off + (k * 4096 + i)) else 0) /\
    (forall va, (forall k, idx <= k < Z.of_nat (length fs) -> va <> page_no start k) -> M' !! va = M !! va)) s.
Proof.
  intros Hl Hi H0 Hle H0i Hfs. revert idx s M H0i Hi.
  induction fuel as [|fuel IH]; intros idx s M H0i Hi Hfuel Hidx Hpg; [lia|]. cbn [copy_pages].
  destruct (Z.ltb_spec (off + idx * 4096) (off + filesz)) as [Hlt|Hge].
  2: { apply wp_ret. split; [done|]. exists M. split_and!; [done| |done]. intros k Hk.
       destruct (Hpg k Hk) as (f & _ & Hm). exists f, (fun _ => 0). split; [done|]. intros i Hi'.
       destruct (Z.ltb_spec (k * 4096 + i) filesz); [lia|done]. }
  destruct (Hpg idx ltac:(lia)) as (f & Hf & Hm). rewrite Hf. cbn [of_option]. apply wp_bind, wp_ret.
  set (size := if _ <? _ then 4096 else _).
  assert (Hsz : size = Z.min 4096 (filesz - idx * 4096)).
  { unfold size. rewrite u32_small by lia. destruct (Z.ltb_spec 0x1000 (off + filesz - (off + idx * 4096))); lia. }
  apply wp_bind_then. eapply wp_mono.
  { apply (store_page_spec dir s M _ f _ (read_file file (off + idx * 4096) size) Hi Hm).
    rewrite read_file_in by lia. rewrite length_take. lia. }
  intros [] s1 [Hi1 Hfr1]. rewrite (u32_small (_ + 0x1000)) by lia.
  replace (off + idx * 4096 + 0x1000) with (off + (idx + 1) * 4096) by lia. eapply wp_mono.
  { apply (IH (idx + 1) s1 _ ltac:(lia) Hi1); [lia|lia|]. intros k Hk. destruct (Hpg k ltac:(lia)) as (g & Hg & Hmg).
    exists g. split; [done|]. rewrite lookup_insert_ne; [done|]. unfold page_no. lia. }
  intros [] s2 (Hfr2 & M2 & Hi2 & Hpg2 & Hoth). split; [congruence|]. exists M2. split_and!; [done| |].
  - intros k Hk. destruct (decide (k = idx)) as [->|]; [|apply Hpg2; lia].
    eexists f, _. split; [rewrite Hoth; [apply lookup_insert_eq|intros k Hk'; unfold page_no; lia]|].
    intros i Hi'. apply copied_page; done || lia.
  - intros va Hva. rewrite Hoth by (intros k Hk; apply Hva; lia). apply lookup_insert_ne, not_eq_sym, Hva. lia.
Qed.

(** ** Segments *)

(** The map has the pages of [p] with what belongs there. *)
Definition loaded (p : Elf32_Phdr) M : Prop :=
  forall k, 0 <= k < pages p -> exists f c, M !! page_no p.(p_vaddr) k = Some (f, c) /\
    forall i, 0 <= i < 4096 -> c i = segment_byte p (k * 4096 + i).

Definition outside (p : Elf32_Phdr) (va : Z) : Prop :=
  forall k, 0 <= k < pages p -> va <> page_no p.(p_vaddr) k.

Lemma size_in_pages_spec n : 0 <= n -> 0 <= size_in_pages n /\ n <= size_in_pages n * 4096 < n + 4096.
Proof. intros Hn. unfold size_in_pages. destruct (Z.eqb_spec (n mod 4096) 0); cbn [negb]; zdm. Qed.

(** The header's fields are words. *)
Definition words (p : Elf32_Phdr) : Prop :=
  is_u32 p.(p_vaddr) /\ is_u32 p.(p_memsz) /\ is_u32 p.(p_filesz) /\ is_u32 p.(p_offset).

Lemma load_segment_spec p s M m :
  Z.of_nat (length file) < 2 ^ 31 -> words p -> segment_ok p -> image dir s M ->
  frames_left s.(frames) (2 * Z.to_nat (pages p) + m) ->
  wp (load_segment dir file p) (fun _ s' => frames_left s'.(frames) m /\
    exists M', image dir s' M' /\ loaded p M' /\ forall va, outside p va -> M' !! va = M !! va) s.
Proof.
  unfold is_u32. intros Hl (Hv & Hmz & Hfz & Hof) (Hal & Htop & Hle & Hin) Hi Hroom. unfold is_u32 in *.
  destruct (size_in_pages_spec p.(p_memsz) ltac:(lia)) as [Hn0 Hn]. fold (pages p) in Hn0, Hn.
  unfold load_segment. set (e := u32 (u32 _ - _)).
  assert (e = p.(p_memsz)) as -> by (unfold e, u32; zdm). fold (pages p). unfold WINDOW in Htop.
  rewrite i32_small by lia. apply wp_bind. eapply wp_mono.
  { apply (load_pages_spec (Z.to_nat (pages p)) p.(p_vaddr) 0 s M m Hi); try done; unfold WINDOW; lia. }
  intros fs s1 (Hlen & Hroom1 & M1 & Hi1 & Hpg & Hoth).
  rewrite (u32_small (_ + p_filesz p)) by lia.
  replace (p_offset p) with (p_offset p + 0 * 4096) at 1 by lia. eapply wp_mono.
  { apply (copy_pages_spec (S (length fs)) fs p.(p_vaddr) p.(p_offset) p.(p_filesz) 0 s1 M1 Hl Hi1); try lia.
    intros k Hk. apply (Hpg k). lia. }
  intros [] s2 (Hfr & M2 & Hi2 & Hpg2 & Hoth2). split; [by rewrite Hfr|]. exists M2. split_and!; [done| |].
  - intros k Hk. apply Hpg2. lia.
  - intros va Hva. rewrite Hoth2 by (intros k Hk; apply Hva; lia). apply Hoth. intros k Hk. apply Hva. lia.
Qed.

Lemma segment_words k : words (segment k).
Proof. unfold words, segment, phdr_of. cbn. split_and!; apply word_at_range. Qed.

Lemma apart_outside p q va k :
  apart p q -> 0 <= k < pages p -> va = page_no p.(p_vaddr) k -> outside q va.
Proof. unfold apart, outside, page_no. intros [H|H] Hk -> j Hj; nia. Qed.

(** One header. *)
Lemma load_header_spec k s M m :
  elf_ok -> 0 <= k < (ehdr_of file).(e_phnum) -> image dir s M ->
  frames_left s.(frames) (2 * (if loadable (segment k) then Z.to_nat (pages (segment k)) else 0) + m) ->
  wp (when loadable (segment k) do load_segment dir file (segment k)) (fun _ s' => frames_left s'.(frames) m /\
    exists M', image dir s' M' /\ (loadable (segment k) = true -> loaded (segment k) M') /\
    forall va, (loadable (segment k) = true -> outside (segment k) va) -> M' !! va = M !! va) s.
Proof.
  intros Hok Hk Hi Hroom. destruct (loadable (segment k)) eqn:Hld.
  - eapply wp_mono; [apply (load_segment_spec (segment k) s M m); try done|].
    + apply Hok.
    + apply segment_words.
    + by apply Hok.
    + intros [] s' (Hr & M' & Hi' & Hl' & Ho'). split; [done|]. exists M'. split_and!; [done|done|].
      intros va Hva. by apply Ho', Hva.
  - apply wp_ret. split; [done|]. by exists M.
Qed.

(** All segments from the [k]-th on. *)
Lemma load_headers_spec fuel stack k s M m :
  elf_ok -> 0 <= k <= (ehdr_of file).(e_phnum) ->
  (ehdr_of file).(e_phnum) - k <= Z.of_nat fuel -> image dir s M ->
  frames_left s.(frames) (2 * pages_of (Z.to_nat ((ehdr_of file).(e_phnum) - k)) k + m) ->
  wp (load_headers fuel stack dir file (ehdr_of file) (k * (ehdr_of file).(e_phentsize))) (fun _ s' => frames_left s'.(frames) m /\
    exists M', image dir s' M' /\
    (forall j, k <= j < (ehdr_of file).(e_phnum) -> loadable (segment j) = true -> loaded (segment j) M') /\
    (forall va, (forall j, k <= j < (ehdr_of file).(e_phnum) -> loadable (segment j) = true -> outside (segment j) va) ->
       M' !! va = M !! va)) s.
Proof.
  intros Hok. set (h := ehdr_of file). pose proof (half_at_range file 42) as He. pose proof (half_at_range file 44) as Hn.
  pose proof (word_at_range file 28) as Ho.
  change (half_at file 42) with (e_phentsize h) in He. change (half_at file 44) with (e_phnum h) in Hn.
  change (word_at file 28) with (e_phoff h) in Ho. unfold is_u32 in Ho.
  pose proof Hok as [Hsz _ Hes Htb _ Hap]. fold h in Hes, Htb, Hap. unfold SIZEOF_PHDR, SIZEOF_EHDR in *.
  revert k s M. induction fuel as [|fuel IH]; intros k s M Hk Hf Hi Hroom; cbn [load_headers];
    rewrite (u32_small (e_phentsize h * _)) by nia;
    destruct (Z.ltb_spec (k * e_phentsize h) (e_phentsize h * e_phnum h)) as [Hlt|Hge]; [nia| |  |].
  1, 3: apply wp_ret; split; [eapply left_mono; [|exact Hroom]; lia|]; exists M; split_and!; [done| |done]; intros j Hj; nia.
  assert (Hkn : k < e_phnum h) by nia. assert (Hn' : Z.to_nat (e_phnum h - k) = S (Z.to_nat (e_phnum h - (k + 1)))) by lia.
  rewrite (u32_small (e_phoff h + _)) by nia. rewrite phdr_read by (unfold SIZEOF_PHDR; nia || lia).
  change (phdr_of _) with (segment k). fold (loadable (segment k)).
  replace (u32 (k * e_phentsize h + e_phentsize h)) with ((k + 1) * e_phentsize h) by (rewrite u32_small by nia; lia).
  rewrite Hn' in Hroom. cbn [pages_of] in Hroom. set (m' := (2 * pages_of (Z.to_nat (e_phnum h - (k + 1))) (k + 1) + m)%nat) in *.
  apply wp_bind. eapply wp_mono.
  { apply (load_header_spec k s M m' Hok ltac:(fold h; lia) Hi). eapply left_mono; [|exact Hroom]. lia. }
  intros [] s1 (Hr1 & M1 & Hi1 & Hl1 & Ho1). eapply wp_mono; [apply (IH (k + 1) s1 M1); [lia|lia|done|done]|].
  intros [] s2 (Hr2 & M2 & Hi2 & Hl2 & Ho2). split; [done|]. exists M2. split_and!; [done| |].
  - intros j Hj Hlj. destruct (decide (j = k)) as [->|]; [|apply Hl2; [lia|done]].
    intros i Hip. destruct (Hl1 Hlj i Hip) as (f & c & Hm & Hc). exists f, c. split; [|done]. rewrite Ho2; [done|].
    intros q Hq Hlq. eapply apart_outside; [|exact Hip|done]. by apply Hap; [lia|lia|..].
  - intros va Hva. rewrite Ho2 by (intros j Hj; apply Hva; lia). apply Ho1. intros Hlk. apply Hva; [lia|done].
Qed.

(** C6: Loading a well-formed executable puts it in the address space: for a
    file with a valid header whose loadable segments start on page boundaries,
    lie below the kernel, do not share pages and are not larger in the file
    than in memory, and with two free frames per page, the loader returns the
    header; every byte of every loadable segment is mapped, writable, for the
    user, and the processor reads there the byte of the file, or 0 past the part
    that is in the file; the pages mapped before keep their frames and contents. *)
Theorem elf_load_correct e_stack stack s M m :
  elf_ok -> image dir s M -> frames_left s.(frames) (2 * pages_of (Z.to_nat (ehdr_of file).(e_phnum)) 0 + m) ->
  wp (elf_load_executable e_stack stack dir file) (fun h s' =>
    h = ehdr_of file /\
    (forall k i, 0 <= k < h.(e_phnum) -> loadable (segment k) = true -> 0 <= i < (segment k).(p_memsz) ->
       let va := (segment k).(p_vaddr) + i in let e := pte_of s'.(pm) dir va in
       present_bit e = 1 /\ user_supervisor e = 1 /\ read_write e = 1 /\
       rd8 s'.(pm) (mmu s'.(pm) dir va) = segment_byte (segment k) i) /\
    frames_left s'.(frames) m /\
    exists M', image dir s' M' /\ forall va,
      (forall k, 0 <= k < h.(e_phnum) -> loadable (segment k) = true -> outside (segment k) va) -> M' !! va = M !! va) s.
Proof.
  intros Hok Hi Hroom. unfold elf_load_executable. rewrite ehdr_read by apply Hok. rewrite (ok_header Hok).
  change (0 =? -1) with false. cbn iota. set (h := ehdr_of file) in *.
  pose proof (half_at_range file 44) as Hn. change (half_at file 44) with (e_phnum h) in Hn.
  apply wp_bind. eapply wp_mono.
  { apply (load_headers_spec (Z.to_nat (2 ^ 16)) stack 0 s M m Hok); fold h; [lia|lia|done|].
    by rewrite Z.sub_0_r. }
  intros [] s' (Hr & M' & Hi' & Hl & Ho). apply wp_ret. split_and!; [done| |done|by exists M'].
  intros k i Hk Hld Hi0. destruct (segment_words k) as (_ & Hmz & _). unfold is_u32 in Hmz.
  destruct (size_in_pages_spec (segment k).(p_memsz) ltac:(lia)) as [_ Hsz].
  destruct (Hl k Hk Hld (i / 4096)) as (f & c & Hm & Hc); [unfold pages; zdm|].
  destruct (image_mmu dir s' M' _ f c (i mod 4096) Hi' Hm ltac:(zdm)) as (Hp & Hu & Hw & Hmm & Hrd).
  replace (page_no (segment k).(p_vaddr) (i / 4096) + i mod 4096) with ((segment k).(p_vaddr) + i) in *
    by (unfold page_no; zdm).
  split_and!; [done|done|done|]. rewrite Hmm, Hrd, Hc by zdm. f_equal. zdm.
Qed.

(** ** Segments off page boundaries *)

Lemma set_entry_align va pa p u :
  is_u32 va -> set_page_table_entry dir va pa p u = set_page_table_entry dir (align_page va) pa p u.
Proof. intros Hva. unfold set_page_table_entry. by rewrite align_page_idemp. Qed.

Lemma fresh_page_align va s : is_u32 va -> fresh_page dir va s = fresh_page dir (align_page va) s.
Proof.
  intros Hva. unfold fresh_page, bind. destruct (on_frames alloc_phys_page s) as [[f s1]| |]; [|done|done].
  destruct (temp_map_page f s1) as [[w s2]| |]; [|done|done]. by rewrite set_entry_align.
Qed.

Lemma load_pages_align n start i s :
  is_u32 start -> 0 <= i -> start + (i + Z.of_nat n) * 4096 < 2 ^ 32 ->
  load_pages n dir start i s = load_pages n dir (align_page start) i s.
Proof.
  intros Hst. revert i s. induction n as [|n IH]; intros i s Hi Hend; cbn [load_pages]; [done|].
  pose proof (align_page_spec start Hst) as Hal. unfold is_u32 in Hst.
  assert (Hin : is_u32 (start + i * 0x1000)) by (unfold is_u32; lia).
  rewrite (u32_small (start + _)), (u32_small (align_page start + _)) by (rewrite ?Hal; zdm).
  unfold bind. rewrite (fresh_page_align (start + i * 0x1000)) by done.
  assert (align_page (start + i * 0x1000) = align_page start + i * 0x1000) as ->.
  { rewrite align_page_spec, Hal by done. zdm. }
  destruct (fresh_page dir _ s) as [[f s1]| |]; [|done|done]. rewrite IH by lia. done.
Qed.

(** C39: The loader drops the offset of a segment in its first page: loading a
    segment at [p_vaddr] does exactly what loading it at the start of that page
    does, with the same size, so when [p_vaddr] is not a multiple of the page
    size every byte lands below the address the program expects it at. *)
Theorem unaligned_segment_shifted p s :
  words p -> p.(p_vaddr) + pages p * 4096 < 2 ^ 32 ->
  load_segment dir file p s =
  load_segment dir file (Phdr p.(p_type) p.(p_offset) (align_page p.(p_vaddr)) p.(p_paddr) p.(p_filesz)
                              p.(p_memsz) p.(p_flags) p.(p_align)) s.
Proof.
  intros (Hv & Hmz & _) Hend. unfold load_segment. cbn [p_vaddr p_memsz p_offset p_filesz].
  unfold is_u32 in *. destruct (size_in_pages_spec p.(p_memsz) ltac:(lia)) as [Hn0 Hn]. fold (pages p) in Hn0, Hn.
  assert (forall v, u32 (u32 (v + p_memsz p) - v) = p_memsz p) as Hsz by (intros v; unfold u32; zdm).
  rewrite !Hsz. fold (pages p). rewrite i32_small by lia. unfold bind. by rewrite load_pages_align by (unfold is_u32; lia).
Qed.
End loading.

(** ** A small program: three bytes of code, five bytes of cleared memory *)

Definition demo_elf : list Z :=
  [127; 69; 76; 70; 1; 1; 1; 0; 0; 0; 0; 0; 0; 0; 0; 0; 2; 0; 3; 0; 1; 0; 0; 0; 0; 0; 0; 16; 52; 0; 0; 0; 0; 0; 0; 0;
   0; 0; 0; 0; 52; 0; 32; 0; 1; 0; 0; 0; 0; 0; 0; 0] ++
  [1; 0; 0; 0; 84; 0; 0; 0; 0; 0; 0; 16; 0; 0; 0; 0; 3; 0; 0; 0; 8; 0; 0; 0; 5; 0; 0; 0; 0; 16; 0; 0] ++
  [184; 42; 195].

Lemma demo_elf_segment : segment demo_elf 0 = Phdr 1 84 0x10000000 0 3 8 5 4096.
Proof. by vm_compute. Qed.

Lemma demo_elf_ok : elf_ok demo_elf.
Proof.
  split; try done.
  - intros k Hk _. change (e_phnum (ehdr_of demo_elf)) with 1 in Hk. assert (k = 0) as -> by lia.
    rewrite demo_elf_segment. split_and!; by vm_compute.
  - intros j k Hj Hk. change (e_phnum (ehdr_of demo_elf)) with 1 in Hk. lia.
Qed.

Lemma demo_image : image 0x101000 demo_paging ∅.
Proof. split; [exact demo_frames_wf|exact demo_dir_ok|done|done]. Qed.

Lemma demo_room : frames_left demo_frames 2.
Proof.
  split; [intros _; by vm_compute|]. exists [0x106000; 0x107000]. split_and!; [|done|].
  - apply (bool_decide_unpack _). by vm_compute.
  - apply (bool_decide_unpack _). by vm_compute.
Qed.

Lemma elf_load_correct_witness :
  wp (elf_load_executable [] (fun _ => []) 0x101000 demo_elf) (fun h s' =>
    h.(e_entry) = 0x10000000 /\
    rd8 s'.(pm) (mmu s'.(pm) 0x101000 0x10000001) = 42 /\ rd8 s'.(pm) (mmu s'.(pm) 0x101000 0x10000005) = 0) demo_paging.
Proof.
  eapply wp_mono.
  { apply (elf_load_correct 0x101000 demo_elf [] (fun _ => []) demo_paging ∅ 0 demo_elf_ok demo_image).
    exact demo_room. }
  intros h s' (-> & Hseg & _). split; [by vm_compute|].
  pose proof (Hseg 0 1 ltac:(by vm_compute) ltac:(by vm_compute) ltac:(by vm_compute)) as (_ & _ & _ & H1).
  pose proof (Hseg 0 5 ltac:(by vm_compute) ltac:(by vm_compute) ltac:(by vm_compute)) as (_ & _ & _ & H5).
  rewrite demo_elf_segment in H1, H5. split; [exact H1|exact H5].
Defined.

Lemma unaligned_segment_shifted_witness :
  load_segment 0x101000 demo_elf (Phdr 1 84 0x10000010 0 3 8 5 4096) demo_paging =
  load_segment 0x101000 demo_elf (Phdr 1 84 0x10000000 0 3 8 5 4096) demo_paging.
Proof.
  rewrite (unaligned_segment_shifted 0x101000 demo_elf (Phdr 1 84 0x10000010 0 3 8 5 4096) demo_paging).
  - reflexivity.
  - repeat split; done.
  - by vm_compute.
Defined.
