(* ===== verification/Loader.v ===== *)
(** Starting programs, [kernel/process/loader.c]: a fresh process for
    [loader_spawn], the calling one for [loader_exec], gets the executable, a
    stack, and a page with its arguments at the start of its heap. *)
From stdpp Require Import base numbers gmap list.
From S2P Require Import Prelude Arrays Physmem Kmem Allocator Paging UserSpace Elf Store LinkedList QueueModel GenericTree KState Interrupts Pit Process.

Definition BOOTSTRAP_MAGIC : Z := 0xDB05DB05.
Definition STR_USER_PROCESS : list Z := [85; 83; 69; 82; 32; 80; 82; 79; 67; 69; 83; 83].

(** ** The pages of a new program *)

(** [memcpy_8] to a virtual address, byte by byte: outside the window the bytes
    go where the current directory maps the address. *)
Fixpoint vput_bytes (va : Z) (bytes : list Z) : cmd pstate unit :=
  match bytes with
  | [] => ret tt
  | b :: bytes' =>
      modify (fun s => set_pm (fun m => wr8 m (phys_of s va) b) s) ;;;
      vput_bytes (u32 (va + 1)) bytes'
  end.

(** Strings with their terminators, one behind the other. *)
Fixpoint copy_strings (argv_virt : Z) (strings : list (list Z)) : cmd pstate unit :=
  match strings with
  | [] => ret tt
  | str :: strings' =>
      vput_bytes argv_virt (str ++ [0]) ;;;
      copy_strings (u32 (argv_virt + (Z.of_nat (length str) + 1))) strings'
  end.

(** The page of arguments: the name of the process, then the others. *)
Definition map_args (pdir : Z) (strings : list (list Z)) : cmd pstate unit :=
  argv_phys <- on_frames alloc_phys_page ;;
  argv_virt <- temp_map_page argv_phys ;;
  copy_strings argv_virt strings ;;;
  set_page_table_entry pdir PROCESS_HEAP argv_phys 1 1.

(** The four words at the top of the stack. *)
Definition push_start (last_page heap_end argv_total_length argc : Z) : cmd pstate unit :=
  last_page_stack <- temp_map_page last_page ;;
  vwrite (last_page_stack + 4 * 1020) BOOTSTRAP_MAGIC ;;;
  vwrite (last_page_stack + 4 * 1021) heap_end ;;;
  vwrite (last_page_stack + 4 * 1022) (u32 argv_total_length) ;;;
  vwrite (last_page_stack + 4 * 1023) (u32 (argc + 1)).

(** [strlen(str) + 1] *)
Definition str_bytes (str : list Z) : Z := Z.of_nat (length str) + 1.
Definition total_bytes (strings : list (list Z)) : Z := foldr (fun str n => str_bytes str + n) 0 strings.

Definition set_eip (v : Z) (r : registers) : registers :=
  Regs r.(r_ds) r.(r_es) r.(r_fs) r.(r_gs) r.(r_edi) r.(r_esi) r.(r_ebp) r.(r_esp) r.(r_ebx)
       r.(r_edx) r.(r_ecx) r.(r_eax) r.(r_int_no) r.(r_err_code) v r.(r_cs) r.(r_eflags) r.(r_useresp) r.(r_ss).
Definition set_useresp (v : Z) (r : registers) : registers :=
  Regs r.(r_ds) r.(r_es) r.(r_fs) r.(r_gs) r.(r_edi) r.(r_esi) r.(r_ebp) r.(r_esp) r.(r_ebx)
       r.(r_edx) r.(r_ecx) r.(r_eax) r.(r_int_no) r.(r_err_code) r.(r_eip) r.(r_cs) r.(r_eflags) v r.(r_ss).
(** The frame of a process that was just scheduled for the first time. *)
Definition restart_frame (r : registers) : registers :=
  Regs r.(r_ds) r.(r_es) r.(r_fs) r.(r_gs) r.(r_edi) r.(r_esi) r.(r_ebp) r.(r_esp) r.(r_ebx)
       r.(r_edx) r.(r_ecx) r.(r_eax) 0x20 0 r.(r_eip) r.(r_cs) 0x0202
       (PROCESS_STACK + PROCESS_STACK_PAGES * 0x1000) r.(r_ss).

Section loader.
Context {A : Type} `{Paged A}.

(** [vfs_find_node]; the name and the bytes of a node; the string behind a
    pointer of the caller; what uninitialised locals hold. *)
Variable vfs_find_node : Z -> cmd (kstate A) Z.
Variable node_name : Z -> list Z.
Variable node_bytes : Z -> list Z.
Variable string_at : Z -> list Z.
Variable e_stack : list Z.
Variable p_stack : Z -> list Z.

(** [argv[0] .. argv[argc - 1]] *)
Definition arg_strings (argv : Z -> Z) (argc : Z) : list (list Z) :=
  map (fun i => string_at (argv i)) (seqZ 0 argc).

(** The copies of the arguments: an array of pointers and a block each. *)
Definition copy_argument (argv_copy : Z) (i : Z) (str : list Z) : cmd (kstate A) unit :=
  block <- on_store (new_obj (str_bytes str) (OBytes (str_bytes str))) ;;
  ws <- on_store (get_words argv_copy) ;;
  ws' <- of_option (arr_set ws i block) ;;
  on_store (put_obj argv_copy (OWords ws')).
Fixpoint copy_arguments (argv_copy i : Z) (strings : list (list Z)) : cmd (kstate A) unit :=
  match strings with
  | [] => ret tt
  | str :: strings' => copy_argument argv_copy i str ;;; copy_arguments argv_copy (i + 1) strings'
  end.
Definition free_argument (argv_copy i : Z) : cmd (kstate A) unit :=
  ws <- on_store (get_words argv_copy) ;;
  block <- of_option (arr_get ws i) ;;
  on_store (free_obj block).

(** Name, details, executable and instruction pointer, as both functions do. *)
Definition load_program (process binary : Z) : cmd (kstate A) unit :=
  name <- buf_copy SIZEOF_NAME (node_name binary) ;;
  upd_proc process (set_p_name name) ;;;
  details <- buf_copy SIZEOF_DETAILS STR_USER_PROCESS ;;
  upd_proc process (set_p_details details) ;;;
  p <- proc_at process ;;
  header <- run_paging (elf_load_executable e_stack p_stack p.(proc_pdir) (node_bytes binary)) ;;
  p <- proc_at process ;;
  r <- frame_at p.(proc_regs) ;;
  when negb (r.(r_eip) =? header.(e_entry)) do upd_frame p.(proc_regs) (set_eip header.(e_entry)).

(** The arguments, the end of the heap. *)
Definition place_args (process : Z) (args : list (list Z)) : cmd (kstate A) unit :=
  p <- proc_at process ;;
  run_paging (map_args p.(proc_pdir) (p.(p_name) :: args)) ;;;
  upd_proc process (fun p => set_heap_end (u32 (p.(heap_start) + 4096)) p).

(** The top of the stack; [argv_total_length] counts the name too. *)
Definition place_start (process argc : Z) (args : list (list Z)) : cmd (kstate A) unit :=
  p <- proc_at process ;;
  ws <- on_store (get_words p.(proc_ustack_phys)) ;;
  last_page <- of_option (arr_get ws (u32 (p.(proc_ustack_pages) - 1))) ;;
  run_paging (push_start last_page p.(heap_end) (i32 (total_bytes (p.(p_name) :: args))) argc) ;;;
  p <- proc_at process ;;
  r <- frame_at p.(proc_regs) ;;
  upd_frame p.(proc_regs) (set_useresp (u32 (r.(r_useresp) - 16))).

(** The end of both functions; [loader_exec] resets the saved frame in between. *)
Definition start_program (restart : bool) (process argc : Z) (args : list (list Z)) : cmd (kstate A) unit :=
  place_args process args ;;;
  (when restart do (p <- proc_at process ;; upd_frame p.(proc_regs) restart_frame)) ;;;
  place_start process argc args.

Definition loader_exec (process filename : Z) (argv : Z -> Z) (argc : Z) : cmd (kstate A) Z :=
  binary <- vfs_find_node filename ;;
  if binary =? 0 then ret (-1)
  else
    let fsize := str_bytes (string_at filename) in
    let args := arg_strings argv argc in
    filename_copy <- on_store (new_obj fsize (OBytes fsize)) ;;
    argv_copy <- on_store (new_obj (u32 (4 * argc)) (OWords (replicate (Z.to_nat argc) 0))) ;;
    copy_arguments argv_copy 0 args ;;;
    p <- proc_at process ;;
    run_paging (remove_address_space p.(proc_pdir)) ;;;
    upd_proc process (set_p_type PROCESS_TYPE_STANDALONE) ;;;
    load_program process binary ;;;
    p <- proc_at process ;;
    for_ (Z.to_nat (i32 p.(proc_ustack_pages))) 0 (create_stack_page process) ;;;
    upd_proc process (set_heap_start PROCESS_HEAP) ;;;
    start_program true process argc args ;;;
    on_store (free_obj filename_copy) ;;;
    for_ (Z.to_nat argc) 0 (free_argument argv_copy) ;;;
    on_store (free_obj argv_copy) ;;;
    ret 0.

(** [gtty] and [tss_address] are those of [proc_create]. *)
Variables (gtty : cmd (kstate A) Z) (tss_address : Z).

Definition loader_spawn (filename parent : Z) (argv : Z -> Z) (argc : Z) : cmd (kstate A) Z :=
  binary <- vfs_find_node filename ;;
  if binary =? 0 then ret (-1)
  else
    new_proc <- proc_create gtty tss_address parent ;;
    if new_proc =? 0 then ret (-1)
    else
      let args := arg_strings argv argc in
      load_program new_proc binary ;;;
      start_program false new_proc argc args ;;;
      sched_make_ready new_proc ;;;
      p <- proc_at new_proc ;;
      ret p.(pid).
End loader.
