(* ===== verification/LoaderSpec.v ===== *)
(** What a program finds when it starts: its name and arguments at the start of
    its heap and four words at the top of its stack. *)
From stdpp Require Import base numbers gmap list.
From S2P Require Import Prelude Arrays Physmem Kmem Allocator Heap Paging UserSpace Elf ElfSpec Store LinkedList KState KernelMachine Interrupts Process Scheduler Loader.

#[local] Opaque memset_32 memset_8.

(** Strings as they lie in memory, each with its terminator. *)
Definition flat (strings : list (list Z)) : list Z := concat (map (fun str => str ++ [0]) strings).

Lemma flat_length strings : Z.of_nat (length (flat strings)) = total_bytes strings.
Proof.
  induction strings as [|str strings IH]; [done|]. unfold flat, total_bytes, str_bytes in *. cbn [map concat foldr].
  rewrite !length_app. cbn [length]. lia.
Qed.

(** ** Through the window *)

Lemma vput_bytes_window bytes s o :
  0 <= o -> o + Z.of_nat (length bytes) <= 4096 ->
  vput_bytes (WINDOW + o) bytes s = Ret (tt, set_pm (fun m => put_bytes m (entry_frame s.(win_pte) + o) bytes) s).
Proof.
  revert s o. induction bytes as [|b bytes IH]; intros s o H0 Hle; cbn [vput_bytes put_bytes length] in *.
  { by destruct s. }
  unfold bind, modify. rewrite phys_of_window by lia. rewrite u32_small by (unfold WINDOW; lia).
  replace (WINDOW + o + 1) with (WINDOW + (o + 1)) by lia. rewrite IH by lia.
  cbn [win_pte set_pm]. replace (entry_frame (win_pte s) + (o + 1)) with (entry_frame (win_pte s) + o + 1) by lia. done.
Qed.

Lemma copy_strings_window strings s o :
  0 <= o -> o + total_bytes strings <= 4096 ->
  copy_strings (WINDOW + o) strings s =
  Ret (tt, set_pm (fun m => put_bytes m (entry_frame s.(win_pte) + o) (flat strings)) s).
Proof.
  revert s o. induction strings as [|str strings IH]; intros s o H0 Hle; cbn [copy_strings].
  { by destruct s. }
  cbn [total_bytes foldr] in Hle. fold (total_bytes strings) in Hle. unfold str_bytes in Hle.
  pose proof (flat_length strings). unfold bind.
  rewrite vput_bytes_window by (rewrite ?length_app; cbn [length]; lia).
  rewrite u32_small by (unfold WINDOW; lia).
  replace (WINDOW + o + (Z.of_nat (length str) + 1)) with (WINDOW + (o + (Z.of_nat (length str) + 1))) by lia.
  rewrite IH by lia. unfold flat, set_pm. cbn [map concat pm win_pte frames page_directory kernel_pagedir paging_status temp_page cr3 isr14_installed].
  rewrite (put_bytes_app _ _ (str ++ [0])), length_app. cbn [length]. do 4 f_equal. lia.
Qed.

Lemma push_start_window f he total argc s :
  is_frame f -> exists w, push_start f he total argc s =
  Ret (tt, set_pm (fun m => wr32 (wr32 (wr32 (wr32 m (f + 4080) BOOTSTRAP_MAGIC) (f + 4084) he) (f + 4088) (u32 total))
                              (f + 4092) (u32 (argc + 1))) (set_win w s)).
Proof.
  intros Hf. unfold push_start. unfold bind at 1. destruct (temp_map_spec f s Hf) as (w & -> & Hw). exists w.
  unfold bind. rewrite !vwrite_window by lia. cbn [win_pte set_pm set_win]. rewrite Hw. done.
Qed.

(** ** The page of arguments *)

Section start.
Context (dir : Z).

Lemma map_args_spec s M strings n :
  image dir s M -> total_bytes strings <= 4096 -> frames_left s.(frames) (S (S n)) ->
  wp (map_args dir strings) (fun _ s' => exists f c,
    image dir s' (<[PROCESS_HEAP := (f, c)]> (delete PROCESS_HEAP M)) /\ frames_left s'.(frames) n /\
    forall i, 0 <= i < total_bytes strings -> c i = u8 (default 0 (flat strings !! Z.to_nat i))) s.
Proof.
  intros Hi Hle Hroom. unfold map_args. apply wp_bind. unfold wp at 1.
  destruct (fresh_frame dir s M _ Hi Hroom) as (f & fr & -> & Hff & Hi0 & Hf & HM & Hroom1).
  apply wp_bind. unfold wp at 1. destruct (temp_map_spec f (set_frames fr s) Hff) as (w & -> & Hw).
  apply wp_bind. unfold wp at 1. replace WINDOW with (WINDOW + 0) by lia.
  rewrite copy_strings_window by lia. cbn [win_pte set_win]. rewrite Hw, Z.add_0_r. set (s1 := set_pm _ _).
  pose proof (flat_length strings) as Hfl.
  destruct (image_write dir (set_frames fr s) s1 M f Hi0) as (Hi1 & Hpriv & _); [done| |apply Hf..|exact HM|].
  { intros g [Hg _] Hne x Hx. cbn [s1 pm set_pm set_win set_frames]. apply put_bytes_out. destruct Hff. zdm. }
  eapply wp_mono.
  { apply (map_page_spec dir s1 M PROCESS_HEAP f (fun i => rd8 s1.(pm) (f + i)) n Hi1); [done|by apply Hpriv|exact HM|reflexivity|exact Hroom1]. }
  intros [] s' [Hi' Hroom']. eexists f, _. split_and!; [exact Hi'|done|]. intros i Hi2.
  cbn [s1 pm set_pm set_win set_frames]. apply put_bytes_in. lia.
Qed.

(** What a program reads at the addresses the processor gives it. *)
Definition user_bytes (m : mem) (va n : Z) : list Z := map (fun i => rd8 m (mmu m dir (va + i))) (seqZ 0 n).
Definition user_words (m : mem) (va n : Z) : list Z := map (fun j => rd32 m (mmu m dir (va + 4 * j))) (seqZ 0 n).

(** The top of the stack, and the page that holds it. *)
Definition stack_top : Z := PROCESS_STACK + PROCESS_STACK_PAGES * 0x1000.
Definition last_stack_page : Z := PROCESS_STACK + (PROCESS_STACK_PAGES - 1) * 0x1000.

Lemma user_bytes_heap s M f d strings :
  image dir s M -> M !! PROCESS_HEAP = Some (f, d) -> total_bytes strings <= 4096 ->
  (forall i, 0 <= i < total_bytes strings -> d i = u8 (default 0 (flat strings !! Z.to_nat i))) ->
  user_bytes s.(pm) PROCESS_HEAP (total_bytes strings) = map u8 (flat strings).
Proof.
  intros Hi HM Hle Hd. pose proof (flat_length strings) as Hfl. unfold user_bytes. apply list_eq. intros k.
  rewrite !list_lookup_fmap. destruct (decide (Z.of_nat k < total_bytes strings)) as [Hk|Hk].
  - rewrite lookup_seqZ_lt by lia. cbn [fmap option_fmap option_map].
    destruct (image_mmu dir s M PROCESS_HEAP f d (0 + Z.of_nat k) Hi HM ltac:(lia)) as (_ & _ & _ & -> & ->).
    rewrite Hd, Z.add_0_l, Nat2Z.id by lia. destruct (lookup_lt_is_Some_2 (flat strings) k) as [b ->]; [lia|done].
  - rewrite lookup_seqZ_ge, lookup_ge_None_2 by lia. done.
Qed.

Lemma heap_for_user s M f d n i :
  image dir s M -> M !! PROCESS_HEAP = Some (f, d) -> n <= 4096 -> 0 <= i < n ->
  user_supervisor (pte_of s.(pm) dir (PROCESS_HEAP + i)) = 1.
Proof. intros Hi HM Hn Hr. by destruct (image_mmu dir s M PROCESS_HEAP f d i Hi HM ltac:(lia)) as (_ & ? & _). Qed.

(** The start words, as the program finds them. *)
Lemma push_start_spec s M stack_page c he total n f d :
  image dir s M -> M !! last_stack_page = Some (stack_page, c) -> M !! PROCESS_HEAP = Some (f, d) ->
  is_u32 he -> 0 <= total < 2 ^ 31 -> 0 <= n < 2 ^ 31 ->
  wp (push_start stack_page he (i32 total) n) (fun _ s' =>
    user_words s'.(pm) (stack_top - 16) 4 = [BOOTSTRAP_MAGIC; he; total; n + 1] /\
    exists M', image dir s' M' /\ M' !! PROCESS_HEAP = Some (f, d)) s.
Proof.
  intros Hi Hsp Hh Hhe Htot Hn. destruct (im_page _ _ _ Hi _ _ _ Hsp) as (_ & _ & Hpg & _).
  pose proof (image_frame _ _ _ _ Hi (proj1 Hpg)) as Hff.
  unfold wp. destruct (push_start_window stack_page he (i32 total) n s Hff) as (w & ->). set (s' := set_pm _ _).
  assert (Hi2 : image dir s' (<[last_stack_page := (stack_page, fun i => rd8 s'.(pm) (stack_page + i))]> M)).
  { eapply image_rewrite; [exact Hi|exact Hsp|done| |done]. intros g [Hg _] Hne x Hx.
    cbn [s' pm set_pm set_win]. destruct Hff. rewrite !rd8_wr32_ne by zdm. done. }
  split; [|eexists; split; [exact Hi2|by rewrite lookup_insert_ne]].
  assert (Haddr : forall j, 0 <= j < 4 -> mmu s'.(pm) dir (stack_top - 16 + 4 * j) = stack_page + (4080 + 4 * j)).
  { intros j Hj. replace (stack_top - 16 + 4 * j) with (last_stack_page + (4080 + 4 * j))
      by (unfold stack_top, last_stack_page, PROCESS_STACK_PAGES; lia).
    eapply (image_mmu dir s' _ _ _ _ _ Hi2); [apply lookup_insert_eq|lia]. }
  unfold user_words. change (seqZ 0 4) with [0; 1; 2; 3]. cbn [map]. rewrite !Haddr by lia.
  clear - Hhe Htot Hn. cbn [s' pm set_pm set_win].
  rewrite Z.mul_0_r, Z.add_0_r. change (4080 + 4 * 1) with 4084. change (4080 + 4 * 2) with 4088. change (4080 + 4 * 3) with 4092.
  mem_simpl. rewrite u32_i32, !u32_idemp. unfold is_u32 in Hhe.
  rewrite (u32_small he), (u32_small total), (u32_small (n + 1)) by lia. done.
Qed.
End start.

(** ** The process *)

Section process.
Context {A : Type} `{PagingState A}.
Implicit Types (s : kstate A).

(** The physical memory of the machine. *)
Definition memory s : mem := (paging_of s.(kstore).(alloc)).(pm).

Lemma wp_upd_frame a f r Q s :
  s.(kregs) !! a = Some r -> Q tt (set_kregs (<[a := f r]> s.(kregs)) s) -> wp (upd_frame a f) Q s.
Proof. intros Hr HQ. unfold wp, upd_frame. by rewrite Hr. Qed.

(** C34: The loader hands a program its arguments.  For a process whose address
    space has the last page of its stack mapped, with two free frames, and
    whose name and arguments with their terminators fit a page: after what
    [loader_spawn] does before it makes the process ready ([restart] false; its
    saved stack pointer is then the top of the stack) and what [loader_exec]
    does before it returns ([restart] true; it resets the saved frame), the
    process runs from the same instruction pointer, its heap ends a page behind
    its start, the bytes it reads at the start of its heap are its name and its
    arguments one behind the other (and it may access them), and the words it
    reads from its saved stack pointer upwards, to the top of its stack, are the
    magic number, the end of its heap, the length of the arguments and their
    number including the name. *)
Theorem program_start restart process args s p r ws M stack_page c n :
  let strings := p.(p_name) :: args in
  s.(kstore).(objs) !! process = Some (OProc p) -> s.(kregs) !! p.(proc_regs) = Some r ->
  s.(kstore).(objs) !! p.(proc_ustack_phys) = Some (OWords ws) ->
  p.(proc_ustack_pages) = PROCESS_STACK_PAGES -> arr_get ws (PROCESS_STACK_PAGES - 1) = Some stack_page ->
  (restart = false -> r.(r_useresp) = stack_top) ->
  image p.(proc_pdir) (paging_of s.(kstore).(alloc)) M -> M !! last_stack_page = Some (stack_page, c) ->
  total_bytes strings <= 4096 -> frames_left (paging_of s.(kstore).(alloc)).(frames) (S (S n)) ->
  wp (start_program restart process (Z.of_nat (length args)) args) (fun _ s' => exists p' r',
    s'.(kstore).(objs) !! process = Some (OProc p') /\ p'.(proc_pdir) = p.(proc_pdir) /\
    s'.(kregs) !! p'.(proc_regs) = Some r' /\ r'.(r_eip) = r.(r_eip) /\
    p'.(heap_end) = u32 (p.(heap_start) + 4096) /\
    user_bytes p.(proc_pdir) (memory s') PROCESS_HEAP (total_bytes strings) = map u8 (flat strings) /\
    (forall i, 0 <= i < total_bytes strings -> user_supervisor (pte_of (memory s') p.(proc_pdir) (PROCESS_HEAP + i)) = 1) /\
    r'.(r_useresp) + 16 = stack_top /\
    user_words p.(proc_pdir) (memory s') r'.(r_useresp) 4 =
      [BOOTSTRAP_MAGIC; p'.(heap_end); total_bytes strings; Z.of_nat (length args) + 1]) s.
Proof.
  intros strings Hp Hr Hws Hpages Hlast Hre Hi Hsp Hle Hroom.
  assert (Hpu : process <> p.(proc_ustack_phys)) by congruence.
  assert (Hargs : 0 <= Z.of_nat (length args) < 2 ^ 31).
  { unfold strings, total_bytes in Hle. cbn [foldr] in Hle. fold (total_bytes args) in Hle. unfold str_bytes in Hle.
    assert (Z.of_nat (length args) <= total_bytes args); [|lia]. clear. induction args as [|x l IH]; [done|].
    unfold total_bytes, str_bytes in *. cbn [foldr length]. lia. }
  pose proof (flat_length strings). set (dir := p.(proc_pdir)) in *. set (he := u32 (p.(heap_start) + 4096)).
  unfold start_program, place_args. apply wp_bind, wp_bind. eapply wp_proc_at; [by apply proc_in_Some|].
  apply wp_bind, wp_run_paging. fold strings dir. eapply wp_mono; [by apply (map_args_spec dir _ M strings n)|].
  intros [] ps (f & d & Hi1 & _ & Hd). eapply wp_upd_proc; [by apply proc_in_Some|]. set (s1 := set_kstore _ _).
  set (p1 := set_heap_end _ p) in *. set (M1 := <[PROCESS_HEAP := _]> _) in *.
  assert (Hp1 : s1.(kstore).(objs) !! process = Some (OProc p1)) by apply lookup_insert_eq.
  assert (Hm1 : paging_of s1.(kstore).(alloc) = ps) by apply paging_of_with.
  assert (Hw1 : s1.(kstore).(objs) !! p.(proc_ustack_phys) = Some (OWords ws)).
  { cbn [s1 kstore set_kstore objs put_proc]. by rewrite lookup_insert_ne. }
  assert (Hsp1 : M1 !! last_stack_page = Some (stack_page, c)) by (unfold M1; by rewrite lookup_insert_ne, lookup_delete_ne).
  apply wp_bind. apply (wp_mono _ (fun _ s2 => s2.(kstore) = s1.(kstore) /\ exists r2, s2.(kregs) !! p.(proc_regs) = Some r2 /\
    r2.(r_eip) = r.(r_eip) /\ r2.(r_useresp) = stack_top)).
  { destruct restart.
    - apply wp_bind. eapply wp_proc_at; [by apply proc_in_Some|]. eapply wp_upd_frame; [exact Hr|]. split; [done|].
      eexists. split; [apply lookup_insert_eq|done].
    - apply wp_ret. split; [done|]. exists r. split_and!; [exact Hr|done|by apply Hre]. }
  intros [] s2 (Hs2 & r2 & Hr2 & He2 & Hu2). rewrite <- Hs2 in Hp1, Hm1, Hw1. clearbody s1.
  unfold place_start. apply wp_bind. eapply wp_proc_at; [by apply proc_in_Some|]. apply wp_bind.
  eapply wp_Ret; [unfold on_store, get_words; cbn [p1 proc_ustack_phys set_heap_end]; rewrite Hw1; reflexivity|].
  cbn [p1 proc_ustack_pages set_heap_end]. rewrite Hpages. change (u32 (PROCESS_STACK_PAGES - 1)) with (PROCESS_STACK_PAGES - 1).
  rewrite Hlast. apply wp_bind, wp_ret, wp_bind, wp_run_paging.
  replace (set_kstore (kstore s2) s2) with s2 by (by destruct s2). cbn [heap_end p_name]. fold strings he. rewrite Hm1.
  eapply wp_mono; [apply (push_start_spec dir ps M1 stack_page c he (total_bytes strings) _ f d);
    [exact Hi1|exact Hsp1|apply lookup_insert_eq|apply u32_range|lia|exact Hargs]|].
  intros [] ps' (Hwords & M2 & Hi2 & HM2). apply wp_bind. eapply wp_proc_at; [by apply proc_in_Some|]. apply wp_bind.
  eapply wp_Ret; [unfold frame_at; cbn [p1 proc_regs set_heap_end kregs set_kstore]; rewrite Hr2; reflexivity|].
  eapply wp_upd_frame; [exact Hr2|]. exists p1. eexists. split; [exact Hp1|]. split; [done|].
  split; [apply lookup_insert_eq|]. cbn [r_eip r_useresp set_useresp]. rewrite Hu2. change (u32 (stack_top - 16)) with (stack_top - 16).
  unfold memory. cbn [kstore set_kregs set_kstore alloc]. rewrite paging_of_with.
  split_and!; [exact He2|done| | |lia|exact Hwords].
  - by eapply user_bytes_heap; [exact Hi2|exact HM2|..].
  - intros i Hi3. by eapply heap_for_user; [exact Hi2|exact HM2|exact Hle|].
Qed.
End process.

(** ** A process with a stack *)

(** The address space of [demo_paging] with a fifth stack page. *)
Definition demo_started : pstate :=
  match fresh_page 0x101000 (PROCESS_STACK + 4 * 0x1000) demo_paging with Ret (_, s) => s | _ => demo_paging end.

Lemma demo_room4 : frames_left demo_frames 4.
Proof.
  split; [intros _; by vm_compute|]. exists [0x106000; 0x107000; 0x108000; 0x109000]. split_and!; [|done|].
  - apply (bool_decide_unpack _). by vm_compute.
  - apply (bool_decide_unpack _). by vm_compute.
Qed.

Lemma demo_started_ok :
  exists f, image 0x101000 demo_started (<[PROCESS_STACK + 4 * 0x1000 := (f, fun _ => 0)]> ∅) /\
    frames_left demo_started.(frames) 2.
Proof.
  destruct (wp_inv _ _ _ (fresh_page_spec 0x101000 demo_paging ∅ (PROCESS_STACK + 4 * 0x1000) 2 demo_image
    ltac:(by split; vm_compute) demo_room4)) as (f & s & Heq & Hi & Hr).
  unfold demo_started. rewrite Heq. exists f. rewrite delete_empty in Hi. split; [exact Hi|exact Hr].
Qed.

(** [ls -l], on the kernel's heap and paging. *)
#[local] Existing Instances kernel_supply kernel_allocator kernel_paged kernel_paging_state.

Definition demo_proc : proc :=
  set_proc_regs 0x700 (set_proc_pdir 0x101000 (set_heap_start PROCESS_HEAP (set_p_name [108; 115]
    (set_proc_ustack_phys 0x800 (set_proc_ustack_pages PROCESS_STACK_PAGES zero_proc))))).
Definition demo_frame : registers := Regs 0 0 0 0 0 0 0 0 0 0 0 0 0 0 0x10000000 0 0 0 0.
Definition demo_kstate (f : Z) : kstate (hstate pstate) :=
  KState (Store (HState 4096 0xD0000000 0xD0001000 0 ∅ demo_started)
            (<[0x600 := OProc demo_proc]> {[0x800 := OWords [0; 0; 0; 0; f]]}))
    {[0x700 := demo_frame]} 0 0 0 0x600 0 0 0 0 0 0 0 0 0 0 0 [] [].

Lemma program_start_witness :
  exists f, wp (start_program (H := kernel_allocator {[0x101000]}) (H0 := kernel_paged {[0x101000]}) true 0x600 1 [[45; 108]])
    (fun _ s' => exists p' r', s'.(kstore).(objs) !! 0x600 = Some (OProc p') /\ s'.(kregs) !! p'.(proc_regs) = Some r' /\
      user_bytes 0x101000 s'.(kstore).(alloc).(h_pages).(pm) PROCESS_HEAP 6 = [108; 115; 0; 45; 108; 0] /\
      user_words 0x101000 s'.(kstore).(alloc).(h_pages).(pm) r'.(r_useresp) 4 = [0xDB05DB05; 0x50001000; 6; 2]) (demo_kstate f).
Proof.
  destruct demo_started_ok as (f & Hi & Hr). exists f. eapply wp_mono.
  { apply (program_start (H1 := kernel_paging_state {[0x101000]}) true 0x600 [[45; 108]] (demo_kstate f) demo_proc demo_frame
             [0; 0; 0; 0; f] (<[PROCESS_STACK + 4 * 0x1000 := (f, fun _ => 0)]> ∅) f (fun _ => 0) 0).
    - reflexivity.
    - reflexivity.
    - reflexivity.
    - reflexivity.
    - reflexivity.
    - discriminate.
    - exact Hi.
    - apply lookup_insert_eq.
    - by vm_compute.
    - exact Hr. }
  intros [] s' (p' & r' & Hp' & _ & Hr' & _ & He & Hb & _ & _ & Hw). exists p', r'.
  split_and!; [exact Hp'|exact Hr'|exact Hb|]. rewrite He in Hw. exact Hw.
Defined.
