(* ===== verification/Bootstrap.v ===== *)
(** The start of a user program, [libraries/bootstrap.c]: the user heap is set
    up behind the arguments the kernel left at its start, and the arguments are
    copied into blocks of their own for [main]. *)
From stdpp Require Import base numbers gmap list.
From S2P Require Import Prelude Kmem Allocator Heap KString Kstdio Libc Paging UserSpace Elf ElfSpec Process Loader LoaderSpec.

Section bootstrap.
Context {P : Type} `{Sbrk P}.
Implicit Types (s : hstate P).

Definition on_mem {B} (c : cmd mem B) : cmd (hstate P) B :=
  fun s => match c s.(h_mem) with
           | Ret (b, m) => Ret (b, set_mem (fun _ => m) s)
           | Fault => Fault
           | Hang => Hang
           end.

(** The loop over the arguments. *)
Fixpoint parse_arguments (n : nat) (arguments i str : Z) : cmd (hstate P) unit :=
  match n with
  | O => ret tt
  | S n' =>
      len <- on_mem (Libc.strlen str) ;;
      arg <- alloc_allocate (u32 (len + 1)) ;;
      on_mem (Libc.strncpy arg str len) ;;;
      modify (set_mem (fun m => wr32 m (arguments + 4 * i) arg)) ;;;
      parse_arguments n' arguments (i + 1) (u32 (str + (len + 1)))
  end.

(** From the initialisation of the allocator to the call of [main], with the
    array [arguments] as the result. *)
Definition bootstrap_arguments (heap_end argv_total_length argc : Z) : cmd (hstate P) Z :=
  alloc_initialise argv_total_length heap_end ;;;
  arguments <- alloc_allocate (u32 (4 * argc)) ;;
  parse_arguments (Z.to_nat argc) arguments 0 ALLOC_HEAP_START ;;;
  ret arguments.
End bootstrap.

(** * Strings *)

Lemma libc_strlen_spec m p l : cstr m p l -> Libc.strlen p m = Ret (Z.of_nat (length l), m).
Proof.
  intros Hc. unfold Libc.strlen, bind, gets. rewrite (libc_strlen_run m p l); [done| |].
  - by rewrite Z.add_0_r.
  - unfold str_fuel. apply Nat.lt_succ_r. by eapply cstr_size.
Qed.

Lemma strncpy_loop_run l m d src i :
  cstr m (src + i) l -> (forall j, 0 <= j < Z.of_nat (length l) -> src + i + Z.of_nat (length l) < d + i + j \/ d + i + j < src + i) ->
  Libc.strncpy_loop (length l) d src i m = Ret (tt, put_bytes m (d + i) l).
Proof.
  revert m i. induction l as [|c l IH]; intros m i Hc Hd; [done|]. cbn [length Libc.strncpy_loop cstr put_bytes] in *.
  destruct Hc as (Hr & Hc0 & Hc). unfold bind, peek, poke, gets, modify. rewrite Hr.
  destruct (Z.eqb_spec c 0); [done|]. cbn [negb]. rewrite IH.
  - do 3 f_equal. lia.
  - rewrite Z.add_assoc. eapply cstr_ext; [|exact Hc]. intros x Hx. apply rd8_wr8_ne.
    destruct (Hd 0 ltac:(lia)); lia.
  - intros j Hj. destruct (Hd (j + 1) ltac:(lia)); lia.
Qed.

(** Characters put in front of a zero byte make a string. *)
Lemma put_bytes_string m p l :
  Forall (fun c => 0 < c < 256) l -> rd8 m (p + Z.of_nat (length l)) = 0 -> cstr (put_bytes m p l) p l.
Proof.
  intros Hl. revert m p. induction Hl as [|c l Hc Hl IH]; intros m p Hz; cbn [cstr put_bytes length] in *.
  { by rewrite Z.add_0_r in Hz. }
  split_and!; [|lia|].
  - rewrite put_bytes_out by lia. rewrite rd8_wr8_same. apply u8_small. lia.
  - apply IH. rewrite rd8_wr8_ne by lia. rewrite <- Hz. f_equal. lia.
Qed.

Definition printable (strings : list (list Z)) : Prop := Forall (Forall (fun c => 0 < c < 256)) strings.

(** The bytes of [strings] lie from [a] on. *)
Definition laid (m : mem) (a : Z) (strings : list (list Z)) : Prop :=
  forall i, 0 <= i < total_bytes strings -> rd8 m (a + i) = default 0 (flat strings !! Z.to_nat i).

Lemma bytes_cstr m a l :
  Forall (fun c => 0 < c < 256) l ->
  (forall i, 0 <= i <= Z.of_nat (length l) -> rd8 m (a + i) = default 0 ((l ++ [0]) !! Z.to_nat i)) -> cstr m a l.
Proof.
  intros Hl. revert a. induction Hl as [|c l Hc Hl IH]; intros a Hb; cbn [cstr].
  { specialize (Hb 0 ltac:(done)). by rewrite Z.add_0_r in Hb. }
  split_and!; [|lia|].
  - specialize (Hb 0 ltac:(lia)). by rewrite Z.add_0_r in Hb.
  - apply IH. intros i Hi. specialize (Hb (i + 1) ltac:(cbn; lia)). replace (a + 1 + i) with (a + (i + 1)) by lia.
    rewrite Hb. by replace (Z.to_nat (i + 1)) with (S (Z.to_nat i)) by lia.
Qed.

Lemma laid_cons m a str strings :
  printable (str :: strings) -> laid m a (str :: strings) -> cstr m a str /\ laid m (a + str_bytes str) strings.
Proof.
  intros [Hs _]%Forall_cons Hl. pose proof (flat_length strings) as Hfl. unfold laid, flat in Hl. cbn [map concat] in Hl.
  unfold total_bytes in Hl. cbn [foldr] in Hl. fold (total_bytes strings) in Hl. unfold str_bytes in *. split.
  - apply bytes_cstr; [done|]. intros i Hi. rewrite Hl by lia. rewrite lookup_app_l by (rewrite length_app; cbn; lia). done.
  - intros i Hi. replace (a + (Z.of_nat (length str) + 1) + i) with (a + (Z.of_nat (length str) + 1 + i)) by lia.
    rewrite Hl by lia. rewrite lookup_app_r by (rewrite length_app; cbn; lia). do 2 f_equal.
    rewrite length_app. cbn [length]. unfold flat. f_equal. lia.
Qed.

(** * The arguments of main *)

Section arguments.
Context {P : Type} `{Sbrk P}.
Implicit Types (s : hstate P) (bs : blocks).

(** The address space each string may need when its block is allocated. *)
Definition budget (strings : list (list Z)) : Z := foldr (fun str n => str_bytes str + 4112 + n) 0 strings.

(** An element of the array: a pointer to a block of its own with the string. *)
Definition argument (m : mem) (l : list (Z * Z)) (a k : Z) (str : list Z) : Prop :=
  exists p sz, rd32 m (a + 4 * k) = p /\ (p, sz) ∈ l /\ p <> 0 /\ p <> a /\ cstr m p str /\ str_bytes str <= sz.

(** The heap while the arguments are copied: [i] of them are in the array [a]. *)
Record copying (start a asz : Z) (copied : list (list Z)) (str_at : Z) (rest : list (list Z)) s bs : Prop := {
  cp_rep : heap_rep s bs;
  cp_start : s.(h_start) = start;
  cp_sbrk : sbrk_ok s.(h_end) s.(h_pages);
  cp_array : (a, asz) ∈ live start bs;
  cp_room : s.(h_end) + budget rest < 2 ^ 32;
  cp_rest : laid s.(h_mem) str_at rest /\ 0 < str_at /\ str_at + total_bytes rest <= start;
  cp_done : forall k str, copied !! k = Some str -> argument s.(h_mem) (live start bs) a (Z.of_nat k) str;
  cp_distinct : forall j k, 0 <= j < k -> k < Z.of_nat (length copied) ->
    rd32 s.(h_mem) (a + 4 * j) <> rd32 s.(h_mem) (a + 4 * k)
}.

Lemma total_nonneg strings : 0 <= total_bytes strings.
Proof. rewrite <- flat_length. lia. Qed.
Lemma budget_length strings : 4112 * Z.of_nat (length strings) <= budget strings.
Proof. unfold budget, str_bytes. induction strings; cbn [foldr length]; lia. Qed.
Lemma budget_nonneg strings : 0 <= budget strings.
Proof. pose proof (budget_length strings). lia. Qed.

(** Arguments survive changes of memory outside their block and their pointer. *)
Lemma argument_kept m m' l l' a k str :
  argument m l a k str -> (forall b, b ∈ l -> b ∈ l') -> rd32 m' (a + 4 * k) = rd32 m (a + 4 * k) ->
  (forall q sz, (q, sz) ∈ l -> q <> a -> forall x, q <= x < q + sz -> rd8 m' x = rd8 m x) -> argument m' l' a k str.
Proof.
  intros (p & sz & Hp & Hin & H0 & Ha & Hc & Hle) Hl Hr Hx. unfold str_bytes in Hle. exists p, sz.
  rewrite Hr. split_and!; [done|by apply Hl|done|done| |done].
  eapply cstr_ext; [|exact Hc]. intros x Hx'. eapply Hx; [exact Hin|done|lia].
Qed.

Lemma laid_kept m m' a strings top :
  laid m a strings -> a + total_bytes strings <= top -> (forall x, x < top -> rd8 m' x = rd8 m x) -> laid m' a strings.
Proof. intros Hl Ht Hx i Hi. rewrite Hx by lia. by apply Hl. Qed.

Lemma live_above s bs q sz : heap_rep s bs -> (q, sz) ∈ live s.(h_start) bs -> s.(h_start) + 9 <= q /\ q + sz < 2 ^ 32.
Proof.
  intros (_ & He & Hm) Hin. destruct bs as [|b bs]; [by apply not_elem_of_nil in Hin|].
  destruct Hm as (_ & Hc & Hs). destruct (live_bounds _ _ _ _ _ _ Hc Hin). lia.
Qed.

(** One argument: its block [p] was allocated, filled and put in the array. *)
Lemma copying_step start a asz copied src str rest s bs s1 p :
  copying start a asz copied src (str :: rest) s bs -> malloc_post sbrk_ok s bs (str_bytes str) p s1 ->
  printable (str :: rest) -> 4 * (Z.of_nat (length copied) + 1) <= asz ->
  start + 9 <= p /\ exists bs1, copying start a asz (copied ++ [str]) (src + str_bytes str) rest
    (set_mem (fun m => wr32 (put_bytes m p str) (a + 4 * Z.of_nat (length copied)) p) s1) bs1.
Proof.
  intros [Hrep Hst Hsb Harr Hroom (Hl & Hs0 & Hle) Hdone Hdist] (bs1 & sz & Hrep1 & Hst1 & Hp0 & Hsz & Hlv & Hz & Hk & Hend & Hg & Hbelow) Hpr Hasz.
  rewrite Hst in *. pose proof (laid_cons _ _ _ _ Hpr Hl) as [Hstr Hrest].
  assert (Hin : forall b, b ∈ live start bs -> b ∈ live start bs1) by (intros b Hb; rewrite Hlv; by right).
  assert (Hpin : (p, sz) ∈ live start bs1) by (rewrite Hlv; by left).
  assert (Hfresh : forall q qsz, (q, qsz) ∈ live start bs -> p + sz <= q \/ q + qsz <= p).
  { intros q qsz Hq. eapply heap_live_disjoint; [exact Hrep1|by rewrite Hst1|done]. }
  assert (Hpa : start + 9 <= p) by (rewrite <- Hst1; eapply live_above; [done|by rewrite Hst1]).
  assert (Haa : start + 9 <= a) by (rewrite <- Hst; eapply live_above; [done|by rewrite Hst]).
  assert (Hp32 : p + sz < 2 ^ 32) by (eapply live_above; [exact Hrep1|by rewrite Hst1]).
  unfold total_bytes, budget in Hle, Hroom. cbn [foldr] in Hle, Hroom. fold (total_bytes rest) (budget rest) in Hle, Hroom.
  pose proof (total_nonneg rest) as Htr. unfold str_bytes in *. split; [done|]. exists bs1.
  set (n := Z.of_nat (length copied)) in *. set (m1 := put_bytes s1.(h_mem) p str). set (m2 := wr32 m1 (a + 4 * n) p).
  pose proof (Hfresh a asz Harr) as Hap.
  assert (Hm1 : forall x, x < p \/ p + sz <= x -> rd8 m1 x = rd8 s1.(h_mem) x) by (intros x Hx; apply put_bytes_out; lia).
  assert (Hm2 : forall x, x < a \/ a + asz <= x -> rd8 m2 x = rd8 m1 x) by (intros x Hx; apply rd8_wr32_ne; unfold n in *; lia).
  assert (Hlow : forall x, x < start -> rd8 m2 x = rd8 s.(h_mem) x) by (intros x Hx; rewrite Hm2, Hm1, Hbelow by lia; done).
  assert (Hold : forall k, 0 <= k < n -> rd32 m2 (a + 4 * k) = rd32 s.(h_mem) (a + 4 * k)).
  { intros k Hk'. unfold m2. rewrite rd32_wr32_ne by lia. apply rd32_ext. intros x Hx. rewrite Hm1 by lia.
    eapply Hk; [exact Harr|lia]. }
  assert (Hnew : rd32 m2 (a + 4 * n) = p) by (unfold m2; rewrite rd32_wr32_u32; apply u32_small; lia).
  split; cbn [set_mem h_start h_end h_pages h_mem]; fold m1 m2.
  - change (set_mem _ s1) with (set_mem (fun _ => m2) (set_mem (fun _ => m1) s1)).
    eapply heap_rep_payload; [|cbn; rewrite Hst1; by apply Hin|exact Hm2].
    eapply heap_rep_payload; [exact Hrep1|by rewrite Hst1|exact Hm1].
  - done.
  - done.
  - by apply Hin.
  - lia.
  - split_and!; [|lia|lia]. apply (laid_kept s.(h_mem) _ _ _ start); [exact Hrest|lia|exact Hlow].
  - intros k str' Hks. apply lookup_app_Some in Hks as [Hks|[Hge Hks]].
    + pose proof (lookup_lt_Some _ _ _ Hks) as Hlt. eapply (argument_kept s.(h_mem)); [by apply Hdone|done| |].
      * apply Hold. lia.
      * intros q qsz Hq Hqa x Hx. destruct (heap_live_apart s bs q qsz a asz) as [?|?]; [done|by rewrite Hst..|done| |].
        all: destruct (Hfresh q qsz Hq); rewrite Hm2, Hm1 by lia; by eapply Hk.
    + apply list_lookup_singleton_Some in Hks as [Hk0 <-]. assert (Z.of_nat k = n) as -> by lia.
      exists p, sz. split_and!; [|done|done|lia| |done].
      * done.
      * eapply (cstr_ext m1); [intros x Hx; apply Hm2; lia|]. apply put_bytes_string; [by apply Forall_cons in Hpr as [? _]|].
        apply Hz. lia.
  - intros j k Hjk Hk'. rewrite length_app in Hk'. cbn [length] in Hk'. destruct (decide (k = n)) as [->|].
    + rewrite Hnew, Hold by lia. destruct (lookup_lt_is_Some_2 copied (Z.to_nat j) ltac:(lia)) as [str' Hj].
      destruct (Hdone _ _ Hj) as (q & qsz & Hq & Hqin & _ & _ & _ & Hqs). rewrite Z2Nat.id in Hq by lia. unfold str_bytes in Hqs.
      destruct (Hfresh q qsz Hqin); lia.
    + rewrite !Hold by lia. apply Hdist; lia.
Qed.
Lemma parse_arguments_spec start a asz rest copied src s bs :
  copying start a asz copied src rest s bs -> printable rest -> 4 * Z.of_nat (length copied + length rest) <= asz ->
  start < 2 ^ 32 -> total_bytes rest <= 2 ^ 30 ->
  wp (parse_arguments (length rest) a (Z.of_nat (length copied)) src) (fun _ s' =>
    exists bs' src', copying start a asz (copied ++ rest) src' [] s' bs') s.
Proof.
  intros Hcp Hpr Hasz Hst Htot. revert copied src s bs Hcp Hasz.
  induction rest as [|str rest IH]; intros copied src s bs Hcp Hasz; cbn [length parse_arguments].
  { apply wp_ret. exists bs, src. by rewrite app_nil_r. }
  pose proof Hcp as [Hrep Hs Hsb Harr Hroom (Hl & Hs0 & Hle) _ _]. pose proof (laid_cons _ _ _ _ Hpr Hl) as [Hstr _].
  pose proof (total_nonneg rest) as Htr. pose proof (budget_nonneg rest) as Hbr.
  unfold total_bytes, budget in Htot, Hle, Hroom. cbn [foldr] in Htot, Hle, Hroom.
  fold (total_bytes rest) (budget rest) in Htot, Hle, Hroom. unfold str_bytes in Htot, Hle, Hroom. cbn [length] in Hasz.
  apply wp_bind. unfold on_mem at 1, wp at 1. rewrite (libc_strlen_spec _ _ _ Hstr). rewrite (u32_small (_ + 1)) by lia.
  assert (set_mem (fun _ => h_mem s) s = s) as -> by (by destruct s).
  fold (str_bytes str). apply wp_bind. eapply wp_mono.
  { apply (malloc_body_correct _ sbrk_ok (2 ^ 32) ltac:(done) alloc_increase_ok (str_bytes str) s bs Hrep).
    unfold room, str_bytes. split_and!; [lia|lia|lia|done|]. intros Hh. exfalso. destruct Hrep as (? & _ & Hm).
    destruct bs; [by apply not_elem_of_nil in Harr|]. destruct Hm. lia. }
  intros p s1 Hpost. destruct (copying_step _ _ _ _ _ _ _ _ _ _ _ Hcp Hpost Hpr ltac:(lia)) as [Hp (bs1 & Hcp1)].
  destruct Hpost as (_ & _ & _ & _ & _ & _ & _ & _ & _ & _ & _ & Hbelow).
  assert (Hstr1 : cstr s1.(h_mem) src str).
  { eapply cstr_ext; [|exact Hstr]. intros x Hx. apply Hbelow. lia. }
  apply wp_bind. unfold on_mem at 1, wp at 1, Libc.strncpy, bind at 1. rewrite Nat2Z.id, (strncpy_loop_run str);
    [|by rewrite Z.add_0_r|intros j Hj; lia]. unfold ret at 1. rewrite Z.add_0_r.
  apply wp_bind, wp_modify. rewrite (u32_small (src + _)) by (unfold str_bytes; lia). fold (str_bytes str).
  replace (Z.of_nat (length copied) + 1) with (Z.of_nat (length (copied ++ [str]))) by (rewrite length_app; cbn; lia).
  eapply wp_mono.
  { apply (IH ltac:(by apply Forall_cons in Hpr as [_ ?]) ltac:(lia) (copied ++ [str]) _ _ bs1 Hcp1).
    rewrite length_app. cbn [length]. lia. }
  intros [] s2 (bs2 & src2 & Hcp2). exists bs2, src2. by rewrite <- app_assoc in Hcp2.
Qed.

(** [main] gets the arguments the kernel placed: when the strings, without
    zero bytes inside, lie one behind the other at the start of the heap, the
    total and the number are those of the strings, and the array fits the first
    page, then the start-up code returns, and every element of the array it
    passes to [main] points to a block of its own that holds the string of that
    index. *)
Lemma bootstrap_argv s strings heap_end :
  let total := total_bytes strings in let argc := Z.of_nat (length strings) in
  laid s.(h_mem) ALLOC_HEAP_START strings -> printable strings ->
  ALLOC_HEAP_START + total + 9 + 4 * argc < heap_end -> heap_end + 4 * argc + 4112 + budget strings < 2 ^ 32 ->
  total <= 2 ^ 30 -> sbrk_ok heap_end s.(h_pages) ->
  wp (bootstrap_arguments heap_end total argc) (fun arguments s' =>
    let argv k := rd32 s'.(h_mem) (arguments + 4 * k) in ALLOC_HEAP_START < arguments /\
    (forall k str, strings !! k = Some str -> ALLOC_HEAP_START < argv (Z.of_nat k) /\ cstr s'.(h_mem) (argv (Z.of_nat k)) str) /\
    (forall j k, 0 <= j < k -> k < argc -> argv j <> argv k)) s.
Proof.
  intros total argc Hl Hpr Hend Htop Htot Hsb. pose proof (total_nonneg strings) as Ht0. fold total in Ht0.
  pose proof (budget_length strings) as Hbl. fold argc in Hbl. assert (0 <= argc) by (unfold argc; lia).
  unfold bootstrap_arguments. apply wp_bind. unfold alloc_initialise. apply wp_bind, wp_modify, wp_ret.
  rewrite (u32_small total) by lia. set (start := u32 (ALLOC_HEAP_START + total)). set (s0 := HState _ _ _ _ _ _).
  assert (Hstart : start = ALLOC_HEAP_START + total) by (apply u32_small; unfold ALLOC_HEAP_START in *; lia).
  clearbody start. unfold ALLOC_HEAP_START in Hstart, Hend, Hl.
  rewrite (u32_small (4 * argc)) by lia. apply wp_bind. eapply wp_mono.
  { apply (malloc_body_correct _ sbrk_ok (2 ^ 32) ltac:(done) alloc_increase_ok (4 * argc) s0 []).
    - split_and!; cbn [s0 h_start h_end h_head]; lia || done.
    - unfold room. cbn [s0 h_start h_end h_head h_pages]. split_and!; lia || done. }
  intros a s1 (bs & asz & Hrep & Hst & Ha0 & Hasz & Hlv & _ & _ & Hgrow & Hg & Hbelow). cbn [h_start h_end s0] in *.
  apply wp_bind. unfold argc. rewrite Nat2Z.id. eapply wp_mono.
  { apply (parse_arguments_spec start a asz strings [] ALLOC_HEAP_START s1 bs); [|done|cbn; lia..].
    split; try done.
    - rewrite Hlv. by left.
    - lia.
    - unfold ALLOC_HEAP_START. split_and!; [|lia|lia]. apply (laid_kept s.(h_mem) _ _ _ start); [done|lia|exact Hbelow].
    - cbn. lia. }
  intros [] s2 (bs2 & src & [(_ & _ & Hm) Hst2 _ Har _ _ Hd Hne]). apply wp_ret.
  assert (Hlow : forall q sz, (q, sz) ∈ live start bs2 -> ALLOC_HEAP_START < q).
  { intros q sz Hq. destruct bs2 as [|b bs2]; [by apply not_elem_of_nil in Hq|]. destruct Hm as (_ & Hch & _). rewrite Hst2 in Hch.
    destruct (live_bounds _ _ _ _ _ _ Hch Hq). unfold ALLOC_HEAP_START. lia. }
  split; [by eapply Hlow|]. split.
  - intros k str Hk. destruct (Hd k str Hk) as (p & sz & -> & Hin & _ & _ & Hc & _). split; [by eapply Hlow|done].
  - exact Hne.
Qed.
End arguments.

(** [ls -l] at the start of a one-page heap; [page_sbrk] supplies more. *)
Definition demo_args : list (list Z) := [[108; 115]; [45; 108]].
Definition demo_args_heap : hstate Z := HState 0 0 0 0 (put_bytes ∅ ALLOC_HEAP_START (flat demo_args)) 0x50001000.

Lemma demo_args_laid : laid demo_args_heap.(h_mem) ALLOC_HEAP_START demo_args.
Proof.
  intros i Hi. change (total_bytes demo_args) with 6 in Hi. unfold demo_args_heap. cbn [h_mem].
  rewrite put_bytes_in by (rewrite flat_length; exact Hi).
  assert (i = 0 \/ i = 1 \/ i = 2 \/ i = 3 \/ i = 4 \/ i = 5) as Hc by lia. by repeat destruct Hc as [->|Hc]; [..|subst i].
Qed.
