(* ===== verification/Syscall.v ===== *)
(** System calls, [kernel/process/syscall.c].

    Files are reached through function pointers of their nodes; programs are
    loaded by [loader.c]; results for the user are written to the caller's
    memory.  These are parameters of the section, the rest is the code. *)
From stdpp Require Import base numbers gmap list.
From S2P Require Import Prelude Arrays Physmem Allocator Paging Store LinkedList QueueModel GenericTree KState Interrupts Pit Process Scheduler.

Definition SYSCALL_COUNT : Z := 16.
Definition PAGE_BYTE_LEN : Z := 4096.
Definition DPL_USER : Z := 3.
Definition VFS_NODE_TYPE_DIRE : Z := 0x20.

(** [ps_en_t] and [dir_en_t], as the kernel fills them. *)
Record ps_en := PsEn {
  en_pid : Z; en_cmd : list Z; en_details : list Z; en_state : Z; en_privilege : Z; en_type : Z
}.
Record dir_en := DirEn { en_name : list Z; en_size : Z; en_node_type : Z }.

Section syscalls.
Context {A : Type} `{Paged A}.

(** [vfs_find_node] and the node operations; [node_info] is name, size, type. *)
Variable vfs_find_node : Z -> cmd (kstate A) Z.
Variable node_read : Z -> Z -> Z -> Z -> cmd (kstate A) Z.
Variable node_write : Z -> Z -> Z -> Z -> cmd (kstate A) Z.
Variable node_control : Z -> Z -> Z -> cmd (kstate A) Z.
Variable dir_read : Z -> Z -> cmd (kstate A) Z.
Variable node_info : Z -> cmd (kstate A) (list Z * Z * Z).
(** [loader_exec] and [loader_spawn]. *)
Variable loader_exec : Z -> Z -> Z -> Z -> cmd (kstate A) Z.
Variable loader_spawn : Z -> Z -> Z -> Z -> cmd (kstate A) Z.
(** Stores to the caller's memory, and the value an uninitialised local holds. *)
Variable put_ps : Z -> ps_en -> cmd (kstate A) unit.
Variable put_dir : Z -> dir_en -> cmd (kstate A) unit.
Variable uninitialised : Z.

(** [process->proc_regs->eax = v]. *)
Definition return_eax (process v : Z) : cmd (kstate A) unit :=
  p <- proc_at process ;; upd_frame p.(proc_regs) (set_eax v).

(** The [node_id]-th list node from [item] on, or [none]. *)
Fixpoint nth_node (fuel : nat) (item cnt node_id none : Z) : cmd (kstate A) Z :=
  match fuel with
  | O => hang
  | S fuel' =>
      if item =? 0 then ret none
      else if cnt =? node_id then ret item
      else
        n <- on_store (get_node item) ;;
        nth_node fuel' n.(next) (i32 (cnt + 1)) node_id none
  end.

Definition sysc_get_proc_node (process node_id : Z) : cmd (kstate A) Z :=
  p <- proc_at process ;;
  l <- on_store (get_list p.(p_nodes)) ;;
  fuel <- gets (fun s => chain_fuel s.(kstore)) ;;
  item <- nth_node fuel l.(list_head) 0 node_id 0 ;;
  if item =? 0 then ret 0 else n <- on_store (get_node item) ;; ret n.(data).

Definition sysc_set_process_node (process node : Z) : cmd (kstate A) Z :=
  p <- proc_at process ;;
  on_store (linked_list_append p.(p_nodes) node) ;;;
  p <- proc_at process ;;
  l <- on_store (get_list p.(p_nodes)) ;;
  ret (i32 (l.(list_length) - 1)).

Definition sysc_exit (process status : Z) : cmd (kstate A) unit :=
  upd_proc process (set_p_state PROCESS_STATE_DEAD) ;;;
  p <- proc_at process ;;
  sched_preempt_handler p.(proc_regs) ;;;
  ret tt.

Definition sysc_fork (process : Z) : cmd (kstate A) unit :=
  forked <- proc_clone process ;;
  return_eax forked 0 ;;;
  f <- proc_at forked ;;
  return_eax process f.(pid) ;;;
  sched_make_ready forked.

Definition sysc_execve (process path argv argc : Z) : cmd (kstate A) unit :=
  r <- loader_exec process path argv argc ;;
  if negb (r =? 0) then
    upd_proc process (set_p_state PROCESS_STATE_DEAD) ;;;
    p <- proc_at process ;;
    sched_preempt_handler p.(proc_regs) ;;;
    ret tt
  else
    p <- proc_at process ;;
    sched_preempt_handler p.(proc_regs) ;;;
    ret tt.

Definition sysc_spawn (process path argv argc : Z) : cmd (kstate A) unit :=
  r <- loader_spawn path process argv argc ;;
  return_eax process r.

Definition sysc_wait (process wanted : Z) : cmd (kstate A) unit :=
  p <- proc_at process ;;
  sched_preempt_handler p.(proc_regs) ;;;
  sched_wait_for process wanted ;;;
  ret tt.

Definition sysc_wakeup (process wanted : Z) : cmd (kstate A) unit :=
  res <- sched_wakeup wanted ;;
  return_eax process res.

Definition sysc_sleep (process time : Z) : cmd (kstate A) unit :=
  p <- proc_at process ;;
  sched_preempt_handler p.(proc_regs) ;;;
  sched_make_napping process time.

Definition sysc_kill (process wanted : Z) : cmd (kstate A) unit :=
  target <- proc_find wanted ;;
  if target =? 0 then return_eax process (-1)
  else
    t <- proc_at target ;;
    if negb (t.(p_state) =? PROCESS_STATE_DEAD) then
      sched_purge_process target ;;;
      sched_make_dead target ;;;
      return_eax process 0
    else return_eax process (-1).

(** One page more, or less, of process heap. *)
Definition sbrk_grow (process : Z) : cmd (kstate A) unit :=
  heap_phys <- run_paging (on_frames alloc_phys_page) ;;
  p <- proc_at process ;;
  run_paging (set_page_table_entry p.(proc_pdir) p.(heap_end) heap_phys 1 1) ;;;
  upd_proc process (fun p => set_heap_end (u32 (p.(heap_end) + PAGE_BYTE_LEN)) p).
Definition sbrk_shrink (process : Z) : cmd (kstate A) unit :=
  p <- proc_at process ;;
  phys <- run_paging (get_mapped_address p.(proc_pdir) (u32 (p.(heap_end) - PAGE_BYTE_LEN))) ;;
  run_paging (unset_page_table_entry p.(proc_pdir) (u32 (p.(heap_end) - PAGE_BYTE_LEN))) ;;;
  run_paging (on_frames (alloc_phys_free phys)) ;;;
  upd_proc process (fun p => set_heap_end (u32 (p.(heap_end) - PAGE_BYTE_LEN)) p).

(** C division truncates towards zero; a loop with a negative bound does not run. *)
Definition sbrk_pages (bytes : Z) : Z :=
  Z.quot bytes PAGE_BYTE_LEN + (if 0 <? Z.rem bytes PAGE_BYTE_LEN then 1 else 0).

Definition sysc_sbrk (process bytes : Z) : cmd (kstate A) unit :=
  (if bytes =? 0 then ret tt
   else if 0 <? bytes then for_ (Z.to_nat (sbrk_pages bytes)) 0 (fun _ => sbrk_grow process)
   else for_ (Z.to_nat (sbrk_pages bytes)) 0 (fun _ => sbrk_shrink process)) ;;;
  p <- proc_at process ;;
  return_eax process p.(heap_end).

Definition sysc_open (process path : Z) : cmd (kstate A) unit :=
  node <- vfs_find_node path ;;
  if node =? 0 then return_eax process (-1)
  else
    node_id <- sysc_set_process_node process node ;;
    return_eax process node_id.

Definition sysc_close (process node_id : Z) : cmd (kstate A) unit :=
  p <- proc_at process ;;
  l <- on_store (get_list p.(p_nodes)) ;;
  fuel <- gets (fun s => chain_fuel s.(kstore)) ;;
  node <- nth_node fuel l.(list_head) 0 node_id uninitialised ;;
  if node =? 0 then return_eax process (-1)
  else
    p <- proc_at process ;;
    on_store (linked_list_remove p.(p_nodes) node) ;;;
    return_eax process 0.

Definition sysc_read (process node_id start_at size buffer : Z) : cmd (kstate A) unit :=
  node <- sysc_get_proc_node process node_id ;;
  if node =? 0 then return_eax process (-1)
  else r <- node_read node start_at size buffer ;; return_eax process r.

Definition sysc_write (process node_id start_at size buffer : Z) : cmd (kstate A) unit :=
  node <- sysc_get_proc_node process node_id ;;
  if node =? 0 then return_eax process (-1)
  else r <- node_write node start_at size buffer ;; return_eax process r.

Definition sysc_ioctl (process node_id command arguments : Z) : cmd (kstate A) unit :=
  node <- sysc_get_proc_node process node_id ;;
  if node =? 0 then return_eax process (-1)
  else r <- node_control node command arguments ;; return_eax process r.

Definition sysc_ps (process entry no : Z) : cmd (kstate A) unit :=
  proc <- proc_get_next_in_tree no ;;
  if proc =? 0 then return_eax process (-1)
  else
    p <- proc_at proc ;;
    put_ps entry (PsEn p.(pid) p.(p_name) p.(p_details) p.(p_state) p.(cpl) p.(p_type)) ;;;
    return_eax process 0.

Definition sysc_list (process node_id entry no : Z) : cmd (kstate A) unit :=
  node <- sysc_get_proc_node process node_id ;;
  if node =? 0 then return_eax process (-1)
  else
    info <- node_info node ;;
    if negb (info.2 =? VFS_NODE_TYPE_DIRE) then return_eax process (-1)
    else
      found_node <- dir_read node no ;;
      if found_node =? 0 then return_eax process (-1)
      else
        info <- node_info found_node ;;
        put_dir entry (DirEn info.1.1 info.1.2 info.2) ;;;
        return_eax process 0.

(** The table of [syscall.c] and the dispatch on the number of parameters. *)
Definition system_calls (sno current ebx ecx edx esi : Z) : cmd (kstate A) unit :=
  if sno =? 1 then sysc_exit current (i32 ebx)
  else if sno =? 2 then sysc_fork current
  else if sno =? 3 then sysc_spawn current ebx ecx (i32 edx)
  else if sno =? 4 then sysc_wait current (i32 ebx)
  else if sno =? 5 then sysc_wakeup current (i32 ebx)
  else if sno =? 6 then sysc_kill current (i32 ebx)
  else if sno =? 7 then sysc_execve current ebx ecx (i32 edx)
  else if sno =? 8 then sysc_sbrk current (i32 ebx)
  else if sno =? 9 then sysc_sleep current (i32 ebx)
  else if sno =? 10 then sysc_open current ebx
  else if sno =? 11 then sysc_close current (i32 ebx)
  else if sno =? 12 then sysc_read current (i32 ebx) ecx edx esi
  else if sno =? 13 then sysc_write current (i32 ebx) ecx edx esi
  else if sno =? 14 then sysc_ioctl current (i32 ebx) ecx edx
  else if sno =? 15 then sysc_ps current ebx (i32 ecx)
  else if sno =? 16 then sysc_list current (i32 ebx) ecx (i32 edx)
  else fault.

Definition syscall_handler (regs : Z) : cmd (kstate A) Z :=
  current <- proc_get_current_proc ;;
  upd_proc current (set_proc_regs regs) ;;;
  r <- frame_at regs ;;
  let sno := i32 r.(r_eax) in
  (if (sno <=? 0) || (SYSCALL_COUNT <? sno) then ret tt
   else system_calls sno current r.(r_ebx) r.(r_ecx) r.(r_edx) r.(r_esi)) ;;;
  current <- proc_get_current_proc ;;
  p <- proc_at current ;;
  ret p.(proc_regs).

(** The ignore stubs of the interrupt table and the handler's address. *)
Definition initialise_syscalls (i1 i2 i3 i4 handler_address : Z) : cmd (Idt.istate (kstate A)) unit :=
  Idt.install_interrupt_handler i1 i2 i3 i4 0x32 handler_address DPL_USER.

Lemma put_proc_same (s : kstate A) p x :
  kproc s p = Some x -> set_kstore (put_proc p x s.(kstore)) s = s.
Proof.
  intros Hp%proc_in_Some. unfold put_proc. rewrite (insert_id _ _ _ Hp). destruct s as [[] ?]. done.
Qed.

Lemma return_eax_run (s : kstate A) p x r v :
  kproc s p = Some x -> s.(kregs) !! x.(proc_regs) = Some r ->
  return_eax p v s = Ret (tt, set_kregs (<[x.(proc_regs) := set_eax v r]> s.(kregs)) s).
Proof.
  intros Hp%proc_in_Some Hr. unfold return_eax, bind, proc_at, on_store, get_proc. rewrite Hp.
  unfold upd_frame. change (kregs (set_kstore (kstore s) s)) with (kregs s). rewrite Hr. by destruct s.
Qed.

(** A system call number outside 1..16 is refused: nothing happens but that
    the caller's frame pointer is recorded, and the caller resumes with the
    frame it came with. *)
Theorem syscall_out_of_range s regs r x :
  kproc s s.(current_process) = Some x -> s.(kregs) !! regs = Some r ->
  i32 r.(r_eax) <= 0 \/ SYSCALL_COUNT < i32 r.(r_eax) ->
  syscall_handler regs s =
  Ret (regs, set_kstore (put_proc s.(current_process) (set_proc_regs regs x) s.(kstore)) s).
Proof.
  intros Hp Hr Hno. set (s1 := set_kstore _ _).
  assert (Hupd : upd_proc s.(current_process) (set_proc_regs regs) s = Ret (tt, s1)).
  { apply proc_in_Some in Hp. unfold upd_proc, on_store, bind, get_proc. by rewrite Hp. }
  assert (Hp1 : proc_at s.(current_process) s1 = Ret (set_proc_regs regs x, s1)).
  { unfold proc_at, on_store, get_proc. cbn [s1 kstore set_kstore put_proc objs].
    rewrite lookup_insert_eq. done. }
  unfold syscall_handler, bind, proc_get_current_proc, gets. rewrite Hupd. unfold frame_at.
  change (kregs s1) with (kregs s). rewrite Hr.
  assert (Hg : (i32 (r_eax r) <=? 0) || (SYSCALL_COUNT <? i32 (r_eax r)) = true).
  { destruct Hno; [by rewrite (proj2 (Z.leb_le _ _))|].
    rewrite (proj2 (Z.ltb_lt SYSCALL_COUNT _)) by done. by rewrite orb_true_r. }
  rewrite Hg. cbn [ret]. change (current_process s1) with (current_process s). by rewrite Hp1.
Qed.

(** [sbrk] never gives memory back: for a negative argument, as for zero,
    no page is unmapped and no frame freed; only the return register changes,
    to the unchanged end of the heap. *)
Theorem sbrk_never_shrinks (s : kstate A) p x r bytes :
  kproc s p = Some x -> s.(kregs) !! x.(proc_regs) = Some r -> bytes <= 0 ->
  sysc_sbrk p bytes s =
  Ret (tt, set_kregs (<[x.(proc_regs) := set_eax x.(heap_end) r]> s.(kregs)) s).
Proof.
  intros Hp Hr Hb.
  assert (Hn : bytes <> 0 -> Z.to_nat (sbrk_pages bytes) = 0%nat).
  { intros Hb0. unfold sbrk_pages, PAGE_BYTE_LEN.
    pose proof (Z.rem_nonpos bytes 4096 ltac:(lia) ltac:(lia)).
    pose proof (Z.quot_opp_l (- bytes) 4096 ltac:(lia)) as Hq. rewrite Z.opp_involutive in Hq.
    pose proof (Z.quot_pos (- bytes) 4096 ltac:(lia) ltac:(lia)).
    destruct (Z.ltb_spec 0 (Z.rem bytes 4096)); lia. }
  assert (Hskip : (if bytes =? 0 then ret tt
     else if 0 <? bytes then for_ (Z.to_nat (sbrk_pages bytes)) 0 (fun _ => sbrk_grow p)
     else for_ (Z.to_nat (sbrk_pages bytes)) 0 (fun _ => sbrk_shrink p)) s = Ret (tt, s)).
  { destruct (Z.eqb_spec bytes 0); [done|]. rewrite (proj2 (Z.ltb_ge 0 bytes)) by lia. by rewrite Hn. }
  unfold sysc_sbrk. unfold bind at 1. rewrite Hskip.
  assert (Hat : proc_at p s = Ret (x, s)).
  { apply proc_in_Some in Hp. unfold proc_at, on_store, get_proc. rewrite Hp. by destruct s. }
  unfold bind. rewrite Hat. by apply return_eax_run.
Qed.
End syscalls.

#[local] Existing Instances machine_allocator machine_paged.

(** ** A kernel with two children *)

Definition family_proc (id regs tree : Z) : proc :=
  Proc regs PROCESS_PRV_USER 0x1000 0 0 [] 0x50000000 0x50003000 [] [] id PROCESS_STATE_LIVING 1 0 0 0 0 0 tree.

Definition family_regs (eax : Z) : registers := Regs 0 0 0 0 0 0 0 0 0 0 0 eax 50 0 0 0 0 0 0.

Definition family : kstate (bump * pstate) :=
  KState (Store (bump_at 90 [10; 11; 12; 30; 31; 32; 33; 40; 41; 50; 51], demo_paging)
    {[ 10 := OProc (family_proc 1 500 30); 11 := OProc (family_proc 2 600 40);
       12 := OProc (family_proc 3 700 50);
       30 := OTree (GenTree 10 31 0); 31 := OList (LnkLst 32 33 2);
       32 := ONode (DNode 0 33 40); 33 := ONode (DNode 32 0 50);
       40 := OTree (GenTree 11 41 30); 41 := OList (LnkLst 0 0 0);
       50 := OTree (GenTree 12 51 30); 51 := OList (LnkLst 0 0 0) ]})
    {[ 500 := family_regs 0; 600 := family_regs 17 ]} 30 3 0 11 0 0 0 10 0 0 0 0 0 0 0 [] [].

(** [proc_find] follows only the first child at every level: in a kernel
    with two children, the second child is on the process tree but is not found
    (so it can be neither waited for nor killed), while the first is. *)
Theorem proc_find_misses_sibling :
  tree_rep family.(kstore).(objs) 0
    (Rose 30 10 31 [(32, Rose 40 11 41 []); (33, Rose 50 12 51 [])]) /\
  kproc family 12 = Some (family_proc 3 700 50) /\
  proc_find 2 family = Ret (11, family) /\ proc_find 3 family = Ret (0, family).
Proof.
  split_and!; [|done|by vm_compute|by vm_compute].
  repeat (split || (progress cbn [tree_rep kid_nodes fmap list_fmap map root fst snd]));
    try reflexivity; by apply (bool_decide_unpack _); vm_compute.
Qed.

Definition no_node (_ : Z) : cmd (kstate (bump * pstate)) Z := ret 0.
Definition no_io (_ _ _ _ : Z) : cmd (kstate (bump * pstate)) Z := ret (-1).

Lemma syscall_out_of_range_witness :
  syscall_handler no_node no_io no_io (fun _ _ _ => ret 0) (fun _ _ => ret 0) (fun _ => ret ([], 0, 0))
    no_io no_io (fun _ _ => ret tt) (fun _ _ => ret tt) 0 600 family =
  Ret (600, set_kstore (put_proc 11 (set_proc_regs 600 (family_proc 2 600 40)) family.(kstore)) family).
Proof.
  apply (syscall_out_of_range no_node no_io no_io (fun _ _ _ => ret 0) (fun _ _ => ret 0)
    (fun _ => ret ([], 0, 0)) no_io no_io (fun _ _ => ret tt) (fun _ _ => ret tt) 0
    family 600 (family_regs 17) (family_proc 2 600 40)); [done|done|by right].
Defined.

Lemma sbrk_never_shrinks_witness :
  sysc_sbrk 11 (-8192) family =
  Ret (tt, set_kregs (<[600 := set_eax 0x50003000 (family_regs 17)]> family.(kregs)) family).
Proof.
  apply (sbrk_never_shrinks family 11 (family_proc 2 600 40) (family_regs 17)); [done|done|lia].
Defined.
