(* ===== verification/Scalls.v ===== *)
(** The system-call stubs of user programs, [libraries/scalls.c] with the macros
    of [sysroot/usr/include/scalls.h], and the functions of
    [libraries/libc/unistd.c], [ioctl.c] and [wait.c] on top of them.

    [trap n args] is the instruction [int 0x32] with the number [n] in [eax] and
    the parameters in [ebx], [ecx], [edx], [esi]; its value is [eax] on return.
    The theorem connects the stubs with the dispatcher of [Syscall]. *)
From stdpp Require Import base numbers gmap list.
From S2P Require Import Prelude Kmem KString Allocator Store Paging KState Interrupts Process Scheduler Syscall.

Definition SYSCALL_EXIT : Z := 1.
Definition SYSCALL_FORK : Z := 2.
Definition SYSCALL_SPAWN : Z := 3.
Definition SYSCALL_WAIT : Z := 4.
Definition SYSCALL_WAKEUP : Z := 5.
Definition SYSCALL_KILL : Z := 6.
Definition SYSCALL_EXECVE : Z := 7.
Definition SYSCALL_SBRK : Z := 8.
Definition SYSCALL_SLEEP : Z := 9.
Definition SYSCALL_OPEN : Z := 10.
Definition SYSCALL_CLOSE : Z := 11.
Definition SYSCALL_READ : Z := 12.
Definition SYSCALL_WRITE : Z := 13.
Definition SYSCALL_IOCTL : Z := 14.
Definition SYSCALL_PS : Z := 15.
Definition SYSCALL_LIST : Z := 16.

(** A user program: its memory, the standard streams, and the rest of the
    world, which it reaches through system calls only. *)
Record ustate (W : Type) := UState { u_mem : mem; u_stdin : Z; u_stdout : Z; u_stderr : Z; u_world : W }.
Arguments UState {W} u_mem u_stdin u_stdout u_stderr u_world.
Arguments u_mem {W} u.
Arguments u_stdin {W} u.
Arguments u_stdout {W} u.
Arguments u_stderr {W} u.
Arguments u_world {W} u.

Definition set_u_mem {W} (m : mem) (s : ustate W) : ustate W := UState m s.(u_stdin) s.(u_stdout) s.(u_stderr) s.(u_world).

Section stubs.
Context {W : Type}.
Implicit Types (s : ustate W).

Definition in_mem {A} (c : cmd mem A) : cmd (ustate W) A := fun s =>
  match c s.(u_mem) with Ret (a, m) => Ret (a, set_u_mem m s) | Fault => Fault | Hang => Hang end.

Variable trap : Z -> list Z -> cmd (ustate W) Z.

(** ** [scalls.c] *)
Definition exit_syscall (status : Z) : cmd (ustate W) Z := trap SYSCALL_EXIT [status].
Definition exit {A} (status : Z) : cmd (ustate W) A := exit_syscall status ;;; hang.
Definition _fork : cmd (ustate W) Z := trap SYSCALL_FORK [].
Definition _spawn (path argv argc : Z) : cmd (ustate W) Z := trap SYSCALL_SPAWN [path; argv; argc].
Definition _wait (pid : Z) : cmd (ustate W) Z := trap SYSCALL_WAIT [pid].
Definition _wakeup (pid : Z) : cmd (ustate W) Z := trap SYSCALL_WAKEUP [pid].
Definition _kill (pid : Z) : cmd (ustate W) Z := trap SYSCALL_KILL [pid].
Definition _execve (path argv argc : Z) : cmd (ustate W) Z := trap SYSCALL_EXECVE [path; argv; argc].
Definition _sbrk (bytes : Z) : cmd (ustate W) Z := trap SYSCALL_SBRK [bytes].
Definition _sleep (time : Z) : cmd (ustate W) Z := trap SYSCALL_SLEEP [time].
Definition open (path : Z) : cmd (ustate W) Z := trap SYSCALL_OPEN [path].
Definition close (node_id : Z) : cmd (ustate W) Z := trap SYSCALL_CLOSE [node_id].
Definition read (node_id start_at size buffer : Z) : cmd (ustate W) Z := trap SYSCALL_READ [node_id; start_at; size; buffer].
Definition write (node_id start_at size buffer : Z) : cmd (ustate W) Z := trap SYSCALL_WRITE [node_id; start_at; size; buffer].
Definition _ioctl (node_id command arguments : Z) : cmd (ustate W) Z := trap SYSCALL_IOCTL [node_id; command; arguments].
Definition _ps (entry no : Z) : cmd (ustate W) Z := trap SYSCALL_PS [entry; no].
Definition _list (node_no entry no : Z) : cmd (ustate W) Z := trap SYSCALL_LIST [node_no; entry; no].

(** ** [unistd.c], [ioctl.c], [wait.c] *)

(** [while(argv[i] != NULL) i++;] *)
Fixpoint count_args (fuel : nat) (argv i : Z) : cmd mem Z :=
  match fuel with
  | O => hang
  | S fuel' => w <- gets (fun m => rd32 m (argv + 4 * i)) ;; if negb (w =? 0) then count_args fuel' argv (i + 1) else ret i
  end.
Definition argc_of (argv : Z) : cmd (ustate W) Z :=
  if negb (argv =? 0) then fuel <- gets (fun s => str_fuel s.(u_mem)) ;; in_mem (count_args fuel argv 0) else ret 0.
Definition execv (filename argv : Z) : cmd (ustate W) Z := i <- argc_of argv ;; _execve filename argv i.
Definition execve (filename argv envp : Z) : cmd (ustate W) Z := execv filename argv.
Definition execvp (filename argv : Z) : cmd (ustate W) Z := execv filename argv.
Definition fork : cmd (ustate W) Z := _fork.
Definition spawn (filename argv : Z) : cmd (ustate W) Z := i <- argc_of argv ;; _spawn filename argv i.
Definition kill (pid : Z) : cmd (ustate W) Z := _kill pid.
Definition sbrk (increment : Z) : cmd (ustate W) Z := _sbrk increment.
Definition sleep (time : Z) : cmd (ustate W) Z := _sleep time.
Definition wakeup (pid : Z) : cmd (ustate W) Z := _wakeup pid.
Definition ioctl (fd op args : Z) : cmd (ustate W) Z := _ioctl fd (u32 op) args.
Definition waitpid (pid : Z) : cmd (ustate W) Z := _wait pid.
End stubs.

(** * From a stub to the kernel *)

(** A system call of a user program, with the parameters of its stub. *)
Inductive ucall :=
| UExit (status : Z) | UFork | USpawn (path argv argc : Z) | UWait (pid : Z) | UWakeup (pid : Z) | UKill (pid : Z)
| UExecve (path argv argc : Z) | USbrk (bytes : Z) | USleep (time : Z) | UOpen (path : Z) | UClose (node_id : Z)
| URead (node_id start_at size buffer : Z) | UWrite (node_id start_at size buffer : Z)
| UIoctl (node_id command arguments : Z) | UPs (entry no : Z) | UList (node_no entry no : Z).

(** The stub that makes the call. *)
Definition stub {W} (trap : Z -> list Z -> cmd (ustate W) Z) (c : ucall) : cmd (ustate W) Z :=
  match c with
  | UExit status => exit_syscall trap status
  | UFork => _fork trap
  | USpawn path argv argc => _spawn trap path argv argc
  | UWait pid => _wait trap pid
  | UWakeup pid => _wakeup trap pid
  | UKill pid => _kill trap pid
  | UExecve path argv argc => _execve trap path argv argc
  | USbrk bytes => _sbrk trap bytes
  | USleep time => _sleep trap time
  | UOpen path => open trap path
  | UClose node_id => close trap node_id
  | URead node_id start_at size buffer => read trap node_id start_at size buffer
  | UWrite node_id start_at size buffer => write trap node_id start_at size buffer
  | UIoctl node_id command arguments => _ioctl trap node_id command arguments
  | UPs entry no => _ps trap entry no
  | UList node_no entry no => _list trap node_no entry no
  end.

(** A frame saved by [int 0x32]: the number and the parameters are in their
    registers, the other registers hold anything. *)
Definition carries (r : registers) (n : Z) (args : list Z) : Prop :=
  r.(r_eax) = u32 n /\ take (length args) [r.(r_ebx); r.(r_ecx); r.(r_edx); r.(r_esi)] = u32 <$> args.

Section dispatch.
Context {A : Type} `{Paged A}.
Variable vfs_find_node : Z -> cmd (kstate A) Z.
Variable node_read : Z -> Z -> Z -> Z -> cmd (kstate A) Z.
Variable node_write : Z -> Z -> Z -> Z -> cmd (kstate A) Z.
Variable node_control : Z -> Z -> Z -> cmd (kstate A) Z.
Variable dir_read : Z -> Z -> cmd (kstate A) Z.
Variable node_info : Z -> cmd (kstate A) (list Z * Z * Z).
Variable loader_exec : Z -> Z -> Z -> Z -> cmd (kstate A) Z.
Variable loader_spawn : Z -> Z -> Z -> Z -> cmd (kstate A) Z.
Variable put_ps : Z -> ps_en -> cmd (kstate A) unit.
Variable put_dir : Z -> dir_en -> cmd (kstate A) unit.
Variable uninitialised : Z.

(** The kernel function for a call, with its parameters at their C types. *)
Definition served (c : ucall) (process : Z) : cmd (kstate A) unit :=
  match c with
  | UExit status => sysc_exit process (i32 status)
  | UFork => sysc_fork process
  | USpawn path argv argc => sysc_spawn loader_spawn process (u32 path) (u32 argv) (i32 argc)
  | UWait pid => sysc_wait process (i32 pid)
  | UWakeup pid => sysc_wakeup process (i32 pid)
  | UKill pid => sysc_kill process (i32 pid)
  | UExecve path argv argc => sysc_execve loader_exec process (u32 path) (u32 argv) (i32 argc)
  | USbrk bytes => sysc_sbrk process (i32 bytes)
  | USleep time => sysc_sleep process (i32 time)
  | UOpen path => sysc_open vfs_find_node process (u32 path)
  | UClose node_id => sysc_close uninitialised process (i32 node_id)
  | URead node_id start_at size buffer => sysc_read node_read process (i32 node_id) (u32 start_at) (u32 size) (u32 buffer)
  | UWrite node_id start_at size buffer => sysc_write node_write process (i32 node_id) (u32 start_at) (u32 size) (u32 buffer)
  | UIoctl node_id command arguments => sysc_ioctl node_control process (i32 node_id) (u32 command) (u32 arguments)
  | UPs entry no => sysc_ps put_ps process (u32 entry) (i32 no)
  | UList node_no entry no => sysc_list dir_read node_info put_dir process (i32 node_no) (u32 entry) (i32 no)
  end.

Lemma i32_u32 x : i32 (u32 x) = i32 x.
Proof. unfold i32, u32. by rewrite Z.add_mod_idemp_l by lia. Qed.

(** The number and the parameters of a call, as the stubs pass them. *)
Definition call_regs (c : ucall) : Z * list Z :=
  match c with
  | UExit status => (1, [status])
  | UFork => (2, [])
  | USpawn path argv argc => (3, [path; argv; argc])
  | UWait pid => (4, [pid])
  | UWakeup pid => (5, [pid])
  | UKill pid => (6, [pid])
  | UExecve path argv argc => (7, [path; argv; argc])
  | USbrk bytes => (8, [bytes])
  | USleep time => (9, [time])
  | UOpen path => (10, [path])
  | UClose node_id => (11, [node_id])
  | URead node_id start_at size buffer => (12, [node_id; start_at; size; buffer])
  | UWrite node_id start_at size buffer => (13, [node_id; start_at; size; buffer])
  | UIoctl node_id command arguments => (14, [node_id; command; arguments])
  | UPs entry no => (15, [entry; no])
  | UList node_no entry no => (16, [node_no; entry; no])
  end.

Lemma stub_traps {W} (trap : Z -> list Z -> cmd (ustate W) Z) c : stub trap c = trap (call_regs c).1 (call_regs c).2.
Proof. by destruct c. Qed.

Lemma call_number c : 1 <= (call_regs c).1 <= SYSCALL_COUNT.
Proof. unfold SYSCALL_COUNT. destruct c; cbn; lia. Qed.

(** The table entry of a call. *)
Lemma system_calls_served c process r :
  carries r (call_regs c).1 (call_regs c).2 ->
  system_calls vfs_find_node node_read node_write node_control dir_read node_info loader_exec loader_spawn
    put_ps put_dir uninitialised (call_regs c).1 process r.(r_ebx) r.(r_ecx) r.(r_edx) r.(r_esi) = served c process.
Proof.
  intros [_ Ha]. destruct c; cbn in Ha; simplify_eq; cbn;
    repeat match goal with H : _ = u32 _ |- _ => rewrite H; clear H end; by rewrite ?i32_u32.
Qed.

(** C19: every stub of the C library reaches the kernel function of its name.
    The stub is one trap; whatever frame that trap saves, with the number and
    the parameters in their registers, the dispatcher records it for the calling
    process, runs exactly that function with the stub's parameters, each at its
    type and in its place, and resumes the process that is then current. *)
Theorem stub_reaches_call c s regs r x :
  kproc s s.(current_process) = Some x -> s.(kregs) !! regs = Some r -> carries r (call_regs c).1 (call_regs c).2 ->
  (forall W (trap : Z -> list Z -> cmd (ustate W) Z), stub trap c = trap (call_regs c).1 (call_regs c).2) /\
  syscall_handler vfs_find_node node_read node_write node_control dir_read node_info loader_exec loader_spawn
    put_ps put_dir uninitialised regs s =
  (served c s.(current_process) ;;; current <- proc_get_current_proc ;; p <- proc_at current ;; ret p.(proc_regs))
    (set_kstore (put_proc s.(current_process) (set_proc_regs regs x) s.(kstore)) s).
Proof.
  intros Hp Hr Hc. split; [intros; apply stub_traps|].
  set (s1 := set_kstore _ _).
  assert (Hupd : upd_proc s.(current_process) (set_proc_regs regs) s = Ret (tt, s1)).
  { apply proc_in_Some in Hp. unfold upd_proc, on_store, bind, get_proc. by rewrite Hp. }
  pose proof (call_number c) as Hn. pose proof (system_calls_served c s.(current_process) r Hc) as Hserve.
  assert (Hsno : i32 r.(r_eax) = (call_regs c).1).
  { destruct Hc as [-> _]. unfold SYSCALL_COUNT in Hn. rewrite i32_u32, i32_small; lia. }
  unfold syscall_handler. unfold bind at 1. unfold proc_get_current_proc at 1. unfold gets at 1.
  unfold bind at 1. rewrite Hupd. unfold bind at 1, frame_at at 1. change (kregs s1) with (kregs s). rewrite Hr, Hsno.
  rewrite (proj2 (Z.leb_gt _ 0)), (proj2 (Z.ltb_ge SYSCALL_COUNT _)) by lia. cbn [orb]. by rewrite Hserve.
Qed.
End dispatch.

#[local] Existing Instances machine_allocator machine_paged.

(** A process of the small kernel of [Syscall] calls [wakeup(7)]. *)
Definition waking : registers := Regs 0 0 0 0 0 0 0 0 7 0 0 5 50 0 0 0 0 0 0.
Definition awake : kstate (bump * pstate) := set_kregs {[ 500 := family_regs 0; 600 := waking ]} family.

Lemma stub_reaches_call_witness :
  (forall W (trap : Z -> list Z -> cmd (ustate W) Z), stub trap (UWakeup 7) = trap 5 [7]) /\
  syscall_handler no_node no_io no_io (fun _ _ _ => ret 0) (fun _ _ => ret 0) (fun _ => ret ([], 0, 0))
    no_io no_io (fun _ _ => ret tt) (fun _ _ => ret tt) 0 600 awake =
  (sysc_wakeup 11 7 ;;; current <- proc_get_current_proc ;; p <- proc_at current ;; ret p.(proc_regs))
    (set_kstore (put_proc 11 (set_proc_regs 600 (family_proc 2 600 40)) awake.(kstore)) awake).
Proof.
  apply (stub_reaches_call no_node no_io no_io (fun _ _ _ => ret 0) (fun _ _ => ret 0) (fun _ => ret ([], 0, 0))
    no_io no_io (fun _ _ => ret tt) (fun _ _ => ret tt) 0 (UWakeup 7) awake 600 waking (family_proc 2 600 40));
    [done|done|by split].
Defined.
