(* ===== verification/Stdio.v ===== *)
(** Standard input and output of user programs, [libraries/libc/stdio.c]:
    formatted output to strings and streams, streams over the system calls, and
    scanning.

    A variable argument list is the list of its words; reading past its end is a
    fault.  A local variable whose address is passed on has an address of its
    own among the parameters of the sections; [malloc] and [free] are those of
    the user heap. *)
From stdpp Require Import base numbers gmap list.
From S2P Require Import Prelude Kmem KString Kstdio Libc LibcNum Scalls.

Definition SEEK_SET : Z := 0.
Definition SEEK_CUR : Z := 1.
Definition SEEK_END : Z := 2.
Definition MODE_R : Z := 0.
Definition MODE_W : Z := 1.
Definition MODE_RW : Z := 2.
Definition STDIN_CMD_INPUT_READY : Z := 0x0C.

Definition next_arg {S} (args : list Z) : cmd S (Z * list Z) :=
  match args with a :: args' => ret (a, args') | [] => fault end.

(** ** Formatting into memory *)

Section formatting.
(** [sputfpoint] of [string.c] on the two words of a double. *)
Variable sputfpoint : Z -> Z -> Z -> cmd mem Z.

(** The directive [c]: the new index in [str] and the arguments left.  [f] says
    whether the function knows [%f]. *)
Definition put_directive (f : bool) (c str j : Z) (args : list Z) : cmd mem (Z * list Z) :=
  if c =? 115 then
    a <- next_arg args ;;
    strcpy (str + j) a.1 ;;;
    len <- strlen a.1 ;;
    ret (j + len, a.2)
  else if c =? 99 then
    a <- next_arg args ;; poke (str + j) a.1 ;;; ret (j + 1, a.2)
  else if c =? 100 then
    a <- next_arg args ;; n <- sputint (str + j) (i32 a.1) ;; ret (j + n, a.2)
  else if c =? 117 then
    a <- next_arg args ;; n <- sputuint (str + j) (u32 a.1) ;; ret (j + n, a.2)
  else if c =? 120 then
    a <- next_arg args ;; n <- sputhex (str + j) (u32 a.1) ;; ret (j + n, a.2)
  else if f && (c =? 102) then
    a <- next_arg args ;; b <- next_arg a.2 ;; n <- sputfpoint (str + j) a.1 b.1 ;; ret (j + n, b.2)
  else
    poke (str + j) c ;;; ret (j + 1, args).

(** The body of both loops at [format[i]], which is [c]: the next [i] and [j]. *)
Definition format_step (f : bool) (str format i j c : Z) (args : list Z) : cmd mem (Z * Z * list Z) :=
  if c =? 37 then
    d <- peek (format + (i + 1)) ;;
    r <- put_directive f d str j args ;;
    ret (i + 2, r.1, r.2)
  else
    poke (str + j) c ;;; ret (i + 1, j + 1, args).

Fixpoint vsprintf_loop (fuel : nat) (str format i j : Z) (args : list Z) : cmd mem Z :=
  match fuel with
  | O => hang
  | S fuel' =>
      c <- peek (format + i) ;;
      if c =? 0 then ret j
      else
        r <- format_step true str format i j c args ;;
        vsprintf_loop fuel' str format r.1.1 r.1.2 r.2
  end.
Definition vsprintf (str format : Z) (arg : list Z) : cmd mem Z :=
  fuel <- gets str_fuel ;; vsprintf_loop fuel str format 0 0 arg.
Definition sprintf (str format : Z) (arg : list Z) : cmd mem Z := vsprintf str format arg.

(** [format[i] & j < size]: the comparison binds tighter, so the condition is
    the lowest bit of the character, and [j < size]. *)
Fixpoint vsnprintf_loop (fuel : nat) (str size format i j : Z) (args : list Z) : cmd mem Z :=
  match fuel with
  | O => hang
  | S fuel' =>
      c <- peek (format + i) ;;
      if Z.land (schar c) (if u32 j <? size then 1 else 0) =? 0 then ret j
      else
        r <- format_step false str format i j c args ;;
        vsnprintf_loop fuel' str size format r.1.1 r.1.2 r.2
  end.
Definition vsnprintf (str size format : Z) (arg : list Z) : cmd mem Z :=
  fuel <- gets str_fuel ;; vsnprintf_loop fuel str size format 0 0 arg.
Definition snprintf (str size format : Z) (arg : list Z) : cmd mem Z := vsnprintf str size format arg.
End formatting.

(** ** Streams *)

(** A [FILE] is three words: [id], [seek_index], [mode]. *)
Definition FILE_SIZE : Z := 12.

Section streams.
Context {W : Type}.
Variable trap : Z -> list Z -> cmd (ustate W) Z.
Variable sputfpoint : Z -> Z -> Z -> cmd mem Z.
Variable malloc : Z -> cmd (ustate W) Z.
Variable free : Z -> cmd (ustate W) unit.
(** The static streams, and the locals: [character] of [fputc], [c] of [fgetc],
    [size] of [gets] and [getchar], [num_temp_str] of [vfprintf]; the literals
    ["r"], ["w"] and ["rw"] of [fopen]. *)
Variables stdin_s stdout_s stderr_s : Z.
Variables v_character v_c v_size v_num : Z.
Variables lit_r lit_w lit_rw : Z.

Definition load (a : Z) : cmd (ustate W) Z := gets (fun s => rd32 s.(u_mem) a).
Definition store_word (a v : Z) : cmd (ustate W) unit := modify (fun s => set_u_mem (wr32 s.(u_mem) a v) s).

Definition stdio_init : cmd (ustate W) unit :=
  modify (fun s => UState s.(u_mem) stdin_s stdout_s stderr_s s.(u_world)).

Definition fwrite (ptr size count file : Z) : cmd (ustate W) Z :=
  let total_count := u32 (size * count) in
  id <- load file ;;
  seek <- load (file + 4) ;;
  r <- write trap id seek total_count ptr ;;
  seek <- load (file + 4) ;;
  store_word (file + 4) (u32 (seek + total_count)) ;;;
  ret (u32 r).

Definition fread (ptr size count file : Z) : cmd (ustate W) Z :=
  let total_count := u32 (size * count) in
  id <- load file ;;
  seek <- load (file + 4) ;;
  r <- read trap id seek total_count ptr ;;
  seek <- load (file + 4) ;;
  store_word (file + 4) (u32 (seek + total_count)) ;;;
  ret (u32 r).

Definition fputc (character file : Z) : cmd (ustate W) Z :=
  store_word v_character (u32 character) ;;; fwrite v_character 1 1 file.

Definition fputs (str file : Z) : cmd (ustate W) Z :=
  len <- in_mem (strlen str) ;; fwrite str len 1 file.

Definition fgetc (file : Z) : cmd (ustate W) Z :=
  in_mem (poke v_c 255) ;;;
  fread v_c 1 1 file ;;;
  c <- in_mem (peek v_c) ;;
  ret (schar c).

(** A number for [vfprintf]: written into the cleared [num_temp_str], then sent. *)
Definition send_number (put : Z -> cmd mem Z) (j file : Z) : cmd (ustate W) Z :=
  in_mem (memset v_num 0 100) ;;;
  n <- in_mem (put v_num) ;;
  fputs v_num file ;;;
  ret (j + n).

Definition send_directive (file c j : Z) (args : list Z) : cmd (ustate W) (Z * list Z) :=
  if c =? 115 then
    a <- next_arg args ;;
    fputs a.1 file ;;;
    len <- in_mem (strlen a.1) ;;
    ret (j + len, a.2)
  else if c =? 99 then
    a <- next_arg args ;; fputc (schar (u8 a.1)) file ;;; ret (j + 1, a.2)
  else if c =? 100 then
    a <- next_arg args ;; j <- send_number (fun p => sputint p (i32 a.1)) j file ;; ret (j, a.2)
  else if c =? 117 then
    a <- next_arg args ;; j <- send_number (fun p => sputuint p (u32 a.1)) j file ;; ret (j, a.2)
  else if c =? 120 then
    a <- next_arg args ;; j <- send_number (fun p => sputhex p (u32 a.1)) j file ;; ret (j, a.2)
  else if c =? 102 then
    a <- next_arg args ;; b <- next_arg a.2 ;;
    j <- send_number (fun p => sputfpoint p a.1 b.1) j file ;; ret (j, b.2)
  else
    fputc (schar c) file ;;; ret (j + 1, args).

Fixpoint vfprintf_loop (fuel : nat) (file format i j : Z) (args : list Z) : cmd (ustate W) Z :=
  match fuel with
  | O => hang
  | S fuel' =>
      c <- in_mem (peek (format + i)) ;;
      if c =? 0 then ret j
      else if c =? 37 then
        d <- in_mem (peek (format + (i + 1))) ;;
        r <- send_directive file d j args ;;
        vfprintf_loop fuel' file format (i + 2) r.1 r.2
      else
        fputc (schar c) file ;;;
        vfprintf_loop fuel' file format (i + 1) (j + 1) args
  end.
Definition vfprintf (file format : Z) (arg : list Z) : cmd (ustate W) Z :=
  in_mem (memset v_num 0 100) ;;;
  fuel <- gets (fun s => str_fuel s.(u_mem)) ;;
  vfprintf_loop fuel file format 0 0 arg.
Definition fprintf (file format : Z) (arg : list Z) : cmd (ustate W) Z := vfprintf file format arg.
Definition printf (format : Z) (arg : list Z) : cmd (ustate W) Z :=
  file <- gets u_stdout ;; vfprintf file format arg.

(** [while(ioctl(stdin->id, STDIN_CMD_INPUT_READY, &size) == 0){}]: the device
    may answer 0 any number of times; [n] bounds them. *)
Fixpoint input_ready (n : nat) (nap : bool) : cmd (ustate W) unit :=
  match n with
  | O => hang
  | S n' =>
      file <- gets u_stdin ;;
      id <- load file ;;
      r <- ioctl trap id STDIN_CMD_INPUT_READY v_size ;;
      if r =? 0 then (if nap then sleep trap 10 else ret 0) ;;; input_ready n' nap else ret tt
  end.
Definition getchar (n : nat) : cmd (ustate W) Z :=
  store_word v_size 1 ;;;
  input_ready n false ;;;
  file <- gets u_stdin ;; fgetc file.

Definition gets (n : nat) (string size : Z) : cmd (ustate W) Z :=
  store_word v_size (u32 size) ;;;
  input_ready n true ;;;
  file <- Prelude.gets u_stdin ;;
  size <- load v_size ;;
  size <- fread string size 1 file ;;
  store_word v_size size ;;;
  in_mem (poke (string + i32 size) 0) ;;;
  ret string.

Definition fclose (file : Z) : cmd (ustate W) Z :=
  id <- load file ;; r <- close trap (i32 id) ;; free file ;;; ret r.

Definition fopen (filename mode : Z) : cmd (ustate W) Z :=
  r <- in_mem (strcmp mode lit_r) ;;
  mode_num <-
    (if r =? 0 then ret MODE_R
     else
       w <- in_mem (strcmp mode lit_w) ;;
       if w =? 0 then ret MODE_W
       else
         rw <- in_mem (strcmp mode lit_rw) ;;
         if rw =? 0 then ret MODE_RW else ret (-1)) ;;
  if mode_num <? 0 then ret 0
  else
    file <- malloc FILE_SIZE ;;
    if file =? 0 then ret 0
    else
      id <- open trap filename ;;
      store_word file id ;;;
      if i32 id =? -1 then free file ;;; ret 0
      else
        store_word (file + 8) mode_num ;;;
        store_word (file + 4) 0 ;;;
        ret file.

Definition fseek (file offset origin : Z) : cmd (ustate W) Z :=
  if origin =? SEEK_SET then store_word (file + 4) (u32 offset) ;;; ret 0
  else if origin =? SEEK_CUR then
    seek <- load (file + 4) ;; store_word (file + 4) (u32 (seek + u32 offset)) ;;; ret 0
  else if origin =? SEEK_END then ret 0
  else ret (-1).

Definition ftell (file : Z) : cmd (ustate W) Z := seek <- load (file + 4) ;; ret (i32 seek).

Definition setbuf (file buffer : Z) : cmd (ustate W) unit := ret tt.
Definition fflush (file : Z) : cmd (ustate W) Z := ret (-1).
End streams.

(** ** Scanning *)

Section scanning.
(** The local [next] of [vsscanf]. *)
Variable v_next : Z.

(** The pointer behind the characters that satisfy [p]. *)
Fixpoint skip_while (fuel : nat) (p : Z -> bool) (a : Z) : cmd mem Z :=
  match fuel with
  | O => hang
  | S fuel' => c <- peek a ;; if p c then skip_while fuel' p (a + 1) else ret a
  end.
Definition skip (p : Z -> bool) (a : Z) : cmd mem Z := fuel <- Prelude.gets str_fuel ;; skip_while fuel p a.

(** [skip_atoi]: the number and the pointer behind it. *)
Fixpoint skip_atoi_loop (fuel : nat) (a i : Z) : cmd mem (Z * Z) :=
  match fuel with
  | O => hang
  | S fuel' => c <- peek a ;; if isdigit c then skip_atoi_loop fuel' (a + 1) (i32 (i * 10 + c - 48)) else ret (i, a)
  end.
Definition skip_atoi (a : Z) : cmd mem (Z * Z) := fuel <- Prelude.gets str_fuel ;; skip_atoi_loop fuel a 0.

(** [%c]: [do *s++ = *str++; while(--field_width > 0 && *str)]. *)
Fixpoint scan_chars (fuel : nat) (s str field_width : Z) : cmd mem Z :=
  match fuel with
  | O => hang
  | S fuel' =>
      c <- peek str ;;
      poke s c ;;;
      d <- peek (str + 1) ;;
      if (0 <? field_width - 1) && negb (d =? 0) then scan_chars fuel' (s + 1) (str + 1) (field_width - 1)
      else ret (str + 1)
  end.

(** [%s]: the characters up to a blank, at most [field_width] of them, and the
    terminator. *)
Fixpoint scan_word (fuel : nat) (s str field_width : Z) : cmd mem Z :=
  match fuel with
  | O => hang
  | S fuel' =>
      c <- peek str ;;
      if negb (c =? 0) && negb (isspace c) && negb (field_width =? 0) then
        poke s c ;;; scan_word fuel' (s + 1) (str + 1) (i32 (field_width - 1))
      else poke s 0 ;;; ret str
  end.

(** The length modifier: its code and the pointer behind it. *)
Definition scan_qualifier (format : Z) : cmd mem (Z * Z) :=
  c <- peek format ;;
  if (c =? 104) || (c =? 108) || (c =? 76) || (c =? 90) || (c =? 122) then
    d <- peek (format + 1) ;;
    if c =? d then
      if c =? 104 then ret (72, format + 2)
      else if c =? 108 then ret (76, format + 2)
      else ret (c, format + 1)
    else ret (c, format + 1)
  else ret (-1, format).

(** The conversion with the width of the destination. *)
Definition scan_store (qualifier : Z) (is_sign : bool) (p str base : Z) : cmd mem unit :=
  if qualifier =? 76 then
    v <- (if is_sign then strtoll str v_next base else strtoull str v_next base) ;;
    modify (fun m => wr32 (wr32 m p (u32 v)) (p + 4) (u32 (v / 2 ^ 32)))
  else
    v <- (if is_sign && negb ((qualifier =? 90) || (qualifier =? 122)) then strtol str v_next base else strtoul str v_next base) ;;
    if qualifier =? 72 then poke p v
    else if qualifier =? 104 then modify (fun m => wr16 m p (u16 v))
    else modify (fun m => wr32 m p (u32 v)).

(** No digit where the number should start. *)
Definition no_number (base digit : Z) : bool :=
  (digit =? 0) || ((base =? 16) && negb (isxdigit digit)) || ((base =? 10) && negb (isdigit digit))
  || ((base =? 8) && (negb (isdigit digit) || (55 <? digit))) || ((base =? 0) && negb (isdigit digit)).

(** A number: [None] if there is none or the conversion left no end, else the
    pointer behind it and the arguments left. *)
Definition scan_number (qualifier base : Z) (is_sign : bool) (str : Z) (args : list Z) : cmd mem (Z * option (Z * list Z)) :=
  str <- skip isspace str ;;
  c <- peek str ;;
  digit <- (if is_sign && (c =? 45) then peek (str + 1) else ret c) ;;
  if no_number base digit then ret (0, None)
  else
    a <- next_arg args ;;
    scan_store qualifier is_sign a.1 str base ;;;
    next <- Prelude.gets (fun m => rd32 m v_next) ;;
    if next =? 0 then ret (1, None) else ret (1, Some (next, a.2)).

(** The directive [c]: what it adds to the count and, unless the scan ends, the
    string and the arguments left. *)
Definition scan_directive (c qualifier field_width buf str : Z) (args : list Z) : cmd mem (Z * option (Z * list Z)) :=
  if c =? 99 then
    a <- next_arg args ;;
    fuel <- Prelude.gets str_fuel ;;
    str <- scan_chars fuel a.1 str (if field_width =? -1 then 1 else field_width) ;;
    ret (1, Some (str, a.2))
  else if c =? 115 then
    a <- next_arg args ;;
    str <- skip isspace str ;;
    fuel <- Prelude.gets str_fuel ;;
    str <- scan_word fuel a.1 str (if field_width =? -1 then 2 ^ 31 - 1 else field_width) ;;
    ret (1, Some (str, a.2))
  else if c =? 110 then
    a <- next_arg args ;;
    modify (fun m => wr32 m a.1 (u32 (str - buf))) ;;;
    ret (0, Some (str, a.2))
  else if c =? 111 then scan_number qualifier 8 false str args
  else if (c =? 120) || (c =? 88) then scan_number qualifier 16 false str args
  else if c =? 105 then scan_number qualifier 0 true str args
  else if c =? 100 then scan_number qualifier 10 true str args
  else if c =? 117 then scan_number qualifier 10 false str args
  else if c =? 37 then
    d <- peek str ;;
    ret (0, if d =? 37 then Some (str + 1, args) else None)
  else ret (0, None).

Fixpoint vsscanf_loop (fuel : nat) (buf str format num : Z) (args : list Z) : cmd mem Z :=
  match fuel with
  | O => hang
  | S fuel' =>
      c <- peek format ;;
      d <- peek str ;;
      if (c =? 0) || (d =? 0) then ret num
      else
        format <- (if isspace c then skip isspace format else ret format) ;;
        str <- (if isspace c then skip isspace str else ret str) ;;
        c <- peek format ;;
        if negb (c =? 37) && negb (c =? 0) then
          d <- peek str ;;
          if negb (c =? d) then ret num else vsscanf_loop fuel' buf (str + 1) (format + 1) num args
        else if c =? 0 then ret num
        else
          c <- peek (format + 1) ;;
          if c =? 42 then
            format <- skip (fun c => negb (isspace c) && negb (c =? 0)) (format + 1) ;;
            str <- skip (fun c => negb (isspace c) && negb (c =? 0)) str ;;
            vsscanf_loop fuel' buf str format num args
          else
            w <- (if isdigit c then skip_atoi (format + 1) else ret (-1, format + 1)) ;;
            q <- scan_qualifier w.2 ;;
            c <- peek q.2 ;;
            d <- peek str ;;
            if (c =? 0) || (d =? 0) then ret num
            else
              r <- scan_directive c q.1 w.1 buf str args ;;
              match r.2 with
              | None => ret (num + r.1)
              | Some (str, args) => vsscanf_loop fuel' buf str (q.2 + 1) (num + r.1) args
              end
  end.
Definition vsscanf (buf format : Z) (args : list Z) : cmd mem Z :=
  fuel <- Prelude.gets str_fuel ;; vsscanf_loop (S fuel) buf buf format 0 args.
Definition sscanf (buf fmt : Z) (args : list Z) : cmd mem Z := vsscanf buf fmt args.
End scanning.
