(* ===== verification/StdioSpec.v ===== *)
(** What formatted output and scanning compute: the text of a format string with
    its arguments, and reading it back. *)
From stdpp Require Import base numbers gmap list.
From S2P Require Import Prelude Kmem KString Kstdio Libc LibcNum Scalls Stdio.

(** * The text of a format *)

(** The digits of [sputhex_loop], then the last one. *)
Fixpoint hex_digits (k : nat) (n : Z) (no_ze : bool) : list Z :=
  match k with
  | O => [hex_char (Z.land n 0xF)]
  | S k' =>
      let temp := Z.land (Z.shiftr n (4 * Z.of_nat k)) 0xF in
      if (temp =? 0) && no_ze then hex_digits k' n no_ze else hex_char temp :: hex_digits k' n false
  end.
Definition hex_text (n : Z) : list Z := 48 :: 120 :: hex_digits 7 n true.

(** The text of a number in base 16: [0x] and its digits, without leading zeros. *)
Definition hex_digit (d : Z) : Z := if d <? 10 then 48 + d else 55 + d.
Definition hexadecimal (n : Z) : list Z := 48 :: 120 :: reverse (low_digits 16 hex_digit 8 n).

Lemma hex_nibble n (k : nat) : Z.land (Z.shiftr n (4 * Z.of_nat k)) 0xF = n / 16 ^ Z.of_nat k mod 16.
Proof.
  rewrite Z.shiftr_div_pow2 by lia. change 0xF with (Z.ones 4). rewrite Z.land_ones by lia.
  rewrite Z.pow_mul_r by lia. done.
Qed.
Lemma hex_char_digit d : hex_char d = hex_digit d.
Proof. unfold hex_char, hex_digit. repeat case_zbool; lia. Qed.

Lemma hex_digits_fixed k n : hex_digits k n false = fixed_digits 16 hex_digit (S k) n.
Proof.
  induction k as [|k IH]; cbn [hex_digits].
  - rewrite (hex_nibble n 0 : Z.land n 0xF = _), hex_char_digit. cbn. by rewrite Z.div_1_r.
  - rewrite andb_false_r, hex_nibble, hex_char_digit, IH. by rewrite (fixed_digits_S 16 hex_digit ltac:(lia) (S k)).
Qed.

Lemma hex_digits_low k n : (k < 8)%nat -> 0 <= n < 16 ^ Z.of_nat (S k) -> hex_digits k n true = reverse (low_digits 16 hex_digit 8 n).
Proof.
  intros Hk. induction k as [|k IH]; intros Hn.
  - rewrite (low_digits_fixed 16 hex_digit ltac:(lia) 0) by (lia || auto). exact (hex_digits_fixed 0 n).
  - cbn [hex_digits]. rewrite hex_nibble, andb_true_r. pose proof (base_pow_pos 16 ltac:(lia) (S k)) as Hp.
    rewrite (base_pow_S 16) in Hn by lia.
    rewrite (Z.mod_small (n / _)) by (split; [apply Z.div_pos; lia|apply Z.div_lt_upper_bound; lia]).
    destruct (Z.eqb_spec (n / 16 ^ Z.of_nat (S k)) 0) as [E|E].
    + apply Z.div_small_iff in E; [|lia]. apply IH; [lia|lia].
    + rewrite (low_digits_fixed 16 hex_digit ltac:(lia) (S k)); [| |rewrite (base_pow_S 16 (S k)); lia|].
      * rewrite fixed_digits_S, hex_digits_fixed, hex_char_digit by lia.
        by rewrite Z.mod_small by (split; [apply Z.div_pos; lia|apply Z.div_lt_upper_bound; lia]).
      * lia.
      * left. destruct (Z.le_gt_cases (16 ^ Z.of_nat (S k)) n); [done|]. by rewrite Z.div_small in E by lia.
Qed.

(** What [sputhex] writes is that text. *)
Lemma hex_text_hexadecimal n : is_u32 n -> hex_text n = hexadecimal n.
Proof. intros Hn. unfold hex_text, hexadecimal. by rewrite hex_digits_low by (lia || done). Qed.

(** The characters with a meaning after a [%]. *)
Definition directives : list Z := [115; 99; 100; 117; 120; 102].

(** [expands m lo hi fmt args out]: the format [fmt] with the arguments [args]
    stands for the text [out], where strings are read from [m] and do not touch
    the addresses from [lo] to [hi]. *)
Inductive expands (m : mem) (lo hi : Z) : list Z -> list Z -> list Z -> Prop :=
| ex_nil args : expands m lo hi [] args []
| ex_lit c fmt args out : c <> 37 -> expands m lo hi fmt args out -> expands m lo hi (c :: fmt) args (c :: out)
| ex_other c fmt args out : c ∉ directives -> expands m lo hi fmt args out -> expands m lo hi (37 :: c :: fmt) args (c :: out)
| ex_string a l fmt args out :
    cstr m a l -> a + Z.of_nat (length l) < lo \/ hi < a ->
    expands m lo hi fmt args out -> expands m lo hi (37 :: 115 :: fmt) (a :: args) (l ++ out)
| ex_char a fmt args out : expands m lo hi fmt args out -> expands m lo hi (37 :: 99 :: fmt) (a :: args) (u8 a :: out)
| ex_int a fmt args out : expands m lo hi fmt args out -> expands m lo hi (37 :: 100 :: fmt) (a :: args) (signed_decimal (i32 a) ++ out)
| ex_unsigned a fmt args out :
    expands m lo hi fmt args out -> expands m lo hi (37 :: 117 :: fmt) (a :: args) (decimal (u32 a) ++ out)
| ex_hex a fmt args out :
    expands m lo hi fmt args out -> expands m lo hi (37 :: 120 :: fmt) (a :: args) (hexadecimal (u32 a) ++ out).

(** * Writing text *)

(** [m'] is [m] with the text [cs] at [p]; the byte behind the text may have
    changed. *)
Definition text_at (m : mem) (p : Z) (cs : list Z) (m' : mem) : Prop :=
  forall x, x <> p + Z.of_nat (length cs) -> rd8 m' x = rd8 (put_bytes m p cs) x.

Lemma text_exact m p cs : text_at m p cs (put_bytes m p cs).
Proof. done. Qed.

Lemma text_nul m p cs v : text_at m p cs (wr8 (put_bytes m p cs) (p + Z.of_nat (length cs)) v).
Proof. intros x Hx. by apply rd8_wr8_ne. Qed.

(** Texts one after the other. *)
Lemma text_app m p cs m1 ds m2 :
  text_at m p cs m1 -> text_at m1 (p + Z.of_nat (length cs)) ds m2 -> text_at m p (cs ++ ds) m2.
Proof.
  intros H1 H2 x Hx. rewrite length_app in Hx. rewrite put_bytes_app, H2 by lia.
  destruct (decide (p + Z.of_nat (length cs) <= x < p + Z.of_nat (length cs) + Z.of_nat (length ds))).
  - replace x with (p + Z.of_nat (length cs) + (x - (p + Z.of_nat (length cs)))) by lia. by rewrite !put_bytes_in by lia.
  - rewrite !put_bytes_out by lia. apply H1. lia.
Qed.

Lemma sput_divisor_shrink n u d : sput_divisor n u d = shrink_divisor n u d.
Proof. revert d. induction n as [|n IH]; intros d; [done|]. cbn. by rewrite IH. Qed.

Lemma sput_digits_run n p num d i m :
  exists ni, sput_digits n p num d i m = Ret (ni, put_bytes m (p + i) (removelast (fill_digits n num d))) /\
    ni.2 = i + Z.of_nat (length (removelast (fill_digits n num d))) /\
    fill_digits n num d = removelast (fill_digits n num d) ++ [u8 (48 + ni.1)].
Proof.
  revert num d i m. induction n as [|n IH]; intros num d i m; cbn [sput_digits fill_digits].
  - exists (num, i). split; [done|]. cbn. split; [lia|done].
  - destruct (10 <=? d); [|exists (num, i); cbn; split; [done|]; split; [lia|done]].
    unfold bind, poke, modify. destruct (IH (num mod d) (d / 10) (i + 1) (wr8 m (p + i) (u8 (48 + num / d)))) as (ni & -> & H1 & H2).
    exists ni. assert (Hne : fill_digits n (num mod d) (d / 10) <> []) by (rewrite H2; by destruct (removelast _)).
    set (ds := fill_digits n (num mod d) (d / 10)) in *.
    assert (removelast (u8 (48 + num / d) :: ds) = u8 (48 + num / d) :: removelast ds) as -> by (by destruct ds).
    cbn [put_bytes length app]. rewrite Z.add_assoc. split; [done|]. split; [lia|]. by rewrite <- H2.
Qed.

Lemma sputuint_run p n m :
  sputuint p n m = Ret (Z.of_nat (length (unsigned_string n)),
    wr8 (put_bytes m p (unsigned_string n)) (p + Z.of_nat (length (unsigned_string n))) 0).
Proof.
  unfold sputuint, unsigned_string. rewrite sput_divisor_shrink. set (d := shrink_divisor _ _ _). unfold bind at 1.
  destruct (sput_digits_run 9 p n d 0 m) as (ni & -> & H1 & H2). unfold bind, poke, modify, ret. rewrite Z.add_0_r.
  set (ds := removelast (fill_digits 9 n d)) in *. clearbody ds. rewrite H2, put_bytes_app, length_app. cbn [put_bytes length].
  rewrite H1, !Z.add_0_l. by replace (Z.of_nat (length ds + 1)) with (Z.of_nat (length ds) + 1) by lia.
Qed.

Lemma sputint_spec p n m :
  wp (sputint p n) (fun r m' => r = Z.of_nat (length (int_chars n)) /\ text_at m p (int_chars n) m') m.
Proof.
  unfold sputint, int_chars. destruct (0 <=? n).
  - eapply wp_Ret; [apply sputuint_run|]. split; [done|apply text_nul].
  - apply wp_bind, wp_modify. apply wp_bind. eapply wp_Ret; [apply sputuint_run|]. apply wp_ret.
    set (cs := unsigned_string _). split; [cbn [length]; lia|]. intros x Hx. cbn [put_bytes length] in *.
    apply rd8_wr8_ne. lia.
Qed.

Lemma sputhex_loop_spec k p n no_ze i m :
  wp (r <- sputhex_loop k p n (if no_ze : bool then 1 else 0) i ;;
      poke (p + (r.2 + 1)) (hex_char (Z.land n 0xF)) ;;; ret (r.2 + 2))
    (fun r m' => r = i + 1 + Z.of_nat (length (hex_digits k n no_ze)) /\ m' = put_bytes m (p + (i + 1)) (hex_digits k n no_ze)) m.
Proof.
  revert no_ze i m. induction k as [|k IH]; intros no_ze i m; cbn [sputhex_loop hex_digits].
  - apply wp_bind, wp_ret. apply wp_bind, wp_modify, wp_ret. cbn [length put_bytes fst snd]. split; [lia|done].
  - assert (Hz : negb ((if no_ze then 1 else 0) =? 0) = no_ze) by by destruct no_ze. rewrite Hz.
    destruct (_ && no_ze) eqn:E; [apply IH|].
    apply wp_bind, wp_bind, wp_modify. apply wp_bind_inv. eapply wp_mono; [apply (IH false (i + 1))|].
    intros r m' [-> ->]. cbn [length put_bytes]. split; [lia|]. f_equal. lia.
Qed.

Lemma sputhex_exact p n m :
  wp (sputhex p n) (fun r m' => r = Z.of_nat (length (hex_text n)) /\ m' = put_bytes m p (hex_text n)) m.
Proof.
  unfold sputhex. apply wp_bind, wp_modify, wp_bind, wp_modify.
  eapply wp_mono; [apply (sputhex_loop_spec 7 p n true 1)|]. intros r m' [-> ->]. unfold hex_text. cbn [length put_bytes].
  split; [lia|]. replace (p + (1 + 1)) with (p + 1 + 1) by lia. done.
Qed.

Lemma sputhex_spec p n m :
  wp (sputhex p n) (fun r m' => r = Z.of_nat (length (hex_text n)) /\ text_at m p (hex_text n) m') m.
Proof. eapply wp_mono; [apply sputhex_exact|]. intros r m' [-> ->]. split; [done|apply text_exact]. Qed.

(** [strcpy] of a string to a place apart from it. *)
Lemma libc_strcpy_spec m d a l :
  cstr m a l -> a + Z.of_nat (length l) < d \/ d + Z.of_nat (length l) < a ->
  wp (strcpy d a) (fun _ m' => m' = wr8 (put_bytes m d l) (d + Z.of_nat (length l)) 0) m.
Proof.
  intros Hc Hap. unfold strcpy. apply wp_bind, wp_gets. pose proof (cstr_size _ _ _ Hc) as Hsz.
  assert (Hgo : forall l2 l1 fuel, l = l1 ++ l2 -> (length l2 < fuel)%nat ->
    strcpy_loop fuel d a (Z.of_nat (length l1)) (put_bytes m d l1) =
    Ret (tt, wr8 (put_bytes m d l) (d + Z.of_nat (length l)) 0)).
  { induction l2 as [|c l2 IH]; intros l1 fuel El Hf; (destruct fuel as [|fuel]; [cbn in Hf; lia|]); cbn [strcpy_loop];
      unfold bind, peek, poke, Prelude.gets, modify.
    - rewrite app_nil_r in El. subst l1. pose proof (cstr_app m a l [] ltac:(by rewrite app_nil_r)) as Hend. cbn in Hend.
      rewrite put_bytes_out by lia. rewrite Hend. done.
    - subst l. pose proof (cstr_app m a l1 (c :: l2) Hc) as (Hh & Hnz & _).
      rewrite length_app in *. cbn [length] in *. rewrite put_bytes_out by lia. rewrite Hh.
      rewrite (proj2 (Z.eqb_neq c 0)) by done. cbn [negb].
      specialize (IH (l1 ++ [c]) fuel ltac:(by rewrite <- app_assoc) ltac:(lia)).
      rewrite length_app, put_bytes_app in IH. cbn [length put_bytes] in IH.
      rewrite <- IH. f_equal. lia. }
  apply wp_bind. eapply wp_Ret; [apply (Hgo l [] (str_fuel m)); [done|unfold str_fuel; lia]|]. by apply wp_ret.
Qed.

(** * Formatted output *)

Section output.
Variable sputfpoint : Z -> Z -> Z -> cmd mem Z.
Implicit Types (m : mem).

(** [m] agrees with [m0] outside the addresses from [lo] to [hi]. *)
Definition agrees (m0 m : mem) (lo hi : Z) : Prop := forall x, x < lo \/ hi < x -> rd8 m x = rd8 m0 x.

Lemma agrees_text m0 m lo hi p cs m' :
  agrees m0 m lo hi -> text_at m p cs m' -> lo <= p -> p + Z.of_nat (length cs) <= hi -> agrees m0 m' lo hi.
Proof. intros Ha Ht Hlo Hhi x Hx. rewrite Ht by lia. rewrite put_bytes_out by lia. by apply Ha. Qed.

Lemma agrees_cstr m0 m lo hi p l :
  agrees m0 m lo hi -> p + Z.of_nat (length l) < lo \/ hi < p -> cstr m0 p l -> cstr m p l.
Proof. intros Ha Hp. apply cstr_ext. intros x Hx. apply Ha. lia. Qed.

(** One directive that takes one argument. *)
Definition piece (m : mem) (lo hi c a : Z) (cs : list Z) : Prop :=
  (c = 115 /\ cstr m a cs /\ (a + Z.of_nat (length cs) < lo \/ hi < a)) \/
  (c = 99 /\ cs = [u8 a]) \/ (c = 100 /\ cs = int_chars (i32 a)) \/
  (c = 117 /\ cs = unsigned_string (u32 a)) \/ (c = 120 /\ cs = hex_text (u32 a)).

Lemma put_directive_spec f c a cs str j args m0 m lo hi :
  piece m0 lo hi c a cs -> agrees m0 m lo hi -> lo <= str + j -> str + j + Z.of_nat (length cs) <= hi ->
  wp (put_directive sputfpoint f c str j (a :: args))
    (fun r m' => r = (j + Z.of_nat (length cs), args) /\ text_at m (str + j) cs m') m.
Proof.
  intros Hp Ha Hlo Hhi. unfold put_directive.
  destruct Hp as [(-> & Hc & Hap)|[[-> ->]|[[-> ->]|[[-> ->]|[-> ->]]]]]; cbn [Z.eqb Pos.eqb next_arg]; apply wp_bind, wp_ret; cbn [fst snd].
  - pose proof (agrees_cstr _ _ _ _ _ _ Ha Hap Hc) as Hcm.
    apply wp_bind. eapply wp_mono; [apply (libc_strcpy_spec m (str + j) a cs); [done|lia]|]. intros _ m1 ->.
    pose proof (text_nul m (str + j) cs 0) as Ht.
    assert (Hc1 : cstr (wr8 (put_bytes m (str + j) cs) (str + j + Z.of_nat (length cs)) 0) a cs).
    { eapply agrees_cstr; [eapply agrees_text; [exact Ha|exact Ht|lia|lia]|exact Hap|exact Hc]. }
    apply wp_bind. eapply wp_Ret; [|apply wp_ret; split; [done|exact Ht]].
    unfold strlen, bind, Prelude.gets. pose proof (cstr_size _ _ _ Hc1).
    by rewrite (libc_strlen_run _ a cs); [|rewrite Z.add_0_r|unfold str_fuel; lia].
  - apply wp_bind, wp_modify, wp_ret. split; [done|]. intros x Hx. cbn [put_bytes]. by rewrite !rd8_wr8, !(u8_small (u8 a)) by apply u8_range.
  - apply wp_bind. eapply wp_mono; [apply sputint_spec|]. intros r m1 [-> Ht]. by apply wp_ret.
  - apply wp_bind. eapply wp_Ret; [apply sputuint_run|]. apply wp_ret. split; [done|apply text_nul].
  - apply wp_bind. eapply wp_mono; [apply sputhex_spec|]. intros r m1 [-> Ht]. by apply wp_ret.
Qed.

(** A character that stands for itself. *)
Lemma put_other_spec f c str j args m :
  c ∉ directives ->
  wp (put_directive sputfpoint f c str j args) (fun r m' => r = (j + 1, args) /\ m' = wr8 m (str + j) c) m.
Proof.
  intros Hc. unfold put_directive, directives in *.
  rewrite !(proj2 (Z.eqb_neq c _)) by set_solver. rewrite andb_false_r. by apply wp_bind, wp_modify, wp_ret.
Qed.

Lemma text_one m p c : 0 <= c < 256 -> text_at m p [c] (wr8 m p c).
Proof. intros _. apply text_exact. Qed.

(** What is left of the format. *)
Definition rest_at (m0 m : mem) (lo hi format i : Z) (fmt : list Z) : Prop :=
  cstr m0 (format + i) fmt /\ (format + i + Z.of_nat (length fmt) < lo \/ hi < format + i) /\ agrees m0 m lo hi.

Lemma rest_cons m0 m lo hi format i c fmt :
  rest_at m0 m lo hi format i (c :: fmt) ->
  rd8 m (format + i) = c /\ c <> 0 /\ 0 <= c < 256 /\ forall m', agrees m0 m' lo hi -> rest_at m0 m' lo hi format (i + 1) fmt.
Proof.
  intros (Hc & Hap & Ha). pose proof (agrees_cstr _ _ _ _ _ _ Ha Hap Hc) as (Hh & Hnz & _).
  split; [done|]. split; [done|]. split; [rewrite <- Hh; apply rd8_range|]. intros m' Ha'.
  destruct Hc as (_ & _ & Hc). unfold rest_at. rewrite Z.add_assoc. split; [done|]. cbn [length] in Hap. split; [lia|done].
Qed.

Definition formatted (m : mem) (str j : Z) (out : list Z) (r : Z) (m' : mem) : Prop :=
  r = j + Z.of_nat (length out) /\ text_at m (str + j) out m'.

Lemma formatted_step m m1 str j cs out r m' :
  text_at m (str + j) cs m1 -> formatted m1 str (j + Z.of_nat (length cs)) out r m' -> formatted m str j (cs ++ out) r m'.
Proof.
  intros Ht [-> Ht']. split; [rewrite length_app; lia|]. eapply text_app; [exact Ht|]. by rewrite Z.add_assoc in Ht'.
Qed.

(** A [%] and its directive [c], which writes [cs]. *)
Lemma percent_step m0 str hi format fuel i j c fmt args args' cs out m :
  rest_at m0 m str hi format i (37 :: c :: fmt) -> 0 <= j -> str + j + Z.of_nat (length (cs ++ out)) <= hi ->
  wp (put_directive sputfpoint true c str j args)
    (fun r m1 => r = (j + Z.of_nat (length cs), args') /\ text_at m (str + j) cs m1) m ->
  (forall m1, rest_at m0 m1 str hi format (i + 2) fmt ->
    wp (vsprintf_loop sputfpoint fuel str format (i + 2) (j + Z.of_nat (length cs)) args')
      (formatted m1 str (j + Z.of_nat (length cs)) out) m1) ->
  wp (vsprintf_loop sputfpoint (S fuel) str format i j args) (formatted m str j (cs ++ out)) m.
Proof.
  intros Hrest Hj Hhi Hput Hgo. cbn [vsprintf_loop]. rewrite length_app in Hhi.
  destruct (rest_cons _ _ _ _ _ _ _ _ Hrest) as (Hh & _ & _ & Hnext). pose proof Hrest as (_ & _ & Ha).
  destruct (rest_cons _ _ _ _ _ _ _ _ (Hnext m Ha)) as (Hh2 & _ & _ & Hnext2).
  apply wp_bind, wp_gets. rewrite Hh. cbn [Z.eqb Pos.eqb]. apply wp_bind. unfold format_step. cbn [Z.eqb Pos.eqb].
  apply wp_bind, wp_gets. rewrite Hh2. apply wp_bind. eapply wp_mono; [exact Hput|]. intros r m1 [-> Ht]. apply wp_ret.
  cbn [fst snd]. eapply wp_mono; [apply Hgo|].
  - replace (i + 2) with (i + 1 + 1) by lia. apply Hnext2. eapply agrees_text; [exact Ha|exact Ht|lia|lia].
  - intros r m' Hr. by eapply formatted_step.
Qed.

Lemma vsprintf_loop_spec m0 str format fmt args out hi :
  expands m0 str hi fmt args out ->
  forall fuel i j m, rest_at m0 m str hi format i fmt -> (length fmt < fuel)%nat -> 0 <= j -> str + j + Z.of_nat (length out) <= hi ->
    wp (vsprintf_loop sputfpoint fuel str format i j args) (formatted m str j out) m.
Proof.
  assert (Harg : forall c a cs fmt args out,
    piece m0 str hi c a cs ->
    (forall fuel i j m, rest_at m0 m str hi format i fmt -> (length fmt < fuel)%nat -> 0 <= j -> str + j + Z.of_nat (length out) <= hi ->
      wp (vsprintf_loop sputfpoint fuel str format i j args) (formatted m str j out) m) ->
    forall fuel i j m, rest_at m0 m str hi format i (37 :: c :: fmt) -> (S (S (length fmt)) < fuel)%nat -> 0 <= j ->
      str + j + Z.of_nat (length (cs ++ out)) <= hi ->
      wp (vsprintf_loop sputfpoint fuel str format i j (a :: args)) (formatted m str j (cs ++ out)) m).
  { intros c a cs fmt' args' out' Hp IH [|fuel] i j m Hrest Hf Hj Hhi; [cbn in Hf; lia|]. cbn [length] in Hf.
    pose proof Hhi as Hhi'. rewrite length_app in Hhi'.
    eapply percent_step; [exact Hrest|exact Hj|exact Hhi| |].
    - destruct Hrest as (_ & _ & Ha). eapply put_directive_spec; [exact Hp|exact Ha|lia|lia].
    - intros m1 Hr1. apply IH; [exact Hr1|lia|lia|lia]. }
  induction 1 as [args|c fmt args out Hc _ IH|c fmt args out Hc _ IH|a l fmt args out Hl Hap _ IH|a fmt args out _ IH|a fmt args out _ IH|a fmt args out _ IH|a fmt args out _ IH].
  - intros [|fuel] i j m (Hc & Hap & Ha) Hf Hj Hhi; [cbn in Hf; lia|]. cbn [vsprintf_loop].
    pose proof (agrees_cstr _ _ _ _ _ _ Ha Hap Hc) as Hz. cbn in Hz.
    apply wp_bind, wp_gets. rewrite Hz. apply wp_ret. split; [cbn; lia|]. apply text_exact.
  - intros [|fuel] i j m Hrest Hf Hj Hhi; [cbn in Hf; lia|]. cbn [vsprintf_loop].
    destruct (rest_cons _ _ _ _ _ _ _ _ Hrest) as (Hh & Hnz & Hb & Hnext). cbn [length] in *.
    apply wp_bind, wp_gets. rewrite Hh, (proj2 (Z.eqb_neq c 0)) by done. apply wp_bind. unfold format_step.
    rewrite (proj2 (Z.eqb_neq c 37)) by done. apply wp_bind, wp_modify, wp_ret. cbn [fst snd].
    eapply wp_mono; [apply IH; [apply Hnext|lia|lia|lia]|].
    + eapply agrees_text; [apply Hrest|by apply text_one|lia|cbn; lia].
    + intros r m' Hr. apply (formatted_step m (wr8 m (str + j) c) str j [c]); [by apply text_one|exact Hr].
  - intros [|fuel] i j m Hrest Hf Hj Hhi; [cbn in Hf; lia|]. cbn [length] in Hf, Hhi.
    apply (percent_step m0 str hi format fuel i j c fmt args args [c] out); [exact Hrest|exact Hj|cbn; lia| |].
    + eapply wp_mono; [by apply put_other_spec|]. intros r m1 [-> ->]. split; [done|apply text_exact].
    + intros m1 Hr1. cbn [length]. apply IH; [exact Hr1|lia|lia|lia].
  - apply Harg; [by left|exact IH].
  - apply (Harg 99 a [u8 a]); [right; by left|exact IH].
  - rewrite <- int_chars_decimal by apply i32_range. apply Harg; [do 2 right; by left|exact IH].
  - rewrite <- unsigned_decimal by apply u32_range. apply Harg; [do 3 right; by left|exact IH].
  - rewrite <- hex_text_hexadecimal by apply u32_range. apply Harg; [do 4 right; done|exact IH].
Qed.

(** C21: [sprintf] writes the text its format stands for: for every format with
    [%s], [%c], [%d], [%u] and [%x] (not [%f]) whose strings and text lie apart
    from the destination, it returns the length of the text, the text is at the
    destination, and no byte outside the text and the one behind it changes.  In
    the text a number is its decimal digits, with a minus sign where it is
    negative, or [0x] and its digits in base 16, in both cases without leading
    zeros.  The byte behind the text need not be zero: the code terminates what
    [%s], [%d] and [%u] write, not the text. *)
Theorem sprintf_correct m str format fmt args out :
  cstr m format fmt -> expands m str (str + Z.of_nat (length out)) fmt args out ->
  format + Z.of_nat (length fmt) < str \/ str + Z.of_nat (length out) < format ->
  exists m', sprintf sputfpoint str format args m = Ret (Z.of_nat (length out), m') /\
    (forall k c, out !! k = Some c -> rd8 m' (str + Z.of_nat k) = u8 c) /\
    forall x, x < str \/ str + Z.of_nat (length out) < x -> rd8 m' x = rd8 m x.
Proof.
  intros Hc He Hap. pose proof (cstr_size _ _ _ Hc) as Hsz.
  assert (Hwp : wp (sprintf sputfpoint str format args) (formatted m str 0 out) m).
  { unfold sprintf, vsprintf. apply wp_bind, wp_gets.
    eapply vsprintf_loop_spec; [exact He| |unfold str_fuel; lia|lia|lia].
    unfold rest_at. rewrite Z.add_0_r. by split; [|split]. }
  destruct (wp_inv _ _ _ Hwp) as (r & m' & E & -> & Ht). exists m'. rewrite Z.add_0_r in Ht.
  split; [exact E|]. split.
  - intros k c Hk. pose proof (lookup_lt_Some _ _ _ Hk). rewrite Ht by lia. rewrite put_bytes_in by lia.
    by rewrite Nat2Z.id, Hk.
  - intros x Hx. rewrite Ht by lia. apply put_bytes_out. lia.
Qed.

(** [snprintf] is cut short by its loop condition, which is the lowest bit of
    the format character and not the character: a format whose first character
    has an even code writes nothing, whatever the size of the buffer. *)
Theorem snprintf_stops_at_even m str size format args :
  Z.even (rd8 m format) = true -> snprintf sputfpoint str size format args m = Ret (0, m).
Proof.
  intros He. unfold snprintf, vsnprintf, bind, Prelude.gets, str_fuel. cbn [vsnprintf_loop].
  unfold bind, peek, Prelude.gets. rewrite Z.add_0_r.
  assert (Hb : Z.testbit (schar (rd8 m format)) 0 = false).
  { unfold schar. rewrite Z.bit0_odd, <- Z.negb_even. case_zbool; [by rewrite He|]. rewrite Z.even_sub, He. done. }
  assert (Z.land (schar (rd8 m format)) (if u32 0 <? size then 1 else 0) = 0) as ->; [|done].
  destruct (u32 0 <? size); [|apply Z.land_0_r]. change 1 with (Z.ones 1). rewrite Z.land_ones by lia.
  change (2 ^ 1) with 2. rewrite Zmod_odd, <- Z.bit0_odd. by rewrite Hb.
Qed.
End output.

Definition no_float (_ _ _ : Z) : cmd mem Z := fault.
(** ["%s=%d"] at 100, ["n"] at 120. *)
Definition demo_print : mem := put_str (put_str ∅ 100 [37; 115; 61; 37; 100]) 120 [110].

Lemma sprintf_correct_witness : exists m', sprintf no_float 200 100 [120; -7] demo_print = Ret (4, m') /\
    (forall k c, [110; 61; 45; 55] !! k = Some c -> rd8 m' (200 + Z.of_nat k) = u8 c) /\
    forall x, x < 200 \/ 200 + 4 < x -> rd8 m' x = rd8 demo_print x.
Proof.
  apply (sprintf_correct no_float demo_print 200 100 [37; 115; 61; 37; 100] [120; -7] [110; 61; 45; 55]).
  - by vm_compute.
  - apply (ex_string _ _ _ 120 [110]); [by vm_compute|left; cbn; lia|]. apply ex_lit; [done|].
    apply (ex_int _ _ _ (-7) [] [] []). apply ex_nil.
  - left. cbn. lia.
Defined.

Lemma snprintf_stops_at_even_witness :
  snprintf no_float 200 64 100 [] (put_str ∅ 100 [104; 101; 108; 108; 111]) = Ret (0, put_str ∅ 100 [104; 101; 108; 108; 111]).
Proof. apply (snprintf_stops_at_even no_float (put_str ∅ 100 [104; 101; 108; 108; 111]) 200 64 100 []). by vm_compute. Defined.

(** * Reading a number back *)

Lemma skip_none p m a : p (rd8 m a) = false -> skip p a m = Ret (a, m).
Proof. intros Hp. unfold skip, bind, Prelude.gets, str_fuel. cbn [skip_while]. unfold bind, peek, Prelude.gets. by rewrite Hp. Qed.

Lemma strtoul_loop_digits m p ds fuel a :
  cstr m p ds -> Forall (fun c => 48 <= c <= 57) ds -> (length ds < fuel)%nat ->
  strtoul_loop fuel 32 p 10 (u32 a) m = Ret ((u32 (digits_value a ds), p + Z.of_nat (length ds)), m).
Proof.
  revert fuel p a. induction ds as [|c ds IH]; intros fuel p a H Hall Hf;
    (destruct fuel as [|fuel]; [cbn in Hf; lia|]); cbn [strtoul_loop]; unfold bind, peek, Prelude.gets.
  - cbn in H. rewrite H. cbn. by rewrite Z.add_0_r.
  - destruct H as (-> & _ & H). apply Forall_cons_1 in Hall as [Hc Hall].
    assert (schar c = c) as -> by (unfold schar; case_zbool; lia).
    assert (isdigit c = true) as Hd by (unfold isdigit; rewrite !(proj2 (Z.leb_le _ _)) by lia; done).
    unfold isxdigit, digit_value. rewrite Hd, (proj2 (Z.ltb_lt (c - 48) 10)) by lia. cbn [orb andb].
    assert ((u32 a * 10 + (c - 48)) mod 2 ^ 32 = u32 (a * 10 + (c - 48))) as -> by (unfold u32; zdm).
    rewrite IH; [|done|done|cbn in Hf; lia]. cbn [digits_value fold_left length]. do 3 f_equal. lia.
Qed.

(** [strtol] in base 10 on the text of a number: the number, and the pointer
    behind it in [*endp]. *)
Lemma strtol_int m p n endp :
  - 2 ^ 31 <= n < 2 ^ 31 -> cstr m p (int_chars n) -> endp <> 0 ->
  strtol p endp 10 m = Ret (n, wr32 m endp (p + Z.of_nat (length (int_chars n)))).
Proof.
  intros Hn Hc He. unfold strtol, bind, peek, Prelude.gets. unfold int_chars in *.
  assert (Hrun : forall u q, is_u32 u -> cstr m q (unsigned_string u) ->
    strtoul q endp 10 m = Ret (u, wr32 m endp (q + Z.of_nat (length (unsigned_string u))))).
  { intros u q Hu Hq. destruct (unsigned_string_spec u 0 Hu) as (Hall & _ & _ & b & _ & Hv).
    pose proof (cstr_size _ _ _ Hq). unfold strtoul, parse_number, number_base, bind, ret, Prelude.gets. cbn [Z.eqb fst snd].
    change 0 with (u32 0) at 1. rewrite (strtoul_loop_digits m q (unsigned_string u)); [|done|done|unfold str_fuel; lia].
    rewrite Hv. cbn [fst snd]. rewrite (proj2 (Z.eqb_neq endp 0)) by done. cbn. by rewrite u32_small. }
  destruct (Z.leb_spec 0 n) as [Hpos|Hneg].
  - assert (Hu : is_u32 (u32 n)) by apply u32_range. destruct (unsigned_string_spec (u32 n) 0 Hu) as (Hall & Hne & _ & _).
    assert (Hh : rd8 m p <> 45).
    { destruct (unsigned_string (u32 n)) as [|c cs]; [done|]. destruct Hc as (-> & _). apply Forall_cons_1 in Hall as [Hd _]. lia. }
    rewrite (proj2 (Z.eqb_neq _ 45) Hh), (Hrun _ _ Hu Hc). unfold ret. rewrite (u32_small n) by lia. by rewrite i32_small by lia.
  - destruct Hc as (Hh & _ & Hc). rewrite Hh. cbn [Z.eqb Pos.eqb]. rewrite (Hrun (u32 (- n)) (p + 1) (u32_range _) Hc).
    cbn [length]. rewrite (u32_small (- n)) by lia. unfold ret. rewrite Z.opp_involutive, i32_small by lia.
    do 3 f_equal. lia.
Qed.

(** [sputint] leaves a string. *)
Lemma sputint_cstr p n m :
  - 2 ^ 31 <= n < 2 ^ 31 ->
  wp (sputint p n) (fun r m' => r = Z.of_nat (length (int_chars n)) /\ cstr m' p (int_chars n) /\
    forall x, x < p \/ p + 12 <= x -> rd8 m' x = rd8 m x) m.
Proof.
  intros Hn. destruct (int_chars_spec n Hn) as [Hall Hlen].
  assert (E : sputint p n m = Ret (Z.of_nat (length (int_chars n)),
    wr8 (put_bytes m p (int_chars n)) (p + Z.of_nat (length (int_chars n))) 0)).
  { unfold sputint, int_chars. destruct (0 <=? n); [apply sputuint_run|].
    unfold bind, poke, modify. rewrite sputuint_run. unfold ret. cbn [length put_bytes]. f_equal. f_equal; [lia|]. f_equal. lia. }
  eapply wp_Ret; [exact E|]. split; [done|]. split; [by apply put_bytes_cstr|].
  intros x Hx. rewrite rd8_wr8_ne by lia. apply put_bytes_out. lia.
Qed.

Definition percent_d : list Z := [37; 100].

Section roundtrip.
Variable sputfpoint : Z -> Z -> Z -> cmd mem Z.

Lemma sprintf_d m buf format n :
  - 2 ^ 31 <= n < 2 ^ 31 -> cstr m format percent_d -> format + 2 < buf \/ buf + 12 <= format ->
  wp (sprintf sputfpoint buf format [n]) (fun _ m' => cstr m' buf (int_chars n) /\
    forall x, x < buf \/ buf + 12 <= x -> rd8 m' x = rd8 m x) m.
Proof.
  intros Hn Hc Hap. pose proof (cstr_size _ _ _ Hc) as Hsz. cbn in Hsz. pose proof Hc as (H0 & _ & H1 & _ & H2). cbn in H2.
  unfold sprintf, vsprintf. apply wp_bind, wp_gets. unfold str_fuel. destruct (size m) as [|k]; [lia|].
  cbn [vsprintf_loop]. apply wp_bind, wp_gets. rewrite Z.add_0_r, H0. cbn [Z.eqb Pos.eqb]. apply wp_bind.
  unfold format_step. cbn [Z.eqb Pos.eqb]. apply wp_bind, wp_gets. rewrite Z.add_0_l, H1. apply wp_bind.
  unfold put_directive. cbn [Z.eqb Pos.eqb next_arg]. apply wp_bind, wp_ret. apply wp_bind. cbn [fst snd].
  rewrite Z.add_0_r, (i32_small n) by lia. eapply wp_mono; [by apply sputint_cstr|]. intros r m1 (-> & Hc1 & Hf).
  do 2 apply wp_ret. cbn [fst snd]. apply wp_bind, wp_gets. rewrite Hf by lia.
  replace (format + (0 + 2)) with (format + 1 + 1) by lia. rewrite H2. by apply wp_ret.
Qed.

Variable v_next : Z.

(** The first character of a number is neither a blank nor the end. *)
Lemma int_chars_head n :
  - 2 ^ 31 <= n < 2 ^ 31 -> exists c l, int_chars n = c :: l /\
    ((c = 45 /\ exists d l', l = d :: l' /\ 48 <= d <= 57) \/ 48 <= c <= 57).
Proof.
  intros Hn. unfold int_chars. destruct (0 <=? n).
  - destruct (unsigned_string_spec (u32 n) 0 (u32_range _)) as (Hall & Hne & _). destruct (unsigned_string (u32 n)) as [|c l]; [done|].
    apply Forall_cons_1 in Hall as [Hc _]. exists c, l. split; [done|by right].
  - destruct (unsigned_string_spec (u32 (- n)) 0 (u32_range _)) as (Hall & Hne & _).
    destruct (unsigned_string (u32 (- n))) as [|c l]; [done|]. apply Forall_cons_1 in Hall as [Hc _].
    exists 45, (c :: l). split; [done|]. left. split; [done|]. by exists c, l.
Qed.

Lemma digit_starts d : 48 <= d <= 57 -> no_number 10 d = false /\ isspace d = false.
Proof.
  intros H. unfold no_number, isspace, isdigit. rewrite !(proj2 (Z.leb_le _ _)), !(proj2 (Z.eqb_neq d _)) by lia. done.
Qed.

Lemma scan_number_int m str n p args :
  - 2 ^ 31 <= n < 2 ^ 31 -> cstr m str (int_chars n) -> v_next <> 0 -> 0 < str + Z.of_nat (length (int_chars n)) < 2 ^ 32 ->
  p + 4 <= v_next \/ v_next + 4 <= p ->
  scan_number v_next (-1) 10 true str (p :: args) m =
  Ret ((1, Some (str + Z.of_nat (length (int_chars n)), args)),
       wr32 (wr32 m v_next (str + Z.of_nat (length (int_chars n)))) p (u32 n)).
Proof.
  intros Hn Hc Hv Hr Hap. destruct (int_chars_head n Hn) as (c & l & E & Hhead). pose proof Hc as Hc'. rewrite E in Hc'.
  destruct Hc' as (Hh & _ & Htl). unfold scan_number, bind at 1.
  assert (isspace c = false) as Hsp.
  { destruct Hhead as [[-> _]|Hd]; [done|by apply digit_starts]. }
  rewrite skip_none by (by rewrite Hh). unfold bind at 1, peek at 1, Prelude.gets at 1. rewrite Hh.
  assert (Hdig : exists d, 48 <= d <= 57 /\ (if true && (c =? 45) then peek (str + 1) else ret c) m = Ret (d, m)).
  { destruct Hhead as [(-> & d & l' & -> & Hd)|Hd].
    - exists d. split; [done|]. destruct Htl as (Hd' & _). cbn [andb Z.eqb Pos.eqb]. unfold peek, Prelude.gets. by rewrite Hd'.
    - exists c. split; [done|]. by rewrite (proj2 (Z.eqb_neq c 45)) by lia. }
  destruct Hdig as (d & Hd & Ed). unfold bind at 1. rewrite Ed. destruct (digit_starts d Hd) as [-> _]. unfold bind at 1. cbn [next_arg ret fst snd].
  unfold scan_store. cbn [Z.eqb Z.opp andb negb orb]. unfold bind. rewrite (strtol_int m str n v_next Hn Hc Hv). unfold modify, Prelude.gets.
  rewrite rd32_wr32_ne by lia. rewrite rd32_wr32_same by (unfold is_u32; lia).
  rewrite (proj2 (Z.eqb_neq _ 0)) by lia. done.
Qed.

Lemma sscanf_d m buf format n p :
  - 2 ^ 31 <= n < 2 ^ 31 -> cstr m buf (int_chars n) -> cstr m format percent_d -> v_next <> 0 ->
  0 < buf -> buf + 12 < 2 ^ 32 ->
  p + 4 <= v_next \/ v_next + 4 <= p -> format + 2 < v_next \/ v_next + 4 <= format -> format + 2 < p \/ p + 4 <= format ->
  wp (sscanf v_next buf format [p]) (fun r m' => r = 1 /\ i32 (rd32 m' p) = n) m.
Proof.
  intros Hn Hb Hc Hv Hb0 Hbm Hap Hfv Hfp. destruct (int_chars_spec n Hn) as [_ Hlen]. pose proof Hc as (H0 & _ & H1 & _ & H2). cbn in H2.
  destruct (int_chars_head n Hn) as (c & l & E & Hhead). pose proof Hb as Hb'. rewrite E in Hb'. destruct Hb' as (Hh & Hnz & _).
  unfold sscanf, vsscanf. apply wp_bind, wp_gets. unfold str_fuel.
  cbn [vsscanf_loop]. apply wp_bind, wp_gets. rewrite H0. apply wp_bind, wp_gets. rewrite Hh.
  rewrite (proj2 (Z.eqb_neq c 0)) by done. cbn [orb Z.eqb Pos.eqb isspace]. do 2 apply wp_bind, wp_ret.
  apply wp_bind, wp_gets. rewrite H0. cbn [negb andb Z.eqb Pos.eqb]. apply wp_bind, wp_gets. rewrite H1.
  cbn [Z.eqb Pos.eqb isdigit Z.leb Z.compare Pos.compare Pos.compare_cont andb]. apply wp_bind, wp_ret. cbn [fst snd].
  apply wp_bind. unfold scan_qualifier. apply wp_bind, wp_gets. rewrite H1. cbn [Z.eqb Pos.eqb orb]. apply wp_ret.
  cbn [fst snd]. apply wp_bind, wp_gets. rewrite H1. apply wp_bind, wp_gets. rewrite Hh, (proj2 (Z.eqb_neq c 0)) by done.
  cbn [orb Z.eqb Pos.eqb]. apply wp_bind. unfold scan_directive. cbn [orb Z.eqb Pos.eqb].
  eapply wp_Ret; [apply scan_number_int; [done|done|done|lia|done]|]. cbn [fst snd].
  apply wp_bind, wp_gets. set (m2 := wr32 _ p _).
  assert (Hz : rd8 m2 (format + 1 + 1) = 0) by (unfold m2; rewrite !rd8_wr32_ne by lia; done).
  rewrite Hz. apply wp_bind, wp_gets. cbn [Z.eqb orb]. apply wp_ret. split; [done|].
  unfold m2. rewrite rd32_wr32_same by apply u32_range. rewrite i32_u32. by apply i32_small.
Qed.

(** Printing a number and scanning it again, as a program does. *)
Definition print_scan (buf format n p : Z) : cmd mem Z :=
  sprintf sputfpoint buf format [n] ;;; sscanf v_next buf format [p].

(** C22: what [sprintf] prints with [%d], [sscanf] reads back with [%d]: for every
    [int], with buffer, format, destination and the scanner's local apart, one
    item is converted and it is the number, sign included. *)
Theorem print_scan_roundtrip m buf format n p :
  - 2 ^ 31 <= n < 2 ^ 31 -> cstr m format percent_d -> 0 < buf -> buf + 12 < 2 ^ 32 -> v_next <> 0 ->
  format + 2 < buf \/ buf + 12 <= format ->
  p + 4 <= v_next \/ v_next + 4 <= p -> format + 2 < v_next \/ v_next + 4 <= format -> format + 2 < p \/ p + 4 <= format ->
  exists m', print_scan buf format n p m = Ret (1, m') /\ i32 (rd32 m' p) = n.
Proof.
  intros Hn Hc Hb0 Hbm Hv Hfb Hap Hfv Hfp.
  assert (Hwp : wp (print_scan buf format n p) (fun r m' => r = 1 /\ i32 (rd32 m' p) = n) m).
  { apply wp_bind. eapply wp_mono; [by apply sprintf_d|]. intros _ m1 [Hc1 Hf]. apply sscanf_d; try done.
    eapply cstr_ext; [|exact Hc]. intros x Hx. apply Hf. cbn in Hx. lia. }
  destruct (wp_inv _ _ _ Hwp) as (r & m' & E & -> & Hr). by exists m'.
Qed.
End roundtrip.

Lemma print_scan_roundtrip_witness :
  exists m', print_scan no_float 0x900 0x400 0x100 (-2147483648) 0x300 (put_str ∅ 0x100 percent_d) = Ret (1, m') /\
    i32 (rd32 m' 0x300) = -2147483648.
Proof.
  apply (print_scan_roundtrip no_float 0x900 (put_str ∅ 0x100 percent_d) 0x400 0x100 (-2147483648) 0x300);
    first [lia|by vm_compute].
Defined.
