(* ===== verification/StdioOut.v ===== *)
(** What [printf] sends: the text of its format, through the write calls of the
    kernel. *)
From stdpp Require Import base numbers gmap list.
From S2P Require Import Prelude Kmem KString Kstdio Libc LibcNum Scalls Stdio StdioSpec.

Definition bytes_at (m : mem) (p : Z) (n : nat) : list Z := (fun k => rd8 m (p + Z.of_nat k)) <$> seq 0 n.

Lemma bytes_at_cstr m p l : cstr m p l -> bytes_at m p (length l) = l.
Proof.
  intros H. apply list_eq. intros k. unfold bytes_at. rewrite list_lookup_fmap.
  destruct (decide (k < length l)%nat) as [Hk|Hk].
  - rewrite lookup_seq_lt by done. cbn. destruct (lookup_lt_is_Some_2 l k Hk) as [c Hc]. rewrite Hc. f_equal.
    rewrite <- (take_drop_middle l k c Hc) in H. apply cstr_app in H. rewrite length_take_le in H by lia. apply H.
  - rewrite lookup_seq_ge by lia. rewrite lookup_ge_None_2 by lia. done.
Qed.

(** Two facts about one run. *)
Lemma wp_both {S A} (c : cmd S A) (P Q : A -> S -> Prop) s : wp c P s -> wp c Q s -> wp c (fun a s' => P a s' /\ Q a s') s.
Proof. unfold wp. by destruct (c s) as [[a s']| |]. Qed.

Lemma u8_u32 x : u8 (u32 x) = u8 x.
Proof. unfold u8, u32. zdm. Qed.

Section sending.
Context {W : Type}.
Variable trap : Z -> list Z -> cmd (ustate W) Z.
Variable sputfpoint : Z -> Z -> Z -> cmd mem Z.
Variables v_character v_num : Z.
(** The bytes the kernel was given so far. *)
Variable sent : W -> list Z.

(** The write call: whatever the node and the offset, the bytes of the buffer go
    out and the memory of the program stays. *)
Hypothesis write_sends : forall id start size buf (s : ustate W), is_u32 size ->
  exists r s', trap SYSCALL_WRITE [id; start; size; buf] s = Ret (r, s') /\
    sent s'.(u_world) = sent s.(u_world) ++ bytes_at s.(u_mem) buf (Z.to_nat size) /\
    s'.(u_mem) = s.(u_mem) /\ s'.(u_stdout) = s.(u_stdout).

(** The scratch memory of the printing functions: the stream, the character and
    the number buffer, apart from each other, from [lo] to [hi]. *)
Variables lo hi file : Z.
Hypothesis in_char : lo <= v_character /\ v_character + 3 <= hi.
Hypothesis in_num : lo <= v_num /\ v_num + 99 <= hi.
Hypothesis in_file : lo <= file /\ file + 11 <= hi.

(** Text [out] was sent and only scratch memory changed. *)
Definition sends (m0 : mem) (s : ustate W) (out : list Z) (s' : ustate W) : Prop :=
  sent s'.(u_world) = sent s.(u_world) ++ out /\ agrees m0 s'.(u_mem) lo hi /\ s'.(u_stdout) = s.(u_stdout).

Lemma sends_trans m0 s out s1 out' s' : sends m0 s out s1 -> sends m0 s1 out' s' -> sends m0 s (out ++ out') s'.
Proof. intros (H1 & _ & H2) (H3 & H4 & H5). split; [by rewrite H3, H1, app_assoc|]. split; [done|congruence]. Qed.

Lemma wp_in_mem {A} (c : cmd mem A) (Q : A -> ustate W -> Prop) s :
  wp c (fun a m => Q a (set_u_mem m s)) s.(u_mem) -> wp (in_mem c) Q s.
Proof. unfold wp, in_mem. by destruct (c s.(u_mem)) as [[a m]| |]. Qed.

Lemma agrees_wr32 m0 m a v : agrees m0 m lo hi -> lo <= a -> a + 3 <= hi -> agrees m0 (wr32 m a v) lo hi.
Proof. intros Ha H1 H2 x Hx. rewrite rd8_wr32_ne by lia. by apply Ha. Qed.

Lemma fwrite_sends m0 ptr size s :
  is_u32 size -> agrees m0 s.(u_mem) lo hi ->
  wp (fwrite trap ptr size 1 file) (fun _ s' => sends m0 s (bytes_at s.(u_mem) ptr (Z.to_nat size)) s') s.
Proof.
  intros Hs Ha. unfold fwrite. rewrite Z.mul_1_r, u32_small by done. do 2 apply wp_bind, wp_gets. apply wp_bind.
  destruct (write_sends (rd32 (u_mem s) file) (rd32 (u_mem s) (file + 4)) size ptr s Hs) as (r & s1 & E & H1 & H2 & H3).
  eapply wp_Ret; [exact E|]. apply wp_bind, wp_gets. apply wp_bind, wp_modify, wp_ret. split; [exact H1|]. cbn.
  split; [|exact H3]. rewrite H2. apply agrees_wr32; [done|lia|lia].
Qed.

Lemma fputc_sends m0 c s :
  agrees m0 s.(u_mem) lo hi -> wp (fputc trap v_character c file) (fun _ s' => sends m0 s [u8 c] s') s.
Proof.
  intros Ha. unfold fputc. apply wp_bind, wp_modify. eapply wp_mono; [apply fwrite_sends; [done|]|].
  - cbn. apply agrees_wr32; [done|lia|lia].
  - intros r s' (H1 & H2 & H3). split; [|by split]. rewrite H1. f_equal. cbn [u_mem set_u_mem]. unfold bytes_at.
    change (Z.to_nat 1) with 1%nat. cbn [seq fmap list_fmap]. change (Z.of_nat 0) with 0. rewrite Z.add_0_r, rd8_wr32_in by lia.
    rewrite Z.sub_diag. change (2 ^ (8 * 0)) with 1. rewrite Z.div_1_r. f_equal. apply u8_u32.
Qed.

Lemma fputs_sends m0 p l s :
  cstr s.(u_mem) p l -> Z.of_nat (length l) < 2 ^ 32 -> agrees m0 s.(u_mem) lo hi ->
  wp (fputs trap p file) (fun _ s' => sends m0 s l s') s.
Proof.
  intros Hc Hl Ha. unfold fputs. pose proof (cstr_size _ _ _ Hc). apply wp_bind, wp_in_mem.
  eapply wp_Ret.
  { unfold strlen, bind, Prelude.gets. by rewrite (libc_strlen_run _ p l); [|rewrite Z.add_0_r|unfold str_fuel; lia]. }
  replace (set_u_mem (u_mem s) s) with s by by destruct s.
  eapply wp_mono; [apply (fwrite_sends m0); [unfold is_u32; lia|done]|]. intros r s' H'.
  by rewrite Z.add_0_l, Nat2Z.id, bytes_at_cstr in H'.
Qed.

(** ** Numbers *)

Lemma memset_loop_rd n p v i m x :
  exists m', memset_loop n p v i m = Ret (tt, m') /\
    rd8 m' x = if decide (p + i <= x < p + i + Z.of_nat n) then u8 v else rd8 m x.
Proof.
  revert i m. induction n as [|n IH]; intros i m; cbn [memset_loop].
  - exists m. split; [done|]. rewrite decide_False by lia. done.
  - unfold bind, poke, modify. destruct (IH (i + 1) (wr8 m (p + i) v)) as (m' & -> & Hx). exists m'. split; [done|].
    rewrite Hx, rd8_wr8. repeat case_decide; done || lia.
Qed.

Lemma memset_zero p n m :
  exists m', memset p 0 n m = Ret (p, m') /\ forall x, rd8 m' x = if decide (p <= x < p + n) then 0 else rd8 m x.
Proof.
  unfold memset, bind. destruct (memset_loop_rd (Z.to_nat n) p 0 0 m 0) as (m' & E & _). exists m'. rewrite E. split; [done|].
  intros x. destruct (memset_loop_rd (Z.to_nat n) p 0 0 m x) as (m2 & E2 & Hx). rewrite E2 in E. simplify_eq.
  rewrite Hx, Z.add_0_r. repeat case_decide; done || lia.
Qed.

(** A function that writes the text [cs], at most 99 characters, into a buffer. *)
Lemma send_number_sends m0 (put : Z -> cmd mem Z) cs j s :
  (forall m, wp (put v_num) (fun r m' => r = Z.of_nat (length cs) /\
     (rd8 m (v_num + Z.of_nat (length cs)) = 0 -> rd8 m' (v_num + Z.of_nat (length cs)) = 0) /\ text_at m v_num cs m') m) ->
  Forall (fun c => 0 < c < 256) cs -> (length cs <= 99)%nat -> agrees m0 s.(u_mem) lo hi ->
  wp (send_number trap v_num put j file) (fun r s' => r = j + Z.of_nat (length cs) /\ sends m0 s cs s') s.
Proof.
  intros Hput Hcs Hlen Ha. unfold send_number. destruct (memset_zero v_num 100 s.(u_mem)) as (m1 & E1 & H1).
  apply wp_bind, wp_in_mem. eapply wp_Ret; [exact E1|]. apply wp_bind, wp_in_mem. cbn [u_mem set_u_mem].
  eapply wp_mono; [apply Hput|]. intros r m2 (-> & Hnul & Ht).
  assert (Hz : rd8 m1 (v_num + Z.of_nat (length cs)) = 0) by (rewrite H1, decide_True by lia; done).
  assert (Hc : cstr m2 v_num cs).
  { eapply (text_cstr m1); [done|done|]. intros x. destruct (decide (x = v_num + Z.of_nat (length cs))) as [->|Hne]; [|by apply Ht].
    rewrite put_bytes_out by lia. rewrite Hz. by apply Hnul. }
  assert (Ha2 : agrees m0 m2 lo hi).
  { intros x Hx. rewrite Ht by lia. rewrite put_bytes_out by lia. rewrite H1, decide_False by lia. by apply Ha. }
  apply wp_bind. eapply wp_mono; [apply (fputs_sends m0 v_num cs); [done|lia|done]|]. intros r s' H. apply wp_ret. by split.
Qed.

Lemma unsigned_bytes n : is_u32 n -> Forall (fun c => 0 < c < 256) (unsigned_string n) /\ (length (unsigned_string n) <= 99)%nat.
Proof.
  intros Hn. destruct (unsigned_string_spec n 0 Hn) as (Hall & _ & Hl & _). split; [|lia].
  eapply Forall_impl; [exact Hall|]. cbn. lia.
Qed.

Lemma hex_char_range n : 0 < hex_char (Z.land n 0xF) < 256.
Proof.
  unfold hex_char. change 15 with (Z.ones 4). rewrite Z.land_ones by lia.
  pose proof (Z.mod_pos_bound n (2 ^ 4) ltac:(lia)). case_zbool; lia.
Qed.

Lemma hex_digits_bytes k n b : Forall (fun c => 0 < c < 256) (hex_digits k n b) /\ (length (hex_digits k n b) <= S k)%nat.
Proof.
  revert b. induction k as [|k IH]; intros b; cbn [hex_digits].
  - split; [|done]. constructor; [apply hex_char_range|done].
  - destruct (_ && b); [destruct (IH b); split; [done|lia]|]. destruct (IH false) as [H1 H2]. cbn [length].
    split; [constructor; [apply hex_char_range|done]|lia].
Qed.

Lemma schar_u8 c : 0 <= c < 256 -> u8 (schar c) = c.
Proof. intros H. unfold schar, u8. case_zbool; zdm. Qed.

Lemma send_directive_sends m0 c a cs j args s :
  piece m0 lo hi c a cs -> Z.of_nat (length cs) < 2 ^ 32 -> agrees m0 s.(u_mem) lo hi ->
  wp (send_directive trap sputfpoint v_character v_num file c j (a :: args))
    (fun r s' => r = (j + Z.of_nat (length cs), args) /\ sends m0 s cs s') s.
Proof.
  intros Hp Hl Ha. unfold send_directive.
  assert (Hnum : forall put, (forall m, wp (put v_num) (fun r m' => r = Z.of_nat (length cs) /\
      (rd8 m (v_num + Z.of_nat (length cs)) = 0 -> rd8 m' (v_num + Z.of_nat (length cs)) = 0) /\ text_at m v_num cs m') m) ->
    Forall (fun c => 0 < c < 256) cs -> (length cs <= 99)%nat ->
    wp (j <- send_number trap v_num put j file ;; ret (j, args)) (fun r s' => r = (j + Z.of_nat (length cs), args) /\ sends m0 s cs s') s).
  { intros put Hput H1 H2. apply wp_bind. eapply wp_mono; [by apply (send_number_sends m0)|]. intros r s' [-> H]. by apply wp_ret. }
  destruct Hp as [(-> & Hc & Hap)|[[-> ->]|[[-> ->]|[[-> ->]|[-> ->]]]]]; cbn [Z.eqb Pos.eqb next_arg]; apply wp_bind, wp_ret; cbn [fst snd].
  - apply wp_bind. eapply wp_mono; [apply (fputs_sends m0 a cs); [by eapply agrees_cstr|done|done]|]. intros r s1 H1.
    destruct H1 as (H1 & Ha1 & H1').
    pose proof (agrees_cstr _ _ _ _ _ _ Ha1 Hap Hc) as Hc1. pose proof (cstr_size _ _ _ Hc1). apply wp_bind, wp_in_mem. eapply wp_Ret.
    { unfold strlen, bind, Prelude.gets. by rewrite (libc_strlen_run _ a cs); [|rewrite Z.add_0_r|unfold str_fuel; lia]. }
    apply wp_ret. split; [done|]. by split.
  - apply wp_bind. eapply wp_mono; [by apply (fputc_sends m0)|]. intros r s1 H1. apply wp_ret. split; [done|].
    by rewrite schar_u8 in H1 by apply u8_range.
  - destruct (int_chars_spec (i32 a) (i32_range a)) as [H1 H2]. apply Hnum; [|done|lia]. intros m.
    eapply wp_mono; [apply wp_both; [apply sputint_spec|apply sputint_cstr, i32_range]|]. cbn. intros r m' ([-> Ht] & _ & Hcs & _).
    split; [done|]. split; [|done]. intros _. pose proof (cstr_app m' v_num (int_chars (i32 a)) [] ltac:(by rewrite app_nil_r)). done.
  - destruct (unsigned_bytes (u32 a) (u32_range a)) as [H1 H2]. apply Hnum; [|done|done]. intros m.
    eapply wp_Ret; [apply sputuint_run|]. split; [done|]. split; [by rewrite rd8_wr8_same|apply text_nul].
  - destruct (hex_digits_bytes 7 (u32 a) true) as [H1 H2]. apply Hnum.
    + intros m. eapply wp_mono; [apply sputhex_exact|]. intros r m' [-> ->]. split; [done|]. split; [|apply text_exact].
      by rewrite put_bytes_out by lia.
    + unfold hex_text. by repeat constructor.
    + unfold hex_text. cbn [length]. lia.
Qed.

Lemma send_other_sends m0 c j args s :
  c ∉ directives -> 0 <= c < 256 -> agrees m0 s.(u_mem) lo hi ->
  wp (send_directive trap sputfpoint v_character v_num file c j args)
    (fun r s' => r = (j + 1, args) /\ sends m0 s [c] s') s.
Proof.
  intros Hc Hb Ha. unfold send_directive, directives in *. rewrite !(proj2 (Z.eqb_neq c _)) by set_solver.
  apply wp_bind. eapply wp_mono; [by apply (fputc_sends m0)|]. intros r s1 H1. apply wp_ret. by rewrite schar_u8 in H1.
Qed.

(** What is left of the format when the state is [s]. *)
Definition printed_from (m0 : mem) (s : ustate W) (j : Z) (out : list Z) (r : Z) (s' : ustate W) : Prop :=
  r = j + Z.of_nat (length out) /\ sends m0 s out s'.

(** A [%] and its directive. *)
Lemma percent_sends m0 format fuel i j c fmt args args' cs out s :
  rest_at m0 s.(u_mem) lo hi format i (37 :: c :: fmt) ->
  wp (send_directive trap sputfpoint v_character v_num file c j args)
    (fun r s1 => r = (j + Z.of_nat (length cs), args') /\ sends m0 s cs s1) s ->
  (forall s1, rest_at m0 s1.(u_mem) lo hi format (i + 2) fmt ->
    wp (vfprintf_loop trap sputfpoint v_character v_num fuel file format (i + 2) (j + Z.of_nat (length cs)) args')
      (printed_from m0 s1 (j + Z.of_nat (length cs)) out) s1) ->
  wp (vfprintf_loop trap sputfpoint v_character v_num (S fuel) file format i j args) (printed_from m0 s j (cs ++ out)) s.
Proof.
  intros Hrest Hput Hgo. cbn [vfprintf_loop].
  destruct (rest_cons _ _ _ _ _ _ _ _ Hrest) as (Hh & _ & _ & Hnext). pose proof Hrest as (_ & _ & Ha).
  destruct (rest_cons _ _ _ _ _ _ _ _ (Hnext _ Ha)) as (Hh2 & _ & _ & Hnext2).
  apply wp_bind, wp_in_mem, wp_gets. rewrite Hh. cbn [Z.eqb Pos.eqb]. apply wp_bind, wp_in_mem, wp_gets.
  replace (set_u_mem (u_mem s) s) with s by by destruct s. rewrite Hh2.
  replace (set_u_mem (u_mem s) s) with s by by destruct s.
  apply wp_bind. eapply wp_mono; [exact Hput|]. intros r s1 [-> H1]. cbn [fst snd]. eapply wp_mono; [apply Hgo|].
  - replace (i + 2) with (i + 1 + 1) by lia. apply Hnext2, H1.
  - intros r s' [-> H2]. split; [rewrite length_app; lia|]. by eapply sends_trans.
Qed.

Lemma vfprintf_loop_sends m0 format fmt args out :
  expands m0 lo hi fmt args out -> Z.of_nat (length out) < 2 ^ 32 ->
  forall fuel i j s, rest_at m0 s.(u_mem) lo hi format i fmt -> (length fmt < fuel)%nat ->
    wp (vfprintf_loop trap sputfpoint v_character v_num fuel file format i j args) (printed_from m0 s j out) s.
Proof.
  assert (Harg : forall c a cs fmt args out,
    piece m0 lo hi c a cs -> Z.of_nat (length (cs ++ out)) < 2 ^ 32 ->
    (forall fuel i j s, rest_at m0 s.(u_mem) lo hi format i fmt -> (length fmt < fuel)%nat ->
      wp (vfprintf_loop trap sputfpoint v_character v_num fuel file format i j args) (printed_from m0 s j out) s) ->
    forall fuel i j s, rest_at m0 s.(u_mem) lo hi format i (37 :: c :: fmt) -> (S (S (length fmt)) < fuel)%nat ->
      wp (vfprintf_loop trap sputfpoint v_character v_num fuel file format i j (a :: args)) (printed_from m0 s j (cs ++ out)) s).
  { intros c a cs fmt' args' out' Hp Hl IH [|fuel] i j s Hrest Hf; [lia|]. rewrite length_app in Hl.
    eapply percent_sends; [exact Hrest| |].
    - apply (send_directive_sends m0); [done|lia|apply Hrest].
    - intros s1 Hr1. apply IH; [exact Hr1|lia]. }
  induction 1 as [args|c fmt args out Hc _ IH|c fmt args out Hc _ IH|a l fmt args out Hl Hap _ IH|a fmt args out _ IH|a fmt args out _ IH|a fmt args out _ IH|a fmt args out _ IH];
    intros Hlen.
  - intros [|fuel] i j s (Hc & Hap & Ha) Hf; [cbn in Hf; lia|]. cbn [vfprintf_loop].
    pose proof (agrees_cstr _ _ _ _ _ _ Ha Hap Hc) as Hz. cbn in Hz.
    apply wp_bind, wp_in_mem, wp_gets. rewrite Hz. apply wp_ret. split; [cbn; lia|]. split; [by rewrite app_nil_r|done].
  - intros [|fuel] i j s Hrest Hf; [cbn in Hf; lia|]. cbn [vfprintf_loop]. cbn [length] in *.
    destruct (rest_cons _ _ _ _ _ _ _ _ Hrest) as (Hh & Hnz & Hb & Hnext).
    apply wp_bind, wp_in_mem, wp_gets. rewrite Hh, (proj2 (Z.eqb_neq c 0)), (proj2 (Z.eqb_neq c 37)) by done.
    replace (set_u_mem (u_mem s) s) with s by by destruct s.
    apply wp_bind. eapply wp_mono; [apply (fputc_sends m0); apply Hrest|]. intros r s1 H1. rewrite schar_u8 in H1 by done.
    eapply wp_mono; [apply IH; [lia|apply Hnext, H1|lia]|]. intros r' s' [-> H2]. split; [cbn [length]; lia|]. exact (sends_trans _ _ [c] _ _ _ H1 H2).
  - intros [|fuel] i j s Hrest Hf; [cbn in Hf; lia|]. cbn [length] in Hf, Hlen.
    destruct (rest_cons _ _ _ _ _ _ _ _ Hrest) as (_ & _ & _ & Hnext). pose proof Hrest as (_ & _ & Ha).
    destruct (rest_cons _ _ _ _ _ _ _ _ (Hnext _ Ha)) as (_ & _ & Hb & _).
    apply (percent_sends m0 format fuel i j c fmt args args [c] out); [exact Hrest| |].
    + by apply (send_other_sends m0).
    + intros s1 Hr1. apply IH; [lia|exact Hr1|lia].
  - apply Harg; [by left|done|apply IH; rewrite length_app in Hlen; lia].
  - apply (Harg 99 a [u8 a]); [right; by left|done|apply IH; cbn in Hlen; lia].
  - rewrite <- int_chars_decimal in * by apply i32_range.
    apply Harg; [do 2 right; by left|done|apply IH; rewrite length_app in Hlen; lia].
  - rewrite <- unsigned_decimal in * by apply u32_range.
    apply Harg; [do 3 right; by left|done|apply IH; rewrite length_app in Hlen; lia].
  - rewrite <- hex_text_hexadecimal in * by apply u32_range.
    apply Harg; [do 4 right; done|done|apply IH; rewrite length_app in Hlen; lia].
Qed.

(** C20: [printf] sends the text of its format to the kernel, in order and nothing
    else, by however many write calls it takes: for every format with [%s], [%c],
    [%d], [%u] and [%x] (not [%f]) that lies with its strings outside the scratch
    memory of the printing functions, it returns the length of the text, the
    bytes sent are the text, and only scratch memory changes.  The text of a
    number is its decimal digits, or [0x] and its digits in base 16.  The kernel
    is the hypothesis that a write call sends the bytes it is given. *)
Theorem printf_sends s format fmt args out :
  s.(u_stdout) = file -> cstr s.(u_mem) format fmt -> expands s.(u_mem) lo hi fmt args out ->
  format + Z.of_nat (length fmt) < lo \/ hi < format -> Z.of_nat (length out) < 2 ^ 32 ->
  exists s', printf trap sputfpoint v_character v_num format args s = Ret (Z.of_nat (length out), s') /\
    sent s'.(u_world) = sent s.(u_world) ++ out /\ agrees s.(u_mem) s'.(u_mem) lo hi.
Proof.
  intros Hout Hc He Hap Hlen.
  assert (Hwp : wp (printf trap sputfpoint v_character v_num format args) (printed_from s.(u_mem) s 0 out) s).
  { unfold printf, vfprintf. apply wp_bind, wp_gets. rewrite Hout.
    destruct (memset_zero v_num 100 s.(u_mem)) as (m1 & E1 & H1). apply wp_bind, wp_in_mem. eapply wp_Ret; [exact E1|].
    assert (Ha : agrees s.(u_mem) m1 lo hi) by (intros x Hx; by rewrite H1, decide_False by lia).
    pose proof (cstr_size _ _ _ (agrees_cstr _ _ _ _ _ _ Ha Hap Hc)) as Hsz. apply wp_bind, wp_gets. cbn [u_mem set_u_mem].
    eapply wp_mono; [eapply vfprintf_loop_sends; [exact He|exact Hlen| |unfold str_fuel; lia]|].
    - unfold rest_at. cbn [u_mem set_u_mem]. rewrite Z.add_0_r. by split; [|split].
    - intros r s' [-> H]. split; [done|]. exact H. }
  destruct (wp_inv _ _ _ Hwp) as (r & s' & E & -> & H2 & H3 & _). exists s'. rewrite Z.add_0_l in E. split; [exact E|]. split; [exact H2|exact H3].
Qed.
End sending.

(** A kernel that keeps what it is given. *)
Definition console (n : Z) (args : list Z) : cmd (ustate (list Z)) Z := fun s =>
  match args with
  | [_; _; size; buf] =>
      Ret (size, UState s.(u_mem) s.(u_stdin) s.(u_stdout) s.(u_stderr)
             (s.(u_world) ++ bytes_at s.(u_mem) buf (Z.to_nat size)))
  | _ => Ret (-1, s)
  end.
Definition demo_program : ustate (list Z) := UState demo_print 0x900 0x910 0x920 [].

Lemma printf_sends_witness :
  exists s', printf console no_float 0x930 0x940 100 [120; -7] demo_program = Ret (4, s') /\
    s'.(u_world) = [110; 61; 45; 55] /\ agrees demo_print s'.(u_mem) 0x900 0xA00.
Proof.
  apply (printf_sends console no_float 0x930 0x940 (fun l => l)) with (file := 0x910) (fmt := [37; 115; 61; 37; 100]) (out := [110; 61; 45; 55]);
    first [lia|done|idtac].
  - intros id start size buf s _. by do 2 eexists.
  - apply (ex_string _ _ _ 120 [110]); [by vm_compute|left; cbn; lia|]. apply ex_lit; [done|].
    apply (ex_int _ _ _ (-7) [] [] []). apply ex_nil.
  - left. cbn. lia.
Defined.
