(* ===== verification/UserHeap.v ===== *)
(** [malloc] and [free] of [libraries/libc/stdlib.c] as user programs see them:
    the interface [UserHeap], and the heap of [libraries/alloc.c] as its
    instance.

    A program's memory is that of [Scalls.ustate]; what the allocator keeps
    outside it (the record [heap] and the pages of the process) is part of the
    world. *)
From stdpp Require Import base numbers gmap list.
From S2P Require Import Prelude Kmem Allocator Heap Scalls.

(** Bytes of the blocks [l] or below [base], where static data lies. *)
Definition in_blocks (l : gmap Z Z) (x : Z) : Prop := exists p z, l !! p = Some z /\ p <= x < p + z.
Definition kept (base : Z) (l : gmap Z Z) (m m' : mem) : Prop :=
  forall x, x < base \/ in_blocks l x -> rd8 m' x = rd8 m x.
Definition same_streams {W} (s s' : ustate W) : Prop :=
  s'.(u_stdin) = s.(u_stdin) /\ s'.(u_stdout) = s.(u_stdout) /\ s'.(u_stderr) = s.(u_stderr).

(** What one request may take beyond its size: a header, padding and a page. *)
Definition SLACK : Z := 4112.

(** [u_heap r l s]: the blocks in use are [l], by address, and requests of [r]
    bytes, their slack included, still fit.  [u_write]: the program may write to
    its blocks and its static data. *)
Class UserHeap (W : Type) := {
  u_malloc : Z -> cmd (ustate W) Z;
  u_free : Z -> cmd (ustate W) unit;
  u_base : Z;
  u_heap : Z -> gmap Z Z -> ustate W -> Prop;
  u_bounds : forall r l s p z, u_heap r l s -> l !! p = Some z -> u_base <= p /\ 0 < p /\ 0 <= z /\ p + z < 2 ^ 32;
  u_apart : forall r l s p z q y, u_heap r l s -> l !! p = Some z -> l !! q = Some y -> p <> q ->
    p + z <= q \/ q + y <= p;
  u_malloc_ok : forall n r l s, u_heap r l s -> 0 <= n <= 2 ^ 30 -> n + SLACK <= r ->
    wp (u_malloc n) (fun p s' => exists z, n <= z /\ l !! p = None /\ u_heap (r - n - SLACK) (<[p := z]> l) s' /\
      zeroed s'.(u_mem) p z /\ kept u_base l s.(u_mem) s'.(u_mem) /\ same_streams s s') s;
  u_free_ok : forall p z r l s, u_heap r l s -> l !! p = Some z ->
    wp (u_free p) (fun _ s' => u_heap r (delete p l) s' /\ kept u_base l s.(u_mem) s'.(u_mem) /\ same_streams s s') s;
  u_write : forall r l s m', u_heap r l s ->
    (forall x, u_base <= x -> ~ in_blocks l x -> rd8 m' x = rd8 s.(u_mem) x) -> u_heap r l (set_u_mem m' s)
}.

(** ** The heap of [alloc.c] *)

(** The world of a program: the record [heap], its pages, everything else. *)
Record uworld (P V : Type) := UWorld {
  uw_allocated : Z; uw_start : Z; uw_end : Z; uw_head : Z; uw_pages : P; uw_rest : V
}.
Arguments UWorld {P V}.
Arguments uw_allocated {P V}.
Arguments uw_start {P V}.
Arguments uw_end {P V}.
Arguments uw_head {P V}.
Arguments uw_pages {P V}.
Arguments uw_rest {P V}.

Section instance.
Context {P V : Type} `{Sbrk P}.
#[local] Abbreviation program := (ustate (uworld P V)).

Definition heap_of (s : program) : hstate P :=
  HState s.(u_world).(uw_allocated) s.(u_world).(uw_start) s.(u_world).(uw_end) s.(u_world).(uw_head)
         s.(u_mem) s.(u_world).(uw_pages).
Definition set_heap (h : hstate P) (s : program) : program :=
  UState h.(h_mem) s.(u_stdin) s.(u_stdout) s.(u_stderr)
         (UWorld h.(allocated_size) h.(h_start) h.(h_end) h.(h_head) h.(h_pages) s.(u_world).(uw_rest)).
Definition on_heap {B} (c : cmd (hstate P) B) : cmd program B := fun s =>
  match c (heap_of s) with Ret (b, h) => Ret (b, set_heap h s) | Fault => Fault | Hang => Hang end.

Definition malloc (size : Z) : cmd program Z := on_heap (alloc_allocate (u32 size)).
Definition free (ptr : Z) : cmd program unit := on_heap (alloc_free ptr).
Definition realloc (ptr size : Z) : cmd program Z :=
  if size =? 0 then free ptr ;;; ret 0
  else if ptr =? 0 then malloc size
  else on_heap (alloc_reallocate ptr (u32 size)).

Definition heap_blocks_are (r : Z) (l : gmap Z Z) (s : program) : Prop := exists bs,
  bs <> [] /\ heap_rep (heap_of s) bs /\ sbrk_ok s.(u_world).(uw_end) s.(u_world).(uw_pages) /\
  ALLOC_HEAP_START <= s.(u_world).(uw_start) /\ s.(u_world).(uw_end) + r < 2 ^ 32 /\
  forall p z, l !! p = Some z <-> (p, z) ∈ live s.(u_world).(uw_start) bs.

Lemma malloc_law n r l s :
  heap_blocks_are r l s -> 0 <= n <= 2 ^ 30 -> n + SLACK <= r ->
  wp (malloc n) (fun p s' => exists z, n <= z /\ l !! p = None /\ heap_blocks_are (r - n - SLACK) (<[p := z]> l) s' /\
    zeroed s'.(u_mem) p z /\ kept ALLOC_HEAP_START l s.(u_mem) s'.(u_mem) /\ same_streams s s') s.
Proof.
  intros (bs & Hne & Hrep & Hsb & Hst & Hr & Hl) Hn Hnr. unfold SLACK in *. unfold malloc. rewrite u32_small by lia.
  destruct (wp_inv _ _ _ (malloc_body_correct alloc_increase_memory sbrk_ok (2 ^ 32) ltac:(done) alloc_increase_ok
    n (heap_of s) bs Hrep ltac:(unfold room; split_and!; [lia|lia|cbn; lia|done|intros Hh; exfalso;
      destruct Hrep as (? & _ & Hm); destruct bs; [done|]; destruct Hm; lia])))
    as (p & h & Hrun & bs' & z & Hrep' & Hst' & Hp0 & Hz & Hlv & Hzero & Hk & Hend & Hg & Hbelow).
  eapply wp_Ret; [unfold on_heap, alloc_allocate; by rewrite Hrun|]. exists z.
  assert (Hnd : NoDup ((p, z) :: live (h_start (heap_of s)) bs).*1).
  { rewrite <- Hlv, <- Hst'. by apply heap_live_nodup. }
  cbn [fmap list_fmap fst] in Hnd. apply NoDup_cons in Hnd as [Hp _].
  assert (Hnone : l !! p = None).
  { destruct (l !! p) as [y|] eqn:E; [|done]. apply Hl in E. exfalso. apply Hp.
    apply list_elem_of_fmap. by exists (p, y). }
  split_and!; try done.
  - exists bs'. split_and!; cbn [u_world set_heap uw_start uw_end uw_pages].
    + intros ->. cbn in Hlv. by apply Permutation_nil_cons in Hlv.
    + by destruct h.
    + done.
    + rewrite Hst'. exact Hst.
    + cbn in Hend. lia.
    + intros q y. rewrite Hst', Hlv, elem_of_cons, lookup_insert_Some. rewrite (Hl q y). split.
      * intros [[-> ->]|[_ ?]]; [by left|by right].
      * intros [E|Hin]; [left; simplify_eq; done|]. right. split; [|done]. intros ->. apply Hl in Hin. congruence.
  - intros x [Hx|(q & y & Hq & Hx)]; cbn [u_mem set_heap]; [apply Hbelow; cbn; lia|].
    eapply Hk; [by apply Hl|done].
Qed.

Lemma free_law p z r l s :
  heap_blocks_are r l s -> l !! p = Some z ->
  wp (free p) (fun _ s' => heap_blocks_are r (delete p l) s' /\ kept ALLOC_HEAP_START l s.(u_mem) s'.(u_mem) /\
    same_streams s s') s.
Proof.
  intros (bs & Hne & Hrep & Hsb & Hst & Hr & Hl) Hp. apply Hl in Hp.
  pose proof (rep_bounds _ _ _ _ Hrep Hp) as (Hb & Hz & _). cbn [h_start heap_of] in Hb. unfold ALLOC_HEAP_START in *.
  destruct (wp_inv _ _ _ (kern_free_spec (heap_of s) bs p z Hrep Hp))
    as ([] & h & Hrun & bs' & Hrep' & Hst' & Hend & Hpg & Hhd & Hlv & Hk).
  assert (Hbyte : forall x, x < s.(u_world).(uw_start) -> rd8 h.(h_mem) x = rd8 s.(u_mem) x).
  { pose proof Hrun as Hr'. unfold kern_free, set_present, bind, deref in Hr'. destruct (Z.eqb_spec (u32 (p - SIZEOF_KALLOC)) 0); [done|].
    unfold ret, modify in Hr'. injection Hr' as <-. intros x Hx. cbn [h_mem set_mem heap_of]. apply rd8_wr8_ne. pose proof (rep_bounds _ _ _ _ Hrep Hp).
    unfold SIZEOF_KALLOC. cbn in *. rewrite u32_small by lia. lia. }
  eapply wp_Ret; [unfold free, on_heap, alloc_free; by rewrite Hrun|].
  assert (Hnd : NoDup ((p, z) :: live (h_start (heap_of s)) bs').*1) by (rewrite Hlv; by apply heap_live_nodup).
  cbn [fmap list_fmap fst] in Hnd. apply NoDup_cons in Hnd as [Hpn _].
  split_and!; try done.
  - exists bs'. split_and!; cbn [u_world set_heap uw_start uw_end uw_pages].
    + intros ->. destruct Hrep' as (_ & _ & Hh0), Hrep as (Hs0 & _ & Hm). destruct bs; [done|]. destruct Hm as [Hh1 _]. lia.
    + by destruct h.
    + by rewrite Hend, Hpg.
    + by rewrite Hst'.
    + by rewrite Hend.
    + intros q y. rewrite Hst', lookup_delete_Some, (Hl q y), <- Hlv, elem_of_cons. split.
      * intros [Hqp [E|?]]; [simplify_eq|done].
      * intros Hin. split; [|by right]. intros ->. apply Hpn. apply list_elem_of_fmap. by exists (q, y).
  - intros x [Hx|(q & y & Hq & Hx)]; cbn [u_mem set_heap]; [apply Hbyte; lia|]. eapply Hk; [by apply Hl|done].
Qed.

Lemma write_law r l s m' :
  heap_blocks_are r l s -> (forall x, ALLOC_HEAP_START <= x -> ~ in_blocks l x -> rd8 m' x = rd8 s.(u_mem) x) ->
  heap_blocks_are r l (set_u_mem m' s).
Proof.
  intros (bs & Hne & Hrep & Hsb & Hst & Hr & Hl) Hx. exists bs. split; [done|]. split; [|by split_and!].
  apply (heap_rep_write (heap_of s) bs (fun _ => m') Hrep). intros x Hx' Hq. apply Hx; [cbn in Hx'; lia|].
  intros (q & z & Hqz & Hin). apply Hl in Hqz. destruct (Hq q z Hqz); lia.
Qed.

Lemma heap_blocks_bounds r l s p z :
  heap_blocks_are r l s -> l !! p = Some z -> ALLOC_HEAP_START <= p /\ 0 < p /\ 0 <= z /\ p + z < 2 ^ 32.
Proof.
  intros (bs & _ & Hrep & _ & Hst & _ & Hl) Hp. apply Hl in Hp. destruct (rep_bounds _ _ _ _ Hrep Hp) as (? & ? & ?).
  cbn in *. unfold ALLOC_HEAP_START in *. lia.
Qed.

Lemma heap_blocks_apart r l s p z q y :
  heap_blocks_are r l s -> l !! p = Some z -> l !! q = Some y -> p <> q -> p + z <= q \/ q + y <= p.
Proof.
  intros (bs & _ & Hrep & _ & _ & _ & Hl) Hp Hq Hne. apply Hl in Hp, Hq. by apply (heap_live_apart (heap_of s) bs).
Qed.

#[export] Instance alloc_user_heap : UserHeap (uworld P V) := {|
  u_malloc := malloc; u_free := free; u_base := ALLOC_HEAP_START; u_heap := heap_blocks_are;
  u_bounds := heap_blocks_bounds; u_apart := heap_blocks_apart; u_malloc_ok := malloc_law; u_free_ok := free_law; u_write := write_law
|}.
End instance.
