(* ===== verification/Start.v ===== *)
(** A whole program run, [libraries/bootstrap.c], and [atexit] of
    [libraries/libc/stdlib.c]: what [Bootstrap] proves of the arguments, put on the
    state of a program, up to the call of [main] and the exit. *)
From stdpp Require Import base numbers gmap list.
From S2P Require Import Prelude Kmem Allocator Heap KString Libc Loader Bootstrap Scalls Stdio UserHeap.

Definition SIZEOF_AT_EXIT : Z := 8.

(** [caller] is a static variable of a header: [stdlib.c] and [bootstrap.c] each
    have one of their own. *)
Section callbacks.
Context {W : Type} `{UserHeap W}.
Variables g_stdlib_caller g_bootstrap_caller : Z.
(** The code of a function, by its address. *)
Variable call_function : Z -> cmd (ustate W) unit.

Definition atexit (callback : Z) : cmd (ustate W) Z :=
  call <- u_malloc SIZEOF_AT_EXIT ;;
  if call =? 0 then ret (-1)
  else
    next <- load g_stdlib_caller ;;
    store_word (call + 4) next ;;;
    store_word call callback ;;;
    store_word g_stdlib_caller call ;;;
    ret 0.

(** [while(caller != NULL)] *)
Fixpoint run_callers (fuel : nat) : cmd (ustate W) unit :=
  match fuel with
  | O => hang
  | S fuel' =>
      caller <- load g_bootstrap_caller ;;
      if caller =? 0 then ret tt
      else
        callback <- load caller ;;
        call_function callback ;;;
        caller <- load g_bootstrap_caller ;;
        next <- load (caller + 4) ;;
        store_word g_bootstrap_caller next ;;;
        run_callers fuel'
  end.

(** A function registered with [atexit] is not called: the list that is walked at
    the exit is another one. *)
Lemma atexit_not_run fuel callback r l s :
  u_heap r l s -> SIZEOF_AT_EXIT + SLACK <= r ->
  g_bootstrap_caller + 4 <= g_stdlib_caller \/ g_stdlib_caller + 4 <= g_bootstrap_caller ->
  g_bootstrap_caller + 4 <= u_base -> rd32 s.(u_mem) g_bootstrap_caller = 0 ->
  wp (atexit callback ;;; run_callers (S fuel)) (fun _ s' => rd32 s'.(u_mem) g_bootstrap_caller = 0) s.
Proof.
  intros Hh Hr Hne Hb Hz. unfold atexit. apply wp_bind, wp_bind. eapply wp_mono.
  { apply (u_malloc_ok SIZEOF_AT_EXIT r l s Hh); [done|done]. }
  intros p s1 (z & Hz1 & _ & Hh1 & _ & Hk & _).
  destruct (u_bounds _ _ _ p z Hh1 (lookup_insert_eq _ _ _)) as (Hp & Hp0 & _).
  destruct (Z.eqb_spec p 0) as [->|_]; [lia|].
  apply wp_bind, wp_gets. do 3 apply wp_bind, wp_modify. apply wp_ret.
  cbn [run_callers]. apply wp_bind, wp_gets. cbn [u_mem set_u_mem].
  assert (rd32 (wr32 (wr32 (wr32 (u_mem s1) (p + 4) (rd32 (u_mem s1) g_stdlib_caller)) p callback) g_stdlib_caller p) g_bootstrap_caller = 0) as Hn.
  { rewrite !rd32_wr32_ne by lia. rewrite <- Hz. apply rd32_ext. intros x Hx. apply Hk. left. lia. }
  rewrite Hn. cbn [Z.eqb]. by apply wp_ret.
Qed.
End callbacks.

(** ** The run *)

Section run.
Context {P V : Type} `{Sbrk P}.
#[local] Abbreviation program := (ustate (uworld P V)).
Variable trap : Z -> list Z -> cmd program Z.
Variables stdin_s stdout_s stderr_s : Z.
Variables g_optind g_bootstrap_caller : Z.
Variable call_function : Z -> cmd program unit.

(** [fuel] bounds the functions registered for the exit. *)
Definition bootstrap (fuel : nat) (main : Z -> Z -> cmd program Z) (magic heap_end argv_total_length argc : Z) : cmd program unit :=
  if negb (magic =? BOOTSTRAP_MAGIC) then exit trap (-999)
  else
    stdio_init stdin_s stdout_s stderr_s ;;;
    r <- on_heap (alloc_initialise argv_total_length heap_end) ;;
    if r =? -1 then exit trap (-9999)
    else
      arguments <- malloc (u32 (4 * argc)) ;;
      on_heap (parse_arguments (Z.to_nat argc) arguments 0 ALLOC_HEAP_START) ;;;
      store_word g_optind 1 ;;;
      ret_ <- main argc arguments ;;
      run_callers g_bootstrap_caller call_function fuel ;;;
      exit trap ret_.

Lemma heap_of_set_heap (h : hstate P) (s : program) : heap_of (set_heap h s) = h.
Proof. by destruct h. Qed.

(** What runs before [main], as one command on the heap. *)
Lemma bootstrap_split fuel main heap_end total argc s :
  bootstrap fuel main BOOTSTRAP_MAGIC heap_end total argc s =
  (arguments <- on_heap (bootstrap_arguments heap_end total argc) ;;
   store_word g_optind 1 ;;;
   ret_ <- main argc arguments ;;
   run_callers g_bootstrap_caller call_function fuel ;;;
   exit trap ret_) (UState s.(u_mem) stdin_s stdout_s stderr_s s.(u_world)).
Proof.
  unfold bootstrap, bootstrap_arguments, alloc_initialise, malloc. rewrite Z.eqb_refl, u32_idemp. cbn [negb].
  unfold on_heap, stdio_init, bind, modify, ret. cbn [Z.eqb]. rewrite heap_of_set_heap.
  destruct (alloc_allocate (u32 (4 * argc)) _) as [[a h1]| |]; [|done|done]. rewrite heap_of_set_heap.
  by destruct (parse_arguments (Z.to_nat argc) a 0 ALLOC_HEAP_START h1) as [[[] h2]| |].
Qed.

(** The callbacks walked at the exit are those of [bootstrap.c]'s own list; when
    it is empty the exit follows at once. *)
Lemma run_callers_none fuel (s : program) :
  rd32 s.(u_mem) g_bootstrap_caller = 0 -> run_callers g_bootstrap_caller call_function (S fuel) s = Ret (tt, s).
Proof. intros Hz. cbn [run_callers]. unfold load, bind, Prelude.gets. by rewrite Hz. Qed.

(** C15: A program starts with its arguments and ends with the value of [main].
    The kernel left the strings, without zero bytes inside, one behind the other
    at the start of the heap, and passes their total and their number; the array
    of pointers has to fit the first page behind them, and the heap has to be
    able to grow by a page for each string.  Then [bootstrap] calls [main] in a
    state [s1] with the standard streams set up, [optind] 1, the number of the
    strings and an array whose elements point to blocks of their own, each with
    the string of that index.  Where [main] returns [ret], and the list of
    functions that [bootstrap.c] walks is empty, the program exits with [ret].
    That list is not the one [atexit] extends, so functions registered with
    [atexit] are not called. *)
Theorem bootstrap_runs_main fuel heap_end strings (s : program) :
  let total := total_bytes strings in let argc := Z.of_nat (length strings) in
  laid s.(u_mem) ALLOC_HEAP_START strings -> printable strings ->
  ALLOC_HEAP_START + total + 9 + 4 * argc < heap_end -> heap_end + 4 * argc + 4112 + budget strings < 2 ^ 32 ->
  total <= 2 ^ 30 -> sbrk_ok heap_end s.(u_world).(uw_pages) -> g_optind + 4 <= ALLOC_HEAP_START ->
  exists arguments s1,
    let argv k := rd32 s1.(u_mem) (arguments + 4 * k) in
    s1.(u_stdin) = stdin_s /\ s1.(u_stdout) = stdout_s /\ s1.(u_stderr) = stderr_s /\ rd32 s1.(u_mem) g_optind = 1 /\
    (forall k str, strings !! k = Some str -> argv (Z.of_nat k) <> 0 /\ cstr s1.(u_mem) (argv (Z.of_nat k)) str) /\
    (forall j k, 0 <= j < k -> k < argc -> argv j <> argv k) /\
    forall main ret_ s2, main argc arguments s1 = Ret (ret_, s2) -> rd32 s2.(u_mem) g_bootstrap_caller = 0 ->
      bootstrap (S fuel) main BOOTSTRAP_MAGIC heap_end total argc s = (exit trap ret_ : cmd program unit) s2.
Proof.
  intros total argc Hl Hpr He Ht Hs Hsb Ho. set (s0 := UState s.(u_mem) stdin_s stdout_s stderr_s s.(u_world) : program).
  destruct (wp_inv _ _ _ (bootstrap_argv (heap_of s0) strings heap_end Hl Hpr He Ht Hs Hsb)) as (a & h & Hrun & Ha & Hargs & Hne).
  set (m1 := wr32 h.(h_mem) g_optind 1).
  assert (Hw : forall k, 0 <= k -> rd32 m1 (a + 4 * k) = rd32 h.(h_mem) (a + 4 * k)) by (intros k Hk; apply rd32_wr32_ne; lia).
  exists a, (set_u_mem m1 (set_heap h s0)). cbn [u_stdin u_stdout u_stderr u_mem set_u_mem set_heap]. split_and!; [done..| | | |].
  - unfold m1. by rewrite rd32_wr32_u32.
  - intros k str Hk. rewrite Hw by lia. destruct (Hargs k str Hk) as [Hlow Hc]. unfold ALLOC_HEAP_START in Hlow. split; [lia|].
    eapply cstr_ext; [|exact Hc]. intros x Hx. unfold m1. apply rd8_wr32_ne. unfold ALLOC_HEAP_START in Ho. lia.
  - intros j k Hj Hk. rewrite !Hw by lia. by apply Hne.
  - intros main ret_ s2 Hmain Hz. rewrite bootstrap_split. unfold bind at 1, on_heap. fold s0. fold total argc in Hrun. rewrite Hrun.
    unfold bind at 1, store_word, modify. unfold bind at 1. cbn [u_mem set_heap]. fold m1. rewrite Hmain.
    unfold bind. by rewrite run_callers_none.
Qed.

(** A program without the magic number on its stack exits at once. *)
Lemma bootstrap_rejects fuel main magic heap_end total argc s :
  magic <> BOOTSTRAP_MAGIC -> bootstrap fuel main magic heap_end total argc s = (exit trap (-999) : cmd program unit) s.
Proof. intros Hm. unfold bootstrap. by destruct (Z.eqb_spec magic BOOTSTRAP_MAGIC). Qed.
End run.

(** [ls -l], with a [main] that returns the number of its arguments. *)
#[local] Instance start_sbrk : Sbrk Z := {| Heap.sbrk := page_sbrk; sbrk_ok := eq; sbrk_grows := page_sbrk_grows |}.
Definition demo_start : ustate (uworld Z unit) :=
  UState demo_args_heap.(h_mem) 0 0 0 (UWorld 0 0 0 0 0x50001000 tt).

(** The kernel records the status it is given. *)
Definition demo_exit (n : Z) (args : list Z) : cmd (ustate (uworld Z unit)) Z :=
  modify (set_u_mem (wr32 ∅ 0x800 (nth 0 args 0))) ;;; ret 0.

Lemma bootstrap_runs_main_witness : exists arguments s1,
  cstr s1.(u_mem) (rd32 s1.(u_mem) (arguments + 4 * 1)) [45; 108] /\
  bootstrap demo_exit 0x100 0x110 0x120 0x130 0x140 (fun _ => ret tt) 1 (fun argc _ => modify (set_u_mem ∅) ;;; ret argc)
    BOOTSTRAP_MAGIC 0x50001000 6 2 demo_start =
  (exit demo_exit 2 : cmd _ unit) (set_u_mem ∅ s1).
Proof.
  destruct (bootstrap_runs_main demo_exit 0x100 0x110 0x120 0x130 0x140 (fun _ => ret tt) 0 0x50001000 demo_args demo_start)
    as (a & s1 & _ & _ & _ & _ & Hargs & _ & Hrun).
  - exact demo_args_laid.
  - by repeat constructor.
  - by vm_compute.
  - by vm_compute.
  - by vm_compute.
  - reflexivity.
  - by vm_compute.
  - exists a, s1. split; [by apply (Hargs 1%nat [45; 108])|].
    exact (Hrun (fun argc _ => modify (set_u_mem ∅) ;;; ret argc) 2 (set_u_mem ∅ s1) eq_refl eq_refl).
Defined.
