(* ===== verification/Bmp.v ===== *)
(** The bitmap library, [libraries/libbmp/libbmp.c].

    An image is three words (header, info header, file); the headers are the
    first 14 and the next 40 bytes of the file.  A pixel of the file is three
    bytes, blue first; rows are stored from the bottom up.  What the library
    reads goes through [fread] of [Stdio] and the system call behind it. *)
From stdpp Require Import base numbers gmap list strings.
From S2P Require Import Prelude Text Kmem KString Libc Heap Scalls Stdio UserHeap StdioOut.

Definition SIZEOF_BMP_HDR : Z := 14.
Definition SIZEOF_BMP_INFO : Z := 40.
Definition SIZEOF_BMP_IMG : Z := 12.
Definition SIZEOF_BMP_PIX : Z := 3.

Section bmp.
Context {W : Type} `{UserHeap W}.
Variable trap : Z -> list Z -> cmd (ustate W) Z.
Variable lit : string -> Z.
#[local] Abbreviation prog := (ustate W).

(** [image->header->offset], [image->info_header->width] and [->height]. *)
Definition hdr_offset (image : Z) : cmd prog Z := h <- load image ;; load (h + 10).
Definition info_width (image : Z) : cmd prog Z := i <- load (image + 4) ;; w <- load (i + 4) ;; ret (i32 w).
Definition info_height (image : Z) : cmd prog Z := i <- load (image + 4) ;; w <- load (i + 8) ;; ret (i32 w).

Definition bmp_load (path : Z) : cmd prog Z :=
  image_file <- fopen trap u_malloc u_free (lit "r") (lit "w") (lit "rw") path (lit "r") ;;
  if image_file =? 0 then ret 0
  else
    header <- u_malloc SIZEOF_BMP_HDR ;;
    fseek image_file 0 SEEK_SET ;;;
    read <- fread trap header 14 1 image_file ;;
    if negb (read =? 14) then u_free header ;;; fclose trap u_free image_file ;;; ret 0
    else
      info_header <- u_malloc SIZEOF_BMP_INFO ;;
      read <- fread trap info_header 40 1 image_file ;;
      if negb (read =? 40) then
        u_free header ;;; u_free info_header ;;; fclose trap u_free image_file ;;; ret 0
      else
        image <- u_malloc SIZEOF_BMP_IMG ;;
        store_word image header ;;;
        store_word (image + 4) info_header ;;;
        store_word (image + 8) image_file ;;;
        ret image.

Definition bmp_size (image : Z) : cmd prog Z :=
  w <- info_width image ;; h <- info_height image ;; ret (u32 (u32 (i32 (w * h)) * 3)).
Definition bmp_pixels (image : Z) : cmd prog Z := n <- bmp_size image ;; ret (u32 (n / 3)).
Definition bmp_size_with_alpha (image : Z) : cmd prog Z := n <- bmp_pixels image ;; ret (u32 (n * 4)).
Definition bmp_width (image : Z) : cmd prog Z := w <- info_width image ;; ret (u32 w).
Definition bmp_height (image : Z) : cmd prog Z := h <- info_height image ;; ret (u32 h).

(** [buffer[reg_index] = ...] for column [i] and row [j]. *)
Definition bmp_pixel (image buffer pixs alpha i j : Z) : cmd prog unit :=
  w <- info_width image ;;
  h <- info_height image ;;
  let inv_j := h - 1 - j in
  let reg_index := i32 (i + j * w) in
  let inv := i32 (i + inv_j * w) in
  red <- in_mem (peek (pixs + 3 * inv + 2)) ;;
  green <- in_mem (peek (pixs + 3 * inv + 1)) ;;
  blue <- in_mem (peek (pixs + 3 * inv)) ;;
  store_word (buffer + 4 * reg_index)
    (Z.land 0xFFFFFFFF (u32 (Z.lor (Z.lor (Z.lor (Z.shiftl alpha 24) (Z.shiftl red 16)) (Z.shiftl green 8)) blue))).

(** The two loops; the image header does not change while they run, so the
    bound of a loop is read once. *)
Fixpoint bmp_rows (n : nat) (image buffer pixs alpha i j : Z) : cmd prog unit :=
  match n with
  | O => ret tt
  | S n' => bmp_pixel image buffer pixs alpha i j ;;; bmp_rows n' image buffer pixs alpha i (j + 1)
  end.
Fixpoint bmp_columns (n : nat) (image buffer pixs alpha i : Z) : cmd prog unit :=
  match n with
  | O => ret tt
  | S n' =>
      h <- info_height image ;;
      bmp_rows (Z.to_nat h) image buffer pixs alpha i 0 ;;;
      bmp_columns n' image buffer pixs alpha (i + 1)
  end.

Definition bmp_read (image buffer start pixels alpha : Z) : cmd prog Z :=
  file <- load (image + 8) ;;
  if file =? 0 then ret (-1)
  else
    off <- hdr_offset image ;;
    fseek file (u32 (off + start)) SEEK_SET ;;;
    pixs <- u_malloc (u32 (SIZEOF_BMP_PIX * pixels)) ;;
    read <- fread trap pixs (u32 (pixels * SIZEOF_BMP_PIX)) 1 file ;;
    if negb (read =? u32 (pixels * 3)) then ret (-1)
    else
      w <- info_width image ;;
      bmp_columns (Z.to_nat w) image buffer pixs alpha 0 ;;;
      u_free pixs ;;;
      ret (i32 (u32 (read / 3 * 4))).

Definition bmp_destroy (image : Z) : cmd prog unit :=
  h <- load image ;; u_free h ;;;
  i <- load (image + 4) ;; u_free i ;;;
  f <- load (image + 8) ;; fclose trap u_free f ;;;
  u_free image.
End bmp.

(** * Reading an image *)

(** A pixel with its transparency. *)
Definition argb (alpha red green blue : Z) : Z := alpha * 2 ^ 24 + red * 2 ^ 16 + green * 2 ^ 8 + blue.

Lemma argb_lor alpha red green blue :
  0 <= alpha < 256 -> 0 <= red < 256 -> 0 <= green < 256 -> 0 <= blue < 256 ->
  Z.land 0xFFFFFFFF (u32 (Z.lor (Z.lor (Z.lor (Z.shiftl alpha 24) (Z.shiftl red 16)) (Z.shiftl green 8)) blue)) =
  argb alpha red green blue.
Proof.
  intros Ha Hr Hg Hb. unfold argb.
  assert (E1 : Z.lor (Z.shiftl green 8) blue = green * 2 ^ 8 + blue) by (apply lor_add; lia).
  assert (E2 : Z.lor (Z.shiftl red 16) (green * 2 ^ 8 + blue) = red * 2 ^ 16 + (green * 2 ^ 8 + blue)) by (apply lor_add; lia).
  rewrite <- Z.lor_assoc, E1, <- Z.lor_assoc, E2, lor_add by lia.
  rewrite u32_small by lia. rewrite Z.land_comm. change 0xFFFFFFFF with (Z.ones 32). rewrite Z.land_ones by lia.
  rewrite Z.mod_small by lia. lia.
Qed.

(** Byte [k] of a file. *)
Definition file_byte (content : list Z) (k : Z) : Z := nth (Z.to_nat k) content 0.
(** Pixel [k] of the data at [off]. *)
Definition file_pixel (content : list Z) (alpha off k : Z) : Z :=
  argb alpha (file_byte content (off + 3 * k + 2)) (file_byte content (off + 3 * k + 1)) (file_byte content (off + 3 * k)).

Section reading.
Context {W : Type} `{UserHeap W}.
Variable trap : Z -> list Z -> cmd (ustate W) Z.
Variable lit : string -> Z.

(** ** The loops *)

Section loops.
Variables image buffer pixs alpha w h : Z.
Variable m0 : mem.
Variable px : Z -> Z -> Z.
Hypothesis size_ok : 0 < w /\ 0 < h /\ w * h < 2 ^ 29.
Hypothesis buffer_ok : 0 <= buffer.
#[local] Abbreviation info := (rd32 m0 (image + 4)).
(** The words of the image that the loops read, the pixels, and their place
    outside the buffer. *)
Definition outside (a n : Z) : Prop := a + n <= buffer \/ buffer + 4 * (w * h) <= a.
Hypothesis apart_image : outside (image + 4) 4.
Hypothesis apart_width : outside (info + 4) 4.
Hypothesis apart_height : outside (info + 8) 4.
Hypothesis apart_pixels : outside pixs (3 * (w * h)).
Hypothesis width_is : i32 (rd32 m0 (info + 4)) = w.
Hypothesis height_is : i32 (rd32 m0 (info + 8)) = h.
Hypothesis alpha_ok : 0 <= alpha < 256.
Hypothesis pixels_are : forall k, 0 <= k < w * h ->
  argb alpha (rd8 m0 (pixs + 3 * k + 2)) (rd8 m0 (pixs + 3 * k + 1)) (rd8 m0 (pixs + 3 * k)) = px (k mod w) (h - 1 - k / w).

(** Only the buffer was written. *)
Definition only_buffer (m : mem) : Prop := forall x, x < buffer \/ buffer + 4 * (w * h) <= x -> rd8 m x = rd8 m0 x.
Definition word_at (m : mem) (i j : Z) : Z := rd32 m (buffer + 4 * (i + j * w)).

Lemma only_rd32 m a : only_buffer m -> outside a 4 -> rd32 m a = rd32 m0 a.
Proof. intros Hm Ho. apply rd32_ext. intros x Hx. apply Hm. unfold outside in Ho. lia. Qed.

Lemma index_range i j : 0 <= i < w -> 0 <= j < h -> 0 <= i + j * w < w * h.
Proof. intros Hi Hj. nia. Qed.
Lemma index_ne i j i' j' : 0 <= i < w -> 0 <= i' < w -> (i, j) <> (i', j') -> i + j * w <> i' + j' * w.
Proof.
  intros Hi Hi' Hne E. apply Hne. assert (j = j') as ->; [|f_equal; lia].
  assert (Ej : (i + j * w) / w = j) by (rewrite Z.div_add by lia; rewrite Z.div_small; lia).
  assert (Ej' : (i' + j' * w) / w = j') by (rewrite Z.div_add by lia; rewrite Z.div_small; lia). congruence.
Qed.

Lemma bmp_pixel_spec i j (s : ustate W) :
  0 <= i < w -> 0 <= j < h -> only_buffer s.(u_mem) ->
  wp (bmp_pixel image buffer pixs alpha i j) (fun _ s' => exists m, s' = set_u_mem m s /\ only_buffer m /\
    word_at m i j = px i j /\ forall i' j', 0 <= i' < w -> (i', j') <> (i, j) -> word_at m i' j' = word_at s.(u_mem) i' j') s.
Proof.
  intros Hi Hj Hm. unfold bmp_pixel, info_width, info_height, load, store_word.
  pose proof (index_range i j Hi Hj) as Hr. pose proof (index_range i (h - 1 - j) Hi ltac:(lia)) as Hr'.
  do 2 (apply wp_bind, wp_bind, wp_gets, wp_bind, wp_gets, wp_ret).
  rewrite (only_rd32 _ (image + 4)), (only_rd32 _ (info + 4)), (only_rd32 _ (info + 8)), width_is, height_is by done.
  rewrite !i32_small by lia.
  assert (Hpk : forall a (k : Z -> cmd (ustate W) unit) Q, outside a 1 ->
    wp (k (rd8 m0 a)) Q s -> wp (x <- in_mem (peek a) ;; k x) Q s).
  { intros a k Q Ha Hk. apply wp_bind, wp_in_mem. eapply wp_Ret; [reflexivity|].
    rewrite Hm by (unfold outside in Ha; lia). by destruct s. }
  unfold outside in apart_pixels. set (q := i + (h - 1 - j) * w) in *.
  do 3 (apply Hpk; [unfold outside; lia|]). apply wp_modify. eexists. split; [reflexivity|].
  rewrite argb_lor by (try apply rd8_range; lia). rewrite pixels_are by lia.
  assert (Eq : q mod w = i) by (unfold q; rewrite Z.mod_add by lia; apply Z.mod_small; lia).
  assert (Eq' : q / w = h - 1 - j) by (unfold q; rewrite Z.div_add by lia; rewrite Z.div_small; lia).
  rewrite Eq, Eq'. replace (h - 1 - (h - 1 - j)) with j by lia. cbn [u_mem set_u_mem]. split_and!.
  - intros x Hx. rewrite rd8_wr32_ne by lia. by apply Hm.
  - unfold word_at. rewrite rd32_wr32_u32. apply u32_small.
    pose proof (pixels_are q ltac:(lia)) as Hpx. rewrite Eq, Eq' in Hpx. replace (h - 1 - (h - 1 - j)) with j in Hpx by lia.
    rewrite <- Hpx. unfold argb. pose proof (rd8_range m0 (pixs + 3 * q + 2)). pose proof (rd8_range m0 (pixs + 3 * q + 1)).
    pose proof (rd8_range m0 (pixs + 3 * q)). lia.
  - intros i' j' Hi' Hne. unfold word_at. apply rd32_wr32_ne. pose proof (index_ne i' j' i j Hi' Hi Hne). lia.
Qed.

Lemma bmp_rows_spec n i j (s : ustate W) :
  0 <= i < w -> 0 <= j -> j + Z.of_nat n <= h -> only_buffer s.(u_mem) ->
  wp (bmp_rows n image buffer pixs alpha i j) (fun _ s' => exists m, s' = set_u_mem m s /\ only_buffer m /\
    (forall j', j <= j' < j + Z.of_nat n -> word_at m i j' = px i j') /\
    forall i' j', 0 <= i' < w -> i' <> i \/ j' < j -> word_at m i' j' = word_at s.(u_mem) i' j') s.
Proof.
  intros Hi. revert j s. induction n as [|n IH]; intros j s Hj Hn Hm; cbn [bmp_rows].
  - apply wp_ret. exists s.(u_mem). split_and!; [by destruct s|done|lia|done].
  - apply wp_bind. eapply wp_mono; [apply bmp_pixel_spec; [done|lia|done]|].
    intros [] s1 (m1 & -> & Hm1 & Hw1 & Ho1). eapply wp_mono; [apply (IH (j + 1)); [lia|lia|done]|].
    intros [] s2 (m2 & -> & Hm2 & Hw2 & Ho2). exists m2. cbn [u_mem set_u_mem] in *. split_and!; [done|done| |].
    + intros j' Hj'. destruct (decide (j' = j)) as [->|]; [|apply Hw2; lia]. rewrite Ho2 by (done || lia). exact Hw1.
    + intros i' j' Hi' Hd. rewrite Ho2 by (done || lia). apply Ho1; [done|]. intros E. simplify_eq. lia.
Qed.

Lemma bmp_columns_spec n i (s : ustate W) :
  0 <= i -> i + Z.of_nat n <= w -> only_buffer s.(u_mem) ->
  wp (bmp_columns n image buffer pixs alpha i) (fun _ s' => exists m, s' = set_u_mem m s /\ only_buffer m /\
    (forall i' j', i <= i' < i + Z.of_nat n -> 0 <= j' < h -> word_at m i' j' = px i' j') /\
    forall i' j', 0 <= i' < i -> word_at m i' j' = word_at s.(u_mem) i' j') s.
Proof.
  revert i s. induction n as [|n IH]; intros i s Hi Hn Hm; cbn [bmp_columns].
  - apply wp_ret. exists s.(u_mem). split_and!; [by destruct s|done|lia|done].
  - apply wp_bind, wp_bind, wp_gets, wp_bind, wp_gets, wp_ret.
    rewrite (only_rd32 _ (image + 4)), (only_rd32 _ (info + 8)), height_is by done. apply wp_bind.
    eapply wp_mono; [apply bmp_rows_spec; [lia|lia|lia|done]|]. intros [] s1 (m1 & -> & Hm1 & Hw1 & Ho1).
    eapply wp_mono; [apply (IH (i + 1)); [lia|lia|done]|]. intros [] s2 (m2 & -> & Hm2 & Hw2 & Ho2).
    exists m2. cbn [u_mem set_u_mem] in *. split_and!; [done|done| |].
    + intros i' j' Hi' Hj'. destruct (decide (i' = i)) as [->|]; [|apply Hw2; lia]. rewrite Ho2 by lia. apply Hw1. lia.
    + intros i' j' Hi'. rewrite Ho2 by lia. apply Ho1; lia.
Qed.
End loops.

(** ** The whole function *)

(** Reading [n] bytes of the file [id] at [off] into [buf] stores them and
    changes nothing else. *)
Definition file_reads (id : Z) (content : list Z) : Prop := forall (s : ustate W) off n buf,
  0 <= off -> 0 <= n -> off + n <= Z.of_nat (length content) ->
  trap SYSCALL_READ [id; off; n; buf] s =
  Ret (n, set_u_mem (put_bytes s.(u_mem) buf (take (Z.to_nat n) (drop (Z.to_nat off) content))) s).

(** A word of a live block or of static data, outside the buffer and not part of
    the position of the file. *)
Definition steady (l : gmap Z Z) (buffer size file a : Z) : Prop :=
  (forall x, a <= x < a + 4 -> x < u_base \/ in_blocks l x) /\ (a + 4 <= buffer \/ buffer + size <= a) /\
  (a + 4 <= file + 4 \/ file + 8 <= a).

Lemma put_bytes_read m p l k : 0 <= k < Z.of_nat (length l) -> Forall (fun c => 0 <= c < 256) l ->
  rd8 (put_bytes m p l) (p + k) = nth (Z.to_nat k) l 0.
Proof.
  intros Hk Hl. destruct (lookup_lt_is_Some_2 l (Z.to_nat k) ltac:(lia)) as [c Hc].
  rewrite (nth_lookup_Some _ _ _ _ Hc), put_bytes_in, Hc by done. rewrite Forall_lookup in Hl. by apply u8_small, (Hl (Z.to_nat k)).
Qed.

Lemma put_bytes_slice m p content off n k :
  0 <= off -> 0 <= n -> off + n <= Z.of_nat (length content) -> Forall (fun c => 0 <= c < 256) content -> 0 <= k < n ->
  rd8 (put_bytes m p (take (Z.to_nat n) (drop (Z.to_nat off) content))) (p + k) = file_byte content (off + k).
Proof.
  intros Ho Hn Hle Hc Hk. rewrite put_bytes_read; [|rewrite length_take, length_drop; lia|].
  - unfold file_byte. rewrite !nth_lookup, lookup_take_lt, lookup_drop by lia. do 2 f_equal. lia.
  - by apply Forall_take, Forall_drop.
Qed.

(** What [bmp_read] needs: the image structure with its headers and its file,
    whose words the call does not disturb, and a buffer of its own. *)
Record readable (l : gmap Z Z) (m : mem) (image buffer file id off w h start : Z) (content : list Z) : Prop := {
  rb_file : rd32 m (image + 8) = file /\ file <> 0;
  rb_id : rd32 m file = id;
  rb_off : rd32 m (rd32 m image + 10) = off;
  rb_width : i32 (rd32 m (rd32 m (image + 4) + 4)) = w;
  rb_height : i32 (rd32 m (rd32 m (image + 4) + 8)) = h;
  rb_size : 0 < w /\ 0 < h /\ w * h < 2 ^ 28;
  rb_start : 0 <= off + start;
  rb_steady : Forall (steady l buffer (4 * (w * h)) file)
    [image; image + 4; image + 8; rd32 m image + 10; rd32 m (image + 4) + 4; rd32 m (image + 4) + 8; file];
  rb_pos : forall x, file + 4 <= x < file + 8 -> x < u_base \/ in_blocks l x;
  rb_pos_apart : file + 8 <= buffer \/ buffer + 4 * (w * h) <= file + 4;
  rb_buffer : exists z, l !! buffer = Some z /\ 4 * (w * h) <= z;
  rb_bytes : Forall (fun c => 0 <= c < 256) content;
  rb_content : off + start + 3 * (w * h) <= Z.of_nat (length content) < 2 ^ 32;
  rb_reads : file_reads id content
}.

Lemma steady_rd32 l buffer size file a m m' :
  steady l buffer size file a -> (forall x, x < u_base \/ in_blocks l x -> x < file + 4 \/ file + 8 <= x -> rd8 m' x = rd8 m x) ->
  rd32 m' a = rd32 m a.
Proof. intros (Hs & _ & Hf) Hx. apply rd32_ext. intros x Hx'. apply Hx; [apply Hs; lia|lia]. Qed.

Lemma steady_outside l buffer w h file a : steady l buffer (4 * (w * h)) file a -> outside buffer w h a 4.
Proof. by intros (_ & ? & _). Qed.

(** What [fread] leaves: the pixels in a fresh block [pixs], the position of the
    file moved, the rest as it was. *)
Definition fetched (r : Z) (l : gmap Z Z) (s : ustate W) file n content at_ (pixs : Z) (s' : ustate W) : Prop :=
  exists y, n <= y /\ l !! pixs = None /\ u_heap (r - n - SLACK) (<[pixs := y]> l) s' /\
  (forall t, 0 <= t < n -> rd8 s'.(u_mem) (pixs + t) = file_byte content (at_ + t)) /\
  (forall x, x < u_base \/ in_blocks l x -> x < file + 4 \/ file + 8 <= x -> rd8 s'.(u_mem) x = rd8 s.(u_mem) x).

Lemma fresh_outside r l (s : ustate W) pixs y n x :
  u_heap r (<[pixs := y]> l) s -> n <= y -> l !! pixs = None -> x < u_base \/ in_blocks l x -> x < pixs \/ pixs + n <= x.
Proof.
  intros Hh Hn Hp Hx. assert (Hpy : <[pixs := y]> l !! pixs = Some y) by by rewrite lookup_insert_eq.
  destruct (u_bounds _ _ _ _ _ Hh Hpy) as (? & _). destruct Hx as [Hx|(q & qz & Hq & Hx)]; [lia|].
  assert (q <> pixs) by congruence.
  destruct (u_apart _ _ _ pixs y q qz Hh Hpy); [by rewrite lookup_insert_ne|congruence|lia|lia].
Qed.

Lemma bmp_fetch_spec r l s file id n content at_ :
  u_heap r l s -> rd32 s.(u_mem) file = id -> (forall x, file <= x < file + 8 -> x < u_base \/ in_blocks l x) ->
  file_reads id content -> Forall (fun c => 0 <= c < 256) content -> 0 <= at_ -> 2 < n <= 2 ^ 30 ->
  at_ + n <= Z.of_nat (length content) < 2 ^ 32 -> n + SLACK <= r ->
  wp (a <- fseek file at_ SEEK_SET ;; pixs <- u_malloc n ;; read <- fread trap pixs n 1 file ;; ret (a, pixs, read))
     (fun v s' => v.2 = n /\ fetched r l s file n content at_ v.1.2 s') s.
Proof.
  intros Hh Hid Hpos Hrd Hby Hat Hn Hct Hr. apply wp_bind, wp_bind, wp_modify, wp_ret. cbv beta. rewrite (u32_small at_) by lia.
  set (m1 := wr32 s.(u_mem) (file + 4) at_).
  assert (Hh1 : u_heap r l (set_u_mem m1 s)).
  { apply u_write; [done|]. intros x Hx Hnx. unfold m1. apply rd8_wr32_ne.
    destruct (decide (file + 4 <= x < file + 8)) as [Hin|]; [|lia]. destruct (Hpos x ltac:(lia)); [lia|done]. }
  assert (Hm1 : forall x, x < file + 4 \/ file + 8 <= x -> rd8 m1 x = rd8 s.(u_mem) x) by (intros x Hx; apply rd8_wr32_ne; lia).
  apply wp_bind. eapply wp_mono; [by apply (u_malloc_ok n r l); [done|lia|]|].
  intros pixs s2 (y & Hy & Hpn & Hh2 & _ & Hk2 & _). cbn [u_mem set_u_mem] in Hk2.
  pose proof (fresh_outside _ _ _ _ _ n (file + 4) Hh2 Hy Hpn (Hpos (file + 4) ltac:(lia))) as Hf4.
  pose proof (fresh_outside _ _ _ _ _ n (file + 7) Hh2 Hy Hpn (Hpos (file + 7) ltac:(lia))) as Hf7.
  assert (Hid2 : rd32 s2.(u_mem) file = id).
  { rewrite <- Hid. apply rd32_ext. intros x Hx. rewrite Hk2, Hm1 by (lia || apply Hpos; lia). done. }
  assert (Hseek : rd32 s2.(u_mem) (file + 4) = at_).
  { transitivity (rd32 m1 (file + 4)); [|unfold m1; rewrite rd32_wr32_u32; apply u32_small; lia].
    apply rd32_ext. intros x Hx. apply Hk2, Hpos. lia. }
  apply wp_bind. unfold fread, load, read. rewrite (Z.mul_1_r n), (u32_small n) by lia.
  apply wp_bind, wp_gets, wp_bind, wp_gets. rewrite Hid2, Hseek. apply wp_bind. eapply wp_Ret; [apply Hrd; lia|].
  set (data := take (Z.to_nat n) (drop (Z.to_nat at_) content)).
  assert (Hdl : Z.of_nat (length data) = n) by (unfold data; rewrite length_take, length_drop; lia).
  apply wp_bind, wp_gets, wp_bind, wp_modify, wp_ret, wp_ret. cbn [u_mem set_u_mem fst snd]. rewrite (u32_small n) by lia.
  split; [done|]. exists y. cbn [u_mem set_u_mem]. set (v := u32 (_ + n)). split_and!; [done|done| | |].
  - apply (u_write _ _ s2); [done|]. intros x Hx Hnx. rewrite rd8_wr32_ne, put_bytes_out; [done| |].
    + destruct (decide (pixs <= x < pixs + y)); [|lia]. exfalso. apply Hnx. exists pixs, y. by rewrite lookup_insert_eq.
    + destruct (decide (file + 4 <= x < file + 8)) as [Hin|]; [|lia]. destruct (Hpos x ltac:(lia)) as [?|(q & qz & Hq & Hqx)]; [lia|].
      exfalso. apply Hnx. exists q, qz. rewrite lookup_insert_ne; [done|congruence].
  - intros t Ht. rewrite rd8_wr32_ne by lia. unfold data. by rewrite put_bytes_slice by (done || lia).
  - intros x Hx1 Hx2. rewrite rd8_wr32_ne by lia. pose proof (fresh_outside _ _ _ _ _ n x Hh2 Hy Hpn Hx1).
    rewrite put_bytes_out by lia. rewrite Hk2, Hm1 by done. done.
Qed.

(** The words of the buffer after a read, by the bytes behind [off + start]. *)
Lemma bmp_read_pixels r l s image buffer file id off w h start alpha content :
  u_heap r l s -> readable l s.(u_mem) image buffer file id off w h start content -> 0 <= start -> 0 <= alpha < 256 ->
  3 * (w * h) + SLACK <= r ->
  wp (bmp_read trap image buffer start (w * h) alpha) (fun res s' => res = 4 * (w * h) /\
    forall i j, 0 <= i < w -> 0 <= j < h ->
      rd32 s'.(u_mem) (buffer + 4 * (i + j * w)) = file_pixel content alpha (off + start) (i + (h - 1 - j) * w)) s.
Proof.
  intros Hh [[Hf Hf0] Hid Hoff Hw Hht (Hw0 & Hh0 & Hsz) Hst Hsteady Hpos Hpa (z & Hbuf & Hz) Hby Hct Hrd] Hs0 Hal Hr.
  rewrite !Forall_cons in Hsteady. destruct Hsteady as (Si & Si4 & Si8 & So & Sw & Sh & Sf & _).
  assert (Hwh : 0 < w * h) by nia. assert (Hst' : off + start < 2 ^ 32) by lia.
  unfold bmp_read, hdr_offset, load, SIZEOF_BMP_PIX. apply wp_bind, wp_gets. rewrite Hf. destruct (Z.eqb_spec file 0); [done|].
  apply wp_bind, wp_bind, wp_gets, wp_gets. rewrite Hoff, (u32_small (off + start)), (Z.mul_comm (w * h) 3) by lia.
  rewrite (u32_small (3 * (w * h))) by lia. apply wp_assoc3. eapply wp_mono.
  { apply (bmp_fetch_spec r l s file id (3 * (w * h)) content (off + start)); try done; try lia.
    intros x Hx. destruct (decide (x < file + 4)); [apply Sf; lia|apply Hpos; lia]. }
  intros [[a pixs] read] s3 [Hread (y & Hy & Hpn & Hh3 & Hdata & Hm3)]. cbn [fst snd] in *. subst read.
  assert (Hrd3 : forall a, steady l buffer (4 * (w * h)) file a -> rd32 s3.(u_mem) a = rd32 s.(u_mem) a) by (intros; by eapply steady_rd32).
  destruct (Z.eqb_spec (3 * (w * h)) (3 * (w * h))); [|done]. cbn [negb].
  apply wp_bind, wp_bind, wp_gets, wp_bind, wp_gets, wp_ret. rewrite (Hrd3 (image + 4) Si4), (Hrd3 _ Sw), Hw.
  assert (Hpb : pixs + 3 * (w * h) <= buffer \/ buffer + 4 * (w * h) <= pixs).
  { assert (buffer <> pixs) by congruence.
    destruct (u_apart _ _ _ pixs y buffer z Hh3); [by rewrite lookup_insert_eq|by rewrite lookup_insert_ne|congruence|lia|lia]. }
  destruct (u_bounds _ _ _ _ _ Hh Hbuf) as (Hb0 & Hb1 & _ & Hb2). apply wp_bind. eapply wp_mono.
  { apply (bmp_columns_spec image buffer pixs alpha w h s3.(u_mem)
      (fun i j => file_pixel content alpha (off + start) (i + (h - 1 - j) * w)));
      try done; try lia; rewrite ?(Hrd3 (image + 4) Si4), ?(Hrd3 _ Sw), ?(Hrd3 _ Sh); try done; try by eapply steady_outside.
    intros k Hk. unfold file_pixel. rewrite <- !Z.add_assoc, !Hdata by lia.
    replace (k mod w + (h - 1 - (h - 1 - k / w)) * w) with k by (pose proof (Z.div_mod k w); lia). by rewrite !Z.add_assoc. }
  intros [] s4 (m4 & -> & Hm4 & Hpx & _).
  assert (Hin : forall x, buffer <= x < buffer + 4 * (w * h) -> in_blocks (<[pixs := y]> l) x).
  { intros x Hx. exists buffer, z. split; [|lia]. rewrite lookup_insert_ne; [done|congruence]. }
  assert (Hh4 : u_heap (r - 3 * (w * h) - SLACK) (<[pixs := y]> l) (set_u_mem m4 s3)).
  { apply u_write; [done|]. intros x Hx Hnx. apply Hm4. destruct (decide (buffer <= x < buffer + 4 * (w * h))); [|lia].
    exfalso. by apply Hnx, Hin. }
  apply wp_bind. eapply wp_mono; [apply (u_free_ok pixs y _ _ _ Hh4); by rewrite lookup_insert_eq|].
  intros [] s5 (_ & Hk5 & _). apply wp_ret. split.
  - rewrite (Z.mul_comm 3), Z.div_mul, u32_small, i32_small by lia. lia.
  - intros i j Hi Hj. rewrite <- (Hpx i j) by lia. apply rd32_ext. intros x Hx. apply Hk5. right. apply Hin.
    pose proof (index_range w h ltac:(lia) i j Hi Hj). lia.
Qed.

(** A row of a bitmap fills a multiple of four bytes. *)
Definition row_bytes (w : Z) : Z := (3 * w + 3) / 4 * 4.

Lemma row_bytes_full w : w mod 4 = 0 -> row_bytes w = 3 * w.
Proof. intros Hw. unfold row_bytes. Z.div_mod_to_equations. lia. Qed.

(** The pixel in column [i] of row [j] from the top of a picture [w] wide and
    [h] high whose data is at [off]: rows are stored last row first, a pixel
    blue byte first. *)
Definition picture_pixel (content : list Z) (alpha off w h i j : Z) : Z :=
  let at_ := off + (h - 1 - j) * row_bytes w + 3 * i in
  alpha * 2 ^ 24 + file_byte content (at_ + 2) * 2 ^ 16 + file_byte content (at_ + 1) * 2 ^ 8 + file_byte content at_.

(** C10: reading a whole bitmap whose width is a multiple of four turns it the
    right way up: word [i + j * w] of the buffer is the pixel of column [i] and
    row [j] from the top of the picture, with the given transparency on top, and
    the call returns the number of bytes written, [4 * w * h].  The condition on
    the width is needed: the rows of a bitmap are padded to a multiple of four
    bytes and the code does not skip the padding.  [start] is 0, the start of
    the data; the code takes it as a number of bytes, not of pixels.  The image
    structure, its headers and the buffer are in place and apart ([readable]),
    the file holds the pixels and [read] delivers them, and the heap has room
    for the copy of the pixels. *)
Theorem bmp_read_flips r l s image buffer file id off w h alpha content :
  u_heap r l s -> readable l s.(u_mem) image buffer file id off w h 0 content -> w mod 4 = 0 -> 0 <= alpha < 256 ->
  3 * (w * h) + SLACK <= r ->
  wp (bmp_read trap image buffer 0 (w * h) alpha) (fun res s' => res = 4 * (w * h) /\
    forall i j, 0 <= i < w -> 0 <= j < h ->
      rd32 s'.(u_mem) (buffer + 4 * (i + j * w)) = picture_pixel content alpha off w h i j) s.
Proof.
  intros Hh Hrd Hw Hal Hr. eapply wp_mono; [by eapply bmp_read_pixels|]. intros res s' [-> Hpx]. split; [done|].
  intros i j Hi Hj. rewrite Hpx by done. unfold file_pixel, picture_pixel, argb. rewrite row_bytes_full by done.
  replace (off + 0 + 3 * (i + (h - 1 - j) * w)) with (off + (h - 1 - j) * (3 * w) + 3 * i) by lia. done.
Qed.
End reading.

(** * A picture of four by two pixels *)

#[local] Instance demo_sbrk : Sbrk Z := {| Heap.sbrk := page_sbrk; sbrk_ok := eq; sbrk_grows := page_sbrk_grows |}.

(** Four bytes of header, then the bottom row and the top row. *)
Definition demo_bmp : list Z := [66; 77; 0; 0] ++ seqZ 1 24.
(** Reading answers from [demo_bmp]; no other call is made. *)
Definition demo_trap (n : Z) (args : list Z) : cmd (ustate (uworld Z unit)) Z := fun s =>
  match args with
  | [id; off; len; buf] =>
      Ret (len, set_u_mem (put_bytes s.(u_mem) buf (take (Z.to_nat len) (drop (Z.to_nat off) demo_bmp))) s)
  | _ => Fault
  end.
(** A heap with one block of 32 bytes. *)
Definition demo_pixels : hstate Z :=
  match (alloc_initialise 0 0x50001000 ;;; alloc_allocate 32) (HState 0 0 0 0 ∅ 0x50001000) with
  | Ret (_, s) => s
  | _ => demo_user
  end.
(** The image structure at 0x100, its headers at 0x200 and 0x300, its file at
    0x400, the buffer in the one block of the heap. *)
Definition demo_picture : ustate (uworld Z unit) :=
  UState (wr32 (wr32 (wr32 (wr32 (wr32 (wr32 (wr32 demo_pixels.(h_mem) 0x100 0x200) 0x104 0x300) 0x108 0x400) 0x20A 4) 0x304 4) 0x308 2) 0x400 7)
         0 0 0 (UWorld demo_pixels.(allocated_size) demo_pixels.(h_start) demo_pixels.(h_end) demo_pixels.(h_head) demo_pixels.(h_pages) tt).

Lemma demo_picture_heap : u_heap 10000 {[ 0x50000009 := 32 ]} demo_picture.
Proof.
  exists [(32, true)]. split; [done|]. split; [by vm_compute|]. split_and!; [by vm_compute..|].
  intros p z. change (live _ _) with [(0x50000009, 32)]. rewrite list_elem_of_singleton, lookup_singleton_Some. naive_solver.
Qed.

Lemma demo_picture_readable :
  readable demo_trap {[ 0x50000009 := 32 ]} demo_picture.(u_mem) 0x100 0x50000009 0x400 7 4 4 2 0 demo_bmp.
Proof.
  split.
  1-5: by vm_compute.
  - lia.
  - lia.
  - assert (Hlow : forall a, 0 <= a <= 0x308 \/ a = 0x400 -> steady (W := uworld Z unit) {[ 0x50000009 := 32 ]} 0x50000009 (4 * (4 * 2)) 0x400 a).
    { intros a Ha. unfold steady, u_base, alloc_user_heap, ALLOC_HEAP_START. split_and!; [|lia|lia]. intros x Hx. left. lia. }
    change (rd32 (u_mem demo_picture) 0x100) with 0x200. change (rd32 (u_mem demo_picture) (0x100 + 4)) with 0x300.
    do 7 (apply Forall_cons_2; [apply Hlow; lia|]). constructor.
  - intros x Hx. left. unfold u_base, alloc_user_heap, ALLOC_HEAP_START. lia.
  - left. lia.
  - exists 32. split; [by rewrite lookup_singleton_eq|done].
  - by repeat constructor.
  - change (length demo_bmp) with 28%nat. lia.
  - intros s off n buf _ _ _. reflexivity.
Qed.

Lemma bmp_read_flips_witness : exists s',
  bmp_read demo_trap 0x100 0x50000009 0 8 0 demo_picture = Ret (32, s') /\
  rd32 s'.(u_mem) 0x50000009 = 0x0F0E0D /\ rd32 s'.(u_mem) (0x50000009 + 16) = 0x030201.
Proof.
  destruct (wp_inv _ _ _ (bmp_read_flips demo_trap 10000 _ demo_picture 0x100 0x50000009 0x400 7 4 4 2 0 demo_bmp
    demo_picture_heap demo_picture_readable ltac:(done) ltac:(lia) ltac:(unfold SLACK; lia))) as (res & s' & Hr & -> & Hpx).
  exists s'. split; [exact Hr|]. split; [exact (Hpx 0 0 ltac:(lia) ltac:(lia))|exact (Hpx 0 1 ltac:(lia) ltac:(lia))].
Defined.
