(* ===== verification/Shell.v ===== *)
(** The shell, [userland/shell.c].

    It reads a line, recognises its commands and, for [run], spawns a program
    with the words of the line as arguments.  [lit] gives the address of each
    string literal; locals whose address is taken and globals have addresses of
    their own.  Memory comes from [UserHeap], output goes through [Stdio]. *)
From stdpp Require Import base numbers gmap list strings.
From S2P Require Import Prelude Text Kmem KString Kstdio Libc LibcNum Heap Scalls Stdio StdioOut UserHeap Bmp.

Definition STDOUT_CMD_SET_MODE : Z := 0x01.
Definition STDOUT_CMD_GET_MODE : Z := 0x02.
Definition STDOUT_CMD_GETW : Z := 0x03.
Definition STDOUT_CMD_GETH : Z := 0x04.
Definition STDOUT_CMD_CLEAR : Z := 0x05.
Definition STDOUT_CMD_GET_FG_COLOUR : Z := 0x06.
Definition STDOUT_CMD_SET_FG_COLOUR : Z := 0x07.
Definition STDOUT_CMD_ECHO_ENABLE : Z := 0x0A.
Definition STDOUT_CMD_GET_DISP_TYPE : Z := 0x0D.
Definition STDOUT_MODE_TXT : Z := 0x00.
Definition STDOUT_MODE_PX : Z := 0x01.
Definition STDOUT_DISP_TYPE_VGA : Z := 0x00.
Definition STDOUT_DISP_TYPE_VESA : Z := 0x01.

Definition vga_colours : list (string * Z) :=
  [("blue", 0x01); ("green", 0x02); ("cyan", 0x03); ("red", 0x04); ("magenta", 0x05); ("yellow", 0x06)]%string.
Definition COL_VGA_WHITE : Z := 0x07.
Definition vesa_colours : list (string * Z) :=
  [("blue", 0x000000FF); ("green", 0x0000FF00); ("cyan", 0x0000FFFF); ("red", 0x00FF0000);
   ("magenta", 0x00FF00FF); ("yellow", 0x00FFFF00)]%string.
Definition COL_VESA_WHITE : Z := 0x00FFFFFF.

Section shell.
Context {W : Type} `{UserHeap W}.
Variable trap : Z -> list Z -> cmd (ustate W) Z.
Variable sputfpoint : Z -> Z -> Z -> cmd mem Z.
Variable lit : string -> Z.
Variables v_character v_size v_num : Z.
Variables v_colour v_save_colour : Z.
Variables g_pixel_buffer g_pixel_width g_pixel_height g_char_width g_char_height g_display_mode g_top_bar_image : Z.
#[local] Abbreviation prog := (ustate W).
#[local] Abbreviation print := (printf trap sputfpoint v_character v_num).

(** [ioctl(stdout->id, op, args)] *)
Definition stdout_ioctl (op args : Z) : cmd prog Z :=
  file <- Prelude.gets u_stdout ;; id <- load file ;; r <- ioctl trap (i32 id) op args ;; ret (i32 r).

(** The chain of [if(!strcmp(col, name))]. *)
Fixpoint pick_colour (table : list (string * Z)) (col default : Z) : cmd mem Z :=
  match table with
  | [] => ret default
  | (name, value) :: table' => c <- strcmp col (lit name) ;; if c =? 0 then ret value else pick_colour table' col default
  end.

Definition shell_write_colour (string col : Z) : cmd prog unit :=
  type <- stdout_ioctl STDOUT_CMD_GET_DISP_TYPE 0 ;;
  if type =? STDOUT_DISP_TYPE_VGA then
    colour <- in_mem (pick_colour vga_colours col COL_VGA_WHITE) ;;
    store_word v_colour colour ;;;
    save <- stdout_ioctl STDOUT_CMD_GET_FG_COLOUR 0 ;;
    store_word v_save_colour (u32 save) ;;;
    stdout_ioctl STDOUT_CMD_SET_FG_COLOUR v_colour ;;;
    print (lit "%s") [string] ;;;
    stdout_ioctl STDOUT_CMD_SET_FG_COLOUR v_save_colour ;;;
    ret tt
  else if type =? STDOUT_DISP_TYPE_VESA then
    colour <- in_mem (pick_colour vesa_colours col COL_VESA_WHITE) ;;
    store_word v_colour colour ;;;
    store_word v_save_colour COL_VESA_WHITE ;;;
    stdout_ioctl STDOUT_CMD_SET_FG_COLOUR v_colour ;;;
    print (lit "%s") [string] ;;;
    stdout_ioctl STDOUT_CMD_SET_FG_COLOUR v_save_colour ;;;
    ret tt
  else ret tt.

Definition shell_print_welcome : cmd prog unit :=
  w <- load g_char_width ;;
  let width := i32 w in
  bar <- u_malloc (u32 (width + 1)) ;;
  for_ (Z.to_nat width) 0 (fun _ => in_mem (sappend bar 42) ;;; ret tt) ;;;
  let title := lit "   WELCOME TO DBOS!   " in
  t_len <- in_mem (strlen title) ;;
  b_len <- in_mem (strlen bar) ;;
  let side := Z.quot (i32 b_len - i32 t_len) 2 in
  print (lit "%s") [bar] ;;;
  for_ (Z.to_nat side) 0 (fun _ => print (lit "*") [] ;;; ret tt) ;;;
  print title [] ;;;
  for_ (Z.to_nat side) 0 (fun _ => print (lit "*") [] ;;; ret tt) ;;;
  print (lit "%s") [bar] ;;;
  u_free bar.

(** The literals of [shell_display_help], line feeds and quotes written out. *)
Definition help_lines : list string :=
  ["\n *********************** HELP ***********************"; "\n `help` - displays this information";
   "\n `run` <cmd> <args> - runs a program with arguments"; "\n `exit` - exits the system!"]%string.
Definition shell_display_help : cmd prog unit :=
  foldr (fun l k => shell_write_colour (lit l) (lit "blue") ;;; k) (ret tt) help_lines.

Definition shell_execute (filename args : Z) : cmd prog Z :=
  len <- in_mem (strlen filename) ;;
  path <- u_malloc (u32 (len + 2)) ;;
  in_mem (poke path 47) ;;;
  in_mem (strcat path filename) ;;;
  n <- in_mem (strlen path) ;;
  in_mem (poke (path + n) 0) ;;;
  pid <- spawn trap path args ;;
  if i32 pid =? -1 then
    u_free path ;;;
    shell_write_colour (lit "\nError: Executable not found!") (lit "red") ;;;
    ret (-1)
  else u_free path ;;; ret (i32 pid).

(** The name of the program: its length and where the line goes on. *)
Fixpoint copy_cmd (fuel : nat) (line cmd_ cmd_index : Z) : cmd mem (Z * Z) :=
  match fuel with
  | O => hang
  | S fuel' =>
      c <- peek line ;;
      if (c =? 0) || (c =? 32) then ret (cmd_index, line)
      else poke (cmd_ + cmd_index) c ;;; copy_cmd fuel' (line + 1) cmd_ (cmd_index + 1)
  end.
(** One argument: where the line goes on, and its length.  [slot] is the address
    of [args[arg_index]]. *)
Fixpoint copy_arg (fuel : nat) (line slot j : Z) : cmd mem (Z * Z) :=
  match fuel with
  | O => hang
  | S fuel' =>
      c <- peek line ;;
      if negb (c =? 0) && negb (c =? 32) then
        a <- Prelude.gets (fun m => rd32 m slot) ;;
        poke (a + j) c ;;; copy_arg fuel' (line + 1) slot (j + 1)
      else ret (line, j)
  end.
(** All arguments; [line++] after one steps over the space or the terminator. *)
Fixpoint copy_args (fuel : nat) (line args arg_index : Z) : cmd prog unit :=
  match fuel with
  | O => hang
  | S fuel' =>
      c <- in_mem (peek line) ;;
      if c =? 0 then ret tt
      else
        let slot := args + 4 * arg_index in
        a <- u_malloc 100 ;;
        store_word slot a ;;;
        n <- Prelude.gets (fun s => str_fuel s.(u_mem)) ;;
        r <- in_mem (copy_arg n line slot 0) ;;
        a <- load slot ;;
        in_mem (poke (a + r.2) 0) ;;;
        copy_args fuel' (r.1 + 1) args (arg_index + 1)
  end.

Definition shell_run_command (line : Z) : cmd prog Z :=
  len <- in_mem (strlen line) ;;
  cmd_ <- u_malloc 50 ;;
  n <- Prelude.gets (fun s => str_fuel s.(u_mem)) ;;
  r <- in_mem (copy_cmd n line cmd_ 0) ;;
  if r.1 <? 2 then
    shell_write_colour (lit "\nInvalid executable name!") (lit "red") ;;;
    u_free cmd_ ;;;
    ret (-1)
  else
    args <- (if i32 len <=? r.1 + 1 then ret 0
             else
               args <- u_malloc 20 ;;
               n <- Prelude.gets (fun s => str_fuel s.(u_mem)) ;;
               copy_args n (r.2 + 1) args 0 ;;;
               ret args) ;;
    ret_ <- shell_execute cmd_ args ;;
    u_free cmd_ ;;;
    ret ret_.

(** The part of [shell_reset] for a pixel display. *)
Definition shell_draw_bar : cmd prog unit :=
  image <- load g_top_bar_image ;;
  buffer <- load g_pixel_buffer ;;
  n <- bmp_pixels image ;;
  bmp_read trap image buffer 0 n 0 ;;;
  store_word g_display_mode STDOUT_MODE_PX ;;;
  stdout_ioctl STDOUT_CMD_SET_MODE g_display_mode ;;;
  file <- Prelude.gets u_stdout ;;
  fseek file 0 SEEK_SET ;;;
  buffer <- load g_pixel_buffer ;;
  w <- load g_pixel_width ;;
  h <- load g_pixel_height ;;
  fwrite trap buffer (u32 (i32 w * i32 h)) 1 file ;;;
  ret tt.

Definition shell_reset : cmd prog unit :=
  type <- stdout_ioctl STDOUT_CMD_GET_DISP_TYPE 0 ;;
  (when type =? STDOUT_DISP_TYPE_VESA do shell_draw_bar) ;;;
  store_word g_display_mode STDOUT_MODE_TXT ;;;
  stdout_ioctl STDOUT_CMD_SET_MODE g_display_mode ;;;
  stdout_ioctl STDOUT_CMD_CLEAR 0 ;;;
  stdout_ioctl STDOUT_CMD_ECHO_ENABLE 0 ;;;
  shell_print_welcome.

Definition shell_check : cmd prog unit :=
  mode <- stdout_ioctl STDOUT_CMD_GET_MODE 0 ;;
  when mode =? STDOUT_MODE_PX do shell_reset.

Definition shell_parse_command (line : Z) : cmd prog Z :=
  l <- in_mem (strlen line) ;;
  let len := i32 l in
  is_help <- (if len =? 4 then c <- in_mem (strncmp line (lit "help") 4) ;; ret (c =? 0) else ret false) ;;
  ret_ <-
    (if is_help : bool then shell_display_help ;;; ret 0
     else
       is_run <- in_mem (strncmp line (lit "run ") 4) ;;
       if is_run =? 0 then shell_run_command (line + 4)
       else
         is_exit <- (if len =? 4 then c <- in_mem (strncmp line (lit "exit") 4) ;; ret (c =? 0) else ret false) ;;
         if is_exit : bool then ret (-9999)
         else
           is_clear <- (if len =? 5 then c <- in_mem (strncmp line (lit "clear") 5) ;; ret (c =? 0) else ret false) ;;
           if is_clear : bool then shell_reset ;;; ret 0
           else
             shell_write_colour (lit "\n Invalid command!") (lit "red") ;;;
             shell_display_help ;;;
             ret (-1)) ;;
  print (lit "\n") [] ;;;
  ret ret_.

(** [while(1)]: one round per line typed; [n] bounds the polls for input. *)
Fixpoint shell_loop (fuel n : nat) (line : Z) : cmd prog unit :=
  match fuel with
  | O => hang
  | S fuel' =>
      shell_write_colour (lit "\n|--DBOS--|>> ") (lit "cyan") ;;;
      line <- Stdio.gets trap v_size n line 1024 ;;
      r <- shell_parse_command line ;;
      (when negb (r =? 0) && negb (r =? -1) && negb (r =? -9999) do (waitpid trap r ;;; ret tt)) ;;;
      if r =? -9999 then ret tt
      else
        shell_check ;;;
        in_mem (memset line 0 1024) ;;;
        shell_loop fuel' n line
  end.
Definition shell_main_loop (fuel n : nat) : cmd prog unit := line <- u_malloc 1024 ;; shell_loop fuel n line.

Definition shell_init_mode : cmd prog unit :=
  store_word g_display_mode STDOUT_MODE_PX ;;;
  ret_ <- stdout_ioctl STDOUT_CMD_SET_MODE g_display_mode ;;
  (if ret_ =? -1 then
     store_word g_display_mode STDOUT_MODE_TXT ;;;
     stdout_ioctl STDOUT_CMD_SET_MODE g_display_mode ;;;
     ret tt
   else store_word g_display_mode STDOUT_MODE_PX) ;;;
  mode <- load g_display_mode ;;
  (when mode =? STDOUT_MODE_PX do
     (w <- stdout_ioctl STDOUT_CMD_GETW 0 ;;
      store_word g_pixel_width (u32 w) ;;;
      h <- stdout_ioctl STDOUT_CMD_GETH 0 ;;
      store_word g_pixel_height (u32 h) ;;;
      store_word g_display_mode STDOUT_MODE_TXT ;;;
      stdout_ioctl STDOUT_CMD_SET_MODE g_display_mode ;;;
      ret tt)) ;;;
  w <- stdout_ioctl STDOUT_CMD_GETW 0 ;;
  store_word g_char_width (u32 w) ;;;
  h <- stdout_ioctl STDOUT_CMD_GETH 0 ;;
  store_word g_char_height (u32 h) ;;;
  pw <- load g_pixel_width ;;
  ph <- load g_pixel_height ;;
  when negb (pw =? 0) && negb (ph =? 0) do
    (b <- u_malloc (u32 (i32 pw * i32 ph * 4)) ;; store_word g_pixel_buffer b).

Definition shell_init_graphics : cmd prog unit :=
  w <- load g_pixel_width ;;
  let pixel_width := i32 w in
  image <-
    (if pixel_width =? 1920 then bmp_load trap lit (lit "/images/bar_1920.bmp")
     else if pixel_width =? 1280 then bmp_load trap lit (lit "/images/bar_1280.bmp")
     else if pixel_width =? 1024 then bmp_load trap lit (lit "/images/bar_1024.bmp")
     else if pixel_width =? 800 then bmp_load trap lit (lit "/images/bar_800.bmp")
     else if pixel_width =? 640 then bmp_load trap lit (lit "/images/bar_640.bmp")
     else ret 0) ;;
  store_word g_top_bar_image image ;;;
  if image =? 0 then ret tt else shell_draw_bar.

Definition shell_init : cmd prog unit := shell_init_mode ;;; shell_init_graphics ;;; shell_reset.
Definition shell_main (fuel n : nat) : cmd prog unit := shell_init ;;; shell_main_loop fuel n.
End shell.

(** * Running a program *)

(** A word of the command line. *)
Definition arg_ok (a : list Z) : Prop := a <> [] /\ Forall (fun c => 0 < c < 256 /\ c <> 32) a /\ (length a < 100)%nat.
(** Words, each after a space. *)
Definition spaced (args : list (list Z)) : list Z := mjoin ((fun a => 32 :: a) <$> args).

Lemma spaced_cons a args : spaced (a :: args) = 32 :: a ++ spaced args.
Proof. done. Qed.

Lemma spaced_length args : Forall arg_ok args -> (2 * length args <= length (spaced args) <= 100 * length args)%nat.
Proof.
  induction 1 as [|a args (Hne & _ & Hlen) _ IH]; [cbn; lia|]. rewrite spaced_cons. cbn [length]. rewrite length_app.
  destruct a; [done|]. cbn [length] in *. lia.
Qed.

Lemma spaced_stop m q args : cstr m q (spaced args) -> rd8 m q = 0 \/ rd8 m q = 32.
Proof. destruct args as [|a args]; cbn; [by left|]. intros [-> _]. by right. Qed.

Lemma cstr_byte m p l1 l2 k c : cstr m p (l1 ++ l2) -> l1 !! k = Some c -> rd8 m (p + Z.of_nat k) = c.
Proof.
  revert p k. induction l1 as [|d l1 IH]; intros p k Hc Hk; [done|]. destruct Hc as (H1 & _ & Hc). destruct k as [|k]; cbn in Hk.
  - simplify_eq. by rewrite Z.add_0_r.
  - rewrite <- (IH (p + 1) k Hc Hk). f_equal. lia.
Qed.

(** ** Copying words *)

Lemma copy_cmd_spec fuel line c j name m stop :
  (forall k x, name !! k = Some x -> rd8 m (line + Z.of_nat k) = x) -> Forall (fun c => 0 < c < 256 /\ c <> 32) name ->
  rd8 m (line + Z.of_nat (length name)) = stop -> stop = 0 \/ stop = 32 ->
  line + Z.of_nat (length name) < c + j \/ c + j + Z.of_nat (length name) <= line -> (length name < fuel)%nat ->
  copy_cmd fuel line c j m = Ret ((j + Z.of_nat (length name), line + Z.of_nat (length name)), put_bytes m (c + j) name).
Proof.
  revert fuel line j m. induction name as [|x name IH]; intros fuel line j m Hn Hok Hst Hs Hsep Hf;
    (destruct fuel as [|fuel]; [cbn in Hf; lia|]); cbn [copy_cmd length put_bytes] in *; unfold bind, peek, Prelude.gets.
  - rewrite Z.add_0_r in Hst. rewrite Hst, !Z.add_0_r. by destruct Hs as [->| ->].
  - pose proof (Hn 0%nat x eq_refl) as H0. rewrite Z.add_0_r in H0. rewrite H0.
    apply Forall_cons in Hok as [[Hx Hx32] Hok]. destruct (Z.eqb_spec x 0); [lia|]. destruct (Z.eqb_spec x 32); [done|]. cbn [orb].
    unfold poke, modify. rewrite IH.
    + do 2 f_equal; [f_equal; lia|]. f_equal. lia.
    + intros k y Hk. rewrite rd8_wr8_ne; [|apply lookup_lt_Some in Hk; lia].
      replace (line + 1 + Z.of_nat k) with (line + Z.of_nat (S k)) by lia. by apply Hn.
    + done.
    + rewrite rd8_wr8_ne by lia. replace (line + 1 + Z.of_nat (length name)) with (line + Z.of_nat (S (length name))) by lia. done.
    + done.
    + lia.
    + lia.
Qed.

Lemma copy_arg_spec fuel line slot b j a m stop :
  (forall k x, a !! k = Some x -> rd8 m (line + Z.of_nat k) = x) -> Forall (fun c => 0 < c < 256 /\ c <> 32) a ->
  rd8 m (line + Z.of_nat (length a)) = stop -> stop = 0 \/ stop = 32 -> rd32 m slot = b ->
  line + Z.of_nat (length a) < b + j \/ b + j + Z.of_nat (length a) <= line ->
  slot + 4 <= b + j \/ b + j + Z.of_nat (length a) <= slot -> (length a < fuel)%nat ->
  copy_arg fuel line slot j m = Ret ((line + Z.of_nat (length a), j + Z.of_nat (length a)), put_bytes m (b + j) a).
Proof.
  revert fuel line j m. induction a as [|x a IH]; intros fuel line j m Hn Hok Hst Hs Hb Hsep Hsl Hf;
    (destruct fuel as [|fuel]; [cbn in Hf; lia|]); cbn [copy_arg length put_bytes] in *; unfold bind, peek, Prelude.gets.
  - rewrite Z.add_0_r in Hst. rewrite Hst, !Z.add_0_r. by destruct Hs as [->| ->].
  - pose proof (Hn 0%nat x eq_refl) as H0. rewrite Z.add_0_r in H0. rewrite H0.
    apply Forall_cons in Hok as [[Hx Hx32] Hok]. destruct (Z.eqb_spec x 0); [lia|]. destruct (Z.eqb_spec x 32); [done|]. cbn [negb andb].
    unfold poke, modify. rewrite Hb. rewrite IH.
    + do 2 f_equal; [f_equal; lia|]. f_equal. lia.
    + intros k y Hk. rewrite rd8_wr8_ne; [|apply lookup_lt_Some in Hk; lia].
      replace (line + 1 + Z.of_nat k) with (line + Z.of_nat (S k)) by lia. by apply Hn.
    + done.
    + rewrite rd8_wr8_ne by lia. replace (line + 1 + Z.of_nat (length a)) with (line + Z.of_nat (S (length a))) by lia. done.
    + done.
    + rewrite rd32_wr8_ne by lia. done.
    + lia.
    + lia.
    + lia.
Qed.

Section heap.
Context {W : Type} `{UserHeap W}.

(** Memory a program holds: static data and its blocks. *)
Definition held (l : gmap Z Z) (x : Z) : Prop := x < u_base \/ in_blocks l x.

Lemma held_mono l l' x : l ⊆ l' -> held l x -> held l' x.
Proof. intros Hl [?|(p & z & Hp & Hx)]; [by left|]. right. exists p, z. split; [by eapply lookup_weaken|done]. Qed.

(** A word put into a fresh block, with its terminator. *)
Definition put_word (m : mem) (p : Z) (a : list Z) : mem := wr8 (put_bytes m p a) (p + Z.of_nat (length a)) 0.

Lemma put_word_out m p a x : x < p \/ p + Z.of_nat (length a) < x -> rd8 (put_word m p a) x = rd8 m x.
Proof. intros Hx. unfold put_word. rewrite rd8_wr8_ne by lia. apply put_bytes_out. lia. Qed.

(** The vector of the words [ws] at [args], each in a block of its own. *)
Definition vec (m : mem) (l : gmap Z Z) (args : Z) (ws : list (list Z)) : Prop :=
  forall k a, ws !! k = Some a -> exists b z, rd32 m (args + 4 * Z.of_nat k) = b /\ l !! b = Some z /\
    Z.of_nat (length a) < z /\ b <> args /\ cstr m b a.
(** Its slots from the [k]-th on are empty. *)
Definition vec_end (m : mem) (args : Z) (k : nat) : Prop := forall j, Z.of_nat k <= j < 5 -> rd32 m (args + 4 * j) = 0.

Lemma vec_keep m m' l l' args ws z :
  l ⊆ l' -> l !! args = Some z -> 20 <= z -> (length ws <= 5)%nat ->
  (forall x, (in_blocks (delete args l) x \/ args <= x < args + 4 * Z.of_nat (length ws)) -> rd8 m' x = rd8 m x) ->
  vec m l args ws -> vec m' l' args ws.
Proof.
  intros Hl Ha Hz Hn Hx Hv k a Hk. destruct (Hv k a Hk) as (b & y & Hb & Hy & Hlen & Hne & Hc).
  pose proof (lookup_lt_Some _ _ _ Hk). exists b, y. split_and!; [|by eapply lookup_weaken|done|done|].
  - rewrite <- Hb. apply rd32_ext. intros x Hx'. apply Hx. right. lia.
  - eapply cstr_ext; [|exact Hc]. intros x Hx'. apply Hx. left. exists b, y. rewrite lookup_delete_ne by done. split; [done|lia].
Qed.

Variables (l0 : gmap Z Z) (args : Z).

(** Before and after some of the arguments are copied. *)
Definition copying (r : Z) (l : gmap Z Z) (ws : list (list Z)) (s : ustate W) : Prop :=
  u_heap r l s /\ l0 ⊆ l /\ (exists z, l !! args = Some z /\ 20 <= z) /\ l0 !! args = None /\
  vec s.(u_mem) l args ws /\ vec_end s.(u_mem) args (length ws).

Lemma copying_word r r' l ws s a p z :
  copying r l ws s -> (length ws < 4)%nat -> arg_ok a -> l !! p = None ->
  forall s1, u_heap r' (<[p := z]> l) s1 -> 100 <= z -> kept u_base l s.(u_mem) s1.(u_mem) ->
  copying r' (<[p := z]> l) (ws ++ [a])
    (set_u_mem (put_word (wr32 s1.(u_mem) (args + 4 * Z.of_nat (length ws)) p) p a) s1) /\
  (forall x, held l0 x -> rd8 (put_word (wr32 s1.(u_mem) (args + 4 * Z.of_nat (length ws)) p) p a) x = rd8 s.(u_mem) x).
Proof.
  intros (Hh & Hl0 & (z0 & Hargs & Hz0) & Ha0 & Hv & He) Hn (Hane & Haok & Hal) Hp s1 Hh1 Hz Hk.
  set (slot := args + 4 * Z.of_nat (length ws)). set (m' := put_word _ _ _).
  assert (Hpa : p <> args) by congruence. assert (Hi : <[p:=z]> l !! p = Some z) by by rewrite lookup_insert_eq.
  assert (Hi' : <[p:=z]> l !! args = Some z0) by by rewrite lookup_insert_ne.
  pose proof (u_bounds _ _ _ _ _ Hh1 Hi) as (Hpb & Hp0 & _ & Hp32). pose proof (u_bounds _ _ _ _ _ Hh1 Hi') as (Hab & _).
  pose proof (u_apart _ _ _ _ _ _ _ Hh1 Hi Hi' Hpa) as Hsep.
  assert (Hsub : l ⊆ <[p:=z]> l) by by apply insert_subseteq.
  assert (Hout : forall x, x < slot \/ slot + 4 <= x -> x < p \/ p + z <= x -> rd8 m' x = rd8 s1.(u_mem) x).
  { intros x Hx1 Hx2. unfold m'. rewrite put_word_out by lia. apply rd8_wr32_ne. lia. }
  assert (Hother : forall x q y, l !! q = Some y -> q <= x < q + y -> q <> args -> rd8 m' x = rd8 s.(u_mem) x).
  { intros x q y Hq Hx Hqa. assert (q <> p) by congruence.
    destruct (u_apart _ _ _ p z q y Hh1 Hi ltac:(by rewrite lookup_insert_ne) ltac:(done));
      destruct (u_apart _ _ _ args z0 q y Hh1 Hi' ltac:(by rewrite lookup_insert_ne) ltac:(done));
      rewrite Hout by lia; apply Hk; right; exists q, y; done. }
  assert (Hslots : forall x, args <= x < args + 20 -> x < slot \/ slot + 4 <= x -> rd8 m' x = rd8 s.(u_mem) x).
  { intros x Hx Hs. rewrite Hout by lia. apply Hk. right. exists args, z0. split; [done|lia]. }
  assert (Hslot : rd32 m' slot = p).
  { transitivity (rd32 (wr32 s1.(u_mem) slot p) slot); [|rewrite rd32_wr32_u32; apply u32_small; lia].
    apply rd32_ext. intros x Hx. unfold m'. apply put_word_out. lia. }
  split; [split_and!|].
  - apply (u_write _ _ s1); [done|]. intros x Hx Hnx. apply Hout.
    + destruct (decide (slot <= x < slot + 4)); [|lia]. exfalso. apply Hnx. exists args, z0. split; [done|lia].
    + destruct (decide (p <= x < p + z)); [|lia]. exfalso. apply Hnx. by exists p, z.
  - by trans l.
  - by exists z0.
  - done.
  - cbn [u_mem set_u_mem]. intros k b Hkb. apply lookup_app_Some in Hkb as [Hkb|[Hle Hkb]].
    + eapply (vec_keep s.(u_mem) m' l _ args ws z0); [exact Hsub|exact Hargs|done|lia| |exact Hv|done].
      intros x [(q & y & Hq & Hx)|Hx]; [|apply Hslots; lia]. apply lookup_delete_Some in Hq as [? Hq]. by eapply Hother.
    + apply list_lookup_singleton_Some in Hkb as [Hk0 <-]. replace k with (length ws) by lia. exists p, z. split_and!; [done|done|lia|done|].
      apply put_bytes_cstr. eapply Forall_impl; [exact Haok|]. cbn. tauto.
  - cbn [u_mem set_u_mem]. intros j Hj. rewrite length_app in Hj. cbn [length] in Hj. rewrite <- (He j ltac:(lia)).
    apply rd32_ext. intros x Hx. apply Hslots; lia.
  - intros x [Hx|(q & y & Hq & Hx)].
    + rewrite Hout by lia. apply Hk. by left.
    + eapply (Hother x q y); [by eapply lookup_weaken|done|]. congruence.
Qed.
End heap.

(** ** Copying all arguments *)

Section run.
Context {W : Type} `{UserHeap W}.
Variable l0 : gmap Z Z.

Lemma fresh_held r l p z (s : ustate W) x :
  u_heap r l s -> l !! p = Some z -> l0 ⊆ l -> l0 !! p = None -> held l0 x -> x < p \/ p + z <= x.
Proof.
  intros Hh Hp Hl Hn [Hx|(q & y & Hq & Hx)]; [pose proof (u_bounds _ _ _ _ _ Hh Hp); lia|].
  assert (q <> p) by congruence.
  destruct (u_apart _ _ _ p z q y Hh Hp ltac:(by eapply lookup_weaken) ltac:(done)); lia.
Qed.

(** An interval of held memory lies on one side of a new block. *)
Lemma fresh_side r l p z (s : ustate W) a n k :
  u_heap r l s -> l !! p = Some z -> l0 ⊆ l -> l0 !! p = None -> (forall x, a <= x <= a + n -> held l0 x) ->
  0 <= n -> 0 < k <= z -> a + n < p \/ p + k <= a.
Proof.
  intros Hh Hp Hl Hn Hx Hn0 Hk. pose proof (fresh_held _ _ _ _ _ a Hh Hp Hl Hn (Hx a ltac:(lia))).
  destruct (decide (a <= p <= a + n)); [|lia]. pose proof (fresh_held _ _ _ _ _ p Hh Hp Hl Hn (Hx p ltac:(lia))). lia.
Qed.

(** The line goes on at [q] with [args]: the space before the first one has been
    passed, and one more byte after the line is 0. *)
Definition rest_at (m : mem) (q : Z) (args : list (list Z)) : Prop :=
  cstr m (q - 1) (spaced args) /\ rd8 m (q + Z.of_nat (length (spaced args))) = 0.

Lemma rest_at_ext m m' q args :
  (forall x, q - 1 <= x <= q + Z.of_nat (length (spaced args)) -> rd8 m' x = rd8 m x) -> rest_at m q args -> rest_at m' q args.
Proof. intros Hx [H1 H2]. split; [eapply cstr_ext; [|exact H1]; intros; apply Hx; lia|]. rewrite Hx by lia. done. Qed.

Lemma rest_at_tail m q a args : rest_at m q (a :: args) -> rest_at m (q + Z.of_nat (length a) + 1) args.
Proof.
  intros [H1 H2]. rewrite spaced_cons in *. split.
  - replace (q + Z.of_nat (length a) + 1 - 1) with (q + Z.of_nat (length a)) by lia. apply cstr_app.
    destruct H1 as (_ & _ & H1). by replace (q - 1 + 1) with q in H1 by lia.
  - rewrite <- H2. f_equal. cbn [length]. rewrite length_app. lia.
Qed.

Lemma copy_args_spec args rest : forall fuel q ws l r (s : ustate W),
  copying l0 args r l ws s -> Forall arg_ok rest -> (length ws + length rest <= 4)%nat -> rest_at s.(u_mem) q rest ->
  (forall x, q - 1 <= x <= q + Z.of_nat (length (spaced rest)) -> held l0 x) ->
  Z.of_nat (length rest) * (100 + SLACK) <= r -> (length rest < fuel)%nat ->
  wp (copy_args fuel q args (Z.of_nat (length ws))) (fun _ s' => exists l',
    copying l0 args (r - Z.of_nat (length rest) * (100 + SLACK)) l' (ws ++ rest) s' /\
    forall x, held l0 x -> rd8 s'.(u_mem) x = rd8 s.(u_mem) x) s.
Proof.
  induction rest as [|a rest IH]; intros fuel q ws l r s Hc Hok Hlen Hq Hheld Hr Hf;
    (destruct fuel as [|fuel]; [cbn in Hf; lia|]); cbn [copy_args length] in *.
  - apply wp_bind, wp_in_mem, wp_gets. destruct Hq as [_ Hq]. cbn [spaced fmap list_fmap mjoin list_join length] in Hq. rewrite Z.add_0_r in Hq. rewrite Hq.
    apply wp_ret. exists l. rewrite app_nil_r. destruct s. replace (r - Z.of_nat 0 * (100 + SLACK)) with r by lia. done.
  - pose proof (rest_at_tail _ _ _ _ Hq) as Hq'. apply Forall_cons in Hok as [Ha Hok]. pose proof Ha as (Hane & Haok & Hal).
    pose proof Hc as (Hh & Hl0 & (z0 & Hargs & Hz0) & Ha0 & _).
    assert (Hcs : cstr s.(u_mem) q (a ++ spaced rest)).
    { destruct Hq as [(_ & _ & Hq) _]. by replace (q - 1 + 1) with q in Hq by lia. }
    assert (Hlsp : length (spaced (a :: rest)) = S (length a + length (spaced rest))) by (rewrite spaced_cons; cbn [length]; by rewrite length_app).
    rewrite Hlsp in Hheld.
    apply wp_bind, wp_in_mem, wp_gets. destruct s as [m0 i o e w]. cbn [u_mem set_u_mem] in *.
    destruct (Z.eqb_spec (rd8 m0 q) 0) as [E|_].
    { destruct a as [|c a]; [done|]. destruct Hcs as (? & ? & _). congruence. }
    set (s := UState m0 i o e w) in *. unfold SLACK in *.
    apply wp_bind. eapply wp_mono; [apply (u_malloc_ok 100 r l s Hh); unfold SLACK; lia|].
    intros p s1 (z & Hz & Hp & Hh1 & _ & Hk & _). unfold SLACK in Hh1.
    set (slot := args + 4 * Z.of_nat (length ws)).
    assert (Hi : <[p:=z]> l !! p = Some z) by by rewrite lookup_insert_eq. assert (p <> args) by congruence.
    assert (Hsub : l0 ⊆ <[p:=z]> l) by (trans l; [done|by apply insert_subseteq]).
    assert (Hp0 : l0 !! p = None) by (eapply lookup_weaken_None; [exact Hp|done]).
    pose proof (u_bounds _ _ _ _ _ Hh1 Hi) as (_ & Hpp & _ & Hp32).
    assert (Hsep : slot + 4 <= p \/ p + z <= slot).
    { destruct (u_apart _ _ _ p z args z0 Hh1 Hi ltac:(by rewrite lookup_insert_ne) ltac:(done)); unfold slot; lia. }
    set (m2 := wr32 s1.(u_mem) slot p).
    assert (Hm2 : forall x, held l0 x -> rd8 m2 x = rd8 m0 x).
    { intros x Hx. unfold m2. pose proof (fresh_held _ _ _ _ s x Hh Hargs Hl0 Ha0 Hx).
      rewrite rd8_wr32_ne by (unfold slot; lia). apply (Hk x). by eapply held_mono. }
    assert (Hcs2 : cstr m2 q (a ++ spaced rest)).
    { eapply cstr_ext; [|exact Hcs]. intros x Hx. apply Hm2, Hheld. rewrite length_app in Hx. lia. }
    assert (Hst : rd8 m2 (q + Z.of_nat (length a)) = 0 \/ rd8 m2 (q + Z.of_nat (length a)) = 32)
      by by eapply spaced_stop, cstr_app.
    assert (Hsl : rd32 m2 slot = p) by (unfold m2; rewrite rd32_wr32_u32; apply u32_small; lia).
    pose proof (fresh_side _ _ _ _ _ q (Z.of_nat (length a)) (Z.of_nat (length a)) Hh1 Hi Hsub Hp0
      ltac:(intros; apply Hheld; lia) ltac:(lia) ltac:(destruct a; [done|cbn in *; lia])) as Hside.
    apply wp_bind, wp_modify. apply wp_bind, wp_gets. apply wp_bind, wp_in_mem. cbn [u_mem set_u_mem].
    eapply wp_Ret; [eapply (copy_arg_spec _ q slot p 0 a m2 _); [intros k x Hkx; by eapply cstr_byte|done|reflexivity|done|done|lia|lia|]|].
    { fold m2. unfold str_fuel. pose proof (cstr_size _ _ _ Hcs2) as Hsz. rewrite length_app in Hsz. lia. }
    cbn [fst snd]. apply wp_bind, wp_gets. cbn [u_mem set_u_mem]. rewrite Z.add_0_r, Z.add_0_l.
    replace (rd32 (put_bytes m2 p a) slot) with p.
    2:{ rewrite <- Hsl at 1. apply rd32_ext. intros x Hx. symmetry. apply put_bytes_out. lia. }
    apply wp_bind, wp_in_mem, wp_modify. cbn [u_mem set_u_mem].
    destruct (copying_word l0 args r (r - 100 - 4112) l ws s a p z Hc ltac:(lia) Ha Hp s1 Hh1 Hz Hk) as [Hc' Hx'].
    fold slot in Hc', Hx'. fold m2 in Hc', Hx'.
    replace (Z.of_nat (length ws) + 1) with (Z.of_nat (length (ws ++ [a]))) by (rewrite length_app; cbn [length]; lia).
    eapply wp_mono; [eapply (IH fuel _ (ws ++ [a]) _ (r - 100 - 4112) _ Hc' Hok)|].
    + rewrite length_app. cbn [length]. lia.
    + eapply rest_at_ext; [|exact Hq']. intros x Hx. apply Hx', Hheld. lia.
    + intros x Hx. apply Hheld. lia.
    + lia.
    + lia.
    + intros _ s' (l' & Hc'' & Hx''). exists l'. rewrite <- app_assoc in Hc''. split.
      * by replace (r - Z.of_nat (S (length rest)) * (100 + 4112)) with (r - 100 - 4112 - Z.of_nat (length rest) * (100 + 4112)) by lia.
      * intros x Hx. rewrite Hx'' by done. by apply Hx'.
Qed.
End run.

(** ** The path and the argument count *)

Lemma bind_run {S A B} (c : cmd S A) (k : A -> cmd S B) s a s' : c s = Ret (a, s') -> bind c k s = k a s'.
Proof. unfold bind. by intros ->. Qed.

Lemma bind_cong {S A B} (c : cmd S A) (k k' : A -> cmd S B) s : (forall a s, k a s = k' a s) -> bind c k s = bind c k' s.
Proof. intros E. unfold bind. destruct (c s) as [[a s']| |]; [apply E|done|done]. Qed.

Lemma bind3_run {S A B C D} (c1 : cmd S A) (c2 : cmd S B) (c3 : A -> B -> cmd S C) (k : A -> C -> cmd S D) s a c s' :
  (a <- c1 ;; b <- c2 ;; c <- c3 a b ;; ret (a, c)) s = Ret ((a, c), s') ->
  (a <- c1 ;; b <- c2 ;; c <- c3 a b ;; k a c) s = k a c s'.
Proof.
  unfold bind, ret. destruct (c1 s) as [[a1 s1]| |]; [|done|done]. destruct (c2 s1) as [[b1 s2]| |]; [|done|done].
  destruct (c3 a1 b1 s2) as [[c0 s3]| |]; [|done|done]. by intros [= <- <- <-].
Qed.

Lemma in_mem_run {W A} (c : cmd mem A) (s : ustate W) a m : c s.(u_mem) = Ret (a, m) -> in_mem c s = Ret (a, set_u_mem m s).
Proof. unfold in_mem. by intros ->. Qed.

Lemma libc_strlen m p l : cstr m p l -> strlen p m = Ret (Z.of_nat (length l), m).
Proof.
  intros Hc. pose proof (cstr_size _ _ _ Hc). unfold strlen, bind, Prelude.gets.
  by rewrite (libc_strlen_run m p l); [|rewrite Z.add_0_r|unfold str_fuel; lia].
Qed.

Lemma string_end_run m p l fuel : cstr m p l -> (length l < fuel)%nat -> string_end fuel p m = Ret (p + Z.of_nat (length l), m).
Proof.
  revert fuel p. induction l as [|c l IH]; intros fuel p Hc Hf;
    (destruct fuel as [|fuel]; [cbn in Hf; lia|]); cbn [string_end length] in *; unfold bind, peek, Prelude.gets.
  - cbn in Hc. by rewrite Hc, Z.add_0_r.
  - destruct Hc as (-> & Hc0 & Hc). destruct (Z.eqb_spec c 0); [done|]. cbn [negb]. rewrite IH by (done || lia). do 2 f_equal. lia.
Qed.

Lemma append_run fuel d src l m :
  cstr m src l -> src + Z.of_nat (length l) < d \/ d + Z.of_nat (length l) < src -> (length l < fuel)%nat ->
  append_loop fuel d src m = Ret (tt, put_word m d l).
Proof.
  revert fuel d src m. induction l as [|c l IH]; intros fuel d src m Hc Hsep Hf;
    (destruct fuel as [|fuel]; [cbn in Hf; lia|]); cbn [append_loop length] in *; unfold bind, peek, poke, Prelude.gets, modify.
  - cbn in Hc. rewrite Hc. unfold put_word. cbn. by rewrite Z.add_0_r.
  - destruct Hc as (-> & Hc0 & Hc). destruct (Z.eqb_spec c 0); [done|]. cbn [negb]. rewrite IH; [|eapply cstr_ext; [|exact Hc]|lia|lia].
    + unfold put_word. cbn [put_bytes length]. do 3 f_equal. lia.
    + intros x Hx. apply rd8_wr8_ne. lia.
Qed.

Lemma strcat_run m d l1 src l2 :
  cstr m d l1 -> cstr m src l2 -> let e := d + Z.of_nat (length l1) in
  src + Z.of_nat (length l2) < e \/ e + Z.of_nat (length l2) < src -> strcat d src m = Ret (d, put_word m e l2).
Proof.
  intros H1 H2 e Hsep. pose proof (cstr_size _ _ _ H1). pose proof (cstr_size _ _ _ H2). unfold strcat, bind, Prelude.gets.
  rewrite (string_end_run m d l1) by (done || unfold str_fuel; lia). by rewrite (append_run _ _ src l2) by (done || unfold str_fuel; lia).
Qed.

Lemma count_args_run m argv ws fuel i :
  (forall k, (k < length ws)%nat -> rd32 m (argv + 4 * (i + Z.of_nat k)) <> 0) -> rd32 m (argv + 4 * (i + Z.of_nat (length ws))) = 0 ->
  (length ws < fuel)%nat -> count_args fuel argv i m = Ret (i + Z.of_nat (length (A := list Z) ws), m).
Proof.
  revert fuel i. induction ws as [|w ws IH]; intros fuel i Hw He Hf;
    (destruct fuel as [|fuel]; [cbn in Hf; lia|]); cbn [count_args length] in *; unfold bind, Prelude.gets.
  - rewrite Z.add_0_r in He. by rewrite He, Z.add_0_r.
  - pose proof (Hw 0%nat ltac:(lia)) as H0. rewrite Z.add_0_r in H0. destruct (Z.eqb_spec (rd32 m (argv + 4 * i)) 0); [done|]. cbn [negb].
    rewrite IH.
    + do 2 f_equal. lia.
    + intros k Hk. replace (i + 1 + Z.of_nat k) with (i + Z.of_nat (S k)) by lia. apply Hw. lia.
    + rewrite <- He. do 2 f_equal. lia.
    + lia.
Qed.

(** ** The stages of [shell_run_command] *)

Section stages.
Context {W : Type} `{UserHeap W}.
Variable trap : Z -> list Z -> cmd (ustate W) Z.
Implicit Types s : ustate W.

(** Bytes written into a block of the heap. *)
Lemma write_block r l s p z m' :
  u_heap r l s -> l !! p = Some z -> (forall x, x < p \/ p + z <= x -> rd8 m' x = rd8 s.(u_mem) x) -> u_heap r l (set_u_mem m' s).
Proof.
  intros Hh Hp Hx. apply u_write; [done|]. intros x _ Hn. apply Hx.
  destruct (decide (p <= x < p + z)); [|lia]. exfalso. apply Hn. by exists p, z.
Qed.

(** The argument vector the kernel is given: none, or one that ends in [NULL]. *)
Definition argv_is (m : mem) (l : gmap Z Z) (argv : Z) (ws : list (list Z)) : Prop :=
  match ws with
  | [] => argv = 0
  | _ => vec m l argv ws /\ rd32 m (argv + 4 * Z.of_nat (length ws)) = 0 /\ (length ws <= 4)%nat /\ exists z, l !! argv = Some z /\ 20 <= z
  end.

Lemma argc_run r l s argv ws :
  u_heap r l s -> argv_is s.(u_mem) l argv ws -> (length ws <= size s.(u_mem))%nat -> argc_of argv s = Ret (Z.of_nat (length ws), s).
Proof.
  intros Hh Ha Hsz. unfold argc_of. destruct ws as [|w ws]; [cbn in Ha; by rewrite Ha|].
  destruct Ha as (Hv & He & _ & z & Hz & _). pose proof (u_bounds _ _ _ _ _ Hh Hz). destruct (Z.eqb_spec argv 0); [lia|]. cbn [negb].
  unfold bind, Prelude.gets. rewrite (in_mem_run _ s (Z.of_nat (length (w :: ws))) s.(u_mem)); [by destruct s|].
  rewrite (count_args_run _ _ (w :: ws)); [done| |by rewrite Z.add_0_l|unfold str_fuel; lia].
  intros k Hk. destruct (lookup_lt_is_Some_2 (w :: ws) k Hk) as [a Hka]. destruct (Hv k a Hka) as (b & y & <- & Hb & _).
  pose proof (u_bounds _ _ _ _ _ Hh Hb). rewrite Z.add_0_l. lia.
Qed.

Lemma argv_keep m m' l l' argv ws :
  l ⊆ l' -> (forall x, in_blocks l x -> rd8 m' x = rd8 m x) -> argv_is m l argv ws -> argv_is m' l' argv ws.
Proof.
  intros Hl Hx. destruct ws as [|w ws]; [done|]. intros (Hv & He & Hn & z & Hz & Hz20).
  assert (Hin : forall x, argv <= x < argv + 20 -> in_blocks l x) by (intros x Hx'; exists argv, z; split; [done|lia]).
  split_and!; [| |done|exists z; split; [by eapply lookup_weaken|done]].
  - eapply vec_keep; [exact Hl|exact Hz|done| | |exact Hv]; [lia|]. intros x [(p & y & Hp & Hpx)|Hpx]; apply Hx.
    + apply lookup_delete_Some in Hp as [_ Hp]. by exists p, y.
    + apply Hin. lia.
  - rewrite <- He. apply rd32_ext. intros x Hx'. apply Hx, Hin. lia.
Qed.

(** The path is the name after a slash, in a new block. *)
Lemma path_ready r l s cmd_ z name argv ws :
  u_heap r l s -> l !! cmd_ = Some z -> cstr s.(u_mem) cmd_ name -> Z.of_nat (length name) < z -> (length name < 100)%nat -> Forall (fun c => 0 < c < 256) name ->
  argv_is s.(u_mem) l argv ws -> (forall m, kept u_base l s.(u_mem) m -> (length ws <= size m)%nat) -> 102 + SLACK <= r -> exists path y l' r' s1,
    (forall B (k : Z -> Z -> cmd (ustate W) B), (len <- in_mem (strlen cmd_) ;;
      path <- u_malloc (u32 (len + 2)) ;; in_mem (poke path 47) ;;; in_mem (strcat path cmd_) ;;;
      n <- in_mem (strlen path) ;; in_mem (poke (path + n) 0) ;;; argc <- argc_of argv ;; k path argc) s =
     k path (Z.of_nat (length ws)) s1) /\
    u_heap r' l' s1 /\ l' = <[path := y]> l /\ l !! path = None /\
    cstr s1.(u_mem) path (47 :: name) /\ argv_is s1.(u_mem) l' argv ws /\ kept u_base l s.(u_mem) s1.(u_mem).
Proof.
  intros Hh Hc Hcs Hz Hlen Hby Hav Hws Hr. unfold SLACK in Hr.
  destruct (wp_inv _ _ _ (u_malloc_ok (Z.of_nat (length name) + 2) r l s Hh ltac:(lia) ltac:(unfold SLACK; lia)))
    as (path & s1 & Hrun & y & Hy & Hpn & Hh1 & Hzero & Hk & _).
  assert (Hp : <[path:=y]> l !! path = Some y) by by rewrite lookup_insert_eq.
  pose proof (u_bounds _ _ _ _ _ Hh1 Hp) as (_ & Hp0 & _ & Hp32).
  assert (Hcs1 : cstr s1.(u_mem) cmd_ name).
  { eapply cstr_ext; [|exact Hcs]. intros x Hx. apply Hk. right. exists cmd_, z. split; [done|lia]. }
  assert (Hsep : cmd_ + z <= path \/ path + y <= cmd_).
  { assert (path <> cmd_) by congruence. destruct (u_apart _ _ _ path y cmd_ z Hh1 Hp ltac:(by rewrite lookup_insert_ne) ltac:(done)); lia. }
  set (m1 := wr8 s1.(u_mem) path 47). set (m2 := put_word m1 (path + 1) name).
  assert (Hm2 : forall x, x < path \/ path + y <= x -> rd8 m2 x = rd8 s1.(u_mem) x).
  { intros x Hx. unfold m2. rewrite put_word_out by lia. apply rd8_wr8_ne. lia. }
  assert (Hslash : cstr m1 path [47]).
  { cbn. unfold m1. rewrite rd8_wr8_same, rd8_wr8_ne by lia. split_and!; [done|done|]. apply Hzero. lia. }
  assert (Hpath : cstr m2 path (47 :: name)).
  { cbn [cstr]. split_and!; [|done|by apply put_bytes_cstr]. unfold m2. rewrite put_word_out by lia. unfold m1. by rewrite rd8_wr8_same. }
  assert (Hcs2 : cstr m1 cmd_ name) by (eapply cstr_ext; [|exact Hcs1]; intros x Hx; apply rd8_wr8_ne; lia).
  set (m3 := wr8 m2 (path + Z.of_nat (length (47 :: name))) 0).
  assert (Hm3 : forall x, rd8 m3 x = rd8 m2 x).
  { intros x. unfold m3, m2, put_word. rewrite !rd8_wr8. cbn [length]. replace (path + 1 + Z.of_nat (length name)) with (path + Z.of_nat (S (length name))) by lia.
    by case_decide. }
  assert (Hh3 : u_heap (r - (Z.of_nat (length name) + 2) - 4112) (<[path:=y]> l) (set_u_mem m3 s1)).
  { eapply write_block; [exact Hh1|exact Hp|]. intros x Hx. rewrite Hm3. by apply Hm2. }
  assert (Hav3 : argv_is m3 (<[path:=y]> l) argv ws).
  { eapply argv_keep; [by apply insert_subseteq| |exact Hav]. intros x Hx. rewrite Hm3, Hm2; [by apply Hk; right|].
    eapply fresh_outside; [exact Hh1|lia|done|by right]. }
  assert (Hp3 : cstr m3 path (47 :: name)) by (eapply cstr_ext; [|exact Hpath]; intros; apply Hm3).
  assert (Hk3 : kept u_base l s.(u_mem) m3).
  { intros x Hx. rewrite Hm3, Hm2; [by apply Hk|]. eapply fresh_outside; [exact Hh1|lia|done|done]. }
  exists path, y, (<[path:=y]> l), (r - (Z.of_nat (length name) + 2) - 4112), (set_u_mem m3 s1). split_and!; try done.
  intros B k. erewrite bind_run; [|by eapply in_mem_run, libc_strlen]. replace (set_u_mem (u_mem s) s) with s by by destruct s.
  rewrite (u32_small (Z.of_nat (length name) + 2)) by lia. erewrite bind_run; [|exact Hrun].
  erewrite bind_run; [|by eapply in_mem_run]. erewrite bind_run; [|eapply in_mem_run, (strcat_run m1 path [47] cmd_ name); [done|done|cbn; lia]].
  cbn [length]. change (path + Z.of_nat 1) with (path + 1). fold m2.
  erewrite bind_run; [|by eapply in_mem_run, libc_strlen]. erewrite bind_run; [|by eapply in_mem_run].
  cbn [u_mem set_u_mem]. fold m3. erewrite bind_run; [done|]. by eapply argc_run; [exact Hh3|done|apply Hws].
Qed.
End stages.

Section spawn.
Context {W : Type} `{UserHeap W}.
Variable trap : Z -> list Z -> cmd (ustate W) Z.
Variable sputfpoint : Z -> Z -> Z -> cmd mem Z.
Variable lit : string -> Z.
Variables v_character v_num v_colour v_save_colour : Z.
Implicit Types s : ustate W.
#[local] Abbreviation complain := (shell_write_colour trap sputfpoint lit v_character v_num v_colour v_save_colour).

(** A command line: a name, then words, and one more zero byte, in held memory. *)
Record line_ok (l : gmap Z Z) (m : mem) (line : Z) (name : list Z) (args : list (list Z)) : Prop := {
  line_text : cstr m line (name ++ spaced args);
  line_after : rd8 m (line + Z.of_nat (length (name ++ spaced args)) + 1) = 0;
  line_held : forall x, line <= x <= line + Z.of_nat (length (name ++ spaced args)) + 1 -> held l x;
  line_name : Forall (fun c => 0 < c < 256 /\ c <> 32) name;
  line_short : (2 <= length name < 50)%nat;
  line_args : Forall arg_ok args;
  line_few : (length args <= 4)%nat
}.

Lemma line_ok_keep l m m' line name args : (forall x, held l x -> rd8 m' x = rd8 m x) -> line_ok l m line name args -> line_ok l m' line name args.
Proof.
  intros Hx [H1 H2 H3 H4 H5 H6 H7]. split; try done.
  - eapply cstr_ext; [|exact H1]. intros x Hx'. apply Hx, H3. lia.
  - rewrite Hx; [done|]. apply H3. lia.
Qed.

(** The name is copied into a block of its own. *)
Lemma name_ready r l s line name args :
  u_heap r l s -> line_ok l s.(u_mem) line name args -> 50 + SLACK <= r ->
  wp (cmd_ <- u_malloc 50 ;; n <- Prelude.gets (fun s => str_fuel s.(u_mem)) ;; r <- in_mem (copy_cmd n line cmd_ 0) ;; ret (cmd_, r))
    (fun v s' => exists z, v.2 = (Z.of_nat (length name), line + Z.of_nat (length name)) /\ l !! v.1 = None /\
      u_heap (r - 50 - SLACK) (<[v.1 := z]> l) s' /\ 50 <= z /\ cstr s'.(u_mem) v.1 name /\
      forall x, held l x -> rd8 s'.(u_mem) x = rd8 s.(u_mem) x) s.
Proof.
  intros Hh Hl Hr. unfold SLACK in *. apply wp_bind. eapply wp_mono; [apply (u_malloc_ok 50 r l s Hh); unfold SLACK; lia|].
  intros p s1 (z & Hz & Hp & Hh1 & Hzero & Hk & _). assert (Hi : <[p:=z]> l !! p = Some z) by by rewrite lookup_insert_eq.
  apply (line_ok_keep _ _ _ _ _ _ Hk) in Hl as [Ht _ Hheld Hname Hshort _ _].
  pose proof (fresh_side l _ _ _ _ _ line (Z.of_nat (length name)) (Z.of_nat (length name)) Hh1 Hi ltac:(by apply insert_subseteq) Hp
    ltac:(intros; apply Hheld; rewrite length_app; lia) ltac:(lia) ltac:(lia)) as Hside.
  apply wp_bind, wp_gets, wp_bind, wp_in_mem.
  eapply wp_Ret; [eapply copy_cmd_spec; [intros k c Hkc; by eapply cstr_byte|exact Hname|reflexivity| |lia|]|].
  { by eapply spaced_stop, cstr_app. }
  { unfold str_fuel. pose proof (cstr_size _ _ _ Ht) as Hsz. rewrite length_app in Hsz. lia. }
  apply wp_ret. rewrite Z.add_0_l, Z.add_0_r. exists z. cbn [fst snd u_mem set_u_mem]. split_and!; try done.
  - eapply write_block; [exact Hh1|exact Hi|]. intros x Hx. apply put_bytes_out. lia.
  - eapply (text_cstr s1.(u_mem)); [eapply Forall_impl; [exact Hname|cbn; tauto]|apply Hzero; lia|done].
  - intros x Hx. pose proof (fresh_held l _ _ _ _ _ x Hh1 Hi ltac:(by apply insert_subseteq) Hp Hx). rewrite put_bytes_out by lia. by apply Hk.
Qed.

(** The arguments, when there are any, are copied into a vector of blocks. *)
Lemma args_ready r l l1 s line name args :
  u_heap r l1 s -> l ⊆ l1 -> line_ok l s.(u_mem) line name args -> 20 + SLACK + 4 * (100 + SLACK) <= r ->
  wp (if i32 (Z.of_nat (length (name ++ spaced args))) <=? Z.of_nat (length name) + 1 then ret 0
      else
        args <- u_malloc 20 ;;
        n <- Prelude.gets (fun s => str_fuel s.(u_mem)) ;;
        copy_args n (line + Z.of_nat (length name) + 1) args 0 ;;;
        ret args)
    (fun argv s' => exists l' r', u_heap r' l' s' /\ l1 ⊆ l' /\ r - (20 + SLACK + 4 * (100 + SLACK)) <= r' /\
      argv_is s'.(u_mem) l' argv args /\ forall x, held l1 x -> rd8 s'.(u_mem) x = rd8 s.(u_mem) x) s.
Proof.
  intros Hh Hl01 Hl Hr. unfold SLACK in *. pose proof Hl as [Ht He Hheld Hname Hshort Hargs Hfew]. rewrite length_app in *.
  destruct args as [|a args].
  { cbn [spaced fmap list_fmap mjoin list_join length]. rewrite i32_small by lia. destruct (Z.leb_spec (Z.of_nat (length name + 0)) (Z.of_nat (length name) + 1)); [|lia].
    apply wp_ret. exists l1, r. split_and!; [done|done|lia|done|done]. }
  pose proof (spaced_length _ Hargs) as Hsl. cbn [length] in Hsl, Hfew. rewrite i32_small by lia.
  destruct (Z.leb_spec (Z.of_nat (length name + length (spaced (a :: args)))) (Z.of_nat (length name) + 1)); [lia|].
  apply wp_bind. eapply wp_mono; [apply (u_malloc_ok 20 r l1 s Hh); unfold SLACK; lia|].
  intros p s1 (z & Hz & Hp & Hh1 & Hzero & Hk & _). unfold SLACK in Hh1. assert (Hi : <[p:=z]> l1 !! p = Some z) by by rewrite lookup_insert_eq.
  assert (Hl1 : line_ok l s1.(u_mem) line name (a :: args)).
  { eapply line_ok_keep; [|exact Hl]. intros x Hx. apply Hk. by eapply held_mono. }
  apply wp_bind, wp_gets, wp_bind. eapply wp_mono; [apply (copy_args_spec l1 p (a :: args) _ _ [] (<[p:=z]> l1) (r - 20 - 4112))|].
  - split_and!; [done|by apply insert_subseteq|by exists z|done|intros k b Hkb; done|].
    intros j Hj. unfold rd32, rd16. cbn [length] in Hj. rewrite !Hzero by lia. done.
  - done.
  - cbn [length]. lia.
  - split.
    + replace (line + Z.of_nat (length name) + 1 - 1) with (line + Z.of_nat (length name)) by lia. apply cstr_app, Hl1.
    + rewrite <- (line_after _ _ _ _ _ Hl1). rewrite length_app. f_equal. lia.
  - intros x Hx. eapply held_mono; [exact Hl01|]. apply Hheld. lia.
  - unfold SLACK. cbn [length]. lia.
  - pose proof (cstr_size _ _ _ (line_text _ _ _ _ _ Hl1)) as Hsz. rewrite length_app in Hsz. unfold str_fuel. cbn [length]. lia.
  - intros _ s2 (l2 & (Hh2 & Hsub & Hargv & _ & Hv & Hend) & Hx2). apply wp_ret. eexists l2, _. split_and!; [exact Hh2|done| | |].
    + unfold SLACK. cbn [length]. lia.
    + cbn [app argv_is]. split_and!; [done| |cbn [length]; lia|done]. apply Hend. cbn [app length]. lia.
    + intros x Hx. rewrite Hx2 by done. by apply Hk.
Qed.

(** [shell_execute] up to the system call. *)
Lemma execute_run cmd_ argv s :
  shell_execute trap sputfpoint lit v_character v_num v_colour v_save_colour cmd_ argv s =
  (len <- in_mem (strlen cmd_) ;; path <- u_malloc (u32 (len + 2)) ;; in_mem (poke path 47) ;;; in_mem (strcat path cmd_) ;;;
   n <- in_mem (strlen path) ;; in_mem (poke (path + n) 0) ;;; argc <- argc_of argv ;;
   pid <- trap SYSCALL_SPAWN [path; argv; argc] ;;
   if i32 pid =? -1 then u_free path ;;; complain (lit "\nError: Executable not found!") (lit "red") ;;; ret (-1)
   else u_free path ;;; ret (i32 pid)) s.
Proof.
  unfold shell_execute, spawn, _spawn. do 6 (apply bind_cong; intros). unfold bind. by destruct (argc_of _ _) as [[? ?]| |].
Qed.

(** C7: [run name a1 ... an] spawns the program the line names.  For a name of
    2 to 49 characters and at most four arguments of 1 to 99 characters, one space
    before each and two zero bytes at the end of the line (the buffers have 50 and
    100 bytes and the vector five entries, none of which the code checks, and after
    the last argument it looks at the byte behind the terminator), and with 30000
    bytes of heap left, the shell reaches the system call with the path [/name], a
    [NULL]-terminated vector of the arguments in order ([NULL] itself when there
    are none) and their number; what follows is the error message when the call
    answers -1, the answer otherwise, and the release of the buffers.  Memory that
    was in use keeps its contents. *)
Theorem run_spawns r l s line name args :
  u_heap r l s -> line_ok l s.(u_mem) line name args -> 30000 <= r -> exists path argv cmd_ l1 r1 s1,
  shell_run_command trap sputfpoint lit v_character v_num v_colour v_save_colour line s =
    (pid <- trap SYSCALL_SPAWN [path; argv; Z.of_nat (length args)] ;;
     ret_ <- (if i32 pid =? -1 then
                u_free path ;;; complain (lit "\nError: Executable not found!") (lit "red") ;;; ret (-1)
              else u_free path ;;; ret (i32 pid)) ;;
     u_free cmd_ ;;; ret ret_) s1 /\
  cstr s1.(u_mem) path (47 :: name) /\ argv_is s1.(u_mem) l1 argv args /\
  u_heap r1 l1 s1 /\ is_Some (l1 !! path) /\ is_Some (l1 !! cmd_) /\ path <> cmd_ /\ l ⊆ l1 /\
  (forall x, held l x -> rd8 s1.(u_mem) x = rd8 s.(u_mem) x).
Proof.
  intros Hh Hl Hr. pose proof Hl as [Ht _ _ Hname Hshort Hargs Hfew].
  destruct (wp_inv _ _ _ (name_ready r l s line name args Hh Hl ltac:(unfold SLACK; lia)))
    as ([cmd_ v] & s2 & Hrun & z & Hv & Hcn & Hh2 & Hz & Hcs & Hx2). cbn [fst snd] in *. subst v.
  assert (Hsub : l ⊆ <[cmd_:=z]> l) by by apply insert_subseteq.
  pose proof (line_ok_keep _ _ _ _ _ _ Hx2 Hl) as Hl2.
  destruct (wp_inv _ _ _ (args_ready _ l _ s2 line name args Hh2 Hsub Hl2 ltac:(unfold SLACK; lia)))
    as (argv & s3 & Hrun3 & l3 & r3 & Hh3 & Hsub3 & Hr3 & Hav & Hx3). unfold SLACK in *.
  assert (Hc3 : l3 !! cmd_ = Some z) by (eapply lookup_weaken; [|exact Hsub3]; by rewrite lookup_insert_eq).
  assert (Hx3' : forall x, held l x -> rd8 s3.(u_mem) x = rd8 s.(u_mem) x).
  { intros x Hx. rewrite Hx3, Hx2; [done|done|]. by eapply held_mono. }
  destruct (path_ready r3 l3 s3 cmd_ z name argv args) as (path & y & l4 & r4 & s4 & Hrun4 & Hh4 & -> & Hpn & Hpath & Hav4 & Hk4); try done.
  { eapply cstr_ext; [|exact Hcs]. intros x Hx. apply Hx3. right. exists cmd_, z. rewrite lookup_insert_eq. split; [done|lia]. }
  { lia. }
  { lia. }
  { eapply Forall_impl; [exact Hname|]. cbn. tauto. }
  { intros m Hm. pose proof (spaced_length _ Hargs). enough (Hc : cstr m line (name ++ spaced args)).
    { pose proof (cstr_size _ _ _ Hc) as Hsz. rewrite length_app in Hsz. lia. }
    eapply (line_text l), line_ok_keep; [|exact Hl]. intros x Hx. rewrite Hm, Hx3'; [done|done|].
    eapply held_mono; [|exact Hx]. by trans (<[cmd_:=z]> l). }
  { unfold SLACK. lia. }
  exists path, argv, cmd_, (<[path:=y]> l3), r4, s4. split_and!; [|done|done|done|by rewrite lookup_insert_eq| | | |].
  - unfold shell_run_command. erewrite bind_run; [|by eapply in_mem_run, libc_strlen]. replace (set_u_mem (u_mem s) s) with s by by destruct s.
    erewrite bind3_run; [|exact Hrun]. cbn [fst snd]. destruct (Z.ltb_spec (Z.of_nat (length name)) 2); [lia|].
    erewrite bind_run; [|exact Hrun3]. unfold bind at 1. rewrite execute_run, Hrun4. unfold bind. by destruct (trap _ _ s4) as [[? ?]| |].
  - rewrite lookup_insert_ne by congruence. by rewrite Hc3.
  - congruence.
  - trans l3; [by trans (<[cmd_:=z]> l)|by apply insert_subseteq].
  - intros x Hx. rewrite Hk4; [by apply Hx3'|]. eapply held_mono; [|exact Hx]. by trans (<[cmd_:=z]> l).
Qed.
End spawn.

(** ** A command line *)

#[local] Instance shell_sbrk : Sbrk Z := {| Heap.sbrk := page_sbrk; sbrk_ok := eq; sbrk_grows := page_sbrk_grows |}.
(** The line [ls -l] in static data. *)
Definition demo_shell : ustate (uworld Z unit) :=
  UState (put_str demo_user.(h_mem) 0x1000 (chars "ls -l")) 0 0 0
         (UWorld demo_user.(allocated_size) demo_user.(h_start) demo_user.(h_end) demo_user.(h_head) demo_user.(h_pages) tt).

Lemma demo_shell_heap : u_heap 30000 {[ 0x50000009 := 16 ]} demo_shell.
Proof.
  exists [(16, true)]. split; [done|]. split; [by vm_compute|]. split_and!; [by vm_compute..|].
  intros p z. change (live _ _) with [(0x50000009, 16)]. rewrite list_elem_of_singleton, lookup_singleton_Some. naive_solver.
Qed.

Lemma demo_shell_line : line_ok (W := uworld Z unit) {[ 0x50000009 := 16 ]} demo_shell.(u_mem) 0x1000 (chars "ls") [chars "-l"].
Proof.
  split.
  - by vm_compute.
  - by vm_compute.
  - intros x Hx. left. change (length _) with 5%nat in Hx. unfold u_base, alloc_user_heap, ALLOC_HEAP_START. lia.
  - by repeat constructor.
  - cbn. lia.
  - constructor; [|constructor]. split; [done|]. split; [by repeat constructor|cbn; lia].
  - cbn. lia.
Qed.

(** A kernel that answers 42. *)
Definition demo_spawn (n : Z) (args : list Z) : cmd (ustate (uworld Z unit)) Z := ret 42.

Lemma answered {S} (f : Z -> cmd S unit) X path c s :
  (pid <- ret 42 ;; ret_ <- (if i32 pid =? -1 then X else f path ;;; ret (i32 pid)) ;; f c ;;; ret ret_) s =
  (f path ;;; f c ;;; ret 42) s.
Proof. unfold bind, ret. change (i32 42) with 42. cbn. by destruct (f path s) as [[? ?]| |]. Qed.

Lemma run_spawns_witness : exists path argv cmd_ l1 s1,
  shell_run_command demo_spawn (fun _ _ _ => ret 0) (fun _ => 0) 0 0 0 0 0x1000 demo_shell =
    (u_free path ;;; u_free cmd_ ;;; ret 42) s1 /\
  cstr s1.(u_mem) path (chars "/ls") /\ argv_is s1.(u_mem) l1 argv [chars "-l"].
Proof.
  destruct (run_spawns demo_spawn (fun _ _ _ => ret 0) (fun _ => 0) 0 0 0 0 30000 _ demo_shell 0x1000 (chars "ls") [chars "-l"]
    demo_shell_heap demo_shell_line ltac:(lia)) as (path & argv & cmd_ & l1 & r1 & s1 & Hrun & Hp & Hv & _).
  exists path, argv, cmd_, l1, s1. split; [|by split].
  rewrite Hrun. apply answered.
Defined.
