(* ===== verification/Programs.v ===== *)
(** The other user programs: [userland/init.c], [userland/ls.c], [userland/ps.c]
    and [userland/bmpview.c], and the two list functions they use, on the bytes of
    a program.  As in [Shell], [lit] gives the address of each string literal, and
    globals and locals whose address is taken have addresses of their own. *)
From stdpp Require Import base numbers gmap list strings.
From S2P Require Import Prelude Text Kmem KString Kstdio Libc LibcNum Heap Scalls Stdio StdioOut UserHeap Bmp Shell.

(** [sizeof] and field offsets of [proc_en_t], [dire_en_t] and [image_t]. *)
Definition SIZEOF_PROC_EN : Z := 400.
Definition SIZEOF_DIRE_EN : Z := 264.
Definition SIZEOF_IMAGE : Z := 8.

Definition file_types : list (Z * string) :=
  [(1, "  socket    "); (128, "  stub      "); (64, "  fifo      "); (32, "  directory "); (16, "  char dev  ");
   (8, "  blk dev   "); (2, "  symlink   "); (4, "  file      ")]%string.
Definition ps_states : list (Z * string) := [(2, "LIVING"); (1, "READY"); (3, "NAPPING"); (4, "DEAD")]%string.
Definition ps_privileges : list (Z * string) := [(2, "RING 3 (USER)"); (1, "RING 0 (SYS)")]%string.
Definition ps_types : list (Z * string) := [(2, "CLONE"); (1, "STANDALONE")]%string.

Section programs.
Context {W : Type} `{UserHeap W}.
Variable trap : Z -> list Z -> cmd (ustate W) Z.
Variable sputfpoint : Z -> Z -> Z -> cmd mem Z.
Variable lit : string -> Z.
Variables v_character v_num : Z.
Variables v_colour v_save_colour v_mode : Z.
Variables g_images g_display_width g_display_height : Z.
#[local] Abbreviation prog := (ustate W).
#[local] Abbreviation print := (printf trap sputfpoint v_character v_num).
#[local] Abbreviation colourful := (shell_write_colour trap sputfpoint lit v_character v_num v_colour v_save_colour).
#[local] Abbreviation control := (stdout_ioctl trap).

Definition abort {A} : cmd prog A := exit trap (-10).

(** ** Lists of a program *)

(** A list is [list_head], [list_tail], [list_length]; a node [previous],
    [next], [data]. *)
Definition list_create : cmd prog Z :=
  list <- u_malloc 12 ;;
  store_word list 0 ;;; store_word (list + 4) 0 ;;; store_word (list + 8) 0 ;;;
  ret list.

Definition create_node (list data : Z) : cmd prog Z :=
  if negb (list =? 0) && negb (data =? 0) then
    node <- u_malloc 12 ;; store_word (node + 8) data ;;; store_word (node + 4) 0 ;;; ret node
  else ret 0.

Definition list_append (list data : Z) : cmd prog Z :=
  if negb (list =? 0) && negb (data =? 0) then
    node <- create_node list data ;;
    length <- load (list + 8) ;;
    head <- load list ;;
    (if (i32 length =? 0) && (head =? 0) then
       store_word list node ;;; store_word (list + 4) node ;;; store_word node 0 ;;; store_word (node + 4) 0
     else when 0 <? i32 length do
       (tail <- load (list + 4) ;;
        if head =? tail then
          store_word (list + 4) node ;;;
          tail <- load (list + 4) ;; store_word (head + 4) tail ;;;
          store_word tail head ;;;
          store_word (tail + 4) 0
        else
          store_word (tail + 4) node ;;; store_word node tail ;;; store_word (list + 4) node)) ;;;
    length <- load (list + 8) ;;
    store_word (list + 8) (u32 (length + 1)) ;;;
    ret node
  else ret 0.

(** [list_each(item, list)]: the body gets [item->data]. *)
Fixpoint each_item (fuel : nat) (item : Z) (body : Z -> cmd prog unit) : cmd prog unit :=
  match fuel with
  | O => hang
  | S fuel' =>
      if item =? 0 then ret tt
      else data <- load (item + 8) ;; body data ;;; next <- load (item + 4) ;; each_item fuel' next body
  end.
Definition list_each (fuel : nat) (list : Z) (body : Z -> cmd prog unit) : cmd prog unit :=
  item <- load list ;; each_item fuel item body.

(** A [switch] of [printf]s without a default. *)
Fixpoint switch_print (cases : list (Z * string)) (v : Z) : cmd prog unit :=
  match cases with
  | [] => ret tt
  | (n, text) :: cases' => if v =? n then print (lit text) [] ;;; ret tt else switch_print cases' v
  end.

(** ** init *)

Definition init_main (argc argv : Z) : cmd prog unit :=
  print (lit "argc: %d") [u32 argc] ;;;
  if negb (argc =? 3) then abort
  else
    arg0 <- load (argv + 4) ;;
    arg1 <- load (argv + 8) ;;
    c <- in_mem (strcmp arg0 (lit "DBOS-SOBD")) ;;
    if negb (c =? 0) then abort
    else
      c <- in_mem (strcmp arg1 (lit "SOBD-DBOS")) ;;
      if negb (c =? 0) then abort
      else
        pid <- spawn trap (lit "/shell") 0 ;;
        waitpid trap (i32 pid) ;;;
        print (lit "\n%s\n") [lit "Bye-bye :)"] ;;;
        ret tt.

(** ** ls *)

(** The same text as the function of the shell. *)
Definition ls_write_colour (string col : Z) : cmd prog unit := colourful string col.

(** [while(ret != -1)]: one round per entry. *)
Fixpoint ls_collect (fuel : nat) (root entry_list i : Z) : cmd prog unit :=
  match fuel with
  | O => hang
  | S fuel' =>
      entry <- u_malloc SIZEOF_DIRE_EN ;;
      id <- load root ;;
      r <- _list trap id entry i ;;
      if (i =? 0) && (i32 r =? -1) then
        ls_write_colour (lit "\nERROR: filename specified is not a directory!") (lit "red") ;;; abort
      else if negb (i32 r =? -1) then list_append entry_list entry ;;; ls_collect fuel' root entry_list (i + 1)
      else ret tt
  end.

(** [j] counts the entries printed. *)
Definition ls_entry (entry j : Z) : cmd prog unit :=
  ls_write_colour (lit "\n|TYPE|:[") (lit "green") ;;;
  type <- load (entry + 260) ;;
  switch_print file_types (u16 type) ;;;
  ls_write_colour (lit "]") (lit "green") ;;;
  ls_write_colour (lit "  |SIZE|:[ ") (lit "cyan") ;;;
  size <- u_malloc 12 ;;
  n <- load (entry + 256) ;;
  in_mem (sprintf sputfpoint size (lit "%d") [n]) ;;;
  print (lit "%s") [size] ;;;
  size_len <- in_mem (strlen size) ;;
  let diff := 12 - i32 size_len in
  for_ (Z.to_nat diff) 0 (fun _ => print (lit "%c") [32] ;;; ret tt) ;;;
  ls_write_colour (lit "]") (lit "cyan") ;;;
  ls_write_colour (lit "  |NAME|:[ ") (lit "yellow") ;;;
  (if j =? 0 then ls_write_colour entry (lit "red") else print entry [] ;;; ret tt) ;;;
  ls_write_colour (lit " ]") (lit "yellow").
Fixpoint ls_entries (fuel : nat) (item j : Z) : cmd prog unit :=
  match fuel with
  | O => hang
  | S fuel' =>
      if item =? 0 then ret tt
      else
        entry <- load (item + 8) ;; ls_entry entry j ;;;
        next <- load (item + 4) ;; ls_entries fuel' next (j + 1)
  end.

Definition ls_main (fuel : nat) (argc argv : Z) : cmd prog unit :=
  if 2 <? argc then ls_write_colour (lit "ERROR: too many arguments!") (lit "red") ;;; abort
  else
    path <-
      (if argc =? 2 then
         a <- load (argv + 4) ;;
         c <- in_mem (peek a) ;;
         if negb (c =? 47) then
           ls_write_colour (lit "\nERROR! pathname is missing a forward slash!") (lit "red") ;;; abort
         else ret a
       else ret (lit "/")) ;;
    root <- fopen trap u_malloc u_free (lit "r") (lit "w") (lit "rw") path (lit "r") ;;
    if root =? 0 then ls_write_colour (lit "\nERROR! directory not found!") (lit "red") ;;; abort
    else
      entry_list <- list_create ;;
      ls_collect fuel root entry_list 0 ;;;
      ls_write_colour (lit "\n**************************************") (lit "blue") ;;;
      ls_write_colour (lit "\n   DIRECTORY LISTING OF: ") (lit "blue") ;;;
      print (lit "%s") [path] ;;;
      ls_write_colour (lit "\n**************************************") (lit "blue") ;;;
      item <- load entry_list ;;
      ls_entries fuel item 0 ;;;
      ls_write_colour (lit "\n**************************************") (lit "blue").

(** ** ps *)

Definition ps_write_colour (string col : Z) : cmd prog unit := colourful string col.

Fixpoint ps_collect (fuel : nat) (process_list i : Z) : cmd prog unit :=
  match fuel with
  | O => hang
  | S fuel' =>
      entry <- u_malloc SIZEOF_PROC_EN ;;
      r <- _ps trap entry i ;;
      if negb (i32 r =? -1) then list_append process_list entry ;;; ps_collect fuel' process_list (i + 1)
      else ret tt
  end.

Definition ps_entry (entry : Z) : cmd prog unit :=
  ps_write_colour (lit "\nPID: [") (lit "white") ;;;
  pid <- load entry ;;
  print (lit "%d") [pid] ;;;
  ps_write_colour (lit "]") (lit "white") ;;;
  ps_write_colour (lit "   || CMD: [ ") (lit "red") ;;;
  print (lit "%s") [entry + 4] ;;;
  ps_write_colour (lit " ],  DETAILS: [ ") (lit "red") ;;;
  print (lit "%s") [entry + 132] ;;;
  ps_write_colour (lit " ]") (lit "red") ;;;
  ps_write_colour (lit "\n   || STATE: [ ") (lit "blue") ;;;
  state <- load (entry + 388) ;;
  switch_print ps_states state ;;;
  ps_write_colour (lit " ]") (lit "blue") ;;;
  ps_write_colour (lit "\n   || PRIVILEGE: [ ") (lit "green") ;;;
  privilege <- load (entry + 392) ;;
  switch_print ps_privileges privilege ;;;
  ps_write_colour (lit " ]") (lit "green") ;;;
  ps_write_colour (lit "\n   || TYPE: [ ") (lit "yellow") ;;;
  type <- load (entry + 396) ;;
  switch_print ps_types type ;;;
  ps_write_colour (lit " ]\n") (lit "yellow").

Definition ps_main (fuel : nat) : cmd prog unit :=
  process_list <- list_create ;;
  ps_collect fuel process_list 0 ;;;
  ps_write_colour (lit "\n***********************************************") (lit "blue") ;;;
  ps_write_colour (lit "\n***** LIST OF CURRENTLY RUNNING PROCESSES *****") (lit "blue") ;;;
  ps_write_colour (lit "\n***********************************************") (lit "blue") ;;;
  list_each fuel process_list ps_entry ;;;
  ps_write_colour (lit "***********************************************") (lit "blue").

(** ** bmpview *)

Definition image_display (image : Z) : cmd prog unit :=
  img <- load image ;;
  buffer <- load (image + 4) ;;
  w <- bmp_width img ;;
  h <- bmp_height img ;;
  let img_width := i32 w in
  let img_height := i32 h in
  dw <- load g_display_width ;;
  dh <- load g_display_height ;;
  let display_width := i32 dw in
  let display_height := i32 dh in
  let margin_horiz := i32 (display_width - img_width) in
  let margin_vert := i32 (display_height - img_height) in
  let margin_horiz := if 0 <? margin_horiz then Z.quot margin_horiz 2 else margin_horiz in
  let margin_vert := if 0 <? margin_vert then Z.quot margin_vert 2 else margin_vert in
  file <- Prelude.gets u_stdout ;;
  fseek file (i32 (margin_vert * display_width + margin_horiz)) SEEK_SET ;;;
  for_ (Z.to_nat img_height) 0 (fun i =>
    file <- Prelude.gets u_stdout ;;
    fwrite trap (buffer + 4 * (i * img_width)) (u32 img_width) 1 file ;;;
    fseek file (i32 (margin_horiz + margin_horiz)) SEEK_CUR ;;;
    ret tt).

(** [for(int i = 0; i < argc; i++)]: load every image named on the command line. *)
Fixpoint bmpview_load (n : nat) (argv i : Z) : cmd prog unit :=
  match n with
  | O => ret tt
  | S n' =>
      path <- load (argv + 4 * i) ;;
      image <- bmp_load trap lit path ;;
      if negb (image =? 0) then
        w <- bmp_width image ;;
        h <- bmp_height image ;;
        buffer <- u_malloc (u32 (4 * w * h)) ;;
        n_pixels <- bmp_pixels image ;;
        bmp_read trap image buffer 0 n_pixels 0 ;;;
        img <- u_malloc SIZEOF_IMAGE ;;
        store_word img image ;;;
        store_word (img + 4) buffer ;;;
        images <- load g_images ;;
        list_append images img ;;;
        bmpview_load n' argv (i + 1)
      else
        store_word v_colour 0x00FF0000 ;;;
        store_word v_save_colour 0x00FFFFFF ;;;
        control STDOUT_CMD_SET_FG_COLOUR v_colour ;;;
        print (lit "%s") [lit "ERROR: One or more image files could not be loaded!\n"] ;;;
        control STDOUT_CMD_SET_FG_COLOUR v_save_colour ;;;
        abort
  end.

Definition bmpview_main (fuel : nat) (argc argv : Z) : cmd prog unit :=
  type <- control STDOUT_CMD_GET_DISP_TYPE 0 ;;
  if type =? STDOUT_DISP_TYPE_VGA then
    store_word v_colour 0x04 ;;;
    save <- control STDOUT_CMD_GET_FG_COLOUR 0 ;;
    store_word v_save_colour (u32 save) ;;;
    control STDOUT_CMD_SET_FG_COLOUR v_colour ;;;
    print (lit "%s") [lit "ERROR: Current display capabilities do not allow for displaying images!"] ;;;
    control STDOUT_CMD_SET_FG_COLOUR v_save_colour ;;;
    abort
  else
    images <- list_create ;;
    store_word g_images images ;;;
    bmpview_load (Z.to_nat argc) argv 0 ;;;
    store_word v_mode STDOUT_MODE_PX ;;;
    control STDOUT_CMD_SET_MODE v_mode ;;;
    w <- control STDOUT_CMD_GETW 0 ;;
    store_word g_display_width (u32 w) ;;;
    h <- control STDOUT_CMD_GETH 0 ;;
    store_word g_display_height (u32 h) ;;;
    control STDOUT_CMD_CLEAR 0 ;;;
    for_ 3 0 (fun _ =>
      images <- load g_images ;;
      list_each fuel images (fun image =>
        image_display image ;;; sleep trap 20000 ;;; control STDOUT_CMD_CLEAR 0 ;;; ret tt)).
End programs.

(** * An image on the screen *)

Section display.
Context {W : Type} `{UserHeap W}.
Variable trap : Z -> list Z -> cmd (ustate W) Z.
Variables g_display_width g_display_height : Z.
(** The colour of each pixel, by its place in the frame. *)
Variable screen : W -> Z -> Z.

(** Writing [n] pixels at [off] inside a screen of [size] pixels colours them and
    leaves the program's memory as it is. *)
Definition draws (id size : Z) : Prop := forall (s : ustate W) off n buf,
  0 <= off -> 0 <= n -> off + n <= size ->
  exists r s', trap SYSCALL_WRITE [id; off; n; buf] s = Ret (r, s') /\
    s'.(u_mem) = s.(u_mem) /\ s'.(u_stdout) = s.(u_stdout) /\
    forall k, screen s'.(u_world) k =
      if decide (off <= k < off + n) then rd32 s.(u_mem) (buf + 4 * (k - off)) else screen s.(u_world) k.

(** An image structure, its header and the display size in memory; the position
    of [stdout] is no part of them. *)
Record shown (m : mem) (file image buffer w h dw dh : Z) : Prop := {
  sh_buffer : rd32 m (image + 4) = buffer;
  sh_width : rd32 m (rd32 m (rd32 m image + 4) + 4) = w;
  sh_height : rd32 m (rd32 m (rd32 m image + 4) + 8) = h;
  sh_dwidth : rd32 m g_display_width = dw;
  sh_dheight : rd32 m g_display_height = dh;
  sh_apart : buffer + 4 * (w * h) <= file \/ file + 8 <= buffer
}.

(** The screen after [i] rows of the image, in the middle. *)
Definition rows_shown (m : mem) (buffer w dw mh mv i : Z) (old new : Z -> Z) : Prop := forall x y,
  0 <= x < dw -> 0 <= y ->
  new (y * dw + x) =
  if decide (mh <= x < mh + w /\ mv <= y < mv + i) then rd32 m (buffer + 4 * ((y - mv) * w + (x - mh)))
  else old (y * dw + x).

Lemma row_place w dw mh r x y :
  dw = w + 2 * mh -> 0 <= mh -> 0 <= w -> 0 <= x < dw ->
  r * dw + mh <= y * dw + x < r * dw + mh + w <-> mh <= x < mh + w /\ y = r.
Proof.
  intros -> Hmh Hw Hx. split.
  - intros Hk. assert (y = r) as -> by nia. lia.
  - intros [Hk ->]. lia.
Qed.

Lemma row_added m buffer w dw mh mv i old mid new :
  dw = w + 2 * mh -> 0 <= mh -> 0 <= w -> 0 <= i ->
  rows_shown m buffer w dw mh mv i old mid ->
  (forall k, new k = if decide ((mv + i) * dw + mh <= k < (mv + i) * dw + mh + w)
                     then rd32 m (buffer + 4 * (i * w) + 4 * (k - ((mv + i) * dw + mh))) else mid k) ->
  rows_shown m buffer w dw mh mv (i + 1) old new.
Proof.
  intros Hdw Hmh Hw Hi Hmid Hnew x y Hx Hy. rewrite Hnew.
  pose proof (row_place w dw mh (mv + i) x y Hdw Hmh Hw Hx) as Hrow.
  destruct (decide (_ <= y * dw + x < _)) as [Hin|Hout].
  - apply Hrow in Hin as [Hx' ->]. rewrite decide_True by lia. f_equal. lia.
  - rewrite (Hmid x y Hx Hy). destruct (decide (mh <= x < mh + w /\ mv <= y < mv + i)).
    + by rewrite decide_True by lia.
    + rewrite decide_False; [done|]. intros [? ?]. apply Hout, Hrow. lia.
Qed.

(** What holds before row [j] is written. *)
Definition showing (s0 : ustate W) (file id buffer w dw mh mv j : Z) (t : ustate W) : Prop :=
  t.(u_stdout) = file /\ rd32 t.(u_mem) file = id /\ rd32 t.(u_mem) (file + 4) = (mv + j) * dw + mh /\
  (forall x, x < file + 4 \/ file + 8 <= x -> rd8 t.(u_mem) x = rd8 s0.(u_mem) x) /\
  rows_shown s0.(u_mem) buffer w dw mh mv j (screen s0.(u_world)) (screen t.(u_world)).

Lemma margin_half d : 0 <= d < 2 ^ 31 -> (if 0 <? i32 d then Z.quot (i32 d) 2 else i32 d) = d / 2.
Proof.
  intros Hd. rewrite i32_small by lia. destruct (Z.ltb_spec 0 d); [by rewrite Z.quot_div_nonneg by lia|].
  by replace d with 0 by lia.
Qed.

Lemma row_bounds w h dw dh mh mv j :
  0 < w -> 0 <= mh -> 0 <= mv -> dw = w + 2 * mh -> h + 2 * mv <= dh -> dw * dh < 2 ^ 31 -> 0 <= j < h ->
  0 <= (mv + j) * dw + mh /\ (mv + j) * dw + mh + w <= dw * dh /\ (mv + (j + 1)) * dw + mh < 2 ^ 32 /\
  0 <= mh /\ mh + mh < 2 ^ 31 /\ 0 <= w < 2 ^ 31.
Proof. intros. assert ((mv + j + 1) * dw <= dh * dw) by (apply Z.mul_le_mono_nonneg_r; lia). nia. Qed.

Lemma row_written (s0 t : ustate W) file id buffer w h dw dh mh mv j :
  draws id (dw * dh) -> buffer + 4 * (w * h) <= file \/ file + 8 <= buffer ->
  0 < w -> 0 <= mh -> 0 <= mv -> dw = w + 2 * mh -> h + 2 * mv <= dh -> dw * dh < 2 ^ 31 -> 0 <= j < h ->
  showing s0 file id buffer w dw mh mv j t ->
  wp (file <- Prelude.gets u_stdout ;;
      fwrite trap (buffer + 4 * (j * w)) (u32 w) 1 file ;;;
      fseek file (i32 (mh + mh)) SEEK_CUR ;;;
      ret tt) (fun _ => showing s0 file id buffer w dw mh mv (j + 1)) t.
Proof.
  intros Hd Hap Hw Hmh Hmv Hdw Hdh Hsz Hj (Hf & Hid & Hpos & Hm & Hrows).
  destruct (row_bounds w h dw dh mh mv j) as (B1 & B2 & B3 & B4 & B5 & B6); try done.
  apply wp_bind, wp_gets. rewrite Hf. apply wp_bind. unfold fwrite. rewrite (u32_small w), Z.mul_1_r, (u32_small w) by lia.
  apply wp_bind, wp_gets, wp_bind, wp_gets, wp_bind. rewrite Hid, Hpos.
  destruct (Hd t ((mv + j) * dw + mh) w (buffer + 4 * (j * w))) as (r & t1 & E & Em & Ef & Es); [lia..|].
  eapply wp_Ret; [exact E|]. apply wp_bind, wp_gets, wp_bind, wp_modify, wp_ret. rewrite Em, Hpos.
  rewrite (u32_small (_ + w)) by lia. unfold fseek. cbn [Z.eqb SEEK_CUR SEEK_SET]. apply wp_bind, wp_bind, wp_gets.
  apply wp_bind, wp_modify, wp_ret, wp_ret. cbn [u_mem set_u_mem].
  rewrite (i32_small (mh + mh)), (u32_small (mh + mh)), rd32_wr32_same by (unfold is_u32; lia).
  rewrite (u32_small (_ + (mh + mh))) by lia.
  split_and!; cbn [u_mem u_stdout u_world set_u_mem].
  - by rewrite Ef.
  - by rewrite !rd32_wr32_ne by lia.
  - rewrite rd32_wr32_same by (unfold is_u32; lia). lia.
  - intros x Hx. rewrite !rd8_wr32_ne by lia. by apply Hm.
  - eapply row_added; [done|done|lia|lia|exact Hrows|]. intros k. rewrite Es.
    destruct (decide _) as [Hk|]; [|done]. apply rd32_ext. intros x Hx. apply Hm. nia.
Qed.

(** C14: [image_display] puts the image in the middle of the screen: if the width
    of the display exceeds that of the image by an even number of pixels, pixel
    (x, y) of the screen shows the pixel of the image [mh] columns to the left and
    [mv] rows up, where the image reaches, and keeps its colour elsewhere. *)
Theorem image_display_centred (s : ustate W) file id image buffer w h dw dh :
  s.(u_stdout) = file -> rd32 s.(u_mem) file = id -> draws id (dw * dh) ->
  shown s.(u_mem) file image buffer w h dw dh ->
  0 < w <= dw -> 0 < h <= dh -> Z.even (dw - w) = true -> dw * dh < 2 ^ 31 ->
  let mh := (dw - w) / 2 in
  let mv := (dh - h) / 2 in
  wp (image_display trap g_display_width g_display_height image)
    (fun _ s' => forall x y, 0 <= x < dw -> 0 <= y < dh ->
       screen s'.(u_world) (y * dw + x) =
       if decide (mh <= x < mh + w /\ mv <= y < mv + h) then rd32 s.(u_mem) (buffer + 4 * ((y - mv) * w + (x - mh)))
       else screen s.(u_world) (y * dw + x)) s.
Proof.
  intros Hf Hid Hd [Hb Hiw Hih Hdw Hdh Hap] Hw Hh Hev Hsz mh mv.
  assert (dw = w + 2 * mh) as Edw.
  { apply Z.even_spec in Hev as [q Hq]. unfold mh. zdm. }
  assert (0 <= mh /\ 0 <= mv /\ h + 2 * mv <= dh) as (Hmh & Hmv & Hv) by (unfold mh, mv; zdm).
  assert (dw < 2 ^ 31 /\ dh < 2 ^ 31) as [Bw Bh] by nia.
  unfold image_display, bmp_width, bmp_height, info_width, info_height. cbn zeta.
  do 2 apply wp_bind, wp_gets. do 2 (apply wp_bind; do 2 apply wp_bind, wp_gets; apply wp_ret, wp_ret).
  rewrite Hb, Hiw, Hih, Hdw, Hdh, Hf.
  rewrite (i32_small w), (i32_small h), (i32_small dw), (i32_small dh), (u32_small w), (u32_small h) by lia.
  rewrite (i32_small w), (i32_small h), !margin_half by lia. fold mh mv.
  destruct (row_bounds w h dw dh mh mv 0) as (B1 & B2 & _); [lia..|]. rewrite Z.add_0_r in B1, B2.
  unfold fseek at 1. cbn [Z.eqb SEEK_SET]. apply wp_bind, wp_bind, wp_modify, wp_ret.
  rewrite (i32_small (mv * dw + mh)), (u32_small (mv * dw + mh)) by lia.
  eapply wp_mono.
  - apply (wp_for (showing s file id buffer w dw mh mv)).
    + split_and!; cbn [u_mem u_stdout u_world set_u_mem]; [done|by rewrite rd32_wr32_ne by lia| | |].
      * rewrite rd32_wr32_same, Z.add_0_r by (unfold is_u32; lia). done.
      * intros x Hx. by rewrite rd8_wr32_ne by lia.
      * intros x y Hx Hy. by rewrite decide_False by lia.
    + intros j t Hj. rewrite Z.add_0_l, Z2Nat.id in Hj by lia. apply (row_written s t file id buffer w h dw dh); done || lia.
  - intros [] s' (_ & _ & _ & _ & Hr) x y Hx Hy. rewrite Z.add_0_l, Z2Nat.id in Hr by lia. apply Hr; lia.
Qed.
End display.

(** ** A small screen *)

(** A kernel whose display is the world, and a program with an image one pixel
    wide and two high, red over blue. *)
Definition demo_draw (n : Z) (args : list Z) : cmd (ustate (Z -> Z)) Z := fun s =>
  match args with
  | [id; off; size; buf] =>
      Ret (size, UState s.(u_mem) s.(u_stdin) s.(u_stdout) s.(u_stderr)
        (fun k => if decide (off <= k < off + size) then rd32 s.(u_mem) (buf + 4 * (k - off)) else s.(u_world) k))
  | _ => Ret (0, s)
  end.
Definition demo_view (dw dh : Z) : ustate (Z -> Z) :=
  UState (foldl (fun m '(a, v) => wr32 m a v) ∅
            [(0x100, 1); (0x200, 0x300); (0x204, 0x400); (0x304, 0x340); (0x344, 1); (0x348, 2);
             (0x400, 0xff0000); (0x404, 0x0000ff); (0x500, dw); (0x504, dh)])
         0 0x100 0 (fun _ => 0).

Lemma image_display_centred_witness :
  wp (image_display demo_draw 0x500 0x504 0x200)
    (fun _ s' => s'.(u_world) (1 * 3 + 1) = 0xff0000 /\ s'.(u_world) (2 * 3 + 1) = 0x0000ff /\ s'.(u_world) (2 * 3 + 2) = 0)
    (demo_view 3 4).
Proof.
  eapply wp_mono.
  - apply (image_display_centred demo_draw 0x500 0x504 (fun w => w) (demo_view 3 4) 0x100 1 0x200 0x400 1 2 3 4);
      [done|by vm_compute| | |lia|lia|done|lia].
    2: { split; [by vm_compute..|]. right. lia. }
    intros s off n buf _ _ _. eexists _, _. split; [reflexivity|]. done.
  - intros [] s' Hs. rewrite !Hs by lia. split_and!; by vm_compute.
Defined.

(** An odd difference of the widths: on a screen four wide the second row starts
    one column too far to the left. *)
Example odd_margin_shears :
  wp (image_display demo_draw 0x500 0x504 0x200)
    (fun _ s' => s'.(u_world) (0 * 4 + 1) = 0xff0000 /\ s'.(u_world) (1 * 4 + 1) = 0 /\ s'.(u_world) (1 * 4 + 0) = 0x0000ff)
    (demo_view 4 2).
Proof. vm_compute. done. Qed.
