(* ===== verification/Vga.v ===== *)
(** The text screen, [drivers/devices/vga/vga.c]: an 80 by 25 array of character
    cells, written through the device file or scrolled and cleared by commands.

    Registration of the device file ([initialise_vga]'s calls into the device
    file system) is not part of the model. *)
From stdpp Require Import base numbers gmap list.
From S2P Require Import Prelude Arrays.

Definition ROWS : Z := 25.
Definition COLS : Z := 80.
Definition CRT_VGA_CURS_CONF_PORT : Z := 0x3D4.
Definition CRT_VGA_CURS_OUTP_PORT : Z := 0x3D5.
Definition VGA_CMD_SCROLL : Z := 0x01.
Definition VGA_CMD_MOVCRS : Z := 0x02.
Definition VGA_CMD_MOVCRS_XY : Z := 0x03.
Definition VGA_CMD_CLRSCR : Z := 0x04.
Definition VGA_CMD_SET_FG_COLOUR : Z := 0x05.
Definition VGA_CMD_GET_FG_COLOUR : Z := 0x06.
Definition VGA_CMD_SET_BG_COLOUR : Z := 0x07.
Definition VGA_CMD_GET_BG_COLOUR : Z := 0x08.
Definition VGA_CMD_GET_W : Z := 0x09.
Definition VGA_CMD_GET_H : Z := 0x0A.

(** The globals of [vga.c] and the trace of port writes. *)
Record vga := Vga {
  video_memory : list Z; colour_setting : Z; vga_device : Z; vga_status : Z; vga_ports : list (Z * Z)
}.

Definition set_cells (c : list Z) (s : vga) : vga :=
  Vga c s.(colour_setting) s.(vga_device) s.(vga_status) s.(vga_ports).
Definition set_colour (c : Z) (s : vga) : vga :=
  Vga s.(video_memory) c s.(vga_device) s.(vga_status) s.(vga_ports).
Definition vga_out (port data : Z) : cmd vga unit :=
  modify (fun s => Vga s.(video_memory) s.(colour_setting) s.(vga_device) s.(vga_status)
                       (s.(vga_ports) ++ [(port, u8 data)])).

(** [video_memory[i]] and [video_memory[i] = v]. *)
Definition cell (i : Z) : cmd vga Z := bind (gets video_memory) (fun c => of_option (arr_get c i)).
Definition put_cell (i v : Z) : cmd vga unit :=
  fun s => match arr_set s.(video_memory) i v with
           | Some c => Ret (tt, set_cells c s)
           | None => Fault
           end.

(** A character cell in a colour. *)
Definition paint (colour ch : Z) : Z := Z.lor (Z.land ch 0x00FF) (u16 (Z.shiftl colour 8)).

Definition vga_dev_open (device : Z) : cmd vga Z := ret 0.
Definition vga_dev_close (device : Z) : cmd vga Z := ret 0.

(** The bytes read are the second component. *)
Fixpoint read_cells (n : nat) (start : Z) : cmd vga (list Z) :=
  match n with
  | O => ret []
  | S n' => temp <- cell start ;; rest <- read_cells n' (start + 1) ;; ret (u8 temp :: rest)
  end.
Definition vga_dev_read (device start_at size : Z) : cmd vga (Z * list Z) :=
  let video_mem_length := ROWS * COLS in
  if video_mem_length - 1 <? start_at then ret (-1, [])
  else
    let read_length :=
      if video_mem_length <? u32 (start_at + size) then video_mem_length - start_at else size in
    bytes <- read_cells (Z.to_nat (u32 (start_at + read_length) - start_at)) start_at ;;
    ret (i32 read_length, bytes).

(** [buffer j] is the [j]-th byte of the caller's buffer. *)
Definition vga_dev_write (device start_at size : Z) (buffer : Z -> Z) : cmd vga Z :=
  let video_mem_length := ROWS * COLS in
  if video_mem_length - 1 <? start_at then ret (-1)
  else
    let written_length :=
      if video_mem_length <? u32 (start_at + size) then video_mem_length - start_at else size in
    for_ (Z.to_nat (u32 (start_at + written_length) - start_at)) start_at (fun start =>
      colour <- gets colour_setting ;;
      put_cell start (paint colour (buffer (start - start_at)))) ;;;
    ret (i32 written_length).

Definition vga_get_foreground_colour : cmd vga Z := gets (fun s => u8 (Z.land s.(colour_setting) 0x0F)).
Definition vga_get_background_colour : cmd vga Z := gets (fun s => u8 (Z.shiftr s.(colour_setting) 4)).
Definition vga_set_foreground_colour (colour : Z) : cmd vga unit :=
  modify (fun s => let current_bg := u8 (Z.shiftr s.(colour_setting) 4) in
                   set_colour (u8 (Z.lor (Z.shiftl current_bg 4) (Z.land colour 0x0F))) s).
Definition vga_set_background_colour (colour : Z) : cmd vga unit :=
  modify (fun s => let current_fg := u8 (Z.land s.(colour_setting) 0x0F) in
                   set_colour (u8 (Z.lor (Z.shiftl colour 4) (Z.land current_fg 0x0F))) s).
Definition vga_change_colour_settings (foreground background : Z) : cmd vga unit :=
  modify (set_colour (u8 (Z.lor (Z.shiftl background 4) (Z.land foreground 0x0F)))).
Definition vga_get_colour_settings : cmd vga Z := gets colour_setting.

Definition vga_scroll : cmd vga unit :=
  for_ (Z.to_nat ((ROWS - 1) * COLS)) 0 (fun x => v <- cell (x + COLS) ;; put_cell x v) ;;;
  for_ (Z.to_nat COLS) ((ROWS - 1) * COLS) (fun x =>
    colour <- gets colour_setting ;;
    put_cell x (paint colour 32)).

Definition vga_move_cursor_xy (x y : Z) : cmd vga unit :=
  let cursor_location := u16 (y * COLS + x) in
  vga_out CRT_VGA_CURS_CONF_PORT 14 ;;;
  vga_out CRT_VGA_CURS_OUTP_PORT (Z.shiftr cursor_location 8) ;;;
  vga_out CRT_VGA_CURS_CONF_PORT 15 ;;;
  vga_out CRT_VGA_CURS_OUTP_PORT cursor_location.

Definition vga_move_cursor (location : Z) : cmd vga unit :=
  vga_out CRT_VGA_CURS_CONF_PORT 14 ;;;
  vga_out CRT_VGA_CURS_OUTP_PORT (Z.shiftr location 8) ;;;
  vga_out CRT_VGA_CURS_CONF_PORT 15 ;;;
  vga_out CRT_VGA_CURS_OUTP_PORT location.

Definition vga_clrscr : cmd vga unit :=
  for_ (Z.to_nat ROWS) 0 (fun _ => vga_scroll) ;;;
  vga_move_cursor_xy 0 0.

(** [arguments i] is the [i]-th word passed with the command. *)
Definition vga_dev_control (device command : Z) (arguments : Z -> Z) : cmd vga Z :=
  dev <- gets vga_device ;;
  if negb (device =? dev) || (command =? 0) then ret (-1)
  else if command =? VGA_CMD_SCROLL then vga_scroll ;;; ret 0
  else if command =? VGA_CMD_MOVCRS_XY then
    vga_move_cursor_xy (i32 (arguments 0)) (i32 (arguments 1)) ;;; ret 0
  else if command =? VGA_CMD_MOVCRS then vga_move_cursor (arguments 0) ;;; ret 0
  else if command =? VGA_CMD_CLRSCR then vga_clrscr ;;; ret 0
  else if command =? VGA_CMD_GET_W then ret COLS
  else if command =? VGA_CMD_GET_H then ret ROWS
  else if command =? VGA_CMD_GET_FG_COLOUR then vga_get_foreground_colour
  else if command =? VGA_CMD_GET_BG_COLOUR then vga_get_background_colour
  else if command =? VGA_CMD_SET_FG_COLOUR then vga_set_foreground_colour (u8 (arguments 0)) ;;; ret 0
  else if command =? VGA_CMD_SET_BG_COLOUR then vga_set_background_colour (u8 (arguments 0)) ;;; ret 0
  else ret (-1).

Definition vga_dev_status (device : Z) : cmd vga Z :=
  gets (fun s => if device =? s.(vga_device) then s.(vga_status) else 0xFFFFFFFF).

(** * The screen *)

Definition screen (s : vga) (f : Z -> Z) : Prop := array_is 2000 s.(video_memory) f.
Definition same_vga (s s' : vga) : Prop :=
  s'.(colour_setting) = s.(colour_setting) /\ s'.(vga_device) = s.(vga_device) /\
  s'.(vga_status) = s.(vga_status) /\ s'.(vga_ports) = s.(vga_ports).

Lemma same_vga_trans s1 s2 s3 : same_vga s1 s2 -> same_vga s2 s3 -> same_vga s1 s3.
Proof. unfold same_vga. intros (-> & -> & -> & ->) (-> & -> & -> & ->). done. Qed.

Lemma put_cell_spec f i v s :
  screen s f -> 0 <= i < 2000 ->
  wp (put_cell i v) (fun _ s' => screen s' (fun j => if j =? i then v else f j) /\ same_vga s s') s.
Proof.
  intros Hf Hi. unfold wp, put_cell.
  destruct (array_set 2000 _ f (fun j => if j =? i then v else f j) i v Hf Hi) as (c & -> & Hc).
  - by rewrite Z.eqb_refl.
  - intros j Hj. by rewrite (proj2 (Z.eqb_neq j i)).
  - done.
Qed.

(** Painting the cells from [a] on. *)
Lemma paint_loop n a g f s :
  screen s f -> 0 <= a -> a + Z.of_nat n <= 2000 ->
  wp (for_ n a (fun x => colour <- gets colour_setting ;; put_cell x (paint colour (g x)))) (fun _ s' =>
    screen s' (fun j => if (a <=? j) && (j <? a + Z.of_nat n) then paint s.(colour_setting) (g j) else f j) /\
    same_vga s s') s.
Proof.
  intros Hf Ha Hn. eapply wp_mono.
  { apply (wp_for (fun k s' => screen s' (fun j => if (a <=? j) && (j <? k) then paint s.(colour_setting) (g j) else f j)
      /\ same_vga s s')).
    - split; [|done]. eapply array_ext; [exact Hf|]. intros j Hj.
      destruct (Z.leb_spec a j), (Z.ltb_spec j a); try lia; done.
    - intros k t Hk (Ht & Hs). apply wp_bind, wp_gets.
      eapply wp_mono; [apply put_cell_spec; [exact Ht|lia]|]. intros u t' (Ht' & Hs').
      split; [|by eapply same_vga_trans]. eapply array_ext; [exact Ht'|]. intros j Hj. cbn beta.
      destruct Hs as (-> & _). destruct (Z.eqb_spec j k) as [->|].
      + by rewrite (proj2 (Z.leb_le a k)), (proj2 (Z.ltb_lt k (k + 1))) by lia.
      + destruct (Z.leb_spec a j), (Z.ltb_spec j k), (Z.ltb_spec j (k + 1)); try lia; done. }
  done.
Qed.

Lemma vga_scroll_spec f s :
  screen s f ->
  wp vga_scroll (fun _ s' =>
    screen s' (fun j => if j <? 1920 then f (j + 80) else paint s.(colour_setting) 32) /\ same_vga s s') s.
Proof.
  intros Hf. unfold vga_scroll. apply wp_bind. eapply wp_mono.
  { apply (wp_for (fun k s' => screen s' (fun j => if j <? k then f (j + 80) else f j) /\ same_vga s s')).
    - split; [|done]. eapply array_ext; [exact Hf|]. intros j Hj. destruct (Z.ltb_spec j 0); [lia|done].
    - intros k t Hk (Ht & Hs). unfold ROWS, COLS in *. apply wp_bind, wp_bind, wp_gets.
      rewrite (proj2 Ht (k + 80)) by lia. rewrite (proj2 (Z.ltb_ge (k + 80) k)) by lia. apply wp_ret.
      eapply wp_mono; [apply put_cell_spec; [exact Ht|lia]|]. intros u t' (Ht' & Hs').
      split; [|by eapply same_vga_trans]. eapply array_ext; [exact Ht'|]. intros j Hj. cbn beta.
      destruct (Z.eqb_spec j k) as [->|]; [by rewrite (proj2 (Z.ltb_lt k (k + 1))) by lia|].
      destruct (Z.ltb_spec j k), (Z.ltb_spec j (k + 1)); try lia; done. }
  intros u t (Ht & Hs). eapply wp_mono.
  { apply (paint_loop _ _ (fun _ => 32) _ _ Ht); unfold ROWS, COLS; lia. }
  intros u' t' (Ht' & Hs'). split; [|by eapply same_vga_trans].
  eapply array_ext; [exact Ht'|]. intros j Hj. cbn beta. unfold ROWS, COLS.
  destruct Hs as (-> & _).
  destruct (Z.leb_spec ((25 - 1) * 80) j), (Z.ltb_spec j ((25 - 1) * 80 + Z.of_nat (Z.to_nat 80))),
    (Z.ltb_spec j 1920), (Z.ltb_spec j (0 + Z.of_nat (Z.to_nat ((25 - 1) * 80)))); try lia; done.
Qed.

(** Writing to the screen's device file stays on the screen for every 32-bit
    position and size, including those whose sum wraps: a start past the last
    cell is refused, an end past it is cut, and the cells written carry the
    caller's bytes in the current colour; when the sum wraps, nothing is written. *)
Theorem vga_dev_write_bounded f device start_at size buffer s :
  screen s f -> is_u32 start_at -> is_u32 size ->
  wp (vga_dev_write device start_at size buffer) (fun r s' =>
    let n := if 2000 <=? start_at then 0
             else if 2 ^ 32 <=? start_at + size then 0 else Z.min size (2000 - start_at) in
    screen s' (fun j => if (start_at <=? j) && (j <? start_at + n)
                        then paint s.(colour_setting) (buffer (j - start_at)) else f j) /\
    same_vga s s' /\ (2000 <= start_at -> r = -1) /\
    (start_at < 2000 -> start_at + size < 2 ^ 32 -> r = n)) s.
Proof.
  intros Hf Hst Hsz. unfold is_u32 in *. unfold vga_dev_write. change (ROWS * COLS) with 2000.
  change (2000 - 1) with 1999. destruct (Z.ltb_spec 1999 start_at).
  { apply wp_ret. rewrite (proj2 (Z.leb_le 2000 start_at)) by lia. cbn zeta. split_and!; [|done|done|lia].
    eapply array_ext; [exact Hf|]. intros j Hj.
    destruct (Z.leb_spec start_at j), (Z.ltb_spec j (start_at + 0)); try lia; done. }
  rewrite (proj2 (Z.leb_gt 2000 start_at)) by lia. set (w := if 2000 <? _ then _ else _). cbn zeta.
  set (n := if 2 ^ 32 <=? _ then _ else _).
  assert (Hn : Z.of_nat (Z.to_nat (u32 (start_at + w) - start_at)) = n /\ 0 <= n <= 2000 - start_at /\
    (start_at + size < 2 ^ 32 -> w = n)).
  { subst w n. unfold u32. destruct (Z.leb_spec (2 ^ 32) (start_at + size)).
    - assert (Hm : (start_at + size) mod 2 ^ 32 = start_at + size - 2 ^ 32) by zdm.
      rewrite Hm. destruct (Z.ltb_spec 2000 (start_at + size - 2 ^ 32)); [lia|]. rewrite Hm. lia.
    - rewrite (Z.mod_small (start_at + size)) by lia. destruct (Z.ltb_spec 2000 (start_at + size)).
      + rewrite Z.mod_small by lia. lia.
      + rewrite Z.mod_small by lia. lia. }
  destruct Hn as (Hn & Hb & Hw). apply wp_bind. eapply wp_mono.
  { apply (paint_loop _ start_at (fun x => buffer (x - start_at)) _ _ Hf); lia. }
  intros u s' (Hs' & Hv). rewrite Hn in Hs'. apply wp_ret. split_and!; [exact Hs'|exact Hv|lia|].
  intros _ Hnw. rewrite (Hw Hnw). apply i32_small. lia.
Qed.

(** Clearing the screen scrolls all 25 rows away: every one of the 2000 cells
    becomes a space in the current colour and the cursor is sent to cell 0. *)
Theorem vga_clrscr_blanks f s :
  screen s f ->
  wp vga_clrscr (fun _ s' => screen s' (fun _ => paint s.(colour_setting) 32) /\
    s'.(vga_ports) = s.(vga_ports) ++ [(0x3D4, 14); (0x3D5, 0); (0x3D4, 15); (0x3D5, 0)]) s.
Proof.
  intros Hf. unfold vga_clrscr. apply wp_bind. eapply wp_mono.
  { apply (wp_for (fun k s' => screen s' (fun j => if j <? 2000 - 80 * k then f (j + 80 * k)
                                               else paint s.(colour_setting) 32) /\ same_vga s s')).
    - split; [|done]. eapply array_ext; [exact Hf|]. intros j Hj. cbn beta.
      rewrite (proj2 (Z.ltb_lt j _)) by lia. f_equal. lia.
    - intros k t Hk (Ht & Hs). eapply wp_mono; [exact (vga_scroll_spec _ _ Ht)|]. intros u t' (Ht' & Hs').
      split; [|by eapply same_vga_trans]. eapply array_ext; [exact Ht'|]. intros j Hj. cbn beta.
      destruct Hs as (-> & _).
      destruct (Z.ltb_spec j 1920), (Z.ltb_spec j (2000 - 80 * (k + 1))), (Z.ltb_spec (j + 80) (2000 - 80 * k));
        try lia; try done. f_equal. lia. }
  intros u t (Ht & Hs). unfold vga_move_cursor_xy, vga_out. do 3 (apply wp_bind, wp_modify). apply wp_modify.
  split.
  - eapply array_ext; [exact Ht|]. intros j Hj. cbn beta. unfold ROWS in *.
    destruct (Z.ltb_spec j (2000 - 80 * (0 + Z.of_nat (Z.to_nat 25)))); [lia|done].
  - cbn [vga_ports]. rewrite <- !app_assoc. destruct Hs as (_ & _ & _ & ->). reflexivity.
Qed.

Definition demo_vga : vga := Vga (replicate 2000 0) 7 5 1 [].

Lemma vga_dev_write_bounded_witness :
  wp (vga_dev_write 5 1998 4 (fun j => 65 + j)) (fun r s' =>
    screen s' (fun j => if (1998 <=? j) && (j <? 1998 + 2) then paint 7 (65 + (j - 1998)) else 0) /\
    same_vga demo_vga s' /\ (2000 <= 1998 -> r = -1) /\ (1998 < 2000 -> 1998 + 4 < 2 ^ 32 -> r = 2)) demo_vga.
Proof.
  apply (vga_dev_write_bounded (fun _ => 0) 5 1998 4 (fun j => 65 + j) demo_vga);
    [by apply (array_replicate 2000)|by vm_compute|by vm_compute].
Defined.

Lemma vga_clrscr_blanks_witness :
  wp vga_clrscr (fun _ s' => screen s' (fun _ => paint 7 32) /\
    s'.(vga_ports) = [] ++ [(0x3D4, 14); (0x3D5, 0); (0x3D4, 15); (0x3D5, 0)]) demo_vga.
Proof. apply (vga_clrscr_blanks (fun _ => 0) demo_vga). by apply (array_replicate 2000). Defined.
