(* ===== verification/Vesa.v ===== *)
(** The frame buffer, [drivers/devices/vesa/vesa.c]: 32-bit pixels in video
    memory mapped at [LFB], written through the device file or by commands.

    Video memory is a map from word indices to pixels; only the words that
    [map_lfb] maps may be accessed. *)
From stdpp Require Import base numbers gmap list.
From S2P Require Import Prelude Paging.

Definition VESA_INDEX_PORT : Z := 0x01CE.
Definition VESA_DATA_PORT : Z := 0x01CF.
Definition VESA_INDEX_ID : Z := 0x0.
Definition VESA_INDEX_XRES : Z := 0x1.
Definition VESA_INDEX_YRES : Z := 0x2.
Definition VESA_INDEX_BPP : Z := 0x3.
Definition VESA_INDEX_ENABLE : Z := 0x4.
Definition VESA_BOCHS_VER_OLDEST : Z := 0xB0C0.
Definition VESA_BOCHS_VER_NEWEST : Z := 0xB0C5.
Definition VESA_CMD_CLRSC : Z := 0x01.
Definition VESA_CMD_DRAWPX : Z := 0x02.
Definition VESA_CMD_GETPX : Z := 0x03.
Definition VESA_CMD_GETW : Z := 0x04.
Definition VESA_CMD_GETH : Z := 0x05.
Definition VESA_CMD_MOVD : Z := 0x06.
Definition VESA_CMD_SETD : Z := 0x07.
Definition VESA_CMD_CLRFROM : Z := 0x08.

(** Where the frame buffer is mapped, and the mapped size in bytes and words. *)
Definition LFB : Z := 0xF0000000.
Definition LFB_BYTES : Z := 0xFF0000 + 0x1000.
Definition LFB_WORDS : Z := LFB_BYTES / 4.

(** The globals of [vesa.c], video memory and the trace of 16-bit port writes. *)
Record vesa := Vesa {
  lfb : Z; lfb_width : Z; lfb_height : Z; lfb_bpp : Z; vesa_device : Z; vesa_status : Z;
  pixels : gmap Z Z; vesa_ports : list (Z * Z)
}.

Definition set_pixels (p : gmap Z Z) (s : vesa) : vesa :=
  Vesa s.(lfb) s.(lfb_width) s.(lfb_height) s.(lfb_bpp) s.(vesa_device) s.(vesa_status) p s.(vesa_ports).
Definition set_mode (l w h b : Z) (s : vesa) : vesa :=
  Vesa l w h b s.(vesa_device) s.(vesa_status) s.(pixels) s.(vesa_ports).
Definition set_vesa_device (d : Z) (s : vesa) : vesa :=
  Vesa s.(lfb) s.(lfb_width) s.(lfb_height) s.(lfb_bpp) d s.(vesa_status) s.(pixels) s.(vesa_ports).
Definition set_vesa_status (v : Z) (s : vesa) : vesa :=
  Vesa s.(lfb) s.(lfb_width) s.(lfb_height) s.(lfb_bpp) s.(vesa_device) v s.(pixels) s.(vesa_ports).
Definition write_port_16 (port data : Z) : cmd vesa unit :=
  modify (fun s => Vesa s.(lfb) s.(lfb_width) s.(lfb_height) s.(lfb_bpp) s.(vesa_device) s.(vesa_status)
                        s.(pixels) (s.(vesa_ports) ++ [(port, u16 data)])).

(** [lfb[i]] and [lfb[i] = v]. *)
Definition pixel (s : vesa) (i : Z) : Z := default 0 (s.(pixels) !! i).
Definition px_get (i : Z) : cmd vesa Z :=
  fun s => if (0 <=? i) && (i <? LFB_WORDS) then Ret (pixel s i, s) else Fault.
Definition px_set (i v : Z) : cmd vesa unit :=
  fun s => if (0 <=? i) && (i <? LFB_WORDS) then Ret (tt, set_pixels (<[i := v]> s.(pixels)) s) else Fault.

(** [memset_32] and [memcpy_32] on the frame buffer; the length is a [size_t]. *)
Definition fill_pixels (begin data length : Z) : cmd vesa unit :=
  for_ (Z.to_nat (u32 length)) 0 (fun i => px_set (begin + i) data).
Definition move_pixels (to from length : Z) : cmd vesa unit :=
  for_ (Z.to_nat (u32 length)) 0 (fun i => v <- px_get (from + i) ;; px_set (to + i) v).

Definition vesa_get_pixel_value (r g b alpha : Z) : Z :=
  u32 (Z.lor (Z.lor (Z.lor (Z.shiftl alpha 24) (Z.shiftl r 16)) (Z.shiftl g 8)) b).

Definition vesa_draw_pixel (x y pixel : Z) : cmd vesa Z :=
  l <- gets lfb ;;
  w <- gets lfb_width ;;
  if negb (l =? 0) then px_set (i32 (w * y + x)) pixel ;;; ret 0 else ret (-1).

Definition vesa_get_pixel_at (x y : Z) : cmd vesa Z :=
  l <- gets lfb ;;
  w <- gets lfb_width ;;
  if negb (l =? 0) then px_get (i32 (w * y + x)) else ret 0.

Definition vesa_move_data (to from size : Z) : cmd vesa unit := move_pixels to from size.
Definition vesa_set_data (begin length data : Z) : cmd vesa unit := fill_pixels begin data length.

Definition vesa_clear_screen : cmd vesa unit :=
  w <- gets lfb_width ;;
  h <- gets lfb_height ;;
  fill_pixels 0 (vesa_get_pixel_value 0 0 0 0) (i32 (w * h)).

Definition vesa_clear_from (location_index : Z) : cmd vesa unit :=
  w <- gets lfb_width ;;
  h <- gets lfb_height ;;
  fill_pixels location_index (vesa_get_pixel_value 0 0 0 0) (u32 (i32 (w * h) - location_index)).

Definition vesa_dev_open (device : Z) : cmd vesa Z := ret 0.
Definition vesa_dev_close (device : Z) : cmd vesa Z := ret 0.

(** The words read are the second component. *)
Fixpoint read_pixels (n : nat) (start : Z) : cmd vesa (list Z) :=
  match n with
  | O => ret []
  | S n' => v <- px_get start ;; rest <- read_pixels n' (start + 1) ;; ret (v :: rest)
  end.
Definition vesa_dev_read (device start_at size : Z) : cmd vesa (Z * list Z) :=
  w <- gets lfb_width ;;
  h <- gets lfb_height ;;
  let video_mem_length := u32 (i32 (w * h)) in
  if u32 (video_mem_length - 1) <? start_at then ret (-1, [])
  else
    let read_length :=
      if video_mem_length <? u32 (start_at + size) then u32 (video_mem_length - start_at) else size in
    words <- read_pixels (Z.to_nat read_length) start_at ;;
    ret (i32 read_length, words).

(** [buffer j] is the [j]-th word of the caller's buffer. *)
Definition vesa_dev_write (device start_at size : Z) (buffer : Z -> Z) : cmd vesa Z :=
  w <- gets lfb_width ;;
  h <- gets lfb_height ;;
  let video_mem_length := u32 (i32 (w * h)) in
  if u32 (video_mem_length - 1) <? start_at then ret (-1)
  else
    let written_length :=
      if video_mem_length <? u32 (start_at + size) then u32 (video_mem_length - start_at) else size in
    for_ (Z.to_nat written_length) 0 (fun i => px_set (start_at + i) (buffer i)) ;;;
    ret (i32 written_length).

(** [arguments i] is the [i]-th word passed with the command. *)
Definition vesa_dev_control (device command : Z) (arguments : Z -> Z) : cmd vesa Z :=
  dev <- gets vesa_device ;;
  if negb (device =? dev) || (command =? 0) then ret (-1)
  else if command =? VESA_CMD_CLRSC then vesa_clear_screen ;;; ret 0
  else if command =? VESA_CMD_CLRFROM then vesa_clear_from (arguments 0) ;;; ret 0
  else if command =? VESA_CMD_DRAWPX then
    vesa_draw_pixel (i32 (arguments 0)) (i32 (arguments 1)) (arguments 2) ;;; ret 0
  else if command =? VESA_CMD_GETPX then
    v <- vesa_get_pixel_at (i32 (arguments 0)) (i32 (arguments 1)) ;; ret (i32 v)
  else if command =? VESA_CMD_GETW then gets lfb_width
  else if command =? VESA_CMD_GETH then gets lfb_height
  else if command =? VESA_CMD_MOVD then
    vesa_move_data (i32 (arguments 0)) (i32 (arguments 1)) (i32 (arguments 2)) ;;; ret 0
  else if command =? VESA_CMD_SETD then
    vesa_set_data (i32 (arguments 0)) (i32 (arguments 1)) (arguments 2) ;;; ret 0
  else ret (-1).

Definition vesa_dev_status (device : Z) : cmd vesa Z :=
  gets (fun s => if device =? s.(vesa_device) then u32 s.(vesa_status) else 0xFFFFFFFF).

(** ** Set-up *)

(** [bar0] is that of the PCI device found, if any; [version] is what the data
    port answers. *)
Definition init_with_pci (bar0 : option Z) (version user_w user_h : Z) : cmd vesa Z :=
  match bar0 with
  | None => ret (-1)
  | Some bar0 =>
      modify (set_mode (Z.land bar0 0xFFFFFFF0) user_w user_h 32) ;;;
      write_port_16 VESA_INDEX_PORT VESA_INDEX_ID ;;;
      (when (VESA_BOCHS_VER_OLDEST <=? version) && (version <=? VESA_BOCHS_VER_NEWEST) do
         (write_port_16 VESA_DATA_PORT VESA_BOCHS_VER_NEWEST ;;;
          write_port_16 VESA_INDEX_PORT VESA_INDEX_ENABLE ;;;
          write_port_16 VESA_DATA_PORT 0x00 ;;;
          write_port_16 VESA_INDEX_PORT VESA_INDEX_XRES ;;;
          write_port_16 VESA_DATA_PORT user_w ;;;
          write_port_16 VESA_INDEX_PORT VESA_INDEX_YRES ;;;
          write_port_16 VESA_DATA_PORT user_h ;;;
          write_port_16 VESA_INDEX_PORT VESA_INDEX_BPP ;;;
          write_port_16 VESA_DATA_PORT 32 ;;;
          write_port_16 VESA_INDEX_PORT VESA_INDEX_ENABLE ;;;
          write_port_16 VESA_DATA_PORT 0x41)) ;;;
      ret 0
  end.

(** The supported resolutions, by the text of the boot parameter. *)
Definition supported (resolution : list Z) : option (Z * Z) :=
  if decide (resolution = [49; 57; 50; 48; 120; 49; 48; 56; 48]) then Some (1920, 1080)
  else if decide (resolution = [49; 50; 56; 48; 120; 49; 48; 50; 52]) then Some (1280, 1024)
  else if decide (resolution = [49; 48; 50; 52; 120; 55; 54; 56]) then Some (1024, 768)
  else if decide (resolution = [56; 48; 48; 120; 54; 48; 48]) then Some (800, 600)
  else if decide (resolution = [54; 52; 48; 120; 52; 56; 48]) then Some (640, 480)
  else if decide (resolution = [51; 50; 48; 120; 50; 48; 48]) then Some (320, 200)
  else None.

(** Whether a usable mode was found: [resolution] is the boot parameter "res",
    the next four are the frame buffer fields of the boot information. *)
Definition vesa_probe (resolution : option (list Z)) (addr width height bpp : Z) (bar0 : option Z) (version : Z)
    : cmd vesa bool :=
  match resolution with
  | None => ret false
  | Some res =>
      match supported res with
      | None => ret false
      | Some (user_w, user_h) =>
          modify (set_mode (u32 addr) (i32 width) (i32 height) (i32 bpp)) ;;;
          s <- gets (fun s => s) ;;
          if (s.(lfb) =? 0) || (s.(lfb_width) =? 0) || (s.(lfb_height) =? 0) || (s.(lfb_bpp) =? 0) then
            r <- init_with_pci bar0 version user_w user_h ;;
            ret (negb (r =? -1))
          else ret (negb (negb (s.(lfb_width) =? user_w) || negb (s.(lfb_height) =? user_h)))
      end
  end.

(** [while(p <= ((uint32_t) lfb + 0xFF0000))]: the addresses are 32 bits wide
    and the loop would not end for a frame buffer at the very top. *)
Fixpoint map_lfb (fuel : nat) (lfb v p : Z) : cmd pstate unit :=
  match fuel with
  | O => hang
  | S fuel' =>
      if p <=? u32 (lfb + 0xFF0000) then
        dir <- get_page_directory_address ;;
        set_page_table_entry dir v p 1 0 ;;;
        map_lfb fuel' lfb (u32 (v + 0x1000)) (u32 (p + 0x1000))
      else ret tt
  end.

(** * What the operations do to the screen *)

Definition same_vesa (s s' : vesa) : Prop :=
  s'.(lfb) = s.(lfb) /\ s'.(lfb_width) = s.(lfb_width) /\ s'.(lfb_height) = s.(lfb_height) /\
  s'.(lfb_bpp) = s.(lfb_bpp) /\ s'.(vesa_device) = s.(vesa_device) /\ s'.(vesa_status) = s.(vesa_status) /\
  s'.(vesa_ports) = s.(vesa_ports).
Lemma same_vesa_refl s : same_vesa s s.
Proof. done. Qed.
Lemma same_vesa_trans s1 s2 s3 : same_vesa s1 s2 -> same_vesa s2 s3 -> same_vesa s1 s3.
Proof. unfold same_vesa. intros (-> & -> & -> & -> & -> & -> & ->) (-> & -> & -> & -> & -> & -> & ->). done. Qed.

(** A screen that fits the mapped video memory. *)
Definition fits_lfb (w h : Z) : Prop := 0 < w /\ 0 < h /\ w * h <= LFB_WORDS.
Definition vesa_ok (w h : Z) (s : vesa) : Prop :=
  s.(lfb_width) = w /\ s.(lfb_height) = h /\ fits_lfb w h.

Lemma vesa_ok_same w h s s' : same_vesa s s' -> vesa_ok w h s -> vesa_ok w h s'.
Proof. unfold same_vesa, vesa_ok. intros (_ & -> & -> & _) ?. done. Qed.

Lemma px_set_spec i v s :
  0 <= i < LFB_WORDS ->
  wp (px_set i v) (fun _ s' => same_vesa s s' /\ forall j, pixel s' j = if j =? i then v else pixel s j) s.
Proof.
  intros Hi. unfold wp, px_set. rewrite (proj2 (Z.leb_le 0 i)), (proj2 (Z.ltb_lt i _)) by lia. cbn [andb].
  split; [done|]. intros j. unfold pixel. cbn [pixels set_pixels]. destruct (Z.eqb_spec j i) as [->|].
  - by rewrite lookup_insert_eq.
  - by rewrite lookup_insert_ne.
Qed.

(** Writing [g 0], [g 1], ... from the index [a] on. *)
Lemma px_loop n a g s :
  0 <= a -> a + Z.of_nat n <= LFB_WORDS ->
  wp (for_ n 0 (fun i => px_set (a + i) (g i))) (fun _ s' => same_vesa s s' /\ forall j,
    pixel s' j = if (a <=? j) && (j <? a + Z.of_nat n) then g (j - a) else pixel s j) s.
Proof.
  intros Ha Hn. eapply wp_mono.
  { apply (wp_for (fun k s' => same_vesa s s' /\ forall j,
      pixel s' j = if (a <=? j) && (j <? a + k) then g (j - a) else pixel s j)).
    - split; [done|]. intros j. destruct (Z.leb_spec a j), (Z.ltb_spec j (a + 0)); try lia; done.
    - intros k t Hk [Hs Ht]. eapply wp_mono; [apply px_set_spec; lia|]. intros u t' [Hs' Ht'].
      split; [by eapply same_vesa_trans|]. intros j. rewrite Ht', Ht. destruct (Z.eqb_spec j (a + k)) as [->|].
      + rewrite (proj2 (Z.leb_le a (a + k))), (proj2 (Z.ltb_lt (a + k) (a + (k + 1)))) by lia. cbn. f_equal. lia.
      + destruct (Z.leb_spec a j), (Z.ltb_spec j (a + k)), (Z.ltb_spec j (a + (k + 1))); try lia; done. }
  done.
Qed.

(** A move towards lower addresses. *)
Lemma move_pixels_spec to from len s :
  0 <= to <= from -> 0 <= len -> from + len <= LFB_WORDS ->
  wp (move_pixels to from len) (fun _ s' => same_vesa s s' /\ forall j,
    pixel s' j = if (to <=? j) && (j <? to + len) then pixel s (from + (j - to)) else pixel s j) s.
Proof.
  intros Ht Hl Hf. assert (LFB_WORDS = 4178944) as Hw by reflexivity. unfold move_pixels. rewrite u32_small by lia.
  eapply wp_mono.
  { apply (wp_for (fun k s' => same_vesa s s' /\ forall j,
      pixel s' j = if (to <=? j) && (j <? to + k) then pixel s (from + (j - to)) else pixel s j)).
    - split; [done|]. intros j. destruct (Z.leb_spec to j), (Z.ltb_spec j (to + 0)); try lia; done.
    - intros k t Hk [Hs Htt]. apply wp_bind. unfold wp at 1, px_get.
      rewrite (proj2 (Z.leb_le 0 (from + k))), (proj2 (Z.ltb_lt (from + k) _)) by lia. cbn [andb].
      eapply wp_mono; [apply px_set_spec; lia|]. intros u t' [Hs' Ht'].
      split; [by eapply same_vesa_trans|]. intros j. rewrite Ht', !Htt. destruct (Z.eqb_spec j (to + k)) as [->|].
      + rewrite (proj2 (Z.leb_le to (to + k))), (proj2 (Z.ltb_lt (to + k) (to + (k + 1)))) by lia. cbn [andb].
        destruct (Z.leb_spec to (from + k)), (Z.ltb_spec (from + k) (to + k)); try lia. cbn [andb]. f_equal. lia.
      + destruct (Z.leb_spec to j), (Z.ltb_spec j (to + k)), (Z.ltb_spec j (to + (k + 1))); try lia; done. }
  rewrite Z.add_0_l, Z2Nat.id by lia. done.
Qed.

(** The words a write of [size] words at [start] stores on a screen of [n] words. *)
Definition clipped (n start size : Z) : Z := if n <=? start then 0 else Z.min size (n - start).

Lemma vesa_write_spec device start_at size buffer w h s :
  vesa_ok w h s -> is_u32 start_at -> 0 <= size < 2 ^ 31 ->
  wp (vesa_dev_write device start_at size buffer) (fun r s' =>
    let n := clipped (w * h) start_at size in
    (if w * h <=? start_at then r = -1 else r = n) /\ same_vesa s s' /\ forall j,
    pixel s' j = if (start_at <=? j) && (j <? start_at + n) then buffer (j - start_at) else pixel s j) s.
Proof.
  intros (Hw & Hh & Hwp & Hhp & Hwh) Hst Hsz. assert (LFB_WORDS = 4178944) as Hlw by reflexivity.
  unfold is_u32 in Hst. unfold vesa_dev_write. apply wp_bind, wp_gets, wp_bind, wp_gets. rewrite Hw, Hh.
  assert (0 < w * h) by nia. rewrite i32_small, (u32_small (w * h)), (u32_small (w * h - 1)) by lia. unfold clipped.
  destruct (Z.ltb_spec (w * h - 1) start_at), (Z.leb_spec (w * h) start_at); try lia.
  - apply wp_ret. split_and!; [done|done|]. intros j.
    destruct (Z.leb_spec start_at j), (Z.ltb_spec j (start_at + 0)); try lia; done.
  - rewrite (u32_small (start_at + size)) by lia. cbn zeta.
    assert ((if w * h <? start_at + size then u32 (w * h - start_at) else size) = Z.min size (w * h - start_at)) as ->.
    { destruct (Z.ltb_spec (w * h) (start_at + size)); [rewrite u32_small by lia|]; lia. }
    apply wp_bind. eapply wp_mono; [apply (px_loop _ start_at buffer s); lia|].
    rewrite Z2Nat.id by lia. intros u s' [Hs Hp]. apply wp_ret. rewrite i32_small by lia. done.
Qed.
