(* ===== verification/Keyboard.v ===== *)
(** The keyboard, [drivers/devices/keyboard/keyboard.c]: scan codes to events.

    The list of listeners ([kbd_listeners], a linked list of function pointers)
    is the list of their addresses in order of registration; the calls made
    through them are a trace of (callback, type, value). *)
From stdpp Require Import base numbers gmap list.
From S2P Require Import Prelude Arrays.

Definition KBD_ESC : Z := 0x01.
Definition KBD_F1 : Z := 0x3B.
Definition KBD_F2 : Z := 0x3C.
Definition KBD_F3 : Z := 0x3D.
Definition KBD_F4 : Z := 0x3E.
Definition KBD_F5 : Z := 0x3F.
Definition KBD_F6 : Z := 0x40.
Definition KBD_F7 : Z := 0x41.
Definition KBD_F8 : Z := 0x42.
Definition KBD_F9 : Z := 0x43.
Definition KBD_F10 : Z := 0x44.
Definition KBD_F11 : Z := 0x57.
Definition KBD_F12 : Z := 0x58.
Definition KBD_UP : Z := 0x48.
Definition KBD_DOWN : Z := 0x50.
Definition KBD_LEFT : Z := 0x4B.
Definition KBD_RIGHT : Z := 0x4D.
Definition KBD_CAPSLCK : Z := 0x3A.
Definition KBD_SHIFT_L : Z := 0x2A.
Definition KBD_CTRL_L : Z := 0x1D.
Definition KBD_ALT_L : Z := 0x38.
Definition KBD_SHIFT_R : Z := 0xB6.
Definition KBD_SHIFT_LR_R : Z := 0xAA.
Definition KBD_SHIFT_R_R : Z := 0x36.
Definition KBD_STATUS_READY : Z := 0x01.
Definition KBD_STATUS_BUSY : Z := 0x02.
Definition KBD_CMD_REGISTER_LISTENER : Z := 0x01.
Definition KBD_VAL_TYPE_REGULAR : Z := 0x01.
Definition KBD_VAL_TYPE_SPECIAL : Z := 0x02.

Definition kbd_map : list Z :=
  [0; 0; 49; 50; 51; 52; 53; 54; 55; 56;
   57; 48; 45; 61; 8; 9; 113; 119; 101; 114;
   116; 121; 117; 105; 111; 112; 91; 93; 10; 0;
   97; 115; 100; 102; 103; 104; 106; 107; 108; 59;
   39; 96; 0; 35; 122; 120; 99; 118; 98; 110;
   109; 44; 46; 47; 0; 0; 0; 32; 0; 0;
   0; 0; 0; 0; 0; 0; 0; 0; 0; 0;
   0; 0; 0; 0; 0; 0; 0; 0; 0; 0;
   0; 0; 0; 0; 0; 0; 0; 0; 92; 0;
   0; 0; 0; 0; 0; 0; 0; 0; 0; 0].

Definition kbd_map_up : list Z :=
  [0; 0; 33; 34; 0; 36; 37; 94; 38; 42;
   40; 41; 95; 43; 8; 9; 81; 87; 69; 82;
   84; 89; 85; 73; 79; 80; 123; 125; 10; 0;
   65; 83; 68; 70; 71; 72; 74; 75; 76; 58;
   64; 0; 0; 126; 90; 88; 67; 86; 66; 78;
   77; 60; 62; 63; 0; 0; 0; 32; 0; 0;
   0; 0; 0; 0; 0; 0; 0; 0; 0; 0;
   0; 0; 0; 0; 0; 0; 0; 0; 0; 0;
   0; 0; 0; 0; 0; 0; 0; 0; 124; 0;
   0; 0; 0; 0; 0; 0; 0; 0; 0; 0].

Record kbd := Kbd {
  kbd_lshift : Z; kbd_rshift : Z; kbd_lctrl : Z; kbd_lalt : Z; kbd_caps : Z;
  kbd_device : Z; kbd_status : Z; kbd_listeners : list Z; kbd_calls : list (Z * Z * Z)
}.

Definition set_kbd_status (v : Z) (s : kbd) : kbd :=
  Kbd s.(kbd_lshift) s.(kbd_rshift) s.(kbd_lctrl) s.(kbd_lalt) s.(kbd_caps) s.(kbd_device) v
      s.(kbd_listeners) s.(kbd_calls).
Definition set_shifts (l r : Z) (s : kbd) : kbd :=
  Kbd l r s.(kbd_lctrl) s.(kbd_lalt) s.(kbd_caps) s.(kbd_device) s.(kbd_status)
      s.(kbd_listeners) s.(kbd_calls).
Definition set_ctrl_alt (c a : Z) (s : kbd) : kbd :=
  Kbd s.(kbd_lshift) s.(kbd_rshift) c a s.(kbd_caps) s.(kbd_device) s.(kbd_status)
      s.(kbd_listeners) s.(kbd_calls).
Definition set_caps (v : Z) (s : kbd) : kbd :=
  Kbd s.(kbd_lshift) s.(kbd_rshift) s.(kbd_lctrl) s.(kbd_lalt) v s.(kbd_device) s.(kbd_status)
      s.(kbd_listeners) s.(kbd_calls).

Definition kbd_dev_open (device : Z) : cmd kbd Z := ret 0.
Definition kbd_dev_close (device : Z) : cmd kbd Z := ret 0.
Definition kbd_dev_read (device start_at size buffer : Z) : cmd kbd Z := ret 0.
Definition kbd_dev_write (device start_at size buffer : Z) : cmd kbd Z := ret 0.

(** [arguments] is the callback's address. *)
Definition kbd_dev_control (device command arguments : Z) : cmd kbd Z :=
  dev <- gets kbd_device ;;
  if negb (device =? dev) || (command =? 0) then ret (-1)
  else if command =? KBD_CMD_REGISTER_LISTENER then
    modify (fun s => Kbd s.(kbd_lshift) s.(kbd_rshift) s.(kbd_lctrl) s.(kbd_lalt) s.(kbd_caps)
                         s.(kbd_device) s.(kbd_status)
                         (if arguments =? 0 then s.(kbd_listeners) else s.(kbd_listeners) ++ [arguments])
                         s.(kbd_calls)) ;;;
    ret 0
  else ret (-1).

Definition kbd_dev_status (device : Z) : cmd kbd Z :=
  gets (fun s => if device =? s.(kbd_device) then s.(kbd_status) else 0xFFFFFFFF).

Definition serve_listeners (type val : Z) : cmd kbd unit :=
  modify (fun s => Kbd s.(kbd_lshift) s.(kbd_rshift) s.(kbd_lctrl) s.(kbd_lalt) s.(kbd_caps)
    s.(kbd_device) s.(kbd_status) s.(kbd_listeners)
    (s.(kbd_calls) ++ ((fun callb => (callb, type, u8 val)) <$> s.(kbd_listeners)))).

(** Keys reported as they are. *)
Definition plain_special (scan_code : Z) : bool :=
  (scan_code =? KBD_ESC) || (scan_code =? KBD_F1) || (scan_code =? KBD_F2) || (scan_code =? KBD_F3)
  || (scan_code =? KBD_F4) || (scan_code =? KBD_F5) || (scan_code =? KBD_F6) || (scan_code =? KBD_F7)
  || (scan_code =? KBD_F8) || (scan_code =? KBD_F9) || (scan_code =? KBD_F10) || (scan_code =? KBD_F11)
  || (scan_code =? KBD_F12) || (scan_code =? KBD_UP) || (scan_code =? KBD_DOWN)
  || (scan_code =? KBD_LEFT) || (scan_code =? KBD_RIGHT).

(** [scan_code] is the byte read from the keyboard's port. *)
Definition parse_scancode (scan_code regs : Z) : cmd kbd Z :=
  modify (set_kbd_status KBD_STATUS_BUSY) ;;;
  (if plain_special scan_code then serve_listeners KBD_VAL_TYPE_SPECIAL scan_code
   else if scan_code =? KBD_CAPSLCK then
     modify (fun s => set_caps (if s.(kbd_caps) =? 0 then 1 else 0) s) ;;;
     serve_listeners KBD_VAL_TYPE_SPECIAL KBD_CAPSLCK
   else if scan_code =? KBD_SHIFT_L then
     modify (fun s => set_shifts 1 s.(kbd_rshift) s) ;;;
     serve_listeners KBD_VAL_TYPE_SPECIAL KBD_SHIFT_L
   else if scan_code =? KBD_CTRL_L then
     modify (fun s => set_ctrl_alt 1 s.(kbd_lalt) s) ;;;
     serve_listeners KBD_VAL_TYPE_SPECIAL KBD_CTRL_L
   else if scan_code =? KBD_ALT_L then
     modify (fun s => set_ctrl_alt s.(kbd_lctrl) 1 s) ;;;
     serve_listeners KBD_VAL_TYPE_SPECIAL KBD_ALT_L
   else if scan_code =? KBD_SHIFT_R then
     modify (fun s => set_shifts s.(kbd_lshift) 1 s) ;;;
     serve_listeners KBD_VAL_TYPE_SPECIAL KBD_SHIFT_R
   else if scan_code =? KBD_SHIFT_LR_R then
     modify (set_shifts 0 0) ;;;
     serve_listeners KBD_VAL_TYPE_SPECIAL KBD_SHIFT_LR_R
   else if scan_code =? KBD_SHIFT_R_R then ret tt
   else if (1 <=? scan_code) && (scan_code <? 100) then
     up <- gets (fun s => negb (s.(kbd_lshift) =? 0) || (negb (s.(kbd_caps) =? 0) && (s.(kbd_lshift) =? 0))) ;;
     c <- of_option (arr_get (if up : bool then kbd_map_up else kbd_map) scan_code) ;;
     serve_listeners KBD_VAL_TYPE_REGULAR c
   else ret tt) ;;;
  modify (set_kbd_status KBD_STATUS_READY) ;;;
  ret regs.

(** Reads of port 0x61 and 0x60 have no other effect here. *)
Definition kbd_reset (tmp : Z) : list (Z * Z) := [(0x61, Z.lor tmp 0x80); (0x61, Z.land tmp 0x7F)].

(** * Typing *)

(** A run of scan codes. *)
Fixpoint type_codes (codes : list Z) : cmd kbd unit :=
  match codes with [] => ret tt | c :: codes' => parse_scancode c 0 ;;; type_codes codes' end.

(** The scan codes of the letters. *)
Definition letters : list Z :=
  [16; 17; 18; 19; 20; 21; 22; 23; 24; 25; 30; 31; 32; 33; 34; 35; 36; 37; 38; 44; 45; 46; 47; 48; 49; 50].

(** The character the last event carried, for a single listener. *)
Definition last_char (s : kbd) : option Z := snd <$> last s.(kbd_calls).

Lemma parse_regular k s :
  k ∈ letters ->
  exists low up, arr_get kbd_map k = Some low /\ arr_get kbd_map_up k = Some up /\
  97 <= low <= 122 /\ up = low - 32 /\
  parse_scancode k 0 s = Ret (0, set_kbd_status KBD_STATUS_READY
    (Kbd s.(kbd_lshift) s.(kbd_rshift) s.(kbd_lctrl) s.(kbd_lalt) s.(kbd_caps) s.(kbd_device)
      KBD_STATUS_BUSY s.(kbd_listeners)
      (s.(kbd_calls) ++ ((fun callb => (callb, KBD_VAL_TYPE_REGULAR,
        if negb (s.(kbd_lshift) =? 0) || negb (s.(kbd_caps) =? 0) then up else low)) <$> s.(kbd_listeners))))).
Proof.
  intros Hk. unfold letters in Hk.
  repeat (apply elem_of_cons in Hk as [->|Hk]; [eexists _, _; split_and!; try reflexivity; try lia;
    unfold parse_scancode, bind, modify, gets; cbn;
    destruct (kbd_lshift s =? 0), (kbd_caps s =? 0); reflexivity|]).
  by apply not_elem_of_nil in Hk.
Qed.

(** Letters come out in upper case exactly when left shift is held or caps
    lock is on: from any state with a listener, the last value reported for a
    letter key is its upper-case character in that case and its lower-case one
    otherwise, and the modifier state is not changed by it. *)
Theorem letter_case k l ls s :
  k ∈ letters -> s.(kbd_listeners) = ls ++ [l] ->
  exists low s', 97 <= low <= 122 /\ type_codes [k] s = Ret (tt, s') /\
    last_char s' = Some (if negb (s.(kbd_lshift) =? 0) || negb (s.(kbd_caps) =? 0) then low - 32 else low) /\
    s'.(kbd_lshift) = s.(kbd_lshift) /\ s'.(kbd_caps) = s.(kbd_caps) /\ s'.(kbd_status) = KBD_STATUS_READY.
Proof.
  intros Hk Hl. destruct (parse_regular k s Hk) as (low & up & _ & _ & Hr & -> & Hrun).
  eexists low, _. split; [done|]. split; [cbn [type_codes]; unfold bind; rewrite Hrun; reflexivity|].
  split_and!; try done. unfold last_char. cbn [kbd_calls set_kbd_status]. rewrite Hl, fmap_app.
  cbn [fmap list_fmap]. by rewrite app_assoc, last_snoc.
Qed.

(** The right shift key has no effect: its press code is the one treated as
    its release and ignored, its release code sets a flag that is never read, so
    a letter typed while it is held comes out in lower case. *)
Theorem right_shift_ignored k l s :
  k ∈ letters -> s.(kbd_listeners) = [l] -> s.(kbd_lshift) = 0 -> s.(kbd_caps) = 0 ->
  exists low s', 97 <= low <= 122 /\ type_codes [0x36; k] s = Ret (tt, s') /\ last_char s' = Some low.
Proof.
  intros Hk Hl Hs Hc. set (s1 := set_kbd_status KBD_STATUS_READY (set_kbd_status KBD_STATUS_BUSY s)).
  assert (H1 : parse_scancode 0x36 0 s = Ret (0, s1)) by reflexivity.
  destruct (parse_regular k s1 Hk) as (low & up & _ & _ & Hr & -> & Hrun).
  eexists low, _. split; [done|].
  split; [cbn [type_codes]; unfold bind; rewrite H1, Hrun; reflexivity|].
  unfold last_char. cbn. rewrite Hl, Hs, Hc. cbn. by rewrite last_snoc.
Qed.

Definition demo_kbd : kbd := Kbd 1 0 0 0 0 3 1 [900; 901] [].

Lemma letter_case_witness :
  exists low s', 97 <= low <= 122 /\ type_codes [30] demo_kbd = Ret (tt, s') /\
    last_char s' = Some (low - 32) /\ s'.(kbd_lshift) = 1 /\ s'.(kbd_caps) = 0 /\
    s'.(kbd_status) = KBD_STATUS_READY.
Proof.
  apply (letter_case 30 901 [900] demo_kbd); [apply (bool_decide_unpack _); by vm_compute|done].
Defined.

Lemma right_shift_ignored_witness :
  exists low s', 97 <= low <= 122 /\ type_codes [0x36; 30] (Kbd 0 0 0 0 0 3 1 [900] []) = Ret (tt, s') /\
    last_char s' = Some low.
Proof.
  apply (right_shift_ignored 30 900 (Kbd 0 0 0 0 0 3 1 [900] [])); [apply (bool_decide_unpack _); by vm_compute|done..].
Defined.
