(* ===== verification/Fs.v ===== *)
(** The state of the file-system layer: the globals of [kernel/vfs/vfs.c] and
    [drivers/devfs/devfs.c], the heap objects they build (nodes, lists, trees,
    registered file systems) and the byte memory with path names, buffers and
    file contents.

    A byte block of [kern_malloc] is an object [OBytes] whose contents are in
    byte memory, cleared when it is allocated.  Function pointers of nodes are
    called through records of operations: which function a pointer of another
    component stands for is known only to that component. *)
From stdpp Require Import base numbers gmap list.
From S2P Require Import Prelude Kmem Allocator Store LinkedList KString.

(** [D] is the state of the device drivers. *)
Record fstate (A D : Type) := FState {
  fstore : store A;
  fmem : mem;
  vfs_root_node : Z;
  vfs_mountpoint_tree : Z;
  registered_filesystems : Z;
  node_number : Z;
  filesystem_id : Z;
  vfs_is_ready_flag : Z;
  root_node : Z;
  devices : Z;
  device_node_no : Z;
  devfs_is_ready_flag : Z;
  drivers : D
}.
Arguments FState {A D}.
Arguments fstore {A D}.
Arguments fmem {A D}.
Arguments vfs_root_node {A D}.
Arguments vfs_mountpoint_tree {A D}.
Arguments registered_filesystems {A D}.
Arguments node_number {A D}.
Arguments filesystem_id {A D}.
Arguments vfs_is_ready_flag {A D}.
Arguments root_node {A D}.
Arguments devices {A D}.
Arguments device_node_no {A D}.
Arguments devfs_is_ready_flag {A D}.
Arguments drivers {A D}.

Section setters.
Context {A D : Type}.
Implicit Types (s : fstate A D).

Definition set_fstore (v : store A) s : fstate A D :=
  FState v s.(fmem) s.(vfs_root_node) s.(vfs_mountpoint_tree) s.(registered_filesystems)
         s.(node_number) s.(filesystem_id) s.(vfs_is_ready_flag) s.(root_node) s.(devices)
         s.(device_node_no) s.(devfs_is_ready_flag) s.(drivers).
Definition set_fmem (v : mem) s : fstate A D :=
  FState s.(fstore) v s.(vfs_root_node) s.(vfs_mountpoint_tree) s.(registered_filesystems)
         s.(node_number) s.(filesystem_id) s.(vfs_is_ready_flag) s.(root_node) s.(devices)
         s.(device_node_no) s.(devfs_is_ready_flag) s.(drivers).
Definition set_vfs_root_node (v : Z) s : fstate A D :=
  FState s.(fstore) s.(fmem) v s.(vfs_mountpoint_tree) s.(registered_filesystems)
         s.(node_number) s.(filesystem_id) s.(vfs_is_ready_flag) s.(root_node) s.(devices)
         s.(device_node_no) s.(devfs_is_ready_flag) s.(drivers).
Definition set_mountpoint_tree (v : Z) s : fstate A D :=
  FState s.(fstore) s.(fmem) s.(vfs_root_node) v s.(registered_filesystems)
         s.(node_number) s.(filesystem_id) s.(vfs_is_ready_flag) s.(root_node) s.(devices)
         s.(device_node_no) s.(devfs_is_ready_flag) s.(drivers).
Definition set_registered (v : Z) s : fstate A D :=
  FState s.(fstore) s.(fmem) s.(vfs_root_node) s.(vfs_mountpoint_tree) v
         s.(node_number) s.(filesystem_id) s.(vfs_is_ready_flag) s.(root_node) s.(devices)
         s.(device_node_no) s.(devfs_is_ready_flag) s.(drivers).
Definition set_node_number (v : Z) s : fstate A D :=
  FState s.(fstore) s.(fmem) s.(vfs_root_node) s.(vfs_mountpoint_tree) s.(registered_filesystems)
         v s.(filesystem_id) s.(vfs_is_ready_flag) s.(root_node) s.(devices)
         s.(device_node_no) s.(devfs_is_ready_flag) s.(drivers).
Definition set_filesystem_id (v : Z) s : fstate A D :=
  FState s.(fstore) s.(fmem) s.(vfs_root_node) s.(vfs_mountpoint_tree) s.(registered_filesystems)
         s.(node_number) v s.(vfs_is_ready_flag) s.(root_node) s.(devices)
         s.(device_node_no) s.(devfs_is_ready_flag) s.(drivers).
Definition set_vfs_ready (v : Z) s : fstate A D :=
  FState s.(fstore) s.(fmem) s.(vfs_root_node) s.(vfs_mountpoint_tree) s.(registered_filesystems)
         s.(node_number) s.(filesystem_id) v s.(root_node) s.(devices)
         s.(device_node_no) s.(devfs_is_ready_flag) s.(drivers).
Definition set_root_node (v : Z) s : fstate A D :=
  FState s.(fstore) s.(fmem) s.(vfs_root_node) s.(vfs_mountpoint_tree) s.(registered_filesystems)
         s.(node_number) s.(filesystem_id) s.(vfs_is_ready_flag) v s.(devices)
         s.(device_node_no) s.(devfs_is_ready_flag) s.(drivers).
Definition set_devices (v : Z) s : fstate A D :=
  FState s.(fstore) s.(fmem) s.(vfs_root_node) s.(vfs_mountpoint_tree) s.(registered_filesystems)
         s.(node_number) s.(filesystem_id) s.(vfs_is_ready_flag) s.(root_node) v
         s.(device_node_no) s.(devfs_is_ready_flag) s.(drivers).
Definition set_device_node_no (v : Z) s : fstate A D :=
  FState s.(fstore) s.(fmem) s.(vfs_root_node) s.(vfs_mountpoint_tree) s.(registered_filesystems)
         s.(node_number) s.(filesystem_id) s.(vfs_is_ready_flag) s.(root_node) s.(devices)
         v s.(devfs_is_ready_flag) s.(drivers).
Definition set_devfs_ready (v : Z) s : fstate A D :=
  FState s.(fstore) s.(fmem) s.(vfs_root_node) s.(vfs_mountpoint_tree) s.(registered_filesystems)
         s.(node_number) s.(filesystem_id) s.(vfs_is_ready_flag) s.(root_node) s.(devices)
         s.(device_node_no) v s.(drivers).
Definition set_drivers (v : D) s : fstate A D :=
  FState s.(fstore) s.(fmem) s.(vfs_root_node) s.(vfs_mountpoint_tree) s.(registered_filesystems)
         s.(node_number) s.(filesystem_id) s.(vfs_is_ready_flag) s.(root_node) s.(devices)
         s.(device_node_no) s.(devfs_is_ready_flag) v.
End setters.

Definition SIZEOF_VNODE : Z := 64.
Definition SIZEOF_IO_NODE : Z := 44.
Definition SIZEOF_FILESYS : Z := 8.

Definition zero_vnode : vnode :=
  VNode 0 0 0 0 0 no_fn no_fn no_fn no_fn no_fn no_fn no_fn no_fn no_fn no_fn 0 0.
Definition zero_io : io_node := IoNode 0 0 0 0 no_fn no_fn no_fn no_fn no_fn no_fn 0.

Definition set_tree_pointer (v : Z) (n : vnode) : vnode :=
  VNode n.(v_name) n.(v_node_no) n.(v_size) n.(v_type_flags) n.(v_specific_type) n.(v_create)
        n.(v_open) n.(v_close) n.(v_read) n.(v_write) n.(v_control) n.(v_status) n.(v_dir_read)
        n.(v_dir_find) n.(v_dir_list) n.(v_base_pointer) v.

Section commands.
Context {A D : Type} `{Allocator A}.

Definition on_objs {B} (c : cmd (store A) B) : cmd (fstate A D) B :=
  fun s => match c s.(fstore) with
           | Ret (b, st) => Ret (b, set_fstore st s)
           | Fault => Fault
           | Hang => Hang
           end.
Definition on_bytes {B} (c : cmd mem B) : cmd (fstate A D) B :=
  fun s => match c s.(fmem) with
           | Ret (b, m) => Ret (b, set_fmem m s)
           | Fault => Fault
           | Hang => Hang
           end.

(** [kern_malloc(n)] used as an array of bytes. *)
Definition new_bytes (n : Z) : cmd (fstate A D) Z :=
  p <- on_objs (new_obj n (OBytes n)) ;;
  (when negb (p =? 0) do on_bytes (modify (fun m => memset_8 m p 0 n))) ;;;
  ret p.
Definition free_bytes (p : Z) : cmd (fstate A D) unit := on_objs (free_obj p).

(** [node->field = v], and the assignments to every field of a fresh node. *)
Definition upd_vnode (p : Z) (f : vnode -> vnode) : cmd (fstate A D) unit :=
  on_objs (v <- get_vnode p ;; put_obj p (OVnode (f v))).
Definition upd_io (p : Z) (f : io_node -> io_node) : cmd (fstate A D) unit :=
  on_objs (v <- get_io p ;; put_obj p (OIoNode (f v))).

Definition strdup (string : Z) : cmd (fstate A D) Z :=
  n <- on_bytes (strlen string) ;;
  let string_length := n + 1 in
  tmp <- new_bytes string_length ;;
  on_bytes (modify (fun m => memcpy_8 m tmp string string_length)) ;;;
  on_bytes (poke (tmp + string_length) 0) ;;;
  ret tmp.

(** Calls through the function pointers of a node that belong to the file
    system the node is part of. *)
Record file_ops := FileOps {
  op_open : fn -> Z -> cmd (fstate A D) Z;
  op_close : fn -> Z -> cmd (fstate A D) Z;
  op_read : fn -> Z -> Z -> Z -> Z -> cmd (fstate A D) Z;
  op_write : fn -> Z -> Z -> Z -> Z -> cmd (fstate A D) Z;
  op_control : fn -> Z -> Z -> Z -> cmd (fstate A D) Z;
  op_status : fn -> Z -> cmd (fstate A D) Z
}.
Record dir_ops := DirOps {
  op_create : fn -> Z -> Z -> Z -> Z -> cmd (fstate A D) Z;
  op_dir_read : fn -> Z -> Z -> cmd (fstate A D) Z;
  op_dir_find : fn -> Z -> Z -> cmd (fstate A D) Z;
  op_dir_list : fn -> Z -> cmd (fstate A D) Z
}.
End commands.
Arguments file_ops : clear implicits.
Arguments dir_ops : clear implicits.

(** * Reasoning about the layer *)

Section lemmas.
Context {A D : Type} `{Allocator A}.
Implicit Types (s : fstate A D).

Lemma set_fstore_id s : set_fstore s.(fstore) s = s.
Proof. by destruct s. Qed.
Lemma set_fmem_id s : set_fmem s.(fmem) s = s.
Proof. by destruct s. Qed.

Lemma wp_objs {B} (c : cmd (store A) B) Q s :
  wp c (fun b st => Q b (set_fstore st s)) s.(fstore) -> wp (on_objs c) Q s.
Proof. unfold wp, on_objs. by destruct (c s.(fstore)) as [[b st]| |]. Qed.
(** The same with the store taken apart, and its components named. *)
Lemma wp_objs_at {B} (c : cmd (store A) B) Q s :
  wp c (fun b st => Q b (set_fstore (Store st.(alloc) st.(objs)) s))
     (Store s.(fstore).(alloc) s.(fstore).(objs)) -> wp (on_objs c) Q s.
Proof.
  intros Hw. apply wp_objs. destruct (fstore s). eapply wp_mono; [exact Hw|]. by intros b [].
Qed.
Lemma wp_bytes {B} (c : cmd mem B) Q s :
  wp c (fun b m => Q b (set_fmem m s)) s.(fmem) -> wp (on_bytes c) Q s.
Proof. unfold wp, on_bytes. by destruct (c s.(fmem)) as [[b m]| |]. Qed.

(** Commands that only read leave the state as it is. *)
Lemma on_objs_read {B} (c : cmd (store A) B) b s :
  c s.(fstore) = Ret (b, s.(fstore)) -> on_objs c s = Ret (b, s).
Proof. intros Hc. unfold on_objs. by rewrite Hc, set_fstore_id. Qed.
Lemma on_bytes_read {B} (c : cmd mem B) b s :
  c s.(fmem) = Ret (b, s.(fmem)) -> on_bytes c s = Ret (b, s).
Proof. intros Hc. unfold on_bytes. by rewrite Hc, set_fmem_id. Qed.

Lemma on_get_node p n s : s.(fstore).(objs) !! p = Some (ONode n) -> on_objs (get_node p) s = Ret (n, s).
Proof. intros Hp. apply on_objs_read. unfold get_node. by rewrite Hp. Qed.
Lemma on_get_list p n s : s.(fstore).(objs) !! p = Some (OList n) -> on_objs (get_list p) s = Ret (n, s).
Proof. intros Hp. apply on_objs_read. unfold get_list. by rewrite Hp. Qed.
Lemma on_get_tree p n s : s.(fstore).(objs) !! p = Some (OTree n) -> on_objs (get_tree p) s = Ret (n, s).
Proof. intros Hp. apply on_objs_read. unfold get_tree. by rewrite Hp. Qed.
Lemma on_get_vnode p n s : s.(fstore).(objs) !! p = Some (OVnode n) -> on_objs (get_vnode p) s = Ret (n, s).
Proof. intros Hp. apply on_objs_read. unfold get_vnode. by rewrite Hp. Qed.
Lemma on_get_io p n s : s.(fstore).(objs) !! p = Some (OIoNode n) -> on_objs (get_io p) s = Ret (n, s).
Proof. intros Hp. apply on_objs_read. unfold get_io. by rewrite Hp. Qed.
Lemma on_get_filesys p n s :
  s.(fstore).(objs) !! p = Some (OFilesys n) -> on_objs (get_filesys p) s = Ret (n, s).
Proof. intros Hp. apply on_objs_read. unfold get_filesys. by rewrite Hp. Qed.
Lemma on_strcmp p1 l1 p2 l2 s :
  cstr s.(fmem) p1 l1 -> cstr s.(fmem) p2 l2 ->
  on_bytes (strcmp p1 p2) s = Ret ((if decide (l1 = l2) then 0 else 1), s).
Proof. intros. apply on_bytes_read. by apply strcmp_spec. Qed.
Lemma on_strlen p l s :
  cstr s.(fmem) p l -> on_bytes (strlen p) s = Ret (Z.of_nat (length l), s).
Proof. intros. apply on_bytes_read. by apply strlen_spec. Qed.
Lemma on_peek p s : on_bytes (peek p) s = Ret (rd8 s.(fmem) p, s).
Proof. by apply on_bytes_read. Qed.

(** A command known to only read, in a weakest precondition. *)
Lemma wp_read {B} (c : cmd (fstate A D) B) b (Q : B -> fstate A D -> Prop) s :
  c s = Ret (b, s) -> Q b s -> wp c Q s.
Proof. unfold wp. by intros ->. Qed.

(** The state with the object [o] at [p]. *)
Definition with_obj (p : Z) (o : obj) s : fstate A D :=
  set_fstore (Store s.(fstore).(alloc) (<[p := o]> s.(fstore).(objs))) s.

Lemma wp_upd_vnode p f v (Q : unit -> fstate A D -> Prop) s :
  s.(fstore).(objs) !! p = Some (OVnode v) -> Q tt (with_obj p (OVnode (f v)) s) ->
  wp (upd_vnode p f) Q s.
Proof.
  intros Hp HQ. unfold upd_vnode. apply wp_objs, wp_bind. unfold wp at 1, get_vnode. by rewrite Hp.
Qed.
Lemma wp_upd_io p f v (Q : unit -> fstate A D -> Prop) s :
  s.(fstore).(objs) !! p = Some (OIoNode v) -> Q tt (with_obj p (OIoNode (f v)) s) ->
  wp (upd_io p f) Q s.
Proof.
  intros Hp HQ. unfold upd_io. apply wp_objs, wp_bind. unfold wp at 1, get_io. by rewrite Hp.
Qed.
Lemma with_obj_ok k p o s :
  store_ok k s.(fstore) -> is_Some (s.(fstore).(objs) !! p) -> obj_bytes o = 0 ->
  store_ok k (with_obj p o s).(fstore).
Proof. intros Hok Hp Ho. destruct s as [[al m]]. by apply store_ok_insert. Qed.

(** ** Bytes that a fresh block cannot contain

    The bytes [p .. p + len] are static data or lie in a byte block in use. *)
Definition owned_range (m : gmap Z obj) (p len : Z) : Prop :=
  p + len < a_base \/ a_top <= p \/
  exists b n, m !! b = Some (OBytes n) /\ b <= p /\ p + len < b + n.

Lemma fresh_disjoint k st b n p len x :
  store_ok k st -> st.(objs) !! b = Some (OBytes n) -> 0 <= n ->
  owned_range (delete b st.(objs)) p len -> p <= x <= p + len -> x < b \/ b + n < x.
Proof.
  intros Hok Hb Hn Ho Hx. pose proof Hok as (Hi & _ & Hd & _).
  destruct (fits_lookup _ _ _ _ Hd Hb) as (n' & Hb' & Hle). cbn in Hle.
  pose proof (a_zone _ _ _ Hi Hb'). destruct Ho as [Hs|[Hs|(b' & m' & Hm & ? & ?)]]; [lia|lia|].
  apply lookup_delete_Some in Hm as [Hne Hm].
  destruct (bytes_apart _ _ _ _ _ _ Hok Hb Hm); [done|lia|lia].
Qed.

Lemma owned_range_mono (m m' : gmap Z obj) p len :
  (forall b n, m !! b = Some (OBytes n) -> m' !! b = Some (OBytes n)) ->
  owned_range m p len -> owned_range m' p len.
Proof. intros Hm [?|[?|(b & n & Hb & ?)]]; [by left|by right; left|]. right. right. exists b, n. auto. Qed.

(** The string [l] at [p]. *)
Definition str_at s (p : Z) (l : list Z) : Prop :=
  cstr s.(fmem) p l /\ owned_range s.(fstore).(objs) p (Z.of_nat (length l)).

Lemma str_at_cstr s p l : str_at s p l -> cstr s.(fmem) p l.
Proof. by intros []. Qed.

(** Memory that differs only in and just behind the block at [b]. *)
Definition only_block (b n : Z) (m m' : mem) : Prop :=
  forall x, x < b \/ b + n < x -> rd8 m' x = rd8 m x.

Lemma only_block_trans b n m1 m2 m3 : only_block b n m1 m2 -> only_block b n m2 m3 -> only_block b n m1 m3.
Proof. intros H1 H2 x Hx. by rewrite (H2 x Hx), (H1 x Hx). Qed.

(** Strings survive changes to a block they are not in. *)
Lemma str_at_only k st b n s p l (m' : mem) :
  store_ok k st -> st.(objs) !! b = Some (OBytes n) -> 0 <= n ->
  delete b st.(objs) = s.(fstore).(objs) -> only_block b n s.(fmem) m' ->
  str_at s p l -> cstr m' p l.
Proof.
  intros Hok Hb Hn Hd Hm [Hc Ho]. eapply cstr_ext; [|exact Hc]. intros x Hx. apply Hm.
  eapply fresh_disjoint; [exact Hok|done|done|by rewrite Hd|done].
Qed.

Definition with_block (al : A) (b n : Z) (m' : mem) s : fstate A D :=
  set_fmem m' (set_fstore (Store al (<[b := OBytes n]> s.(fstore).(objs))) s).

Lemma new_bytes_spec k s n :
  store_ok (S k) s.(fstore) -> 0 <= n <= SMALL ->
  wp (new_bytes n) (fun b s' => exists al,
    s' = with_block al b n (memset_8 s.(fmem) b 0 n) s /\
    store_ok k s'.(fstore) /\ b <> 0 /\ s.(fstore).(objs) !! b = None) s.
Proof.
  intros Hok Hn. unfold new_bytes. apply wp_bind, wp_objs. eapply wp_mono.
  { apply (new_obj_spec n (OBytes n) k); [exact Hok|cbn; lia]. }
  cbn beta. intros b [al m'] (Hok' & Hb & Hf & Hm). cbn [objs] in Hm. subst m'.
  apply wp_bind. destruct (Z.eqb_spec b 0); [done|]. cbn [negb]. apply wp_bytes, wp_modify, wp_ret.
  exists al. split_and!; try done.
Qed.

Lemma memset_only m b n : only_block b n m (memset_8 m b 0 n).
Proof. intros x Hx. rewrite memset_8_rd, decide_False by lia. done. Qed.

Lemma only_block_new k al s b n m' p l :
  store_ok k (Store al (<[b := OBytes n]> s.(fstore).(objs))) -> s.(fstore).(objs) !! b = None ->
  0 <= n -> only_block b n s.(fmem) m' -> str_at s p l -> cstr m' p l.
Proof.
  intros Hok Hf Hn Hm Hs. eapply (str_at_only k _ b n s); [exact Hok|cbn [objs]; by lk|done| |done|done].
  cbn [objs]. by rewrite delete_insert_id.
Qed.

(** ** [strdup] *)

Lemma cstr_copy m m' p q l :
  (forall i, 0 <= i <= Z.of_nat (length l) -> rd8 m' (q + i) = rd8 m (p + i)) ->
  cstr m p l -> cstr m' q l.
Proof.
  revert p q. induction l as [|c l IH]; intros p q Hx; cbn [cstr length] in *.
  - specialize (Hx 0). rewrite !Z.add_0_r in Hx. intros. rewrite Hx by lia. done.
  - pose proof (Hx 0) as H0. rewrite !Z.add_0_r in H0. intros (? & ? & ?).
    rewrite H0 by lia. split_and!; try done. eapply IH; [|done].
    intros i Hi. replace (q + 1 + i) with (q + (i + 1)) by lia. replace (p + 1 + i) with (p + (i + 1)) by lia.
    apply Hx. lia.
Qed.

(** The copy is in a fresh block; the write behind it touches no other block. *)
Lemma strdup_spec k s p l :
  store_ok (S k) s.(fstore) -> str_at s p l -> Z.of_nat (length l) < SMALL ->
  wp (strdup p) (fun b s' => exists al m',
    s' = with_block al b (Z.of_nat (length l) + 1) m' s /\ store_ok k s'.(fstore) /\ b <> 0 /\
    s.(fstore).(objs) !! b = None /\ cstr m' b l /\
    only_block b (Z.of_nat (length l) + 1) s.(fmem) m') s.
Proof.
  intros Hok Hs Hl. unfold strdup. apply wp_bind.
  eapply wp_read; [apply on_strlen, Hs|]. apply wp_bind. eapply wp_mono.
  { apply (new_bytes_spec k); [done|lia]. }
  intros b s' (al & -> & Hok' & Hb & Hf). apply wp_bind, wp_bytes, wp_modify, wp_bind, wp_bytes, wp_modify, wp_ret.
  cbn [fmem with_block set_fmem] in *. set (n := Z.of_nat (length l) + 1) in *.
  set (m0 := memset_8 s.(fmem) b 0 n).
  assert (Hsep : forall x, p <= x <= p + Z.of_nat (length l) -> x < b \/ b + n < x).
  { intros x Hx. eapply fresh_disjoint; [exact Hok'|cbn; by lk|lia| |exact Hx].
    cbn. rewrite delete_insert_id by done. apply Hs. }
  assert (Hside : b <= p \/ p + n <= b).
  { pose proof (Hsep p). pose proof (Hsep (p + Z.of_nat (length l))).
    destruct (decide (b <= p)); [by left|]. right.
    destruct (decide (p + n <= b)); [done|]. exfalso. pose proof (Hsep b). lia. }
  assert (Hcp : forall x, rd8 (wr8 (memcpy_8 m0 b p n) (b + n) 0) x =
    if decide (b <= x < b + n) then rd8 s.(fmem) (p + (x - b))
    else if decide (x = b + n) then 0 else rd8 s.(fmem) x).
  { intros x. rewrite rd8_wr8, memcpy_8_rd by done. unfold m0. rewrite !memset_8_rd.
    repeat case_decide; try done; try lia.
    exfalso. pose proof (Hsep (p + (x - b))). lia. }
  eexists al, _. split; [reflexivity|]. split_and!; [exact Hok'|done|done| |].
  - eapply cstr_copy; [|apply Hs]. intros i Hi. rewrite Hcp, decide_True by lia. f_equal. lia.
  - intros x Hx. rewrite Hcp. rewrite !decide_False by lia. done.
Qed.
End lemmas.
