(* ===== verification/Boot.v ===== *)
(** [kernel/mboot/multiboot.c] and [kernel/mboot/mboot_modules.c]: the command
    line and the modules the boot loader hands over.

    The command line is a list of [key=value] separated by commas; [set_params]
    cuts it into a list of parameters in place.  [boot] holds the static
    variable of [strtok] and the globals of the two files. *)
From stdpp Require Import base numbers gmap list.
From S2P Require Import Prelude Kmem Allocator Store LinkedList KString Fs.

Record boot := Boot {
  bt_stored_string : Z;
  params : Z;
  module_definitions : Z;
  modules_count : Z
}.
Definition MAGIC : Z := 0x2BADB002.
Definition SIZEOF_PARAM : Z := 8.
Definition SIZEOF_MODULE : Z := 16.

(** [mboot_mod_t] *)
Record mboot_mod := MbootMod { mod_start : Z; mod_end : Z; mod_cmd : Z; mod_reserved : Z }.

Section operations.
Context {A : Type} `{Allocator A}.
#[local] Abbreviation fs := (fstate A boot).

(** The kernel's [strtok] on this state. *)
Definition k_strtok (string delimiters : Z) : cmd fs Z :=
  fun s => match strtok string delimiters (TokState s.(fmem) s.(drivers).(bt_stored_string)) with
           | Ret (p, TokState m st) =>
               Ret (p, set_drivers (Boot st s.(drivers).(params) s.(drivers).(module_definitions)
                                         s.(drivers).(modules_count)) (set_fmem m s))
           | Fault => Fault
           | Hang => Hang
           end.
Definition set_params_list (l : Z) : cmd fs unit :=
  modify (fun s => set_drivers (Boot s.(drivers).(bt_stored_string) l s.(drivers).(module_definitions)
                                     s.(drivers).(modules_count)) s).

(** The body of the loop of [set_params] and its step; [equals] is the address
    of the literal. *)
Definition set_param (equals item : Z) : cmd fs Z :=
  n <- on_objs (get_node item) ;;
  let full := n.(data) in
  param <- on_objs (new_obj SIZEOF_PARAM (OParam (MbootParam 0 0))) ;;
  key <- k_strtok full equals ;;
  on_objs (p <- get_param param ;; put_obj param (OParam (MbootParam key p.(param_val)))) ;;;
  val <- k_strtok 0 equals ;;
  on_objs (p <- get_param param ;; put_obj param (OParam (MbootParam p.(param_key) val))) ;;;
  l <- gets (fun s => s.(drivers).(params)) ;;
  on_objs (linked_list_append l param) ;;;
  n <- on_objs (get_node item) ;;
  ret n.(next).
Fixpoint set_params_loop (fuel : nat) (equals item : Z) : cmd fs unit :=
  match fuel with
  | O => hang
  | S fuel' =>
      if item =? 0 then ret tt
      else item <- set_param equals item ;; set_params_loop fuel' equals item
  end.
Definition set_params (equals lst : Z) : cmd fs unit :=
  l <- on_objs linked_list_create ;;
  set_params_list l ;;;
  x <- on_objs (get_list lst) ;;
  fuel <- gets (fun s => chain_fuel s.(fstore)) ;;
  set_params_loop fuel equals x.(list_head) ;;;
  k_strtok 0 0 ;;;
  ret tt.

(** [while((fullparam = strtok(NULL, ",")) != NULL)] *)
Fixpoint split_loop (fuel : nat) (comma p : Z) : cmd fs unit :=
  match fuel with
  | O => hang
  | S fuel' =>
      fullparam <- k_strtok 0 comma ;;
      if negb (fullparam =? 0) then on_objs (linked_list_append p fullparam) ;;; split_loop fuel' comma p
      else ret tt
  end.
Definition parse_multiboot_params (comma equals mboot : Z) : cmd fs unit :=
  passed_parameters <- gets (fun s => rd32 s.(fmem) (mboot + 16)) ;;
  p <- on_objs linked_list_create ;;
  fullparam <- k_strtok passed_parameters comma ;;
  on_objs (linked_list_append p fullparam) ;;;
  fuel <- gets (fun s => str_fuel s.(fmem)) ;;
  split_loop fuel comma p ;;;
  set_params equals p ;;;
  on_objs (linked_list_destroy p).

Fixpoint find_param (fuel : nat) (item key : Z) : cmd fs Z :=
  match fuel with
  | O => hang
  | S fuel' =>
      if item =? 0 then ret 0
      else
        n <- on_objs (get_node item) ;;
        param <- on_objs (get_param n.(data)) ;;
        c <- on_bytes (strcmp param.(param_key) key) ;;
        if c =? 0 then ret param.(param_val) else find_param fuel' n.(next) key
  end.
Definition params_find_by_key (key : Z) : cmd fs Z :=
  pl <- gets (fun s => s.(drivers).(params)) ;;
  l <- on_objs (get_list pl) ;;
  fuel <- gets (fun s => chain_fuel s.(fstore)) ;;
  find_param fuel l.(list_head) key.

(** ** Modules *)

Definition parse_multiboot_modules (magic mboot : Z) : cmd fs unit :=
  m <- gets fmem ;;
  when (magic =? MAGIC) && negb (Z.land (rd32 m mboot) (Z.shiftl 1 3) =? 0) do
    modify (fun s => set_drivers (Boot s.(drivers).(bt_stored_string) s.(drivers).(params)
                                       (rd32 m (mboot + 24)) (i32 (rd32 m (mboot + 20)))) s).

(** [module_definitions[i]] *)
Definition module_at (m : mem) (defs i : Z) : mboot_mod :=
  let p := defs + SIZEOF_MODULE * i in
  MbootMod (rd32 m p) (rd32 m (p + 4)) (rd32 m (p + 8)) (rd32 m (p + 12)).

(** [mod] is what the local variable holds; there is no [break]. *)
Fixpoint mod_loop (n : nat) (mod_name i : Z) (mod_ : mboot_mod) : cmd fs mboot_mod :=
  match n with
  | O => ret mod_
  | S n' =>
      x <- gets (fun s => module_at s.(fmem) s.(drivers).(module_definitions) i) ;;
      c <- on_bytes (strcmp mod_name x.(mod_cmd)) ;;
      mod_loop n' mod_name (i + 1) (if c =? 0 then x else mod_)
  end.
(** [uninitialised] is what the local holds before it is assigned. *)
Definition get_mod_def_by_name (uninitialised : mboot_mod) (mod_name : Z) : cmd fs mboot_mod :=
  n <- gets (fun s => s.(drivers).(modules_count)) ;;
  mod_loop (Z.to_nat n) mod_name 0 uninitialised.
End operations.

(** * The command line *)

(** A parameter: its key and, if it has one, its value. *)
Definition entry : Type := list Z * option (list Z).
Definition entry_text (e : entry) : list Z := e.1 ++ match e.2 with Some v => 61 :: v | None => [] end.
(** [key=value,key=value] *)
Fixpoint command_line (e : entry) (es : list entry) : list Z :=
  entry_text e ++ match es with [] => [] | e' :: es' => 44 :: command_line e' es' end.

(** Non-empty text without a comma, an equals sign or a terminator. *)
Definition word (l : list Z) : Prop := l <> [] /\ Forall (fun c => c <> 0 /\ c <> 44 /\ c <> 61) l.
Definition entry_ok (e : entry) : Prop := word e.1 /\ match e.2 with Some v => word v | None => True end.

(** The value a key has: that of its first parameter. *)
Definition value_of (key : list Z) (es : list entry) : option (list Z) :=
  match List.find (fun e => bool_decide (e.1 = key)) es with Some e => e.2 | None => None end.

(** ** [strtok] on a word *)

Lemma in_str_one d c : in_str [d] c = bool_decide (c = d).
Proof. unfold in_str. apply bool_decide_ext. set_solver. Qed.

Lemma split_while_run f t r :
  Forall (fun c => f c = true) t -> match r with [] => True | c :: _ => f c = false end -> split_while f (t ++ r) = (t, r).
Proof.
  induction 1 as [|c t Hc _ IH]; intros Hr; cbn.
  - destruct r as [|c r]; cbn; [done|]. by rewrite Hr.
  - by rewrite Hc, IH.
Qed.

(** The memory after a token [t] that [r] follows, and where the next one starts. *)
Definition cut (m : mem) (q : Z) (t r : list Z) : mem := match r with [] => m | _ => wr8 m (q + Z.of_nat (length t)) 0 end.
Definition resume (q : Z) (t r : list Z) : Z := q + Z.of_nat (length t) + match r with [] => 0 | _ => 1 end.

Lemma strtok_word m st p d dl t r :
  let q := if p =? 0 then st else p in
  cstr m q (t ++ r) -> cstr m dl [d] -> 0 < dl -> t <> [] -> Forall (fun c => c <> d) t ->
  match r with [] => True | c :: _ => c = d end ->
  strtok p dl (TokState m st) = Ret (q, TokState (cut m q t r) (resume q t r)).
Proof.
  intros q Hc Hd H0 Hne Ht Hr. destruct t as [|c t]; [done|].
  assert (Hsk : split_while (in_str [d]) ((c :: t) ++ r) = ([], (c :: t) ++ r)).
  { cbn. rewrite in_str_one, bool_decide_false; [done|]. by inversion Ht. }
  assert (Htk : split_while (fun c => negb (in_str [d] c)) ((c :: t) ++ r) = (c :: t, r)).
  { apply split_while_run.
    - eapply Forall_impl; [exact Ht|]. intros x Hx. by rewrite in_str_one, bool_decide_false.
    - destruct r as [|x r]; [done|]. by rewrite in_str_one, bool_decide_true. }
  rewrite (strtok_spec dl [d] m st p ((c :: t) ++ r)) by done. fold q.
  unfold skipped, first_token, after_token, after_skip. rewrite Hsk. cbn [snd]. rewrite Htk. cbn [fst snd length app].
  unfold cut, resume. rewrite Z.add_0_r. destruct r; cbn [length app]; by rewrite ?Z.add_0_r.
Qed.

Lemma strtok_end m st p dl :
  rd8 m (if p =? 0 then st else p) = 0 -> strtok p dl (TokState m st) = Ret (0, TokState m st).
Proof.
  intros Hr. unfold strtok, bind, gets, on_mem, str_fuel. cbn [tok_mem skip_delims stored_string].
  unfold bind, peek, gets. by rewrite Hr.
Qed.

Lemma cut_out m q t r x : x <> q + Z.of_nat (length t) -> rd8 (cut m q t r) x = rd8 m x.
Proof. intros Hx. unfold cut. destruct r; [done|]. by apply rd8_wr8_ne. Qed.

Lemma cut_token m q t r : cstr m q (t ++ r) -> cstr (cut m q t r) q t.
Proof. unfold cut. destruct r as [|c r]; [by rewrite app_nil_r|]. apply cstr_cut. Qed.

Lemma cut_rest m q t c r : cstr m q (t ++ c :: r) -> cstr (cut m q t (c :: r)) (resume q t (c :: r)) r.
Proof.
  intros Hc. apply cstr_app in Hc as (_ & _ & Hc). unfold cut, resume. eapply cstr_ext; [|exact Hc].
  intros x Hx. apply rd8_wr8_ne. lia.
Qed.

Lemma Forall2_weaken {X Y} (P Q : X -> Y -> Prop) (l : list X) (k : list Y) :
  (forall x y, x ∈ l -> P x y -> Q x y) -> Forall2 P l k -> Forall2 Q l k.
Proof.
  intros HPQ Hl. induction Hl as [|x y l k Hxy _ IH]; constructor; [apply HPQ; [left|done]|].
  apply IH. intros x' y' Hin. apply HPQ. by right.
Qed.

(** ** The state *)

Section proofs.
Context {A : Type} `{Allocator A}.
Implicit Types (s : fstate A boot) (al : A) (o : gmap Z obj) (m : mem).

Definition mk s al o m tk l : fstate A boot :=
  set_drivers (Boot tk l s.(drivers).(module_definitions) s.(drivers).(modules_count))
              (set_fmem m (set_fstore (Store al o) s)).

Lemma mk_eta s : s = mk s s.(fstore).(alloc) s.(fstore).(objs) s.(fmem) s.(drivers).(bt_stored_string) s.(drivers).(params).
Proof. by destruct s as [[] ? ? ? ? ? ? ? ? ? ? ? []]. Qed.

Lemma wp_objs_mk {B} (c : cmd (store A) B) (Q : B -> fstate A boot -> Prop) s al o m tk l :
  wp c (fun b st => Q b (mk s st.(alloc) st.(objs) m tk l)) (Store al o) -> wp (on_objs c) Q (mk s al o m tk l).
Proof. unfold wp, on_objs. cbn. by destruct (c (Store al o)) as [[b []]| |]. Qed.

Lemma wp_tok p d r m' tk' (Q : Z -> fstate A boot -> Prop) s al o m tk l :
  strtok p d (TokState m tk) = Ret (r, TokState m' tk') -> Q r (mk s al o m' tk' l) ->
  wp (k_strtok p d) Q (mk s al o m tk l).
Proof. intros Ht HQ. unfold wp, k_strtok. cbn [fmem mk set_drivers set_fmem set_fstore drivers bt_stored_string]. by rewrite Ht. Qed.

Lemma wp_bytes_mk {B} (c : cmd mem B) b (Q : B -> fstate A boot -> Prop) s al o m tk l :
  c m = Ret (b, m) -> Q b (mk s al o m tk l) -> wp (on_bytes c) Q (mk s al o m tk l).
Proof. intros Hc HQ. unfold wp, on_bytes. cbn [fmem mk set_drivers set_fmem set_fstore]. by rewrite Hc. Qed.

(** ** Cutting the line at its commas *)

Definition step (a : Z) (e : entry) : Z := a + Z.of_nat (length (entry_text e)) + 1.
(** Where the parameters of a line at [a] start. *)
Fixpoint starts (a : Z) (es : list entry) : list Z :=
  match es with [] => [] | e :: es' => a :: starts (step a e) es' end.
(** Each parameter is a string of its own. *)
Fixpoint laid m (a : Z) (es : list entry) : Prop :=
  match es with [] => True | e :: es' => cstr m a (entry_text e) /\ laid m (step a e) es' end.

Definition line (es : list entry) : list Z := match es with [] => [] | e :: es' => command_line e es' end.
Fixpoint line_end (a : Z) (es : list entry) : Z := match es with [] => a | e :: es' => line_end (step a e) es' end.

Lemma line_cons e es : line (e :: es) = entry_text e ++ match es with [] => [] | _ => 44 :: line es end.
Proof. by destruct es. Qed.

Lemma line_end_le a es : a <= line_end a es.
Proof. revert a. induction es as [|e es IH]; intros a; cbn; [lia|]. specialize (IH (step a e)). unfold step in *. lia. Qed.

Lemma line_length a e es : line_end a (e :: es) = a + Z.of_nat (length (line (e :: es))) + 1.
Proof.
  revert a e. induction es as [|e' es IH]; intros a e.
  - cbn. unfold step. rewrite app_nil_r. lia.
  - rewrite line_cons. cbn [line_end]. change (line_end (step (step a e) e') es) with (line_end (step a e) (e' :: es)).
    rewrite IH. unfold step. rewrite length_app. cbn [length]. lia.
Qed.

Lemma laid_ext m m' a es :
  (forall x, a <= x < line_end a es -> rd8 m' x = rd8 m x) -> laid m a es -> laid m' a es.
Proof.
  revert a. induction es as [|e es IH]; intros a Hx; cbn [laid]; [done|]. intros [Hc Hl].
  pose proof (line_end_le (step a e) es) as Hle. cbn [line_end] in Hx. unfold step in *. split.
  - eapply cstr_ext; [|exact Hc]. intros x Hx'. apply Hx. lia.
  - apply IH; [|done]. intros x Hx'. apply Hx. lia.
Qed.

Lemma entry_text_word e : entry_ok e -> entry_text e <> [] /\ Forall (fun c => c <> 44) (entry_text e).
Proof.
  intros [[Hne Hk] Hv]. unfold entry_text. split; [destruct e.1; done|].
  apply Forall_app. split; [eapply Forall_impl; [exact Hk|by intros ? (_ & ? & _)]|].
  destruct e.2 as [v|]; [|constructor]. destruct Hv as [_ Hv]. constructor; [done|].
  eapply Forall_impl; [exact Hv|by intros ? (_ & ? & _)].
Qed.

Lemma line_count es : Forall entry_ok es -> (length es <= length (line es))%nat.
Proof.
  induction 1 as [|e es He _ IH]; [done|]. rewrite line_cons, length_app. destruct (entry_text_word e He) as [Hne _].
  destruct (entry_text e); [done|]. destruct es; cbn [length] in *; lia.
Qed.

Lemma owned_node o l xs b : list_rep o l xs -> b ∈ owned l xs -> is_Some (o !! b).
Proof.
  intros (Hl & Hs & _) [->|Hin]%elem_of_cons; [by eexists|]. destruct (dlseg_node _ _ _ _ _ Hs Hin). by eexists.
Qed.

(** What [split_loop] leaves: the parameters behind those already in the list. *)
Definition cut_line s o m lst xs a es l (s' : fstate A boot) k : Prop :=
  exists al' o' m' tk' ys, s' = mk s al' o' m' tk' l /\ store_ok k (Store al' o') /\
  list_rep o' lst (xs ++ ys) /\ ys.*2 = starts a es /\ laid m' a es /\
  (forall x, x < a \/ line_end a es <= x -> rd8 m' x = rd8 m x) /\ untouched (owned lst xs) o o' /\
  (forall b, b ∈ ys.*1 -> o !! b = None).

(** What follows a parameter on the line. *)
Definition tail_of (es : list entry) : list Z := match es with [] => [] | _ => 44 :: line es end.

(** Cutting the first parameter and then the others. *)
Lemma cut_line_cons s o m lst xs a e es l s' k o1 n :
  list_rep o1 lst (xs ++ [(n, a)]) -> o !! n = None -> untouched (owned lst xs) o o1 ->
  cstr m a (entry_text e ++ tail_of es) ->
  cut_line s o1 (cut m a (entry_text e) (tail_of es)) lst (xs ++ [(n, a)]) (step a e) es l s' k ->
  cut_line s o m lst xs a (e :: es) l s' k.
Proof.
  intros Hl1 Hn1 Hu1 Hc (al' & o' & m' & tk' & ys & -> & Hok' & Hl' & Hys & Hlaid & Hout & Hu' & Hnew).
  pose proof (line_end_le (step a e) es) as Hle. exists al', o', m', tk', ((n, a) :: ys). rewrite <- app_assoc in Hl'.
  split_and!; [done|done|exact Hl'| | | | |].
  - cbn [fmap list_fmap snd starts]. f_equal. exact Hys.
  - cbn [laid]. split; [|done]. eapply cstr_ext; [|by eapply cut_token].
    intros x Hx. apply Hout. unfold step. lia.
  - cbn [line_end]. intros x Hx. rewrite Hout by (unfold step in *; lia). apply cut_out. unfold step in *. lia.
  - intros b Hb Hs. assert (Hk : o1 !! b = o !! b) by by apply Hu1. rewrite <- Hk in Hs |- *. apply Hu'; [|done].
    intros Hin. unfold owned in *. rewrite fmap_app in Hin.
    assert (b = n) as -> by set_solver. rewrite Hk, Hn1 in Hs. by apply is_Some_None in Hs.
  - intros b Hb. cbn in Hb. apply elem_of_cons in Hb as [->|Hb]; [done|].
    destruct (o !! b) eqn:Heq; [|done]. rewrite <- (Hnew b Hb). rewrite Hu1; [done| |by eexists].
    intros Hin. destruct (owned_node o1 lst (xs ++ [(n, a)]) b Hl1) as [x Hx]; [unfold owned in *; rewrite fmap_app; set_solver|].
    by rewrite Hnew in Hx.
Qed.

(** The string left after a parameter is cut off. *)
Lemma resume_line m a e es :
  cstr m a (entry_text e ++ tail_of es) ->
  cstr (cut m a (entry_text e) (tail_of es)) (resume a (entry_text e) (tail_of es)) (line es) /\
  (es <> [] -> resume a (entry_text e) (tail_of es) = step a e).
Proof.
  intros Hc. destruct es as [|e' es]; cbn [tail_of] in *.
  - split; [|done]. apply cstr_app in Hc. unfold resume, cut. by rewrite Z.add_0_r.
  - split; [by apply cut_rest|]. intros _. done.
Qed.

Lemma split_loop_spec fuel es k s al o m a tk lst xs l comma :
  store_ok (length es + k) (Store al o) -> list_rep o lst xs -> cstr m tk (line es) -> (es <> [] -> tk = a) ->
  Forall entry_ok es -> cstr m comma [44] -> 0 < comma -> 0 < a -> comma + 1 < a \/ line_end a es <= comma ->
  (length es < fuel)%nat ->
  wp (split_loop fuel comma lst) (fun _ s' => cut_line s o m lst xs a es l s' k) (mk s al o m tk l).
Proof.
  revert fuel al o m a tk xs. induction es as [|e es IH]; intros [|fuel] al o m a tk xs Hok Hl Hc Htk Hes Hcm H0 Ha Hsep Hf;
    try (cbn in Hf; lia); cbn [split_loop]; apply wp_bind.
  - eapply wp_tok; [apply strtok_end; exact Hc|]. cbn. apply wp_ret. eexists al, o, m, tk, []. rewrite app_nil_r.
    split_and!; try done. set_solver.
  - rewrite Htk in * by done. inversion Hes as [|? ? He Hes']; subst. rewrite line_cons in Hc. fold (tail_of es) in Hc.
    destruct (entry_text_word e He) as [Hne Hnc]. destruct (resume_line _ _ _ _ Hc) as [Hrl Hrs]. eapply wp_tok.
    { apply (strtok_word m a 0 44 comma (entry_text e) (tail_of es)); try done. by destruct es. }
    cbn [Z.eqb]. destruct (Z.eqb_spec a 0) as [?|Ha0]; [lia|]. cbn [negb]. apply wp_bind, wp_objs_mk.
    eapply wp_mono; [by apply (linked_list_append_spec (length es + k))|].
    intros n [al1 o1] (Hok1 & Hl1 & Hn1 & Hu1). cbn [alloc objs] in *. rewrite app_nil_r in Hu1.
    pose proof (line_end_le (step a e) es) as Hle. cbn [line_end] in Hsep. eapply wp_mono.
    { apply (IH fuel al1 o1 (cut m a (entry_text e) (tail_of es)) (step a e) (resume a (entry_text e) (tail_of es)) (xs ++ [(n, a)]));
        try done; [| unfold step in *; lia |unfold step in *; lia|cbn in Hf; lia].
      eapply cstr_ext; [|exact Hcm]. intros x Hx. apply cut_out. cbn [length] in Hx. unfold step in *. lia. }
    intros [] s' Hcut. by eapply cut_line_cons.
Qed.

(** ** Cutting each parameter at its equals sign *)

Definition val_addr (a : Z) (e : entry) : Z := match e.2 with Some _ => a + Z.of_nat (length e.1) + 1 | None => 0 end.
Fixpoint params_of (a : Z) (es : list entry) : list mboot_param :=
  match es with [] => [] | e :: es' => MbootParam a (val_addr a e) :: params_of (step a e) es' end.
(** Keys and values are strings of their own. *)
Fixpoint readable m (a : Z) (es : list entry) : Prop :=
  match es with
  | [] => True
  | e :: es' => cstr m a e.1 /\ match e.2 with Some v => cstr m (val_addr a e) v | None => True end /\ readable m (step a e) es'
  end.

Lemma entry_step a e : step a e = a + Z.of_nat (length e.1) + 1 + match e.2 with Some v => Z.of_nat (length v) + 1 | None => 0 end.
Proof. unfold step, entry_text. rewrite length_app. destruct e.2; cbn [length]; lia. Qed.

(** The two calls for one parameter. *)
Lemma strtok_entry m tk a e equals :
  cstr m a (entry_text e) -> entry_ok e -> 0 < a -> cstr m equals [61] -> 0 < equals -> equals + 1 < a \/ step a e <= equals ->
  exists m1 tk1 tk2,
    strtok a equals (TokState m tk) = Ret (a, TokState m1 tk1) /\
    strtok 0 equals (TokState m1 tk1) = Ret (val_addr a e, TokState m1 tk2) /\ rd8 m1 tk2 = 0 /\
    cstr m1 a e.1 /\ match e.2 with Some v => cstr m1 (val_addr a e) v | None => True end /\
    (forall x, x < a \/ step a e <= x -> rd8 m1 x = rd8 m x).
Proof.
  intros Hc [[Hne Hk] Hv] Ha He He0 Hsep. rewrite entry_step in Hsep |- *. unfold entry_text in Hc. unfold val_addr.
  set (r := match e.2 with Some v => 61 :: v | None => [] end) in *.
  assert (Hk61 : Forall (fun c => c <> 61) e.1) by (eapply Forall_impl; [exact Hk|by intros ? (_ & _ & ?)]).
  pose proof (strtok_word m tk a 61 equals e.1 r) as H1. cbn zeta in H1. destruct (Z.eqb_spec a 0); [lia|].
  specialize (H1 Hc He He0 Hne Hk61 ltac:(unfold r; by destruct e.2)).
  pose proof (cut_token _ _ _ _ Hc) as Hkey. exists (cut m a e.1 r), (resume a e.1 r). unfold r in *. destruct e.2 as [v|].
  - destruct Hv as [Hvne Hv]. pose proof (cut_rest _ _ _ _ _ Hc) as Hval. unfold resume in *.
    replace (a + Z.of_nat (length e.1) + 1) with (a + Z.of_nat (length e.1) + 1) in * by done.
    set (q := a + Z.of_nat (length e.1) + 1) in *. exists (q + Z.of_nat (length v)).
    assert (Hv61 : Forall (fun c => c <> 61) v) by (eapply Forall_impl; [exact Hv|by intros ? (_ & _ & ?)]).
    split_and!; try done.
    + rewrite <- (app_nil_r v) in Hval. rewrite (strtok_word _ q 0 61 equals v []); try done.
      * cbn. unfold resume. by rewrite Z.add_0_r.
      * eapply cstr_ext; [|exact He]. intros x Hx. apply cut_out. cbn [length] in Hx. unfold q in *. lia.
    + rewrite <- (app_nil_r v) in Hval. by apply cstr_app in Hval.
    + intros x Hx. apply cut_out. unfold q in *. lia.
  - exists (resume a e.1 []). unfold cut in *. assert (Hz : rd8 m (resume a e.1 []) = 0).
    { apply cstr_app in Hc. unfold resume. by rewrite Z.add_0_r. }
    split_and!; try done. by apply strtok_end.
Qed.

Lemma readable_ext m m' a es :
  (forall x, a <= x < line_end a es -> rd8 m' x = rd8 m x) -> readable m a es -> readable m' a es.
Proof.
  revert a. induction es as [|e es IH]; intros a Hx; cbn [readable]; [done|]. intros (Hk & Hv & Hr).
  pose proof (line_end_le (step a e) es) as Hle. cbn [line_end] in Hx. pose proof (entry_step a e) as Hst.
  split_and!.
  - eapply cstr_ext; [|exact Hk]. intros x Hx'. apply Hx. destruct e.2; lia.
  - unfold val_addr in *. destruct e.2 as [v|]; [|done]. eapply cstr_ext; [|exact Hv]. intros x Hx'. apply Hx. lia.
  - apply IH; [|done]. intros x Hx'. apply Hx. unfold step in *. lia.
Qed.

Definition params_set s o m pl xs a es tk (s' : fstate A boot) k : Prop :=
  exists al' o' m' tk' ys, s' = mk s al' o' m' tk' pl /\ store_ok k (Store al' o') /\
  list_rep o' pl (xs ++ ys) /\ Forall2 (fun p x => o' !! p = Some (OParam x)) ys.*2 (params_of a es) /\
  readable m' a es /\ (forall x, x < a \/ line_end a es <= x -> rd8 m' x = rd8 m x) /\
  untouched (owned pl xs) o o' /\ (forall p, p ∈ ys.*1 \/ p ∈ ys.*2 -> o !! p = None) /\
  match es with [] => tk' = tk | _ => rd8 m' tk' = 0 end.

(** The list has one more parameter, made from the entry at [a]; [o] and [m] are
    otherwise as they were. *)
Definition one_set s o m pl xs a e nx (nx' : Z) (s' : fstate A boot) k : Prop :=
  exists al' o' m' tk' n p, s' = mk s al' o' m' tk' pl /\ nx' = nx /\ store_ok k (Store al' o') /\
  list_rep o' pl (xs ++ [(n, p)]) /\ o !! n = None /\ o !! p = None /\ p <> n /\
  o' !! p = Some (OParam (MbootParam a (val_addr a e))) /\
  (forall b, b ∉ owned pl xs -> is_Some (o !! b) -> o' !! b = o !! b) /\
  rd8 m' tk' = 0 /\ cstr m' a e.1 /\ match e.2 with Some v => cstr m' (val_addr a e) v | None => True end /\
  (forall x, x < a \/ step a e <= x -> rd8 m' x = rd8 m x).

Lemma set_param_spec k s al o m a tk pl xs w pv nx e equals :
  store_ok (2 + k) (Store al o) -> list_rep o pl xs -> o !! w = Some (ONode (DNode pv nx a)) -> w ∉ owned pl xs ->
  cstr m a (entry_text e) -> entry_ok e -> 0 < a -> cstr m equals [61] -> 0 < equals -> equals + 1 < a \/ step a e <= equals ->
  wp (set_param equals w) (fun nx' s' => one_set s o m pl xs a e nx nx' s' k) (mk s al o m tk pl).
Proof.
  intros Hok Hl Hw Hwn Hc He Ha Heq H0 Hsep.
  destruct (strtok_entry m tk a e equals) as (m1 & tk1 & tk2 & Hk1 & Hk2 & Hz & Hkey & Hval & Hout1); try done.
  unfold set_param. apply wp_bind, wp_objs_mk. eapply wp_get_node; [exact Hw|]. cbn [alloc objs data].
  apply wp_bind, wp_objs_mk. eapply wp_new; [exact Hok|unfold SIZEOF_PARAM, SMALL; cbn; lia|].
  intros p al1 Hp0 Hpf Hok1. cbn [alloc objs]. apply wp_bind. eapply wp_tok; [exact Hk1|].
  apply wp_bind, wp_objs_mk, wp_bind. eapply wp_get_param; [lkp|]. apply wp_put. cbn [alloc objs param_val].
  apply wp_bind. eapply wp_tok; [exact Hk2|].
  apply wp_bind, wp_objs_mk. apply wp_bind. eapply wp_get_param; [lkp|]. apply wp_put.
  cbn [alloc objs param_key]. rewrite !insert_insert_eq. apply wp_bind, wp_gets. cbn [mk set_drivers drivers params].
  set (o1 := <[p := OParam (MbootParam a (val_addr a e))]> o). assert (Hup : untouched [] o o1).
  { intros b _ Hb. unfold o1. rewrite lookup_insert_ne; [done|]. intros ->. rewrite Hpf in Hb. by apply is_Some_None in Hb. }
  apply wp_bind, wp_objs_mk. eapply wp_mono.
  { apply (linked_list_append_spec k); [by eapply store_ok_over|by eapply list_rep_frame; [exact Hl|exact Hup|set_solver]|exact Hp0]. }
  intros n [al2 o2] (Hok2 & Hl2 & Hn2 & Hu2). rewrite app_nil_r in Hu2. cbn [alloc objs] in *.
  assert (Hold : forall b, b ∉ owned pl xs -> is_Some (o !! b) -> o2 !! b = o !! b).
  { intros b Hb Hs'. rewrite Hu2; [apply Hup; [set_solver|done]|done|]. rewrite Hup; [done|set_solver|done]. }
  apply wp_bind, wp_objs_mk. eapply wp_get_node; [rewrite Hold; [exact Hw|done|by eexists]|]. apply wp_ret.
  assert (Hpn : p <> n) by (intros ->; unfold o1 in Hn2; by rewrite lookup_insert_eq in Hn2).
  exists al2, o2, m1, tk2, n, p. split_and!; try done.
  - destruct (o !! n) eqn:E; [|done]. rewrite Hup in Hn2; [congruence|set_solver|by eexists].
  - rewrite Hu2; [unfold o1; by lk| |unfold o1; lkp]. intros Hin. destruct (owned_node _ _ _ _ Hl Hin). congruence.
Qed.

Lemma owned_snoc l xs n p b : b ∈ owned l (xs ++ [(n, p)]) <-> b ∈ owned l xs \/ b = n.
Proof. unfold owned. rewrite fmap_app. cbn. set_solver. Qed.

(** Setting the first parameter and then the others. *)
Lemma params_set_step s o m pl xs a e es tk k k' (s1 s' : fstate A boot) al1 o1 m1 tk1 n p :
  s1 = mk s al1 o1 m1 tk1 pl -> list_rep o pl xs -> list_rep o1 pl (xs ++ [(n, p)]) -> o !! n = None -> o !! p = None ->
  p <> n -> o1 !! p = Some (OParam (MbootParam a (val_addr a e))) ->
  (forall b, b ∉ owned pl xs -> is_Some (o !! b) -> o1 !! b = o !! b) -> rd8 m1 tk1 = 0 -> cstr m1 a e.1 ->
  match e.2 with Some v => cstr m1 (val_addr a e) v | None => True end ->
  (forall x, x < a \/ step a e <= x -> rd8 m1 x = rd8 m x) ->
  params_set s o1 m1 pl (xs ++ [(n, p)]) (step a e) es tk1 s' k -> (k' <= k)%nat ->
  params_set s o m pl xs a (e :: es) tk s' k'.
Proof.
  intros -> Hl Hl1 Hn Hp Hpn Hpo Hold Hz Hkey Hval Hout1
    (al' & o' & m' & tk' & ys & -> & Hok' & Hl' & Hps & Hr & Hout & Hu' & Hnew & Htk) Hk.
  pose proof (line_end_le (step a e) es) as Hle. assert (Hstep : a < step a e) by (unfold step; lia).
  rewrite <- app_assoc in Hl'. exists al', o', m', tk', ((n, p) :: ys).
  assert (Hfresh : forall b, o !! b = None -> b ∉ owned pl xs).
  { intros b Hb Hin. destruct (owned_node _ _ _ _ Hl Hin). congruence. }
  split_and!; [done|by eapply store_ok_le|exact Hl'| | | | | |].
  - cbn [fmap list_fmap snd params_of]. constructor; [|done]. rewrite Hu'; [done| |by eexists].
    rewrite owned_snoc. intros [Hin|Hin]; [by eapply Hfresh|done].
  - cbn [readable]. split_and!; [| |done]; pose proof (entry_step a e) as Hst.
    + eapply cstr_ext; [|exact Hkey]. intros x Hx. apply Hout. destruct e.2; lia.
    + unfold val_addr in *. destruct e.2 as [v|]; [|done]. eapply cstr_ext; [|exact Hval]. intros x Hx. apply Hout. lia.
  - cbn [line_end]. intros x Hx. rewrite Hout by lia. apply Hout1. lia.
  - intros b Hb Hsb. rewrite <- (Hold b Hb Hsb). apply Hu'; [|by rewrite Hold].
    rewrite owned_snoc. intros [Hin| ->]; [done|]. rewrite Hn in Hsb. by apply is_Some_None in Hsb.
  - intros b Hb. assert (Hb' : b = n \/ b = p \/ (b ∈ ys.*1 \/ b ∈ ys.*2)) by (cbn in Hb; rewrite !elem_of_cons in Hb; tauto).
    destruct Hb' as [->|[->|Hb']]; [done|done|]. specialize (Hnew b Hb'). destruct (o !! b) eqn:E; [|done].
    destruct (decide (b ∈ owned pl xs)) as [Hin|Hin].
    + destruct (owned_node o1 pl (xs ++ [(n, p)]) b Hl1) as [? Hx]; [rewrite owned_snoc; by left|congruence].
    + rewrite Hold in Hnew; [congruence|done|by eexists].
  - destruct es; [|exact Htk]. subst tk'. rewrite Hout; [done|cbn; lia].
Qed.

Lemma set_params_loop_spec fuel es k s al o m a tk pl xs ws pv equals :
  store_ok (2 * length es + k) (Store al o) -> list_rep o pl xs -> dlseg o pv ws 0 -> ws.*2 = starts a es ->
  (forall b, b ∈ ws.*1 -> b ∉ owned pl xs) -> laid m a es -> Forall entry_ok es -> cstr m equals [61] -> 0 < equals ->
  0 < a -> equals + 1 < a \/ line_end a es <= equals -> (length es < fuel)%nat ->
  wp (set_params_loop fuel equals (hd_addr ws 0)) (fun _ s' => params_set s o m pl xs a es tk s' k) (mk s al o m tk pl).
Proof.
  revert fuel al o m a tk xs ws pv. induction es as [|e es IH];
    intros [|fuel] al o m a tk xs ws pv Hok Hl Hs Hws Hd Hlaid Hes Heq H0 Ha Hsep Hf; try (cbn in Hf; lia);
    (destruct ws as [|[w d] ws]; [try discriminate|try discriminate]); cbn [set_params_loop hd_addr].
  - apply wp_ret. eexists al, o, m, tk, []. rewrite app_nil_r. split_and!; try done. set_solver.
  - cbn [fmap list_fmap snd starts] in Hws. injection Hws as -> Hws. destruct Hs as [Hw Hs]. destruct Hlaid as [Hc Hlaid].
    inversion Hes as [|? ? He Hes']; subst. pose proof (line_end_le (step a e) es) as Hle. cbn [line_end] in Hsep.
    assert (Hstep : a < step a e) by (unfold step; lia).
    destruct (Z.eqb_spec w 0) as [->|Hw0]; [by rewrite (store_ok_zero _ _ _ Hok) in Hw|].
    apply wp_bind. eapply wp_mono.
    { eapply (set_param_spec (2 * length es + k)); [|exact Hl|exact Hw|apply Hd; left|exact Hc|done|done|exact Heq|done|lia].
      eapply store_ok_le; [|exact Hok]. cbn. lia. }
    intros nx' s1 (al1 & o1 & m1 & tk1 & n & p & -> & -> & Hok1 & Hl1 & Hn & Hp & Hpn & Hpo & Hold & Hz & Hkey & Hval & Hout1).
    eapply wp_mono.
    { apply (IH fuel al1 o1 m1 (step a e) tk1 (xs ++ [(n, p)]) ws w); try done; [| | | |lia|lia|cbn in Hf; lia].
      - eapply dlseg_ext; [|exact Hs]. intros b Hb. apply Hold; [apply Hd; by right|].
        destruct (dlseg_node _ _ _ _ _ Hs Hb). by eexists.
      - intros b Hb. rewrite owned_snoc. intros [Hin| ->]; [eapply Hd; [by right|exact Hin]|].
        destruct (dlseg_node _ _ _ _ _ Hs Hb). congruence.
      - eapply laid_ext; [|exact Hlaid]. intros x Hx. apply Hout1. lia.
      - eapply cstr_ext; [|exact Heq]. intros x Hx. apply Hout1. cbn [length] in Hx. lia. }
    intros [] s' Hset. by apply (params_set_step s o m pl xs a e es tk k k _ s' al1 o1 m1 tk1 n p eq_refl).
Qed.

(** ** From the line to the list of parameters *)

(** The parameters [es] of the line at [a], as [parse_multiboot_params] leaves
    them. *)
Definition parsed s (a : Z) (es : list entry) : Prop :=
  exists ys, list_rep s.(fstore).(objs) s.(drivers).(params) ys /\
  Forall2 (fun p x => s.(fstore).(objs) !! p = Some (OParam x)) ys.*2 (params_of a es) /\ readable s.(fmem) a es.

Lemma set_params_spec e es k s al o m a tk l0 lst ws equals :
  store_ok (1 + 2 * length (e :: es) + k) (Store al o) -> list_rep o lst ws -> ws.*2 = starts a (e :: es) ->
  laid m a (e :: es) -> Forall entry_ok (e :: es) -> cstr m equals [61] -> 0 < equals -> 0 < a ->
  equals + 1 < a \/ line_end a (e :: es) <= equals ->
  wp (set_params equals lst) (fun _ s' => exists pl al' o' m' tk' ys, s' = mk s al' o' m' tk' pl /\
    store_ok k (Store al' o') /\ list_rep o' pl ys /\
    Forall2 (fun p x => o' !! p = Some (OParam x)) ys.*2 (params_of a (e :: es)) /\ readable m' a (e :: es) /\
    (forall x, x < a \/ line_end a (e :: es) <= x -> rd8 m' x = rd8 m x) /\
    untouched [] o o' /\ (forall p, p ∈ owned pl ys \/ p ∈ ys.*2 -> o !! p = None)) (mk s al o m tk l0).
Proof.
  intros Hok Hl Hws Hlaid Hes Heq H0 Ha Hsep. unfold set_params. apply wp_bind, wp_objs_mk.
  eapply wp_mono; [by apply (linked_list_create_spec (2 * length (e :: es) + k))|].
  intros pl [al1 o1] (Hok1 & Hplf & Hpl & Hu1). cbn [alloc objs] in *. apply wp_bind, wp_modify.
  assert (Hl1 : list_rep o1 lst ws) by (eapply list_rep_frame; [exact Hl|exact Hu1|set_solver]).
  change (set_drivers _ _) with (mk s al1 o1 m tk pl).
  pose proof (list_rep_length _ _ _ Hl1) as Hlen. destruct Hl1 as (Hlo & Hdl & Hnd).
  apply wp_bind, wp_objs_mk. eapply wp_get_list; [exact Hlo|]. cbn [alloc objs list_head]. apply wp_bind, wp_gets, wp_bind.
  assert (Hlw : length ws = length (e :: es)).
  { rewrite <- (length_fmap snd), Hws. clear. revert a. generalize (e :: es). intros l. induction l; intros; cbn; congruence. }
  eapply wp_mono.
  { eapply (set_params_loop_spec _ (e :: es) k s al1 o1 m a tk pl [] ws 0); try done.
    - intros b Hb Hin. unfold owned in Hin. cbn in Hin. apply list_elem_of_singleton in Hin as ->.
      destruct Hl as (_ & Hdl0 & _). destruct (dlseg_node _ _ _ _ _ Hdl0 Hb). congruence.
    - unfold chain_fuel. cbn [mk set_drivers set_fmem set_fstore fstore objs]. lia. }
  intros [] s' (al' & o' & m' & tk' & ys & -> & Hok' & Hl' & Hps & Hr & Hout & Hu' & Hnew & Htk).
  apply wp_bind. eapply wp_tok; [by apply strtok_end|]. apply wp_ret.
  exists pl, al', o', m', tk', ys. cbn [app] in Hl'.
  assert (Hno : forall b, o1 !! b = None -> o !! b = None).
  { intros b Hb. destruct (o !! b) eqn:E; [|done]. rewrite Hu1 in Hb; [congruence|set_solver|by eexists]. }
  split_and!; try done.
  - intros b _ Hb. assert (Hk : o1 !! b = o !! b) by (apply Hu1; [set_solver|done]). rewrite <- Hk in Hb |- *.
    apply Hu'; [|done]. intros Hin. unfold owned in Hin. cbn in Hin. apply list_elem_of_singleton in Hin as ->.
    rewrite Hk, Hplf in Hb. by apply is_Some_None in Hb.
  - intros p [[->|Hin]%elem_of_cons|Hin]; [done|apply Hno, Hnew; by left|apply Hno, Hnew; by right].
Qed.

Lemma parse_params_spec e es k s a mboot comma equals :
  let es' := e :: es in
  store_ok (2 + 3 * length es' + k) s.(fstore) -> rd32 s.(fmem) (mboot + 16) = a -> 0 < a ->
  cstr s.(fmem) a (command_line e es) -> Forall entry_ok es' ->
  cstr s.(fmem) comma [44] -> 0 < comma -> comma + 1 < a \/ line_end a es' <= comma ->
  cstr s.(fmem) equals [61] -> 0 < equals -> equals + 1 < a \/ line_end a es' <= equals ->
  wp (parse_multiboot_params comma equals mboot) (fun _ s' => parsed s' a es' /\ store_ok k s'.(fstore) /\
    (forall x, x < a \/ line_end a es' <= x -> rd8 s'.(fmem) x = rd8 s.(fmem) x)) s.
Proof.
  intros es' Hok Hma Ha Hc Hes Hcm Hcm0 Hcs Heq Heq0 Hes0. unfold parse_multiboot_params. apply wp_bind, wp_gets. rewrite Hma.
  rewrite (mk_eta s). set (m := s.(fmem)) in *. apply wp_bind, wp_objs_mk.
  eapply wp_mono; [apply (linked_list_create_spec (1 + 3 * length es' + k)); by destruct (fstore s)|].
  intros lst [al1 o1] (Hok1 & _ & Hl1 & _). cbn [alloc objs] in *. change (command_line e es) with (line es') in Hc.
  inversion Hes as [|? ? He Hes']; subst. unfold es' in Hc. rewrite line_cons in Hc. fold (tail_of es) in Hc.
  destruct (entry_text_word e He) as [Hne Hnc]. destruct (resume_line _ _ _ _ Hc) as [Hrl Hrs].
  set (a := rd32 m (mboot + 16)) in *. pose proof (line_end_le (step a e) es) as Hle. unfold es' in Hcs. cbn [line_end] in Hcs.
  apply wp_bind. eapply wp_tok.
  { pose proof (strtok_word m s.(drivers).(bt_stored_string) a 44 comma (entry_text e) (tail_of es)) as Ht. cbn zeta in Ht.
    destruct (Z.eqb_spec a 0); [lia|]. apply Ht; try done. by destruct es. }
  apply wp_bind, wp_objs_mk. eapply wp_mono.
  { apply (linked_list_append_spec (length es + (1 + 2 * length es' + k))); [|exact Hl1|lia].
    eapply store_ok_le; [|exact Hok1]. unfold es'. cbn [length]. lia. }
  intros n [al2 o2] (Hok2 & Hl2 & Hn2 & Hu2). cbn [alloc objs app] in *. apply wp_bind, wp_gets, wp_bind. eapply wp_mono.
  { apply (split_loop_spec _ es (1 + 2 * length es' + k) s al2 o2 _ (step a e) _ lst [(n, a)]); try done;
      [|unfold step in *; lia|unfold step in *; lia|].
    - eapply cstr_ext; [|exact Hcm]. intros x Hx. apply cut_out. cbn [length] in Hx. unfold step in *. lia.
    - change (fmem _) with (cut m a (entry_text e) (tail_of es)). pose proof (cstr_size _ _ _ Hrl).
      pose proof (line_count es Hes'). unfold str_fuel. lia. }
  intros [] s2 Hcut. apply (cut_line_cons s o1 m lst [] a e es) in Hcut; [|exact Hl2|done|exact Hu2|exact Hc].
  destruct Hcut as (al3 & o3 & m3 & tk3 & ws & -> & Hok3 & Hl3 & Hws & Hlaid & Hout3 & _ & _). fold es' in Hws, Hlaid, Hout3.
  apply wp_bind. eapply wp_mono.
  { apply (set_params_spec e es k s al3 o3 m3 a tk3 s.(drivers).(params) lst ws equals); try done.
    eapply cstr_ext; [|exact Heq]. intros x Hx. apply Hout3. cbn [length] in Hx. lia. }
  intros [] s3 (pl & al4 & o4 & m4 & tk4 & ys & -> & Hok4 & Hl4 & Hps & Hr & Hout4 & Hu4 & Hnew).
  assert (Hl3' : list_rep o4 lst ws) by (eapply list_rep_frame; [exact Hl3|exact Hu4|set_solver]).
  apply wp_objs_mk. eapply wp_mono; [by apply (linked_list_destroy_spec k)|].
  intros [] [al5 o5] (Hok5 & _ & Hkeep). cbn [alloc objs] in *.
  assert (Hk : forall p, p ∈ owned pl ys \/ p ∈ ys.*2 -> o5 !! p = o4 !! p).
  { intros p Hp. apply Hkeep. intros Hin. destruct (owned_node _ _ _ _ Hl3 Hin). rewrite Hnew in *; done. }
  split_and!; [|done|].
  - exists ys. cbn [fstore objs drivers params fmem mk set_drivers set_fmem set_fstore]. split; [|split; [|done]].
    + destruct Hl4 as (Hl4 & Hd4 & Hnd4). split_and!; [rewrite Hk; [done|left; left]| |done].
      eapply dlseg_ext; [|exact Hd4]. intros b Hb. apply Hk. left. by right.
    + eapply Forall2_weaken; [|exact Hps]. intros p x Hp Hx. rewrite Hk; [done|by right].
  - intros x Hx. cbn [fmem mk set_drivers set_fmem set_fstore]. rewrite Hout4, Hout3 by done. done.
Qed.

(** ** Looking a key up *)

Lemma find_param_spec fuel es s a key kl pv xs :
  dlseg s.(fstore).(objs) pv xs 0 -> s.(fstore).(objs) !! 0 = None ->
  Forall2 (fun p x => s.(fstore).(objs) !! p = Some (OParam x)) xs.*2 (params_of a es) -> readable s.(fmem) a es ->
  cstr s.(fmem) key kl -> (length xs < fuel)%nat -> 0 < a ->
  wp (find_param fuel (hd_addr xs 0) key) (fun q s' => s' = s /\
    match value_of kl es with Some v => q <> 0 /\ cstr s.(fmem) q v | None => q = 0 end) s.
Proof.
  revert fuel a pv es. induction xs as [|[n p] xs IH]; intros [|fuel] a pv es Hs H0 Hps Hr Hk Hf Ha; try (cbn in Hf; lia);
    cbn [find_param hd_addr].
  - apply wp_ret. destruct es; [done|]. inversion Hps.
  - destruct es as [|e es]; [inversion Hps|]. cbn [fmap list_fmap snd params_of] in Hps.
    inversion Hps as [|? ? ? ? Hp Hps']; subst. destruct Hs as [Hn Hs], Hr as (Hkey & Hval & Hr).
    destruct (Z.eqb_spec n 0) as [->|]; [congruence|].
    apply wp_bind. eapply wp_read; [by apply on_get_node|]. cbn [data].
    apply wp_bind. eapply wp_read; [apply on_objs_read; unfold get_param; by rewrite Hp|]. cbn [param_key param_val].
    apply wp_bind. eapply wp_read; [by apply (on_strcmp a e.1 key kl)|]. unfold value_of. cbn [List.find next].
    destruct (decide (e.1 = kl)) as [->|Hne].
    + rewrite bool_decide_true by done. apply wp_ret. unfold val_addr in *. destruct e.2; [|done]. split; [done|]. split; [lia|done].
    + rewrite bool_decide_false by done. change (1 =? 0) with false. cbv iota. eapply wp_mono.
      { eapply (IH fuel (step a e) n es); try done; [cbn in Hf; lia|unfold step; lia]. }
      by intros q s' [-> Hq].
Qed.

(** C8: the boot parameters.  The command line the boot loader passes,
    [key=value,key,...], is cut up by [parse_multiboot_params]; whatever its
    keys and values, [params_find_by_key] then returns the value of the first
    parameter with the given key, as a string of its own, and NULL when there is
    none or it has no value.  Nothing outside the line changes. *)
Theorem boot_params_found e es k s a mboot comma equals key kl :
  let es' := e :: es in
  store_ok (2 + 3 * length es' + k) s.(fstore) -> rd32 s.(fmem) (mboot + 16) = a -> 0 < a ->
  cstr s.(fmem) a (command_line e es) -> Forall entry_ok es' ->
  cstr s.(fmem) comma [44] -> 0 < comma -> comma + 1 < a \/ line_end a es' <= comma ->
  cstr s.(fmem) equals [61] -> 0 < equals -> equals + 1 < a \/ line_end a es' <= equals ->
  cstr s.(fmem) key kl -> key + Z.of_nat (length kl) < a \/ line_end a es' <= key ->
  wp (parse_multiboot_params comma equals mboot ;;; params_find_by_key key) (fun q s' =>
    match value_of kl es' with Some v => q <> 0 /\ cstr s'.(fmem) q v | None => q = 0 end /\
    (forall x, x < a \/ line_end a es' <= x -> rd8 s'.(fmem) x = rd8 s.(fmem) x)) s.
Proof.
  intros es' Hok Hma Ha Hc Hes Hcm Hcm0 Hcs Heq Heq0 Hes0 Hk Hks. apply wp_bind.
  eapply wp_mono; [by apply (parse_params_spec e es k)|]. intros [] s' ((ys & Hl & Hps & Hr) & Hok' & Hout).
  unfold params_find_by_key. apply wp_bind, wp_gets, wp_bind. pose proof (list_rep_length _ _ _ Hl) as Hlen.
  destruct Hl as (Hl & Hs & _). eapply wp_read; [by apply on_get_list|]. apply wp_bind, wp_gets. cbn [list_head].
  eapply wp_mono.
  { eapply (find_param_spec _ es'); try done.
    - by destruct Hok' as (_ & _ & _ & ?).
    - eapply cstr_ext; [|exact Hk]. intros x Hx. apply Hout. fold es'. lia.
    - unfold chain_fuel. lia. }
  intros q s'' [-> Hq]. by split.
Qed.
End proofs.

(** * A boot *)

#[local] Existing Instance bump_allocator.

(** "vesa=on,debug,mode=text" at 0x1000, the literals at 0x100 and 0x104, the
    key "mode" at 0x108, the multiboot structure at 0x200. *)
Definition demo_params : list entry :=
  [([118; 101; 115; 97], Some [111; 110]); ([100; 101; 98; 117; 103], None); ([109; 111; 100; 101], Some [116; 101; 120; 116])].
Definition demo_boot : fstate bump boot :=
  FState (Store (Bump 4096 ∅) ∅)
         (wr32 (put_str (put_str (put_str (put_str ∅ 0x1000 (line demo_params)) 0x100 [44]) 0x104 [61])
                        0x108 [109; 111; 100; 101]) 0x210 0x1000)
         0 0 0 0 0 0 0 0 0 0 (Boot 0 0 0 0).

Lemma boot_params_found_witness : exists q s',
  (parse_multiboot_params 0x100 0x104 0x200 ;;; params_find_by_key 0x108) demo_boot = Ret (q, s') /\
  cstr s'.(fmem) q [116; 101; 120; 116].
Proof.
  destruct (wp_inv _ _ _ (boot_params_found ([118; 101; 115; 97], Some [111; 110])
    [([100; 101; 98; 117; 103], None); ([109; 111; 100; 101], Some [116; 101; 120; 116])] 0 demo_boot
    0x1000 0x200 0x100 0x104 0x108 [109; 111; 100; 101]
    ltac:(store_by_compute) ltac:(by vm_compute) ltac:(lia) ltac:(by vm_compute)
    ltac:(repeat constructor; discriminate) ltac:(by vm_compute) ltac:(lia) ltac:(by left)
    ltac:(by vm_compute) ltac:(lia) ltac:(by left) ltac:(by vm_compute) ltac:(by left)))
    as (q & s' & Hr & Hq & _).
  exists q, s'. split; [exact Hr|]. apply Hq.
Defined.
