(* ===== verification/Vfs.v ===== *)
(** [kernel/vfs/vfs.c] and [kernel/util/path.c]: the tree of mounted nodes, path
    look-up, registered file systems and calls of node operations. *)
From stdpp Require Import base numbers gmap list.
From S2P Require Import Prelude Kmem Allocator Store LinkedList GenericTree KString Kstdio Fs.

Definition VFS_NODE_TYPE_SLNK : Z := 0x02.
Definition VFS_NODE_TYPE_FILE : Z := 0x04.
Definition VFS_NODE_TYPE_BLKD : Z := 0x08.
Definition VFS_NODE_TYPE_CHRD : Z := 0x10.
Definition VFS_NODE_TYPE_DIRE : Z := 0x20.
Definition VFS_NODE_TYPE_FIFO : Z := 0x40.
Definition VFS_NODE_TYPE_SDIR : Z := 0x80.

(** ** Paths *)

(** [while(path < (path_counter + path_len))] *)
Fixpoint parse_path_loop (n : nat) (path path_iterator segments : Z) : cmd mem Z :=
  match n with
  | O => ret segments
  | S n' =>
      c <- peek path ;;
      if c =? 47 then
        poke path_iterator 0 ;;;
        parse_path_loop n' (path + 1) (path_iterator + 1) (segments + 1)
      else
        poke path_iterator c ;;;
        parse_path_loop n' (path + 1) (path_iterator + 1) segments
  end.
Definition parse_path (path path_len path_iterator : Z) : cmd mem Z :=
  parse_path_loop (Z.to_nat path_len) path path_iterator 0.

Section operations.
Context {A D : Type} `{Allocator A}.
#[local] Abbreviation fs := (fstate A D).

Definition vfs_is_ready : cmd fs Z := gets vfs_is_ready_flag.

(** [literal] is the address of the format string "ID: %x". *)
Definition get_filesystem_id (literal : Z) : cmd fs Z :=
  id <- new_bytes 10 ;;
  on_bytes (modify (fun m => memset_8 m id 0 10)) ;;;
  n <- gets filesystem_id ;;
  on_bytes (ksprintf id literal [n]) ;;;
  modify (fun s => set_filesystem_id (u16 (s.(filesystem_id) + 1)) s) ;;;
  ret id.

Definition get_node_no : cmd fs Z :=
  modify (fun s => set_node_number (i32 (s.(node_number) + 1)) s) ;;;
  gets node_number.

(** ** Stub directories *)

(** The node mounted in the subtree that a list node holds. *)
Definition mounted_node (item : Z) : cmd (store A) (Z * Z) :=
  n <- get_node item ;;
  t <- get_tree n.(data) ;;
  ret (n.(data), t.(t_data)).

Fixpoint readdir_loop (fuel : nat) (item i entry_no : Z) : cmd (store A) Z :=
  match fuel with
  | O => hang
  | S fuel' =>
      if item =? 0 then ret 0
      else if i =? entry_no then
        r <- mounted_node item ;; ret r.2
      else
        n <- get_node item ;;
        readdir_loop fuel' n.(next) (i + 1) entry_no
  end.
Definition vfs_stub_directory_readdir (node entry_no : Z) : cmd fs Z :=
  v <- on_objs (get_vnode node) ;;
  if v.(v_tree_pointer) =? 0 then ret 0
  else
    t <- on_objs (get_tree v.(v_tree_pointer)) ;;
    l <- on_objs (get_list t.(sub_trees)) ;;
    fuel <- gets (fun s => chain_fuel s.(fstore)) ;;
    on_objs (readdir_loop fuel l.(list_head) 0 entry_no).

Fixpoint finddir_loop (fuel : nat) (item name : Z) : cmd fs Z :=
  match fuel with
  | O => hang
  | S fuel' =>
      if item =? 0 then ret 0
      else
        r <- on_objs (mounted_node item) ;;
        nd <- on_objs (get_vnode r.2) ;;
        c <- on_bytes (strcmp nd.(v_name) name) ;;
        if c =? 0 then ret r.2
        else
          n <- on_objs (get_node item) ;;
          finddir_loop fuel' n.(next) name
  end.
Definition vfs_stub_directory_finddir (node name : Z) : cmd fs Z :=
  v <- on_objs (get_vnode node) ;;
  if v.(v_tree_pointer) =? 0 then ret 0
  else
    t <- on_objs (get_tree v.(v_tree_pointer)) ;;
    l <- on_objs (get_list t.(sub_trees)) ;;
    fuel <- gets (fun s => chain_fuel s.(fstore)) ;;
    finddir_loop fuel l.(list_head) name.

(** [while((nd = vfs_stub_directory_readdir(node, i)))]: one round per child,
    and a last one. *)
Fixpoint listdir_loop (fuel : nat) (node dir_list i : Z) : cmd fs Z :=
  match fuel with
  | O => hang
  | S fuel' =>
      nd <- vfs_stub_directory_readdir node i ;;
      if nd =? 0 then ret i
      else on_objs (linked_list_append dir_list nd) ;;; listdir_loop fuel' node dir_list (i + 1)
  end.
(** [nodes[j] = item->data; j++] over a list: storing past the array faults. *)
Fixpoint fill_words (fuel : nat) (item nodes j : Z) : cmd (store A) unit :=
  match fuel with
  | O => hang
  | S fuel' =>
      if item =? 0 then ret tt
      else
        n <- get_node item ;;
        ws <- get_words nodes ;;
        (if bool_decide (Z.to_nat j < length ws)%nat
         then put_obj nodes (OWords (<[Z.to_nat j := n.(data)]> ws)) else fault) ;;;
        n <- get_node item ;;
        fill_words fuel' n.(next) nodes (j + 1)
  end.
Definition vfs_stub_directory_listdir (node : Z) : cmd fs Z :=
  on_objs (get_vnode node) ;;;
  dir_list <- on_objs linked_list_create ;;
  fuel <- gets (fun s => chain_fuel s.(fstore)) ;;
  i <- listdir_loop fuel node dir_list 0 ;;
  nodes <- on_objs (new_obj (i * SIZEOF_VNODE) (OWords (replicate (Z.to_nat (i * 16)) 0))) ;;
  l <- on_objs (get_list dir_list) ;;
  fuel <- gets (fun s => chain_fuel s.(fstore)) ;;
  on_objs (fill_words fuel l.(list_head) nodes 0) ;;;
  on_objs (linked_list_destroy dir_list) ;;;
  ret nodes.

Definition vfs_create_stub_directory (name : Z) : cmd fs Z :=
  node <- on_objs (new_obj SIZEOF_VNODE (OVnode zero_vnode)) ;;
  name' <- strdup name ;;
  no <- get_node_no ;;
  upd_vnode node (fun v =>
    VNode name' (u32 no) 0 VFS_NODE_TYPE_SDIR v.(v_specific_type) no_fn no_fn no_fn no_fn no_fn no_fn
          v.(v_status) vfs_stub_fn vfs_stub_fn vfs_stub_fn 0 v.(v_tree_pointer)) ;;;
  ret node.

(** ** Mounting *)

(** The loop over the children of [work_tree]: the last child whose node has the
    name the iterator points to.  [on_miss] is what a child with another name
    does to [hit]. *)
Fixpoint scan_children (on_miss : Z -> Z) (fuel : nat) (child path_iterator work_tree hit : Z)
    : cmd fs (Z * Z) :=
  match fuel with
  | O => hang
  | S fuel' =>
      if child =? 0 then ret (work_tree, hit)
      else
        r <- on_objs (mounted_node child) ;;
        candidate <- on_objs (get_vnode r.2) ;;
        c <- on_bytes (strcmp candidate.(v_name) path_iterator) ;;
        n <- on_objs (get_node child) ;;
        if c =? 0 then scan_children on_miss fuel' n.(next) path_iterator r.1 1
        else scan_children on_miss fuel' n.(next) path_iterator work_tree (on_miss hit)
  end.
Definition scan_tree (on_miss : Z -> Z) (work_tree path_iterator : Z) : cmd fs (Z * Z) :=
  t <- on_objs (get_tree work_tree) ;;
  l <- on_objs (get_list t.(sub_trees)) ;;
  fuel <- gets (fun s => chain_fuel s.(fstore)) ;;
  scan_children on_miss fuel l.(list_head) path_iterator work_tree 0.

(** [segments == 1 && path_len == 1] *)
Definition mount_at_root (node work_tree : Z) : cmd fs Z :=
  if work_tree =? 0 then
    work_tree <- on_objs (generic_tree_create node 0) ;;
    modify (set_mountpoint_tree work_tree) ;;;
    upd_vnode node (set_tree_pointer work_tree) ;;;
    modify (set_vfs_root_node node) ;;;
    ret node
  else
    t <- on_objs (get_tree work_tree) ;;
    v <- on_objs (get_vnode t.(t_data)) ;;
    if negb (v.(v_type_flags) =? VFS_NODE_TYPE_SDIR) then ret 0
    else
      on_objs (set_t_data work_tree node) ;;;
      upd_vnode node (set_tree_pointer work_tree) ;;;
      modify (set_vfs_root_node node) ;;;
      ret node.

(** [while(segments > 0)]: the tree for the whole path, with stub directories
    created where the path does not exist. *)
Fixpoint mount_walk (segments : nat) (work_tree path_iterator : Z) : cmd fs Z :=
  match segments with
  | O => ret work_tree
  | S segments' =>
      r <- scan_tree (fun hit => hit) work_tree path_iterator ;;
      work_tree <-
        (if r.2 =? 0 then
           cand <- vfs_create_stub_directory path_iterator ;;
           work_tree <- on_objs (generic_tree_create cand r.1) ;;
           upd_vnode cand (set_tree_pointer work_tree) ;;;
           ret work_tree
         else ret r.1) ;;
      n <- on_bytes (strlen path_iterator) ;;
      mount_walk segments' work_tree (path_iterator + (n + 1))
  end.

(** What happens at the tree found for the path. *)
Definition mount_at (node work_tree : Z) : cmd fs Z :=
  t <- on_objs (get_tree work_tree) ;;
  let retnode := t.(t_data) in
  rv <- on_objs (get_vnode retnode) ;;
  nv <- on_objs (get_vnode node) ;;
  c <- on_bytes (strcmp rv.(v_name) nv.(v_name)) ;;
  if c =? 0 then
    if rv.(v_type_flags) =? VFS_NODE_TYPE_SDIR then
      on_objs (free_obj retnode) ;;;
      on_objs (set_t_data work_tree node) ;;;
      upd_vnode node (set_tree_pointer work_tree) ;;;
      ret node
    else ret 0
  else ret 0.

Definition mount_in_vfs (node mountpoint : Z) : cmd fs Z :=
  if (node =? 0) || (mountpoint =? 0) then ret 0
  else
    c <- on_bytes (peek mountpoint) ;;
    if negb (c =? 47) then ret 0
    else
      path_len <- on_bytes (strlen mountpoint) ;;
      path_iterator <- new_bytes (path_len + 1) ;;
      segments <- on_bytes (parse_path mountpoint path_len path_iterator) ;;
      work_tree <- gets vfs_mountpoint_tree ;;
      retnode <-
        (if (segments =? 1) && (path_len =? 1) then mount_at_root node work_tree
         else
           work_tree <- mount_walk (Z.to_nat segments) work_tree (path_iterator + 1) ;;
           mount_at node work_tree) ;;
      free_bytes path_iterator ;;;
      ret retnode.

(** [root] is the address of the string "/". *)
Definition initialise_vfs_layer (root : Z) : cmd fs unit :=
  root_stub <- vfs_create_stub_directory root ;;
  l <- on_objs linked_list_create ;;
  modify (set_registered l) ;;;
  r <- mount_in_vfs root_stub root ;;
  modify (set_vfs_root_node r) ;;;
  modify (set_vfs_ready 1).

Definition vfs_get_root_tree : cmd fs Z := gets vfs_mountpoint_tree.
Definition vfs_get_root_node : cmd fs Z := gets vfs_root_node.

(** ** Node operations *)

Section calls.
Variables (fops : file_ops A D) (dops : dir_ops A D).

Definition read_from_vfs_node (node start_at size buffer : Z) : cmd fs Z :=
  if node =? 0 then ret (-1)
  else
    v <- on_objs (get_vnode node) ;;
    if is_null v.(v_read) then ret (-2)
    else if buffer =? 0 then ret (-3)
    else if size <? 0 then ret (-5)
    else op_read fops v.(v_read) node (u32 start_at) (u32 size) buffer.

Definition write_to_vfs_node (node start_at size buffer : Z) : cmd fs Z :=
  if node =? 0 then ret (-1)
  else
    v <- on_objs (get_vnode node) ;;
    if is_null v.(v_write) then ret (-2)
    else if buffer =? 0 then ret (-3)
    else if size <? 0 then ret (-5)
    else op_write fops v.(v_write) node (u32 start_at) (u32 size) buffer.

Definition close_node_vfs (node : Z) : cmd fs Z :=
  if node =? 0 then ret (-1)
  else
    v <- on_objs (get_vnode node) ;;
    if is_null v.(v_close) then ret (-2) else op_close fops v.(v_close) node.

Definition open_node_vfs (node : Z) : cmd fs Z :=
  if node =? 0 then ret (-1)
  else
    v <- on_objs (get_vnode node) ;;
    if is_null v.(v_open) then ret (-2) else op_open fops v.(v_open) node.

Definition control_vfs_node (node command arguments : Z) : cmd fs Z :=
  if (node =? 0) || (command =? 0) then ret (-1)
  else
    v <- on_objs (get_vnode node) ;;
    if is_null v.(v_control) then ret (-1)
    else op_control fops v.(v_control) node command arguments.

Definition status_of_vfs_node (node : Z) : cmd fs Z :=
  if node =? 0 then ret 0xFFFFFFFF
  else
    v <- on_objs (get_vnode node) ;;
    if is_null v.(v_status) then ret 0xFFFFFFFF else op_status fops v.(v_status) node.

(** Calls through pointers to the stub directory functions go to them; calling
    NULL faults. *)
Definition call_dir_read (f : fn) (node entry_no : Z) : cmd fs Z :=
  match f with
  | no_fn => fault
  | vfs_stub_fn => vfs_stub_directory_readdir node entry_no
  | _ => op_dir_read dops f node entry_no
  end.
Definition call_dir_find (f : fn) (node name : Z) : cmd fs Z :=
  match f with
  | no_fn => fault
  | vfs_stub_fn => vfs_stub_directory_finddir node name
  | _ => op_dir_find dops f node name
  end.
Definition call_dir_list (f : fn) (node : Z) : cmd fs Z :=
  match f with
  | no_fn => fault
  | vfs_stub_fn => vfs_stub_directory_listdir node
  | _ => op_dir_list dops f node
  end.

Definition create_node_vfs (node name type base_pointer : Z) : cmd fs Z :=
  if (node =? 0) || (name =? 0) || (type =? 0) || (base_pointer =? 0) then ret 0
  else
    v <- on_objs (get_vnode node) ;;
    if is_null v.(v_create) then fault else op_create dops v.(v_create) node name type base_pointer.

Definition read_directory_vfs (node entry_no : Z) : cmd fs Z :=
  if (node =? 0) || (entry_no <? 0) then ret 0
  else
    v <- on_objs (get_vnode node) ;;
    if is_null v.(v_dir_read) then ret 0 else call_dir_read v.(v_dir_read) node entry_no.

Definition find_in_directory_vfs (node name : Z) : cmd fs Z :=
  if (node =? 0) || (name =? 0) then ret 0
  else
    c <- on_bytes (peek name) ;;
    if c =? 0 then ret 0
    else
      v <- on_objs (get_vnode node) ;;
      if is_null v.(v_dir_find) then ret 0 else call_dir_find v.(v_dir_find) node name.

Definition list_directory_vfs (node : Z) : cmd fs Z :=
  if node =? 0 then ret 0
  else
    v <- on_objs (get_vnode node) ;;
    if is_null v.(v_dir_list) then ret 0 else call_dir_list v.(v_dir_list) node.

(** ** Path look-up *)

(** [while(segments > 0)]: the deepest tree reached, the segments left and where
    the iterator stands. *)
Fixpoint find_walk (segments : nat) (work_tree path_iterator : Z) : cmd fs (Z * nat * Z) :=
  match segments with
  | O => ret (work_tree, O, path_iterator)
  | S segments' =>
      r <- scan_tree (fun _ => 0) work_tree path_iterator ;;
      if r.2 =? 0 then ret (r.1, segments, path_iterator)
      else
        n <- on_bytes (strlen path_iterator) ;;
        find_walk segments' r.1 (path_iterator + (n + 1))
  end.

(** The node of the tree reached, which is asked for the rest of the path when
    segments are left and it is not a stub. *)
Definition find_rest (path moved work_tree : Z) (segments : nat) : cmd fs Z :=
  t <- on_objs (get_tree work_tree) ;;
  let retval := t.(t_data) in
  if bool_decide (segments <> O) then
    v <- on_objs (get_vnode retval) ;;
    if negb (v.(v_type_flags) =? VFS_NODE_TYPE_SDIR) then
      call_dir_find v.(v_dir_find) retval (path + moved)
    else ret 0
  else ret retval.

Definition vfs_find_node (path : Z) : cmd fs Z :=
  if path =? 0 then ret 0
  else
    work_tree <- gets vfs_mountpoint_tree ;;
    path_len <- on_bytes (strlen path) ;;
    c <- on_bytes (peek path) ;;
    if (path_len =? 1) && (c =? 47) then gets vfs_root_node
    else
      path_i_s <- new_bytes (path_len + 1) ;;
      path_is_s <- new_bytes (path_len + 1) ;;
      segments <- on_bytes (parse_path path path_len path_i_s) ;;
      let path_iterator_save := path_i_s + 1 in
      r <- find_walk (Z.to_nat segments) work_tree path_iterator_save ;;
      let '(work_tree, segments, path_iterator) := r in
      retval <- find_rest path (path_iterator - path_iterator_save) work_tree segments ;;
      free_bytes path_i_s ;;;
      free_bytes path_is_s ;;;
      ret retval.

(** ** File systems *)

Definition register_filesystem_in_vfs (id : Z) (mount_function : fn) : cmd fs unit :=
  if negb (id =? 0) && negb (is_null mount_function) then
    f <- on_objs (new_obj SIZEOF_FILESYS (OFilesys (RegFilesys 0 no_fn))) ;;
    on_objs (get_filesys f ;;; put_obj f (OFilesys (RegFilesys id mount_function))) ;;;
    l <- gets registered_filesystems ;;
    on_objs (linked_list_append l f) ;;;
    ret tt
  else ret tt.

Fixpoint filesys_loop (fuel : nat) (item id : Z) : cmd fs (option reg_filesys) :=
  match fuel with
  | O => hang
  | S fuel' =>
      if item =? 0 then ret None
      else
        n <- on_objs (get_node item) ;;
        f <- on_objs (get_filesys n.(data)) ;;
        c <- on_bytes (strcmp id f.(fs_id)) ;;
        if c =? 0 then ret (Some f) else filesys_loop fuel' n.(next) id
  end.

(** [mount_of] calls a file system's mount function. *)
Definition mount_filesystem_in_vfs (mount_of : fn -> Z -> Z -> cmd fs Z)
    (id mountpoint device_path : Z) : cmd fs Z :=
  if (id =? 0) || (mountpoint =? 0) then ret 0
  else
    r <- gets registered_filesystems ;;
    l <- on_objs (get_list r) ;;
    fuel <- gets (fun s => chain_fuel s.(fstore)) ;;
    reg <- filesys_loop fuel l.(list_head) id ;;
    match reg with
    | None => ret 0
    | Some f =>
        device <- vfs_find_node device_path ;;
        mount_of f.(mount_function) device mountpoint
    end.
End calls.
End operations.
