(* ===== verification/VfsSpec.v ===== *)
(** What [kernel/vfs/vfs.c] and [kernel/util/path.c] compute: paths as lists of
    names, look-up and mounting against a tree of named nodes. *)
From stdpp Require Import base numbers gmap list.
From S2P Require Import Prelude Kmem Allocator Store LinkedList GenericTree KString Fs Vfs.

(** * Paths *)

Definition SLASH : Z := 47.

(** The characters [parse_path] stores, and the names between the slashes. *)
Definition cut (c : Z) : Z := if c =? SLASH then 0 else c.

Fixpoint names_of (l : list Z) : list Z * list (list Z) :=
  match l with
  | [] => ([], [])
  | c :: l' =>
      let '(first, rest) := names_of l' in
      if c =? SLASH then ([], first :: rest) else (c :: first, rest)
  end.

(** The segments of a path that starts with a slash. *)
Definition segments_of (l : list Z) : list (list Z) := (names_of l).2.

Definition slashes (l : list Z) : Z := Z.of_nat (length (segments_of l)).

(** The names [xs] one after the other in memory, each with its terminator. *)
Fixpoint strs (m : mem) (p : Z) (xs : list (list Z)) : Prop :=
  match xs with
  | [] => True
  | x :: xs' => cstr m p x /\ strs m (p + (Z.of_nat (length x) + 1)) xs'
  end.

Lemma names_of_cons c l :
  names_of (c :: l) = if c =? SLASH then ([], (names_of l).1 :: (names_of l).2)
                      else (c :: (names_of l).1, (names_of l).2).
Proof. cbn [names_of]. by destruct (names_of l). Qed.

Lemma names_of_plain x : SLASH ∉ x -> names_of x = (x, []).
Proof.
  induction x as [|c x IH]; intros Hx; [done|]. apply not_elem_of_cons in Hx as [Hc Hx].
  rewrite names_of_cons, IH by done. cbn [fst snd]. destruct (Z.eqb_spec c SLASH); [congruence|done].
Qed.
Lemma segments_of_plain x : SLASH ∉ x -> segments_of (SLASH :: x) = [x].
Proof. intros Hx. unfold segments_of. by rewrite names_of_cons, names_of_plain. Qed.

Lemma parse_path_loop_spec l m p q n :
  (forall i, (i < length l)%nat -> rd8 m (p + Z.of_nat i) = default 0 (l !! i)) ->
  (forall c, c ∈ l -> 0 < c < 256) ->
  q + Z.of_nat (length l) <= p \/ p + Z.of_nat (length l) <= q ->
  exists m', parse_path_loop (length l) p q n m = Ret (n + slashes l, m') /\
    forall x, rd8 m' x = if decide (q <= x < q + Z.of_nat (length l))
                         then cut (default 0 (l !! Z.to_nat (x - q))) else rd8 m x.
Proof.
  revert m p q n. induction l as [|c l IH]; intros m p q n Hl Hr Hd; cbn [length parse_path_loop].
  { exists m. split; [unfold ret, slashes; cbn; do 2 f_equal; lia|]. intros x. by rewrite decide_False by lia. }
  pose proof (Hl 0%nat ltac:(cbn; lia)) as Hc. cbn in Hc. rewrite Z.add_0_r in Hc.
  pose proof (Hr c ltac:(left)) as Hc'.
  destruct (IH (wr8 m q (cut c)) (p + 1) (q + 1) (n + if c =? SLASH then 1 else 0)) as (m' & Hm' & Hrd).
  - intros i Hi. rewrite rd8_wr8_ne by (cbn in Hd; lia).
    replace (p + 1 + Z.of_nat i) with (p + Z.of_nat (S i)) by lia. by rewrite Hl by (cbn; lia).
  - intros d Hin. apply Hr. by right.
  - cbn in Hd. lia.
  - exists m'. split.
    + unfold bind, peek, poke, gets, modify. rewrite Hc. unfold slashes, segments_of in *.
      rewrite names_of_cons. unfold cut, SLASH in *. destruct (Z.eqb_spec c 47) as [->|Hne].
      * rewrite Hm'. cbn [snd length]. unfold ret. do 2 f_equal. lia.
      * rewrite Z.add_0_r in Hm'. exact Hm'.
    + intros x. rewrite Hrd. rewrite rd8_wr8. repeat case_decide; try lia; try done.
      * replace (Z.to_nat (x - q)) with (S (Z.to_nat (x - (q + 1)))) by lia. done.
      * subst x. replace (Z.to_nat (q - q)) with 0%nat by lia. cbn.
        apply u8_small. unfold cut. destruct (c =? SLASH); lia.
Qed.

Lemma cstr_lookup m p l i : cstr m p l -> (i < length l)%nat -> rd8 m (p + Z.of_nat i) = default 0 (l !! i).
Proof.
  revert p i. induction l as [|c l IH]; intros p i Hc Hi; [cbn in Hi; lia|].
  destruct Hc as (Hp & _ & Hc). destruct i as [|i]; cbn; [by rewrite Z.add_0_r|].
  replace (p + Z.of_nat (S i)) with (p + 1 + Z.of_nat i) by lia. apply IH; [done|cbn in Hi; lia].
Qed.

(** Reading the cut characters back: the first name, then the others. *)
Lemma cut_strs (m : mem) q l :
  (forall i, (i < length l)%nat -> rd8 m (q + Z.of_nat i) = cut (default 0 (l !! i))) ->
  rd8 m (q + Z.of_nat (length l)) = 0 -> (forall c, c ∈ l -> c <> 0) ->
  strs m q ((names_of l).1 :: (names_of l).2).
Proof.
  revert q. induction l as [|c l IH]; intros q Hl Hz Hr; [cbn in *; by rewrite Z.add_0_r in Hz|].
  pose proof (Hl 0%nat ltac:(cbn; lia)) as Hc. cbn in Hc. rewrite Z.add_0_r in Hc.
  specialize (IH (q + 1)). cbn [strs] in IH. destruct IH as [IH1 IH2].
  - intros i Hi. etransitivity; [|exact (Hl (S i) ltac:(cbn; lia))]. f_equal. lia.
  - rewrite <- Hz. f_equal. cbn. lia.
  - intros d Hd. apply Hr. by right.
  - rewrite names_of_cons. unfold cut in Hc. destruct (Z.eqb_spec c SLASH); cbn [fst snd strs cstr length].
    + split; [done|]. cbn. split; [by replace (q + 1) with (q + (0 + 1)) by lia|].
      by replace (q + (0 + 1)) with (q + 1) by lia.
    + split_and!; [done|apply Hr; left|done|].
      replace (q + (Z.of_nat (S (length (names_of l).1)) + 1)) with (q + 1 + (Z.of_nat (length (names_of l).1) + 1)) by lia.
      done.
Qed.

Lemma parse_path_spec (m : mem) p q l :
  cstr m p (SLASH :: l) -> q + Z.of_nat (length l) + 1 <= p \/ p + Z.of_nat (length l) + 1 <= q ->
  rd8 m (q + Z.of_nat (length l) + 1) = 0 ->
  exists m', parse_path p (Z.of_nat (length l) + 1) q m = Ret (Z.of_nat (length (segments_of (SLASH :: l))), m') /\
    strs m' (q + 1) (segments_of (SLASH :: l)) /\
    forall x, x < q \/ q + Z.of_nat (length l) + 1 <= x -> rd8 m' x = rd8 m x.
Proof.
  intros Hp Hd Hz.
  destruct (parse_path_loop_spec (SLASH :: l) m p q 0) as (m' & Hm' & Hrd).
  - intros i Hi. by apply cstr_lookup.
  - intros c Hin. by eapply cstr_range.
  - cbn [length]. lia.
  - exists m'. unfold parse_path. replace (Z.to_nat (Z.of_nat (length l) + 1)) with (length (SLASH :: l)) by (cbn; lia).
    rewrite Hm'. split; [done|]. split.
    + unfold segments_of. rewrite names_of_cons. cbn [Z.eqb Pos.eqb snd].
      apply cut_strs.
      * intros i Hi. rewrite Hrd, decide_True by (cbn [length]; lia).
        by replace (Z.to_nat (q + 1 + Z.of_nat i - q)) with (S i) by lia.
      * rewrite Hrd, decide_False by (cbn [length]; lia). rewrite <- Hz. f_equal. lia.
      * intros c Hin. destruct Hp as (_ & _ & Hp). pose proof (cstr_range _ _ _ _ Hp Hin). lia.
    + intros x Hx. rewrite Hrd, decide_False by (cbn [length]; lia). done.
Qed.

(** [parse_path] on a cleared buffer cuts a path at its slashes: it returns
    the number of slashes, leaves every byte outside the buffer alone, and the
    buffer then holds the path's segments one after the other. *)
Theorem parse_path_splits (m : mem) p q l :
  cstr m p (SLASH :: l) -> q + Z.of_nat (length l) + 1 <= p \/ p + Z.of_nat (length l) + 1 <= q ->
  rd8 m (q + Z.of_nat (length l) + 1) = 0 ->
  exists m', parse_path p (Z.of_nat (length l) + 1) q m = Ret (Z.of_nat (length (segments_of (SLASH :: l))), m') /\
    strs m' (q + 1) (segments_of (SLASH :: l)) /\
    forall x, x < q \/ q + Z.of_nat (length l) + 1 <= x -> rd8 m' x = rd8 m x.
Proof. exact (parse_path_spec m p q l). Qed.

(** * Trees of named nodes *)

Definition datum (t : rose) : Z := match t with Rose _ d _ _ => d end.
Definition kids_of (t : rose) : list rose := match t with Rose _ _ _ ks => ks.*2 end.

(** The loop over the children, abstractly: [nm] gives the name of a node. *)
Definition scan (on_miss : Z -> Z) (nm : Z -> list Z) (x : list Z) (ks : list rose) (r : Z * Z) : Z * Z :=
  foldl (fun r k => if decide (nm (datum k) = x) then (root k, 1) else (r.1, on_miss r.2)) r ks.

(** The subtree a path leads to and the segments left.  The search stops at a
    level whose last child has another name, on the child it last saw. *)
Fixpoint last_named (nm : Z -> list Z) (x : list Z) (ks : list rose) : option rose :=
  match ks with
  | [] => None
  | k :: ks' =>
      match last_named nm x ks' with
      | Some k' => Some k'
      | None => if decide (nm (datum k) = x) then Some k else None
      end
  end.
Fixpoint resolve (nm : Z -> list Z) (t : rose) (xs : list (list Z)) : rose * list (list Z) :=
  match xs with
  | [] => (t, [])
  | x :: xs' =>
      let w := default t (last_named nm x (kids_of t)) in
      if decide ((fun k => nm (datum k)) <$> last (kids_of t) = Some x) then resolve nm w xs'
      else (w, xs)
  end.

Lemma scan_cons on_miss nm x k ks r :
  scan on_miss nm x (k :: ks) r =
  scan on_miss nm x ks (if decide (nm (datum k) = x) then (root k, 1) else (r.1, on_miss r.2)).
Proof. done. Qed.

Lemma scan_app on_miss nm x ks ks' r : scan on_miss nm x (ks ++ ks') r = scan on_miss nm x ks' (scan on_miss nm x ks r).
Proof. apply foldl_app. Qed.

Lemma scan_fst on_miss nm x ks r :
  (scan on_miss nm x ks r).1 = default r.1 (root <$> last_named nm x ks).
Proof.
  revert r. induction ks as [|k ks IH]; intros r; [done|]. rewrite scan_cons, IH. cbn [last_named].
  destruct (last_named nm x ks); [done|]. by case_decide.
Qed.

(** [vfs_find_node]: a hit is remembered only from the last child. *)
Lemma scan_hit_last nm x ks w :
  (scan (fun _ => 0) nm x ks (w, 0)).2 =
  if decide ((fun k => nm (datum k)) <$> last ks = Some x) then 1 else 0.
Proof.
  induction ks as [|k ks _] using rev_ind; [done|].
  rewrite scan_app, last_snoc, scan_cons. cbn [scan foldl fmap option_fmap option_map].
  repeat case_decide; try done; congruence.
Qed.

(** [mount_in_vfs]: any child will do. *)
Lemma scan_hit_any nm x ks w :
  (scan (fun hit => hit) nm x ks (w, 0)).2 = if last_named nm x ks is Some _ then 1 else 0.
Proof.
  enough (Hg : forall r, (scan (fun hit => hit) nm x ks r).2 = if last_named nm x ks is Some _ then 1 else r.2) by apply Hg.
  induction ks as [|k ks IH]; intros r; [done|]. rewrite scan_cons, IH. cbn [last_named]. destruct (last_named nm x ks); [done|]. by case_decide.
Qed.

Lemma last_named_in nm x ks k : last_named nm x ks = Some k -> k ∈ ks /\ nm (datum k) = x.
Proof.
  induction ks as [|k' ks IH]; [done|]. cbn. destruct (last_named nm x ks) as [k''|] eqn:He.
  - intros [= ->]. destruct IH as [? ?]; [done|]. split; [by right|done].
  - case_decide; [|done]. intros [= ->]. split; [left|done].
Qed.

Lemma last_named_snoc nm x ks k :
  last_named nm x (ks ++ [k]) = if decide (nm (datum k) = x) then Some k else last_named nm x ks.
Proof.
  induction ks as [|k' ks IH]; [done|]. cbn [app last_named]. rewrite IH. by case_decide.
Qed.

Lemma last_named_none nm x ks : last_named nm x ks = None <-> Forall (fun k => nm (datum k) <> x) ks.
Proof.
  induction ks as [|k ks IH]; cbn; [done|]. rewrite Forall_cons.
  destruct (last_named nm x ks); [split; [done|]; intros [_ Hf]; by apply IH in Hf|].
  case_decide; [split; [done|tauto]|]. tauto.
Qed.

Section vfs.
Context {A D : Type} `{Allocator A}.
Implicit Types (s : fstate A D).

(** The node at [d] is called [nm d]. *)
Definition named s (nm : Z -> list Z) (d : Z) : Prop :=
  exists v, s.(fstore).(objs) !! d = Some (OVnode v) /\ str_at s v.(v_name) (nm d).

(** Every node of the tree [t] under [parent] has its name. *)
Definition named_tree s (nm : Z -> list Z) (parent : Z) (t : rose) : Prop :=
  tree_rep s.(fstore).(objs) parent t /\ NoDup (footprint t) /\ Forall (named s nm) (preorder t).*2.

(** What the readers need: names readable in a memory [m']. *)
Definition readable (m : gmap Z obj) (m' : mem) (nm : Z -> list Z) (d : Z) : Prop :=
  exists v, m !! d = Some (OVnode v) /\ cstr m' v.(v_name) (nm d).

Lemma preorder_datum t : (preorder t).*2 = datum t :: flat_map (fun k => (preorder k).*2) (kids_of t).
Proof.
  destruct t as [a d l kids]. cbn. f_equal. induction kids as [|k kids IH]; [done|].
  cbn. by rewrite fmap_app, IH.
Qed.

Lemma readable_kids m m' nm t k :
  Forall (readable m m' nm) (preorder t).*2 -> k ∈ kids_of t -> Forall (readable m m' nm) (preorder k).*2.
Proof.
  rewrite preorder_datum. intros [_ Hf]%Forall_cons Hk. revert Hf Hk.
  induction (kids_of t) as [|k' ks IH]; intros Hf Hk; [by apply not_elem_of_nil in Hk|].
  cbn in Hf. apply Forall_app in Hf as [? ?]. apply elem_of_cons in Hk as [->|Hk]; auto.
Qed.

Lemma tree_rep_kid m parent t k :
  tree_rep m parent t -> k ∈ kids_of t -> tree_rep m (root t) k.
Proof.
  destruct t as [a d l kids]. intros (_ & _ & Hk)%tree_rep_kids ([n k'] & -> & Hin)%list_elem_of_fmap.
  rewrite Forall_forall in Hk. exact (Hk _ Hin).
Qed.

Lemma tree_rep_root m parent t :
  tree_rep m parent t -> exists l, m !! root t = Some (OTree (GenTree (datum t) l parent)).
Proof. destruct t as [a d l kids]. intros (Ha & _)%tree_rep_kids. by exists l. Qed.

Lemma scan_children_spec on_miss nm it x s (kids : list (Z * rose)) :
  s.(fstore).(objs) !! 0 = None -> cstr s.(fmem) it x ->
  forall pv fuel w hit,
  dlseg s.(fstore).(objs) pv (kid_nodes kids) 0 ->
  Forall (fun k => (exists p, tree_rep s.(fstore).(objs) p k.2) /\
                   readable s.(fstore).(objs) s.(fmem) nm (datum k.2)) kids ->
  (length kids < fuel)%nat ->
  scan_children on_miss fuel (hd_addr (kid_nodes kids) 0) it w hit s =
    Ret (scan on_miss nm x kids.*2 (w, hit), s).
Proof.
  intros H0 Hx. induction kids as [|[nd k] kids IH]; intros pv fuel w hit Hs Hk Hf;
    (destruct fuel as [|fuel]; [cbn in Hf; lia|]).
  { done. }
  cbn [kid_nodes fmap list_fmap fst snd hd_addr] in *. destruct Hs as [Hn Hs].
  apply Forall_cons in Hk as [[[p Ht] (v & Hv & Hc)] Hk]. cbn [snd] in *.
  apply tree_rep_root in Ht as [l Ht]. cbn [scan_children].
  destruct (Z.eqb_spec nd 0); [congruence|]. unfold bind at 1.
  rewrite (on_objs_read _ (root k, datum k)).
  2:{ unfold mounted_node, bind, get_node, get_tree. rewrite Hn. cbn [data]. by rewrite Ht. }
  unfold bind at 1. cbn [snd]. rewrite (on_get_vnode _ v) by done.
  unfold bind at 1. rewrite (on_strcmp _ _ _ _ _ Hc Hx).
  unfold bind at 1. rewrite (on_get_node _ _ _ Hn). cbn [next].
  rewrite scan_cons. cbn [fst snd].
  destruct (decide (nm (datum k) = x)); cbn [Z.eqb]; (eapply IH; [exact Hs|done|cbn in Hf; lia]).
Qed.

Lemma scan_tree_spec on_miss nm it x s parent t :
  s.(fstore).(objs) !! 0 = None -> cstr s.(fmem) it x ->
  tree_rep s.(fstore).(objs) parent t ->
  Forall (readable s.(fstore).(objs) s.(fmem) nm) (preorder t).*2 ->
  scan_tree on_miss (root t) it s = Ret (scan on_miss nm x (kids_of t) (root t, 0), s).
Proof.
  intros H0 Hx Ht Hr. pose proof Ht as Hrep. destruct t as [a d l kids].
  apply tree_rep_kids in Ht as (Ha & Hl & Hk). unfold scan_tree, bind at 1.
  cbn [root]. rewrite (on_get_tree _ _ _ Ha). cbn [sub_trees]. pose proof (list_rep_length _ _ _ Hl) as Hlen.
  destruct Hl as (Hl & Hs & _). unfold bind at 1. rewrite (on_get_list _ _ _ Hl). cbn [list_head].
  unfold bind at 1, gets. eapply (scan_children_spec on_miss nm it x s kids); [done|done|exact Hs| |].
  - apply Forall_forall. intros k Hin. rewrite Forall_forall in Hk. split; [exists a; by apply Hk|].
    eapply readable_kids in Hr; [|cbn; apply list_elem_of_fmap; exists k; split; [done|exact Hin]].
    rewrite preorder_datum in Hr. by apply Forall_cons in Hr as [? _].
  - unfold chain_fuel, kid_nodes in *. rewrite length_fmap in Hlen. lia.
Qed.

(** The offset the iterator has moved by when the segments [ys] are left. *)
Definition consumed (xs ys : list (list Z)) : Z :=
  foldr (fun x n => Z.of_nat (length x) + 1 + n) 0 (take (length xs - length ys) xs).

Lemma resolve_length nm t xs : (length (resolve nm t xs).2 <= length xs)%nat.
Proof.
  revert t. induction xs as [|x xs IH]; intros t; cbn; [lia|]. case_decide; [|cbn; lia].
  etransitivity; [apply IH|lia].
Qed.

Lemma find_walk_spec nm s xs :
  s.(fstore).(objs) !! 0 = None ->
  forall t parent it, strs s.(fmem) it xs ->
  tree_rep s.(fstore).(objs) parent t ->
  Forall (readable s.(fstore).(objs) s.(fmem) nm) (preorder t).*2 ->
  find_walk (length xs) (root t) it s =
    Ret ((root (resolve nm t xs).1, length (resolve nm t xs).2, it + consumed xs (resolve nm t xs).2), s).
Proof.
  intros H0. induction xs as [|x xs IH]; intros t parent it Hx Ht Hr; cbn [length find_walk resolve].
  { unfold ret, consumed. cbn. by rewrite Z.add_0_r. }
  destruct Hx as [Hx Hxs]. unfold bind at 1. rewrite (scan_tree_spec _ nm it x s parent t) by done.
  rewrite scan_hit_last, scan_fst. cbn [fst]. case_decide as Hd; cbn [Z.eqb].
  - destruct (last (kids_of t)) as [k|] eqn:Hk; [|done]. cbn in Hd. injection Hd as Hd.
    destruct (last_named nm x (kids_of t)) as [w|] eqn:Hw.
    2:{ apply last_named_none in Hw. rewrite Forall_forall in Hw. exfalso.
        apply (Hw k); [by apply last_Some_elem_of|done]. }
    apply last_named_in in Hw as [Hin _]. cbn [default fmap option_fmap option_map].
    unfold bind at 1. rewrite (on_strlen _ _ _ Hx).
    rewrite (IH w (root t)); [|done|by eapply tree_rep_kid|by eapply readable_kids].
    unfold consumed, id. do 3 f_equal.
    pose proof (resolve_length nm w xs).
    replace (length (x :: xs) - length (resolve nm w xs).2)%nat
      with (S (length xs - length (resolve nm w xs).2)) by (cbn [length]; lia).
    rewrite firstn_cons. cbn [foldr]. lia.
  - unfold ret, consumed. cbn [length]. rewrite Nat.sub_diag. cbn [take foldr]. rewrite Z.add_0_r.
    by destruct (last_named nm x (kids_of t)).
Qed.

(** ** [vfs_find_node] *)

(** The state while the two scratch blocks [b1] and [b2] are allocated. *)
Definition scratch k s b1 b2 s' : Prop :=
  exists al m' n,
    s' = set_fmem m' (set_fstore (Store al (<[b2 := OBytes n]> (<[b1 := OBytes n]> s.(fstore).(objs)))) s) /\
    store_ok k s'.(fstore) /\ s.(fstore).(objs) !! b1 = None /\ s.(fstore).(objs) !! b2 = None /\
    b1 <> b2 /\ forall p len x, owned_range s.(fstore).(objs) p len -> p <= x <= p + len ->
      rd8 m' x = rd8 s.(fmem) x.

(** The segments of the path and what is left of them at the node found. *)
Definition found nm t (l : list Z) : rose * list (list Z) := resolve nm t (segments_of (SLASH :: l)).

Lemma scratch_str k s b1 b2 s' p l : scratch k s b1 b2 s' -> str_at s p l -> cstr s'.(fmem) p l.
Proof.
  intros (al & m' & n & -> & _ & _ & _ & _ & Hm) [Hc Ho]. eapply cstr_ext; [|exact Hc].
  intros x Hx. by eapply Hm.
Qed.

Lemma scratch_obj k s b1 b2 s' a o :
  scratch k s b1 b2 s' -> s.(fstore).(objs) !! a = Some o -> s'.(fstore).(objs) !! a = Some o.
Proof. intros (al & m' & n & -> & _ & ? & ? & _) Ha. cbn. by rewrite !lookup_insert_ne by congruence. Qed.

Lemma scratch_sub k s b1 b2 s' : scratch k s b1 b2 s' -> s.(fstore).(objs) ⊆ s'.(fstore).(objs).
Proof. intros Hs. apply map_subseteq_spec. intros a o Ha. by eapply scratch_obj. Qed.

Lemma named_readable k s b1 b2 s' nm d :
  scratch k s b1 b2 s' -> named s nm d -> readable s'.(fstore).(objs) s'.(fmem) nm d.
Proof.
  intros Hs (v & Hv & Hn). exists v. split; [by eapply scratch_obj|by eapply scratch_str].
Qed.

(** Two fresh blocks of [n] bytes, and the path parsed into the first. *)
Lemma scratch_alloc k s path l n (Q : Z * Z * Z -> fstate A D -> Prop) :
  store_ok (S (S k)) s.(fstore) -> str_at s path (SLASH :: l) -> n = Z.of_nat (length l) + 1 ->
  n + 1 <= SMALL ->
  (forall b1 b2 s', scratch k s b1 b2 s' -> strs s'.(fmem) (b1 + 1) (segments_of (SLASH :: l)) ->
     Q (b1, b2, Z.of_nat (length (segments_of (SLASH :: l)))) s') ->
  wp (b1 <- new_bytes (n + 1) ;; b2 <- new_bytes (n + 1) ;;
      segs <- on_bytes (parse_path path n b1) ;; ret (b1, b2, segs)) Q s.
Proof.
  intros Hok Hp Hn Hsm HQ. apply wp_bind. eapply wp_mono; [apply (new_bytes_spec (S k)); [done|lia]|].
  intros b1 s1 (al1 & -> & Hok1 & Hb1 & Hf1). cbn [fstore with_block set_fmem set_fstore] in Hok1.
  apply wp_bind. eapply wp_mono; [apply (new_bytes_spec k); [exact Hok1|lia]|].
  intros b2 s2 (al2 & -> & Hok2 & Hb2 & Hf2). cbn in Hok2, Hf2.
  apply lookup_insert_None in Hf2 as [Hf2 Hne].
  set (m2 := memset_8 (memset_8 (fmem s) b1 0 (n + 1)) b2 0 (n + 1)).
  assert (Hsep : forall p len x, owned_range s.(fstore).(objs) p len -> p <= x <= p + len ->
    (x < b1 \/ b1 + (n + 1) < x) /\ (x < b2 \/ b2 + (n + 1) < x)).
  { intros p len x Ho Hx. split.
    - eapply (fresh_disjoint _ _ b1 (n + 1) p len); [exact Hok1|cbn; by lk|lia| |done].
      cbn. by rewrite delete_insert_id.
    - eapply (fresh_disjoint _ _ b2 (n + 1) p len); [exact Hok2|cbn; by lk|lia| |done].
      cbn. rewrite delete_insert_id by (by lk). eapply owned_range_mono; [|exact Ho].
      intros b c Hb. rewrite lookup_insert_ne by congruence. done. }
  assert (Hap : b1 + (n + 1) < b2 \/ b2 + (n + 1) < b1).
  { apply (bytes_apart k _ b1 (n + 1) b2 (n + 1) Hok2); [cbn; by lk|cbn; by lk|done]. }
  destruct Hp as [Hc Ho].
  assert (Hkept : forall p len x, owned_range s.(fstore).(objs) p len -> p <= x <= p + len ->
    rd8 m2 x = rd8 s.(fmem) x).
  { intros p len x Hr Hx. destruct (Hsep p len x Hr Hx). unfold m2.
    by rewrite !memset_8_rd, !decide_False by lia. }
  cbn [length] in Ho. rewrite Nat2Z.inj_succ in Ho.
  destruct (parse_path_spec m2 path b1 l) as (m3 & Hm3 & Hstrs & Hrd).
  - eapply cstr_ext; [|exact Hc]. intros x Hx. cbn [length] in Hx. eapply Hkept; [exact Ho|lia].
  - pose proof (Hsep _ _ path Ho). pose proof (Hsep _ _ (path + Z.of_nat (length l)) Ho).
    destruct (decide (b1 <= path)); [lia|]. right.
    destruct (decide (path + Z.of_nat (length l) + 1 <= b1)); [lia|].
    pose proof (Hsep _ _ b1 Ho). lia.
  - unfold m2. rewrite memset_8_rd, decide_False by lia. rewrite memset_8_rd, decide_True by lia. done.
  - apply wp_bind, wp_bytes. unfold wp at 1. cbn [fmem with_block set_fmem set_fstore].
    rewrite <- Hn in Hm3. fold m2. rewrite Hm3. apply wp_ret, HQ; [|exact Hstrs].
    exists al2, m3, (n + 1). split_and!; try done.
    intros p len x Hr Hx. destruct (Hsep p len x Hr Hx). rewrite Hrd by lia. by eapply Hkept.
Qed.

(** The two blocks are freed again. *)
Lemma scratch_free k s b1 b2 (Q : fstate A D -> Prop) :
  store_ok k s.(fstore) -> is_Some (s.(fstore).(objs) !! b1) -> is_Some (s.(fstore).(objs) !! b2) ->
  b1 <> b2 ->
  (forall al, store_ok k (Store al (delete b2 (delete b1 s.(fstore).(objs)))) ->
     Q (set_fstore (Store al (delete b2 (delete b1 s.(fstore).(objs)))) s)) ->
  wp (free_bytes b1 ;;; free_bytes b2) (fun _ => Q) s.
Proof.
  intros Hok H1 H2 Hne HQ. apply wp_bind, wp_objs. eapply wp_mono; [by apply free_obj_spec|].
  intros u [al1 m1] [Hok1 Hm1]. cbn in Hm1. subst m1. apply wp_objs. cbn [fstore set_fstore].
  eapply wp_mono; [apply free_obj_spec; [exact Hok1|cbn; by rewrite lookup_delete_ne]|].
  intros u' [al2 m2] [Hok2 Hm2]. cbn in Hm2. subst m2. by apply HQ.
Qed.

(** Look-up reduces to what happens at the tree the path leads to. *)
Lemma vfs_find_node_wp dops k s nm t path l (Q : Z -> fstate A D -> Prop) :
  store_ok (S (S k)) s.(fstore) -> named_tree s nm 0 t -> s.(vfs_mountpoint_tree) = root t ->
  path <> 0 -> str_at s path (SLASH :: l) -> l <> [] -> Z.of_nat (length l) + 2 <= SMALL ->
  (forall b1 b2 s', scratch k s b1 b2 s' ->
     wp (find_rest dops path (consumed (segments_of (SLASH :: l)) (found nm t l).2)
           (root (found nm t l).1) (length (found nm t l).2))
        (fun r s2 => wp (free_bytes b1 ;;; free_bytes b2) (fun _ => Q r) s2) s') ->
  wp (vfs_find_node dops path) Q s.
Proof.
  intros Hok (Ht & _ & Hnm) Hroot Hp0 Hp Hl Hsm HQ. unfold vfs_find_node.
  destruct (Z.eqb_spec path 0); [done|]. apply wp_bind, wp_gets, wp_bind.
  eapply wp_read; [apply on_strlen, Hp|]. apply wp_bind. eapply wp_read; [apply on_peek|].
  assert ((Z.of_nat (length (SLASH :: l)) =? 1) = false) as ->.
  { apply Z.eqb_neq. destruct l; [done|]. cbn. lia. }
  cbn [andb]. replace (Z.of_nat (length (SLASH :: l))) with (Z.of_nat (length l) + 1) by (cbn; lia).
  set (pl := Z.of_nat (length l) + 1).
  apply (wp_assoc3 (new_bytes (pl + 1)) (fun _ => new_bytes (pl + 1))
           (fun b1 _ => on_bytes (parse_path path pl b1))).
  eapply (scratch_alloc k s path l pl); [done|done|done|lia|].
  intros b1 b2 s' Hs Hstrs. cbn [fst snd]. apply wp_bind. unfold wp at 1. rewrite Hroot, Nat2Z.id.
  rewrite (find_walk_spec nm s' _) with (parent := 0); [| |done| |].
  - fold (found nm t l). cbn beta iota. apply wp_bind.
    replace (b1 + 1 + consumed _ _ - (b1 + 1)) with (consumed (segments_of (SLASH :: l)) (found nm t l).2) by lia.
    eapply wp_mono; [by apply HQ|]. cbn beta. intros r s2 Hfree.
    apply wp_bind. eapply wp_bind_inv in Hfree. eapply wp_mono; [exact Hfree|].
    intros u s3 Hf. apply wp_bind. eapply wp_mono; [exact Hf|]. intros u' s4 HQ4. by apply wp_ret.
  - destruct Hs as (al & m' & nn & -> & Hok' & _). apply Hok'.
  - eapply tree_rep_sub; [by eapply scratch_sub|done].
  - eapply Forall_impl; [exact Hnm|]. intros d Hd. by eapply named_readable.
Qed.

(** The result of a look-up that no file system has to be asked for. *)
Definition found_node nm t (l : list Z) : Z := match (found nm t l).2 with [] => datum (found nm t l).1 | _ => 0 end.

(** The state after a look-up: the same objects, other contents at most in
    memory nobody owns. *)
Definition same_files k s s' : Prop :=
  exists al m', s' = set_fmem m' (set_fstore (Store al s.(fstore).(objs)) s) /\
    store_ok k s'.(fstore) /\
    forall p len x, owned_range s.(fstore).(objs) p len -> p <= x <= p + len -> rd8 m' x = rd8 s.(fmem) x.

Lemma resolve_reach nm t xs parent m :
  tree_rep m parent t -> exists p, tree_rep m p (resolve nm t xs).1.
Proof.
  revert t parent. induction xs as [|x xs IH]; intros t parent Ht; cbn [resolve]; [by exists parent|].
  assert (Hw : exists p, tree_rep m p (default t (last_named nm x (kids_of t)))).
  { destruct (last_named nm x (kids_of t)) as [w|] eqn:Hw; [|by exists parent].
    apply last_named_in in Hw as [Hin _]. exists (root t). by eapply tree_rep_kid. }
  destruct Hw as [p Hw]. case_decide; [by eapply IH|by exists p].
Qed.

Lemma scratch_done k s b1 b2 s' (Q : fstate A D -> Prop) :
  scratch k s b1 b2 s' -> (forall s2, same_files k s s2 -> Q s2) ->
  wp (free_bytes b1 ;;; free_bytes b2) (fun _ => Q) s'.
Proof.
  intros (al & m' & n & -> & Hok & Hf1 & Hf2 & Hne & Hm) HQ.
  eapply scratch_free; [exact Hok|cbn; eexists; by lk|cbn; eexists; by lk|done|].
  intros al2. cbn [fstore objs set_fmem set_fstore].
  rewrite delete_insert_ne by congruence. rewrite (delete_insert_id _ b1) by done. rewrite delete_insert_id by done.
  intros Hok2. apply HQ. exists al2, m'. split_and!; done.
Qed.

Lemma vfs_find_node_spec dops k s nm t path l :
  store_ok (S (S k)) s.(fstore) -> named_tree s nm 0 t -> s.(vfs_mountpoint_tree) = root t ->
  path <> 0 -> str_at s path (SLASH :: l) -> l <> [] -> Z.of_nat (length l) + 2 <= SMALL ->
  (found nm t l).2 = [] \/
  (exists v, s.(fstore).(objs) !! datum (found nm t l).1 = Some (OVnode v) /\
     v.(v_type_flags) = VFS_NODE_TYPE_SDIR) ->
  wp (vfs_find_node dops path) (fun r s' => r = found_node nm t l /\ same_files k s s') s.
Proof.
  intros Hok Ht Hroot Hp0 Hp Hl Hsm Hend. eapply vfs_find_node_wp; [done|exact Ht|done|done|done|done|done|].
  intros b1 b2 s' Hs. unfold find_rest. destruct Ht as (Ht & _).
  destruct (resolve_reach nm t (segments_of (SLASH :: l)) 0 _ Ht) as [p Hw]. fold (found nm t l) in Hw.
  apply tree_rep_root in Hw as [sub Hw]. apply wp_bind.
  eapply wp_read; [apply on_get_tree; by eapply scratch_obj|]. cbn [t_data].
  unfold found_node. case_bool_decide as Hr.
  - destruct Hend as [Hn|(v & Hv & Hty)]; [by rewrite Hn in Hr|]. apply wp_bind.
    eapply wp_read; [apply on_get_vnode; by eapply scratch_obj|]. rewrite Hty. cbn [Z.eqb Pos.eqb negb].
    apply wp_ret. destruct (found nm t l).2; [done|]. eapply scratch_done; [exact Hs|]. done.
  - destruct (found nm t l).2; [|done]. apply wp_ret. eapply scratch_done; [exact Hs|]. done.
Qed.

(** ** What a look-up should find

    A path as its names; the subtree they lead to, each the child with that name,
    and the names left where there is no such child. *)
Definition path_text (xs : list (list Z)) : list Z := List.concat (cons SLASH <$> xs).

Fixpoint descend (nm : Z -> list Z) (t : rose) (xs : list (list Z)) : rose * list (list Z) :=
  match xs with
  | [] => (t, [])
  | x :: xs' =>
      match last_named nm x (kids_of t) with
      | Some w => descend nm w xs'
      | None => (t, xs)
      end
  end.
(** On the way, each child is the last of its list: nothing was mounted behind
    it in the same directory. *)
Fixpoint newest (nm : Z -> list Z) (t : rose) (xs : list (list Z)) : Prop :=
  match xs with
  | [] => True
  | x :: xs' =>
      match last_named nm x (kids_of t) with
      | Some w => last (kids_of t) = Some w /\ newest nm w xs'
      | None => True
      end
  end.

Lemma resolve_descend nm t xs : newest nm t xs -> resolve nm t xs = descend nm t xs.
Proof.
  revert t. induction xs as [|x xs IH]; intros t Hn; cbn [resolve descend newest] in *; [done|].
  destruct (last_named nm x (kids_of t)) as [w|] eqn:E.
  - destruct Hn as [Hl Hn]. apply last_named_in in E as [_ E]. rewrite Hl, decide_True by (cbn; congruence). by apply IH.
  - rewrite decide_False; [done|]. intros Hl. destruct (last (kids_of t)) as [k|] eqn:El; [|done]. cbn in Hl. injection Hl as Hl.
    apply last_named_none in E. rewrite Forall_forall in E. apply (E k); [|done]. apply last_Some in El as [ks ->]. set_solver.
Qed.

Lemma names_of_app x l : SLASH ∉ x -> names_of (x ++ SLASH :: l) = (x, segments_of (SLASH :: l)).
Proof.
  intros Hx. induction x as [|c x IH]; cbn [app].
  - unfold segments_of. by rewrite names_of_cons.
  - apply not_elem_of_cons in Hx as [Hc Hx]. rewrite names_of_cons, IH by done. cbn [fst snd].
    destruct (Z.eqb_spec c SLASH); [congruence|done].
Qed.

Lemma segments_of_text xs : xs <> [] -> Forall (fun x => SLASH ∉ x) xs -> segments_of (path_text xs) = xs.
Proof.
  intros Hne Hxs. induction Hxs as [|x xs Hx Hxs IH]; [done|]. destruct xs as [|y xs].
  - unfold path_text. cbn. rewrite app_nil_r. by apply segments_of_plain.
  - assert (E : path_text (x :: y :: xs) = SLASH :: x ++ SLASH :: y ++ path_text xs) by done.
    assert (E2 : path_text (y :: xs) = SLASH :: y ++ path_text xs) by done.
    rewrite E2 in IH. rewrite E. unfold segments_of. rewrite names_of_cons. cbn [Z.eqb Pos.eqb SLASH].
    fold SLASH. rewrite names_of_app by done. cbn [fst snd]. by rewrite IH.
Qed.

Lemma descend_suffix nm t xs : exists pre, xs = pre ++ (descend nm t xs).2.
Proof.
  revert t. induction xs as [|x xs IH]; intros t; cbn [descend]; [by exists []|].
  destruct (last_named nm x (kids_of t)) as [w|]; [|by exists []]. destruct (IH w) as [pre E]. exists (x :: pre). cbn. by f_equal.
Qed.

Lemma consumed_text pre rest : consumed (pre ++ rest) rest = Z.of_nat (length (path_text pre)).
Proof.
  unfold consumed. rewrite length_app. replace (length pre + length rest - length rest)%nat with (length pre) by lia.
  rewrite take_app_length. induction pre as [|x pre IH]; [done|]. cbn [foldr]. rewrite IH.
  unfold path_text. cbn [fmap list_fmap List.concat]. rewrite length_app. cbn [length]. lia.
Qed.

Lemma path_text_app xs ys : path_text (xs ++ ys) = path_text xs ++ path_text ys.
Proof. unfold path_text. by rewrite fmap_app, List.concat_app. Qed.

(** The file system of the node [n] answers [a] when it is asked for the path
    [rest], which it finds at [p], and changes nothing. *)
Definition fs_answers dops s (n : Z) (v : vnode) (rest : list Z) (p a : Z) : Prop :=
  forall s', s.(fstore).(objs) ⊆ s'.(fstore).(objs) -> cstr s'.(fmem) p rest ->
    wp (call_dir_find dops v.(v_dir_find) n p) (fun r s2 => r = a /\ s2 = s') s'.

(** The answer to a path: the node its names lead to; where names are left,
    what the file system mounted there answers for the rest of the path, or NULL
    when the node is a stub. *)
Definition looked_up dops s nm t path xs (a : Z) : Prop :=
  let w := (descend nm t xs).1 in
  match (descend nm t xs).2 with
  | [] => a = datum w
  | rest => exists v, s.(fstore).(objs) !! datum w = Some (OVnode v) /\
      if v.(v_type_flags) =? VFS_NODE_TYPE_SDIR then a = 0
      else fs_answers dops s (datum w) v (path_text rest) (path + Z.of_nat (length (path_text xs)) - Z.of_nat (length (path_text rest))) a
  end.

(** C24: [vfs_find_node] on any tree of mounts and any path of names other than
    the root itself: it returns the node the names lead to, child by child;
    where names are left, what the file system mounted at the last node answers
    for the rest of the path, or NULL if that node is a stub directory.  Its
    scratch memory is freed again and nothing else changes.  Two conditions: every
    child on the way is the one mounted last in its directory (the code forgets a
    match when a later child has another name, see [find_misses_earlier_mount]),
    and a file system that is asked only looks. *)
Theorem vfs_find_node_correct dops k s nm t path xs a :
  store_ok (S (S k)) s.(fstore) -> named_tree s nm 0 t -> s.(vfs_mountpoint_tree) = root t ->
  path <> 0 -> str_at s path (path_text xs) -> xs <> [] -> xs <> [[]] -> Forall (fun x => SLASH ∉ x) xs ->
  Z.of_nat (length (path_text xs)) + 1 <= SMALL ->
  newest nm t xs -> looked_up dops s nm t path xs a ->
  wp (vfs_find_node dops path) (fun r s' => r = a /\ same_files k s s') s.
Proof.
  intros Hok Ht Hroot Hp0 Hp Hne Hnr Hsl Hsm Hnew Hans.
  assert (exists l, path_text xs = SLASH :: l /\ l <> []) as (l & El & Hl).
  { destruct xs as [|x xs]; [done|]. exists (x ++ path_text xs). split; [done|]. intros [-> E]%app_eq_nil. apply Hnr.
    by destruct xs. }
  pose proof (segments_of_text xs Hne Hsl) as Eseg. rewrite El in Eseg, Hp.
  assert (Ef : found nm t l = descend nm t xs) by (unfold found; rewrite Eseg; by apply resolve_descend).
  eapply vfs_find_node_wp; [done|exact Ht|done|done|exact Hp|done|rewrite El in Hsm; cbn [length] in Hsm; lia|].
  intros b1 b2 s' Hs. rewrite Eseg, Ef. unfold find_rest. destruct Ht as (Ht & _).
  destruct (resolve_reach nm t xs 0 _ Ht) as [q Hw]. rewrite resolve_descend in Hw by done.
  apply tree_rep_root in Hw as [sub Hw]. apply wp_bind.
  eapply wp_read; [apply on_get_tree; by eapply scratch_obj|]. cbn [t_data].
  unfold looked_up in Hans. destruct (descend_suffix nm t xs) as [pre Epre].
  destruct (descend nm t xs) as [w rest]. cbn [fst snd] in *. destruct rest as [|y rest].
  { rewrite bool_decide_false by (cbn; auto). apply wp_ret. eapply scratch_done; [exact Hs|]. done. }
  destruct Hans as (v & Hv & Hans). rewrite bool_decide_true by done. apply wp_bind.
  eapply wp_read; [apply on_get_vnode; by eapply scratch_obj|].
  destruct (v.(v_type_flags) =? VFS_NODE_TYPE_SDIR); cbn [negb].
  { apply wp_ret. eapply scratch_done; [exact Hs|]. done. }
  assert (Hlen : length (path_text xs) = (length (path_text pre) + length (path_text (y :: rest)))%nat)
    by (rewrite Epre, path_text_app; apply length_app).
  rewrite Epre, consumed_text.
  replace (path + Z.of_nat (length (path_text xs)) - Z.of_nat (length (path_text (y :: rest))))
    with (path + Z.of_nat (length (path_text pre))) in Hans by lia.
  eapply wp_mono; [apply (Hans s')|].
  - by eapply scratch_sub.
  - apply cstr_app. rewrite <- path_text_app, <- Epre, El. by eapply scratch_str.
  - intros r s2 [-> ->]. eapply scratch_done; [exact Hs|]. done.
Qed.

(** A directory mounted below the root is not found any more once another
    node has been mounted after it: only the last child's comparison decides
    whether the search goes on, and a stub directory found too early yields
    NULL. *)
Theorem find_misses_earlier_mount dops k s nm a d l kids k1 k2 v path x :
  store_ok (S (S k)) s.(fstore) -> named_tree s nm 0 (Rose a d l (kids ++ [k2])) ->
  s.(vfs_mountpoint_tree) = a -> path <> 0 -> str_at s path (SLASH :: x) -> x <> [] -> SLASH ∉ x ->
  Z.of_nat (length x) + 2 <= SMALL ->
  last_named nm x kids.*2 = Some k1 -> s.(fstore).(objs) !! datum k1 = Some (OVnode v) ->
  v.(v_type_flags) = VFS_NODE_TYPE_SDIR -> nm (datum k2.2) <> x ->
  wp (vfs_find_node dops path) (fun r _ => r = 0) s.
Proof.
  intros Hok Ht Hroot Hp0 Hp Hx Hsl Hlen Hk1 Hv Hty Hk2.
  assert (Hf : found nm (Rose a d l (kids ++ [k2])) x = (k1, [x])).
  { unfold found. rewrite segments_of_plain by done. cbn [resolve kids_of]. rewrite fmap_app. cbn [fmap list_fmap].
    change (list_fmap _ _ snd kids) with (kids.*2).
    rewrite last_snoc, last_named_snoc. cbn [fmap option_fmap option_map].
    rewrite !decide_False by congruence. by rewrite Hk1. }
  eapply wp_mono.
  { apply (vfs_find_node_spec dops k s nm _ path x Hok Ht); try done. right. exists v. by rewrite Hf. }
  intros r s' [-> _]. unfold found_node. by rewrite Hf.
Qed.
End vfs.

(** ** A small file system: "dev" and then "mnt" mounted below the root *)

#[local] Existing Instance bump_allocator.

Definition no_dops : dir_ops bump unit :=
  DirOps (fun _ _ _ _ _ => fault) (fun _ _ _ => fault) (fun _ _ _ => fault) (fun _ _ => fault).

Definition stub_node (name tree : Z) : vnode :=
  VNode name 0 0 VFS_NODE_TYPE_SDIR 0 no_fn no_fn no_fn no_fn no_fn no_fn no_fn
        vfs_stub_fn vfs_stub_fn vfs_stub_fn 0 tree.
Definition STATIC : Z := 0x30000000.
Definition DEV : list Z := [100; 101; 118].
Definition MNT : list Z := [109; 110; 116].

Definition demo_names (d : Z) : list Z := if d =? 21 then DEV else if d =? 22 then MNT else [47].
Definition demo_mounts : rose := Rose 1 20 2 [(3, Rose 4 21 5 []); (6, Rose 7 22 8 [])].
Definition demo_mem : mem :=
  put_str (put_str (put_str (put_str (put_str ∅ STATIC [47]) (STATIC + 10) DEV) (STATIC + 20) MNT)
    (STATIC + 30) (47 :: DEV)) (STATIC + 40) (47 :: MNT).
Definition demo_fs : fstate bump unit :=
  FState (Store (bump_at 30 [1; 2; 3; 4; 5; 6; 7; 8; 20; 21; 22])
    (<[1 := OTree (GenTree 20 2 0)]> (<[2 := OList (LnkLst 3 6 2)]>
    (<[3 := ONode (DNode 0 6 4)]> (<[6 := ONode (DNode 3 0 7)]>
    (<[4 := OTree (GenTree 21 5 1)]> (<[5 := OList (LnkLst 0 0 0)]>
    (<[7 := OTree (GenTree 22 8 1)]> (<[8 := OList (LnkLst 0 0 0)]>
    (<[20 := OVnode (stub_node STATIC 1)]> (<[21 := OVnode (stub_node (STATIC + 10) 4)]>
    (<[22 := OVnode (stub_node (STATIC + 20) 7)]> ∅))))))))))))
    demo_mem 20 1 0 0 0xF000 1 0 0 0 0 tt.

Lemma demo_fs_ok : store_ok 100 demo_fs.(fstore).
Proof. store_by_compute. Qed.

Lemma static_str (s : fstate bump unit) p l : 2 ^ 29 <= p -> cstr s.(fmem) p l -> str_at s p l.
Proof. intros Hp Hc. split; [done|]. right. by left. Qed.

Lemma demo_fs_tree : named_tree demo_fs demo_names 0 demo_mounts.
Proof.
  split_and!.
  - cbn [tree_rep demo_mounts snd]. unfold list_rep.
    split_and!; first [done | by vm_compute | apply (bool_decide_unpack _); by vm_compute].
  - apply (bool_decide_unpack _). by vm_compute.
  - repeat constructor; (eexists; split; [reflexivity|apply static_str; [done|by vm_compute]]).
Qed.

Lemma parse_path_splits_witness :
  exists m', parse_path (STATIC + 40) 4 (STATIC + 100) demo_mem = Ret (1, m') /\
    strs m' (STATIC + 100 + 1) [MNT] /\
    forall x, x < STATIC + 100 \/ STATIC + 100 + 3 + 1 <= x -> rd8 m' x = rd8 demo_mem x.
Proof. apply (parse_path_splits demo_mem (STATIC + 40) (STATIC + 100) MNT); [by vm_compute|right; by vm_compute|done]. Defined.

(** The same with a file system mounted at "mnt", which knows the node 77 as
    "/f". *)
Definition fs_node : vnode :=
  VNode (STATIC + 20) 0 0 VFS_NODE_TYPE_DIRE 0 no_fn no_fn no_fn no_fn no_fn no_fn no_fn no_fn devfs_fn no_fn 0 7.
Definition asked_fs : fstate bump unit :=
  set_fmem (put_str demo_mem (STATIC + 60) (47 :: MNT ++ [47; 102]))
    (set_fstore (Store demo_fs.(fstore).(alloc) (<[22 := OVnode fs_node]> demo_fs.(fstore).(objs))) demo_fs).
Definition known_dops : dir_ops bump unit :=
  DirOps (fun _ _ _ _ _ => fault) (fun _ _ _ => fault)
    (fun _ _ p => c <- on_bytes (peek (p + 1)) ;; ret (if c =? 102 then 77 else 0)) (fun _ _ => fault).

Lemma asked_fs_ok : store_ok 100 asked_fs.(fstore).
Proof. store_by_compute. Qed.
Lemma asked_fs_tree : named_tree asked_fs demo_names 0 demo_mounts.
Proof.
  split_and!.
  - cbn [tree_rep demo_mounts snd]. unfold list_rep.
    split_and!; first [done | by vm_compute | apply (bool_decide_unpack _); by vm_compute].
  - apply (bool_decide_unpack _). by vm_compute.
  - repeat constructor; (eexists; split; [reflexivity|apply static_str; [done|by vm_compute]]).
Qed.

(** The mount itself, and a file in it. *)
Lemma vfs_find_node_correct_witness :
  wp (vfs_find_node known_dops (STATIC + 40)) (fun r s' => r = 22 /\ same_files 98 asked_fs s') asked_fs /\
  wp (vfs_find_node known_dops (STATIC + 60)) (fun r s' => r = 77 /\ same_files 98 asked_fs s') asked_fs.
Proof.
  split.
  - apply (vfs_find_node_correct known_dops 98 asked_fs demo_names demo_mounts (STATIC + 40) [MNT] 22).
    + exact asked_fs_ok.
    + exact asked_fs_tree.
    + done.
    + done.
    + apply static_str; [done|by vm_compute].
    + done.
    + done.
    + apply (bool_decide_unpack _). by vm_compute.
    + done.
    + by vm_compute.
    + by vm_compute.
  - apply (vfs_find_node_correct known_dops 98 asked_fs demo_names demo_mounts (STATIC + 60) [MNT; [102]] 77).
    + exact asked_fs_ok.
    + exact asked_fs_tree.
    + done.
    + done.
    + apply static_str; [done|by vm_compute].
    + done.
    + done.
    + apply (bool_decide_unpack _). by vm_compute.
    + done.
    + by vm_compute.
    + exists fs_node. split; [by vm_compute|]. intros s' _ (_ & _ & Hc & _). unfold fs_node.
      eapply wp_Ret; [|by split]. cbn [v_dir_find call_dir_find op_dir_find known_dops].
      unfold on_bytes, bind, peek, gets. cbn [fmem]. rewrite Hc. by destruct s'.
Defined.

Lemma find_misses_earlier_mount_witness : wp (vfs_find_node no_dops (STATIC + 30)) (fun r _ => r = 0) demo_fs.
Proof.
  apply (find_misses_earlier_mount no_dops 98 demo_fs demo_names 1 20 2 [(3, Rose 4 21 5 [])] (Rose 4 21 5 [])
           (6, Rose 7 22 8 []) (stub_node (STATIC + 10) 4) (STATIC + 30) DEV).
  - exact demo_fs_ok.
  - exact demo_fs_tree.
  - done.
  - done.
  - apply static_str; [done|by vm_compute].
  - done.
  - apply (bool_decide_unpack _). by vm_compute.
  - done.
  - done.
  - done.
  - done.
  - done.
Defined.
