(* ===== verification/VfsMount.v ===== *)
(** Mounting under the root and finding what was mounted. *)
From stdpp Require Import base numbers gmap list.
From S2P Require Import Prelude Kmem Allocator Store LinkedList GenericTree KString Fs Vfs VfsSpec.

Lemma kid_nodes_footprint kids x :
  x ∈ (kid_nodes kids).*1 -> x ∈ flat_map (fun k => k.1 :: footprint k.2) kids.
Proof.
  induction kids as [|k kids IH]; cbn; intros Hx; [by apply not_elem_of_nil in Hx|].
  apply elem_of_cons in Hx as [->|Hx]; [left|]. right. apply elem_of_app. right. by apply IH.
Qed.

Lemma kid_footprint_in kids k x :
  k ∈ kids -> x ∈ footprint k.2 -> x ∈ flat_map (fun k => k.1 :: footprint k.2) kids.
Proof.
  induction kids as [|k' kids IH]; intros Hk Hx; [by apply not_elem_of_nil in Hk|]. cbn. right.
  apply elem_of_app. apply elem_of_cons in Hk as [<-|Hk]; [by left|right; by apply IH].
Qed.

(** A tree consists of the objects of its footprint. *)
Lemma tree_rep_ext m m' parent t :
  tree_rep m parent t -> (forall a, a ∈ footprint t -> m' !! a = m !! a) -> tree_rep m' parent t.
Proof.
  revert parent. induction t as [a d l kids IH] using rose_rect'; intros parent Hrep Hx.
  apply tree_rep_kids in Hrep as (Ha & (Hl & Hs & Hn) & Hk). apply tree_rep_kids. cbn [footprint] in Hx.
  split_and!; [rewrite Hx; [done|left]|split_and!; [rewrite Hx; [done|right; left]| |done]|].
  - eapply dlseg_ext; [|exact Hs]. intros b Hb. apply Hx. right. right. by apply kid_nodes_footprint.
  - rewrite Forall_forall in *. intros k Hin. apply (IH _ Hin); [by apply Hk|].
    intros b Hb. apply Hx. right. right. by eapply kid_footprint_in.
Qed.

(** ** Adding a leaf *)

Lemma kid_footprint_apart kids k x :
  NoDup (flat_map (fun k => k.1 :: footprint k.2) kids) -> k ∈ kids -> x ∈ footprint k.2 ->
  x ∉ (kid_nodes kids).*1.
Proof.
  induction kids as [|k' kids IH]; intros Hnd Hk Hx; [by apply not_elem_of_nil in Hk|].
  cbn [flat_map kid_nodes fmap list_fmap fst] in *. apply NoDup_app in Hnd as (Hnd1 & Hdis & Hnd2).
  apply NoDup_cons in Hnd1 as [Hn1 _]. apply elem_of_cons in Hk as [->|Hk]; apply not_elem_of_cons.
  - split; [by intros ->|]. intros Hin%kid_nodes_footprint. eapply Hdis; [|exact Hin]. by right.
  - split; [|by apply IH]. intros ->. eapply Hdis; [left|]. by eapply kid_footprint_in.
Qed.

(** The last child [(n, t')] was linked in: the tree has one more leaf. *)
Lemma tree_grow m m' parent a d l kids n t' c subs :
  tree_rep m parent (Rose a d l kids) -> NoDup (footprint (Rose a d l kids)) ->
  (forall x, x ∈ footprint (Rose a d l kids) -> x ∉ owned l (kid_nodes kids) -> m' !! x = m !! x) ->
  m' !! t' = Some (OTree (GenTree c subs a)) -> list_rep m' subs [] ->
  list_rep m' l (kid_nodes kids ++ [(n, t')]) ->
  m !! t' = None -> m !! subs = None -> m !! n = None ->
  tree_rep m' parent (Rose a d l (kids ++ [(n, Rose t' c subs [])])) /\
  NoDup (footprint (Rose a d l (kids ++ [(n, Rose t' c subs [])]))).
Proof.
  intros Ht Hnd Hu Ht' Hsubs Hl' Hf1 Hf2 Hf3. pose proof Ht as (Ha & Hl & Hk)%tree_rep_kids.
  assert (Hold : forall x, x ∈ footprint (Rose a d l kids) -> x <> t' /\ x <> subs /\ x <> n).
  { intros x Hx. destruct (footprint_objs _ _ _ _ Ht Hx). split_and!; congruence. }
  pose proof Hnd as Hnd0. cbn [footprint] in Hnd. apply NoDup_cons in Hnd as [Hna Hnd].
  apply NoDup_cons in Hnd as [Hnl Hnd]. pose proof (list_rep_notin _ _ _ Hl) as Hll.
  split.
  - apply tree_rep_kids. split_and!.
    + rewrite (Hu a); [done|left|]. intros [->|Hin]%elem_of_cons; [apply Hna; left|].
      apply Hna. right. by apply kid_nodes_footprint.
    + unfold kid_nodes in *. by rewrite fmap_app.
    + apply Forall_app. split.
      * rewrite Forall_forall in *. intros k Hin. eapply tree_rep_ext; [by apply Hk|]. intros x Hx. apply Hu.
        -- right. right. by eapply kid_footprint_in.
        -- intros [->|Hx']%elem_of_cons; [|by eapply kid_footprint_apart].
           apply Hnl. by eapply kid_footprint_in.
      * apply Forall_singleton. cbn [snd]. by apply tree_rep_kids.
  - cbn [footprint] in *. rewrite flat_map_app. cbn [flat_map footprint fst snd app].
    change (NoDup ((a :: l :: flat_map (fun k => k.1 :: footprint k.2) kids) ++ [n; t'; subs])).
    apply NoDup_app. split_and!; [done| |].
    + intros x Hx Hin. destruct (Hold x Hx) as (? & ? & ?). set_solver.
    + destruct Hsubs as (Hs1 & _), Hl' as (_ & Hs2 & _).
      destruct (dlseg_node _ _ _ _ n Hs2) as [nd Hnd']; [rewrite fmap_app; set_solver|].
      repeat constructor; set_solver.
Qed.

Section mounting.
Context {A D : Type} `{Allocator A}.
Implicit Types (s : fstate A D).

(** Objects the mount tree is not made of: nodes, devices, file systems, bytes. *)
Definition leaf (o : obj) : Prop :=
  match o with OVnode _ | OIoNode _ | OFilesys _ | OBytes _ => True | _ => False end.

(** What stays when the layer works: leaf objects outside [X], owned memory and
    the mount points. *)
Definition grows (X : list Z) s s' : Prop :=
  (forall a o, a ∉ X -> leaf o -> s.(fstore).(objs) !! a = Some o -> s'.(fstore).(objs) !! a = Some o) /\
  (forall p len x, owned_range s.(fstore).(objs) p len -> p <= x <= p + len ->
     rd8 s'.(fmem) x = rd8 s.(fmem) x) /\
  s'.(vfs_mountpoint_tree) = s.(vfs_mountpoint_tree).

(** [X] holds no byte blocks. *)
Definition no_bytes (X : list Z) s : Prop := forall a n, a ∈ X -> s.(fstore).(objs) !! a <> Some (OBytes n).

Lemma no_bytes_nil s : no_bytes [] s.
Proof. intros a n Ha. by apply not_elem_of_nil in Ha. Qed.

Lemma grows_owned X s s' p len :
  no_bytes X s -> grows X s s' -> owned_range s.(fstore).(objs) p len -> owned_range s'.(fstore).(objs) p len.
Proof.
  intros Hnb (Ho & _). apply owned_range_mono. intros b n Hb. apply Ho; [|done|done].
  intros Hin. by eapply Hnb.
Qed.

Lemma grows_str X s s' p l : no_bytes X s -> grows X s s' -> str_at s p l -> str_at s' p l.
Proof.
  intros Hnb Hg [Hc Hr]. split; [|by eapply grows_owned]. eapply cstr_ext; [|exact Hc].
  intros x Hx. destruct Hg as (_ & Hk & _). by eapply Hk.
Qed.

Lemma grows_named X s s' nm d : no_bytes X s -> grows X s s' -> d ∉ X -> named s nm d -> named s' nm d.
Proof.
  intros Hnb Hg Hd (v & Hv & Hn). exists v. split; [by apply Hg|by eapply grows_str].
Qed.

Lemma grows_trans X s1 s2 s3 : grows [] s1 s2 -> grows X s2 s3 -> grows X s1 s3.
Proof.
  intros H1 H2. pose proof H1 as (Ho1 & Hk1 & Ht1). pose proof H2 as (Ho2 & Hk2 & Ht2). split_and!.
  - intros a o Ha Hl Hx. apply Ho2; [done|done|]. apply Ho1; [apply not_elem_of_nil|done|done].
  - intros p len x Hr Hx. rewrite (Hk2 p len x); [by eapply Hk1| |done].
    eapply grows_owned; [apply no_bytes_nil|exact H1|done].
  - congruence.
Qed.

(** A fresh byte block with any contents. *)
Lemma grows_block k al b n m' s :
  store_ok k (Store al (<[b := OBytes n]> s.(fstore).(objs))) -> 0 <= n ->
  s.(fstore).(objs) !! b = None -> only_block b n s.(fmem) m' -> grows [] s (with_block al b n m' s).
Proof.
  intros Hok Hn Hf Hm. split_and!; [| |done].
  - intros a o _ _ Ha. cbn. rewrite lookup_insert_ne by congruence. done.
  - intros p len x Hr Hx. apply Hm. eapply fresh_disjoint; [exact Hok|cbn; by lk|done| |done].
    cbn. by rewrite delete_insert_id.
Qed.

(** Changes of structure only. *)
Lemma grows_objs X st s :
  (forall a o, a ∉ X -> leaf o -> s.(fstore).(objs) !! a = Some o -> st.(objs) !! a = Some o) ->
  grows X s (set_fstore st s).
Proof. intros Ho. split_and!; done. Qed.

(** ** Stub directories *)

Lemma vfs_create_stub_directory_spec k s name x :
  store_ok (S (S k)) s.(fstore) -> str_at s name x -> Z.of_nat (length x) < SMALL ->
  wp (vfs_create_stub_directory name) (fun c s' => exists v,
    store_ok k s'.(fstore) /\ grows [] s s' /\ s.(fstore).(objs) ⊆ s'.(fstore).(objs) /\
    s.(fstore).(objs) !! c = None /\ s'.(fstore).(objs) !! c = Some (OVnode v) /\ c <> 0 /\
    str_at s' v.(v_name) x /\ v.(v_type_flags) = VFS_NODE_TYPE_SDIR) s.
Proof.
  intros Hok Hn Hlen. unfold vfs_create_stub_directory. apply wp_bind, wp_objs. eapply wp_mono.
  { apply (new_obj_spec _ _ (S k)); [exact Hok|by vm_compute]. }
  cbn beta. intros c [al m] (Hok1 & Hc & Hf & Hm). cbn [objs] in Hm. subst m.
  set (s1 := set_fstore _ s).
  assert (Hg1 : grows [] s s1).
  { apply grows_objs. intros a o _ _ Ha. cbn. rewrite lookup_insert_ne by congruence. done. }
  apply wp_bind. eapply wp_mono.
  { apply (strdup_spec k s1 name x); [exact Hok1|eapply grows_str; [apply no_bytes_nil|exact Hg1|done]|done]. }
  intros b s2 (al2 & m2 & -> & Hok2 & Hb & Hfb & Hcs & Hob).
  assert (Hg2 : grows [] s1 (with_block al2 b (Z.of_nat (length x) + 1) m2 s1)).
  { eapply grows_block; [exact Hok2|lia|done|done]. }
  cbn in Hfb. apply lookup_insert_None in Hfb as [Hfb Hcb].
  apply wp_bind, wp_bind, wp_modify, wp_gets, wp_bind.
  eapply wp_upd_vnode; [cbn; by lk|]. apply wp_ret.
  assert (Hg : grows [] s (with_block al2 b (Z.of_nat (length x) + 1) m2 s1)) by (by eapply grows_trans).
  eexists. split; [apply with_obj_ok; [exact Hok2|cbn; eexists; by lk|done]|].
  assert (Hsub : forall a o, s.(fstore).(objs) !! a = Some o -> a <> c /\ a <> b).
  { intros a o Ha. split; congruence. }
  cbn [fstore objs set_fstore with_obj set_node_number with_block set_fmem s1 vfs_mountpoint_tree fmem].
  split_and!.
  - split_and!; [|apply Hg|done]. intros a o _ _ Ha. destruct (Hsub a o Ha). cbn. by lk.
  - apply map_subseteq_spec. intros a o Ha. destruct (Hsub a o Ha). by lk.
  - done.
  - by lk.
  - done.
  - split; [done|]. right. right. exists b, (Z.of_nat (length x) + 1). cbn. split_and!; [by lk|lia|lia].
  - done.
Qed.

(** ** One level of the path *)

Lemma leaf_notowned m l xs a o : list_rep m l xs -> leaf o -> m !! a = Some o -> a ∉ owned l xs.
Proof.
  intros (Hl & Hs & _) Hf Ha [->|Hin]%elem_of_cons; [rewrite Hl in Ha; by simplify_eq|].
  destruct (dlseg_node _ _ _ _ _ Hs Hin) as [nd Hnd]. rewrite Hnd in Ha. by simplify_eq.
Qed.

Lemma list_rep_ne m l xs a o o' :
  list_rep m l xs -> m !! a = Some o -> leaf o -> list_rep (<[a := o']> m) l xs.
Proof.
  intros Hl Ha Hf. eapply (list_rep_frame m _ [a]); [done| |].
  - intros y Hy _. split_notin. by lk.
  - intros y Hy ->%list_elem_of_singleton. by eapply leaf_notowned.
Qed.

(** A tree [w] with a fresh stub [c] called [x] is the last child of [a]. *)
Definition stub_added s x a l xs s' (w c : Z) : Prop :=
  exists v subs n,
    grows [] s s' /\ s.(fstore).(objs) !! w = None /\ s.(fstore).(objs) !! subs = None /\
    s.(fstore).(objs) !! n = None /\ s.(fstore).(objs) !! c = None /\
    s'.(fstore).(objs) !! w = Some (OTree (GenTree c subs a)) /\
    list_rep s'.(fstore).(objs) subs [] /\ list_rep s'.(fstore).(objs) l (xs ++ [(n, w)]) /\
    s'.(fstore).(objs) !! c = Some (OVnode v) /\ str_at s' v.(v_name) x /\
    v.(v_type_flags) = VFS_NODE_TYPE_SDIR /\
    untouched (owned l xs) s.(fstore).(objs) s'.(fstore).(objs).

Lemma set_tree_pointer_name w v : v_name (set_tree_pointer w v) = v_name v.
Proof. done. Qed.

Lemma mount_walk_new k s nm x parent a d l kids it :
  store_ok (S (S (S (S (S k))))) s.(fstore) ->
  tree_rep s.(fstore).(objs) parent (Rose a d l kids) ->
  Forall (readable s.(fstore).(objs) s.(fmem) nm) (preorder (Rose a d l kids)).*2 ->
  str_at s it x -> Z.of_nat (length x) < SMALL ->
  Forall (fun k => nm (datum k) <> x) kids.*2 ->
  wp (mount_walk 1 a it) (fun w s' => exists c,
    store_ok k s'.(fstore) /\ stub_added s x a l (kid_nodes kids) s' w c) s.
Proof.
  intros Hok Ht Hr Hx Hlen Hno. pose proof (store_ok_zero _ _ _ (store_eta _ _ Hok)) as H0.
  cbn [mount_walk]. apply wp_bind.
  eapply wp_read; [apply (scan_tree_spec _ nm it x s parent (Rose a d l kids)); [done|apply Hx|done|done]|].
  cbn [kids_of root]. apply last_named_none in Hno. rewrite scan_hit_any, scan_fst, Hno. cbn [fst Z.eqb].
  apply wp_bind, wp_bind. eapply wp_mono; [apply (vfs_create_stub_directory_spec (S (S (S k))) s it x); done|].
  intros c s1 (v & Hok1 & Hg1 & Hsub1 & Hf1 & Hc1 & Hc0 & Hvn & Hvt). apply wp_bind, wp_objs_at.
  apply tree_rep_kids in Ht as (Ha & Hl & _). cbn [default fmap option_fmap option_map].
  eapply wp_mono.
  { apply (generic_tree_create_spec k _ _ a d l parent (kid_nodes kids) c);
      [by apply store_eta|by eapply lookup_weaken|by eapply list_rep_sub]. }
  cbn beta. intros w [al2 m2] (subs & n & Hok2 & Hfw & Hfs & Hfn & Hw & Hsubs & Hl2 & Hu).
  cbn [objs alloc] in *. set (m1 := objs (fstore s1)) in *.
  assert (Hnone : forall y, m1 !! y = None -> s.(fstore).(objs) !! y = None).
  { intros y Hy. destruct (s.(fstore).(objs) !! y) eqn:He; [|done].
    by rewrite (lookup_weaken _ _ _ _ He Hsub1) in Hy. }
  assert (Hleaf : forall y o, leaf o -> m1 !! y = Some o -> m2 !! y = Some o).
  { intros y o Hlf Hy. rewrite (Hu y); [done| |by eexists].
    eapply leaf_notowned; [by eapply list_rep_sub|done|done]. }
  assert (Hc2 : m2 !! c = Some (OVnode v)) by (by apply Hleaf).
  apply wp_bind. eapply wp_upd_vnode; [exact Hc2|]. apply wp_ret, wp_bind.
  set (s2 := with_obj c _ _).
  assert (Hg12 : grows [] s s2).
  { destruct Hg1 as (Ho1 & Hk1 & Ht1). split_and!; [|exact Hk1|exact Ht1].
    intros y o Hy Hlf Hs. assert (y <> c) by congruence. cbn. lk. apply Hleaf; [done|by apply Ho1]. }
  eapply wp_read; [apply on_strlen, (grows_str [] s s2); [apply no_bytes_nil|done|exact Hx]|].
  apply wp_ret. exists c. assert (w <> c) by congruence.
  split; [apply with_obj_ok; [exact Hok2|by eexists|done]|].
  eexists _, subs, n. cbn [fstore objs s2 with_obj set_fstore].
  split_and!; [exact Hg12|by apply Hnone|by apply Hnone|by apply Hnone|done|by lk| | |by lk| |exact Hvt|].
  - eapply list_rep_ne; [exact Hsubs|exact Hc2|done].
  - eapply list_rep_ne; [exact Hl2|exact Hc2|done].
  - rewrite set_tree_pointer_name. split; [apply Hvn|]. eapply owned_range_mono; [|apply Hvn].
    intros b nb Hb. fold m1 in Hb. assert (b <> c) by congruence. cbn. lk. by apply (Hleaf b (OBytes nb)).
  - intros y Hy [o Ho]. assert (y <> c) by congruence. lk.
    pose proof (lookup_weaken _ _ _ _ Ho Hsub1) as Ho1. rewrite (Hu y Hy) by (by eexists). congruence.
Qed.

(** Lists only depend on list objects. *)
Lemma list_rep_keep m m' l xs :
  list_rep m l xs ->
  (forall y o, m !! y = Some o -> match o with ONode _ | OList _ => m' !! y = Some o | _ => True end) ->
  list_rep m' l xs.
Proof.
  intros (Hl & Hs & Hn) Hk. split_and!; [exact (Hk _ _ Hl)| |done].
  eapply dlseg_ext; [|exact Hs]. intros y Hy. destruct (dlseg_node _ _ _ _ _ Hs Hy) as [nd Hnd].
  rewrite Hnd. exact (Hk _ _ Hnd).
Qed.

Lemma footprint_struct m parent t y o : tree_rep m parent t -> y ∈ footprint t -> m !! y = Some o -> ~ leaf o.
Proof.
  revert parent. induction t as [a d l kids IH] using rose_rect'; intros parent Hrep Hin Hy Hlf.
  apply tree_rep_kids in Hrep as (Ha & Hl & Hk). cbn [footprint] in Hin.
  apply elem_of_cons in Hin as [->|Hin]; [rewrite Ha in Hy; by simplify_eq|].
  apply elem_of_cons in Hin as [->|Hin]; [destruct Hl as (Hl & _); rewrite Hl in Hy; by simplify_eq|].
  apply flat_map_in in Hin as ([n t] & Hkin & Hx). cbn in Hx. apply elem_of_cons in Hx as [->|Hx].
  - destruct Hl as (_ & Hs & _). destruct (dlseg_node _ _ _ _ n Hs) as [nd Hnd]; [|rewrite Hnd in Hy; by simplify_eq].
    apply list_elem_of_fmap. exists (n, root t). split; [done|]. apply list_elem_of_fmap. by exists (n, t).
  - rewrite Forall_forall in IH, Hk. by eapply (IH _ Hkin (root (Rose a d l kids))); [apply (Hk _ Hkin)|..].
Qed.

(** The stub [c] in the tree [w] is replaced by [node]. *)
Lemma mount_at_spec k s node nv w c v subs a x :
  store_ok k s.(fstore) -> s.(fstore).(objs) !! w = Some (OTree (GenTree c subs a)) ->
  s.(fstore).(objs) !! c = Some (OVnode v) -> s.(fstore).(objs) !! node = Some (OVnode nv) -> node <> c ->
  cstr s.(fmem) v.(v_name) x -> cstr s.(fmem) nv.(v_name) x -> v.(v_type_flags) = VFS_NODE_TYPE_SDIR ->
  wp (mount_at node w) (fun r s' => r = node /\ exists al,
    s' = set_fstore (Store al (<[node := OVnode (set_tree_pointer w nv)]>
           (<[w := OTree (GenTree node subs a)]> (delete c s.(fstore).(objs))))) s /\
    store_ok k s'.(fstore)) s.
Proof.
  intros Hok Hw Hc Hn Hne Hcx Hnx Hty. unfold mount_at. apply wp_bind.
  eapply wp_read; [by apply on_get_tree|]. cbn [t_data]. apply wp_bind.
  eapply wp_read; [by apply on_get_vnode|]. apply wp_bind.
  eapply wp_read; [by apply on_get_vnode|]. apply wp_bind.
  eapply wp_read; [by apply on_strcmp|]. rewrite decide_True by done. rewrite Hty. cbn [Z.eqb Pos.eqb].
  apply wp_bind, wp_objs. eapply wp_mono; [apply free_obj_spec; [exact Hok|by eexists]|].
  cbn beta. intros u [al m] [Hok1 Hm]. cbn [objs] in Hm. subst m. assert (w <> c) by congruence.
  apply wp_bind, wp_objs. cbn [fstore set_fstore]. unfold set_t_data. apply wp_bind.
  eapply wp_get_tree; [by lk|]. apply wp_put. cbn [sub_trees parent_tree].
  assert (node <> w) by congruence. apply wp_bind. eapply wp_upd_vnode; [cbn; by lk|]. apply wp_ret.
  split; [done|]. exists al. split; [done|]. apply with_obj_ok; [|cbn; eexists; by lk|done].
  cbn. apply store_ok_insert; [exact Hok1|eexists; by lk|done].
Qed.

(** ** [mount_in_vfs] under the root *)

Lemma preorder_grow a d l kids n w node subs :
  (preorder (Rose a d l (kids ++ [(n, Rose w node subs [])]))).*2 = (preorder (Rose a d l kids)).*2 ++ [node].
Proof. cbn. rewrite flat_map_app, fmap_app. done. Qed.

(** The path is copied into a fresh block and cut there. *)
Lemma path_block_spec k s path x (K : Z -> Z -> cmd (fstate A D) Z) (Q : Z -> fstate A D -> Prop) :
  store_ok (S k) s.(fstore) -> str_at s path (SLASH :: x) -> SLASH ∉ x ->
  Z.of_nat (length x) + 2 <= SMALL ->
  (forall b s1, store_ok k s1.(fstore) -> grows [] s s1 -> s.(fstore).(objs) !! b = None ->
     s.(fstore).(objs) ⊆ s1.(fstore).(objs) -> str_at s1 (b + 1) x ->
     s1.(fstore).(objs) !! b = Some (OBytes (Z.of_nat (length x) + 2)) -> wp (K b 1) Q s1) ->
  wp (b <- new_bytes (Z.of_nat (length x) + 1 + 1) ;;
      segments <- on_bytes (parse_path path (Z.of_nat (length x) + 1) b) ;;
      K b segments) Q s.
Proof.
  intros Hok Hp Hsl Hlen HK. apply wp_bind. eapply wp_mono; [apply (new_bytes_spec k); [done|lia]|].
  intros b s1 (al & -> & Hok1 & Hb & Hf). apply wp_bind, wp_bytes. cbn [fmem with_block set_fmem].
  set (m1 := memset_8 _ _ _ _). set (n := Z.of_nat (length x) + 1 + 1) in *.
  assert (Hsep : forall y, path <= y <= path + Z.of_nat (length (SLASH :: x)) -> y < b \/ b + n < y).
  { intros y Hy. eapply fresh_disjoint; [exact Hok1|cbn; by lk|lia| |exact Hy].
    cbn. rewrite delete_insert_id by done. apply Hp. }
  cbn [length] in Hsep. destruct (parse_path_spec m1 path b x) as (m2 & Hm2 & Hstrs & Hrd).
  - eapply cstr_ext; [|apply Hp]. intros y Hy. unfold m1. rewrite memset_8_rd, decide_False; [done|].
    specialize (Hsep y Hy). lia.
  - pose proof (Hsep path). pose proof (Hsep b). lia.
  - unfold m1. rewrite memset_8_rd, decide_True by lia. done.
  - unfold wp at 1. rewrite Hm2. rewrite (segments_of_plain _ Hsl) in *. cbn [length Z.of_nat Pos.of_succ_nat].
    destruct Hstrs as [Hx _].
    assert (Hg : grows [] s (with_block al b n m2 s)).
    { eapply grows_block; [exact Hok1|lia|done|]. eapply only_block_trans; [apply memset_only|].
      intros y Hy. apply Hrd. lia. }
    apply HK; [exact Hok1|exact Hg|done| | |].
    + cbn. apply insert_subseteq. done.
    + split; [exact Hx|]. right. right. exists b, n. cbn. split_and!; [by lk|lia|lia].
    + cbn. unfold n. rewrite lookup_insert_eq. do 2 f_equal. lia.
Qed.

Definition mounted k s nm a d l kids node nv s' : Prop :=
  exists n w subs, store_ok k s'.(fstore) /\ grows [node] s s' /\
    named_tree s' nm 0 (Rose a d l (kids ++ [(n, Rose w node subs [])])) /\
    s'.(fstore).(objs) !! node = Some (OVnode (set_tree_pointer w nv)).

(** The last step: everything is in place when the scratch block is freed. *)
Lemma mounted_intro k s nm a d l kids node nv b s1 s2 s' x w c :
  named_tree s nm 0 (Rose a d l kids) -> s.(fstore).(objs) !! node = Some (OVnode nv) ->
  node ∉ (preorder (Rose a d l kids)).*2 -> nm node = x -> str_at s nv.(v_name) x ->
  grows [] s s1 -> s.(fstore).(objs) !! b = None -> s.(fstore).(objs) ⊆ s1.(fstore).(objs) ->
  (exists n, s1.(fstore).(objs) !! b = Some (OBytes n)) ->
  stub_added s1 x a l (kid_nodes kids) s2 w c ->
  (exists subs, s2.(fstore).(objs) !! w = Some (OTree (GenTree c subs a)) /\
     s'.(fstore).(objs) = delete b (<[node := OVnode (set_tree_pointer w nv)]>
       (<[w := OTree (GenTree node subs a)]> (delete c s2.(fstore).(objs))))) ->
  s'.(fmem) = s2.(fmem) -> s'.(vfs_mountpoint_tree) = s2.(vfs_mountpoint_tree) ->
  store_ok k s'.(fstore) -> mounted k s nm a d l kids node nv s'.
Proof.
  intros (Ht & Hnd & Hnm) Hnode Hnin Hx Hnx Hg1 Hfb Hsub1 [nb Hb]
    (v & subs & n & Hg2 & Hfw & Hfs & Hfn & Hfc & Hw & Hsubs & Hl & Hc & Hcx & Hty & Hu)
    (subs' & Hw' & Hm') Hmem Hmt Hok.
  rewrite Hw in Hw'. injection Hw' as <-.
  assert (Hnone : forall y, s1.(fstore).(objs) !! y = None -> s.(fstore).(objs) !! y = None).
  { intros y Hy. destruct (s.(fstore).(objs) !! y) eqn:He; [|done].
    by rewrite (lookup_weaken _ _ _ _ He Hsub1) in Hy. }
  assert (Hb2 : s2.(fstore).(objs) !! b = Some (OBytes nb)) by (apply Hg2; [apply not_elem_of_nil|done|done]).
  assert (Hn2 : s2.(fstore).(objs) !! node = Some (OVnode nv)).
  { apply Hg2; [apply not_elem_of_nil|done|]. by eapply lookup_weaken. }
  assert (node <> b) by congruence. assert (w <> b) by congruence. assert (c <> b) by congruence.
  assert (node <> w) by (intros ->; rewrite (Hnone w) in Hnode by done; congruence).
  assert (node <> c) by (intros ->; rewrite (Hnone c) in Hnode by done; congruence).
  assert (Hat : forall y o, s.(fstore).(objs) !! y = Some o -> y <> node ->
    s'.(fstore).(objs) !! y = s2.(fstore).(objs) !! y).
  { intros y o Hy Hyn. rewrite Hm'. assert (y <> b) by congruence.
    assert (y <> w) by (intros ->; rewrite Hnone in Hy by done; congruence).
    assert (y <> c) by (intros ->; rewrite Hnone in Hy by done; congruence). by lk. }
  assert (Hg : grows [node] s s').
  { pose proof (grows_trans _ _ _ _ Hg1 Hg2) as (Ho & Hk & Hmp). split_and!.
    - intros y o Hyn Hlf Hy. rewrite (Hat y o Hy) by set_solver. apply Ho; [apply not_elem_of_nil|done|done].
    - rewrite Hmem. exact Hk.
    - by rewrite Hmt. }
  assert (Hnb : no_bytes [node] s).
  { intros y m ->%list_elem_of_singleton. congruence. }
  exists n, w, subs. split_and!; [done|done| |rewrite Hm'; by lk].
  destruct (tree_grow s.(fstore).(objs) s'.(fstore).(objs) 0 a d l kids n w node subs) as [Ht' Hnd'];
    [done|done| |rewrite Hm'; by lk| | |by apply Hnone|by apply Hnone|by apply Hnone|].
  - intros y Hy Hyo. destruct (footprint_objs _ _ _ _ Ht Hy) as [o Ho].
    assert (y <> node) by (intros ->; rewrite Hnode in Ho; injection Ho as <-; by eapply footprint_struct).
    rewrite (Hat y o) by done. pose proof (lookup_weaken _ _ _ _ Ho Hsub1) as Ho1.
    rewrite (Hu y Hyo) by (by eexists). congruence.
  - eapply list_rep_keep; [exact Hsubs|]. intros y [] Hy; try done; rewrite Hm'; by lk.
  - eapply list_rep_keep; [exact Hl|]. intros y [] Hy; try done; rewrite Hm'; by lk.
  - split_and!; [done|done|]. rewrite preorder_grow. apply Forall_app. split.
    + rewrite Forall_forall in *. intros y Hy. eapply grows_named; [exact Hnb|exact Hg| |by apply Hnm].
      intros ->%list_elem_of_singleton. done.
    + apply Forall_singleton. eexists. split; [rewrite Hm'; by lk|]. rewrite set_tree_pointer_name, Hx.
      by eapply grows_str.
Qed.

Section under_root.
Variables (s : fstate A D) (nm : Z -> list Z) (a d l : Z) (kids : list (Z * rose)).
Variables (node : Z) (nv : vnode) (path : Z) (x : list Z).
Hypothesis Htree : named_tree s nm 0 (Rose a d l kids).
Hypothesis Hroot : s.(vfs_mountpoint_tree) = a.
Hypothesis Hnode : s.(fstore).(objs) !! node = Some (OVnode nv).
Hypothesis Hnew : node ∉ (preorder (Rose a d l kids)).*2.
Hypothesis Hname : nm node = x.
Hypothesis Hstr : str_at s nv.(v_name) x.
Hypothesis Hpath : str_at s path (SLASH :: x).
Hypothesis Hpath0 : path <> 0.
Hypothesis Hx : x <> [].
Hypothesis Hplain : SLASH ∉ x.
Hypothesis Hlen : Z.of_nat (length x) + 2 <= SMALL.
Hypothesis Hno : Forall (fun k => nm (datum k) <> x) kids.*2.

Lemma mount_in_vfs_spec k :
  store_ok (S (S (S (S (S (S k)))))) s.(fstore) ->
  wp (mount_in_vfs node path) (fun r s' => r = node /\ mounted k s nm a d l kids node nv s') s.
Proof.
  intros Hok. pose proof (store_ok_zero _ _ _ (store_eta _ _ Hok)) as H0. unfold mount_in_vfs.
  assert (node <> 0) by congruence. destruct (Z.eqb_spec node 0), (Z.eqb_spec path 0); try done. cbn [orb].
  apply wp_bind. eapply wp_read; [apply on_peek|].
  assert (rd8 (fmem s) path = 47) as -> by apply Hpath. cbn [Z.eqb Pos.eqb negb]. apply wp_bind.
  eapply wp_read; [apply on_strlen, Hpath|].
  assert (Hl1 : Z.of_nat (length (SLASH :: x)) = Z.of_nat (length x) + 1) by (cbn; lia). rewrite Hl1.
  assert (Hpl : (Z.of_nat (length x) + 1 =? 1) = false).
  { apply Z.eqb_neq. destruct x; [done|cbn; lia]. }
  eapply (path_block_spec (S (S (S (S (S k)))))); [done|done|done|done|].
  intros b s1 Hok1 Hg1 Hfb Hsub1 Hit Hb. cbn beta. rewrite Hpl. cbn [Z.eqb Pos.eqb andb].
  apply wp_bind, wp_gets, wp_bind, wp_bind. destruct Htree as (Ht & Hnd & Hnm).
  assert (Hmp : vfs_mountpoint_tree s1 = a) by (rewrite <- Hroot; apply Hg1). rewrite Hmp.
  eapply wp_mono.
  { apply (mount_walk_new k s1 nm x 0 a d l kids (b + 1)); [done|by eapply tree_rep_sub| |done|lia|done].
    eapply Forall_impl; [exact Hnm|]. intros y Hy. apply (grows_named [] s s1) in Hy as (v & Hv & Hs);
      [|apply no_bytes_nil|done|apply not_elem_of_nil]. exists v. split; [done|apply Hs]. }
  intros w s2 (c & Hok2 & Hadd). pose proof Hadd as
    (v & subs & nd & Hg2 & Hfw & Hfs & Hfn & Hfc & Hw & _ & _ & Hc & Hcx & Hty & _).
  pose proof (grows_trans _ _ _ _ Hg1 Hg2) as Hg.
  assert (Hn2 : s2.(fstore).(objs) !! node = Some (OVnode nv)) by (apply Hg; [apply not_elem_of_nil|done|done]).
  assert (node <> c).
  { intros ->. rewrite (lookup_weaken _ _ _ _ Hnode Hsub1) in Hfc. done. }
  assert (Hb2 : s2.(fstore).(objs) !! b = Some (OBytes (Z.of_nat (length x) + 2))).
  { apply Hg2; [apply not_elem_of_nil|done|done]. }
  eapply wp_mono.
  { eapply (mount_at_spec k s2 node nv w c v subs a x); [done|done|done|done|done|apply Hcx| |done].
    apply (grows_str [] s s2); [apply no_bytes_nil|done|done]. }
  cbn beta. intros r s3 (-> & al3 & -> & Hok3). apply wp_bind, wp_objs.
  eapply wp_mono; [apply free_obj_spec; [exact Hok3|cbn; eexists; by lk]|].
  cbn beta. intros u [al4 m4] [Hok4 Hm4]. apply wp_ret. split; [done|].
  eapply (mounted_intro k s nm a d l kids node nv b s1 s2 _ x w c); try done.
  - by eexists.
  - exists subs. split; [done|exact Hm4].
Qed.

(** C25: Mounting and finding again: mounting a node under a name of its own
    directly below the root succeeds, and looking the same path up then returns
    that node, whatever else is mounted and whatever the file systems do. *)
Theorem mount_then_find k dops :
  store_ok (S (S (S (S (S (S (S (S k)))))))) s.(fstore) ->
  wp (r <- mount_in_vfs node path ;; f <- vfs_find_node dops path ;; ret (r, f))
     (fun rf _ => rf = (node, node)) s.
Proof.
  intros Hok. apply wp_bind. eapply wp_mono; [by apply (mount_in_vfs_spec (S (S k)))|].
  intros r s' (-> & n & w & subs & Hok' & Hg & Ht' & _). apply wp_bind.
  assert (Hnb : no_bytes [node] s).
  { intros y m ->%list_elem_of_singleton. congruence. }
  assert (Hf : found nm (Rose a d l (kids ++ [(n, Rose w node subs [])])) x = (Rose w node subs [], [])).
  { unfold found. rewrite segments_of_plain by done. cbn [resolve kids_of].
    replace ((kids ++ [(n, Rose w node subs [])]).*2) with (kids.*2 ++ [Rose w node subs []])
      by (by rewrite fmap_app).
    rewrite last_snoc. cbn [fmap datum option_fmap option_map].
    rewrite decide_True by (by rewrite Hname). f_equal. rewrite last_named_snoc. cbn [datum].
    by rewrite Hname, decide_True. }
  eapply wp_mono.
  { apply (vfs_find_node_spec dops k s' nm _ path x Hok' Ht'); try done.
    - destruct Hg as (_ & _ & ->). exact Hroot.
    - by eapply grows_str.
    - left. by rewrite Hf. }
  intros f s'' [-> _]. apply wp_ret. unfold found_node. by rewrite Hf.
Qed.
End under_root.
End mounting.

(** ** Mounting a third directory in the small file system *)

#[local] Existing Instance bump_allocator.

Definition USR : list Z := [117; 115; 114].
Definition usr_node : vnode :=
  VNode (STATIC + 50) 0 0 VFS_NODE_TYPE_DIRE 0 no_fn no_fn no_fn no_fn no_fn no_fn no_fn
        no_fn no_fn no_fn 0 0.
Definition demo_fs2 : fstate bump unit :=
  set_fmem (put_str (put_str demo_mem (STATIC + 50) USR) (STATIC + 60) (47 :: USR))
    (set_fstore (Store (bump_at 30 [1; 2; 3; 4; 5; 6; 7; 8; 20; 21; 22; 23])
       (<[23 := OVnode usr_node]> demo_fs.(fstore).(objs))) demo_fs).
Definition demo_names2 (d : Z) : list Z := if d =? 23 then USR else demo_names d.

Lemma demo_fs2_ok : store_ok 108 demo_fs2.(fstore).
Proof. store_by_compute. Qed.

Lemma demo_fs2_tree : named_tree demo_fs2 demo_names2 0 demo_mounts.
Proof.
  split_and!.
  - cbn [tree_rep demo_mounts snd]. unfold list_rep.
    split_and!; first [done | by vm_compute | apply (bool_decide_unpack _); by vm_compute].
  - apply (bool_decide_unpack _). by vm_compute.
  - repeat constructor; (eexists; split; [reflexivity|apply static_str; [done|by vm_compute]]).
Qed.

Lemma mount_then_find_witness :
  wp (r <- mount_in_vfs 23 (STATIC + 60) ;; f <- vfs_find_node no_dops (STATIC + 60) ;; ret (r, f))
     (fun rf _ => rf = (23, 23)) demo_fs2.
Proof.
  apply (mount_then_find demo_fs2 demo_names2 1 20 2 [(3, Rose 4 21 5 []); (6, Rose 7 22 8 [])] 23 usr_node
           (STATIC + 60) USR) with (k := 100%nat).
  - exact demo_fs2_tree.
  - done.
  - done.
  - apply (bool_decide_unpack _). by vm_compute.
  - done.
  - apply static_str; [done|by vm_compute].
  - apply static_str; [done|by vm_compute].
  - done.
  - done.
  - apply (bool_decide_unpack _). by vm_compute.
  - done.
  - apply (bool_decide_unpack _). by vm_compute.
  - exact demo_fs2_ok.
Defined.
