(* ===== verification/Devfs.v ===== *)
(** [drivers/devfs/devfs.c]: the file system of devices, and
    [drivers/devices/storage/initrd.c]: the RAM disk, one of its devices.

    The functions of a device node ask the [io_node_t] behind it; calls of a
    device driver's functions go through [io_ops]. *)
From stdpp Require Import base numbers gmap list.
From S2P Require Import Prelude Kmem Allocator Store LinkedList GenericTree KString Fs Vfs VfsSpec VfsMount.

Definition VFS_FILESYSTEM_TYPE_DEVFS : Z := 0x01.
Definition DEVFS_CHAR_DEV : Z := 0x02.

Section operations.
Context {A D : Type} `{Allocator A}.
#[local] Abbreviation fs := (fstate A D).

(** Calls through the function pointers of an [io_node_t]. *)
Record io_ops := IoOps {
  io_op_open : fn -> Z -> cmd fs Z;
  io_op_close : fn -> Z -> cmd fs Z;
  io_op_read : fn -> Z -> Z -> Z -> Z -> cmd fs Z;
  io_op_write : fn -> Z -> Z -> Z -> Z -> cmd fs Z;
  io_op_control : fn -> Z -> Z -> Z -> cmd fs Z;
  io_op_status : fn -> Z -> cmd fs Z
}.

Definition devfs_is_ready : cmd fs Z := gets devfs_is_ready_flag.

Definition get_device_node_no : cmd fs Z :=
  modify (fun s => set_device_node_no (i32 (s.(device_node_no) + 1)) s) ;;;
  gets device_node_no.

Section nodes.
Variable io : io_ops.

Definition open_node_devfs (vfs_node : Z) : cmd fs Z :=
  if vfs_node =? 0 then ret (-1)
  else
    v <- on_objs (get_vnode vfs_node) ;;
    d <- on_objs (get_io v.(v_base_pointer)) ;;
    if is_null d.(io_open) then ret (-1) else io_op_open io d.(io_open) v.(v_base_pointer).

Definition close_node_devfs (vfs_node : Z) : cmd fs Z :=
  if vfs_node =? 0 then ret (-1)
  else
    v <- on_objs (get_vnode vfs_node) ;;
    d <- on_objs (get_io v.(v_base_pointer)) ;;
    if is_null d.(io_close) then ret (-1) else io_op_close io d.(io_close) v.(v_base_pointer).

Definition read_node_devfs (vfs_node start_at size buffer : Z) : cmd fs Z :=
  if (vfs_node =? 0) || (buffer =? 0) then ret (-1)
  else
    v <- on_objs (get_vnode vfs_node) ;;
    d <- on_objs (get_io v.(v_base_pointer)) ;;
    if is_null d.(io_read) then ret (-1)
    else io_op_read io d.(io_read) v.(v_base_pointer) start_at size buffer.

Definition write_node_devfs (vfs_node start_at size buffer : Z) : cmd fs Z :=
  if (vfs_node =? 0) || (buffer =? 0) then ret (-1)
  else
    v <- on_objs (get_vnode vfs_node) ;;
    d <- on_objs (get_io v.(v_base_pointer)) ;;
    if is_null d.(io_write) then ret (-1)
    else io_op_write io d.(io_write) v.(v_base_pointer) start_at size buffer.

Definition control_node_devfs (vfs_node command arguments : Z) : cmd fs Z :=
  if (vfs_node =? 0) || (command =? 0) then ret (-1)
  else
    v <- on_objs (get_vnode vfs_node) ;;
    d <- on_objs (get_io v.(v_base_pointer)) ;;
    if is_null d.(io_control) then ret (-1)
    else io_op_control io d.(io_control) v.(v_base_pointer) command arguments.

Definition status_of_node_devfs (vfs_node : Z) : cmd fs Z :=
  if vfs_node =? 0 then ret 0xFFFFFFFF
  else
    v <- on_objs (get_vnode vfs_node) ;;
    d <- on_objs (get_io v.(v_base_pointer)) ;;
    if is_null d.(io_status) then ret 0xFFFFFFFF
    else io_op_status io d.(io_status) v.(v_base_pointer).
End nodes.

Definition create_node_devfs (vfs_node name type base_pointer : Z) : cmd fs Z :=
  if (vfs_node =? 0) || (name =? 0) || (type =? 0) || (base_pointer =? 0) then ret 0
  else
    v <- on_objs (get_vnode vfs_node) ;;
    root <- gets root_node ;;
    r <- on_objs (get_vnode root) ;;
    if negb (v.(v_node_no) =? r.(v_node_no)) then ret 0
    else
      retval <- on_objs (new_obj SIZEOF_VNODE (OVnode zero_vnode)) ;;
      device <- on_objs (get_io base_pointer) ;;
      upd_vnode retval (fun n =>
        VNode name (u32 (v.(v_node_no) + device.(io_node_no))) device.(io_node_size) type
              (u16 device.(io_node_type)) no_fn devfs_fn devfs_fn devfs_fn devfs_fn devfs_fn devfs_fn
              no_fn no_fn no_fn base_pointer n.(v_tree_pointer)) ;;;
      l <- gets devices ;;
      on_objs (linked_list_append l retval) ;;;
      ret retval.

Fixpoint nth_device (fuel : nat) (item i entry_no : Z) : cmd (store A) Z :=
  match fuel with
  | O => hang
  | S fuel' =>
      if item =? 0 then ret 0
      else
        n <- get_node item ;;
        if i =? entry_no then ret n.(data) else nth_device fuel' n.(next) (i + 1) entry_no
  end.
Definition read_directory_devfs (vfs_node entry_no : Z) : cmd fs Z :=
  root <- gets root_node ;;
  if (vfs_node =? 0) || (entry_no <? 0) || negb (vfs_node =? root) then ret 0
  else
    dl <- gets devices ;;
    l <- on_objs (get_list dl) ;;
    fuel <- gets (fun s => chain_fuel s.(fstore)) ;;
    on_objs (nth_device fuel l.(list_head) 0 entry_no).

Fixpoint device_named (fuel : nat) (item name : Z) : cmd fs Z :=
  match fuel with
  | O => hang
  | S fuel' =>
      if item =? 0 then ret 0
      else
        n <- on_objs (get_node item) ;;
        tmp <- on_objs (get_vnode n.(data)) ;;
        c <- on_bytes (strcmp tmp.(v_name) name) ;;
        if c =? 0 then ret n.(data) else device_named fuel' n.(next) name
  end.
(** [name] starts with a slash, which is skipped. *)
Definition find_in_directory_devfs (vfs_node name : Z) : cmd fs Z :=
  root <- gets root_node ;;
  if (vfs_node =? 0) || (name =? 0) || negb (vfs_node =? root) then ret 0
  else
    dl <- gets devices ;;
    l <- on_objs (get_list dl) ;;
    fuel <- gets (fun s => chain_fuel s.(fstore)) ;;
    device_named fuel l.(list_head) (name + 1).

(** The array is cleared and has a last entry 0 because a fresh block is zero. *)
Definition list_directory_devfs (vfs_node : Z) : cmd fs Z :=
  root <- gets root_node ;;
  if (vfs_node =? 0) || negb (vfs_node =? root) then ret 0
  else
    dl <- gets devices ;;
    l <- on_objs (get_list dl) ;;
    let alloc_size := 4 * l.(list_length) in
    nodes <- on_objs (new_obj (alloc_size + 4) (OWords (replicate (Z.to_nat (l.(list_length) + 1)) 0))) ;;
    fuel <- gets (fun s => chain_fuel s.(fstore)) ;;
    on_objs (fill_words fuel l.(list_head) nodes 0) ;;;
    ret nodes.

Definition mount_devfs (device mountpoint : Z) : cmd fs Z :=
  name <- on_bytes (strrchr mountpoint 47) ;;
  node <- on_objs (new_obj SIZEOF_VNODE (OVnode zero_vnode)) ;;
  modify (set_root_node node) ;;;
  no <- get_node_no ;;
  dl <- gets devices ;;
  upd_vnode node (fun v =>
    VNode (name + 1) (u32 no) 0 VFS_NODE_TYPE_DIRE VFS_FILESYSTEM_TYPE_DEVFS devfs_fn no_fn no_fn no_fn
          no_fn no_fn no_fn devfs_fn devfs_fn devfs_fn dl v.(v_tree_pointer)) ;;;
  r <- mount_in_vfs node mountpoint ;;
  modify (set_root_node r) ;;;
  ret r.

(** [literal] is the format string of [get_filesystem_id]. *)
Definition initialise_devfs (dops : dir_ops A D) (literal mountpoint : Z) : cmd fs unit :=
  id <- get_filesystem_id literal ;;
  if (id =? 0) || (mountpoint =? 0) then ret tt
  else
    l <- on_objs linked_list_create ;;
    modify (set_devices l) ;;;
    register_filesystem_in_vfs id devfs_fn ;;;
    r <- mount_filesystem_in_vfs dops
           (fun f device mp => match f with devfs_fn => mount_devfs device mp | _ => fault end)
           id mountpoint 0 ;;
    modify (set_root_node r) ;;;
    modify (set_devfs_ready 1).

(** What the virtual file system calls for the nodes of this file system, and
    [next] for the others. *)
Definition devfs_file_ops (io : io_ops) (next : file_ops A D) : file_ops A D := FileOps
  (fun f n => match f with devfs_fn => open_node_devfs io n | _ => op_open next f n end)
  (fun f n => match f with devfs_fn => close_node_devfs io n | _ => op_close next f n end)
  (fun f n a sz b => match f with devfs_fn => read_node_devfs io n a sz b | _ => op_read next f n a sz b end)
  (fun f n a sz b => match f with devfs_fn => write_node_devfs io n a sz b | _ => op_write next f n a sz b end)
  (fun f n c a => match f with devfs_fn => control_node_devfs io n c a | _ => op_control next f n c a end)
  (fun f n => match f with devfs_fn => status_of_node_devfs io n | _ => op_status next f n end).
Definition devfs_dir_ops (next : dir_ops A D) : dir_ops A D := DirOps
  (fun f n nm t b => match f with devfs_fn => create_node_devfs n nm t b | _ => op_create next f n nm t b end)
  (fun f n i => match f with devfs_fn => read_directory_devfs n i | _ => op_dir_read next f n i end)
  (fun f n nm => match f with devfs_fn => find_in_directory_devfs n nm | _ => op_dir_find next f n nm end)
  (fun f n => match f with devfs_fn => list_directory_devfs n | _ => op_dir_list next f n end).
End operations.
Arguments io_ops : clear implicits.

(** * The RAM disk *)

(** The globals of [initrd.c]. *)
Record initrd := Initrd {
  initrd_memory_start : Z;
  initrd_memory_end : Z;
  initrd_memory_length : Z;
  initrd_device : Z;
  initrd_device_file : Z;
  initrd_status : Z
}.
Definition INITRD : Z := 1.

Section ramdisk.
Context {A : Type} `{Allocator A}.
#[local] Abbreviation fs := (fstate A initrd).

(** [mod_start] and [mod_end] are those of the boot module "dbos.initrd";
    [ramdisk] and [dev] are the addresses of the strings "ramdisk" and "/dev". *)
Definition initialise_initrd (dops : dir_ops A initrd) (mod_start mod_end ramdisk dev : Z) : cmd fs unit :=
  modify (fun s => set_drivers (Initrd mod_start mod_end (u32 (mod_end - mod_start))
    s.(drivers).(initrd_device) s.(drivers).(initrd_device_file) s.(drivers).(initrd_status)) s) ;;;
  device <- on_objs (new_obj SIZEOF_IO_NODE (OIoNode zero_io)) ;;
  modify (fun s => set_drivers (Initrd s.(drivers).(initrd_memory_start) s.(drivers).(initrd_memory_end)
    s.(drivers).(initrd_memory_length) device s.(drivers).(initrd_device_file) s.(drivers).(initrd_status)) s) ;;;
  no <- get_device_node_no ;;
  upd_io device (fun _ =>
    IoNode (u32 no) DEVFS_CHAR_DEV ramdisk (u32 (mod_end - mod_start)) (driver_fn INITRD) (driver_fn INITRD)
           (driver_fn INITRD) (driver_fn INITRD) (driver_fn INITRD) (driver_fn INITRD) mod_start) ;;;
  devfs <- vfs_find_node dops dev ;;
  file <- create_node_vfs dops devfs ramdisk VFS_NODE_TYPE_CHRD device ;;
  modify (fun s => set_drivers (Initrd s.(drivers).(initrd_memory_start) s.(drivers).(initrd_memory_end)
    s.(drivers).(initrd_memory_length) s.(drivers).(initrd_device) file 1) s).

Definition initrd_dev_open (device : Z) : cmd fs Z := ret 0.
Definition initrd_dev_close (device : Z) : cmd fs Z := ret 0.
Definition initrd_dev_write (device start_at size buffer : Z) : cmd fs Z := ret 0.
Definition initrd_dev_control (device command arguments : Z) : cmd fs Z := ret 0.

Definition initrd_dev_read (device start_at size buffer : Z) : cmd fs Z :=
  r <- gets drivers ;;
  if (r.(initrd_memory_start) =? 0) || (r.(initrd_memory_end) =? 0) then ret (-1)
  else if r.(initrd_memory_length) <? start_at then ret (-1)
  else
    let size := if r.(initrd_memory_length) <? u32 (start_at + size)
                then u32 (r.(initrd_memory_length) - start_at) else size in
    on_bytes (modify (fun m => memcpy_8 m buffer (r.(initrd_memory_start) + start_at) size)) ;;;
    ret (i32 size).

Definition initrd_dev_status (device : Z) : cmd fs Z :=
  r <- gets drivers ;;
  ret (if device =? r.(initrd_device) then u32 r.(initrd_status) else 0xFFFFFFFF).

Definition initrd_io_ops : io_ops A initrd := IoOps
  (fun f d => if decide (f = driver_fn INITRD) then initrd_dev_open d else fault)
  (fun f d => if decide (f = driver_fn INITRD) then initrd_dev_close d else fault)
  (fun f d a sz b => if decide (f = driver_fn INITRD) then initrd_dev_read d a sz b else fault)
  (fun f d a sz b => if decide (f = driver_fn INITRD) then initrd_dev_write d a sz b else fault)
  (fun f d c a => if decide (f = driver_fn INITRD) then initrd_dev_control d c a else fault)
  (fun f d => if decide (f = driver_fn INITRD) then initrd_dev_status d else fault).
End ramdisk.

(** * Devices can be found *)

Section proofs.
Context {A D : Type} `{Allocator A}.
Implicit Types (s : fstate A D).

Definition first_named (nm : Z -> list Z) (x : list Z) (ds : list Z) : Z :=
  default 0 (snd <$> list_find (fun d => nm d = x) ds).

Lemma device_named_spec nm p x s xs :
  s.(fstore).(objs) !! 0 = None -> cstr s.(fmem) p x ->
  forall pv fuel, dlseg s.(fstore).(objs) pv xs 0 -> Forall (named s nm) xs.*2 -> (length xs < fuel)%nat ->
  device_named fuel (hd_addr xs 0) p s = Ret (first_named nm x xs.*2, s).
Proof.
  intros H0 Hx. induction xs as [|[a d] xs IH]; intros pv fuel Hs Hn Hf;
    (destruct fuel as [|fuel]; [cbn in Hf; lia|]); [done|].
  destruct Hs as [Ha Hs]. apply Forall_cons in Hn as [(v & Hv & Hc) Hn]. cbn [snd] in Hv, Hc. cbn [device_named hd_addr].
  destruct (Z.eqb_spec a 0); [congruence|]. unfold bind at 1. rewrite (on_get_node _ _ _ Ha). cbn [data next].
  unfold bind at 1. rewrite (on_get_vnode _ _ _ Hv).
  unfold bind at 1. rewrite (on_strcmp _ _ _ _ _ (str_at_cstr _ _ _ Hc) Hx).
  unfold first_named. cbn [fmap list_fmap snd list_find]. cbn [snd] in *. destruct (decide (nm d = x)); cbn [Z.eqb].
  - done.
  - rewrite (IH a); [|done|done|cbn in Hf; lia]. unfold first_named.
    by destruct (list_find _ _) as [[]|].
Qed.

(** The list of devices, each under its name. *)
Definition devices_rep s (nm : Z -> list Z) (xs : list (Z * Z)) : Prop :=
  list_rep s.(fstore).(objs) s.(devices) xs /\ Forall (named s nm) xs.*2.

Lemma find_in_directory_devfs_spec k nm s xs p c x :
  store_ok k s.(fstore) -> devices_rep s nm xs -> p <> 0 -> cstr s.(fmem) p (c :: x) -> s.(root_node) <> 0 ->
  find_in_directory_devfs s.(root_node) p s = Ret (first_named nm x xs.*2, s).
Proof.
  intros Hok [Hl Hn] Hp Hc Hr. pose proof (list_rep_length _ _ _ Hl) as Hlen.
  unfold find_in_directory_devfs, bind at 1, gets at 1. rewrite Z.eqb_refl.
  destruct (Z.eqb_spec (root_node s) 0), (Z.eqb_spec p 0); try done. cbn [orb negb].
  destruct Hl as (Hl & Hs & _). unfold bind at 1, gets at 1. unfold bind at 1. rewrite (on_get_list _ _ _ Hl).
  unfold bind at 1, gets at 1. cbn [list_head].
  eapply device_named_spec; [apply Hok|apply Hc|exact Hs|done|unfold chain_fuel; lia].
Qed.

Lemma first_named_snoc nm x ds d :
  Forall (fun d => nm d <> x) ds -> nm d = x -> first_named nm x (ds ++ [d]) = d.
Proof.
  intros Hn Hd. unfold first_named. induction Hn as [|d' ds Hd' _ IH]; cbn.
  - by rewrite decide_True.
  - rewrite decide_False by done. destruct (list_find _ (ds ++ [d])) as [[]|]; exact IH.
Qed.

(** The node [r] with contents [v] is new and the last of the devices. *)
Definition device_added k s xs (r nn : Z) (v : vnode) s' : Prop :=
  store_ok k s'.(fstore) /\ grows [] s s' /\ s.(fstore).(objs) !! r = None /\
  s'.(fstore).(objs) !! r = Some (OVnode v) /\ list_rep s'.(fstore).(objs) s.(devices) (xs ++ [(nn, r)]) /\
  s'.(devices) = s.(devices) /\ s'.(root_node) = s.(root_node) /\ s'.(drivers) = s.(drivers).

Lemma create_node_devfs_spec k s xs rv dev base type name :
  store_ok (S (S k)) s.(fstore) -> list_rep s.(fstore).(objs) s.(devices) xs ->
  s.(fstore).(objs) !! s.(root_node) = Some (OVnode rv) ->
  s.(fstore).(objs) !! base = Some (OIoNode dev) -> 0 < type < 2 ^ 16 -> name <> 0 ->
  wp (create_node_devfs s.(root_node) name type base) (fun r s' => exists nn v,
    device_added k s xs r nn v s' /\ v.(v_name) = name /\ v.(v_base_pointer) = base /\
    v.(v_type_flags) = type /\ v.(v_size) = dev.(io_node_size) /\ v.(v_read) = devfs_fn /\ v.(v_write) = devfs_fn) s.
Proof.
  intros Hok Hl Hroot Hbase Hty Hn0. pose proof (store_ok_zero _ _ _ (store_eta _ _ Hok)) as H0.
  assert (s.(root_node) <> 0) by congruence. assert (base <> 0) by congruence. unfold create_node_devfs.
  destruct (Z.eqb_spec s.(root_node) 0), (Z.eqb_spec name 0), (Z.eqb_spec type 0), (Z.eqb_spec base 0); try lia.
  cbn [orb]. apply wp_bind. eapply wp_read; [by apply on_get_vnode|]. apply wp_bind, wp_gets, wp_bind.
  eapply wp_read; [by apply on_get_vnode|]. rewrite Z.eqb_refl. cbn [negb]. apply wp_bind, wp_objs.
  eapply wp_mono; [apply (new_obj_spec _ _ (S k)); [exact Hok|by vm_compute]|].
  cbn beta. intros r [al m] (Hok1 & Hr & Hf & Hm). cbn [objs] in Hm. subst m.
  assert (r <> base) by congruence. apply wp_bind.
  eapply wp_read; [apply on_get_io; cbn; by lk|]. apply wp_bind.
  eapply wp_upd_vnode; [cbn; by lk|]. apply wp_bind, wp_gets, wp_bind, wp_objs_at.
  cbn [fstore alloc objs with_obj set_fstore devices]. rewrite insert_insert_eq.
  set (v := VNode _ _ _ _ _ _ _ _ _ _ _ _ _ _ _ _ _).
  assert (Hl1 : list_rep (<[r := OVnode v]> s.(fstore).(objs)) s.(devices) xs).
  { eapply list_rep_sub; [|exact Hl]. by apply insert_subseteq. }
  eapply wp_mono; [apply (linked_list_append_spec k); [by eapply store_ok_over|exact Hl1|done]|].
  intros nn [al2 m2] (Hok2 & Hl2 & _ & Hu). cbn [objs alloc] in *. rewrite app_nil_r in Hu.
  apply wp_ret. exists nn, v. split; [|done]. split_and!; [exact Hok2| |done| |exact Hl2|done|done|done].
  - split_and!; [|done|done]. intros a o _ Hlf Ha. assert (a <> r) by congruence. cbn.
    rewrite (Hu a); [by lk|exact (leaf_notowned _ _ _ _ _ Hl Hlf Ha)|eexists; by lk].
  - cbn. rewrite (Hu r); [by lk| |eexists; by lk].
    eapply (leaf_notowned _ _ _ _ (OVnode v)); [exact Hl1|done|by lk].
Qed.

(** A device that a driver creates under a name no device has yet is found
    under that name: [create_node_devfs] on the root of the device file system
    returns a fresh node bound to the device, and [find_in_directory_devfs] of
    "/name" then returns the same node. *)
Theorem device_created_found k s nm xs rv dev base type name path c x :
  store_ok (S (S k)) s.(fstore) -> devices_rep s nm xs ->
  s.(fstore).(objs) !! s.(root_node) = Some (OVnode rv) ->
  s.(fstore).(objs) !! base = Some (OIoNode dev) -> 0 < type < 2 ^ 16 -> name <> 0 -> path <> 0 ->
  str_at s name x -> str_at s path (c :: x) -> Forall (fun d => nm d <> x) xs.*2 ->
  wp (r <- create_node_devfs s.(root_node) name type base ;;
      f <- find_in_directory_devfs s.(root_node) path ;; ret (r, f))
     (fun rf s' => rf.1 = rf.2 /\ s.(fstore).(objs) !! rf.1 = None /\ exists v,
        s'.(fstore).(objs) !! rf.1 = Some (OVnode v) /\ v.(v_name) = name /\ v.(v_base_pointer) = base /\
        v.(v_type_flags) = type /\ v.(v_size) = dev.(io_node_size) /\ v.(v_read) = devfs_fn) s.
Proof.
  intros Hok [Hl Hn] Hroot Hbase Hty Hn0 Hp0 Hname Hpath Hno. apply wp_bind.
  eapply wp_mono; [eapply (create_node_devfs_spec k s xs); done|].
  intros r s2 (nn & v & (Hok2 & Hg & Hf & Hrv & Hl2 & Hdl & Hrn & _) & Hv).
  set (nm' := fun d => if decide (d = r) then x else nm d).
  assert (Hnm : forall d, d ∈ xs.*2 -> nm' d = nm d).
  { intros d Hd. unfold nm'. rewrite decide_False; [done|]. intros ->. rewrite Forall_forall in Hn.
    destruct (Hn _ Hd) as (? & Hv' & _). congruence. }
  assert (Hnr : nm' r = x) by (unfold nm'; by rewrite decide_True).
  assert (Hdr : devices_rep s2 nm' (xs ++ [(nn, r)])).
  { split; [by rewrite Hdl|]. rewrite fmap_app. apply Forall_app. split.
    - rewrite Forall_forall in *. intros d Hd. unfold named. rewrite (Hnm d Hd).
      eapply grows_named; [apply no_bytes_nil|exact Hg|apply not_elem_of_nil|]. by apply Hn.
    - apply Forall_singleton. exists v. split; [exact Hrv|]. cbn [snd]. rewrite Hnr.
      destruct Hv as (-> & _). eapply grows_str; [apply no_bytes_nil|exact Hg|done]. }
  assert (Hr0 : s.(root_node) <> 0).
  { intros He. rewrite He in Hroot. pose proof (store_ok_zero _ _ _ (store_eta _ _ Hok)). congruence. }
  apply wp_bind. eapply wp_read.
  { rewrite <- Hrn. apply (find_in_directory_devfs_spec k nm' s2 (xs ++ [(nn, r)]) path c x);
      [exact Hok2|done|done| |by rewrite Hrn].
    apply (grows_str [] s s2); [apply no_bytes_nil|done|done]. }
  apply wp_ret. cbn [fst snd]. rewrite fmap_app. cbn [fmap list_fmap snd].
  rewrite first_named_snoc; [split_and!; [done|done|exists v; naive_solver]| |done].
  rewrite Forall_forall in *. intros d Hd. rewrite (Hnm d Hd). by apply Hno.
Qed.
End proofs.

(** * Reading the RAM disk *)

Section ramdisk_proofs.
Context {A : Type} `{Allocator A}.
Implicit Types (s : fstate A initrd).

(** The bytes a read of [size] bytes at [start] copies. *)
Definition disk_bytes (len start size : Z) : Z := Z.min size (len - start).

(** C38: Reading the RAM disk through the virtual file system, the device file
    system and the driver never leaves the disk, whatever the offset and size:
    a negative size yields -5, an offset behind the end -1, and otherwise
    exactly the bytes from the offset up to the end of the disk or of the
    request arrive in the buffer, and nothing else changes. *)
Theorem ramdisk_read_bounded next s node v dev st len start size buffer :
  s.(fstore).(objs) !! node = Some (OVnode v) -> v.(v_read) = devfs_fn ->
  s.(fstore).(objs) !! v.(v_base_pointer) = Some (OIoNode dev) -> dev.(io_read) = driver_fn INITRD ->
  s.(drivers).(initrd_memory_start) = st -> s.(drivers).(initrd_memory_length) = len ->
  s.(drivers).(initrd_memory_end) = st + len -> 0 < st -> 0 <= len < 2 ^ 31 -> node <> 0 -> buffer <> 0 ->
  - 2 ^ 31 <= start < 2 ^ 31 -> - 2 ^ 31 <= size < 2 ^ 31 ->
  buffer + Z.max 0 size <= st \/ st + len <= buffer ->
  wp (read_from_vfs_node (devfs_file_ops initrd_io_ops next) node start size buffer) (fun r s' =>
    if size <? 0 then r = -5 /\ s' = s
    else if len <? u32 start then r = -1 /\ s' = s
    else r = disk_bytes len (u32 start) size /\ 0 <= r <= size /\ u32 start + r <= len /\
      exists m', s' = set_fmem m' s /\ forall x, rd8 m' x =
        if decide (buffer <= x < buffer + r) then rd8 s.(fmem) (st + u32 start + (x - buffer))
        else rd8 s.(fmem) x) s.
Proof.
  intros Hn Hvr Hd Hdr Hst Hle Hen Hst0 Hlen Hn0 Hb0 Hsa Hsz Hdis. unfold read_from_vfs_node.
  destruct (Z.eqb_spec node 0); [done|]. apply wp_bind. eapply wp_read; [by apply on_get_vnode|].
  rewrite Hvr. cbn [is_null]. destruct (Z.eqb_spec buffer 0); [done|].
  destruct (Z.ltb_spec size 0); [by apply wp_ret|]. cbn [op_read devfs_file_ops]. unfold read_node_devfs.
  destruct (Z.eqb_spec node 0), (Z.eqb_spec buffer 0); try done. cbn [orb]. apply wp_bind.
  eapply wp_read; [by apply on_get_vnode|]. apply wp_bind. eapply wp_read; [by apply on_get_io|].
  rewrite Hdr. cbn [is_null io_op_read initrd_io_ops]. rewrite decide_True by done. unfold initrd_dev_read.
  apply wp_bind, wp_gets. rewrite Hst, Hle, Hen.
  destruct (Z.eqb_spec st 0), (Z.eqb_spec (st + len) 0); try lia. cbn [orb].
  pose proof (u32_range start) as Hu. unfold is_u32 in Hu.
  destruct (Z.ltb_spec len (u32 start)); [by apply wp_ret|].
  rewrite (u32_small size) by lia. rewrite (u32_small (u32 start + size)) by lia.
  apply wp_bind, wp_bytes, wp_modify, wp_ret. unfold disk_bytes.
  assert (Hsize : (if len <? u32 start + size then u32 (len - u32 start) else size)
                  = Z.min size (len - u32 start)).
  { destruct (Z.ltb_spec len (u32 start + size)); [rewrite u32_small by lia|]; lia. }
  rewrite Hsize, i32_small by lia. split_and!; [done|lia|lia|lia|].
  eexists. split; [done|]. intros x. rewrite memcpy_8_rd by lia. done.
Qed.
End ramdisk_proofs.

(** ** A RAM disk of eight bytes *)

#[local] Existing Instance bump_allocator.

Definition RAMDISK : list Z := [114; 97; 109].
Definition disk_node : vnode :=
  VNode (STATIC + 10) 0 8 VFS_NODE_TYPE_CHRD 0 no_fn devfs_fn devfs_fn devfs_fn devfs_fn devfs_fn devfs_fn
        no_fn no_fn no_fn 12 0.
Definition devfs_root : vnode :=
  VNode (STATIC + 30) 0 0 VFS_NODE_TYPE_DIRE 1 devfs_fn no_fn no_fn no_fn no_fn no_fn no_fn
        devfs_fn devfs_fn devfs_fn 10 0.
Definition disk_io : io_node :=
  IoNode 1 2 (STATIC + 10) 8 (driver_fn INITRD) (driver_fn INITRD) (driver_fn INITRD) (driver_fn INITRD)
         (driver_fn INITRD) (driver_fn INITRD) (STATIC + 1000).
Definition demo_disk : fstate bump initrd :=
  FState (Store (bump_at 30 [10; 11; 12; 13; 14; 15])
    (<[10 := OList (LnkLst 14 14 1)]> (<[14 := ONode (DNode 0 0 13)]>
    (<[13 := OVnode disk_node]> (<[12 := OIoNode disk_io]> (<[11 := OVnode devfs_root]>
    (<[15 := OIoNode disk_io]> ∅)))))))
    (put_str (put_str (put_str (put_str (put_str ∅ (STATIC + 10) RAMDISK) (STATIC + 20) DEV)
       (STATIC + 30) (47 :: DEV)) (STATIC + 40) MNT) (STATIC + 1000) [1; 2; 3; 4; 5; 6; 7; 8])
    0 0 0 0 0 0 11 10 1 0 (Initrd (STATIC + 1000) (STATIC + 1008) 8 12 13 1).

Definition no_fops : file_ops bump initrd :=
  FileOps (fun _ _ => fault) (fun _ _ => fault) (fun _ _ _ _ _ => fault) (fun _ _ _ _ _ => fault)
          (fun _ _ _ _ => fault) (fun _ _ => fault).

Lemma ramdisk_read_bounded_witness :
  wp (read_from_vfs_node (devfs_file_ops initrd_io_ops no_fops) 13 6 100 (STATIC + 2000)) (fun r s' =>
    r = 2 /\ 0 <= r <= 100 /\ 6 + r <= 8 /\
      exists m', s' = set_fmem m' demo_disk /\ forall x, rd8 m' x =
        if decide (STATIC + 2000 <= x < STATIC + 2000 + r)
        then rd8 demo_disk.(fmem) (STATIC + 1000 + 6 + (x - (STATIC + 2000)))
        else rd8 demo_disk.(fmem) x) demo_disk.
Proof.
  apply (ramdisk_read_bounded no_fops demo_disk 13 disk_node disk_io (STATIC + 1000) 8 6 100 (STATIC + 2000));
    try done; unfold STATIC; lia.
Defined.

Lemma device_created_found_witness :
  wp (r <- create_node_devfs 11 (STATIC + 20) VFS_NODE_TYPE_CHRD 15 ;;
      f <- find_in_directory_devfs 11 (STATIC + 30) ;; ret (r, f))
     (fun rf s' => rf.1 = rf.2 /\ demo_disk.(fstore).(objs) !! rf.1 = None /\ exists v,
        s'.(fstore).(objs) !! rf.1 = Some (OVnode v) /\ v.(v_name) = STATIC + 20 /\ v.(v_base_pointer) = 15 /\
        v.(v_type_flags) = VFS_NODE_TYPE_CHRD /\ v.(v_size) = 8 /\ v.(v_read) = devfs_fn) demo_disk.
Proof.
  apply (device_created_found 98 demo_disk (fun _ => RAMDISK) [(14, 13)] devfs_root disk_io 15 VFS_NODE_TYPE_CHRD
           (STATIC + 20) (STATIC + 30) 47 DEV); try done.
  - store_by_compute.
  - split.
    + unfold list_rep. split_and!; [done|done|]. apply (bool_decide_unpack _). by vm_compute.
    + apply Forall_singleton. eexists. split; [reflexivity|]. split; [by vm_compute|]. right. by left.
  - split; [by vm_compute|]. right. by left.
  - split; [by vm_compute|]. right. by left.
  - apply Forall_singleton. done.
Defined.
