(* ===== verification/Devices.v ===== *)
(** The registration of device drivers in the device file system: the common
    part of [initialise_serial], [initialise_vga] and [initialise_vesa], and the
    registration of the two displays.

    Each driver fills in an [io_node_t], looks "/dev" up and creates a file there.
    The global that points to the device is assigned right after the allocation;
    nothing reads it before the registration is complete. *)
From stdpp Require Import base numbers gmap list.
From S2P Require Import Prelude Kmem Allocator Store LinkedList GenericTree KString Vga Vesa Fs Vfs VfsSpec VfsMount Devfs.

Section registration.
Context {A D : Type} `{Allocator A}.
Variable dops : dir_ops A D.

(** [dev] is the address of the string "/dev", [name] that of the device's name. *)
Definition register_device (driver name size base dev : Z) : cmd (fstate A D) (Z * Z) :=
  device <- on_objs (new_obj SIZEOF_IO_NODE (OIoNode zero_io)) ;;
  no <- get_device_node_no ;;
  upd_io device (fun _ =>
    IoNode (u32 no) DEVFS_CHAR_DEV name size (driver_fn driver) (driver_fn driver)
           (driver_fn driver) (driver_fn driver) (driver_fn driver) (driver_fn driver) base) ;;;
  devfs <- vfs_find_node dops dev ;;
  file <- create_node_vfs dops devfs name VFS_NODE_TYPE_CHRD device ;;
  ret (device, file).

(** A command of the driver. *)
Definition on_driver {B} (c : cmd D B) : cmd (fstate A D) B :=
  fun s => match c s.(drivers) with
           | Ret (b, d) => Ret (b, set_drivers d s)
           | Fault => Fault
           | Hang => Hang
           end.
End registration.

(** ** The drivers *)

Definition VGA_DRIVER : Z := 2.
Definition WHITE : Z := 0x07.
Definition BLACK : Z := 0x00.
Definition VESA_DRIVER : Z := 4.

Section drivers.
Context {A : Type} `{Allocator A}.

(** [address] is that of the video memory, whose cells are in the state. *)
Definition initialise_vga (dops : dir_ops A vga) (address vga_name dev : Z) : cmd (fstate A vga) unit :=
  r <- register_device dops VGA_DRIVER vga_name (u32 (ROWS * COLS)) address dev ;;
  on_driver (
    modify (fun v => Vga v.(video_memory) v.(colour_setting) r.1 v.(vga_status) v.(vga_ports)) ;;;
    vga_change_colour_settings WHITE BLACK ;;;
    modify (fun v => Vga v.(video_memory) v.(colour_setting) v.(vga_device) 1 v.(vga_ports))).

(** What [initialise_vesa] does once the frame buffer is mapped. *)
Definition register_vesa (dops : dir_ops A vesa) (vesa_name dev : Z) : cmd (fstate A vesa) unit :=
  v <- gets drivers ;;
  r <- register_device dops VESA_DRIVER vesa_name (u32 (v.(lfb_width) * v.(lfb_height))) v.(lfb) dev ;;
  on_driver (modify (set_vesa_device r.1) ;;; modify (set_vesa_status 1)).
End drivers.

(** * A registered device is found *)

Section found.
Context {A D : Type} `{Allocator A}.
Implicit Types (s : fstate A D).

(** More objects and the same bytes: trees and names stay. *)
Lemma named_tree_more s s' nm parent t :
  s.(fstore).(objs) ⊆ s'.(fstore).(objs) -> grows [] s s' -> named_tree s nm parent t -> named_tree s' nm parent t.
Proof.
  intros Hsub Hg (Ht & Hnd & Hn). split_and!; [|done|].
  - eapply tree_rep_sub; [exact Hsub|done].
  - eapply Forall_impl; [exact Hn|]. intros d Hd. eapply grows_named; [apply no_bytes_nil|exact Hg|apply not_elem_of_nil|done].
Qed.

(** A fresh object changes nothing that is there. *)
Lemma fresh_obj_grows al p o s :
  s.(fstore).(objs) !! p = None -> grows [] s (set_fstore (Store al (<[p := o]> s.(fstore).(objs))) s).
Proof. intros Hp. apply grows_objs. intros a o' _ _ Ha. cbn. rewrite lookup_insert_ne by congruence. done. Qed.

Lemma same_files_grows k s s' : same_files k s s' -> grows [] s s'.
Proof. intros (al & m' & -> & _ & Hx). split_and!; [done|exact Hx|done]. Qed.

Lemma devices_rep_more s s' dn xs :
  s.(fstore).(objs) ⊆ s'.(fstore).(objs) -> grows [] s s' -> s'.(devices) = s.(devices) ->
  devices_rep s dn xs -> devices_rep s' dn xs.
Proof.
  intros Hsub Hg Hd [Hl Hn]. split; [rewrite Hd; by eapply list_rep_sub|]. eapply Forall_impl; [exact Hn|]. intros d Hd'.
  eapply grows_named; [apply no_bytes_nil|exact Hg|apply not_elem_of_nil|done].
Qed.

(** "/dev" leads to the root of the device file system, whose devices are [xs]
    under their names [dn]. *)
Record dev_mounted s (nm dn : Z -> list Z) (t : rose) (xs : list (Z * Z)) (dev : Z) (l : list Z) (rv : vnode) : Prop := {
  dm_tree : named_tree s nm 0 t;
  dm_root : s.(vfs_mountpoint_tree) = root t;
  dm_path : str_at s dev (SLASH :: l);
  dm_nonnull : dev <> 0;
  dm_length : Z.of_nat (length l) + 2 <= SMALL;
  dm_found : (found nm t l).2 = [];
  dm_node : found_node nm t l = s.(root_node);
  dm_vnode : s.(fstore).(objs) !! s.(root_node) = Some (OVnode rv);
  dm_create : rv.(v_create) = devfs_fn;
  dm_devices : devices_rep s dn xs
}.

(** What the file [file] of the new device is: a node of the device file system
    bound to [device], which belongs to [driver]. *)
Definition bound s (driver device file : Z) : Prop := exists v io,
  s.(fstore).(objs) !! file = Some (OVnode v) /\ v.(v_base_pointer) = device /\ v.(v_read) = devfs_fn /\ v.(v_write) = devfs_fn /\
  s.(fstore).(objs) !! device = Some (OIoNode io) /\ io.(io_read) = driver_fn driver /\ io.(io_write) = driver_fn driver.

Lemma dev_mounted_more s s' nm dn t xs dev l rv :
  s.(fstore).(objs) ⊆ s'.(fstore).(objs) -> grows [] s s' -> s'.(devices) = s.(devices) -> s'.(root_node) = s.(root_node) ->
  dev_mounted s nm dn t xs dev l rv -> dev_mounted s' nm dn t xs dev l rv.
Proof.
  intros Hsub Hg Hd Hr [H1 H2 H3 H4 H5 H6 H7 H8 H9 H10]. split; try done.
  - by eapply named_tree_more.
  - destruct Hg as (_ & _ & ->). done.
  - eapply grows_str; [apply no_bytes_nil|exact Hg|done].
  - congruence.
  - rewrite Hr. by eapply lookup_weaken.
  - by eapply devices_rep_more.
Qed.

Lemma register_device_spec next k s nm dn t xs dev l rv driver name size base :
  store_ok (S (S (S (S (S k))))) s.(fstore) -> dev_mounted s nm dn t xs dev l rv -> l <> [] -> name <> 0 ->
  wp (register_device (devfs_dir_ops next) driver name size base dev) (fun r s' => exists nn,
    bound s' driver r.1 r.2 /\ list_rep s'.(fstore).(objs) s'.(devices) (xs ++ [(nn, r.2)]) /\
    grows [] s s' /\ store_ok k s'.(fstore) /\ r.2 <> 0 /\ s.(fstore).(objs) !! r.2 = None /\
    (exists v, s'.(fstore).(objs) !! r.2 = Some (OVnode v) /\ v.(v_name) = name) /\
    s'.(root_node) = s.(root_node) /\ s'.(drivers) = s.(drivers)) s.
Proof.
  intros Hok Hdm Hl Hn0. unfold register_device. apply wp_bind, wp_objs_at.
  eapply wp_mono; [apply (new_obj_spec _ _ (S (S (S (S k))))); [by destruct (fstore s)|by vm_compute]|].
  intros device [al m] (Hok1 & Hd0 & Hf & Hm). cbn [objs alloc] in *. subst m.
  apply wp_bind, wp_bind, wp_modify, wp_gets, wp_bind. eapply wp_upd_io; [cbn; by lk|].
  set (io := IoNode _ _ _ _ _ _ _ _ _ _ _). unfold with_obj. cbn [fstore alloc objs set_fstore set_device_node_no]. rewrite insert_insert_eq.
  set (s1 := set_fstore _ _).
  assert (Hsub : s.(fstore).(objs) ⊆ s1.(fstore).(objs)) by by apply insert_subseteq.
  assert (Hg1 : grows [] s s1).
  { split_and!; [|done|done]. intros a o _ _ Ha. cbn. rewrite lookup_insert_ne by congruence. done. }
  assert (Hok1' : store_ok (S (S (S (S k)))) s1.(fstore)) by by eapply store_ok_over.
  pose proof (dev_mounted_more s s1 nm dn t xs dev l rv Hsub Hg1 eq_refl eq_refl Hdm) as Hdm1.
  apply wp_bind. eapply wp_mono; [apply (vfs_find_node_spec _ (S (S k)) s1 nm t dev l); try apply Hdm1; [done|done|left; apply Hdm1]|].
  intros devfs s2 [-> Hsf]. rewrite (dm_node _ _ _ _ _ _ _ _ Hdm1). pose proof (same_files_grows _ _ _ Hsf) as Hg2.
  pose proof Hsf as (al2 & m2 & -> & Hok2 & _). set (s2 := set_fmem m2 _) in *.
  pose proof (dev_mounted_more s1 s2 nm dn t xs dev l rv ltac:(done) Hg2 eq_refl eq_refl Hdm1) as Hdm2.
  apply wp_bind. unfold create_node_vfs.
  change (root_node s1) with (root_node s2). pose proof (dm_vnode _ _ _ _ _ _ _ _ Hdm2) as Hroot.
  assert (root_node s2 <> 0).
  { intros He. rewrite He in Hroot. pose proof (store_ok_zero _ _ _ (store_eta _ _ Hok2)). congruence. }
  destruct (Z.eqb_spec (root_node s2) 0), (Z.eqb_spec name 0), (Z.eqb_spec device 0); try done. cbn [orb Z.eqb VFS_NODE_TYPE_CHRD].
  apply wp_bind. eapply wp_read; [by apply on_get_vnode|]. rewrite (dm_create _ _ _ _ _ _ _ _ Hdm2). cbn [is_null op_create devfs_dir_ops].
  eapply wp_mono; [apply (create_node_devfs_spec k s2 xs rv io device); [done|apply Hdm2|done|cbn; by lk|done|done]|].
  intros file s3 (nn & v & (Hok3 & Hg3 & Hff & Hfv & Hl3 & Hdl & Hrn & Hdr) & Hvn & Hvb & _ & _ & Hvr & Hvw).
  apply wp_ret. exists nn. cbn [fst snd].
  assert (Hg : grows [] s s3) by (eapply grows_trans; [exact Hg1|]; by eapply grows_trans).
  split_and!; [|by rewrite Hdl|done|done| | |by exists v|by rewrite Hrn|by rewrite Hdr].
  - exists v, io. split_and!; try done. apply Hg3; [apply not_elem_of_nil|done|]. cbn. by lk.
  - intros ->. pose proof (store_ok_zero _ _ _ (store_eta _ _ Hok3)). congruence.
  - destruct (s.(fstore).(objs) !! file) eqn:E; [|done]. pose proof (lookup_weaken _ _ _ _ E Hsub). cbn in *. congruence.
Qed.
End found.
