(* ===== verification/Serial.v ===== *)
(** The serial line, [drivers/devices/serial/serial.c].

    The port is polled before each byte is sent or received; what it answers is a
    parameter, a function of the accesses so far.  The file of the device is
    reached through the virtual file system and [Devfs]. *)
From stdpp Require Import base numbers gmap list.
From S2P Require Import Prelude Kmem Allocator Store LinkedList GenericTree KString Fs Vfs VfsSpec VfsMount Devfs Devices.

Definition SERIAL_PORT : Z := 0x3F8.
Definition SERIAL_DRIVER : Z := 5.

Inductive port_access := PIn (port : Z) | POut (port value : Z).

(** The globals of the file; [ser_ports]: the accesses so far, the last first. *)
Record serial := Serial {
  serial_device : Z;
  serial_device_file : Z;
  serial_status : Z;
  serial_initialised : Z;
  ser_ports : list port_access
}.

Section driver.
Context {A : Type} `{Allocator A}.
(** The byte the last access, an input, yields. *)
Variable port : list port_access -> Z.
(** A bound on the number of polls. *)
Variable polls : nat.
#[local] Abbreviation fs := (fstate A serial).

Definition access (a : port_access) : cmd serial unit :=
  modify (fun s => Serial s.(serial_device) s.(serial_device_file) s.(serial_status) s.(serial_initialised) (a :: s.(ser_ports))).
Definition write_port_8 (p v : Z) : cmd serial unit := access (POut p (u8 v)).
Definition read_port_8 (p : Z) : cmd serial Z := access (PIn p) ;;; gets (fun s => u8 (port s.(ser_ports))).

Definition serial_init : cmd serial unit :=
  write_port_8 (SERIAL_PORT + 3) 0x80 ;;;
  write_port_8 (SERIAL_PORT + 0) 0x01 ;;;
  write_port_8 (SERIAL_PORT + 1) 0x00 ;;;
  write_port_8 (SERIAL_PORT + 3) 0x03 ;;;
  write_port_8 (SERIAL_PORT + 2) 0xC7 ;;;
  write_port_8 (SERIAL_PORT + 4) 0x0B ;;;
  modify (fun s => Serial s.(serial_device) s.(serial_device_file) s.(serial_status) 1 s.(ser_ports)).

(** [while((read_port_8(SERIAL_PORT + 5) & mask) == 0);] *)
Fixpoint poll (n : nat) (mask : Z) : cmd serial unit :=
  match n with
  | O => hang
  | S n' => v <- read_port_8 (SERIAL_PORT + 5) ;; if Z.land v mask =? 0 then poll n' mask else ret tt
  end.
Definition check_if_ready : cmd serial Z := poll polls 0x20 ;;; ret 1.
Definition serial_got_something : cmd serial Z := poll polls 1 ;;; ret 1.

Definition serial_send (character : Z) : cmd serial unit :=
  i <- gets serial_initialised ;;
  (when i =? 0 do serial_init) ;;;
  r <- check_if_ready ;;
  when r =? 1 do write_port_8 SERIAL_PORT character.
Definition serial_receive : cmd serial Z :=
  r <- serial_got_something ;;
  if r =? 1 then read_port_8 SERIAL_PORT else ret 0.

Definition serial_dev_open (device : Z) : cmd fs Z := ret 0.
Definition serial_dev_close (device : Z) : cmd fs Z := ret 0.
Definition serial_dev_read (device start_at size buffer : Z) : cmd fs Z :=
  for_ (Z.to_nat (i32 size)) 0 (fun i => c <- on_driver serial_receive ;; on_bytes (poke (buffer + i) c)) ;;;
  ret (i32 size).
Definition serial_dev_write (device start_at size buffer : Z) : cmd fs Z :=
  for_ (Z.to_nat (i32 size)) 0 (fun i => c <- on_bytes (peek (buffer + i)) ;; on_driver (serial_send c)) ;;;
  ret (i32 size).
Definition serial_dev_control (device command arguments : Z) : cmd fs Z := ret 0.
Definition serial_dev_status (device : Z) : cmd fs Z :=
  r <- gets drivers ;;
  ret (if device =? r.(serial_device) then u32 r.(serial_status) else 0xFFFFFFFF).

Definition serial_io_ops : io_ops A serial := IoOps
  (fun f d => if decide (f = driver_fn SERIAL_DRIVER) then serial_dev_open d else fault)
  (fun f d => if decide (f = driver_fn SERIAL_DRIVER) then serial_dev_close d else fault)
  (fun f d a sz b => if decide (f = driver_fn SERIAL_DRIVER) then serial_dev_read d a sz b else fault)
  (fun f d a sz b => if decide (f = driver_fn SERIAL_DRIVER) then serial_dev_write d a sz b else fault)
  (fun f d c a => if decide (f = driver_fn SERIAL_DRIVER) then serial_dev_control d c a else fault)
  (fun f d => if decide (f = driver_fn SERIAL_DRIVER) then serial_dev_status d else fault).

(** [ser] and [dev] are the addresses of the strings "ser" and "/dev". *)
Definition initialise_serial (dops : dir_ops A serial) (ser dev : Z) : cmd fs unit :=
  r <- register_device dops SERIAL_DRIVER ser 0 0 dev ;;
  on_driver (modify (fun s => Serial r.1 r.2 1 s.(serial_initialised) s.(ser_ports))).
End driver.

(** * What is sent *)

(** The writes among the accesses, in order. *)
Fixpoint outs (t : list port_access) : list (Z * Z) :=
  match t with [] => [] | PIn _ :: t' => outs t' | POut p v :: t' => outs t' ++ [(p, v)] end.
(** How the line is set up: divisor 1, eight bits, no parity, the queues cleared. *)
Definition set_up : list (Z * Z) :=
  [(SERIAL_PORT + 3, 0x80); (SERIAL_PORT, 0x01); (SERIAL_PORT + 1, 0x00); (SERIAL_PORT + 3, 0x03);
   (SERIAL_PORT + 2, 0xC7); (SERIAL_PORT + 4, 0x0B)].
(** Before the first byte the line is set up. *)
Definition opening (initialised : Z) : list (Z * Z) := if initialised =? 0 then set_up else [].

(** The line accepts a byte after fewer than [polls] polls, whatever happened before. *)
Definition accepts (port : list port_access -> Z) (polls : nat) : Prop := forall t, exists k, (k < polls)%nat /\
  Z.land (u8 (port (replicate (S k) (PIn (SERIAL_PORT + 5)) ++ t))) 0x20 <> 0.

Section sent.
Context {A : Type} `{Allocator A}.
Variable port : list port_access -> Z.
Variable polls : nat.
Hypothesis line_accepts : accepts port polls.

Lemma poll_outs n k (s : serial) : (k < n)%nat ->
  Z.land (u8 (port (replicate (S k) (PIn (SERIAL_PORT + 5)) ++ s.(ser_ports)))) 0x20 <> 0 ->
  exists j, poll port n 0x20 s = Ret (tt, Serial s.(serial_device) s.(serial_device_file) s.(serial_status) s.(serial_initialised)
    (replicate j (PIn (SERIAL_PORT + 5)) ++ s.(ser_ports))).
Proof.
  revert k s. induction n as [|n IH]; intros k s Hk Hv; [lia|]. cbn [poll]. unfold bind, read_port_8, access, modify, gets, bind. cbn [ser_ports].
  destruct (Z.eqb_spec (Z.land (u8 (port (PIn (SERIAL_PORT + 5) :: ser_ports s))) 0x20) 0) as [E|E]; [|exists 1%nat; done].
  destruct k as [|k]; [done|]. destruct (IH k (Serial s.(serial_device) s.(serial_device_file) s.(serial_status) s.(serial_initialised) (PIn (SERIAL_PORT + 5) :: ser_ports s)))
    as [j Hj]; [lia|cbn [ser_ports]; change (_ :: ser_ports s) with ([PIn (SERIAL_PORT + 5)] ++ ser_ports s); rewrite app_assoc|].
  - change [PIn (SERIAL_PORT + 5)] with (replicate 1 (PIn (SERIAL_PORT + 5))). rewrite <- replicate_add. by replace (S k + 1)%nat with (S (S k)) by lia.
  - exists (S j). rewrite Hj. cbn [serial_device serial_device_file serial_status serial_initialised ser_ports]. do 2 f_equal. f_equal.
    change (_ :: ser_ports s) with ([PIn (SERIAL_PORT + 5)] ++ ser_ports s). rewrite app_assoc.
    change [PIn (SERIAL_PORT + 5)] with (replicate 1 (PIn (SERIAL_PORT + 5))). rewrite <- replicate_add. by replace (j + 1)%nat with (S j) by lia.
Qed.

Lemma outs_polls j t : outs (replicate j (PIn (SERIAL_PORT + 5)) ++ t) = outs t.
Proof. by induction j. Qed.

(** Only the port accesses and the flag change. *)
Definition driven (s : serial) (i : Z) (o : list (Z * Z)) (s' : serial) : Prop :=
  s'.(serial_device) = s.(serial_device) /\ s'.(serial_device_file) = s.(serial_device_file) /\
  s'.(serial_status) = s.(serial_status) /\ s'.(serial_initialised) = i /\ outs s'.(ser_ports) = outs s.(ser_ports) ++ o.

Lemma serial_send_spec c (s : serial) :
  wp (serial_send port polls c) (fun _ s' => exists i, i <> 0 /\
    driven s i (opening s.(serial_initialised) ++ [(SERIAL_PORT, u8 c)]) s') s.
Proof.
  unfold serial_send. apply wp_bind, wp_gets.
  assert (Hrest : forall s1, wp (r <- check_if_ready port polls ;; when r =? 1 do write_port_8 SERIAL_PORT c)
    (fun _ => driven s1 s1.(serial_initialised) [(SERIAL_PORT, u8 c)]) s1).
  { intros s1. destruct (line_accepts s1.(ser_ports)) as (k & Hk & Hv). destruct (poll_outs polls k s1 Hk Hv) as [j Hj].
    apply wp_bind, wp_bind. eapply wp_Ret; [exact Hj|]. apply wp_ret. cbn [Z.eqb Pos.eqb]. apply wp_modify.
    split_and!; try done. cbn [ser_ports outs]. by rewrite outs_polls. }
  apply wp_bind. unfold opening. destruct (Z.eqb_spec (serial_initialised s) 0) as [E|E].
  - do 6 (apply wp_bind, wp_modify). apply wp_modify. eapply wp_mono; [apply Hrest|].
    intros _ s' (H1 & H2 & H3 & H4 & H5). exists 1. split; [done|]. split_and!; [by rewrite H1|by rewrite H2|by rewrite H3|by rewrite H4|].
    rewrite H5. cbn [ser_ports outs]. rewrite <- !app_assoc. done.
  - apply wp_ret. eapply wp_mono; [apply Hrest|]. intros [] s' Hdr. exists (serial_initialised s). split; [done|]. exact Hdr.
Qed.

(** The bytes of a buffer, each written to the data port. *)
Definition line_bytes (m : mem) (buffer : Z) (n : nat) : list (Z * Z) :=
  (fun k => (SERIAL_PORT, rd8 m (buffer + Z.of_nat k))) <$> seq 0 n.
Definition transmission (i : Z) (m : mem) (buffer : Z) (n : nat) : list (Z * Z) :=
  (if decide (n = 0)%nat then [] else opening i) ++ line_bytes m buffer n.

Lemma line_bytes_S m buffer n : line_bytes m buffer (S n) = line_bytes m buffer n ++ [(SERIAL_PORT, rd8 m (buffer + Z.of_nat n))].
Proof. unfold line_bytes. by rewrite seq_S, fmap_app. Qed.

Lemma transmission_S i m buffer n :
  transmission i m buffer (S n) =
  transmission i m buffer n ++ (if decide (n = 0)%nat then opening i else []) ++ [(SERIAL_PORT, rd8 m (buffer + Z.of_nat n))].
Proof.
  unfold transmission. rewrite line_bytes_S, decide_False by lia. destruct (decide (n = 0)%nat) as [->|]; [done|].
  by rewrite app_nil_l, !app_assoc.
Qed.

Lemma wp_on_driver {B} (c : cmd serial B) Q (s : fstate A serial) :
  wp c (fun b d => Q b (set_drivers d s)) s.(drivers) -> wp (on_driver c) Q s.
Proof. unfold wp, on_driver. by destruct (c s.(drivers)) as [[b d]| |]. Qed.

(** After [n] bytes of the buffer. *)
Definition transmitted (s : fstate A serial) (buffer : Z) (n : nat) (s' : fstate A serial) : Prop :=
  exists d i, s' = set_drivers d s /\ (i = 0 -> s.(drivers).(serial_initialised) = 0 /\ n = 0%nat) /\
    (n = 0%nat -> i = s.(drivers).(serial_initialised)) /\
    driven s.(drivers) i (transmission s.(drivers).(serial_initialised) s.(fmem) buffer n) d.

Lemma serial_dev_write_spec device start size buffer (s : fstate A serial) :
  0 <= size < 2 ^ 31 ->
  wp (serial_dev_write port polls device start size buffer) (fun r s' => r = size /\ transmitted s buffer (Z.to_nat size) s') s.
Proof.
  intros Hs. unfold serial_dev_write. rewrite i32_small by lia. apply wp_bind.
  eapply wp_mono; [apply (wp_for (fun j => transmitted s buffer (Z.to_nat j)) _ (Z.to_nat size) 0)|].
  - exists s.(drivers), s.(drivers).(serial_initialised). split_and!; try done; [by destruct s|]. split_and!; try done. change (transmission _ _ _ _) with (@nil (Z * Z)). by rewrite app_nil_r.
  - intros j s1 Hj (d & i & -> & Hi & Hi0 & Hd). cbn [Z.add] in Hj. apply wp_bind, wp_bytes, wp_gets. cbn [fmem set_drivers].
    replace (set_fmem _ _) with (set_drivers d s) by by destruct s. apply wp_on_driver. cbn [drivers set_drivers].
    eapply wp_mono; [apply serial_send_spec|]. intros _ d' (i' & Hi' & H1 & H2 & H3 & H4 & H5). exists d', i'.
    destruct Hd as (E1 & E2 & E3 & E4 & E5). replace (Z.to_nat (j + 1)) with (S (Z.to_nat j)) by lia.
    split_and!; [by destruct s|done|lia|]. split_and!; [by rewrite H1|by rewrite H2|by rewrite H3|done|].
    rewrite H5, E5, E4, transmission_S, <- app_assoc, Z2Nat.id by lia. rewrite (u8_small (rd8 _ _)) by apply rd8_range.
    do 2 f_equal. destruct (decide (Z.to_nat j = 0%nat)) as [E|E]; [by rewrite (Hi0 E)|]. cbn [app]. unfold opening.
    destruct (Z.eqb_spec i 0); [naive_solver|done].
  - intros [] s' Hs'. apply wp_ret. split; [done|]. by rewrite Z.add_0_l, Z2Nat.id in Hs' by lia.
Qed.

Lemma transmission_ext i m m' buffer n :
  (forall k, (k < n)%nat -> rd8 m' (buffer + Z.of_nat k) = rd8 m (buffer + Z.of_nat k)) -> transmission i m' buffer n = transmission i m buffer n.
Proof.
  intros Hx. unfold transmission, line_bytes. f_equal. apply list_fmap_ext. intros j k Hk. f_equal. apply Hx.
  apply lookup_seq in Hk. lia.
Qed.

(** Writing through the file system reaches the driver. *)
Lemma serial_write_vfs fnext (s : fstate A serial) device file start size buffer :
  bound s SERIAL_DRIVER device file -> file <> 0 -> buffer <> 0 -> 0 <= size < 2 ^ 31 ->
  wp (write_to_vfs_node (devfs_file_ops (serial_io_ops port polls) fnext) file start size buffer)
     (fun r s' => r = size /\ transmitted s buffer (Z.to_nat size) s') s.
Proof.
  intros (v & io & Hv & Hb & _ & Hw & Hio & _ & Hiw) Hf Hbuf Hs. unfold write_to_vfs_node.
  destruct (Z.eqb_spec file 0); [done|]. apply wp_bind. eapply wp_read; [by apply on_get_vnode|]. rewrite Hw. cbn [is_null].
  destruct (Z.eqb_spec buffer 0); [done|]. destruct (Z.ltb_spec size 0); [lia|]. cbn [op_write devfs_file_ops]. unfold write_node_devfs.
  destruct (Z.eqb_spec file 0), (Z.eqb_spec buffer 0); try done. cbn [orb]. apply wp_bind. eapply wp_read; [by apply on_get_vnode|].
  apply wp_bind. rewrite Hb. eapply wp_read; [by apply on_get_io|]. rewrite Hiw. cbn [is_null io_op_write serial_io_ops].
  rewrite decide_True, (u32_small size) by (done || lia). by apply serial_dev_write_spec.
Qed.

(** C11: what a program writes to the file of the serial line goes out on the
    line.  After [initialise_serial], on any mount tree in which "/dev" leads to
    the device file system, writing [size] bytes to the new file returns [size],
    and the port has received the set-up of the line, if it was not set up yet
    and there is a byte to send, and then the bytes of the buffer in order. *)
Theorem serial_file_writes next fnext k (s : fstate A serial) nm dn t xs dev l rv ser start size buffer :
  store_ok (S (S (S (S (S k))))) s.(fstore) -> dev_mounted s nm dn t xs dev l rv -> l <> [] -> ser <> 0 -> buffer <> 0 ->
  0 <= size < 2 ^ 31 -> owned_range s.(fstore).(objs) buffer size ->
  wp (initialise_serial (devfs_dir_ops next) ser dev ;;;
      file <- gets (fun s => s.(drivers).(serial_device_file)) ;;
      write_to_vfs_node (devfs_file_ops (serial_io_ops port polls) fnext) file start size buffer)
     (fun r s' => r = size /\ s'.(drivers).(serial_status) = 1 /\
        outs s'.(drivers).(ser_ports) = outs s.(drivers).(ser_ports) ++
          transmission s.(drivers).(serial_initialised) s.(fmem) buffer (Z.to_nat size)) s.
Proof.
  intros Hok Hdm Hl Hser Hbuf Hs Hown. apply wp_bind, wp_bind.
  eapply wp_mono; [by apply (register_device_spec next k s nm dn t xs dev l rv)|].
  intros [device file] s1 (nn & (v & io & Hv & Hb) & _ & Hg & _ & Hf & _ & _ & _ & Hdr). cbn [fst snd] in *.
  apply wp_on_driver, wp_modify, wp_bind, wp_gets. rewrite Hdr. cbn [serial_device_file drivers set_drivers].
  eapply wp_mono; [apply (serial_write_vfs fnext _ device); [by exists v, io|done|done|done]|].
  intros r s' (-> & d & i & -> & _ & _ & _ & _ & H3 & _ & H5). cbn [drivers set_drivers serial_status serial_initialised ser_ports fmem] in *.
  split; [done|]. split; [done|]. rewrite H5. f_equal. apply transmission_ext. intros j Hj.
  destruct Hg as (_ & Hk & _). apply (Hk buffer size); [done|lia].
Qed.
End sent.

(** ** A file system with "/dev" *)

#[local] Existing Instance bump_allocator.

Definition SER : list Z := [115; 101; 114].
(** The mount tree: the root and, below it, the device file system. *)
Definition demo_serial : fstate bump serial :=
  FState (Store (bump_at 40 [1; 2; 3; 4; 5; 10; 11; 20])
    (<[1 := OTree (GenTree 20 2 0)]> (<[2 := OList (LnkLst 3 3 1)]> (<[3 := ONode (DNode 0 0 4)]>
    (<[4 := OTree (GenTree 11 5 1)]> (<[5 := OList (LnkLst 0 0 0)]> (<[10 := OList (LnkLst 0 0 0)]>
    (<[11 := OVnode devfs_root]> (<[20 := OVnode (stub_node (STATIC + 50) 1)]> ∅)))))))))
    (put_str (put_str (put_str (put_str (put_str ∅ (STATIC + 10) SER) (STATIC + 20) (47 :: DEV))
       (STATIC + 30) DEV) (STATIC + 50) [47]) (STATIC + 60) [104; 105])
    20 1 0 0 0 1 11 10 1 1 (Serial 0 0 0 0 []).
Definition serial_names (d : Z) : list Z := if d =? 11 then DEV else [47].
Definition serial_mounts : rose := Rose 1 20 2 [(3, Rose 4 11 5 [])].

Lemma demo_serial_ok : store_ok 100 demo_serial.(fstore).
Proof. store_by_compute. Qed.

Lemma demo_serial_str p l : 2 ^ 29 <= p -> cstr demo_serial.(fmem) p l -> str_at demo_serial p l.
Proof. intros Hp Hc. split; [done|]. right. by left. Qed.

Lemma demo_serial_mounted : dev_mounted demo_serial serial_names (fun _ => []) serial_mounts [] (STATIC + 20) DEV devfs_root.
Proof.
  split; try done.
  - split_and!.
    + cbn [tree_rep serial_mounts snd]. unfold list_rep.
      split_and!; first [done | by vm_compute | apply (bool_decide_unpack _); by vm_compute].
    + apply (bool_decide_unpack _). by vm_compute.
    + repeat constructor; (eexists; split; [reflexivity|apply demo_serial_str; [done|by vm_compute]]).
  - apply demo_serial_str; [done|by vm_compute].
  - split; [|constructor]. split_and!; [by vm_compute|done|constructor].
Qed.

(** A line that always accepts a byte. *)
Definition demo_line (t : list port_access) : Z := 0x20.

Lemma demo_line_accepts : accepts demo_line 1.
Proof. intros t. exists 0%nat. split; [lia|done]. Qed.

Definition no_serial_dops : dir_ops bump serial :=
  DirOps (fun _ _ _ _ _ => fault) (fun _ _ _ => fault) (fun _ _ _ => fault) (fun _ _ => fault).
Definition no_serial_fops : file_ops bump serial :=
  FileOps (fun _ _ => fault) (fun _ _ => fault) (fun _ _ _ _ _ => fault) (fun _ _ _ _ _ => fault)
          (fun _ _ _ _ => fault) (fun _ _ => fault).

Lemma serial_file_writes_witness :
  wp (initialise_serial (devfs_dir_ops no_serial_dops) (STATIC + 10) (STATIC + 20) ;;;
      file <- gets (fun s => s.(drivers).(serial_device_file)) ;;
      write_to_vfs_node (devfs_file_ops (serial_io_ops demo_line 1) no_serial_fops) file 0 2 (STATIC + 60))
     (fun r s' => r = 2 /\ s'.(drivers).(serial_status) = 1 /\
        outs s'.(drivers).(ser_ports) = set_up ++ [(SERIAL_PORT, 104); (SERIAL_PORT, 105)]) demo_serial.
Proof.
  apply (serial_file_writes demo_line 1 demo_line_accepts no_serial_dops no_serial_fops 95 demo_serial serial_names (fun _ => [])
    serial_mounts [] (STATIC + 20) DEV devfs_root (STATIC + 10) 0 2 (STATIC + 60) demo_serial_ok demo_serial_mounted); try done; try lia.
  right. by left.
Defined.
