(* ===== verification/Tarfs.v ===== *)
(** [drivers/tarfs/tarfs.c]: the read-only file system on a tar archive in
    memory.  A header is 512 bytes in byte memory; nodes are made on demand from
    the headers found. *)
From stdpp Require Import base numbers gmap list.
From S2P Require Import Prelude Kmem Allocator Store LinkedList KString Fs Vfs.

Definition TARFS_HDR_SIZE : Z := 512.
(** Offsets of the fields of [tarfs_hdr_t]. *)
Definition HDR_SIZE : Z := 124.
Definition HDR_TYPEFLAG : Z := 156.
Definition HDR_MAGIC : Z := 257.

(** [flag] is a [char]: 48 is '0'. *)
Definition get_type_flags (flag : Z) : Z :=
  if flag =? 48 then VFS_NODE_TYPE_FILE
  else if flag =? 0 then VFS_NODE_TYPE_FILE
  else if flag =? 49 then VFS_NODE_TYPE_SLNK
  else if flag =? 50 then VFS_NODE_TYPE_SLNK
  else if flag =? 51 then VFS_NODE_TYPE_CHRD
  else if flag =? 52 then VFS_NODE_TYPE_BLKD
  else if flag =? 53 then VFS_NODE_TYPE_DIRE
  else if flag =? 54 then VFS_NODE_TYPE_FIFO
  else 0.

(** [for(int i = 0; i<12; i++)] *)
Fixpoint file_size_loop (n : nat) (size i file_size : Z) : cmd mem Z :=
  match n with
  | O => ret file_size
  | S n' =>
      c <- peek (size + i) ;;
      if (c =? 0) || (c =? 32) then file_size_loop n' size (i + 1) file_size
      else file_size_loop n' size (i + 1) (u32 (u32 (file_size * 8) + (schar c - 48)))
  end.
Definition get_file_size_tarfs (size : Z) : cmd mem Z := file_size_loop 12 size 0 0.

(** [for(int k = 0; k < (int) strlen(name); k++) hdr->name[k] = name[k];] *)
Fixpoint copy_name (fuel : nat) (hdr name k : Z) : cmd mem unit :=
  match fuel with
  | O => hang
  | S fuel' =>
      n <- strlen name ;;
      if k <? i32 n then
        c <- peek (name + k) ;;
        poke (hdr + k) c ;;;
        copy_name fuel' hdr name (k + 1)
      else ret tt
  end.

Section operations.
Context {A D : Type} `{Allocator A}.
#[local] Abbreviation fs := (fstate A D).

Definition open_node_tarfs (vfs_node : Z) : cmd fs Z := ret 0.
Definition close_node_tarfs (vfs_node : Z) : cmd fs Z := ret 0.
Definition write_node_tarfs (vfs_node start_at size buffer : Z) : cmd fs Z := ret 0.

Definition read_node_tarfs (vfs_node start_at size buffer : Z) : cmd fs Z :=
  v <- on_objs (get_vnode vfs_node) ;;
  if v.(v_base_pointer) =? 0 then ret (-1)
  else
    let node_size := v.(v_size) in
    if negb (v.(v_type_flags) =? VFS_NODE_TYPE_DIRE) && ((node_size <=? start_at) || (i32 start_at <? 0))
    then ret (-1)
    else
      let len := if u32 (node_size - 1) <? u32 (start_at + size) then u32 (node_size - start_at) else size in
      on_bytes (modify (fun m => memcpy_8 m buffer (v.(v_base_pointer) + start_at) len)) ;;;
      ret (i32 len).

(** [file] is the header and the address of the contents. *)
Definition build_node_tarfs (header contents : Z) : cmd fs Z :=
  node <- on_objs (new_obj SIZEOF_VNODE (OVnode zero_vnode)) ;;
  size <- on_bytes (get_file_size_tarfs (header + HDR_SIZE)) ;;
  flag <- on_bytes (peek (header + HDR_TYPEFLAG)) ;;
  upd_vnode node (fun v =>
    VNode header v.(v_node_no) size (get_type_flags flag) v.(v_specific_type) v.(v_create) tarfs_fn tarfs_fn
          tarfs_fn tarfs_fn v.(v_control) v.(v_status) tarfs_fn tarfs_fn tarfs_fn contents v.(v_tree_pointer)) ;;;
  ret node.

Definition check_parse_filename (hdr parent : Z) : cmd fs Z :=
  if hdr =? 0 then ret (-1)
  else
    c0 <- on_bytes (peek hdr) ;;
    if c0 =? 0 then ret (-1)
    else
      let path := hdr + 1 in
      path_len <- on_bytes (strlen path) ;;
      c <- on_bytes (peek path) ;;
      p <- on_objs (get_vnode parent) ;;
      if (path_len =? 1) && (c =? 47) then
        on_bytes (modify (fun m => memset_8 m hdr 0 100)) ;;;
        fuel <- gets (fun s => str_fuel s.(fmem)) ;;
        on_bytes (copy_name fuel hdr p.(v_name) 0) ;;;
        ret 1
      else
        last <- on_bytes (peek (path + (path_len - 1))) ;;
        (when last =? 47 do on_bytes (poke (path + (path_len - 1)) 0)) ;;;
        parent_name_len <- on_bytes (strlen p.(v_name)) ;;
        occ <- on_bytes (strstr path p.(v_name)) ;;
        if occ =? 0 then ret (-1)
        else
          child_name <- on_bytes (strrchr path 47) ;;
          let occ := occ + parent_name_len in
          pc <- on_bytes (peek p.(v_name)) ;;
          let occ := if (parent_name_len =? 1) && (pc =? 47) then occ - 1 else occ in
          n <- on_bytes (strlen child_name) ;;
          r <- on_bytes (strncmp occ child_name n) ;;
          if r =? 0 then
            dup <- strdup (child_name + 1) ;;
            on_bytes (modify (fun m => memset_8 m hdr 0 100)) ;;;
            fuel <- gets (fun s => str_fuel s.(fmem)) ;;
            on_bytes (copy_name fuel hdr dup 0) ;;;
            free_bytes dup ;;;
            ret 0
          else ret (-1).

(** [address] rounded up to a whole header. *)
Definition header_aligned (address : Z) : Z :=
  let rem := address mod TARFS_HDR_SIZE in
  if rem =? 0 then address else u32 (address + (TARFS_HDR_SIZE - rem)).

(** The address of the contents of the entry at [address]. *)
Definition contents_at (base address size : Z) : Z :=
  if 0 <? size then u32 (base + u32 (address + TARFS_HDR_SIZE)) else base.

Section directories.
(** The operations of the virtual file system on file nodes, and the address of
    the string "ustar  ". *)
Variables (fops : file_ops A D) (magic : Z).

(** What the loop of [read_directory_tarfs] ends with. *)
Inductive dir_entry := EntryParent | EntryFile (contents : Z) | EntryNone.

(** [while(1)]: every entry has a header of its own in memory, which bounds the
    rounds of a search that ends. *)
Fixpoint read_directory_loop (fuel : nat) (vfs_node entry_no header address current_entry : Z)
    : cmd fs dir_entry :=
  match fuel with
  | O => hang
  | S fuel' =>
      let address := header_aligned address in
      read_from_vfs_node fops vfs_node (i32 address) TARFS_HDR_SIZE header ;;;
      size <- on_bytes (get_file_size_tarfs (header + HDR_SIZE)) ;;
      c <- on_bytes (strcmp (header + HDR_MAGIC) magic) ;;
      if c =? 0 then
        is_child <- check_parse_filename header vfs_node ;;
        if (is_child =? 1) && (entry_no =? 0) && (current_entry =? 0) then ret EntryParent
        else if (is_child =? 0) && (current_entry =? entry_no) then
          v <- on_objs (get_vnode vfs_node) ;;
          ret (EntryFile (contents_at v.(v_base_pointer) address size))
        else
          let current_entry := if negb (is_child =? -1) then i32 (current_entry + 1) else current_entry in
          read_directory_loop fuel' vfs_node entry_no header (u32 (address + u32 (TARFS_HDR_SIZE + size)))
            current_entry
      else ret EntryNone
  end.

(** [file] is allocated for the header and the contents and freed again.  When
    nothing is found the code frees the header and the NULL [file]. *)
Definition read_directory_tarfs (vfs_node entry_no : Z) : cmd fs Z :=
  if (vfs_node =? 0) || (entry_no <? 0) then ret 0
  else
    v <- on_objs (get_vnode vfs_node) ;;
    if negb (v.(v_type_flags) =? VFS_NODE_TYPE_DIRE) then ret 0
    else
      header <- new_bytes TARFS_HDR_SIZE ;;
      fuel <- gets (fun s => str_fuel s.(fmem)) ;;
      e <- read_directory_loop fuel vfs_node entry_no header 0 0 ;;
      match e with
      | EntryParent => free_bytes header ;;; ret vfs_node
      | EntryFile contents =>
          file <- on_objs (new_obj 8 (OWords [header; contents])) ;;
          node <- build_node_tarfs header contents ;;
          on_objs (free_obj file) ;;;
          ret node
      | EntryNone => free_bytes header ;;; on_objs (free_obj 0) ;;; ret 0
      end.

(** Where the segment that starts behind a slash ends, and its length. *)
Fixpoint chunk_end (fuel : nat) (tmp2 chunk_len : Z) : cmd mem (Z * Z) :=
  match fuel with
  | O => hang
  | S fuel' =>
      c <- peek tmp2 ;;
      if negb (c =? 0) && negb (c =? 47) then chunk_end fuel' (tmp2 + 1) (chunk_len + 1)
      else ret (tmp2, chunk_len)
  end.

(** The search for the entry called [tmp]: the address of its contents. *)
Fixpoint find_entry_loop (fuel : nat) (vfs_node tmp header address : Z) : cmd fs (option Z) :=
  match fuel with
  | O => hang
  | S fuel' =>
      let address := header_aligned address in
      read_from_vfs_node fops vfs_node (i32 address) TARFS_HDR_SIZE header ;;;
      size <- on_bytes (get_file_size_tarfs (header + HDR_SIZE)) ;;
      c <- on_bytes (strcmp (header + HDR_MAGIC) magic) ;;
      if c =? 0 then
        is_child <- check_parse_filename header vfs_node ;;
        same <- (if is_child =? 0 then on_bytes (strcmp header tmp) else ret 1) ;;
        if (is_child =? 0) && (same =? 0) then
          v <- on_objs (get_vnode vfs_node) ;;
          ret (Some (contents_at v.(v_base_pointer) address size))
        else find_entry_loop fuel' vfs_node tmp header (u32 (address + u32 (TARFS_HDR_SIZE + size)))
      else ret None
  end.

(** The recursion follows the path; each level consumes a segment. *)
Fixpoint find_in_directory_tarfs_internal (fuel : nat) (vfs_node path filename : Z) : cmd fs Z :=
  match fuel with
  | O => hang
  | S fuel' =>
      if (path =? 0) || (filename =? 0) then ret vfs_node
      else
        n <- on_bytes (strlen path) ;;
        tmp <- new_bytes (n + 1) ;;
        lf <- gets (fun s => str_fuel s.(fmem)) ;;
        r <- on_bytes (chunk_end lf (path + 1) 0) ;;
        let '(tmp2, chunk_len) := r in
        on_bytes (strncpy tmp path chunk_len) ;;;
        header <- new_bytes TARFS_HDR_SIZE ;;
        lf <- gets (fun s => str_fuel s.(fmem)) ;;
        e <- find_entry_loop lf vfs_node (tmp + 1) header 0 ;;
        match e with
        | Some contents =>
            file <- on_objs (new_obj 8 (OWords [header; contents])) ;;
            node <- build_node_tarfs header contents ;;
            on_objs (free_obj file) ;;;
            v <- on_objs (get_vnode node) ;;
            c <- on_bytes (strcmp v.(v_name) filename) ;;
            if c =? 0 then ret node
            else
              n <- on_bytes (strlen path) ;;
              if n <? 1 then find_in_directory_tarfs_internal fuel' node 0 0
              else find_in_directory_tarfs_internal fuel' node tmp2 filename
        | None => free_bytes header ;;; on_objs (free_obj 0) ;;; ret 0
        end
  end.

Definition find_in_directory_tarfs (vfs_node path : Z) : cmd fs Z :=
  if (vfs_node =? 0) || (path =? 0) then ret 0
  else
    c <- on_bytes (peek path) ;;
    if negb (c =? 47) then ret 0
    else
      n <- on_bytes (strlen path) ;;
      if n =? 1 then ret vfs_node
      else
        filename <- on_bytes (strrchr path 47) ;;
        fuel <- gets (fun s => str_fuel s.(fmem)) ;;
        find_in_directory_tarfs_internal fuel vfs_node path (filename + 1).

(** [while((tmpnode = read_directory_tarfs(vfs_node, i)))] *)
Fixpoint list_loop (fuel : nat) (vfs_node nodes_list i : Z) : cmd fs unit :=
  match fuel with
  | O => hang
  | S fuel' =>
      tmpnode <- read_directory_tarfs vfs_node i ;;
      if tmpnode =? 0 then ret tt
      else on_objs (linked_list_append nodes_list tmpnode) ;;; list_loop fuel' vfs_node nodes_list (i + 1)
  end.
Definition list_directory_tarfs (vfs_node : Z) : cmd fs Z :=
  if vfs_node =? 0 then ret 0
  else
    nodes_list <- on_objs linked_list_create ;;
    fuel <- gets (fun s => str_fuel s.(fmem)) ;;
    list_loop fuel vfs_node nodes_list 1 ;;;
    l <- on_objs (get_list nodes_list) ;;
    nodes <- on_objs (new_obj (4 * l.(list_length) + 4)
               (OWords (replicate (Z.to_nat (l.(list_length) + 1)) 0))) ;;
    fuel <- gets (fun s => chain_fuel s.(fstore)) ;;
    on_objs (fill_words fuel l.(list_head) nodes 0) ;;;
    on_objs (linked_list_destroy nodes_list) ;;;
    ret nodes.
End directories.

Definition mount_tarfs (device mountpoint : Z) : cmd fs Z :=
  node <- on_objs (new_obj SIZEOF_VNODE (OVnode zero_vnode)) ;;
  no <- get_node_no ;;
  d <- on_objs (get_vnode device) ;;
  dev <- on_objs (get_io d.(v_base_pointer)) ;;
  upd_vnode node (fun v =>
    VNode mountpoint (u32 no) d.(v_size) VFS_NODE_TYPE_DIRE v.(v_specific_type) v.(v_create) tarfs_fn tarfs_fn
          tarfs_fn tarfs_fn v.(v_control) v.(v_status) tarfs_fn tarfs_fn tarfs_fn dev.(io_base_pointer)
          v.(v_tree_pointer)) ;;;
  mount_in_vfs node mountpoint.

Definition create_tarfs_filesystem (dops : dir_ops A D) (literal device mountpoint : Z) : cmd fs Z :=
  id <- get_filesystem_id literal ;;
  if (device =? 0) || (mountpoint =? 0) || (id =? 0) then ret 0
  else
    register_filesystem_in_vfs id tarfs_fn ;;;
    mount_filesystem_in_vfs dops
      (fun f d mp => match f with tarfs_fn => mount_tarfs d mp | _ => fault end) id mountpoint device.

(** The calls of the virtual file system that belong to this file system. *)
Definition tarfs_file_ops (next : file_ops A D) : file_ops A D := FileOps
  (fun f n => match f with tarfs_fn => open_node_tarfs n | _ => op_open next f n end)
  (fun f n => match f with tarfs_fn => close_node_tarfs n | _ => op_close next f n end)
  (fun f n a sz b => match f with tarfs_fn => read_node_tarfs n a sz b | _ => op_read next f n a sz b end)
  (fun f n a sz b => match f with tarfs_fn => write_node_tarfs n a sz b | _ => op_write next f n a sz b end)
  (op_control next) (op_status next).
Definition tarfs_dir_ops (fops : file_ops A D) (magic : Z) (next : dir_ops A D) : dir_ops A D := DirOps
  (op_create next)
  (fun f n i => match f with tarfs_fn => read_directory_tarfs fops magic n i | _ => op_dir_read next f n i end)
  (fun f n p => match f with tarfs_fn => find_in_directory_tarfs fops magic n p | _ => op_dir_find next f n p end)
  (fun f n => match f with tarfs_fn => list_directory_tarfs fops magic n | _ => op_dir_list next f n end).
End operations.
