(* ===== verification/TarfsSpec.v ===== *)
(** What [drivers/tarfs/tarfs.c] does on a well-formed archive: the size field,
    reading a file, and finding a file of the root directory by name. *)
From stdpp Require Import base numbers gmap list.
From S2P Require Import Prelude Kmem Allocator Store LinkedList KString Fs Vfs VfsSpec Tarfs.

(** * The size field *)

(** [k] octal digits of [n], most significant first, as characters. *)
Fixpoint octal (k : nat) (n : Z) : list Z :=
  match k with O => [] | S k' => octal k' (n / 8) ++ [48 + n mod 8] end.

(** The bytes at [p]. *)
Fixpoint bytes_at (m : mem) (p : Z) (l : list Z) : Prop :=
  match l with [] => True | c :: l' => rd8 m p = c /\ bytes_at m (p + 1) l' end.
#[global] Instance bytes_at_dec m p l : Decision (bytes_at m p l).
Proof. revert p. induction l as [|c l IH]; intros p; cbn; apply _. Defined.

#[global] Instance cstr_dec m p l : Decision (cstr m p l).
Proof. revert p. induction l as [|c l IH]; intros p; cbn; apply _. Defined.

Lemma bytes_at_app m p l1 l2 :
  bytes_at m p (l1 ++ l2) <-> bytes_at m p l1 /\ bytes_at m (p + Z.of_nat (length l1)) l2.
Proof.
  revert p. induction l1 as [|c l1 IH]; intros p; cbn [app bytes_at length].
  - rewrite Z.add_0_r. tauto.
  - rewrite IH. replace (p + 1 + Z.of_nat (length l1)) with (p + Z.of_nat (S (length l1))) by lia. tauto.
Qed.

Lemma bytes_at_copy m m' p q l :
  (forall i, 0 <= i < Z.of_nat (length l) -> rd8 m' (q + i) = rd8 m (p + i)) ->
  bytes_at m p l -> bytes_at m' q l.
Proof.
  revert p q. induction l as [|c l IH]; intros p q Hx; cbn [bytes_at length] in *; [done|].
  intros [? ?]. split.
  - specialize (Hx 0). rewrite !Z.add_0_r in Hx. by rewrite Hx by lia.
  - apply (IH (p + 1)); [|done]. intros i Hi. rewrite <- !Z.add_assoc. apply Hx. lia.
Qed.

Lemma octal_length k n : length (octal k n) = k.
Proof. revert n. induction k as [|k IH]; intros n; cbn; [done|]. rewrite length_app, IH. cbn. lia. Qed.

(** The loop reads [k] digits as the number they write. *)
Lemma file_size_digits k n rest m p i acc :
  bytes_at m (p + i) (octal k n) -> 0 <= n < 8 ^ Z.of_nat k -> 0 <= acc ->
  acc * 8 ^ Z.of_nat k + n < 2 ^ 32 ->
  file_size_loop (k + rest) p i acc m =
  file_size_loop rest p (i + Z.of_nat k) (acc * 8 ^ Z.of_nat k + n) m.
Proof.
  revert n rest. induction k as [|k IH]; intros n rest Hb Hn Ha Hs.
  - cbn in *. f_equal; lia.
  - cbn [octal] in Hb. apply bytes_at_app in Hb as [Hb [Hd _]]. rewrite octal_length in Hd.
    rewrite Nat2Z.inj_succ, Z.pow_succ_r in * by lia.
    pose proof (Z.pow_pos_nonneg 8 (Z.of_nat k)).
    replace (S k + rest)%nat with (k + S rest)%nat by lia.
    pose proof (Z.div_mod n 8 ltac:(lia)). pose proof (Z.mod_pos_bound n 8 ltac:(lia)).
    rewrite (IH (n / 8)); [|done|split; [zdm|apply Z.div_lt_upper_bound; lia]|done|nia].
    cbn [file_size_loop]. unfold bind, peek, gets.
    replace (p + (i + Z.of_nat k)) with (p + i + Z.of_nat k) by lia. rewrite Hd.
    destruct (Z.eqb_spec (48 + n mod 8) 0), (Z.eqb_spec (48 + n mod 8) 32); try lia. cbn [orb].
    unfold schar. destruct (Z.ltb_spec (48 + n mod 8) 128); [|lia].
    rewrite (u32_small ((_ + _) * 8)) by nia. rewrite u32_small by nia. f_equal; [lia|]. nia.
Qed.

Lemma file_size_total n m p i acc : exists r, file_size_loop n p i acc m = Ret (r, m).
Proof.
  revert i acc. induction n as [|n IH]; intros i acc; cbn [file_size_loop]; [by eexists|].
  unfold bind, peek, gets. destruct (_ || _); apply IH.
Qed.

(** The size field as tar writes it: eleven octal digits and a NUL. *)
Definition size_field (n : Z) : list Z := octal 11 n ++ [0].

Lemma get_file_size_spec m p n :
  bytes_at m p (size_field n) -> 0 <= n < 2 ^ 32 -> get_file_size_tarfs p m = Ret (n, m).
Proof.
  intros Hb Hn. apply bytes_at_app in Hb as [Hb [Hz _]]. unfold get_file_size_tarfs.
  change 12%nat with (11 + 1)%nat.
  rewrite (file_size_digits 11 n); [|by rewrite Z.add_0_r|by cbn; lia|done|by cbn; lia].
  cbn [file_size_loop]. unfold bind, peek, gets. change (0 + Z.of_nat 11) with 11.
  change (p + 11) with (p + Z.of_nat (length (octal 11 n))) at 1. rewrite Hz. done.
Qed.

(** * Names *)

Definition DOT : Z := 46.

(** [hdr->name] without the dot: a trailing slash is dropped. *)
Definition strip (path : list Z) : list Z :=
  if decide (last path = Some SLASH) then removelast path else path.

(** The part of the path behind its last slash. *)
Fixpoint base_name (path : list Z) : option (list Z) :=
  match path with
  | [] => None
  | c :: l => match base_name l with
              | Some b => Some b
              | None => if c =? SLASH then Some l else None
              end
  end.

(** The name under which [check_parse_filename] takes the entry [path] for a
    child of the root directory. *)
Definition root_child (path : list Z) : option (list Z) :=
  if decide (path = [SLASH]) then None
  else match base_name (strip path) with
       | Some b => if decide (SLASH :: b `prefix_of` strip path) then Some b else None
       | None => None
       end.

Lemma base_name_split path b :
  base_name path = Some b -> exists pre, path = pre ++ SLASH :: b /\ SLASH ∉ b.
Proof.
  revert b. induction path as [|c path IH]; intros b; cbn; [done|].
  destruct (base_name path) as [b'|] eqn:He.
  - intros [= ->]. destruct (IH b eq_refl) as (pre & -> & Hb). by exists (c :: pre).
  - destruct (Z.eqb_spec c SLASH) as [->|]; [|done]. intros [= ->]. exists []. split; [done|].
    clear IH. induction b as [|d b IHb]; [apply not_elem_of_nil|]. cbn in He.
    destruct (base_name b) eqn:Hb; [done|]. destruct (Z.eqb_spec d SLASH); [done|].
    apply not_elem_of_cons. split; [congruence|]. by apply IHb.
Qed.

Lemma base_name_slash c l : base_name (SLASH :: l) = c -> is_Some c.
Proof. intros <-. cbn. destruct (base_name l); by eexists. Qed.

(** * Memory that blocks in use keep *)

Section tarfs.
Context {A D : Type} `{Allocator A}.
Implicit Types (s t : fstate A D).

Definition quiet (o : gmap Z obj) (m m' : mem) : Prop :=
  forall p len x, owned_range o p len -> p <= x <= p + len -> rd8 m' x = rd8 m x.

Lemma quiet_refl o m : quiet o m m.
Proof. done. Qed.
Lemma quiet_trans o m1 m2 m3 : quiet o m1 m2 -> quiet o m2 m3 -> quiet o m1 m3.
Proof. intros H1 H2 p len x Ho Hx. by rewrite (H2 p len), (H1 p len). Qed.
Lemma quiet_mono o o' m m' :
  (forall b n, o !! b = Some (OBytes n) -> o' !! b = Some (OBytes n)) -> quiet o' m m' -> quiet o m m'.
Proof. intros Ho Hq p len x Hr. apply Hq. by eapply owned_range_mono. Qed.
Lemma quiet_delete o b m m' : quiet o m m' -> quiet (delete b o) m m'.
Proof. apply quiet_mono. intros c n Hc. by apply lookup_delete_Some in Hc as [_ ?]. Qed.

Lemma quiet_str s p l m' : str_at s p l -> quiet s.(fstore).(objs) s.(fmem) m' -> cstr m' p l.
Proof. intros [Hc Ho] Hq. eapply cstr_ext; [|exact Hc]. intros. by eapply Hq. Qed.
Lemma cstr_quiet o m m' p l :
  owned_range o p (Z.of_nat (length l)) -> quiet o m m' -> cstr m p l -> cstr m' p l.
Proof. intros Ho Hq Hc. eapply cstr_ext; [|exact Hc]. intros. by eapply Hq. Qed.

(** Changes to one block leave the others alone. *)
Lemma quiet_block k st b n m m' :
  store_ok k st -> st.(objs) !! b = Some (OBytes n) -> 0 <= n ->
  only_block b n m m' -> quiet (delete b st.(objs)) m m'.
Proof. intros Hok Hb Hn Ho p len x Hr Hx. apply Ho. by eapply fresh_disjoint. Qed.

(** A state that differs from [s] in the allocator and in memory that nothing
    in [o] uses. *)
Definition quietly (k : nat) (o : gmap Z obj) s t : Prop :=
  exists al m', t = set_fmem m' (set_fstore (Store al s.(fstore).(objs)) s) /\
    store_ok k t.(fstore) /\ quiet o s.(fmem) m'.

Lemma quietly_trans k k' o s t u : quietly k' o s t -> quietly k o t u -> quietly k o s u.
Proof.
  intros (al & m & -> & Hk & Hq) (al' & m' & -> & Hk' & Hq'). exists al', m'.
  split_and!; [done|exact Hk'|by eapply quiet_trans].
Qed.
Lemma quietly_mono k j o s t : quietly (j + k) o s t -> quietly k o s t.
Proof.
  intros (al & m & -> & Hk & Hq). exists al, m. split_and!; [done| |done].
  induction j as [|j IH]; [done|]. apply IH. by apply store_ok_mono.
Qed.
Lemma quietly_objs k o s t : quietly k o s t -> t.(fstore).(objs) = s.(fstore).(objs).
Proof. by intros (al & m' & -> & _). Qed.
Lemma quietly_ok k o s t : quietly k o s t -> store_ok k t.(fstore).
Proof. by intros (al & m' & -> & ? & _). Qed.
Lemma quietly_mem k o s t : quietly k o s t -> quiet o s.(fmem) t.(fmem).
Proof. by intros (al & m' & -> & ? & ?). Qed.
Lemma quietly_refl k o s : store_ok k s.(fstore) -> quietly k o s s.
Proof.
  intros Hok. exists s.(fstore).(alloc), s.(fmem). split_and!; [|done|done].
  by destruct s as [[al ob] ? ? ? ? ? ? ? ? ? ? ? ?].
Qed.
Lemma quietly_fmem k o s m' :
  store_ok k s.(fstore) -> quiet o s.(fmem) m' -> quietly k o s (set_fmem m' s).
Proof.
  intros Hok Hq. exists s.(fstore).(alloc), m'. split_and!; [|done|done].
  by destruct s as [[al ob] ? ? ? ? ? ? ? ? ? ? ? ?].
Qed.

(** ** [check_parse_filename] for the root directory *)

Lemma copy_name_spec fuel m hdr name l k :
  cstr m name l -> 0 <= k <= Z.of_nat (length l) -> Z.of_nat (length l) - k < Z.of_nat fuel ->
  Z.of_nat (length l) < 2 ^ 31 ->
  hdr + Z.of_nat (length l) <= name \/ name + Z.of_nat (length l) < hdr ->
  exists m', copy_name fuel hdr name k m = Ret (tt, m') /\ forall x,
    rd8 m' x = if decide (hdr + k <= x < hdr + Z.of_nat (length l)) then rd8 m (name + (x - hdr)) else rd8 m x.
Proof.
  revert k m. induction fuel as [|fuel IH]; intros k m Hl Hk Hf Hi Hd; [lia|].
  cbn [copy_name]. unfold bind at 1. rewrite (strlen_spec _ _ _ Hl), i32_small by lia.
  destruct (Z.ltb_spec k (Z.of_nat (length l))).
  - unfold bind, peek, poke, gets, modify.
    destruct (IH (k + 1) (wr8 m (hdr + k) (rd8 m (name + k)))) as (m' & -> & Hm'); [|lia..|].
    { eapply cstr_ext; [|exact Hl]. intros x Hx. apply rd8_wr8_ne. lia. }
    exists m'. split; [done|]. intros x. rewrite Hm', !rd8_wr8, (u8_small (rd8 m _)) by apply rd8_range.
    repeat case_decide; try lia; try done. f_equal. lia.
  - exists m. split; [done|]. intros x. by rewrite decide_False by lia.
Qed.

Lemma strip_cut m p path c :
  cstr m p path -> last path = Some c ->
  cstr (if c =? 47 then wr8 m (p + (Z.of_nat (length path) - 1)) 0 else m) p (strip path).
Proof.
  intros Hc Hl. unfold strip. rewrite Hl. apply last_Some in Hl as [l' ->].
  destruct (Z.eqb_spec c 47) as [->|Hne]; [|rewrite decide_False; [done|by intros [= ->]]].
  rewrite decide_True, removelast_last, length_app by done. cbn [length]. apply cstr_cut in Hc.
  by replace (Z.of_nat (length l' + 1) - 1) with (Z.of_nat (length l')) by lia.
Qed.

Lemma strip_cons c r : r <> [] -> strip (c :: r) = c :: strip r.
Proof. intros Hr. destruct r as [|d r]; [done|]. unfold strip. cbn [last]. by case_decide. Qed.
Lemma strip_length path : (length (strip path) <= length path)%nat.
Proof.
  unfold strip. case_decide as Hl; [|lia]. apply last_Some in Hl as [l ->].
  rewrite removelast_last, length_app. lia.
Qed.

(** The two statements that overwrite [hdr->name]. *)
Lemma stamp_name {B} s hb name l (k : cmd (fstate A D) B) Q :
  cstr s.(fmem) name l -> Z.of_nat (length l) < 100 ->
  hb + 100 <= name \/ name + Z.of_nat (length l) < hb ->
  (forall m', cstr m' hb l -> (forall x, x < hb \/ hb + 100 <= x -> rd8 m' x = rd8 s.(fmem) x) ->
     wp k Q (set_fmem m' s)) ->
  wp (on_bytes (modify (fun m => memset_8 m hb 0 100)) ;;;
      fuel <- gets (fun s => str_fuel s.(fmem)) ;; on_bytes (copy_name fuel hb name 0) ;;; k) Q s.
Proof.
  intros Hl Hlen Hd HQ. apply wp_bind, wp_bytes, wp_modify. apply wp_bind, wp_gets. cbn [fmem set_fmem].
  set (m1 := memset_8 _ _ _ _). assert (Hl1 : cstr m1 name l).
  { eapply cstr_ext; [|exact Hl]. intros x Hx. unfold m1. by rewrite memset_8_rd, decide_False by lia. }
  destruct (copy_name_spec (str_fuel m1) m1 hb name l 0 Hl1) as (m' & Hm' & Hrd); try lia.
  { pose proof (cstr_size _ _ _ Hl1). unfold str_fuel. lia. }
  apply wp_bind, wp_bytes. cbn [fmem set_fmem]. unfold wp at 1. rewrite Hm'. apply (HQ m').
  - apply (cstr_copy m1 m' name hb l); [|done]. intros i Hi. rewrite Hrd. case_decide; [f_equal; lia|].
    assert (i = Z.of_nat (length l)) as -> by lia. pose proof (cstr_app m1 name l [] ltac:(by rewrite app_nil_r)) as Hz.
    cbn in Hz. rewrite Hz. unfold m1. by rewrite memset_8_rd, decide_True by lia.
  - intros x Hx. rewrite Hrd, decide_False by lia. unfold m1. by rewrite memset_8_rd, decide_False by lia.
Qed.

Lemma cstr_rd m p l i : cstr m p l -> (i < length l)%nat -> l !! i = Some (rd8 m (p + Z.of_nat i)).
Proof.
  revert p i. induction l as [|c l IH]; intros p i; cbn [cstr length]; [lia|].
  intros (<- & Hz & Hl) Hi. destruct i as [|i]; [by rewrite Z.add_0_r|]. cbn.
  rewrite (IH _ _ Hl) by lia. do 2 f_equal. lia.
Qed.

(** What the parent's name needs: the root directory is called "/". *)
Definition root_dir s (o : gmap Z obj) (parent : Z) (v : vnode) : Prop :=
  s.(fstore).(objs) !! parent = Some (OVnode v) /\ 0 < v.(v_name) /\
  cstr s.(fmem) v.(v_name) [SLASH] /\ owned_range o v.(v_name) 1.

(** The outcome of a check: the name found, in the header. *)
Definition parsed (k : nat) s (hb : Z) (path : list Z) (r : Z) t : Prop :=
  quietly k (delete hb s.(fstore).(objs)) s t /\
  (forall x, hb + 100 <= x < hb + 512 -> rd8 t.(fmem) x = rd8 s.(fmem) x) /\
  match root_child path with Some b => r = 0 /\ cstr t.(fmem) hb b | None => r = 1 \/ r = -1 end.

Lemma only_header k s hb m' :
  store_ok k s.(fstore) -> s.(fstore).(objs) !! hb = Some (OBytes 512) ->
  (forall x, x < hb \/ hb + 512 < x -> rd8 m' x = rd8 s.(fmem) x) ->
  quietly k (delete hb s.(fstore).(objs)) s (set_fmem m' s).
Proof. intros Hok Hb Hx. apply quietly_fmem; [done|]. eapply quiet_block; [done|done|lia|exact Hx]. Qed.

(** Writing the duplicated child name into the header, and freeing it. *)
Lemma take_child k s hb p b :
  store_ok (S k) s.(fstore) -> s.(fstore).(objs) !! hb = Some (OBytes 512) ->
  cstr s.(fmem) p b -> hb <= p -> p + Z.of_nat (length b) < hb + 100 ->
  wp (dup <- strdup p ;;
      on_bytes (modify (fun m => memset_8 m hb 0 100)) ;;;
      fuel <- gets (fun s => str_fuel s.(fmem)) ;;
      on_bytes (copy_name fuel hb dup 0) ;;;
      free_bytes dup ;;; ret 0)
     (fun r t => r = 0 /\ quietly k (delete hb s.(fstore).(objs)) s t /\ cstr t.(fmem) hb b /\
        forall x, hb + 100 <= x < hb + 512 -> rd8 t.(fmem) x = rd8 s.(fmem) x) s.
Proof.
  intros Hok Hb Hp Hle Hlt.
  assert (Hown : forall q len, hb <= q -> q + len < hb + 512 -> owned_range s.(fstore).(objs) q len).
  { intros q len ? ?. right. right. exists hb, 512. split_and!; [done|lia|lia]. }
  apply wp_bind. eapply wp_mono.
  { apply (strdup_spec k); [exact Hok|split; [exact Hp|apply Hown; lia]|unfold SMALL; lia]. }
  intros dup t (al & m1 & -> & Hok1 & Hd0 & Hfr & Hdup & Honly). cbn [fstore with_block set_fmem set_fstore] in Hok1.
  set (n := Z.of_nat (length b) + 1) in *.
  assert (Hq1 : quiet s.(fstore).(objs) s.(fmem) m1).
  { pose proof (quiet_block k _ dup n s.(fmem) m1 Hok1) as Hq. cbn [objs] in Hq.
    rewrite delete_insert_id in Hq by done. apply Hq; [by lk|lia|done]. }
  assert (Hne : hb <> dup) by congruence.
  assert (Hap : hb + 512 < dup \/ dup + n < hb).
  { apply (bytes_apart k _ hb 512 dup n Hok1); [cbn; by lk|cbn; by lk|done]. }
  apply (stamp_name _ hb dup b); [exact Hdup|lia|lia|]. intros m2 Hm2 Hout. cbn [fmem with_block set_fmem] in Hout.
  apply wp_bind. unfold free_bytes. apply wp_objs. eapply wp_mono; [by apply (free_obj_spec dup k); [exact Hok1|cbn; eexists; by lk]|].
  intros [] [al2 o2] [Hok2 Ho2]. cbn in Ho2. rewrite delete_insert_id in Ho2 by done. subst o2.
  apply wp_ret. split; [done|]. split; [|split; [exact Hm2|]].
  - exists al2, m2. split_and!; [done|exact Hok2|]. eapply quiet_trans; [by apply quiet_delete|].
    eapply (quiet_block k (Store al2 s.(fstore).(objs)) hb 512); [exact Hok2|done|lia|].
    intros x Hx. apply Hout. lia.
  - intros x Hx. cbn [fmem set_fmem set_fstore]. rewrite Hout by lia. apply (Hq1 hb 511); [apply Hown; lia|lia].
Qed.

(** From the trailing slash on: [path] is stripped, [hb + 1] its address. *)
Lemma parse_stripped k s hb node v path0 path :
  store_ok (S k) s.(fstore) -> s.(fstore).(objs) !! hb = Some (OBytes 512) -> 0 < hb ->
  root_dir s (delete hb s.(fstore).(objs)) node v -> path0 <> [SLASH] -> strip path0 = SLASH :: path ->
  cstr s.(fmem) (hb + 1) (SLASH :: path) -> Z.of_nat (length path) < 98 ->
  wp (parent_name_len <- on_bytes (strlen v.(v_name)) ;;
      occ <- on_bytes (strstr (hb + 1) v.(v_name)) ;;
      if occ =? 0 then ret (-1)
      else
        child_name <- on_bytes (strrchr (hb + 1) 47) ;;
        let occ := occ + parent_name_len in
        pc <- on_bytes (peek v.(v_name)) ;;
        let occ := if (parent_name_len =? 1) && (pc =? 47) then occ - 1 else occ in
        n <- on_bytes (strlen child_name) ;;
        r <- on_bytes (strncmp occ child_name n) ;;
        if r =? 0 then
          dup <- strdup (child_name + 1) ;;
          on_bytes (modify (fun m => memset_8 m hb 0 100)) ;;;
          fuel <- gets (fun s => str_fuel s.(fmem)) ;;
          on_bytes (copy_name fuel hb dup 0) ;;;
          free_bytes dup ;;;
          ret 0
        else ret (-1)) (parsed k s hb path0) s.
Proof.
  intros Hok Hb Hb0 (Hv & Hn0 & Hn & Hno) Hp0 Hst Hp Hlen. apply wp_bind.
  eapply wp_read; [by apply on_strlen|]. change (Z.of_nat (length [SLASH])) with 1. apply wp_bind.
  eapply wp_read; [apply on_bytes_read; eapply strstr_first; [exact Hp|exact Hn|lia|lia]|].
  destruct (Z.eqb_spec (hb + 1) 0); [lia|].
  destruct (base_name_slash _ path eq_refl) as [b Hbn]. destruct (base_name_split _ _ Hbn) as (pre & Hsp & Hnb).
  rewrite Hsp in Hp. pose proof (cstr_app _ _ _ _ Hp) as Hc. set (child := hb + 1 + Z.of_nat (length pre)) in *.
  apply wp_bind. eapply wp_read; [apply on_bytes_read; by eapply strrchr_spec|]. fold child.
  apply wp_bind. eapply wp_read; [apply on_peek|]. destruct Hn as [Hn1 _]. rewrite Hn1. cbn [Z.eqb Pos.eqb andb SLASH].
  apply wp_bind. eapply wp_read; [by eapply on_strlen|]. apply wp_bind.
  replace (hb + 1 + 1 - 1) with (hb + 1) by lia.
  destruct (strncmp_spec _ _ _ _ _ Hp Hc) as (r & Hr & Hpre). eapply wp_read; [by apply on_bytes_read|].
  unfold parsed, root_child. rewrite decide_False, Hst, Hbn, Hsp by done.
  destruct Hc as (_ & _ & Hb'). assert (length path = length pre + length b)%nat as Hl.
  { apply (f_equal length) in Hsp. rewrite length_app in Hsp. cbn in Hsp. lia. }
  destruct (Z.eqb_spec r 0) as [Hr0|Hr0].
  - rewrite decide_True by tauto. eapply wp_mono.
    { apply (take_child k s hb (child + 1) b); [done|done|done|lia|lia]. }
    intros r' t (-> & Hq & Hm & Hx). done.
  - rewrite decide_False by tauto. apply wp_ret. split_and!; [|done|by right]. apply quietly_refl.
    by apply store_ok_mono.
Qed.

Lemma root_dir_fmem s o node v m' :
  quiet o s.(fmem) m' -> root_dir s o node v -> root_dir (set_fmem m' s) o node v.
Proof.
  intros Hq (Hv & H0 & Hn & Ho). split_and!; [exact Hv|done| |exact Ho]. eapply cstr_quiet; [|exact Hq|exact Hn].
  exact Ho.
Qed.

Lemma check_parse_spec k s hb node v path :
  store_ok (S k) s.(fstore) -> s.(fstore).(objs) !! hb = Some (OBytes 512) -> 0 < hb ->
  root_dir s (delete hb s.(fstore).(objs)) node v -> cstr s.(fmem) hb (DOT :: SLASH :: path) -> Z.of_nat (length path) < 98 ->
  wp (check_parse_filename hb node) (parsed k s hb (SLASH :: path)) s.
Proof.
  intros Hok Hb Hb0 Hroot Hc Hlen. unfold check_parse_filename. destruct (Z.eqb_spec hb 0); [lia|].
  destruct Hc as (Hd & _ & Hc). apply wp_bind. eapply wp_read; [apply on_peek|]. rewrite Hd. cbn [Z.eqb DOT].
  apply wp_bind. eapply wp_read; [by apply on_strlen|]. apply wp_bind. eapply wp_read; [apply on_peek|].
  pose proof Hroot as (Hv & Hn0 & Hn & Hno). apply wp_bind. eapply wp_read; [by apply on_get_vnode|].
  pose proof Hc as (Hc1 & _ & Hc2). rewrite Hc1. cbn [SLASH Z.eqb Pos.eqb]. rewrite andb_true_r.
  assert (Hsep : forall x, v.(v_name) <= x <= v.(v_name) + 1 -> x < hb \/ hb + 512 < x).
  { intros x Hx. eapply fresh_disjoint; [exact Hok|done|lia|exact Hno|done]. }
  destruct (Z.eqb_spec (Z.of_nat (length (SLASH :: path))) 1) as [Hl1|Hl1].
  - assert (path = []) as -> by (destruct path; [done|cbn in Hl1; lia]).
    pose proof (Hsep (v.(v_name))). pose proof (Hsep (v.(v_name) + 1)).
    apply (stamp_name s hb v.(v_name) [SLASH]); [done|cbn; lia|cbn; lia|].
    intros m' Hm' Hx. apply wp_ret. unfold parsed, root_child. rewrite decide_True by done.
    split_and!; [|intros x ?; apply Hx; lia|by left].
    apply only_header; [by apply store_ok_mono|done|]. intros x ?. apply Hx. lia.
  - assert (Hp0 : path <> []) by (intros ->; done).
    apply wp_bind. eapply wp_read; [apply on_peek|].
    destruct (last (SLASH :: path)) as [c|] eqn:Hlast; [|by apply last_None in Hlast].
    assert (Hlc : rd8 s.(fmem) (hb + 1 + (Z.of_nat (length (SLASH :: path)) - 1)) = c).
    { rewrite last_lookup in Hlast. cbn [length Nat.pred] in Hlast.
      pose proof (cstr_rd _ _ _ (length path) Hc ltac:(cbn; lia)) as Hr. rewrite Hlast in Hr. injection Hr as ->.
      f_equal. cbn [length]. lia. }
    rewrite Hlc. pose proof (strip_cut _ _ _ _ Hc Hlast) as Hcut. rewrite (strip_cons SLASH path Hp0) in Hcut.
    set (m1 := if c =? 47 then _ else _) in Hcut.
    assert (Hm1 : forall x, x < hb \/ hb + 100 <= x -> rd8 m1 x = rd8 s.(fmem) x).
    { intros x Hx. unfold m1. destruct (c =? 47); [|done]. cbn [length]. by rewrite rd8_wr8_ne by lia. }
    apply wp_bind. assert (Hwhen : (when c =? 47 do
      on_bytes (poke (hb + 1 + (Z.of_nat (length (SLASH :: path)) - 1)) 0)) s = Ret (tt, set_fmem m1 s)).
    { unfold m1. destruct (c =? 47); [done|]. unfold ret. by rewrite set_fmem_id. }
    eapply wp_Ret; [exact Hwhen|]. pose proof (strip_length path) as Hsl.
    assert (Hq : quiet (delete hb s.(fstore).(objs)) s.(fmem) m1).
    { eapply (quiet_block (S k) s.(fstore) hb 512); [done|done|lia|]. intros x Hx. apply Hm1. lia. }
    eapply wp_mono.
    { apply (parse_stripped k (set_fmem m1 s) hb node v (SLASH :: path) (strip path)); try done; [| | |lia].
      - by apply root_dir_fmem.
      - intros [= ->]. done.
      - by apply strip_cons. }
    intros r t (Hqt & Hx & Hr). split_and!; [|intros x ?; rewrite Hx by done; apply Hm1; lia|exact Hr].
    eapply (quietly_trans k (S k)); [by apply (quietly_fmem (S k) _ s m1)|exact Hqt].
Qed.
End tarfs.

(** * Archives *)

(** An entry: its name is a dot, a slash and [e_path]. *)
Record entry := Entry { e_path : list Z; e_size : Z; e_flag : Z }.
Definition full_path (e : entry) : list Z := SLASH :: e.(e_path).

Definition USTAR : list Z := [117; 115; 116; 97; 114; 32; 32].

(** The header of [e] at [p]. *)
Definition entry_at (m : mem) (p : Z) (e : entry) : Prop :=
  cstr m p (DOT :: full_path e) /\ Z.of_nat (length e.(e_path)) < 98 /\
  bytes_at m (p + HDR_SIZE) (size_field e.(e_size)) /\ rd8 m (p + HDR_TYPEFLAG) = e.(e_flag) /\
  cstr m (p + HDR_MAGIC) USTAR.

#[global] Instance entry_at_dec m p e : Decision (entry_at m p e).
Proof. unfold entry_at. apply _. Defined.

(** Contents are padded to whole headers. *)
Definition next_entry (off : Z) (e : entry) : Z := off + 512 + (e.(e_size) + 511) / 512 * 512.

(** An archive of [N] bytes at [B], from the offset [off] on; a header without
    magic ends it. *)
Fixpoint archive_at (m : mem) (B N off : Z) (es : list entry) : Prop :=
  0 <= off /\ off mod 512 = 0 /\ off + 512 <= N /\
  match es with
  | [] => rd8 m (B + off + HDR_MAGIC) = 0
  | e :: es' => entry_at m (B + off) e /\ 0 <= e.(e_size) /\ archive_at m B N (next_entry off e) es'
  end.

#[global] Instance archive_at_dec m B N off es : Decision (archive_at m B N off es).
Proof. revert off. induction es as [|e es IH]; intros off; cbn; apply _. Defined.

(** The first entry that counts as [x] in the root directory, with its offset. *)
Fixpoint find_root (x : list Z) (off : Z) (es : list entry) : option (Z * entry) :=
  match es with
  | [] => None
  | e :: es' =>
      if decide (root_child (full_path e) = Some x) then Some (off, e) else find_root x (next_entry off e) es'
  end.

Lemma archive_off m B N off es : archive_at m B N off es -> 0 <= off /\ off + 512 <= N /\ off mod 512 = 0.
Proof. destruct es; cbn; tauto. Qed.

Lemma find_root_at m B N x off es o e :
  archive_at m B N off es -> find_root x off es = Some (o, e) ->
  entry_at m (B + o) e /\ 0 <= o /\ 0 <= e.(e_size) /\ next_entry o e + 512 <= N.
Proof.
  revert off. induction es as [|e' es IH]; intros off; cbn [archive_at find_root]; [done|].
  intros (? & ? & ? & He & ? & Ha). case_decide; [|by apply IH].
  intros [= <- <-]. split_and!; try done. by apply archive_off in Ha as (_ & ? & _).
Qed.

Lemma entry_at_ext m m' p q e :
  (forall i, 0 <= i < 512 -> rd8 m' (q + i) = rd8 m (p + i)) -> entry_at m p e -> entry_at m' q e.
Proof.
  intros Hx (Hc & Hl & Hs & Hf & Hm). unfold entry_at, HDR_SIZE, HDR_TYPEFLAG, HDR_MAGIC in *. split_and!.
  - eapply cstr_copy; [|exact Hc]. intros i Hi. apply Hx. unfold full_path in Hi. cbn [length] in Hi. lia.
  - done.
  - eapply bytes_at_copy; [|exact Hs]. intros i Hi. rewrite <- !Z.add_assoc. apply Hx.
    unfold size_field in Hi. rewrite length_app, octal_length in Hi. cbn [length] in Hi. lia.
  - rewrite Hx by lia. done.
  - eapply cstr_copy; [|exact Hm]. intros i Hi. cbn in Hi. rewrite <- !Z.add_assoc. apply Hx. lia.
Qed.

Lemma archive_ext m m' B N off es :
  (forall x, B <= x <= B + (N - 1) -> rd8 m' x = rd8 m x) -> archive_at m B N off es -> archive_at m' B N off es.
Proof.
  intros Hx. revert off. induction es as [|e es IH]; intros off; cbn [archive_at]; unfold HDR_MAGIC.
  - intros (? & ? & ? & Hz). split_and!; try done. by rewrite Hx by lia.
  - intros (? & ? & ? & He & ? & Ha). split_and!; try done; [|by apply IH].
    eapply entry_at_ext; [|exact He]. intros i Hi. apply Hx. lia.
Qed.

(** Every entry has a dot of its own in memory. *)
Lemma archive_length m B N off es : archive_at m B N off es -> (length es <= size m)%nat.
Proof.
  intros Ha. enough (exists ps, length ps = length es /\ NoDup ps /\
    Forall (fun p => B + off <= p /\ p ∈ dom m) ps) as (ps & <- & Hnd & Hall).
  { rewrite <- (size_list_to_set (C := gset Z)) by done. rewrite <- size_dom. apply subseteq_size.
    intros x Hx%elem_of_list_to_set. rewrite Forall_forall in Hall. by apply Hall. }
  revert off Ha. induction es as [|e es IH]; intros off Ha; [exists []; split_and!; [done|constructor|constructor]|].
  destruct Ha as (_ & _ & _ & ((Hd & _) & _) & Hs & Ha). destruct (IH _ Ha) as (ps & Hl & Hnd & Hall).
  assert (off + 512 <= next_entry off e) by (unfold next_entry; zdm).
  exists (B + off :: ps). split_and!; [cbn; lia| |].
  - constructor; [|done]. intros Hin. rewrite Forall_forall in Hall. apply Hall in Hin. lia.
  - constructor.
    + split; [lia|]. apply rd8_nonzero_dom. by rewrite Hd.
    + eapply Forall_impl; [exact Hall|]. cbn beta. intros x [? ?]. split; [lia|done].
Qed.

Lemma header_aligned_next off e :
  0 <= off -> off mod 512 = 0 -> 0 <= e.(e_size) -> next_entry off e < 2 ^ 32 ->
  header_aligned (u32 (off + u32 (TARFS_HDR_SIZE + e.(e_size)))) = next_entry off e.
Proof.
  unfold header_aligned, next_entry, TARFS_HDR_SIZE. intros H0 Hm Hs Hlt.
  assert (512 + e.(e_size) < 2 ^ 32 /\ off + (512 + e.(e_size)) < 2 ^ 32) as [? ?] by zdm.
  rewrite (u32_small (512 + _)), (u32_small (off + _)) by lia.
  destruct (Z.eqb_spec ((off + (512 + e_size e)) mod 512) 0); [zdm|]. rewrite u32_small by zdm. zdm.
Qed.

(** * Searching the root directory *)

Section search.
Context {A D : Type} `{Allocator A}.
Implicit Types (s t : fstate A D).
Variables (next : file_ops A D) (magic node : Z) (v : vnode).
#[local] Abbreviation fops := (tarfs_file_ops next).

(** The mounted root directory: [N] bytes of archive at [B]. *)
Definition root_mounted s (o : gmap Z obj) : Prop :=
  root_dir s o node v /\ node <> 0 /\ v.(v_type_flags) = VFS_NODE_TYPE_DIRE /\ v.(v_read) = tarfs_fn /\
  0 < v.(v_base_pointer) /\ 0 < v.(v_size) < 2 ^ 31 /\ v.(v_base_pointer) + v.(v_size) <= 2 ^ 32 /\
  owned_range o v.(v_base_pointer) (v.(v_size) - 1) /\
  cstr s.(fmem) magic USTAR /\ owned_range o magic 7.

Lemma root_mounted_quietly k s o t : quietly k o s t -> root_mounted s o -> root_mounted t o.
Proof.
  intros (al & m' & -> & _ & Hq) ((? & ? & Hn & ?) & ? & ? & ? & ? & [? ?] & ? & ? & Hm & ?).
  unfold root_mounted, root_dir. split_and!; try done.
  - eapply cstr_quiet; [|exact Hq|exact Hn]. done.
  - eapply cstr_quiet; [|exact Hq|exact Hm]. done.
Qed.

(** Reading a header. *)
Lemma read_header k s hb off :
  store_ok k s.(fstore) -> s.(fstore).(objs) !! hb = Some (OBytes 512) -> 0 < hb ->
  root_mounted s (delete hb s.(fstore).(objs)) ->
  0 <= off -> off + 512 <= v.(v_size) ->
  wp (read_from_vfs_node fops node (i32 off) TARFS_HDR_SIZE hb) (fun _ t =>
    quietly k (delete hb s.(fstore).(objs)) s t /\
    forall i, 0 <= i < 512 -> rd8 t.(fmem) (hb + i) = rd8 s.(fmem) (v.(v_base_pointer) + off + i)) s.
Proof.
  intros Hok Hb Hb0 ((Hv & _) & Hnode & Hty & Hrd & HB & HN & _ & Hown & _) Hoff Hle.
  unfold read_from_vfs_node, TARFS_HDR_SIZE. rewrite i32_small by lia.
  destruct (Z.eqb_spec node 0); [done|]. apply wp_bind. eapply wp_read; [by apply on_get_vnode|].
  rewrite Hrd. cbn [is_null]. destruct (Z.eqb_spec hb 0); [lia|]. cbn [Z.ltb Z.compare op_read tarfs_file_ops].
  unfold read_node_tarfs. rewrite (u32_small off), (u32_small 512) by lia. apply wp_bind. eapply wp_read; [by apply on_get_vnode|].
  rewrite Hty. destruct (Z.eqb_spec v.(v_base_pointer) 0); [lia|]. cbn [Z.eqb Pos.eqb negb andb].
  rewrite ?(u32_small (v_size v - 1)), ?(u32_small (off + 512)) by lia.
  assert ((if v_size v - 1 <? off + 512 then u32 (v_size v - off) else 512) = 512) as ->.
  { destruct (Z.ltb_spec (v_size v - 1) (off + 512)); [rewrite u32_small by lia; lia|done]. }
  apply wp_bind, wp_bytes, wp_modify, wp_ret.
  assert (Hsep : forall x, v.(v_base_pointer) <= x <= v.(v_base_pointer) + (v.(v_size) - 1) -> x < hb \/ hb + 512 < x).
  { intros x Hx. eapply fresh_disjoint; [exact Hok|done|lia|exact Hown|done]. }
  assert (Hd : hb <= v.(v_base_pointer) + off \/ v.(v_base_pointer) + off + 512 <= hb).
  { pose proof (Hsep (v.(v_base_pointer) + off)). pose proof (Hsep (v.(v_base_pointer) + off + 511)).
    destruct (decide (hb <= v_base_pointer v + off)); [by left|]. right.
    destruct (decide (v_base_pointer v + off + 512 <= hb)); [done|]. pose proof (Hsep hb). lia. }
  split.
  - apply only_header; [done|done|]. intros x Hx. rewrite memcpy_8_rd, decide_False by lia. done.
  - intros i Hi. cbn [fmem set_fmem]. rewrite memcpy_8_rd, decide_True by lia. f_equal. lia.
Qed.

(** A header that ends the archive. *)
Lemma on_size_total s p : exists r, on_bytes (get_file_size_tarfs p) s = Ret (r, s).
Proof.
  destruct (file_size_total 12 s.(fmem) p 0 0) as [r Hr]. exists r. by apply on_bytes_read.
Qed.

Definition entry_found (k : nat) s (hb off : Z) (es : list entry) (x : list Z) (r : option Z) t : Prop :=
  quietly k (delete hb s.(fstore).(objs)) s t /\
  match find_root x off es with
  | Some (o, e) => r = Some (contents_at v.(v_base_pointer) o e.(e_size)) /\ cstr t.(fmem) hb x /\
      bytes_at t.(fmem) (hb + HDR_SIZE) (size_field e.(e_size)) /\ rd8 t.(fmem) (hb + HDR_TYPEFLAG) = e.(e_flag)
  | None => r = None
  end.

Lemma entry_found_trans k k' s s1 hb off es x r t :
  quietly k' (delete hb s.(fstore).(objs)) s s1 -> entry_found k s1 hb off es x r t ->
  entry_found k s hb off es x r t.
Proof.
  intros Hq [Hq' Hr]. split; [|done]. eapply quietly_trans; [exact Hq|].
  by rewrite <- (quietly_objs _ _ _ _ Hq).
Qed.

Lemma archive_quietly k s o t off es :
  quietly k o s t -> root_mounted s o ->
  archive_at s.(fmem) v.(v_base_pointer) v.(v_size) off es ->
  archive_at t.(fmem) v.(v_base_pointer) v.(v_size) off es.
Proof.
  intros Hq Hr Ha. eapply archive_ext; [|exact Ha]. intros x Hx. eapply quietly_mem; [exact Hq| |exact Hx]. apply Hr.
Qed.

(** The search after one header: the entry is in the header block. *)
Lemma one_header {B} k s hb off e (kont : Z -> cmd (fstate A D) B) kend Q :
  store_ok k s.(fstore) -> s.(fstore).(objs) !! hb = Some (OBytes 512) -> 0 < hb ->
  root_mounted s (delete hb s.(fstore).(objs)) -> 0 <= off -> off + 512 <= v.(v_size) ->
  entry_at s.(fmem) (v.(v_base_pointer) + off) e -> 0 <= e.(e_size) < 2 ^ 31 ->
  (forall t, quietly k (delete hb s.(fstore).(objs)) s t -> entry_at t.(fmem) hb e -> wp (kont e.(e_size)) Q t) ->
  wp (read_from_vfs_node fops node (i32 off) TARFS_HDR_SIZE hb ;;;
      size <- on_bytes (get_file_size_tarfs (hb + HDR_SIZE)) ;;
      c <- on_bytes (strcmp (hb + HDR_MAGIC) magic) ;;
      if c =? 0 then kont size else kend) Q s.
Proof.
  intros Hok Hb Hb0 Hroot Ho0 Hole He Hs HQ. apply wp_bind. eapply wp_mono; [by apply (read_header k s hb off)|].
  intros u t [Hq Hhd]. assert (He1 : entry_at t.(fmem) hb e) by (eapply entry_at_ext; [exact Hhd|exact He]).
  pose proof (root_mounted_quietly _ _ _ _ Hq Hroot) as (_ & _ & _ & _ & _ & _ & _ & _ & Hmag & _).
  pose proof He1 as (_ & _ & Hsf & _ & Hmg).
  apply wp_bind. eapply wp_read; [apply on_bytes_read, get_file_size_spec; [exact Hsf|lia]|].
  apply wp_bind. eapply wp_read; [by apply (on_strcmp _ USTAR _ USTAR)|]. rewrite decide_True by done. cbn [Z.eqb].
  by apply HQ.
Qed.

(** A header without magic ends the search. *)
Lemma last_header {B} k s hb off (kont : Z -> cmd (fstate A D) B) kend Q :
  store_ok k s.(fstore) -> s.(fstore).(objs) !! hb = Some (OBytes 512) -> 0 < hb ->
  root_mounted s (delete hb s.(fstore).(objs)) -> 0 <= off -> off + 512 <= v.(v_size) ->
  rd8 s.(fmem) (v.(v_base_pointer) + off + HDR_MAGIC) = 0 ->
  (forall t, quietly k (delete hb s.(fstore).(objs)) s t -> wp kend Q t) ->
  wp (read_from_vfs_node fops node (i32 off) TARFS_HDR_SIZE hb ;;;
      size <- on_bytes (get_file_size_tarfs (hb + HDR_SIZE)) ;;
      c <- on_bytes (strcmp (hb + HDR_MAGIC) magic) ;;
      if c =? 0 then kont size else kend) Q s.
Proof.
  intros Hok Hb Hb0 Hroot Ho0 Hole Hz HQ. apply wp_bind. eapply wp_mono; [by apply (read_header k s hb off)|].
  intros u t [Hq Hhd].
  pose proof (root_mounted_quietly _ _ _ _ Hq Hroot) as (_ & _ & _ & _ & _ & _ & _ & _ & Hmag & _).
  destruct (on_size_total t (hb + HDR_SIZE)) as [z Hsize]. apply wp_bind. eapply wp_read; [exact Hsize|].
  apply wp_bind. eapply wp_read; [apply (on_strcmp _ [] _ USTAR); [|done]|].
  { cbn. unfold HDR_MAGIC in *. by rewrite Hhd by lia. }
  rewrite decide_False by done. cbn [Z.eqb]. by apply HQ.
Qed.

(** [check_parse_filename] on a header read for the entry [e]. *)
Lemma check_entry k s hb e :
  store_ok (S k) s.(fstore) -> s.(fstore).(objs) !! hb = Some (OBytes 512) -> 0 < hb ->
  root_mounted s (delete hb s.(fstore).(objs)) -> entry_at s.(fmem) hb e ->
  wp (check_parse_filename hb node) (fun r t =>
    quietly k (delete hb s.(fstore).(objs)) s t /\
    bytes_at t.(fmem) (hb + HDR_SIZE) (size_field e.(e_size)) /\ rd8 t.(fmem) (hb + HDR_TYPEFLAG) = e.(e_flag) /\
    match root_child (full_path e) with Some b => r = 0 /\ cstr t.(fmem) hb b | None => r = 1 \/ r = -1 end) s.
Proof.
  intros Hok Hb Hb0 Hroot (Hnm & Hnl & Hsf & Hfl & _). eapply wp_mono.
  { apply (check_parse_spec k s hb node v (e_path e)); try done. apply Hroot. }
  intros r t (Hq & Hkept & Hr). split_and!; [exact Hq| | |exact Hr].
  - eapply bytes_at_copy; [|exact Hsf]. intros i Hi. unfold HDR_SIZE, size_field in *.
    rewrite length_app, octal_length in Hi. cbn in Hi. apply Hkept. lia.
  - unfold HDR_TYPEFLAG in *. by rewrite Hkept by lia.
Qed.

Lemma find_entry_spec hb tmp x es fuel k s off address :
  store_ok (length es + k) s.(fstore) -> s.(fstore).(objs) !! hb = Some (OBytes 512) -> 0 < hb ->
  root_mounted s (delete hb s.(fstore).(objs)) -> header_aligned address = off ->
  archive_at s.(fmem) v.(v_base_pointer) v.(v_size) off es ->
  Forall (fun e => e.(e_size) < 2 ^ 31) es ->
  cstr s.(fmem) tmp x -> owned_range (delete hb s.(fstore).(objs)) tmp (Z.of_nat (length x)) ->
  (length es < fuel)%nat ->
  wp (find_entry_loop fops magic fuel node tmp hb address) (entry_found k s hb off es x) s.
Proof.
  revert es k s off address.
  induction fuel as [|fuel IH]; intros es k s off address Hok Hb Hb0 Hroot Hal Ha Hsz Ht Hto Hf; [lia|].
  cbn [find_entry_loop]. rewrite Hal. pose proof (archive_off _ _ _ _ _ Ha) as (Ho0 & Hole & Hom).
  destruct es as [|e es].
  { destruct Ha as (_ & _ & _ & Hz). apply (last_header (0 + k)); try done. }
  destruct Ha as (_ & _ & _ & He & Hs0 & Ha). apply Forall_cons in Hsz as [Hs1 Hsz].
  apply (one_header (S (length es + k)) s hb off e); try done.
  intros s1 Hq He1. pose proof (quietly_objs _ _ _ _ Hq) as Hobj. apply wp_bind. eapply wp_mono.
  { apply (check_entry (length es + k) s1 hb e); try done; [by eapply quietly_ok|by rewrite Hobj|].
    rewrite Hobj. by eapply root_mounted_quietly. }
  rewrite Hobj. intros r s2 (Hq2 & Hsf & Hfl & Hr).
  assert (Hq02 : quietly (length es + k) (delete hb s.(fstore).(objs)) s s2) by (by eapply quietly_trans).
  assert (Ht2 : cstr s2.(fmem) tmp x) by (eapply cstr_quiet; [exact Hto|by eapply quietly_mem|exact Ht]).
  pose proof (quietly_objs _ _ _ _ Hq02) as Hobj2.
  assert (Hgo : wp (find_entry_loop fops magic fuel node tmp hb (u32 (off + u32 (TARFS_HDR_SIZE + e_size e))))
    (entry_found k s hb (next_entry off e) es x) s2).
  { eapply wp_mono; [apply (IH es k s2 (next_entry off e)); rewrite ?Hobj2; try done|].
    - by eapply quietly_ok.
    - by eapply root_mounted_quietly.
    - pose proof (archive_off _ _ _ _ _ Ha). destruct Hroot as (_ & _ & _ & _ & _ & ? & _). apply header_aligned_next; try done. lia.
    - by eapply archive_quietly.
    - cbn in Hf. lia.
    - intros r' t Hfd. by eapply entry_found_trans. }
  unfold entry_found. cbn [find_root]. destruct (root_child (full_path e)) as [b|] eqn:Hrc.
  - destruct Hr as [-> Hcb]. cbn [Z.eqb andb]. apply wp_bind. eapply wp_read; [by apply on_strcmp|].
    destruct (decide (b = x)) as [->|Hne].
    + rewrite decide_True by done. cbn [Z.eqb].
      apply wp_bind. eapply wp_read; [apply on_get_vnode; rewrite Hobj2; apply Hroot|]. apply wp_ret.
      split_and!; [by eapply quietly_mono|done..].
    + rewrite decide_False by congruence. exact Hgo.
  - rewrite decide_False by done. apply wp_bind. destruct (Z.eqb_spec r 0); [destruct Hr; lia|]. apply wp_ret. exact Hgo.
Qed.

(** ** A path of one segment *)

Lemma chunk_end_spec fuel m p l n :
  cstr m p l -> SLASH ∉ l -> (length l < fuel)%nat ->
  chunk_end fuel p n m = Ret ((p + Z.of_nat (length l), n + Z.of_nat (length l)), m).
Proof.
  revert fuel p n. induction l as [|c l IH]; intros fuel p n Hl Hs Hf; (destruct fuel as [|fuel]; [cbn in Hf; lia|]);
    cbn [chunk_end]; unfold bind, peek, gets.
  - cbn in Hl. rewrite Hl. cbn. by rewrite !Z.add_0_r.
  - destruct Hl as (-> & Hz & Hl). apply not_elem_of_cons in Hs as [Hc Hs]. unfold SLASH in Hc.
    destruct (Z.eqb_spec c 0), (Z.eqb_spec c 47); try done. cbn [negb andb].
    rewrite IH by (done || cbn in Hf; lia). cbn [length]. do 3 f_equal; lia.
Qed.

(** The segment and a cleared header in fresh blocks. *)
Definition searching (k : nat) s (x : list Z) (tmp hb : Z) t : Prop :=
  exists al m' n, t = set_fmem m' (set_fstore (Store al (<[hb := OBytes 512]> (<[tmp := OBytes n]> s.(fstore).(objs)))) s) /\
    store_ok k t.(fstore) /\ s.(fstore).(objs) !! tmp = None /\ s.(fstore).(objs) !! hb = None /\
    tmp <> hb /\ 0 < hb /\ quiet s.(fstore).(objs) s.(fmem) m' /\ cstr m' (tmp + 1) x /\
    n = Z.of_nat (length x) + 2.

Lemma searching_start {B} k s path x (kont : Z -> Z -> Z -> cmd (fstate A D) B) Q :
  store_ok (S (S k)) s.(fstore) -> str_at s path (SLASH :: x) -> SLASH ∉ x -> Z.of_nat (length x) < 3000 ->
  (forall tmp hb t, searching k s x tmp hb t -> wp (kont tmp (path + 1 + Z.of_nat (length x)) hb) Q t) ->
  wp (n <- on_bytes (strlen path) ;;
      tmp <- new_bytes (n + 1) ;;
      lf <- gets (fun s => str_fuel s.(fmem)) ;;
      r <- on_bytes (chunk_end lf (path + 1) 0) ;;
      let '(tmp2, chunk_len) := r in
      on_bytes (strncpy tmp path chunk_len) ;;;
      header <- new_bytes TARFS_HDR_SIZE ;; kont tmp tmp2 header) Q s.
Proof.
  intros Hok Hp Hsl Hlen HQ. apply wp_bind. eapply wp_read; [apply on_strlen, Hp|]. apply wp_bind.
  set (n := Z.of_nat (length (SLASH :: x)) + 1). assert (Hn : n = Z.of_nat (length x) + 2) by (unfold n; cbn [length]; lia).
  eapply wp_mono; [apply (new_bytes_spec (S k)); [done|unfold SMALL; lia]|].
  intros tmp s1 (al & -> & Hok1 & Ht0 & Htf). cbn [fstore with_block set_fmem set_fstore] in Hok1.
  apply wp_bind, wp_gets. set (m1 := memset_8 s.(fmem) tmp 0 n). cbn [fmem with_block set_fmem].
  assert (Hp1 : cstr m1 path (SLASH :: x)).
  { eapply (only_block_new (S k)); [exact Hok1|done|lia|apply memset_only|done]. }
  assert (Hsep : forall y, path <= y <= path + Z.of_nat (length (SLASH :: x)) -> y < tmp \/ tmp + n < y).
  { intros y Hy. eapply fresh_disjoint; [exact Hok1|cbn; by lk|lia| |exact Hy]. cbn. rewrite delete_insert_id by done.
    apply Hp. }
  pose proof Hp1 as (_ & _ & Hx1). apply wp_bind. eapply wp_read.
  { apply on_bytes_read. cbn [fmem with_block set_fmem]. apply chunk_end_spec; [exact Hx1|done|]. unfold str_fuel. apply Nat.lt_succ_r. by eapply cstr_size. }
  rewrite Z.add_0_l. apply wp_bind, wp_bytes. cbn [fmem with_block set_fmem]. fold m1.
  assert (Hside : tmp + Z.of_nat (length x) < path \/ path + Z.of_nat (length x) < tmp).
  { cbn [length] in Hsep. pose proof (Hsep path). pose proof (Hsep (path + Z.of_nat (length x))).
    destruct (decide (tmp <= path)); [left|right]; [lia|].
    destruct (decide (path + Z.of_nat (length x) < tmp)); [done|]. pose proof (Hsep tmp). lia. }
  destruct (strncpy_loop_spec (S (Z.to_nat (Z.of_nat (length x)))) m1 tmp path (SLASH :: x) (Z.of_nat (length x)) 0 m1)
    as (m2 & Hm2 & Hin & Hout); [by rewrite Z.add_0_r|lia|cbn [length]; lia|done|done|lia|].
  unfold wp at 1, strncpy. rewrite Hm2. apply wp_bind.
  set (s2 := set_fmem m2 _). change (store_ok (S k) s2.(fstore)) in Hok1.
  eapply wp_mono; [apply (new_bytes_spec k); [exact Hok1|unfold SMALL, TARFS_HDR_SIZE; lia]|].
  intros hb s3 (al3 & -> & Hok3 & Hh0 & Hhf). apply HQ.
  cbn [fstore s2 set_fmem with_block set_fstore objs] in Hok3, Hhf. apply lookup_insert_None in Hhf as [Hhf Hne].
  assert (Hx2 : cstr m2 (tmp + 1) x).
  { apply (cstr_copy m1 m2 (path + 1) (tmp + 1) x); [|exact Hx1]. intros i Hi.
    destruct (decide (i = Z.of_nat (length x))) as [->|].
    - rewrite Hout by lia. pose proof (cstr_app m1 (path + 1) x [] ltac:(by rewrite app_nil_r)) as Hz. cbn in Hz.
      rewrite Hz. unfold m1. rewrite memset_8_rd, decide_True by lia. done.
    - rewrite <- !Z.add_assoc. apply Hin. lia. }
  exists al3, (memset_8 m2 hb 0 512), n. split; [done|]. split; [exact Hok3|]. split_and!; try done.
  - pose proof Hok3 as (Hi & _ & Hd & _). destruct (fits_lookup _ _ hb (OBytes 512) Hd) as (z & Hz & _); [cbn; by lk|].
    pose proof (a_zone _ _ _ Hi Hz). pose proof a_base_nonneg. lia.
  - assert (Hq : only_block tmp n s.(fmem) m2).
    { eapply only_block_trans; [apply memset_only|]. intros y Hy. apply Hout. lia. }
    pose proof (quiet_block _ _ tmp n _ _ Hok1 ltac:(cbn; by lk) ltac:(lia) Hq) as Hq1.
    pose proof (quiet_block _ _ hb 512 _ _ Hok3 ltac:(cbn; by lk) ltac:(lia) (memset_only m2 hb 512)) as Hq2.
    cbn in Hq1, Hq2. rewrite delete_insert_id in Hq1, Hq2 by (by lk). eapply quiet_trans; [exact Hq1|].
    eapply quiet_mono; [|exact Hq2]. intros b z Hb. rewrite lookup_insert_ne by congruence. done.
  - pose proof (quiet_block _ _ hb 512 _ _ Hok3 ltac:(cbn; by lk) ltac:(lia) (memset_only m2 hb 512)) as Hq2.
    cbn in Hq2. rewrite delete_insert_id in Hq2 by (by lk). eapply cstr_quiet; [|exact Hq2|exact Hx2].
    right. right. exists tmp, n. split_and!; [by lk|lia|lia].
Qed.

(** ** The look-up *)

(** The node made for the entry [e] at the offset [o]. *)
Definition file_node (o : Z) (e : entry) (w : vnode) : Prop :=
  w.(v_size) = e.(e_size) /\ w.(v_type_flags) = get_type_flags e.(e_flag) /\
  w.(v_base_pointer) = contents_at v.(v_base_pointer) o e.(e_size) /\ w.(v_read) = tarfs_fn /\
  w.(v_dir_find) = tarfs_fn.

(** What a look-up leaves: every object and every byte in use, and the node. *)
Definition looked_up s (x : list Z) (es : list entry) (r : Z) t : Prop :=
  s.(fstore).(objs) ⊆ t.(fstore).(objs) /\ quiet s.(fstore).(objs) s.(fmem) t.(fmem) /\
  match find_root x 0 es with
  | Some (o, e) => r <> 0 /\ s.(fstore).(objs) !! r = None /\ exists w,
      t.(fstore).(objs) !! r = Some (OVnode w) /\ file_node o e w /\ cstr t.(fmem) w.(v_name) x
  | None => r = 0
  end.

Definition find_root_small (x : list Z) (es : list entry) : Prop :=
  match find_root x 0 es with Some (_, e) => 0 <= e.(e_size) < 2 ^ 32 | None => True end.

Lemma build_node_spec k s hb contents size flag :
  store_ok (S k) s.(fstore) -> 0 <= size < 2 ^ 32 ->
  bytes_at s.(fmem) (hb + HDR_SIZE) (size_field size) -> rd8 s.(fmem) (hb + HDR_TYPEFLAG) = flag ->
  wp (build_node_tarfs hb contents) (fun r t => exists al w,
    t = set_fstore (Store al (<[r := OVnode w]> s.(fstore).(objs))) s /\ store_ok k t.(fstore) /\ r <> 0 /\
    s.(fstore).(objs) !! r = None /\ w.(v_name) = hb /\ w.(v_size) = size /\
    w.(v_type_flags) = get_type_flags flag /\ w.(v_base_pointer) = contents /\ w.(v_read) = tarfs_fn /\
    w.(v_dir_find) = tarfs_fn) s.
Proof.
  intros Hok Hs Hsf Hfl. unfold build_node_tarfs. apply wp_bind, wp_objs. eapply wp_mono.
  { apply (new_obj_spec SIZEOF_VNODE (OVnode zero_vnode) k); [done|unfold SIZEOF_VNODE, SMALL; cbn; lia]. }
  intros r [al o] (Hok1 & Hr0 & Hf & Ho). cbn in Ho. subst o.
  apply wp_bind. eapply wp_read; [apply on_bytes_read, get_file_size_spec; [exact Hsf|lia]|].
  apply wp_bind. eapply wp_read; [apply on_peek|]. apply wp_bind.
  eapply wp_upd_vnode; [cbn; by lk|]. apply wp_ret. cbn [fmem set_fstore]. rewrite Hfl.
  eexists al, _. split_and!; [unfold with_obj; cbn; by rewrite insert_insert_eq| |done..].
  apply with_obj_ok; [done|cbn; eexists; by lk|done].
Qed.

Lemma searching_root k s x tmp hb t :
  searching k s x tmp hb t -> root_mounted s s.(fstore).(objs) -> root_mounted t (delete hb t.(fstore).(objs)).
Proof.
  intros (al & m' & n & -> & _ & Htf & Hhf & Hne & _ & Hq & _) ((Hv & ? & Hn & Hno) & ? & ? & ? & ? & [? ?] & ? & Hown & Hm & Hmo).
  assert (Hmono : forall p len, owned_range s.(fstore).(objs) p len ->
    owned_range (delete hb (<[hb := OBytes 512]> (<[tmp := OBytes n]> s.(fstore).(objs)))) p len).
  { intros p len. apply owned_range_mono. intros b z Hb.
    rewrite lookup_delete_ne, !lookup_insert_ne by congruence. done. }
  unfold root_mounted, root_dir. cbn [fmem fstore set_fmem set_fstore objs]. split_and!; try done; try (by apply Hmono).
  - by rewrite !lookup_insert_ne by congruence.
  - eapply cstr_quiet; [|exact Hq|exact Hn]. exact Hno.
  - eapply cstr_quiet; [|exact Hq|exact Hm]. exact Hmo.
Qed.

(** From the outcome of the search to the result. *)
Lemma found_rest kont k s path x es tmp hb s1 s2 r :
  searching (length es + S (S k)) s x tmp hb s1 -> str_at s (path + 1) x -> find_root_small x es ->
  entry_found (S (S k)) s1 hb 0 es x r s2 ->
  wp (match r with
      | Some contents =>
          file <- on_objs (new_obj 8 (OWords [hb; contents])) ;;
          node <- build_node_tarfs hb contents ;;
          on_objs (free_obj file) ;;;
          v <- on_objs (get_vnode node) ;;
          c <- on_bytes (strcmp v.(v_name) (path + 1)) ;;
          if c =? 0 then ret node else kont node
      | None => free_bytes hb ;;; on_objs (free_obj 0) ;;; ret 0
      end) (fun r t => looked_up s x es r t /\ store_ok k t.(fstore)) s2.
Proof.
  intros (al & m1 & n & -> & Hok1 & Htf & Hhf & Hne & Hhb & Hq & Htx & Hn) [Hfx Hfo] Hsm [Hq2 Hr].
  pose proof (quietly_objs _ _ _ _ Hq2) as Hobj. pose proof (quietly_ok _ _ _ _ Hq2) as Hok2.
  pose proof (quietly_mem _ _ _ _ Hq2) as Hm2. cbn [fmem fstore set_fmem set_fstore objs] in Hobj, Hm2.
  assert (Hqt : quiet s.(fstore).(objs) s.(fmem) s2.(fmem)).
  { eapply quiet_trans; [exact Hq|]. eapply quiet_mono; [|exact Hm2]. intros b z Hb.
    rewrite lookup_delete_ne, !lookup_insert_ne by congruence. done. }
  unfold looked_up, find_root_small in *. destruct (find_root x 0 es) as [[o e]|].
  - destruct Hr as (-> & Hx & Hsf & Hfl). destruct s2 as [[al2 o2] m2 ? ? ? ? ? ? ? ? ? ? ?]. cbn in Hobj. subst o2. cbn [fmem] in *.
    apply wp_bind, wp_objs. eapply wp_mono.
    { apply (new_obj_spec 8 (OWords _) (S k)); [exact Hok2|unfold SMALL; cbn; lia]. }
    intros file [al3 o3] (Hok3 & Hf0 & Hff & Ho3). cbn in Ho3, Hff. subst o3. apply wp_bind.
    eapply wp_mono; [eapply (build_node_spec k); [exact Hok3|exact Hsm|exact Hsf|exact Hfl]|].
    intros node' t (al4 & w & -> & Hok4 & Hr0 & Hfr & Hwn & Hws & Hwt & Hwb & Hwr & Hwf). cbn in Hok4, Hfr.
    apply lookup_insert_None in Hfr as [Hfr Hfn].
    apply wp_bind, wp_objs. eapply wp_mono; [apply (free_obj_spec file k); [exact Hok4|cbn; eexists; by lk]|].
    intros [] [al5 o5] [Hok5 Ho5]. cbn in Ho5. subst o5. rewrite delete_insert_ne, delete_insert_id in Hok5 by done.
    rewrite delete_insert_ne, delete_insert_id by done.
    apply wp_bind. eapply wp_read; [apply on_get_vnode; cbn; by lk|].
    apply wp_bind. eapply wp_read; [apply (on_strcmp _ x _ x); [by rewrite Hwn|]|].
    { eapply cstr_quiet; [exact Hfo|exact Hqt|exact Hfx]. }
    rewrite decide_True by done. cbn [Z.eqb]. apply wp_ret. split; [|exact Hok5]. cbn [fmem fstore set_fstore objs].
    apply lookup_insert_None in Hfr as [Hfr Hfr1]. apply lookup_insert_None in Hfr as [Hfr Hfr2].
    split_and!; [|done|done|done|].
    + apply map_subseteq_spec. intros a ob Hob. by rewrite !lookup_insert_ne by congruence.
    + exists w. split_and!; [by lk|split_and!; done|by rewrite Hwn].
  - subst r. destruct s2 as [[al2 o2] m2 ? ? ? ? ? ? ? ? ? ? ?]. cbn in Hobj. subst o2. cbn [fmem] in *.
    unfold free_bytes. apply wp_bind, wp_objs. eapply wp_mono; [apply (free_obj_spec hb (S (S k))); [exact Hok2|cbn; eexists; by lk]|].
    intros [] [al3 o3] [Hok3 Ho3]. cbn in Ho3. rewrite delete_insert_id in Ho3 by (by lk). subst o3.
    apply wp_bind, wp_objs. eapply wp_mono; [apply (free_null_spec (S (S k))); exact Hok3|].
    intros [] [al4 o4] [Hok4 Ho4]. cbn in Ho4. subst o4. apply wp_ret.
    split; [|by apply store_ok_mono, store_ok_mono]. cbn [fmem fstore set_fstore objs]. split_and!; [|done|done].
    apply map_subseteq_spec. intros a ob Hob. by rewrite !lookup_insert_ne by congruence.
Qed.

Lemma find_in_directory_spec k s path x es :
  store_ok (length es + S (S (S (S k)))) s.(fstore) -> root_mounted s s.(fstore).(objs) ->
  archive_at s.(fmem) v.(v_base_pointer) v.(v_size) 0 es -> Forall (fun e => e.(e_size) < 2 ^ 31) es ->
  0 < path -> str_at s path (SLASH :: x) -> x <> [] -> SLASH ∉ x -> Z.of_nat (length x) < 3000 ->
  wp (find_in_directory_tarfs fops magic node path) (fun r t => looked_up s x es r t /\ store_ok k t.(fstore)) s.
Proof.
  intros Hok Hroot Ha Hsz Hp0 Hp Hx Hsl Hlen. unfold find_in_directory_tarfs.
  pose proof Hroot as ((Hv & _) & Hn0 & _ & _ & HB & HN & _ & HBo & _).
  destruct (Z.eqb_spec node 0), (Z.eqb_spec path 0); try lia. cbn [orb].
  pose proof Hp as [[Hp1 [_ Hp2]] Hpo]. apply wp_bind. eapply wp_read; [apply on_peek|]. rewrite Hp1. cbn [negb Z.eqb Pos.eqb SLASH].
  apply wp_bind. eapply wp_read; [apply on_strlen, Hp|].
  destruct (Z.eqb_spec (Z.of_nat (length (SLASH :: x))) 1) as [Hl|_]; [destruct x; [done|cbn in Hl; lia]|].
  apply wp_bind. eapply wp_read; [apply on_bytes_read, (strrchr_spec _ _ [] SLASH x); [apply Hp|done]|].
  cbn [length Z.of_nat]. rewrite Z.add_0_r. apply wp_bind, wp_gets.
  unfold str_fuel. cbn [find_in_directory_tarfs_internal].
  destruct (Z.eqb_spec path 0), (Z.eqb_spec (path + 1) 0); try lia. cbn [orb].
  apply (searching_start (length es + S (S k)) s path x); [by rewrite !Nat.add_succ_r in *|done|done|done|].
  intros tmp hb t Hst. pose proof (searching_root _ _ _ _ _ _ Hst Hroot) as Hroot1. pose proof Hst as Hst'.
  destruct Hst as (al & m1 & nb & -> & Hok1 & Htf & Hhf & Hne & Hhb & Hq & Htx & Hn).
  apply wp_bind, wp_gets. apply wp_bind. set (s1 := set_fmem m1 _) in *.
  assert (Ha1 : archive_at s1.(fmem) v.(v_base_pointer) v.(v_size) 0 es).
  { eapply archive_ext; [|exact Ha]. intros y Hy. eapply Hq; [exact HBo|exact Hy]. }
  eapply wp_mono.
  { apply (find_entry_spec hb (tmp + 1) x es _ (S (S k)) s1 0 0); try done.
    - cbn. by lk.
    - cbn. rewrite delete_insert_id by (by lk). right. right. exists tmp, nb. split_and!; [by lk|lia|lia].
    - unfold str_fuel. apply Nat.lt_succ_r. by eapply archive_length. }
  intros r s2 [Hq2 Hr]. apply (found_rest _ k s path x es tmp hb s1 s2 r); [done| | |done].
  - split; [exact Hp2|]. destruct Hpo as [Hpo|[Hpo|(b & z & Hbz & ? & ?)]]; cbn [length] in *;
      [left; lia|right; left; lia|right; right]. exists b, z. split_and!; [done|lia|lia].
  - unfold find_root_small. destruct (find_root x 0 es) as [[o e]|] eqn:Hfr; [|done].
    destruct (find_root_at _ _ _ _ _ _ _ _ Ha Hfr) as (_ & ? & ? & ?). unfold next_entry in *.
    assert (e.(e_size) <= (e_size e + 511) / 512 * 512) by zdm. lia.
Qed.

(** ** Reading a file *)

Lemma tarfs_read_spec s file w start size buffer :
  s.(fstore).(objs) !! file = Some (OVnode w) -> file <> 0 -> w.(v_read) = tarfs_fn ->
  w.(v_type_flags) <> VFS_NODE_TYPE_DIRE -> 0 < w.(v_base_pointer) -> 0 <= w.(v_size) < 2 ^ 31 ->
  - 2 ^ 31 <= start < 2 ^ 31 -> 0 <= size < 2 ^ 31 -> buffer <> 0 ->
  buffer + size <= w.(v_base_pointer) \/ w.(v_base_pointer) + w.(v_size) <= buffer ->
  wp (read_from_vfs_node fops file start size buffer) (fun r t =>
    if (start <? 0) || (w.(v_size) <=? start) then r = -1 /\ t = s
    else r = Z.min size (w.(v_size) - start) /\ exists m', t = set_fmem m' s /\ forall x,
      rd8 m' x = if decide (buffer <= x < buffer + r) then rd8 s.(fmem) (w.(v_base_pointer) + start + (x - buffer))
                 else rd8 s.(fmem) x) s.
Proof.
  intros Hw Hf0 Hr Hty HB HN Hst Hsz Hb0 Hd. unfold read_from_vfs_node.
  destruct (Z.eqb_spec file 0); [done|]. apply wp_bind. eapply wp_read; [by apply on_get_vnode|].
  rewrite Hr. cbn [is_null]. destruct (Z.eqb_spec buffer 0); [done|]. destruct (Z.ltb_spec size 0); [lia|].
  cbn [op_read tarfs_file_ops]. unfold read_node_tarfs. apply wp_bind. eapply wp_read; [by apply on_get_vnode|].
  destruct (Z.eqb_spec w.(v_base_pointer) 0), (Z.eqb_spec w.(v_type_flags) VFS_NODE_TYPE_DIRE); try lia.
  cbn [negb andb]. destruct (Z.ltb_spec start 0) as [Hneg|Hpos]; cbn [orb].
  - assert (v_size w <= u32 start) by (unfold u32; zdm). destruct (Z.leb_spec (v_size w) (u32 start)); [|lia].
    by apply wp_ret.
  - rewrite (u32_small start), (u32_small size), (i32_small start) by lia.
    destruct (Z.ltb_spec start 0); [lia|]. rewrite orb_false_r.
    destruct (Z.leb_spec (v_size w) start); [by apply wp_ret|].
    rewrite (u32_small (_ - 1)), (u32_small (start + size)) by lia.
    assert ((if v_size w - 1 <? start + size then u32 (v_size w - start) else size) = Z.min size (v_size w - start)) as ->.
    { destruct (Z.ltb_spec (v_size w - 1) (start + size)); [rewrite u32_small by lia|]; lia. }
    rewrite i32_small by lia. apply wp_bind, wp_bytes, wp_modify, wp_ret. split; [done|].
    eexists. split; [done|]. intros x. rewrite memcpy_8_rd by lia. done.
Qed.

(** C5: Opening a file of the mounted archive by its name and reading it yields
    the archive's bytes.  For any archive of entries and any path of one
    segment that does not name a directory, the look-up terminates and finds the
    first entry that counts as that name in the root directory, NULL when there
    is none; a read of the node found, at any offset and of any size into a buffer in a block of its own,
    returns -1 outside the file and otherwise copies exactly the bytes stored
    behind that entry's header, clipped to the file. *)
Theorem tarfs_file_contents k s path x es start size bb bn :
  store_ok (length es + S (S (S (S k)))) s.(fstore) -> root_mounted s s.(fstore).(objs) ->
  archive_at s.(fmem) v.(v_base_pointer) v.(v_size) 0 es ->
  Forall (fun e => e.(e_size) < 2 ^ 31) es ->
  (forall o e, find_root x 0 es = Some (o, e) -> get_type_flags e.(e_flag) <> VFS_NODE_TYPE_DIRE) ->
  0 < path -> str_at s path (SLASH :: x) -> x <> [] -> SLASH ∉ x -> Z.of_nat (length x) < 3000 ->
  s.(fstore).(objs) !! bb = Some (OBytes bn) -> bb + size <= v.(v_base_pointer) \/ v.(v_base_pointer) + v.(v_size) <= bb ->
  - 2 ^ 31 <= start < 2 ^ 31 -> 0 <= size <= bn -> bn < 2 ^ 31 ->
  wp (f <- find_in_directory_tarfs fops magic node path ;;
      r <- (if f =? 0 then ret (-1) else read_from_vfs_node fops f start size bb) ;; ret (f, r))
     (fun fr t => match find_root x 0 es with
        | None => fr.1 = 0
        | Some (o, e) => fr.1 <> 0 /\
            if (start <? 0) || (e.(e_size) <=? start) then fr.2 = -1
            else fr.2 = Z.min size (e.(e_size) - start) /\ forall i, 0 <= i < fr.2 ->
              rd8 t.(fmem) (bb + i) = rd8 s.(fmem) (v.(v_base_pointer) + o + 512 + start + i)
        end) s.
Proof.
  intros Hok Hroot Ha Hes Hdir Hp0 Hp Hx Hsl Hlen Hbb Hbv Hst Hsz Hbn. apply wp_bind. eapply wp_mono.
  { by apply (find_in_directory_spec k s path x es). }
  intros f t [(Hsub & Hq & Hf) _]. destruct (find_root x 0 es) as [[o e]|] eqn:Hfr; [|by subst f].
  destruct Hf as (Hf0 & _ & w & Hw & (Hws & Hwt & Hwb & Hwr & _) & _). destruct (Z.eqb_spec f 0); [done|].
  destruct (find_root_at _ _ _ _ _ _ _ _ Ha Hfr) as (_ & Ho & Hs0 & Hne).
  pose proof Hroot as (_ & _ & _ & _ & HB & HN & HBN & HBo & _).
  assert (Hpad : e.(e_size) <= (e_size e + 511) / 512 * 512) by zdm. unfold next_entry in Hne.
  pose proof (Hdir _ _ eq_refl) as Hty.
  assert (Hwb' : 0 < w.(v_base_pointer) /\ (bb + size <= w.(v_base_pointer) \/ w.(v_base_pointer) + w.(v_size) <= bb) /\
    (0 < e.(e_size) -> w.(v_base_pointer) = v.(v_base_pointer) + o + 512)).
  { rewrite Hwb, Hws. unfold contents_at, TARFS_HDR_SIZE. destruct (Z.ltb_spec 0 (e_size e)); [|lia].
    rewrite !u32_small by (rewrite ?u32_small by lia; lia). lia. }
  destruct Hwb' as (Hwb0 & Hwbb & Hwbe). apply wp_bind.
  assert (Hbb0 : bb <> 0) by (intros ->; destruct Hok as (_ & _ & _ & ?); congruence).
  eapply wp_mono; [apply (tarfs_read_spec t f w start size bb); try done; [congruence|lia|lia]|].
  intros r u Hr. apply wp_ret. cbn [fst snd]. split; [done|]. rewrite Hws in Hr.
  destruct (Z.ltb_spec start 0), (Z.leb_spec (e_size e) start); cbn [orb] in *; try apply Hr.
  destruct Hr as (-> & m' & -> & Hm'). split; [done|]. intros i Hi. cbn [fmem set_fmem].
  rewrite Hm', decide_True, Hwbe by lia.
  replace (v_base_pointer v + o + 512 + start + (bb + i - bb)) with (v_base_pointer v + o + 512 + start + i) by lia.
  eapply Hq; [exact HBo|lia].
Qed.

(** A file of a subdirectory can be taken for a file of the root directory:
    when the name of the subdirectory begins with the name of the file ("./abc/ab"),
    [check_parse_filename] finds the child's name at the start of the path,
    reports a child of the root directory and puts its bare name in the header. *)
Theorem nested_file_in_root k s hb (b rest : list Z) :
  store_ok (S k) s.(fstore) -> s.(fstore).(objs) !! hb = Some (OBytes 512) -> 0 < hb ->
  root_dir s (delete hb s.(fstore).(objs)) node v ->
  cstr s.(fmem) hb (DOT :: SLASH :: (b ++ rest) ++ SLASH :: b) ->
  b <> [] -> SLASH ∉ b -> Z.of_nat (length ((b ++ rest) ++ SLASH :: b)) < 98 ->
  wp (check_parse_filename hb node) (fun r t => r = 0 /\ cstr t.(fmem) hb b) s.
Proof.
  intros Hok Hb Hb0 Hroot Hc Hne Hsl Hlen. eapply wp_mono; [by eapply (check_parse_spec k s hb node v)|].
  intros r t (_ & _ & Hr). set (path := (b ++ rest) ++ SLASH :: b) in *.
  assert (Hst : strip (SLASH :: path) = SLASH :: path).
  { unfold strip. rewrite decide_False; [done|]. unfold path. rewrite app_comm_cons, last_app_cons.
    destruct b as [|c b] using rev_ind; [done|]. rewrite app_comm_cons, last_snoc. intros [= ->].
    apply Hsl, elem_of_app. right. by left. }
  assert (Hbn : forall l, base_name (l ++ SLASH :: b) = Some b).
  { intros l. induction l as [|c l IH]; cbn [app base_name]; [|by rewrite IH].
    assert (base_name b = None) as ->; [|done]. clear -Hsl. induction b as [|c b IH]; [done|]. cbn.
    apply not_elem_of_cons in Hsl as [Hc Hsl]. rewrite IH by done. destruct (Z.eqb_spec c SLASH); [congruence|done]. }
  unfold root_child in Hr. rewrite decide_False, Hst in Hr; [|by destruct b].
  unfold path in Hr. rewrite app_comm_cons, Hbn, decide_True in Hr; [done|].
  cbn. apply prefix_cons. rewrite <- app_assoc. by apply prefix_app_r.
Qed.
End search.

(** ** A small archive *)

#[local] Existing Instance bump_allocator.

Definition pad (n : nat) (l : list Z) : list Z := l ++ replicate (n - length l) 0.
Definition header_of (name : list Z) (size flag : Z) : list Z :=
  pad 512 (pad 257 (pad 156 (pad 124 name ++ octal 11 size) ++ [flag]) ++ USTAR).

(** "./", "./i" with three bytes, and "./ib/i" with two. *)
Definition demo_entries : list entry := [Entry [] 0 53; Entry [105] 3 48; Entry [105; 98; 47; 105] 2 48].
Definition demo_archive : list Z :=
  header_of [46; 47] 0 53 ++ header_of [46; 47; 105] 3 48 ++ pad 512 [7; 8; 9] ++
  header_of [46; 47; 105; 98; 47; 105] 2 48 ++ pad 512 [5; 6] ++ replicate 1024 0.

Fixpoint put_bytes (m : mem) (p : Z) (l : list Z) : mem :=
  match l with [] => m | c :: l' => put_bytes (wr8 m p c) (p + 1) l' end.

Definition tar_root : vnode :=
  VNode (STATIC + 10) 0 3584 VFS_NODE_TYPE_DIRE 0 no_fn tarfs_fn tarfs_fn tarfs_fn tarfs_fn no_fn no_fn
        tarfs_fn tarfs_fn tarfs_fn (STATIC + 10000) 0.
Definition demo_tar : fstate bump unit :=
  FState (Store (Bump 1030 (<[1 := 0]> (<[2 := 16]> (<[100 := 512]> ∅))))
    (<[1 := OVnode tar_root]> (<[2 := OBytes 16]> (<[100 := OBytes 512]> ∅))))
    (put_bytes (put_str (put_str (put_str (put_bytes ∅ 100 (header_of [46; 47; 105; 98; 47; 105] 2 48))
       (STATIC + 10) [47]) (STATIC + 20) USTAR) (STATIC + 40) [47; 105]) (STATIC + 10000) demo_archive)
    0 0 0 0 0 0 0 0 0 0 tt.

Definition no_ops : file_ops bump unit :=
  FileOps (fun _ _ => fault) (fun _ _ => fault) (fun _ _ _ _ _ => fault) (fun _ _ _ _ _ => fault)
          (fun _ _ _ _ => fault) (fun _ _ => fault).

Lemma demo_tar_ok : store_ok 7 demo_tar.(fstore).
Proof. store_by_compute. Qed.

Lemma demo_tar_root o : root_mounted (STATIC + 20) 1 tar_root demo_tar o.
Proof.
  assert (Hcs : cstr demo_tar.(fmem) (STATIC + 10) [47] /\ cstr demo_tar.(fmem) (STATIC + 20) USTAR)
    by (apply (bool_decide_unpack _); by vm_compute).
  destruct Hcs as [H1 H2].
  split; [split; [done|split; [done|split; [exact H1|by right; left]]]|].
  do 7 (split; [first [done | by right; left]|]). split; [exact H2|by right; left].
Qed.

Lemma tarfs_file_contents_witness :
  wp (f <- find_in_directory_tarfs (tarfs_file_ops no_ops) (STATIC + 20) 1 (STATIC + 40) ;;
      r <- (if f =? 0 then ret (-1) else read_from_vfs_node (tarfs_file_ops no_ops) f 1 16 2) ;; ret (f, r))
     (fun fr t => fr.1 <> 0 /\ fr.2 = 2 /\ forall i, 0 <= i < fr.2 ->
        rd8 t.(fmem) (2 + i) = rd8 demo_tar.(fmem) (STATIC + 10000 + 512 + 512 + 1 + i)) demo_tar.
Proof.
  apply (tarfs_file_contents no_ops (STATIC + 20) 1 tar_root 0 demo_tar (STATIC + 40) [105] demo_entries 1 16 2 16).
  - exact demo_tar_ok.
  - apply demo_tar_root.
  - apply (bool_decide_unpack _). by vm_compute.
  - repeat constructor.
  - intros o e. vm_compute. by intros [= <- <-].
  - done.
  - split; [by vm_compute|]. right. by left.
  - done.
  - by apply (bool_decide_unpack _).
  - done.
  - done.
  - left. by vm_compute.
  - done.
  - done.
  - done.
Defined.

Lemma nested_file_in_root_witness :
  wp (check_parse_filename 100 1) (fun r t => r = 0 /\ cstr t.(fmem) 100 [105]) demo_tar.
Proof.
  apply (nested_file_in_root 1 tar_root 6 demo_tar 100 [105] [98]).
  - exact demo_tar_ok.
  - done.
  - done.
  - apply (demo_tar_root (delete 100 demo_tar.(fstore).(objs))).
  - by vm_compute.
  - done.
  - by apply (bool_decide_unpack _).
  - done.
Defined.
