(* ===== verification/Gtty.v ===== *)
(** The terminal, [drivers/devices/gtty/gtty.c]: text on the character screen or
    the frame buffer, and the line of input.

    The display is reached through its device file; here it is a record of the
    two operations the terminal uses, [display].  The glyphs [font16] are a
    parameter: the theorems hold for every font of 128 symbols of 16 rows. *)
From stdpp Require Import base numbers gmap list.
From S2P Require Import Prelude Arrays Vga Vesa Keyboard.

Definition GTTY_CMD_SET_MODE : Z := 0x01.
Definition GTTY_CMD_GET_MODE : Z := 0x02.
Definition GTTY_CMD_GETW : Z := 0x03.
Definition GTTY_CMD_GETH : Z := 0x04.
Definition GTTY_CMD_CLEAR : Z := 0x05.
Definition GTTY_CMD_GET_FG_COLOUR : Z := 0x06.
Definition GTTY_CMD_SET_FG_COLOUR : Z := 0x07.
Definition GTTY_CMD_GET_BG_COLOUR : Z := 0x08.
Definition GTTY_CMD_SET_BG_COLOUR : Z := 0x09.
Definition GTTY_CMD_ECHO_ENABLE : Z := 0x0A.
Definition GTTY_CMD_ECHO_DISABLE : Z := 0x0B.
Definition GTTY_CMD_INPUT_READY : Z := 0x0C.
Definition GTTY_CMD_GET_DISP_TYPE : Z := 0x0D.
Definition GTTY_MODE_TXT : Z := 0x00.
Definition GTTY_MODE_PX : Z := 0x01.
Definition GTTY_DISP_TYPE_VGA : Z := 0x00.
Definition GTTY_DISP_TYPE_VESA : Z := 0x01.
Definition GTTY_INPUT_BUFFER_LEN : Z := 1024.

Definition margin_x : Z := 8.
Definition margin_y_top : Z := 44.
Definition margin_y_bottom : Z := 8.
Definition line_height : Z := 16.
Definition line_width : Z := 8.

(** [node_write] and [node_control] of the display's device file. *)
Record display (X : Type) := Display {
  node_write : Z -> Z -> (Z -> Z) -> cmd X Z;
  node_control : Z -> (Z -> Z) -> cmd X Z
}.
Arguments Display {X}.
Arguments node_write {X}.
Arguments node_control {X}.

Definition vga_display (device : Z) : display vga := Display (vga_dev_write device) (vga_dev_control device).
Definition vesa_display (device : Z) : display vesa := Display (vesa_dev_write device) (vesa_dev_control device).

Record colour := Colour { c_alpha : Z; c_r : Z; c_g : Z; c_b : Z }.

(** The globals of [gtty.c]; [input_buffer] and [command_buffer] are the blocks
    allocated for them, [world] is the display. *)
Record gtty (X : Type) := Gtty {
  gtty_device : Z;
  input_buffer : list Z; input_buffer_index : Z; input_buffer_size : Z; input_buffer_flag : Z;
  display_type : Z; display_mode : Z; gtty_status : Z;
  buffer_width : Z; buffer_height : Z; main_x : Z; main_y : Z; gtty_echo : Z;
  fg : colour; bg : colour; command_buffer : list Z; vesa_cursor_status : Z;
  world : X
}.
Arguments Gtty {X}.
Arguments gtty_device {X}.
Arguments input_buffer {X}.
Arguments input_buffer_index {X}.
Arguments input_buffer_size {X}.
Arguments input_buffer_flag {X}.
Arguments display_type {X}.
Arguments display_mode {X}.
Arguments gtty_status {X}.
Arguments buffer_width {X}.
Arguments buffer_height {X}.
Arguments main_x {X}.
Arguments main_y {X}.
Arguments gtty_echo {X}.
Arguments fg {X}.
Arguments bg {X}.
Arguments command_buffer {X}.
Arguments vesa_cursor_status {X}.
Arguments world {X}.

Section terminal.
Context {X : Type}.
Variables (disp : display X) (font16 : list (list Z)).
Implicit Types (s : gtty X).
#[local] Abbreviation tty := (gtty X).

(** Setters of the fields the operations change. *)
Definition set_input (b : list Z) (i sz f : Z) s : tty :=
  Gtty s.(gtty_device) b i sz f s.(display_type) s.(display_mode) s.(gtty_status) s.(buffer_width)
       s.(buffer_height) s.(main_x) s.(main_y) s.(gtty_echo) s.(fg) s.(bg) s.(command_buffer)
       s.(vesa_cursor_status) s.(world).
Definition set_xy (x y : Z) s : tty :=
  Gtty s.(gtty_device) s.(input_buffer) s.(input_buffer_index) s.(input_buffer_size) s.(input_buffer_flag)
       s.(display_type) s.(display_mode) s.(gtty_status) s.(buffer_width) s.(buffer_height) x y s.(gtty_echo)
       s.(fg) s.(bg) s.(command_buffer) s.(vesa_cursor_status) s.(world).
Definition set_modes (m e : Z) s : tty :=
  Gtty s.(gtty_device) s.(input_buffer) s.(input_buffer_index) s.(input_buffer_size) s.(input_buffer_flag)
       s.(display_type) m s.(gtty_status) s.(buffer_width) s.(buffer_height) s.(main_x) s.(main_y) e s.(fg)
       s.(bg) s.(command_buffer) s.(vesa_cursor_status) s.(world).
Definition set_colours (f b : colour) s : tty :=
  Gtty s.(gtty_device) s.(input_buffer) s.(input_buffer_index) s.(input_buffer_size) s.(input_buffer_flag)
       s.(display_type) s.(display_mode) s.(gtty_status) s.(buffer_width) s.(buffer_height) s.(main_x)
       s.(main_y) s.(gtty_echo) f b s.(command_buffer) s.(vesa_cursor_status) s.(world).
Definition set_cursor_status (v : Z) s : tty :=
  Gtty s.(gtty_device) s.(input_buffer) s.(input_buffer_index) s.(input_buffer_size) s.(input_buffer_flag)
       s.(display_type) s.(display_mode) s.(gtty_status) s.(buffer_width) s.(buffer_height) s.(main_x)
       s.(main_y) s.(gtty_echo) s.(fg) s.(bg) s.(command_buffer) v s.(world).
Definition set_world (c : list Z) (w : X) s : tty :=
  Gtty s.(gtty_device) s.(input_buffer) s.(input_buffer_index) s.(input_buffer_size) s.(input_buffer_flag)
       s.(display_type) s.(display_mode) s.(gtty_status) s.(buffer_width) s.(buffer_height) s.(main_x)
       s.(main_y) s.(gtty_echo) s.(fg) s.(bg) c s.(vesa_cursor_status) w.

Definition on_world {B} (c : cmd X B) : cmd tty B :=
  fun s => match c s.(world) with
           | Ret (b, w) => Ret (b, set_world s.(command_buffer) w s)
           | Fault => Fault
           | Hang => Hang
           end.
(** [command_buffer[i] = v] *)
Definition put_command (i v : Z) : cmd tty unit :=
  fun s => match arr_set s.(command_buffer) i (u32 v) with
           | Some c => Ret (tt, set_world c s.(world) s)
           | None => Fault
           end.
Definition arguments s : Z -> Z := fun i => default 0 (arr_get s.(command_buffer) i).
Definition put_input (i v : Z) : cmd tty unit :=
  fun s => match arr_set s.(input_buffer) i v with
           | Some b => Ret (tt, set_input b s.(input_buffer_index) s.(input_buffer_size) s.(input_buffer_flag) s)
           | None => Fault
           end.

Definition disp_write (location size : Z) (buffer : Z -> Z) : cmd tty Z :=
  on_world (node_write disp location size buffer).
(** A command with the command buffer as its arguments. *)
Definition disp_command (command : Z) : cmd tty Z :=
  a <- gets arguments ;; on_world (node_control disp command a).
(** A command with NULL, of which no word is read. *)
Definition disp_query (command : Z) : cmd tty Z := on_world (node_control disp command (fun _ => 0)).

Definition gtty_xy_to_location (x y : Z) : cmd tty Z :=
  gets (fun s => u32 (i32 (x + i32 (y * s.(buffer_width))))).

Definition packed (c : colour) : Z :=
  u32 (Z.lor (Z.lor (Z.lor (Z.shiftl c.(c_alpha) 24) (Z.shiftl c.(c_r) 16)) (Z.shiftl c.(c_g) 8)) c.(c_b)).

(** ** Drawing on the frame buffer *)

(** One row of a symbol: [for(int j=7; xd < line_width; j--, xd++)] *)
Definition draw_row (row x y : Z) (c : colour) : cmd tty unit :=
  for_ (Z.to_nat line_width) 0 (fun xd =>
    back <- gets bg ;;
    put_command 0 (packed (if Z.testbit row (7 - xd) then c else back)) ;;;
    location <- gtty_xy_to_location (i32 (xd + x)) y ;;
    a <- gets arguments ;;
    disp_write location 1 a ;;;
    ret tt).
(** [byte] holds 16 rows. *)
Definition gtty_vesa_draw_symbol (x y : Z) (byte : list Z) (c : colour) : cmd tty unit :=
  for_ (Z.to_nat line_height) 0 (fun yd =>
    row <- of_option (arr_get byte yd) ;;
    draw_row row x (i32 (yd + y)) c).

(** [font16[(int)c]], where [c] is a signed [char]. *)
Definition gtty_vesa_draw_char (x y ch : Z) (c : colour) : cmd tty unit :=
  byte <- of_option (arr_get font16 (if ch <? 128 then ch else ch - 256)) ;;
  gtty_vesa_draw_symbol x y byte c.

Definition vesa_cursor_on : list Z := replicate 16 0xC0.
Definition vesa_cursor_off : list Z := replicate 16 0x00.

Definition vesa_cursor_handler : cmd tty unit :=
  s <- gets (fun s => s) ;;
  if s.(vesa_cursor_status) =? 0 then
    gtty_vesa_draw_symbol (i32 (s.(main_x) + 1)) s.(main_y) vesa_cursor_on s.(fg) ;;;
    modify (set_cursor_status 1)
  else
    gtty_vesa_draw_symbol (i32 (s.(main_x) + 1)) s.(main_y) vesa_cursor_off s.(fg) ;;;
    modify (set_cursor_status 0).

(** [vesa_cursor_status = 1; vesa_cursor_handler(NULL);] *)
Definition clear_cursor : cmd tty unit := modify (set_cursor_status 1) ;;; vesa_cursor_handler.

Definition gtty_vesa_scroll : cmd tty unit :=
  s <- gets (fun s => s) ;;
  let w := s.(buffer_width) in
  let h := s.(buffer_height) in
  let index_in := i32 (w * margin_y_top + margin_x) in
  let index_out := i32 (w * (h - (margin_y_bottom + line_height)) + (w - margin_x)) in
  let index_in_plus := i32 (w * (margin_y_top + line_height) + margin_x) in
  put_command 0 index_in ;;;
  put_command 1 index_in_plus ;;;
  put_command 2 (index_out - index_in) ;;;
  disp_command VESA_CMD_MOVD ;;;
  let index2_in := i32 (w * ((h - margin_y_bottom) - line_height) + margin_x) in
  let index2_out := i32 (w * (h - margin_y_bottom) + (w - margin_x)) in
  put_command 0 index2_in ;;;
  put_command 1 (index2_out - index2_in) ;;;
  put_command 2 (packed s.(bg)) ;;;
  disp_command VESA_CMD_SETD ;;;
  ret tt.

(** ** Text on the frame buffer *)

(** The branches of [gtty_write_vesa] but the tab. *)
Definition vesa_put (c : Z) : cmd tty unit :=
  if c =? 8 then
    clear_cursor ;;;
    s <- gets (fun s => s) ;;
    if 1 <=? s.(input_buffer_index) then
      modify (set_input s.(input_buffer) (i32 (s.(input_buffer_index) - 1)) s.(input_buffer_size) s.(input_buffer_flag)) ;;;
      put_input (i32 (s.(input_buffer_index) - 1)) 0 ;;;
      (if 0 <? s.(main_x) then modify (set_xy (i32 (s.(main_x) - line_width)) s.(main_y))
       else if 0 <? s.(main_y) then
         modify (set_xy (i32 (s.(buffer_width) - line_width)) (i32 (s.(main_y) - line_height)))
       else ret tt) ;;;
      s <- gets (fun s => s) ;;
      gtty_vesa_draw_char s.(main_x) s.(main_y) 32 s.(fg)
    else ret tt
  else if c =? 10 then
    clear_cursor ;;;
    modify (fun s => set_xy margin_x (i32 (s.(main_y) + line_height)) s)
  else if c =? 13 then
    clear_cursor ;;;
    modify (fun s => set_xy margin_x s.(main_y) s)
  else
    clear_cursor ;;;
    s <- gets (fun s => s) ;;
    gtty_vesa_draw_char s.(main_x) s.(main_y) c s.(fg) ;;;
    modify (fun s => set_xy (i32 (s.(main_x) + line_width)) s.(main_y) s).

(** What follows every character: the right and the bottom border. *)
Definition vesa_borders : cmd tty unit :=
  s <- gets (fun s => s) ;;
  (when i32 (s.(buffer_width) - margin_x - 1) <? s.(main_x) do
     (clear_cursor ;;; modify (fun s => set_xy margin_x (i32 (s.(main_y) + line_height)) s))) ;;;
  s <- gets (fun s => s) ;;
  (when i32 (s.(buffer_height) - (margin_y_bottom + line_height)) <? s.(main_y) do
     (clear_cursor ;;;
      gtty_vesa_scroll ;;;
      modify (fun s => set_xy s.(main_x) (i32 (s.(buffer_height) - (margin_y_bottom + line_height))) s))).

(** A tab is four recursive calls with a space. *)
Definition vesa_char (c : Z) : cmd tty unit :=
  (if c =? 9 then for_ 4 0 (fun _ => vesa_put 32 ;;; vesa_borders) else vesa_put c) ;;; vesa_borders.

(** [buffer i] is the [i]-th byte of the caller's buffer, [words i] its [i]-th
    word. *)
Definition gtty_write_vesa (start_at size : Z) (buffer words : Z -> Z) : cmd tty Z :=
  m <- gets display_mode ;;
  if m =? GTTY_MODE_PX then disp_write start_at size words
  else
    for_ (Z.to_nat (i32 size)) 0 (fun i => vesa_char (u8 (buffer i))) ;;;
    ret (i32 size).

(** ** Text on the character screen *)

(** [command_buffer[0] = gtty_xy_to_location(x, y)] and the cursor moved there. *)
Definition move_to (x y : Z) : cmd tty unit :=
  arg <- gtty_xy_to_location x y ;;
  put_command 0 arg ;;;
  disp_command VGA_CMD_MOVCRS ;;;
  ret tt.

(** The branches of [gtty_write_vga] but the tab. *)
Definition vga_put (c : Z) : cmd tty unit :=
  s <- gets (fun s => s) ;;
  if c =? 8 then
    if 1 <=? s.(input_buffer_index) then
      modify (set_input s.(input_buffer) (i32 (s.(input_buffer_index) - 1)) s.(input_buffer_size) s.(input_buffer_flag)) ;;;
      put_input (i32 (s.(input_buffer_index) - 1)) 0 ;;;
      (if 0 <? s.(main_x) then modify (set_xy (i32 (s.(main_x) - 1)) s.(main_y))
       else if 0 <? s.(main_y) then modify (set_xy (i32 (s.(buffer_width) - 1)) (i32 (s.(main_y) - 1)))
       else ret tt) ;;;
      s <- gets (fun s => s) ;;
      location <- gtty_xy_to_location s.(main_x) s.(main_y) ;;
      disp_write location 1 (fun _ => 32) ;;;
      move_to s.(main_x) s.(main_y)
    else ret tt
  else if c =? 10 then
    modify (set_xy 0 (i32 (s.(main_y) + 1))) ;;;
    move_to 0 (i32 (s.(main_y) + 1))
  else if c =? 13 then
    modify (set_xy 0 s.(main_y)) ;;;
    move_to 0 s.(main_y)
  else
    location <- gtty_xy_to_location s.(main_x) s.(main_y) ;;
    disp_write location 1 (fun _ => c) ;;;
    modify (set_xy (i32 (s.(main_x) + 1)) s.(main_y)) ;;;
    move_to (i32 (s.(main_x) + 1)) s.(main_y).

(** What follows every character: the end of the line and of the screen. *)
Definition vga_borders : cmd tty unit :=
  s <- gets (fun s => s) ;;
  (when i32 (s.(buffer_width) - 1) <? s.(main_x) do
     (modify (set_xy 0 (i32 (s.(main_y) + 1))) ;;;
      move_to 0 (i32 (s.(main_y) + 1)))) ;;;
  s <- gets (fun s => s) ;;
  (when i32 (s.(buffer_height) - 1) <? s.(main_y) do
     (disp_query VGA_CMD_SCROLL ;;;
      move_to s.(main_x) (i32 (s.(buffer_height) - 1)) ;;;
      modify (set_xy s.(main_x) (i32 (s.(main_y) - 1))))).

Definition vga_char (c : Z) : cmd tty unit :=
  (if c =? 9 then for_ 4 0 (fun _ => vga_put 32 ;;; vga_borders) else vga_put c) ;;; vga_borders.

Definition gtty_write_vga (start_at size : Z) (buffer : Z -> Z) : cmd tty Z :=
  m <- gets display_mode ;;
  if m =? GTTY_MODE_PX then ret (-1)
  else
    for_ (Z.to_nat (i32 size)) 0 (fun i => vga_char (u8 (buffer i))) ;;;
    ret (i32 size).

(** ** The device *)

Definition gtty_dev_open (device : Z) : cmd tty Z := ret 0.
Definition gtty_dev_close (device : Z) : cmd tty Z := ret 0.

(** The bytes copied into the caller's buffer are the second component. *)
Definition gtty_dev_read (device start_at size buffer : Z) : cmd tty (Z * list Z) :=
  if (device =? 0) || (buffer =? 0) then ret (-1, [])
  else
    s <- gets (fun s => s) ;;
    if (s.(input_buffer_flag) =? 1) && (i32 size =? s.(input_buffer_size)) then
      let index := s.(input_buffer_index) in
      bytes <- of_option (if index <=? Z.of_nat (length s.(input_buffer))
                          then Some (take (Z.to_nat index) s.(input_buffer)) else None) ;;
      modify (set_input (replicate (Z.to_nat GTTY_INPUT_BUFFER_LEN) 0) 0 0 0) ;;;
      ret (index, bytes)
    else ret (-1, []).

Definition gtty_dev_write (device start_at size buffer : Z) (bytes words : Z -> Z) : cmd tty Z :=
  if (device =? 0) || (buffer =? 0) then ret (-1)
  else
    t <- gets display_type ;;
    if t =? GTTY_DISP_TYPE_VESA then gtty_write_vesa start_at size bytes words
    else gtty_write_vga start_at size bytes.

(** The four bytes of a colour argument. *)
Definition unpacked (v : Z) : colour :=
  Colour (u8 (Z.shiftr v 24)) (u8 (Z.shiftr v 16)) (u8 (Z.shiftr v 8)) (u8 v).

(** The number of characters that fit between two margins. *)
Definition fit (extent margins step : Z) : Z := Z.quot (i32 (extent - margins)) step.

Definition gtty_dev_control (device command : Z) (args : Z -> Z) : cmd tty Z :=
  s <- gets (fun s => s) ;;
  let vesa := s.(display_type) =? GTTY_DISP_TYPE_VESA in
  let vga := s.(display_type) =? GTTY_DISP_TYPE_VGA in
  let txt := s.(display_mode) =? GTTY_MODE_TXT in
  if negb (device =? s.(gtty_device)) || (command =? 0) then ret (-1)
  else if command =? GTTY_CMD_SET_MODE then
    if vga && (i32 (args 0) =? GTTY_MODE_PX) then ret (-1)
    else if (i32 (args 0) =? GTTY_MODE_PX) || (i32 (args 0) =? GTTY_MODE_TXT) then
      modify (set_modes (i32 (args 0)) s.(gtty_echo)) ;;; ret (i32 (args 0))
    else ret 0
  else if command =? GTTY_CMD_GET_MODE then ret s.(display_mode)
  else if command =? GTTY_CMD_GETW then
    if vesa then
      size <- disp_query VESA_CMD_GETW ;;
      ret (if txt then fit size (margin_x * 2) line_width else size)
    else if vga then disp_query VGA_CMD_GET_W
    else ret (-1)
  else if command =? GTTY_CMD_GETH then
    if vesa then
      size <- disp_query VESA_CMD_GETH ;;
      ret (if txt then fit size (margin_y_top + margin_y_bottom) line_height else size)
    else if vga then disp_query VGA_CMD_GET_H
    else ret (-1)
  else if command =? GTTY_CMD_CLEAR then
    if vesa then
      r <- (if s.(display_mode) =? GTTY_MODE_PX then disp_query VESA_CMD_CLRSC
            else on_world (node_control disp VESA_CMD_CLRFROM
                             (fun _ => u32 (margin_y_top * s.(buffer_width)))) ;;; ret 0) ;;
      modify (set_xy margin_x margin_y_top) ;;;
      ret r
    else
      modify (set_xy 0 0) ;;;
      disp_query VGA_CMD_CLRSCR
  else if command =? GTTY_CMD_GET_FG_COLOUR then
    if vesa then ret (i32 (packed (Colour s.(bg).(c_alpha) s.(fg).(c_r) s.(fg).(c_g) s.(fg).(c_b))))
    else disp_query VGA_CMD_GET_FG_COLOUR
  else if command =? GTTY_CMD_GET_BG_COLOUR then
    if vesa then ret (i32 (packed s.(bg))) else disp_query VGA_CMD_GET_BG_COLOUR
  else if command =? GTTY_CMD_SET_FG_COLOUR then
    if vesa then modify (set_colours (unpacked (args 0)) s.(bg)) ;;; ret 0
    else on_world (node_control disp VGA_CMD_SET_FG_COLOUR args)
  else if command =? GTTY_CMD_SET_BG_COLOUR then
    if vesa then modify (set_colours s.(fg) (unpacked (args 0))) ;;; ret 0
    else on_world (node_control disp VGA_CMD_SET_BG_COLOUR args)
  else if command =? GTTY_CMD_ECHO_ENABLE then modify (set_modes s.(display_mode) 1) ;;; ret 0
  else if command =? GTTY_CMD_ECHO_DISABLE then modify (set_modes s.(display_mode) 0) ;;; ret 0
  else if command =? GTTY_CMD_INPUT_READY then
    (when s.(input_buffer_size) =? 0 do
       modify (set_input s.(input_buffer) s.(input_buffer_index) (i32 (args 0)) 0)) ;;;
    gets input_buffer_flag
  else if command =? GTTY_CMD_GET_DISP_TYPE then ret s.(display_type)
  else ret (-1).

Definition gtty_dev_status (device : Z) : cmd tty Z :=
  gets (fun s => if device =? s.(gtty_device) then u32 s.(gtty_status) else 0xFFFFFFFF).

(** ** Input *)

Definition flag_input s : tty := set_input s.(input_buffer) s.(input_buffer_index) s.(input_buffer_size) 1 s.

(** [echo] is [kprintf("%c", c)], which ends in this terminal's own write. *)
Definition gtty_keyboard_listener (echo : Z -> cmd tty unit) (type val : Z) : cmd tty unit :=
  if type =? KBD_VAL_TYPE_REGULAR then
    let c := u8 val in
    let newline := (c =? 10) || (c =? 13) in
    (when newline do modify flag_input) ;;;
    s <- gets (fun s => s) ;;
    (when (s.(input_buffer_index) <? s.(input_buffer_size)) && negb (c =? 8) && negb newline do
       (put_input s.(input_buffer_index) c ;;;
        modify (fun s => set_input s.(input_buffer)
                  (i32 (s.(input_buffer_index) + (if c =? 9 then 4 else 1))) s.(input_buffer_size)
                  s.(input_buffer_flag) s))) ;;;
    s <- gets (fun s => s) ;;
    (when s.(input_buffer_size) <=? s.(input_buffer_index) do modify flag_input) ;;;
    (when (s.(gtty_echo) =? 1) && negb newline do echo c)
  else ret tt.

(** The echo when the console is this terminal. *)
Definition console_echo (c : Z) : cmd tty unit :=
  s <- gets (fun s => s) ;;
  gtty_dev_write s.(gtty_device) 0xFFFFFFFF 1 1 (fun _ => c) (fun _ => c) ;;; ret tt.
End terminal.
