(* ===== verification/GttySpec.v ===== *)
(** What the terminal shows on the character screen: the last 25 lines of an
    unbounded tape of cells, written in reading order. *)
From stdpp Require Import base numbers gmap list.
From S2P Require Import Prelude Arrays Vga Vesa Keyboard Gtty.

(** * The tape *)

(** The cells written, the position of the next character, the first line on
    the screen and the characters of the input line. *)
Record tape := Tape { cells : Z -> Z; pos : Z; top : Z; typed : Z }.

(** Moving on to [p] brings its line onto the screen. *)
Definition advance (p : Z) (t : tape) : tape :=
  Tape t.(cells) p (Z.max t.(top) (p / 80 - 24)) t.(typed).
Definition write_cell (p v : Z) (t : tape) : tape :=
  Tape (fun q => if q =? p then v else t.(cells) q) t.(pos) t.(top) t.(typed).

(** One character in the colour [col]: a backspace takes back a character of
    the input line, but not beyond the first cell of the screen. *)
Definition print (col c : Z) (t : tape) : tape :=
  advance (t.(pos) + 1) (write_cell t.(pos) (paint col c) t).
Definition feed (col : Z) (t : tape) (c : Z) : tape :=
  if c =? 8 then
    if 1 <=? t.(typed) then
      let p := Z.max (80 * t.(top)) (t.(pos) - 1) in
      let t := write_cell p (paint col 32) t in Tape t.(cells) p t.(top) (t.(typed) - 1)
    else t
  else if c =? 9 then print col 32 (print col 32 (print col 32 (print col 32 t)))
  else if c =? 10 then advance (80 * (t.(pos) / 80 + 1)) t
  else if c =? 13 then advance (80 * (t.(pos) / 80)) t
  else print col c t.

(** * The screen shows the tape *)

Definition vtty : Type := gtty vga.

(** The last address sent to the cursor registers. *)
Definition cursor_at (w : vga) (loc : Z) : Prop :=
  exists pre, w.(vga_ports) =
    pre ++ [(0x3D4, 14); (0x3D5, u8 (Z.shiftr loc 8)); (0x3D4, 15); (0x3D5, u8 loc)].

(** The terminal [s] at column [x] and row [y] with screen contents [f], colour
    [col] and the hardware cursor at [loc]. *)
Record shows (dev col x y line : Z) (f : Z -> Z) (loc : Z) (s : vtty) : Prop := {
  sh_x : s.(main_x) = x; sh_y : s.(main_y) = y;
  sh_line : s.(input_buffer_index) = line; sh_line_ok : 0 <= line <= 1024;
  sh_input : length s.(input_buffer) = 1024%nat;
  sh_width : s.(buffer_width) = 80; sh_height : s.(buffer_height) = 25;
  sh_mode : s.(display_mode) = GTTY_MODE_TXT; sh_commands : length s.(command_buffer) = 5%nat;
  sh_screen : screen s.(world) f; sh_colour : s.(world).(colour_setting) = col;
  sh_device : s.(world).(vga_device) = dev; sh_cursor : cursor_at s.(world) loc
}.

Section text.
Variables (dev col : Z).
#[local] Abbreviation disp := (vga_display dev).
Implicit Types (s : vtty).

Lemma shows_xy x y line f loc x' y' s :
  shows dev col x y line f loc s -> shows dev col x' y' line f loc (set_xy x' y' s).
Proof. intros []. by constructor. Qed.

Lemma wp_world {X B} (c : cmd X B) Q (s : gtty X) :
  wp c (fun b w => Q b (set_world s.(command_buffer) w s)) s.(world) -> wp (on_world c) Q s.
Proof. unfold wp, on_world. by destruct (c s.(world)) as [[b w]| |]. Qed.

Lemma xy_to_location {X} a b (s : gtty X) :
  s.(buffer_width) = 80 -> 0 <= a <= 80 -> 0 <= b <= 25 ->
  gtty_xy_to_location a b s = Ret (80 * b + a, s).
Proof.
  intros Hw Ha Hb. unfold gtty_xy_to_location, gets. rewrite Hw. rewrite (i32_small (b * 80)) by lia.
  rewrite i32_small, u32_small by lia. do 2 f_equal. lia.
Qed.

Lemma put_command_0 {X} v (s : gtty X) :
  length s.(command_buffer) = 5%nat ->
  exists c, put_command 0 v s = Ret (tt, set_world c s.(world) s) /\ length c = 5%nat /\ arr_get c 0 = Some (u32 v).
Proof.
  intros Hl. unfold put_command. pose proof (arr_set_Some s.(command_buffer) 0 (u32 v) ltac:(lia)) as Hs.
  rewrite Hs. eexists. split; [done|]. split; [by rewrite (arr_set_length _ _ _ _ Hs)|].
  by apply (arr_get_set_eq _ _ _ _ Hs).
Qed.

Lemma move_to_shows x y line f loc a b s :
  shows dev col x y line f loc s -> 0 <= a <= 80 -> 0 <= b <= 25 ->
  wp (move_to disp a b) (fun _ => shows dev col x y line f (80 * b + a)) s.
Proof.
  intros [] Ha Hb. unfold move_to. apply wp_bind. eapply wp_Ret; [by apply xy_to_location|].
  destruct (put_command_0 (80 * b + a) s sh_commands0) as (c & Hc & Hlen & Hget).
  apply wp_bind. eapply wp_Ret; [exact Hc|]. apply wp_bind. unfold disp_command. apply wp_bind, wp_gets.
  apply wp_world. cbn [node_control vga_display world set_world]. unfold vga_dev_control.
  apply wp_bind, wp_gets. rewrite sh_device0, Z.eqb_refl. cbn [negb orb Z.eqb Pos.eqb VGA_CMD_MOVCRS VGA_CMD_SCROLL VGA_CMD_MOVCRS_XY].
  unfold vga_move_cursor, vga_out, arguments. cbn [command_buffer set_world]. rewrite Hget. cbn [default].
  rewrite (u32_small (80 * b + a)) by lia.
  apply wp_bind. do 3 (apply wp_bind, wp_modify). apply wp_modify, wp_ret, wp_ret. constructor; try done.
  exists s.(world).(vga_ports). cbn [world set_world vga_ports]. rewrite <- !app_assoc. reflexivity.
Qed.

(** One cell written at column [a] and row [b]. *)
Lemma write_shows x y line f loc a b ch s :
  shows dev col x y line f loc s -> 0 <= a < 80 -> 0 <= b < 25 ->
  wp (location <- gtty_xy_to_location a b ;; disp_write disp location 1 (fun _ => ch)) (fun _ =>
    shows dev col x y line (fun j => if j =? 80 * b + a then paint col ch else f j) loc) s.
Proof.
  intros [] Ha Hb. apply wp_bind. eapply wp_Ret; [apply xy_to_location; [done|lia|lia]|].
  apply wp_world. cbn [node_write vga_display]. unfold vga_dev_write. change (ROWS * COLS) with 2000.
  destruct (Z.ltb_spec (2000 - 1) (80 * b + a)); [lia|]. rewrite (u32_small (_ + 1)) by lia.
  destruct (Z.ltb_spec 2000 (80 * b + a + 1)); [lia|]. rewrite (u32_small (_ + 1)) by lia.
  replace (Z.to_nat (80 * b + a + 1 - (80 * b + a))) with 1%nat by lia. apply wp_bind. eapply wp_mono.
  { apply (paint_loop 1 (80 * b + a) (fun _ => ch) f); [done|lia|lia]. }
  intros u w (Hf & Hc & Hd & _ & Hp). apply wp_ret. constructor; try done.
  - eapply array_ext; [exact Hf|]. intros j Hj. cbn beta. rewrite sh_colour0.
    destruct (Z.leb_spec (80 * b + a) j), (Z.ltb_spec j (80 * b + a + Z.of_nat 1)), (Z.eqb_spec j (80 * b + a));
      try lia; done.
  - cbn. congruence.
  - cbn. congruence.
  - destruct sh_cursor0 as [pre Hpre]. exists pre. cbn. congruence.
Qed.

Lemma scroll_shows x y line f loc s :
  shows dev col x y line f loc s ->
  wp (disp_query disp VGA_CMD_SCROLL) (fun _ =>
    shows dev col x y line (fun j => if j <? 1920 then f (j + 80) else paint col 32) loc) s.
Proof.
  intros []. apply wp_world. cbn [node_control vga_display]. unfold vga_dev_control.
  apply wp_bind, wp_gets. rewrite sh_device0, Z.eqb_refl. cbn [negb orb Z.eqb Pos.eqb VGA_CMD_SCROLL].
  apply wp_bind. eapply wp_mono; [by apply vga_scroll_spec|].
  intros u w (Hf & Hc & Hd & _ & Hp). apply wp_ret. rewrite sh_colour0 in Hf. constructor; try done.
  - cbn. congruence.
  - cbn. congruence.
  - destruct sh_cursor0 as [pre Hpre]. exists pre. cbn. congruence.
Qed.

Lemma borders_shows x y line f s :
  shows dev col x y line f (80 * y + x) s -> 0 <= x <= 80 -> 0 <= y <= 25 -> (x = 80 -> y < 25) ->
  wp (vga_borders disp) (fun _ s' =>
    let x1 := if x =? 80 then 0 else x in
    let y1 := if x =? 80 then y + 1 else y in
    if 24 <? y1 then shows dev col x1 24 line (fun j => if j <? 1920 then f (j + 80) else paint col 32) (80 * 24 + x1) s'
    else shows dev col x1 y1 line f (80 * y1 + x1) s') s.
Proof.
  intros Hs Hx Hy Hxy. pose proof Hs as []. unfold vga_borders. apply wp_bind, wp_gets.
  rewrite sh_width0, sh_x0, sh_y0. rewrite !i32_small by lia. apply wp_bind.
  apply (wp_mono _ (fun _ s' => let x1 := if x =? 80 then 0 else x in let y1 := if x =? 80 then y + 1 else y in
    shows dev col x1 y1 line f (80 * y1 + x1) s')).
  { destruct (Z.ltb_spec (80 - 1) x), (Z.eqb_spec x 80); try lia; [|by apply wp_ret].
    apply wp_bind, wp_modify. eapply move_to_shows; [by eapply shows_xy|lia|lia]. }
  intros u s1. cbn zeta. set (x1 := if x =? 80 then 0 else x). set (y1 := if x =? 80 then y + 1 else y).
  assert (0 <= x1 < 80 /\ 0 <= y1 <= 25) as [? ?] by (subst x1 y1; destruct (Z.eqb_spec x 80); lia).
  intros Hs1. pose proof Hs1 as [? ? _ _ _ Hw1 Hh1 _ _ _ _ _ _]. apply wp_bind, wp_gets. rewrite Hh1, sh_x1, sh_y1.
  rewrite !i32_small by lia. destruct (Z.ltb_spec (25 - 1) y1), (Z.ltb_spec 24 y1); try lia; [|by apply wp_ret].
  apply wp_bind. eapply wp_mono; [eapply scroll_shows; exact Hs1|]. intros v s2 Hs2. apply wp_bind.
  eapply wp_mono; [eapply move_to_shows; [exact Hs2|lia|lia]|]. intros v2 s3 Hs3. apply wp_modify.
  replace (y1 - 1) with 24 by lia. change (80 * 24 + x1) with (80 * (25 - 1) + x1). eapply shows_xy; exact Hs3.
Qed.

(** ** The tape on the screen *)

Definition window (t : tape) (f : Z -> Z) : Prop :=
  (forall j, 0 <= j < 2000 -> f j = t.(cells) (80 * t.(top) + j)) /\
  (forall q, 80 * (t.(top) + 25) <= q -> t.(cells) q = paint col 32).

Definition displays (t : tape) s : Prop :=
  exists x y f, shows dev col x y t.(typed) f (80 * y + x) s /\ 0 <= x < 80 /\ 0 <= y < 25 /\
    t.(pos) = 80 * (t.(top) + y) + x /\ window t f.

Lemma div_80 y x : 0 <= x < 80 -> (80 * y + x) / 80 = y.
Proof. intros. zdm. Qed.

Lemma borders_tape t x y f s :
  shows dev col x y t.(typed) f (80 * y + x) s -> window t f -> 0 <= x <= 80 -> 0 <= y <= 25 -> (x = 80 -> y < 25) ->
  wp (vga_borders disp) (fun _ => displays (advance (80 * (t.(top) + y) + x) t)) s.
Proof.
  intros Hs [Hf Hb] Hx Hy Hxy. eapply wp_mono; [by apply borders_shows|]. cbn zeta. intros u s'.
  set (x1 := if x =? 80 then 0 else x). set (y1 := if x =? 80 then y + 1 else y).
  assert (0 <= x1 < 80 /\ 0 <= y1 <= 25 /\ 80 * (t.(top) + y) + x = 80 * (t.(top) + y1) + x1) as (Hx1 & Hy1 & ->).
  { subst x1 y1. destruct (Z.eqb_spec x 80); lia. }
  intros Hs'. unfold displays, advance, window. cbn [cells pos top typed]. rewrite div_80 by done.
  destruct (Z.ltb_spec 24 y1).
  - exists x1, 24, (fun j => if j <? 1920 then f (j + 80) else paint col 32). rewrite Z.max_r by lia.
    split_and!; [done|lia|lia|lia|lia|lia| |].
    + intros j Hj. cbn beta. destruct (Z.ltb_spec j 1920).
      * rewrite Hf by lia. f_equal. lia.
      * symmetry. apply Hb. lia.
    + intros q Hq. apply Hb. lia.
  - exists x1, y1, f. rewrite Z.max_l by lia. split_and!; try done; try lia.
Qed.

Lemma window_write t f p v :
  window t f -> 80 * t.(top) <= p < 80 * (t.(top) + 25) ->
  window (write_cell p v t) (fun j => if j =? p - 80 * t.(top) then v else f j).
Proof.
  intros [Hf Hb] Hp. split; cbn [cells top write_cell].
  - intros j Hj. cbn beta. rewrite Hf by done. destruct (Z.eqb_spec j (p - 80 * top t)), (Z.eqb_spec (80 * top t + j) p);
      try lia; done.
  - intros q Hq. destruct (Z.eqb_spec q p); [lia|]. by apply Hb.
Qed.

Lemma advance_here t x y : t.(pos) = 80 * (t.(top) + y) + x -> 0 <= x < 80 -> 0 <= y < 25 -> advance t.(pos) t = t.
Proof.
  intros Hp Hx Hy. destruct t as [c p tp ty]. unfold advance. cbn [cells pos top typed] in *.
  rewrite Hp, div_80, Z.max_l by lia. done.
Qed.

(** What [vga_put] leaves for the borders to settle: the tape [t'] before the
    position moves. *)
Definition pending (t : tape) s : Prop :=
  exists t' x y f, shows dev col x y t'.(typed) f (80 * y + x) s /\ window t' f /\ 0 <= x <= 80 /\ 0 <= y <= 25 /\
    (x = 80 -> y < 25) /\ t = advance (80 * (t'.(top) + y) + x) t'.

Lemma pending_borders t s : pending t s -> wp (vga_borders disp) (fun _ => displays t) s.
Proof. intros (t' & x & y & f & Hs & Hw & Hx & Hy & Hxy & ->). by eapply borders_tape. Qed.

Lemma put_print t c s :
  displays t s -> 0 <= c < 256 -> c <> 8 -> c <> 10 -> c <> 13 ->
  wp (vga_put disp c) (fun _ => pending (print col c t)) s.
Proof.
  intros (x & y & f & Hs & Hx & Hy & Hp & Hw) Hc H8 H10 H13. unfold vga_put. apply wp_bind, wp_gets.
  destruct (Z.eqb_spec c 8), (Z.eqb_spec c 10), (Z.eqb_spec c 13); try lia. rewrite (sh_x _ _ _ _ _ _ _ _ Hs), (sh_y _ _ _ _ _ _ _ _ Hs).
  apply wp_bind_then. eapply wp_mono; [eapply write_shows; [exact Hs|done|done]|]. cbn beta. intros u s1 Hs1.
  rewrite i32_small by lia. apply wp_bind, wp_modify.
  eapply wp_mono; [eapply move_to_shows; [by eapply shows_xy|lia|lia]|]. intros v s2 Hs2.
  exists (write_cell t.(pos) (paint col c) t), (x + 1), y, (fun j => if j =? 80 * y + x then paint col c else f j).
  split; [exact Hs2|]. split; [|split; [lia|split; [lia|split; [lia|]]]].
  - pose proof (window_write t f t.(pos) (paint col c) Hw ltac:(lia)) as Hww.
    replace (pos t - 80 * top t) with (80 * y + x) in Hww by lia. exact Hww.
  - unfold print. cbn [top write_cell]. f_equal. lia.
Qed.

Lemma put_backspace t s : displays t s -> wp (vga_put disp 8) (fun _ => pending (feed col t 8)) s.
Proof.
  intros (x & y & f & Hs & Hx & Hy & Hp & Hw). unfold vga_put. apply wp_bind, wp_gets. cbn [Z.eqb Pos.eqb].
  pose proof Hs as []. rewrite sh_line0, sh_x0, sh_y0, sh_width0. unfold feed. cbn [Z.eqb Pos.eqb].
  destruct (Z.leb_spec 1 (typed t)) as [Hl|Hl].
  2: { apply wp_ret. exists t, x, y, f. do 2 (split; [done|]). do 3 (split; [lia|]). rewrite <- Hp. symmetry. by eapply advance_here. }
  rewrite (i32_small (typed t - 1)) by lia. apply wp_bind, wp_modify. apply wp_bind.

  eapply wp_Ret; [unfold put_input; cbn [input_buffer set_input]; rewrite arr_set_Some by lia; reflexivity|].
  set (s1 := set_input _ _ _ _ _).
  assert (Hs1 : shows dev col x y (typed t - 1) f (80 * y + x) s1).
  { constructor; try done; [lia|]. cbn. by rewrite length_insert. }
  set (p := Z.max (80 * top t) (pos t - 1)).
  assert (exists x' y', 80 * y' + x' = p - 80 * top t /\ 0 <= x' < 80 /\ 0 <= y' < 25) as (x' & y' & Hxy & Hx' & Hy').
  { exists ((p - 80 * top t) mod 80), ((p - 80 * top t) / 80). unfold p. zdm. }
  apply wp_bind. apply (wp_mono _ (fun _ => shows dev col x' y' (typed t - 1) f (80 * y + x))).
  { destruct (Z.ltb_spec 0 x); [|destruct (Z.ltb_spec 0 y)]; rewrite ?i32_small by lia.
    - apply wp_modify. assert (x - 1 = x' /\ y = y') as [-> ->] by (unfold p in *; lia). by eapply shows_xy.
    - apply wp_modify. assert (80 - 1 = x' /\ y - 1 = y') as [-> ->] by (unfold p in *; lia). by eapply shows_xy.
    - apply wp_ret. assert (x = x' /\ y = y') as [<- <-] by (unfold p in *; lia). exact Hs1. }
  intros u s2 Hs2. apply wp_bind, wp_gets. rewrite (sh_x _ _ _ _ _ _ _ _ Hs2), (sh_y _ _ _ _ _ _ _ _ Hs2).
  apply wp_bind_then. eapply wp_mono; [eapply write_shows; [exact Hs2|done|done]|]. cbn beta. intros v s3 Hs3.
  eapply wp_mono; [eapply move_to_shows; [exact Hs3|lia|lia]|]. intros v2 s4 Hs4.
  exists (Tape (write_cell p (paint col 32) t).(cells) (pos t) (top t) (typed t - 1)), x', y',
    (fun j => if j =? 80 * y' + x' then paint col 32 else f j).
  split; [exact Hs4|]. split; [|split; [lia|split; [lia|split; [lia|]]]].
  - pose proof (window_write t f p (paint col 32) Hw ltac:(unfold p; lia)) as Hww. rewrite <- Hxy in Hww. exact Hww.
  - unfold advance. cbn [cells pos top typed write_cell]. fold p. rewrite div_80 by done. f_equal; lia.
Qed.

Lemma put_feed t c s :
  displays t s -> 0 <= c < 256 -> c <> 9 -> wp (vga_put disp c) (fun _ => pending (feed col t c)) s.
Proof.
  intros Ht Hc H9. destruct (decide (c = 8)) as [->|H8]; [by apply put_backspace|].
  destruct (decide (c = 10)) as [->|H10]; [|destruct (decide (c = 13)) as [->|H13]].
  3: { unfold feed. destruct (Z.eqb_spec c 8), (Z.eqb_spec c 9), (Z.eqb_spec c 10), (Z.eqb_spec c 13); try lia.
       by apply put_print. }
  all: destruct Ht as (x & y & f & Hs & Hx & Hy & Hp & Hw); unfold vga_put; apply wp_bind, wp_gets; cbn [Z.eqb Pos.eqb].
  - rewrite (sh_y _ _ _ _ _ _ _ _ Hs), i32_small by lia. apply wp_bind, wp_modify.
    eapply wp_mono; [eapply move_to_shows; [by eapply shows_xy|lia|lia]|]. intros v s2 Hs2.
    exists t, 0, (y + 1), f. split; [exact Hs2|]. split; [done|]. do 3 (split; [lia|]).
    unfold feed. cbn [Z.eqb Pos.eqb]. rewrite Hp, div_80 by done. f_equal. lia.
  - rewrite (sh_y _ _ _ _ _ _ _ _ Hs). apply wp_bind, wp_modify.
    eapply wp_mono; [eapply move_to_shows; [by eapply shows_xy|lia|lia]|]. intros v s2 Hs2.
    exists t, 0, y, f. split; [exact Hs2|]. split; [done|]. do 3 (split; [lia|]).
    unfold feed. cbn [Z.eqb Pos.eqb]. rewrite Hp, div_80 by done. f_equal. lia.
Qed.

Lemma displays_pending t s : displays t s -> pending t s.
Proof.
  intros (x & y & f & Hs & Hx & Hy & Hp & Hw). exists t, x, y, f. do 2 (split; [done|]). do 3 (split; [lia|]).
  rewrite <- Hp. symmetry. by eapply advance_here.
Qed.

Lemma char_feed t c s :
  displays t s -> 0 <= c < 256 -> wp (vga_char disp c) (fun _ => displays (feed col t c)) s.
Proof.
  intros Ht Hc. unfold vga_char. apply wp_bind. destruct (Z.eqb_spec c 9) as [->|H9].
  - assert (Hsp : forall u s', displays u s' ->
      wp (vga_put disp 32 ;;; vga_borders disp) (fun _ => displays (print col 32 u)) s').
    { intros u s' Hu. apply wp_bind. eapply wp_mono; [by apply put_print|]. intros z s1. apply pending_borders. }
    cbn [for_]. do 4 (apply wp_bind; eapply wp_mono; [eapply Hsp; eassumption|]; cbn beta; intros ? ? ?). apply wp_ret.
    by apply pending_borders, displays_pending.
  - eapply wp_mono; [by apply put_feed|]. intros z s1. apply pending_borders.
Qed.

(** C26: The terminal on the character screen is a tape: writing any text to the
    terminal's device file (tabs, newlines, carriage returns, backspaces and any
    other bytes included), through the screen driver, terminates without an
    access outside the screen or the input buffer, returns the number of bytes,
    and afterwards the 80 by 25 screen shows, cell by cell, the window onto an
    unbounded tape that the characters were written to in reading order; the
    window has moved down just as far as the last line needed, the lines that
    came into view are blank, and the hardware cursor is at the next position. *)
Theorem gtty_write_tape font16 device start_at buffer (bytes words : Z -> Z) (l : list Z) t s :
  displays t s -> s.(display_type) = GTTY_DISP_TYPE_VGA -> device <> 0 -> buffer <> 0 ->
  Z.of_nat (length l) < 2 ^ 31 -> (forall i c, l !! i = Some c -> u8 (bytes (Z.of_nat i)) = c) ->
  wp (gtty_dev_write disp font16 device start_at (Z.of_nat (length l)) buffer bytes words) (fun r s' =>
    r = Z.of_nat (length l) /\ displays (fold_left (feed col) l t) s') s.
Proof.
  intros Ht Hty Hd Hb Hlen Hl. unfold gtty_dev_write. destruct (Z.eqb_spec device 0), (Z.eqb_spec buffer 0); try done.
  apply wp_bind, wp_gets. rewrite Hty. cbn [Z.eqb GTTY_DISP_TYPE_VGA GTTY_DISP_TYPE_VESA]. unfold gtty_write_vga.
  apply wp_bind, wp_gets. pose proof Ht as (? & ? & ? & [] & _). rewrite sh_mode0. cbn [Z.eqb GTTY_MODE_TXT GTTY_MODE_PX].
  rewrite i32_small, Nat2Z.id by lia. apply wp_bind. eapply wp_mono.
  { apply (wp_for (fun i => displays (fold_left (feed col) (take (Z.to_nat i) l) t))); [done|].
    intros j u Hj Hu. destruct (lookup_lt_is_Some_2 l (Z.to_nat j)) as [c Hc]; [lia|].
    pose proof (Hl _ _ Hc) as Hu8. rewrite Z2Nat.id in Hu8 by lia. rewrite Hu8.
    replace (Z.to_nat (j + 1)) with (S (Z.to_nat j)) by lia. rewrite (take_S_r _ _ _ Hc), fold_left_app.
    apply char_feed; [done|]. rewrite <- Hu8. apply u8_range. }
  intros z s' Hs'. apply wp_ret. split; [done|]. rewrite Z.add_0_l, Nat2Z.id, firstn_all in Hs'. done.
Qed.
End text.

(** ** A fresh screen *)

Definition demo_tty : vtty :=
  Gtty 9 (replicate 1024 0) 0 0 0 GTTY_DISP_TYPE_VGA GTTY_MODE_TXT 1 80 25 79 24 0 (Colour 0 255 255 255)
       (Colour 0 0 0 0) (replicate 5 0) 0
       (Vga (replicate 2000 (paint 7 32)) 7 5 1 [(0x3D4, 14); (0x3D5, 7); (0x3D4, 15); (0x3D5, 0xCF)]).
Definition blank_tape : tape := Tape (fun _ => paint 7 32) 1999 0 0.

Lemma demo_displays : displays 5 7 blank_tape demo_tty.
Proof.
  exists 79, 24, (fun _ => paint 7 32). split; [|done]. constructor; try done.
  - by apply (array_replicate 2000).
  - by exists [].
Qed.

Lemma gtty_write_tape_witness :
  wp (gtty_dev_write (vga_display 5) [] 9 0 3 77 (fun i => 65 + i) (fun _ => 0)) (fun r s' =>
    r = 3 /\ displays 5 7 (fold_left (feed 7) [65; 66; 67] blank_tape) s') demo_tty.
Proof.
  apply (gtty_write_tape 5 7 [] 9 0 77 (fun i => 65 + i) (fun _ => 0) [65; 66; 67] blank_tape demo_tty); try done.
  - exact demo_displays.
  - intros [|[|[|i]]] c [= <-]; done.
Defined.
