(* ===== verification/GttyVesa.v ===== *)
(** The terminal on the frame buffer: glyphs, and text that never leaves the
    screen. *)
From stdpp Require Import base numbers gmap list.
From S2P Require Import Prelude Arrays Vga Vesa Keyboard Gtty.

Definition gvtty : Type := gtty vesa.

Section graphics.
Variables (dev w h : Z) (font16 : list (list Z)).
#[local] Abbreviation disp := (vesa_display dev).
Implicit Types (s : gvtty).

(** The terminal on a screen of [w] by [h] pixels. *)
Record on_vesa s : Prop := {
  ov_commands : length s.(command_buffer) = 5%nat;
  ov_width : s.(buffer_width) = w; ov_height : s.(buffer_height) = h;
  ov_screen : vesa_ok w h s.(world); ov_device : s.(world).(vesa_device) = dev
}.

(** [s'] differs from [s] in the command buffer and the pixels. *)
Definition redrawn s s' : Prop :=
  exists c wd, s' = set_world c wd s /\ length c = 5%nat /\ same_vesa s.(world) wd.

Lemma redrawn_ok s s' : on_vesa s -> redrawn s s' -> on_vesa s'.
Proof.
  intros [] (c & wd & -> & Hc & Hw). constructor; cbn; try done; [by eapply vesa_ok_same|].
  destruct Hw as (_ & _ & _ & _ & -> & _). done.
Qed.
Lemma redrawn_refl s : on_vesa s -> redrawn s s.
Proof. intros []. exists s.(command_buffer), s.(world). by destruct s. Qed.
Lemma redrawn_trans s1 s2 s3 : redrawn s1 s2 -> redrawn s2 s3 -> redrawn s1 s3.
Proof.
  intros (c & wd & -> & Hc & Hw) (c' & wd' & -> & Hc' & Hw'). exists c', wd'. split_and!; [done|done|].
  by eapply same_vesa_trans.
Qed.

Lemma put_command_redrawn i v s :
  on_vesa s -> 0 <= i < 5 ->
  wp (put_command i v) (fun _ s' => redrawn s s' /\ s'.(world) = s.(world) /\
    forall k, 0 <= k < 5 -> arguments s' k = if k =? i then u32 v else arguments s k) s.
Proof.
  intros [] Hi. unfold wp, put_command.
  pose proof (arr_set_Some s.(command_buffer) i (u32 v) ltac:(lia)) as Hs. rewrite Hs. split_and!; [|done|].
  - eexists _, _. split_and!; [done|by rewrite (arr_set_length _ _ _ _ Hs)|done].
  - intros k Hk. unfold arguments. cbn [command_buffer set_world]. destruct (Z.eqb_spec k i) as [->|].
    + by rewrite (arr_get_set_eq _ _ _ _ Hs).
    + by rewrite (arr_get_set_ne _ _ _ _ _ Hs).
Qed.

(** One pixel, wherever it is: off the screen nothing is written. *)
Lemma pixel_redrawn loc s :
  on_vesa s -> is_u32 loc ->
  wp (a <- gets arguments ;; disp_write disp loc 1 a) (fun _ s' => redrawn s s' /\ s'.(command_buffer) = s.(command_buffer) /\
    forall j, pixel s'.(world) j = if (j =? loc) && (loc <? w * h) then arguments s 0 else pixel s.(world) j) s.
Proof.
  intros [] Hl. apply wp_bind, wp_gets. unfold disp_write. unfold wp, on_world. cbn [node_write vesa_display].
  pose proof (vesa_write_spec dev loc 1 (arguments s) w h s.(world) ov_screen0 Hl ltac:(lia)) as Hw.
  apply wp_inv in Hw as (r & wd & -> & _ & Hs & Hp). cbn zeta in Hp. split_and!; [by eexists _, _|done|].
  intros j. cbn [world set_world]. rewrite Hp. unfold clipped.
  destruct (Z.leb_spec (w * h) loc), (Z.ltb_spec loc (w * h)); try lia.
  - rewrite andb_false_r. destruct (Z.leb_spec loc j), (Z.ltb_spec j (loc + 0)); try lia; done.
  - rewrite Z.min_l by lia. rewrite andb_true_r.
    destruct (Z.eqb_spec j loc) as [He|He], (Z.leb_spec loc j), (Z.ltb_spec j (loc + 1)); try lia; try done.
    cbn [andb]. by replace (j - loc) with 0 by lia.
Qed.

(** The location of a point; for points of the screen, its index. *)
Definition loc_of (x y : Z) : Z := u32 (i32 (x + i32 (y * w))).

Lemma w_h_bound s : on_vesa s -> 0 < w /\ 0 < h /\ w * h <= 4178944.
Proof. intros []. destruct ov_screen0 as (_ & _ & ? & ? & ?). assert (LFB_WORDS = 4178944) by reflexivity. lia. Qed.

Lemma loc_on_screen x y s : on_vesa s -> 0 <= x < w -> 0 <= y < h -> loc_of x y = y * w + x /\ y * w + x < w * h.
Proof.
  intros Hs Hx Hy. pose proof (w_h_bound _ Hs). assert (y * w + x < w * h) by nia. assert (0 <= y * w) by nia.
  unfold loc_of. rewrite (i32_small (y * w)), i32_small, u32_small by lia. lia.
Qed.

(** Points are told apart by their index. *)
Lemma index_inj a b x y : 0 <= a < w -> 0 <= x < w -> b * w + a = y * w + x -> b = y /\ a = x.
Proof.
  intros Ha Hx He. apply (Z.div_mod_unique w b y a x); lia.
Qed.

Lemma dot_redrawn v x y s :
  on_vesa s ->
  wp (put_command 0 v ;;; location <- gtty_xy_to_location x y ;; a <- gets arguments ;;
      disp_write disp location 1 a ;;; ret tt) (fun _ s' => redrawn s s' /\ forall j,
    pixel s'.(world) j = if (j =? loc_of x y) && (loc_of x y <? w * h) then u32 v else pixel s.(world) j) s.
Proof.
  intros Hs. apply wp_bind. eapply wp_mono; [by apply put_command_redrawn|]. intros u s1 (Hr & Hw1 & Ha).
  pose proof (redrawn_ok _ _ Hs Hr) as Hs1. apply wp_bind, wp_gets. rewrite (ov_width _ Hs1). fold (loc_of x y).
  apply wp_bind_then. eapply wp_mono; [apply pixel_redrawn; [done|apply u32_range]|].
  cbn beta. intros r s2 (Hr2 & _ & Hp). apply wp_ret. split; [by eapply redrawn_trans|].
  intros j. rewrite Hp, Ha, Hw1 by lia. done.
Qed.

(** What drawing a part of a symbol does: nothing off the screen, and on it the
    points [p a b] get the colour [v a b]. *)
Definition drawn (p : Z -> Z -> bool) (v : Z -> Z -> Z) (fitting : Prop) s s' : Prop :=
  redrawn s s' /\ (forall j, ~ (0 <= j < w * h) -> pixel s'.(world) j = pixel s.(world) j) /\
  (fitting -> forall a b, 0 <= a < w -> pixel s'.(world) (b * w + a) =
     if p a b then v a b else pixel s.(world) (b * w + a)).

(** The colour of the point [xd] of a row. *)
Definition dot (row xd : Z) (c back : colour) : Z := packed (if Z.testbit row (7 - xd) then c else back).

Lemma packed_u32 c : u32 (packed c) = packed c.
Proof. apply u32_idemp. Qed.

Lemma draw_row_drawn row x y c s :
  on_vesa s -> - 2 ^ 30 <= x < 2 ^ 30 ->
  wp (draw_row disp row x y c) (fun _ s' =>
    drawn (fun a b => (b =? y) && (x <=? a) && (a <? x + 8)) (fun a b => dot row (a - x) c s.(bg))
          (0 <= x /\ x + 8 <= w /\ 0 <= y < h) s s') s.
Proof.
  intros Hs Hx. unfold draw_row. change (Z.to_nat line_width) with 8%nat. eapply wp_mono.
  { apply (wp_for (fun k s' => drawn (fun a b => (b =? y) && (x <=? a) && (a <? x + k)) (fun a b => dot row (a - x) c s.(bg))
          (0 <= x /\ x + 8 <= w /\ 0 <= y < h) s s')).
    - split_and!; [by apply redrawn_refl|done|]. intros _ a b Ha.
      destruct (Z.leb_spec x a), (Z.ltb_spec a (x + 0)); try lia; by rewrite ?andb_false_r.
    - intros k t Hk (Hr & Hout & Hin). pose proof (redrawn_ok _ _ Hs Hr) as Ht. apply wp_bind, wp_gets.
      assert (t.(bg) = s.(bg)) as -> by (by destruct Hr as (? & ? & -> & _)).
      rewrite (i32_small (k + x)) by lia. eapply wp_mono; [by apply dot_redrawn|]. intros u t' [Hr' Hp].
      rewrite packed_u32 in Hp. split_and!; [by eapply redrawn_trans| |].
      + intros j Hj. rewrite Hp, Hout by done. pose proof (u32_range (i32 (k + x + i32 (y * w)))) as Hu.
        fold (loc_of (k + x) y) in Hu. unfold is_u32 in Hu.
        destruct (Z.eqb_spec j (loc_of (k + x) y)), (Z.ltb_spec (loc_of (k + x) y) (w * h)); try lia; done.
      + intros Hfit a b Ha. rewrite Hp, (Hin Hfit) by done. destruct (loc_on_screen (k + x) y s) as [-> Hlt]; [done|lia|lia|].
        rewrite (proj2 (Z.ltb_lt _ _) Hlt), andb_true_r. destruct (Z.eqb_spec (b * w + a) (y * w + (k + x))) as [He|He].
        * apply index_inj in He as [-> ->]; [|lia|lia]. rewrite Z.eqb_refl.
          destruct (Z.leb_spec x (k + x)), (Z.ltb_spec (k + x) (x + (k + 1))); try lia. cbn [andb].
          unfold dot. by replace (7 - (k + x - x)) with (7 - k) by lia.
        * destruct (Z.eqb_spec b y) as [->|]; [|done]. cbn [andb]. assert (a <> k + x) by (intros ->; lia).
          destruct (Z.leb_spec x a), (Z.ltb_spec a (x + k)), (Z.ltb_spec a (x + (k + 1))); try lia; done. }
  done.
Qed.

Lemma draw_symbol_drawn byte x y c s :
  on_vesa s -> length byte = 16%nat -> - 2 ^ 30 <= x < 2 ^ 30 ->
  wp (gtty_vesa_draw_symbol disp x y byte c) (fun _ s' =>
    drawn (fun a b => (x <=? a) && (a <? x + 8) && (y <=? b) && (b <? y + 16))
          (fun a b => dot (default 0 (arr_get byte (b - y))) (a - x) c s.(bg))
          (0 <= x /\ x + 8 <= w /\ 0 <= y /\ y + 16 <= h) s s') s.
Proof.
  intros Hs Hb Hx. unfold gtty_vesa_draw_symbol. change (Z.to_nat line_height) with 16%nat. eapply wp_mono.
  { apply (wp_for (fun k s' => drawn (fun a b => (x <=? a) && (a <? x + 8) && (y <=? b) && (b <? y + k))
          (fun a b => dot (default 0 (arr_get byte (b - y))) (a - x) c s.(bg))
          (0 <= x /\ x + 8 <= w /\ 0 <= y /\ y + 16 <= h) s s')).
    - split_and!; [by apply redrawn_refl|done|]. intros _ a b Ha.
      destruct (Z.leb_spec y b), (Z.ltb_spec b (y + 0)); try lia; by rewrite ?andb_false_r.
    - intros k t Hk (Hr & Hout & Hin). pose proof (redrawn_ok _ _ Hs Hr) as Ht.
      destruct (arr_get_Some byte k ltac:(lia)) as [row Hrow]. rewrite Hrow. apply wp_bind, wp_ret.
      eapply wp_mono; [by apply draw_row_drawn|]. intros u t' (Hr' & Hout' & Hin').
      assert (Hbg : t.(bg) = s.(bg)) by (by destruct Hr as (? & ? & -> & _)).
      split_and!; [by eapply redrawn_trans|intros j Hj; by rewrite Hout', Hout|].
      intros Hfit a b Ha. pose proof (w_h_bound _ Hs). assert (h <= 4178944) by nia.
      rewrite (i32_small (k + y)) in Hin' by lia. rewrite Hin', (Hin Hfit), Hbg by (done || lia).
      destruct (Z.eqb_spec b (k + y)) as [->|].
      + cbn [andb]. replace (k + y - y) with k by lia. rewrite Hrow. cbn [default].
        destruct (Z.leb_spec x a), (Z.ltb_spec a (x + 8)), (Z.leb_spec y (k + y)), (Z.ltb_spec (k + y) (y + k)),
          (Z.ltb_spec (k + y) (y + (k + 1))); try lia; done.
      + cbn [andb]. destruct (Z.leb_spec y b), (Z.ltb_spec b (y + k)), (Z.ltb_spec b (y + (k + 1))); try lia;
          by rewrite ?andb_false_r. }
  done.
Qed.

(** ** Text *)

(** Every symbol of the font has 16 rows. *)
Definition font_ok : Prop := length font16 = 128%nat /\ Forall (fun g => length g = 16%nat) font16.

Lemma font_symbol ch : font_ok -> 0 <= ch < 128 -> exists g, arr_get font16 ch = Some g /\ length g = 16%nat.
Proof.
  intros [Hl Hall] Hc. destruct (arr_get_Some font16 ch ltac:(lia)) as [g Hg]. exists g. split; [done|].
  unfold arr_get in Hg. destruct (0 <=? ch); [|done]. exact (Forall_lookup_1 _ _ _ _ Hall Hg).
Qed.

(** A character drawn on the frame buffer is its glyph: at any place where
    the 8 by 16 box fits the screen, each of its points gets the foreground
    colour where the font has a bit and the background colour where it has none,
    and no other point of the screen or of video memory changes. *)
Theorem glyph_drawn ch g x y c s :
  on_vesa s -> font_ok -> 0 <= ch < 128 -> arr_get font16 ch = Some g -> 0 <= x -> x + 8 <= w -> 0 <= y -> y + 16 <= h ->
  wp (gtty_vesa_draw_char disp font16 x y ch c) (fun _ s' => redrawn s s' /\
    (forall j, ~ (0 <= j < w * h) -> pixel s'.(world) j = pixel s.(world) j) /\
    forall a b, 0 <= a < w -> pixel s'.(world) (b * w + a) =
      if decide (x <= a < x + 8 /\ y <= b < y + 16)
      then packed (if Z.testbit (default 0 (arr_get g (b - y))) (7 - (a - x)) then c else s.(bg))
      else pixel s.(world) (b * w + a)) s.
Proof.
  intros Hs Hf Hc Hg Hx Hxw Hy Hyh. destruct (font_symbol ch Hf Hc) as (g' & Hg' & Hl). rewrite Hg in Hg'.
  injection Hg' as <-. unfold gtty_vesa_draw_char. rewrite (proj2 (Z.ltb_lt ch 128)), Hg by lia. apply wp_bind, wp_ret.
  pose proof (w_h_bound _ Hs). assert (w <= 4178944) by nia.
  eapply wp_mono; [apply draw_symbol_drawn; [done|done|lia]|]. intros u s' (Hr & Hout & Hin). split_and!; [done|done|].
  intros a b Ha. rewrite Hin by (done || lia). unfold dot.
  destruct (Z.leb_spec x a), (Z.ltb_spec a (x + 8)), (Z.leb_spec y b), (Z.ltb_spec b (y + 16)); cbn [andb];
    first [rewrite decide_True by lia; done | rewrite decide_False by lia; done].
Qed.

(** The terminal with its cursor at [x], [y]. *)
Record typing (x y : Z) s : Prop := {
  ty_vesa : on_vesa s; ty_x : s.(main_x) = x; ty_y : s.(main_y) = y;
  ty_input : length s.(input_buffer) = 1024%nat; ty_index : 0 <= s.(input_buffer_index) <= 1024;
  ty_mode : s.(display_mode) = GTTY_MODE_TXT
}.
(** Off the screen nothing changes. *)
Definition kept s s' : Prop := forall j, ~ (0 <= j < w * h) -> pixel s'.(world) j = pixel s.(world) j.

Lemma kept_trans s1 s2 s3 : kept s1 s2 -> kept s2 s3 -> kept s1 s3.
Proof. intros H1 H2 j Hj. by rewrite H2, H1. Qed.
Lemma typing_redrawn x y s s' : typing x y s -> redrawn s s' -> typing x y s'.
Proof. intros [] Hr. pose proof (redrawn_ok _ _ ty_vesa0 Hr). destruct Hr as (c & wd & -> & _). by constructor. Qed.
Lemma typing_xy x y x' y' s : typing x y s -> typing x' y' (set_xy x' y' s).
Proof. intros [[] ? ? ? ? ?]. by constructor. Qed.

Definition bounded (x y : Z) : Prop := - 32 <= x <= w + 32 /\ - 32 <= y <= h + 32.

Lemma draw_symbol_kept byte x y c x' y' s :
  typing x y s -> length byte = 16%nat -> - 2 ^ 30 <= x' < 2 ^ 30 ->
  wp (gtty_vesa_draw_symbol disp x' y' byte c) (fun _ s' => typing x y s' /\ kept s s') s.
Proof.
  intros Ht Hb Hx. eapply wp_mono; [apply draw_symbol_drawn; [apply Ht|done|done]|].
  intros u s' (Hr & Hout & _). split; [by eapply typing_redrawn|exact Hout].
Qed.

Lemma clear_cursor_kept x y s :
  typing x y s -> bounded x y -> wp (clear_cursor disp) (fun _ s' => typing x y s' /\ kept s s') s.
Proof.
  intros Ht [Hx Hy]. unfold clear_cursor. apply wp_bind, wp_modify. unfold vesa_cursor_handler. apply wp_bind, wp_gets.
  pose proof Ht as [Hv ? ? ? ? ?]. pose proof (w_h_bound _ Hv). assert (w <= 4178944) by nia.
  cbn [vesa_cursor_status set_cursor_status main_x main_y fg Z.eqb]. rewrite ty_x0, ty_y0, i32_small by lia. apply wp_bind.
  eapply wp_mono; [apply (draw_symbol_kept _ x y); [|done|lia]|].
  { destruct Hv. by constructor. }
  intros u s1 [[[] ? ? ? ? ?] Hk]. apply wp_modify. split; [by constructor|exact Hk].
Qed.

Lemma draw_char_kept ch c x y x' y' s :
  typing x y s -> font_ok -> 0 <= ch < 128 -> - 2 ^ 30 <= x' < 2 ^ 30 ->
  wp (gtty_vesa_draw_char disp font16 x' y' ch c) (fun _ s' => typing x y s' /\ kept s s') s.
Proof.
  intros Ht Hf Hc Hx. destruct (font_symbol ch Hf Hc) as (g & Hg & Hl). unfold gtty_vesa_draw_char.
  rewrite (proj2 (Z.ltb_lt ch 128)), Hg by lia. apply wp_bind, wp_ret. by apply draw_symbol_kept.
Qed.

(** The smallest supported screen is larger than this. *)
Hypotheses (w_large : 64 <= w) (h_large : 72 <= h).

(** A command whose effect on the screen is known. *)
Lemma command_redrawn (P : vesa -> vesa -> Prop) command s :
  on_vesa s ->
  wp (vesa_dev_control dev command (arguments s)) (fun _ wd => same_vesa s.(world) wd /\ P s.(world) wd) s.(world) ->
  wp (disp_command disp command) (fun _ s' => redrawn s s' /\ P s.(world) s'.(world)) s.
Proof.
  intros [] Hc. unfold disp_command. apply wp_bind, wp_gets. unfold wp, on_world. cbn [node_control vesa_display].
  apply wp_inv in Hc as (r & wd & -> & Hs & HP). split; [|exact HP]. by eexists _, _.
Qed.

(** The two commands of a scroll: moving the lines up and clearing the last. *)
Lemma three_commands a b c s :
  on_vesa s ->
  wp (put_command 0 a ;;; put_command 1 b ;;; put_command 2 c) (fun _ s' => redrawn s s' /\ s'.(world) = s.(world) /\
    arguments s' 0 = u32 a /\ arguments s' 1 = u32 b /\ arguments s' 2 = u32 c) s.
Proof.
  intros Hs. apply wp_bind. eapply wp_mono; [by apply put_command_redrawn|]. intros u s1 (Hr1 & Hw1 & Ha1).
  pose proof (redrawn_ok _ _ Hs Hr1) as Hs1.
  apply wp_bind. eapply wp_mono; [by apply put_command_redrawn|]. intros u2 s2 (Hr2 & Hw2 & Ha2).
  pose proof (redrawn_ok _ _ Hs1 Hr2) as Hs2.
  eapply wp_mono; [by apply put_command_redrawn|]. intros u3 s3 (Hr3 & Hw3 & Ha3).
  split; [by eapply redrawn_trans; [exact Hr1|eapply redrawn_trans]|]. split; [congruence|].
  rewrite !Ha3, !Ha2, !Ha1 by lia. done.
Qed.

Lemma move_kept to from len s :
  on_vesa s -> 0 <= to <= from -> 0 <= len -> from + len <= w * h ->
  arguments s 0 = to -> arguments s 1 = from -> arguments s 2 = len ->
  wp (disp_command disp VESA_CMD_MOVD) (fun _ s' => redrawn s s' /\ kept s s') s.
Proof.
  intros Hs Ht Hl Hf Ha0 Ha1 Ha2. pose proof (w_h_bound _ Hs).
  apply (command_redrawn (fun w0 w1 => forall j, ~ (0 <= j < w * h) -> pixel w1 j = pixel w0 j)); [done|].
  unfold vesa_dev_control. apply wp_bind, wp_gets. rewrite (ov_device _ Hs), Z.eqb_refl.
  cbn [negb orb Z.eqb Pos.eqb VESA_CMD_MOVD VESA_CMD_CLRSC VESA_CMD_CLRFROM VESA_CMD_DRAWPX VESA_CMD_GETPX VESA_CMD_GETW VESA_CMD_GETH].
  unfold vesa_move_data. rewrite Ha0, Ha1, Ha2, !i32_small by lia. apply wp_bind. assert (LFB_WORDS = 4178944) by reflexivity.
  eapply wp_mono; [apply move_pixels_spec; lia|]. intros u wd [Hsame Hp]. apply wp_ret. split; [done|].
  intros j Hj. rewrite Hp. destruct (Z.leb_spec to j), (Z.ltb_spec j (to + len)); try lia; done.
Qed.

Lemma fill_kept begin len v s :
  on_vesa s -> 0 <= begin -> 0 <= len -> begin + len <= w * h ->
  arguments s 0 = begin -> arguments s 1 = len -> arguments s 2 = v ->
  wp (disp_command disp VESA_CMD_SETD) (fun _ s' => redrawn s s' /\ kept s s') s.
Proof.
  intros Hs Ht Hl Hf Ha0 Ha1 Ha2. pose proof (w_h_bound _ Hs).
  apply (command_redrawn (fun w0 w1 => forall j, ~ (0 <= j < w * h) -> pixel w1 j = pixel w0 j)); [done|].
  unfold vesa_dev_control. apply wp_bind, wp_gets. rewrite (ov_device _ Hs), Z.eqb_refl.
  cbn [negb orb Z.eqb Pos.eqb VESA_CMD_MOVD VESA_CMD_CLRSC VESA_CMD_CLRFROM VESA_CMD_DRAWPX VESA_CMD_GETPX VESA_CMD_GETW
       VESA_CMD_GETH VESA_CMD_SETD].
  unfold vesa_set_data, fill_pixels. rewrite Ha0, Ha1, Ha2, !i32_small, (u32_small len) by lia. apply wp_bind.
  assert (LFB_WORDS = 4178944) by reflexivity.
  eapply wp_mono; [apply (px_loop _ begin (fun _ => v)); lia|]. intros u wd [Hsame Hp]. apply wp_ret. split; [done|].
  intros j Hj. rewrite Hp. destruct (Z.leb_spec begin j), (Z.ltb_spec j (begin + Z.of_nat (Z.to_nat len))); try lia; done.
Qed.

Lemma scroll_kept s : on_vesa s -> wp (gtty_vesa_scroll disp) (fun _ s' => redrawn s s' /\ kept s s') s.
Proof.
  intros Hs. pose proof (w_h_bound _ Hs) as (Hw & Hh & Hwh). unfold gtty_vesa_scroll. apply wp_bind, wp_gets.
  rewrite (ov_width _ Hs), (ov_height _ Hs). unfold margin_y_top, margin_x, margin_y_bottom, line_height.
  assert (w * 67 + 16 <= w * h) by nia. assert (w * (h - (8 + 16)) = w * h - w * 24) as -> by lia.
  assert (w * (h - 8 - 16) = w * h - w * 24) as -> by lia. assert (w * (h - 8) = w * h - w * 8) as -> by lia.
  rewrite !i32_small by lia.
  apply wp_three. eapply wp_mono; [by apply three_commands|]. cbn beta. intros u s1 (Hr1 & Hw1 & Ha & Hb & Hc).
  pose proof (redrawn_ok _ _ Hs Hr1) as Hs1. apply wp_bind. rewrite u32_small in Ha, Hb, Hc by lia.
  eapply wp_mono; [eapply move_kept; [exact Hs1| | | |exact Ha|exact Hb|exact Hc]; lia|]. intros v s2 [Hr2 Hk2].
  pose proof (redrawn_ok _ _ Hs1 Hr2) as Hs2. cbn zeta.
  apply wp_three. eapply wp_mono; [by apply three_commands|]. cbn beta. intros u3 s3 (Hr3 & Hw3 & Ha3 & Hb3 & Hc3).
  pose proof (redrawn_ok _ _ Hs2 Hr3) as Hs3. apply wp_bind. rewrite u32_small in Ha3, Hb3 by lia.
  eapply wp_mono; [eapply fill_kept; [exact Hs3| | | |exact Ha3|exact Hb3|exact Hc3]; lia|]. intros v4 s4 [Hr4 Hk4].
  apply wp_ret. split.
  - eapply redrawn_trans; [exact Hr1|]. eapply redrawn_trans; [exact Hr2|]. by eapply redrawn_trans.
  - intros j Hj. rewrite Hk4, Hw3, Hk2, Hw1 by done. done.
Qed.

(** Where the cursor is between characters, in a column of 8 pixels and so that
    the box of the next character lies on the screen, and where it is before the
    borders are checked. *)
Definition settled (x y : Z) : Prop := x mod 8 = 0 /\ 0 <= x <= w - 9 /\ 0 <= y <= h - 24.
Definition loose (x y : Z) : Prop :=
  (x mod 8 = 0 \/ w - 9 < x) /\ 0 <= x <= w /\ - 16 <= y <= h - 8 /\ (y < 0 -> w - 9 < x).

Lemma settled_bounded x y : settled x y -> bounded x y.
Proof. unfold settled, bounded. lia. Qed.
Lemma loose_bounded x y : loose x y -> bounded x y.
Proof. unfold loose, bounded. lia. Qed.

(** After an operation: some place satisfying [P], and nothing off the screen. *)
Definition typed_at (P : Z -> Z -> Prop) s s' : Prop := (exists x y, typing x y s' /\ P x y) /\ kept s s'.

Lemma wp_clear {B} x y (k : cmd gvtty B) Q s :
  typing x y s -> bounded x y -> (forall s', typing x y s' -> kept s s' -> wp k Q s') ->
  wp (clear_cursor disp ;;; k) Q s.
Proof. intros Ht Hb Hk. apply wp_bind. eapply wp_mono; [by apply clear_cursor_kept|]. intros u s' [? ?]. by apply Hk. Qed.

Lemma size_bound x y s : typing x y s -> w <= 4178944 /\ h <= 4178944.
Proof. intros Ht. pose proof (w_h_bound _ (ty_vesa _ _ _ Ht)). split; nia. Qed.

Lemma borders_kept x y s :
  typing x y s -> loose x y -> wp (vesa_borders disp) (fun _ => typed_at settled s) s.
Proof.
  intros Ht Hl. pose proof (size_bound _ _ _ Ht) as [Hw Hh]. unfold vesa_borders, margin_x, margin_y_bottom, line_height.
  apply wp_bind, wp_gets. rewrite (ov_width _ (ty_vesa _ _ _ Ht)), (ty_x _ _ _ Ht), i32_small by lia. apply wp_bind.
  apply (wp_mono _ (fun _ => typed_at (fun x y => x mod 8 = 0 /\ 0 <= x <= w - 9 /\ 0 <= y <= h + 8) s)).
  { destruct (Z.ltb_spec (w - 8 - 1) x).
    - eapply (wp_clear x y); [done|by apply loose_bounded|]. intros s1 Ht1 Hk1. apply wp_modify.
      rewrite (ty_y _ _ _ Ht1). split; [|exact Hk1]. eexists _, _. split; [by eapply typing_xy|].
      unfold loose in Hl. rewrite i32_small by lia. split; [done|lia].
    - apply wp_ret. split; [|done]. exists x, y. split; [done|]. unfold loose in Hl. lia. }
  intros u s1 [(x1 & y1 & Ht1 & Hm1 & Hx1 & Hy1) Hk1]. apply wp_bind, wp_gets.
  rewrite (ov_height _ (ty_vesa _ _ _ Ht1)), (ty_y _ _ _ Ht1), i32_small by lia.
  destruct (Z.ltb_spec (h - (8 + 16)) y1).
  - eapply (wp_clear x1 y1); [done|unfold bounded; lia|]. intros s2 Ht2 Hk2. apply wp_bind.
    eapply wp_mono; [apply scroll_kept, Ht2|]. intros v s3 [Hr3 Hk3]. pose proof (typing_redrawn _ _ _ _ Ht2 Hr3) as Ht3.
    apply wp_modify. rewrite (ty_x _ _ _ Ht3), (ov_height _ (ty_vesa _ _ _ Ht3)). split.
    + eexists _, _. split; [by eapply typing_xy|]. unfold settled. rewrite i32_small by lia. lia.
    + eapply kept_trans; [exact Hk1|]. by eapply kept_trans.
  - apply wp_ret. split; [|done]. exists x1, y1. split; [done|]. unfold settled. lia.
Qed.

(** A backspace, past the cursor. *)
Lemma backspace_kept x y s :
  typing x y s -> settled x y -> font_ok ->
  wp (s <- gets (fun s => s) ;;
      if 1 <=? s.(input_buffer_index) then
        modify (set_input s.(input_buffer) (i32 (s.(input_buffer_index) - 1)) s.(input_buffer_size) s.(input_buffer_flag)) ;;;
        put_input (i32 (s.(input_buffer_index) - 1)) 0 ;;;
        (if 0 <? s.(main_x) then modify (set_xy (i32 (s.(main_x) - line_width)) s.(main_y))
         else if 0 <? s.(main_y) then
           modify (set_xy (i32 (s.(buffer_width) - line_width)) (i32 (s.(main_y) - line_height)))
         else ret tt) ;;;
        s <- gets (fun s => s) ;;
        gtty_vesa_draw_char disp font16 s.(main_x) s.(main_y) 32 s.(fg)
      else ret tt) (fun _ => typed_at loose s) s.
Proof.
  intros Ht Hx Hf. pose proof (size_bound _ _ _ Ht) as [Hw Hh]. unfold settled, loose in *. apply wp_bind, wp_gets.
  pose proof Ht as [Hv ? ? ? ? ?]. destruct (Z.leb_spec 1 (input_buffer_index s)).
  2: { apply wp_ret. split; [|done]. exists x, y. split; [done|]. lia. }
  rewrite (i32_small (_ - 1)) by lia. apply wp_bind, wp_modify, wp_bind.
  eapply wp_Ret; [unfold put_input; cbn [input_buffer set_input]; rewrite arr_set_Some by lia; reflexivity|].
  set (s1 := set_input _ _ _ _ _). assert (Ht1 : typing x y s1).
  { destruct Hv. constructor; try done; [cbn; by rewrite length_insert|cbn; lia]. }
  rewrite (ov_width _ Hv), ty_x0, ty_y0. unfold line_width, line_height. apply wp_bind.
  apply (wp_mono _ (fun _ s' => exists x y, typing x y s' /\ s'.(world) = s.(world) /\ loose x y)).
  { destruct (Z.ltb_spec 0 x); [|destruct (Z.ltb_spec 0 y)].
    1,2: repeat rewrite i32_small by lia; apply wp_modify; eexists _, _; (split; [by eapply typing_xy|]); (split; [done|]); unfold loose; zdm.
    apply wp_ret. exists x, y. split; [done|]. split; [done|]. unfold loose. lia. }
  intros u s2 (x2 & y2 & Ht2 & Hw2 & Hl2). apply wp_bind, wp_gets.
  eapply wp_mono; [apply (draw_char_kept 32 _ x2 y2); [done|done|lia|rewrite (ty_x _ _ _ Ht2); unfold loose in Hl2; lia]|].
  intros v s3 [Ht3 Hk3]. split; [by exists x2, y2|]. intros j Hj. rewrite Hk3, Hw2 by done. done.
Qed.

Lemma typed_at_trans P s s1 s2 : kept s s1 -> typed_at P s1 s2 -> typed_at P s s2.
Proof. intros Hk [? ?]. split; [done|]. by eapply kept_trans. Qed.

Lemma put_kept c x y s :
  typing x y s -> settled x y -> font_ok -> 0 <= c < 128 -> wp (vesa_put disp font16 c) (fun _ => typed_at loose s) s.
Proof.
  intros Ht Hx Hf Hc. pose proof (size_bound _ _ _ Ht) as [Hw Hh]. pose proof (settled_bounded _ _ Hx) as Hb.
  unfold vesa_put, margin_x, line_height, line_width.
  destruct (Z.eqb_spec c 8); [|destruct (Z.eqb_spec c 10); [|destruct (Z.eqb_spec c 13)]];
    eapply (wp_clear x y); try done; intros s1 Ht1 Hk1.
  - eapply wp_mono; [by eapply backspace_kept|]. intros u s2. by apply typed_at_trans.
  - apply wp_modify. rewrite (ty_y _ _ _ Ht1). split; [|exact Hk1]. eexists _, _. split; [by eapply typing_xy|].
    unfold settled, loose in *. rewrite i32_small by lia. split; [by left|lia].
  - apply wp_modify. rewrite (ty_y _ _ _ Ht1). split; [|exact Hk1]. eexists _, _. split; [by eapply typing_xy|].
    unfold settled, loose in *. split; [by left|lia].
  - apply wp_bind, wp_gets, wp_bind. unfold settled in Hx.
    eapply wp_mono; [apply (draw_char_kept c _ x y); [done|done|done|rewrite (ty_x _ _ _ Ht1); lia]|].
    intros v s2 [Ht2 Hk2]. apply wp_modify. rewrite (ty_x _ _ _ Ht2), (ty_y _ _ _ Ht2). split; [|by eapply kept_trans].
    eexists _, _. split; [by eapply typing_xy|]. unfold loose. rewrite i32_small by lia. zdm.
Qed.

Lemma put_borders_kept c x y s :
  typing x y s -> settled x y -> font_ok -> 0 <= c < 128 ->
  wp (vesa_put disp font16 c ;;; vesa_borders disp) (fun _ => typed_at settled s) s.
Proof.
  intros Ht Hx Hf Hc. apply wp_bind. eapply wp_mono; [by eapply put_kept|].
  intros u s1 [(x1 & y1 & Ht1 & Hx1) Hk1]. eapply wp_mono; [by eapply borders_kept|].
  intros v s2. by apply typed_at_trans.
Qed.

Lemma char_kept c x y s :
  typing x y s -> settled x y -> font_ok -> 0 <= c < 128 ->
  wp (vesa_char disp font16 c) (fun _ => typed_at settled s) s.
Proof.
  intros Ht Hx Hf Hc. unfold vesa_char. destruct (Z.eqb_spec c 9); [|by eapply put_borders_kept].
  apply wp_bind. eapply wp_mono.
  { apply (wp_for (fun _ => typed_at settled s)); [split; [by exists x, y|done]|].
    intros j t Hj [(x1 & y1 & Ht1 & Hx1) Hk1]. eapply wp_mono; [by eapply put_borders_kept|].
    intros u s2. by apply typed_at_trans. }
  intros u t [(x1 & y1 & Ht1 & Hx1) Hk1]. eapply wp_mono.
  { eapply borders_kept; [exact Ht1|]. unfold settled, loose in *. lia. }
  intros v s2. by apply typed_at_trans.
Qed.

(** C36: Text on the frame buffer never leaves the screen.  On a screen of at
    least 64 by 72 pixels that fits the mapped memory (every graphics mode is
    larger than that), with a font of 128 glyphs of 16 rows, the index of the
    input line within its buffer and the cursor in a column of 8 pixels where a
    character fits, as [initialise_gtty] sets it, writing any ASCII text to the terminal's device file in text mode, control characters
    and backspaces at the borders included, terminates, returns the number of
    bytes, leaves the cursor again in a column of 8 pixels where the 8 by 16
    points of the next character lie on the screen, and changes no word of video
    memory outside the screen. *)
Theorem gtty_vesa_stays device start_at buffer (bytes words : Z -> Z) n x y s :
  typing x y s -> settled x y -> font_ok -> s.(display_type) = GTTY_DISP_TYPE_VESA -> device <> 0 -> buffer <> 0 ->
  0 <= n < 2 ^ 31 -> (forall i, 0 <= i < n -> 0 <= u8 (bytes i) < 128) ->
  wp (gtty_dev_write disp font16 device start_at n buffer bytes words) (fun r s' =>
    r = n /\ (exists x' y', typing x' y' s' /\ settled x' y' /\ 0 <= x' /\ x' + 8 <= w /\ 0 <= y' /\ y' + 16 <= h) /\
    forall j, ~ (0 <= j < w * h) -> pixel s'.(world) j = pixel s.(world) j) s.
Proof.
  intros Ht Hx Hf Hty Hd Hb Hn Hl. unfold gtty_dev_write. destruct (Z.eqb_spec device 0), (Z.eqb_spec buffer 0); try done.
  apply wp_bind, wp_gets. rewrite Hty. cbn [Z.eqb Pos.eqb GTTY_DISP_TYPE_VESA]. unfold gtty_write_vesa.
  apply wp_bind, wp_gets. rewrite (ty_mode _ _ _ Ht). cbn [Z.eqb GTTY_MODE_TXT GTTY_MODE_PX].
  rewrite i32_small by lia. apply wp_bind. eapply wp_mono.
  { apply (wp_for (fun _ => typed_at settled s)); [split; [by exists x, y|done]|].
    intros j t Hj [(x1 & y1 & Ht1 & Hx1) Hk1]. eapply wp_mono; [eapply char_kept; [done|done|done|apply Hl; lia]|].
    intros u s2. by apply typed_at_trans. }
  intros u s' [(x' & y' & Ht' & Hx') Hk]. apply wp_ret. split_and!; [done| |exact Hk].
  exists x', y'. split_and!; [done|done|..]; unfold settled in Hx'; lia.
Qed.
End graphics.

(** ** A small screen *)

Definition demo_font : list (list Z) := replicate 128 (replicate 16 0x81).
Definition demo_gfx : gvtty :=
  Gtty 9 (replicate 1024 0) 0 0 0 GTTY_DISP_TYPE_VESA GTTY_MODE_TXT 1 320 200 8 44 0 (Colour 0 255 255 255)
       (Colour 0 0 0 0) (replicate 5 0) 0 (Vesa LFB 320 200 32 6 1 ∅ []).

Lemma demo_on_vesa : on_vesa 6 320 200 demo_gfx.
Proof. by constructor. Qed.
Lemma demo_font_ok : font_ok demo_font.
Proof. split; [done|]. by apply Forall_replicate. Qed.

Lemma glyph_drawn_witness :
  wp (gtty_vesa_draw_char (vesa_display 6) demo_font 100 50 65 (Colour 0 1 2 3)) (fun _ s' => redrawn demo_gfx s' /\
    (forall j, ~ (0 <= j < 320 * 200) -> pixel s'.(world) j = 0) /\
    forall a b, 0 <= a < 320 -> pixel s'.(world) (b * 320 + a) =
      if decide (100 <= a < 100 + 8 /\ 50 <= b < 50 + 16)
      then packed (if Z.testbit (default 0 (arr_get (replicate 16 0x81) (b - 50))) (7 - (a - 100))
                   then Colour 0 1 2 3 else Colour 0 0 0 0)
      else 0) demo_gfx.
Proof.
  apply (glyph_drawn 6 320 200 demo_font 65 (replicate 16 0x81) 100 50 (Colour 0 1 2 3) demo_gfx); try done.
  exact demo_font_ok.
Defined.

Lemma gtty_vesa_stays_witness :
  wp (gtty_dev_write (vesa_display 6) demo_font 9 0 2 77 (fun i => 10 + i) (fun _ => 0)) (fun r s' =>
    r = 2 /\ (exists x' y', typing 6 320 200 x' y' s' /\ settled 320 200 x' y' /\
               0 <= x' /\ x' + 8 <= 320 /\ 0 <= y' /\ y' + 16 <= 200) /\
    forall j, ~ (0 <= j < 320 * 200) -> pixel s'.(world) j = 0) demo_gfx.
Proof.
  apply (gtty_vesa_stays 6 320 200 demo_font ltac:(lia) ltac:(lia) 9 0 77 (fun i => 10 + i) (fun _ => 0) 2 8 44 demo_gfx); try done.
  - exact demo_font_ok.
  - intros i Hi. rewrite u8_small by lia. lia.
Defined.
