(* ===== verification/GttyInput.v ===== *)
(** The terminal's input line: what is typed is what a program reads, with the
    echo on or off.

    The listener echoes a character with [kprintf], which writes it back to the
    terminal.  [Echoes] says what the input line needs of an echo; the terminal's
    own write is shown to have it on the character screen and on the frame
    buffer. *)
From stdpp Require Import base numbers gmap list.
From S2P Require Import Prelude Arrays Vga Vesa Keyboard Gtty GttySpec GttyVesa.

(** ASCII characters that are stored as they are. *)
Definition plain (c : Z) : Prop := 0 <= c < 128 /\ c ∉ [8; 9; 10; 13].
#[global] Instance plain_dec c : Decision (plain c).
Proof. unfold plain. apply _. Defined.

(** The fields of the input line and the kind of display are unchanged. *)
Definition same_input {X} (s s' : gtty X) : Prop :=
  s'.(input_buffer) = s.(input_buffer) /\ s'.(input_buffer_index) = s.(input_buffer_index) /\
  s'.(input_buffer_size) = s.(input_buffer_size) /\ s'.(input_buffer_flag) = s.(input_buffer_flag) /\
  s'.(display_type) = s.(display_type).

(** An echo of the terminal: while the terminal can be drawn on, echoing a
    character ends, leaves the input line alone and the terminal fit for the
    next character. *)
Class Echoes {X} (echo : Z -> cmd (gtty X) unit) := {
  drawable : gtty X -> Prop;
  drawable_input s b i sz f :
    drawable s -> length b = 1024%nat -> 0 <= i <= 1024 -> drawable (set_input b i sz f s);
  echo_shown s c : drawable s -> plain c -> wp (echo c) (fun _ s' => drawable s' /\ same_input s s') s
}.

Section input.
Context {X : Type} (disp : display X) (echo : Z -> cmd (gtty X) unit) `{!Echoes echo}.
Implicit Types (s : gtty X).

(** The keys of a line, as the keyboard delivers them. *)
Fixpoint type_keys (l : list Z) : cmd (gtty X) unit :=
  match l with
  | [] => ret tt
  | c :: l' => gtty_keyboard_listener echo KBD_VAL_TYPE_REGULAR c ;;; type_keys l'
  end.

(** The terminal waits for [n] characters and has got [l]. *)
Record waiting (n : Z) (l : list Z) s : Prop := {
  wa_length : length s.(input_buffer) = 1024%nat; wa_size : s.(input_buffer_size) = n;
  wa_index : s.(input_buffer_index) = Z.of_nat (length l); wa_prefix : l `prefix_of` s.(input_buffer);
  wa_drawable : drawable s
}.

Lemma plain_not c : plain c -> (c =? 8) = false /\ (c =? 9) = false /\ (c =? 10) = false /\ (c =? 13) = false /\ u8 c = c.
Proof.
  intros [Hc Hn]. rewrite !not_elem_of_cons in Hn. rewrite !Z.eqb_neq, u8_small by lia. tauto.
Qed.

Lemma prefix_store l (b : list Z) c :
  l `prefix_of` b -> (length l < length b)%nat -> (l ++ [c]) `prefix_of` <[length l := c]> b.
Proof.
  intros [k ->] Hl. rewrite length_app in Hl. destruct k as [|d k]; [cbn in Hl; lia|].
  exists k. rewrite <- app_assoc. cbn. by rewrite insert_app_r_alt, Nat.sub_diag by lia.
Qed.

Lemma waiting_flag n l s : Z.of_nat (length l) <= 1024 -> waiting n l s -> waiting n l (flag_input s).
Proof. intros Hl []. constructor; try done. apply drawable_input; [done|done|lia]. Qed.
Lemma waiting_same n l s s' : waiting n l s -> drawable s' -> same_input s s' -> waiting n l s'.
Proof. intros [] Hd (Hb & Hi & Hz & _). constructor; congruence. Qed.

Lemma key_stored n l c s :
  waiting n l s -> plain c -> Z.of_nat (length l) < n -> Z.of_nat (length l) < 1024 ->
  wp (gtty_keyboard_listener echo KBD_VAL_TYPE_REGULAR c) (fun _ => waiting n (l ++ [c])) s.
Proof.
  intros [] Hc Hn Hl. destruct (plain_not c Hc) as (H8 & H9 & H10 & H13 & Hu). unfold gtty_keyboard_listener.
  cbn [Z.eqb Pos.eqb KBD_VAL_TYPE_REGULAR]. rewrite Hu, H8, H9, H10, H13. cbn [orb negb andb].
  apply wp_bind, wp_ret, wp_bind, wp_gets. rewrite wa_size0, wa_index0.
  destruct (Z.ltb_spec (Z.of_nat (length l)) n); [|lia]. cbn [andb negb]. apply wp_bind, wp_bind.
  pose proof (arr_set_Some s.(input_buffer) (Z.of_nat (length l)) c ltac:(lia)) as Hset.
  eapply wp_Ret; [unfold put_input; rewrite Hset; reflexivity|]. apply wp_modify.
  set (s1 := set_input _ _ _ _ _). apply wp_bind, wp_gets.
  assert (Hw : waiting n (l ++ [c]) s1).
  { constructor; cbn [s1 input_buffer input_buffer_size input_buffer_index gtty_echo set_input]; try done.
    - by rewrite length_insert.
    - rewrite wa_index0, i32_small, length_app by lia. cbn. lia.
    - rewrite Nat2Z.id. by apply prefix_store; [|lia].
    - unfold s1. apply drawable_input; cbn [input_buffer input_buffer_index set_input];
        [apply drawable_input; [done|by rewrite length_insert|lia]|by rewrite length_insert|].
      rewrite wa_index0, i32_small by lia. lia. }
  apply wp_bind. apply (wp_mono _ (fun _ => waiting n (l ++ [c]))).
  { destruct (_ <=? _); [|by apply wp_ret]. apply wp_modify. by apply waiting_flag; [rewrite length_app; cbn; lia|]. }
  intros u s2 Hw2. destruct (_ && _); [|by apply wp_ret].
  eapply wp_mono; [apply echo_shown; [apply Hw2|done]|]. intros v s3 [Hd Hs]. by apply (waiting_same n (l ++ [c]) s2).
Qed.

Lemma keys_stored n l k s :
  waiting n l s -> Forall plain k -> Z.of_nat (length l + length k) <= n -> Z.of_nat (length l + length k) <= 1024 ->
  wp (type_keys k) (fun _ => waiting n (l ++ k)) s.
Proof.
  revert l s. induction k as [|c k IH]; intros l s Hw Hk Hn Hl; cbn [type_keys length] in *.
  - apply wp_ret. by rewrite app_nil_r.
  - apply Forall_cons in Hk as [Hc Hk]. apply wp_bind.
    eapply wp_mono; [apply key_stored; [done|done|lia|lia]|]. intros u s1 Hw1.
    replace (l ++ c :: k) with ((l ++ [c]) ++ k) by (by rewrite <- app_assoc).
    apply IH; [done|done|rewrite length_app; cbn; lia|rewrite length_app; cbn; lia].
Qed.

(** The return key is not echoed and ends the line. *)
Lemma return_flags s :
  wp (gtty_keyboard_listener echo KBD_VAL_TYPE_REGULAR 10) (fun _ s' => s' = flag_input s) s.
Proof.
  unfold gtty_keyboard_listener. change (u8 10) with 10. cbn [Z.eqb Pos.eqb KBD_VAL_TYPE_REGULAR orb negb].
  apply wp_bind, wp_modify, wp_bind, wp_gets. rewrite andb_false_r. apply wp_bind, wp_ret, wp_bind, wp_gets, wp_bind.
  apply (wp_mono _ (fun _ s' => s' = flag_input s)); [destruct (_ <=? _); [by apply wp_modify|by apply wp_ret]|].
  intros v ? ->. rewrite andb_false_r. by apply wp_ret.
Qed.

(** C37: A typed line is what the program reads, whether the terminal echoes
    what is typed or not.  The terminal has no pending request and an empty input
    line, and its echo is one that [Echoes] describes (the instances show it of
    the terminal's own write, on the character screen and on the frame buffer).
    A program asks for [n] bytes (at most the 1024 of the buffer), the user types
    up to [n] plain ASCII characters (no tab and no backspace) and the return
    key, and reading the terminal then yields exactly the number of characters
    typed and these characters in order, and leaves the terminal ready for the
    next line. *)
Theorem typed_line_read device n buffer l s :
  length s.(input_buffer) = 1024%nat -> s.(input_buffer_index) = 0 -> s.(input_buffer_size) = 0 ->
  drawable s -> s.(gtty_device) = device -> device <> 0 -> buffer <> 0 ->
  0 < n <= 1024 -> Forall plain l -> Z.of_nat (length l) <= n ->
  wp (gtty_dev_control disp device GTTY_CMD_INPUT_READY (fun _ => n) ;;;
      type_keys l ;;;
      gtty_keyboard_listener echo KBD_VAL_TYPE_REGULAR 10 ;;;
      gtty_dev_read device 0 n buffer) (fun r s' =>
    r = (Z.of_nat (length l), l) /\ s'.(input_buffer_index) = 0 /\ s'.(input_buffer_size) = 0 /\
    s'.(input_buffer_flag) = 0 /\ s'.(input_buffer) = replicate 1024 0) s.
Proof.
  intros Hlen Hi Hs Hdr Hd Hd0 Hb0 Hn Hl Hk. apply wp_bind. unfold gtty_dev_control. apply wp_bind, wp_gets.
  rewrite Hd, Z.eqb_refl. cbn [negb orb Z.eqb Pos.eqb GTTY_CMD_INPUT_READY GTTY_CMD_SET_MODE GTTY_CMD_GET_MODE GTTY_CMD_GETW
    GTTY_CMD_GETH GTTY_CMD_CLEAR GTTY_CMD_GET_FG_COLOUR GTTY_CMD_SET_FG_COLOUR GTTY_CMD_GET_BG_COLOUR
    GTTY_CMD_SET_BG_COLOUR GTTY_CMD_ECHO_ENABLE GTTY_CMD_ECHO_DISABLE]. rewrite Hs. cbn [Z.eqb].
  apply wp_bind, wp_modify, wp_gets. apply wp_bind. eapply wp_mono.
  { apply (keys_stored n []); [|done|cbn; lia|cbn; lia].
    constructor; cbn; try done; [by rewrite i32_small by lia|apply prefix_nil|apply drawable_input; [done|done|lia]]. }
  intros u s1 Hw. cbn [app] in Hw. apply wp_bind. eapply wp_mono; [by apply return_flags|]. intros v ? ->.
  destruct Hw. unfold gtty_dev_read.
  destruct (Z.eqb_spec device 0), (Z.eqb_spec buffer 0); try done. cbn [orb]. apply wp_bind, wp_gets.
  cbn [flag_input input_buffer_flag input_buffer_size input_buffer_index input_buffer set_input].
  rewrite wa_size0, wa_index0, i32_small by lia. cbn [Z.eqb Pos.eqb andb]. rewrite Z.eqb_refl.
  destruct (Z.leb_spec (Z.of_nat (length l)) (Z.of_nat (length (input_buffer s1)))); [|lia].
  apply wp_bind, wp_ret, wp_bind, wp_modify, wp_ret. destruct wa_prefix0 as [k ->].
  rewrite Nat2Z.id, take_app_length. done.
Qed.

(** The input buffer can be overrun: when a program asks for more than the
    1024 bytes of the buffer, the character typed after the first 1024 is stored
    behind the buffer. *)
Theorem long_line_overruns n l c s :
  waiting n [] s -> 1024 < n < 2 ^ 31 -> Forall plain l -> length l = 1024%nat -> plain c ->
  (type_keys l ;;; gtty_keyboard_listener echo KBD_VAL_TYPE_REGULAR c) s = Fault.
Proof.
  intros Hw Hn Hl Hlen Hc. pose proof (keys_stored n [] l s Hw Hl ltac:(cbn; lia) ltac:(cbn; lia)) as Hk.
  apply wp_inv in Hk as (u & s1 & Hs1 & []). unfold bind at 1. rewrite Hs1. cbn [app] in *.
  destruct (plain_not c Hc) as (H8 & H9 & H10 & H13 & Hu). unfold gtty_keyboard_listener.
  cbn [Z.eqb Pos.eqb KBD_VAL_TYPE_REGULAR]. rewrite Hu, H8, H9, H10, H13. cbn [orb negb andb].
  unfold bind, ret, gets, put_input. rewrite wa_size0, wa_index0.
  destruct (Z.ltb_spec (Z.of_nat (length l)) n); [|lia]. cbn [andb negb]. unfold arr_set.
  destruct (Z.leb_spec 0 (Z.of_nat (length l))), (Z.ltb_spec (Z.of_nat (length l)) (Z.of_nat (length s1.(input_buffer))));
    try lia. done.
Qed.
End input.

(** ** The terminal's own write as the echo *)

(** What [kputchar] hands to the terminal's device file. *)
Definition own_echo {X} (disp : display X) (font16 : list (list Z)) (device buffer c : Z) : cmd (gtty X) unit :=
  gtty_dev_write disp font16 device 0xFFFFFFFF 1 buffer (fun _ => c) (fun _ => c) ;;; ret tt.

(** Commands that leave the input line alone. *)
Definition no_input {X B} (c : cmd (gtty X) B) : Prop := forall s b s', c s = Ret (b, s') -> same_input s s'.

Section frame.
Context {X : Type}.
Implicit Types (s : gtty X).

Lemma same_input_trans s1 s2 s3 : same_input s1 s2 -> same_input s2 s3 -> same_input s1 s3.
Proof. unfold same_input. naive_solver congruence. Qed.
Lemma no_input_ret {B} (b : B) : no_input (X := X) (ret b).
Proof. by intros s ? ? [= <- <-]. Qed.
Lemma no_input_gets {B} (f : gtty X -> B) : no_input (gets f).
Proof. by intros s ? ? [= <- <-]. Qed.
Lemma no_input_modify (f : gtty X -> gtty X) : (forall s, same_input s (f s)) -> no_input (modify f).
Proof. intros Hf s ? ? [= <- <-]. apply Hf. Qed.
Lemma no_input_bind {B D} (c : cmd (gtty X) B) (k : B -> cmd (gtty X) D) :
  no_input c -> (forall b, no_input (k b)) -> no_input (bind c k).
Proof.
  intros Hc Hk s d s'. unfold bind. destruct (c s) as [[b s1]| |] eqn:E; try done. intros Hs.
  eapply same_input_trans; [by eapply Hc|by eapply Hk].
Qed.
Lemma no_input_for n i (body : Z -> cmd (gtty X) unit) : (forall j, no_input (body j)) -> no_input (for_ n i body).
Proof.
  intros Hb. revert i. induction n as [|n IH]; intros i; cbn [for_]; [apply no_input_ret|by apply no_input_bind].
Qed.
Lemma no_input_option {B} (o : option B) : no_input (X := X) (of_option o).
Proof. intros s b s'. destruct o; [by intros [= <- <-]|done]. Qed.
Lemma no_input_on_world {B} (c : cmd X B) : no_input (on_world c).
Proof. intros s b s'. unfold on_world. by destruct (c _) as [[? ?]| |]; intros [= <- <-]. Qed.
Lemma no_input_put_command i v : no_input (X := X) (put_command i v).
Proof. intros s b s'. unfold put_command. by destruct (arr_set _ _ _); intros [= <- <-]. Qed.

Lemma no_input_if (b : bool) (c d : cmd (gtty X) unit) : no_input c -> no_input d -> no_input (if b then c else d).
Proof. by destruct b. Qed.
End frame.

(** Peeling a command down to its primitive steps. *)
Ltac no_input :=
  repeat first
    [ apply no_input_ret | apply no_input_gets | apply no_input_on_world | apply no_input_put_command | apply no_input_option
    | apply no_input_if | apply no_input_for; intros ? | apply no_input_modify; intros ?; by repeat split
    | apply no_input_bind; [|intros ?] ].

Lemma vga_echo_frame disp c : plain c -> no_input (vga_char (X := vga) disp c).
Proof.
  intros Hc. destruct (plain_not c Hc) as (H8 & H9 & H10 & H13 & _). unfold vga_char, vga_put, vga_borders, move_to.
  rewrite H8, H9, H10, H13. unfold gtty_xy_to_location, disp_write, disp_command, disp_query. no_input.
Qed.

Lemma vesa_echo_frame disp font16 c : plain c -> no_input (vesa_char (X := vesa) disp font16 c).
Proof.
  intros Hc. destruct (plain_not c Hc) as (H8 & H9 & H10 & H13 & _).
  unfold vesa_char, vesa_put, vesa_borders, clear_cursor, vesa_cursor_handler, gtty_vesa_scroll, gtty_vesa_draw_char.
  rewrite H8, H9, H10, H13.
  unfold gtty_vesa_draw_symbol, draw_row, gtty_xy_to_location, disp_write, disp_command, disp_query. no_input.
Qed.

(** A command that ends well and leaves the input line alone. *)
Lemma wp_frame {X B} (c : cmd (gtty X) B) Q s :
  wp c (fun _ => Q) s -> no_input c -> wp c (fun _ s' => Q s' /\ same_input s s') s.
Proof. intros Hc Hn. apply wp_inv in Hc as (b & s' & Hr & HQ). eapply wp_Ret; [exact Hr|]. split; [done|by eapply Hn]. Qed.

(** The character screen, as in [GttySpec]. *)
Definition vga_drawable (dev col : Z) (s : gtty vga) : Prop :=
  (exists t, displays dev col t s) /\ s.(display_type) = GTTY_DISP_TYPE_VGA.

Lemma vga_echo_shown dev col font16 device buffer c s :
  device <> 0 -> buffer <> 0 -> vga_drawable dev col s -> plain c ->
  wp (own_echo (vga_display dev) font16 device buffer c) (fun _ s' => vga_drawable dev col s' /\ same_input s s') s.
Proof.
  intros Hd Hb [[t Ht] Hty] Hc. pose proof Ht as (? & ? & ? & [] & _). unfold own_echo, gtty_dev_write, gtty_write_vga.
  destruct (Z.eqb_spec device 0), (Z.eqb_spec buffer 0); try done. cbn [orb]. apply wp_bind, wp_bind, wp_gets.
  rewrite Hty. cbn [Z.eqb GTTY_DISP_TYPE_VGA GTTY_DISP_TYPE_VESA]. apply wp_bind, wp_gets. rewrite sh_mode.
  cbn [Z.eqb GTTY_MODE_TXT GTTY_MODE_PX]. change (Z.to_nat (i32 1)) with 1%nat. cbn [for_].
  apply wp_bind, wp_bind. destruct (plain_not c Hc) as (_ & _ & _ & _ & ->). destruct Hc as [Hr Hn].
  eapply wp_mono; [apply wp_frame; [apply (char_feed dev col t); [done|lia]|by apply vga_echo_frame]|].
  intros u s1 [Ht1 Hs1]. do 3 apply wp_ret. split; [|done]. split; [by eexists|].
  destruct Hs1 as (_ & _ & _ & _ & ->). done.
Qed.

#[global, refine] Instance vga_echo dev col font16 device buffer (Hd : device <> 0) (Hb : buffer <> 0) :
  Echoes (own_echo (vga_display dev) font16 device buffer) := {| drawable := vga_drawable dev col |}.
Proof.
  - intros s b i sz f [[t (x & y & g & [] & Hx & Hy & Hp & Hw)] Hty] Hl Hi. split; [|done].
    exists (Tape t.(cells) t.(pos) t.(top) i), x, y, g. split; [by constructor|done].
  - intros s c. by apply vga_echo_shown.
Defined.

(** The frame buffer, as in [GttyVesa]. *)
Definition vesa_drawable (dev w h : Z) (s : gtty vesa) : Prop :=
  (exists x y, typing dev w h x y s /\ settled w h x y) /\ s.(display_type) = GTTY_DISP_TYPE_VESA.

Lemma vesa_echo_shown dev w h font16 device buffer c s :
  64 <= w -> 72 <= h -> font_ok font16 -> device <> 0 -> buffer <> 0 -> vesa_drawable dev w h s -> plain c ->
  wp (own_echo (vesa_display dev) font16 device buffer c) (fun _ s' => vesa_drawable dev w h s' /\ same_input s s') s.
Proof.
  intros Hw Hh Hf Hd Hb [(x & y & Ht & Hx) Hty] Hc. unfold own_echo, gtty_dev_write, gtty_write_vesa.
  destruct (Z.eqb_spec device 0), (Z.eqb_spec buffer 0); try done. cbn [orb]. apply wp_bind, wp_bind, wp_gets.
  rewrite Hty. cbn [Z.eqb Pos.eqb GTTY_DISP_TYPE_VESA]. apply wp_bind, wp_gets. rewrite (ty_mode _ _ _ _ _ _ Ht).
  cbn [Z.eqb GTTY_MODE_TXT GTTY_MODE_PX]. change (Z.to_nat (i32 1)) with 1%nat. cbn [for_].
  apply wp_bind, wp_bind. destruct (plain_not c Hc) as (_ & _ & _ & _ & ->).
  eapply wp_mono; [apply wp_frame; [eapply char_kept; [done|done|done|done|done|apply Hc]|by apply vesa_echo_frame]|].
  intros u s1 [[Ht1 _] Hs1]. do 3 apply wp_ret. split; [|done]. split; [done|].
  destruct Hs1 as (_ & _ & _ & _ & ->). done.
Qed.

#[global, refine] Instance vesa_echo dev w h font16 device buffer
    (Hw : 64 <= w) (Hh : 72 <= h) (Hf : font_ok font16) (Hd : device <> 0) (Hb : buffer <> 0) :
  Echoes (own_echo (vesa_display dev) font16 device buffer) := {| drawable := vesa_drawable dev w h |}.
Proof.
  - intros s b i sz f [(x & y & [[] ? ? ? ? ?] & Hx) Hty] Hl Hi. split; [|done]. exists x, y.
    split; [|done]. constructor; [by constructor|done..].
  - intros s c. by apply vesa_echo_shown.
Defined.

(** ** Typing on the character screen with the echo on *)

Definition demo_input : gtty vga := set_modes GTTY_MODE_TXT 1 demo_tty.

Lemma demo_input_drawable : vga_drawable 5 7 demo_input.
Proof.
  destruct demo_displays as (x & y & f & [] & Hr). split; [|done]. exists blank_tape, x, y, f. split; [by constructor|exact Hr].
Qed.

Lemma typed_line_read_witness :
  wp (gtty_dev_control (vga_display 5) 9 GTTY_CMD_INPUT_READY (fun _ => 100) ;;;
      type_keys (own_echo (vga_display 5) [] 9 77) [108; 115] ;;;
      gtty_keyboard_listener (own_echo (vga_display 5) [] 9 77) KBD_VAL_TYPE_REGULAR 10 ;;;
      gtty_dev_read 9 0 100 77) (fun r s' =>
    r = (2, [108; 115]) /\ s'.(input_buffer_index) = 0 /\ s'.(input_buffer_size) = 0 /\
    s'.(input_buffer_flag) = 0 /\ s'.(input_buffer) = replicate 1024 0) demo_input.
Proof.
  apply (typed_line_read (vga_display 5) (own_echo (vga_display 5) [] 9 77) (Echoes0 := vga_echo 5 7 [] 9 77 ltac:(lia) ltac:(lia))
           9 100 77 [108; 115] demo_input); try lia.
  - reflexivity.
  - reflexivity.
  - reflexivity.
  - exact demo_input_drawable.
  - reflexivity.
  - by apply (bool_decide_unpack _).
  - cbn. lia.
Defined.
